(* ===== verification/_CoqProject ===== *)
-Q . S2P
Prelude.v
Words.v
Buffer.v
Array.v
Stack.v
MsgQueue.v
IntQueue.v
Scheduler.v
CoroutinePosix.v
CoroutineFiber.v
Coroutines.v
Fdset.v
HttpChars.v
HttpUrl.v
HttpUrlFields.v
HttpUrlSafe.v
HttpState.v
HttpExec.v
HttpWp.v
HttpSafe.v
HttpRun.v
HttpMethod.v
HttpHeaders.v
HttpLines.v
HttpRequest.v
HttpChunked.v
HttpResponse.v
Base64.v
Digest.v
Sha1.v
Md5.v
WebSocket.v
HTTPParser.v
HttpReceive.v
HttpStream.v
HttpCut.v
HttpFeed.v
HttpPieces.v
HttpService.v
Packet.v
HttpFormat.v
Typeids.v
Timer.v
EventLoop.v
Outcome.v
PromiseReceive.v
Connector.v
ConnectorSafe.v
ConnectorRun.v
DataSocket.v
DataSocketSafe.v
DataSocketRun.v
TCPService.v
TCPServiceRun.v
WrapTCPService.v
WrapTCPServiceRun.v
