(* ===== verification/Prelude.v ===== *)
(** * Verification library of brynet (TCP network library, C and C++ sources)

    brynet is a library for TCP servers and clients. Its sources are under
    [src/src/brynet]: [utils/] (containers, digests, packets, coroutines), [timer/],
    [net/] (event loop, connections, the service that runs them in threads, the
    connector) and [net/http/] (the HTTP parser of the Node.js project, its C++
    wrapper, WebSocket frames). This library models these parts as Rocq definitions that
    follow the code function by function, and proves what each of them promises.

    ** Layers and files

    This file holds the notations, the lists indexed by [Z] and the tactics; [Words] the
    machine integers; [Outcome] the monad of C++ code that may fail an assertion, leave
    a block or run out of fuel.

    Containers ([utils/*.c], [net/fdset.c]), each a record of the fields of the C structure,
    with the heap blocks as lists and [None] for an access outside them:
    - [Buffer]: buffer.c refines a bounded byte queue;
    - [Array], [Stack]: array.c, and stack.c as a double-ended queue across growth;
    - [Fdset]: fdset.c refines a finite map from descriptors to event masks;
    - [Packet]: packet.h, byte orders, growing writer, reader, round trip;
    - [Typeids]: Typeids.h refines an allocator of identifiers with values;
    - [MsgQueue]: MsgQueue.h, a writer and a reader thread interleaved;
    - [Timer]: Timer.cpp, the priority queue of timers and [schedule];
    - [IntQueue], [Scheduler], [CoroutinePosix], [CoroutineFiber], [Coroutines]: coroutine.c, both
      platforms against one state machine, over a class that stack.c implements;
    - [Base64], [Digest], [Sha1], [Md5]: the encodings and digests against RFC 4648,
      FIPS 180-4 and RFC 1321.

    HTTP ([net/http]):
    - [HttpChars], [HttpState], [HttpExec]: the tables and enumerations, the parser object
      with the macros as operations of an exit monad ([goto reexecute], [goto error] and
      [return] are its exits), and [http_parser_execute], one definition per [case];
    - [HttpWp], [HttpSafe]: weakest preconditions, the invariant of every state, safety
      and termination on any bytes;
    - [HttpUrl], [HttpUrlFields], [HttpUrlSafe]: [http_parser_parse_url];
    - [HttpRun], [HttpMethod], [HttpHeaders], [HttpLines], [HttpRequest]: what requests
      are read as, up to lists of complete requests; [HttpChunked]: those with a chunked
      body; [HttpResponse]: what responses are read as, and where their bodies end;
    - [HttpStream], [HttpCut], [HttpFeed], [HttpPieces]: the result does not depend on how
      the bytes of a stream are cut into pieces;
    - [HTTPParser], [HttpReceive], [HttpFormat]: the C++ class around it, and the builders
      whose requests it receives;
    - [WebSocket], [HttpService]: frames, the handshake, and the data callback of a session.

    Network ([net]):
    - [EventLoop]: the loop and the threads that post to it, every access to a shared
      variable a step; [DataSocket], [DataSocketSafe], [DataSocketRun]: a connection on its
      loop, over [Buffer]; [TCPService], [TCPServiceRun]: the threads of a service, their
      loops and the identifiers of sessions (over the allocator of [Typeids],
      and the connections of [DataSocket] seen from outside); [WrapTCPService],
      [WrapTCPServiceRun]: the session objects of the application on top of it, their
      options, closures and callbacks;
    - [PromiseReceive]: receives served from the data callback of a session;
    - [Connector], [ConnectorSafe], [ConnectorRun]: connections under way, polled through
      [Fdset] and [Stack], with their callbacks, the worker and the threads that start,
      stop and ask.

    ** How the models correspond to the code

    Definitions carry the names of the functions. Integers are [Z] with wrap-around written
    out ([u32], [u64], [s32] of [Words]); bytes are [Z] below 256. Memory is modelled where
    it matters: a block is a list, an access outside it is [None] or [Crash]. [malloc],
    uninitialised memory, [rand], the clock, [poll], sockets, [epoll], the order of
    [std::unordered_map] and the callbacks of the application are arguments or classes with
    laws ([Kernel], [IntQueue]); where a theorem needs one of these laws its witness
    instantiates it. Callbacks act on the object that calls them: they send, close and
    shut down ([DataSocket]), drop their socket and connect again ([Connector]), ask for
    receives ([PromiseReceive]), add and cancel timers ([Timer]). Threads are
    steps of an interleaving whose grain is the code's: a section under a mutex, an access
    to an atomic, one handler of a loop. A procedure given to [pushAsyncProc] is queued,
    or runs at once when the caller is the thread of the loop itself ([TCPService]); then it may
    run inside a function of the application, so that [WrapTCPService] keeps the functions
    of the application that run on each loop.

    Lengths and times are wrapped, or make the definition fail where the wrap is undefined,
    wherever the code can come to the bound: lengths of [Base64] ([unsigned int], [int]), the
    32-bit positions of [Sha1] and [Md5], the 16-bit fields of a URL, the 64-bit nanoseconds of
    [Timer], the positions of [Buffer] and [Packet], the [int]
    sizes of [Array] and [Stack]; only those of [Fdset] (see there) are kept in [Z]. Iterators and
    pointers that an operation invalidates are tracked where the code uses them afterwards: the
    iterator of [quickFlush] over a completion callback ([DataSocket.use_iterator]), null
    pointers and functions replaced while they run ([WrapTCPService]); a text
    that the HTTP parser gives to a callback is asserted to lie inside its data
    ([HttpState.in_data]).

    ** Loops and fuel

    Recursion follows the data where it can. Otherwise the fuel is one of these, and the
    theorem named shows that it is enough: 8 reexecutions per byte ([HttpSafe.execute_safe], a
    rank of states below 8); the bytes of a piece for the byte loop; the length of the buffer
    plus one for WebSocket messages; 64 for the padding of SHA-1 and the number of bytes
    for the blocks of MD5; a bound computed from the bytes sent and queued
    ([DataSocketRun.event_handled]); the load of a manager ([Timer.timers_fire]); some
    number of rounds ([PromiseReceive.process_ends]); 2^26 rounds, the limit of open files,
    which the loop over a [std::map] cannot reach as its keys go up
    ([ConnectorSafe.checkTimeout_ok]).

    ** What the theorems show

    Each theorem names in its comment the conditions under which the code keeps its promise; where
    it does not without them, a lemma on the same definitions shows what happens (the list
    below).

    - Messages in, messages out: [HttpRequest.requests_parsed], [HttpChunked.chunked_request_parsed],
      [HttpResponse.responses_parsed], [HttpPieces.requests_in_pieces],
      [HttpPieces.cut_independent], [HttpReceive.request_delivered],
      [HttpFormat.built_request_received], with the tables behind them
      ([HttpHeaders.header_name_recognised], [HttpMethod.method_decision],
      [HttpUrlFields.url_roundtrip]) and safety on any input ([HttpSafe.execute_safe],
      [HttpUrlSafe.url_fields_inside], [WebSocket.ws_extract_safe]).
    - WebSockets: [WebSocket.ws_frame_roundtrip], [HttpService.ws_session],
      [HttpService.ws_cut_independent].
    - The loop and its connections: no lost wakeup, procedures run once, in order and always
      ([EventLoop]); the bytes of a connection in both directions, flushes, the end, safety and
      termination ([DataSocketRun]); sessions as mailboxes ([TCPServiceRun]), and each session
      object of the application as one of them ([WrapTCPServiceRun]); requests of the
      connector answered once, also when it is stopped ([ConnectorRun]); timers ([Timer]);
      messages between threads ([MsgQueue]); framing of a stream ([PromiseReceive]).
    - Containers and encodings against abstract ones: the refinement theorems of [Buffer],
      [Stack], [Fdset], [Typeids], [Coroutines], the round trips of [Packet] and [Base64], the
      digests of [Sha1] and [Md5].
    - Behaviour that the code does not intend is proved as well, on runs of the
      same definitions: [HttpReceive.keep_alive_concatenates] and [pipelined_requests_merge],
      [HttpService.closed_request_redelivered], [TCPServiceRun.session_slot_lost],
      [DataSocketRun.heartbeat_checked_once], [empty_packet_closes],
      [close_in_completion_crashes] and [send_in_completion_crashes], [ConnectorRun.request_lost], [retry_deadlocks] and
      [connect_after_stop], [PromiseReceive.short_search], [MsgQueue.shared_before_wait],
      [WrapTCPServiceRun.replaced_while_running], [Timer.zero_timeout_never_ends], [HttpUrlFields.port_read_behind_buffer], [HttpChunked.high_byte_is_digit],
      [HttpResponse.not_modified_has_body] and [line_end_begins_message],
      [Buffer.addreadpos_past_write], [Md5.MD5.high_word_wrong].

    ** Not modelled

    OpenSSL and the branches that only it uses (the handshake and normalFlush of
    DataSocket.cpp), the Windows branches (IOCP), apart from the fibers of coroutine.c; the
    wrappers of system calls (SocketLibFunction.cpp, Socket.cpp, SSLHelper.cpp, the accept
    loop of ListenThread.cpp), which have no logic of their own; the wait of SyncConnector.cpp on
    a promise; HttpSession (HttpService.cpp), which stores callbacks and passes requests on to its
    TCPSession; of TCPService.cpp the body of the threads (it calls the loop of [EventLoop]
    with the time that [Timer] gives) and the calls that only look up or wake a loop; the terminal and file helpers in [utils/]; examples and tests. Of HTTP,
    responses with a chunked body or that switch protocols are covered by the theorems on any
    input (safety, independence of the cut) and not by a round trip. Data races are not a notion of the models:
    an access without a lock is a step of its own. *)

From stdpp Require Import prelude list strings.
From Stdlib Require Export ZArith Lia Bool Ascii String.
From stdpp Require Export prelude list strings.

#[global] Open Scope Z_scope.
#[global] Set Default Goal Selector "!".

(** ** Bytes and strings

    A C [char] is represented by its unsigned value, an integer in [0, 256). *)

Abbreviation bytes := (list Z).

Definition is_byte (b : Z) : Prop := 0 <= b < 256.

Definition chr (c : ascii) : Z := Z.of_N (N_of_ascii c).

Fixpoint str (s : string) : bytes :=
  match s with
  | EmptyString => []
  | String c s' => chr c :: str s'
  end.

Declare Scope brynet_scope.
Delimit Scope brynet_scope with brynet.
Notation "'#' c" := (chr c%char) (at level 1, c at level 0, format "# c") : brynet_scope.
#[global] Open Scope brynet_scope.

(** Replace the character constants of the goal (or everywhere) by numerals,
    so that [lia] sees them. *)
Ltac chars :=
  repeat match goal with
  | |- context [chr ?c] =>
      let v := eval vm_compute in (chr c) in change (chr c) with v
  | H : context [chr ?c] |- _ =>
      let v := eval vm_compute in (chr c) in change (chr c) with v in H
  end.

(** ** Lengths, slices and overwriting, indexed by [Z] *)

Definition zlen {A} (l : list A) : Z := Z.of_nat (length l).

(** [slice l off n]: the [n] elements of [l] from offset [off]. *)
Definition slice {A} (l : list A) (off n : Z) : list A :=
  take (Z.to_nat n) (drop (Z.to_nat off) l).

(** [splice l off src]: [l] with [src] written over it at offset [off]. *)
Definition splice {A} (l : list A) (off : Z) (src : list A) : list A :=
  take (Z.to_nat off) l ++ src ++ drop (Z.to_nat off + length src) l.

(** [memcpy(dst + off, src, n)] on a block [dst]; [None] is an access outside
    the block. Copying nothing is always defined. *)
Definition memcpy {A} (dst : list A) (off : Z) (src : list A) : option (list A) :=
  if zlen src =? 0 then Some dst
  else if (0 <=? off) && (off + zlen src <=? zlen dst)
  then Some (splice dst off src) else None.

(** The [n] bytes at offset [off] of a block, when they are inside it. *)
Definition load {A} (block : list A) (off n : Z) : option (list A) :=
  if (0 <=? off) && (0 <=? n) && (off + n <=? zlen block)
  then Some (slice block off n) else None.

(** [znth l i d]: the element at index [i], [d] outside the list. *)
Definition znth {A} (l : list A) (i : Z) (d : A) : A :=
  if i <? 0 then d else nth (Z.to_nat i) l d.

Arguments zlen : simpl never.
Arguments slice : simpl never.
Arguments splice : simpl never.
Arguments memcpy : simpl never.
Arguments load : simpl never.
Arguments znth : simpl never.

(** ** Generic list lemmas *)

Lemma zlen_nil {A} : zlen (@nil A) = 0.
Proof. reflexivity. Qed.

Lemma zlen_cons {A} (x : A) l : zlen (x :: l) = 1 + zlen l.
Proof. unfold zlen. simpl length. lia. Qed.

Lemma zlen_app {A} (l1 l2 : list A) : zlen (l1 ++ l2) = zlen l1 + zlen l2.
Proof. unfold zlen. rewrite length_app. lia. Qed.

Lemma zlen_nonneg {A} (l : list A) : 0 <= zlen l.
Proof. unfold zlen. lia. Qed.

Lemma zlen_replicate {A} n (x : A) : zlen (replicate n x) = Z.of_nat n.
Proof. unfold zlen. by rewrite length_replicate. Qed.

Lemma zlen_zero {A} (l : list A) : zlen l = 0 -> l = [].
Proof. destruct l; [done|]. rewrite zlen_cons. pose proof (zlen_nonneg l). lia. Qed.

Create Rewrite HintDb zlen.
#[export] Hint Rewrite @zlen_nil @zlen_cons @zlen_app @zlen_replicate : zlen.

Lemma lookup_slice {A} (l : list A) off n (i : nat) :
  slice l off n !! i =
  if decide (Z.of_nat i < n) then l !! (Z.to_nat off + i)%nat else None.
Proof.
  unfold slice. case_decide.
  - rewrite lookup_take_lt by lia. by rewrite lookup_drop.
  - apply lookup_take_ge. lia.
Qed.

Lemma zlen_slice {A} (l : list A) off n :
  0 <= off -> 0 <= n -> off + n <= zlen l -> zlen (slice l off n) = n.
Proof. unfold slice, zlen. rewrite length_take, length_drop. lia. Qed.

Lemma zlen_slice_le {A} (l : list A) off n : 0 <= n -> zlen (slice l off n) <= n.
Proof. unfold slice, zlen. rewrite length_take. lia. Qed.

Lemma zlen_splice {A} (l : list A) off src :
  0 <= off -> off + zlen src <= zlen l -> zlen (splice l off src) = zlen l.
Proof.
  unfold splice, zlen. rewrite !length_app, length_take, length_drop. lia.
Qed.

Lemma slice_nil {A} (l : list A) off n : n <= 0 -> slice l off n = [].
Proof. intros. unfold slice. by replace (Z.to_nat n) with O by lia. Qed.

Lemma slice_all {A} (l : list A) : slice l 0 (zlen l) = l.
Proof. unfold slice, zlen. rewrite Nat2Z.id. simpl. apply firstn_all. Qed.

Lemma slice_all_ge {A} (l : list A) n : zlen l <= n -> slice l 0 n = l.
Proof. unfold slice, zlen. intros. simpl. apply take_ge. lia. Qed.

(** Two adjacent slices. *)
Lemma slice_add {A} (l : list A) off n m :
  0 <= off -> 0 <= n -> 0 <= m ->
  slice l off (n + m) = slice l off n ++ slice l (off + n) m.
Proof.
  intros. unfold slice.
  rewrite Z2Nat.inj_add by lia.
  rewrite (Z2Nat.inj_add off n) by lia.
  rewrite <- drop_drop. symmetry. apply take_take_drop.
Qed.

Lemma slice_slice {A} (l : list A) a n b m :
  0 <= a -> 0 <= b -> b + m <= n -> slice (slice l a n) b m = slice l (a + b) m.
Proof.
  intros. apply list_eq. intros i. rewrite !lookup_slice.
  case_decide; [|done]. case_decide; [|lia]. f_equal. lia.
Qed.

Lemma slice_app_l {A} (l k : list A) off n :
  0 <= off -> off + n <= zlen l -> slice (l ++ k) off n = slice l off n.
Proof.
  unfold zlen. intros. apply list_eq. intros i. rewrite !lookup_slice.
  case_decide; [|done]. apply lookup_app_l. lia.
Qed.

Lemma slice_app_r {A} (l k : list A) off n :
  zlen l <= off -> slice (l ++ k) off n = slice k (off - zlen l) n.
Proof.
  unfold zlen. intros. apply list_eq. intros i. rewrite !lookup_slice.
  case_decide; [|done]. rewrite lookup_app_r by lia. f_equal. lia.
Qed.

Lemma slice_cons {A} (l : list A) off n x :
  0 <= off -> 1 <= n -> l !! Z.to_nat off = Some x ->
  slice l off n = x :: slice l (off + 1) (n - 1).
Proof.
  intros Ho Hn Hx. replace n with (1 + (n - 1)) at 1 by lia.
  rewrite slice_add by lia. change (?a :: ?b) with ([a] ++ b).
  f_equal. unfold slice. change (Z.to_nat 1) with 1%nat.
  by rewrite (drop_S _ _ _ Hx).
Qed.

(** What is written by [splice] is read back, the rest is unchanged. *)
Lemma slice_splice_same {A} (l : list A) off src :
  0 <= off -> off + zlen src <= zlen l ->
  slice (splice l off src) off (zlen src) = src.
Proof.
  unfold slice, splice, zlen. intros.
  rewrite drop_app_le by (rewrite length_take; lia).
  rewrite drop_ge by (rewrite length_take; lia). simpl.
  rewrite Nat2Z.id. apply take_app_length.
Qed.

Lemma slice_splice_before {A} (l : list A) off src a n :
  0 <= a -> a + n <= off -> off <= zlen l -> slice (splice l off src) a n = slice l a n.
Proof.
  unfold splice, zlen. intros. apply list_eq. intros i.
  rewrite !lookup_slice. case_decide; [|done].
  rewrite lookup_app_l by (rewrite length_take; lia).
  apply lookup_take_lt. lia.
Qed.

Lemma slice_splice_after {A} (l : list A) off src a n :
  0 <= off -> off + zlen src <= a -> off <= zlen l ->
  slice (splice l off src) a n = slice l a n.
Proof.
  unfold splice, zlen. intros. apply list_eq. intros i.
  rewrite !lookup_slice. case_decide; [|done].
  rewrite lookup_app_r by (rewrite length_take; lia).
  rewrite lookup_app_r by (rewrite length_take; lia).
  rewrite length_take, lookup_drop. f_equal. lia.
Qed.

Lemma memcpy_spec {A} (dst src : list A) off :
  0 <= off -> off + zlen src <= zlen dst ->
  memcpy dst off src = Some (if zlen src =? 0 then dst else splice dst off src).
Proof.
  intros. unfold memcpy. destruct (zlen src =? 0); [done|].
  rewrite (proj2 (Z.leb_le 0 off)), (proj2 (Z.leb_le _ _)); [done|lia..].
Qed.

Lemma znth_app_l {A} (l k : list A) i d : i < zlen l -> znth (l ++ k) i d = znth l i d.
Proof.
  unfold znth, zlen. intros. destruct (Z.ltb_spec i 0); [done|].
  apply app_nth1. lia.
Qed.

Lemma znth_app_r {A} (l k : list A) i d :
  zlen l <= i -> znth (l ++ k) i d = znth k (i - zlen l) d.
Proof.
  unfold znth, zlen. intros. destruct (Z.ltb_spec i 0); [lia|].
  destruct (Z.ltb_spec (i - Z.of_nat (length l)) 0); [lia|].
  rewrite app_nth2 by lia. f_equal. lia.
Qed.

Lemma znth_lookup {A} (l : list A) i d x :
  0 <= i -> l !! Z.to_nat i = Some x -> znth l i d = x.
Proof.
  intros ? Hx. unfold znth. destruct (Z.ltb_spec i 0); [lia|].
  by apply nth_lookup_Some.
Qed.

(** ** Boolean tests

    [bdestruct_all] splits on every integer comparison of the goal. *)
Ltac zbool_step :=
  match goal with
  | |- context [?a =? ?b] => destruct (Z.eqb_spec a b)
  | |- context [?a <=? ?b] => destruct (Z.leb_spec a b)
  | |- context [?a <? ?b] => destruct (Z.ltb_spec a b)
  end.

Ltac zbool := repeat (zbool_step; simpl andb; simpl orb; simpl negb; cbv iota; try lia).

(** Hypotheses that are boolean comparisons become propositions. *)
Ltac zprop :=
  repeat match goal with
  | H : (_ =? _) = true |- _ => apply Z.eqb_eq in H
  | H : (_ =? _) = false |- _ => apply Z.eqb_neq in H
  | H : (_ <=? _) = true |- _ => apply Z.leb_le in H
  | H : (_ <=? _) = false |- _ => apply Z.leb_gt in H
  | H : (_ <? _) = true |- _ => apply Z.ltb_lt in H
  | H : (_ <? _) = false |- _ => apply Z.ltb_ge in H
  | H : (_ && _) = true |- _ => apply andb_true_iff in H; destruct H
  | H : (_ || _) = false |- _ => apply orb_false_iff in H; destruct H
  | H : negb _ = true |- _ => apply negb_true_iff in H
  | H : negb _ = false |- _ => apply negb_false_iff in H
  end.

Lemma load_ok {A} (block : list A) off n :
  0 <= off -> 0 <= n -> off + n <= zlen block -> load block off n = Some (slice block off n).
Proof. intros. unfold load. zbool. done. Qed.

(** ** Finite checks over all bytes *)

Definition all_bytes : list Z := seqZ 0 256.

Lemma byte_forall (P : Z -> bool) :
  forallb P all_bytes = true -> forall b, is_byte b -> P b = true.
Proof.
  intros H b Hb. rewrite forallb_forall in H. apply H.
  apply list_elem_of_In. unfold all_bytes. apply elem_of_seqZ. unfold is_byte in Hb. lia.
Qed.

(** [lia] with division and modulo by constants. *)
Ltac dlia := Z.to_euclidean_division_equations; lia.
