(* ===== verification/Words.v ===== *)
(** * Machine integers

    Unsigned integers of [w] bits are integers in [0, 2^w) and their arithmetic
    wraps; signed ones are read back in two's complement. Multi-byte integers
    in memory are little-endian byte lists (the hosts the library supports are
    x86). *)

From S2P Require Import Prelude.

Definition wrap (w z : Z) : Z := z mod 2 ^ w.
Definition swrap (w z : Z) : Z := (z + 2 ^ (w - 1)) mod 2 ^ w - 2 ^ (w - 1).

Arguments wrap : simpl never.
Arguments swrap : simpl never.

Abbreviation u8 := (wrap 8).
Abbreviation u16 := (wrap 16).
Abbreviation u32 := (wrap 32).
Abbreviation u64 := (wrap 64).
Abbreviation s32 := (swrap 32).

(** [size_t] of the 64-bit targets. *)
Definition SIZE_MAX : Z := 2 ^ 64 - 1.

Lemma wrap_range w z : 0 <= w -> 0 <= wrap w z < 2 ^ w.
Proof. intros. apply Z.mod_pos_bound. lia. Qed.

Lemma wrap_small w z : 0 <= z < 2 ^ w -> wrap w z = z.
Proof. apply Z.mod_small. Qed.

Lemma wrap_wrap w z : wrap w (wrap w z) = wrap w z.
Proof. unfold wrap. apply Zmod_mod. Qed.

Lemma wrap_add_l w a b : wrap w (wrap w a + b) = wrap w (a + b).
Proof. unfold wrap. apply Zplus_mod_idemp_l. Qed.

Lemma wrap_add_r w a b : wrap w (a + wrap w b) = wrap w (a + b).
Proof. unfold wrap. apply Zplus_mod_idemp_r. Qed.

Lemma swrap_small w z : 0 < w -> - 2 ^ (w - 1) <= z < 2 ^ (w - 1) -> swrap w z = z.
Proof.
  intros Hw Hz. unfold swrap.
  assert (2 ^ w = 2 * 2 ^ (w - 1)) as E.
  { replace w with (1 + (w - 1)) at 1 by lia. rewrite Z.pow_add_r by lia. lia. }
  rewrite Z.mod_small; lia.
Qed.

Lemma u64_small z : 0 <= z <= SIZE_MAX -> u64 z = z.
Proof. unfold SIZE_MAX. intros. apply wrap_small. lia. Qed.

(** ** Bitwise equalities by testing every bit *)

Create Rewrite HintDb zbits.
#[export] Hint Rewrite Z.lor_spec Z.land_spec Z.lxor_spec Z.shiftl_spec Z.shiftr_spec
  Z.testbit_0_l using lia : zbits.

Lemma testbit_high z n i : 0 <= z < 2 ^ n -> n <= i -> Z.testbit z i = false.
Proof.
  intros Hz Hi. destruct (Z.ltb_spec n 0).
  { rewrite Z.pow_neg_r in Hz by lia. lia. }
  rewrite <- (Z.mod_small z (2 ^ n)) by done.
  by apply Z.mod_pow2_bits_high.
Qed.

Lemma land_shiftl_0 a b n : 0 <= n -> 0 <= a < 2 ^ n -> Z.land a (Z.shiftl b n) = 0.
Proof.
  intros Hn Ha. apply Z.bits_inj'. intros i Hi.
  rewrite Z.bits_0, Z.land_spec, Z.shiftl_spec by done.
  destruct (Z.ltb_spec i n).
  - rewrite (Z.testbit_neg_r b) by lia. apply andb_false_r.
  - by rewrite (testbit_high a n) by lia.
Qed.

Lemma lor_shiftl_add a b n :
  0 <= n -> 0 <= a < 2 ^ n -> Z.lor a (Z.shiftl b n) = a + b * 2 ^ n.
Proof.
  intros Hn Ha. pose proof (land_shiftl_0 a b n Hn Ha) as E.
  rewrite <- Z.shiftl_mul_pow2 by done.
  by rewrite (Z.add_nocarry_lxor _ _ E), (Z.lxor_lor _ _ E).
Qed.

(** ** Integers in memory *)

(** The [n] low bytes of [z], least significant first. *)
Fixpoint le_bytes (n : nat) (z : Z) : bytes :=
  match n with
  | O => []
  | S n => z mod 256 :: le_bytes n (z / 256)
  end.

Fixpoint of_le_bytes (l : bytes) : Z :=
  match l with
  | [] => 0
  | b :: l => b + 256 * of_le_bytes l
  end.

Lemma length_le_bytes n z : length (le_bytes n z) = n.
Proof. revert z. induction n; intros; simpl; auto. Qed.

Lemma zlen_le_bytes n z : zlen (le_bytes n z) = Z.of_nat n.
Proof. unfold zlen. by rewrite length_le_bytes. Qed.

Lemma le_bytes_are_bytes n z : Forall is_byte (le_bytes n z).
Proof.
  revert z. induction n; intros; simpl; constructor; [|done].
  unfold is_byte. dlia.
Qed.

Lemma of_le_bytes_range l : Forall is_byte l -> 0 <= of_le_bytes l < 256 ^ zlen l.
Proof.
  induction 1 as [|b l Hb Hl IH]; [done|].
  rewrite zlen_cons, Z.pow_add_r by (auto using zlen_nonneg with lia; lia).
  cbn [of_le_bytes]. unfold is_byte in Hb. lia.
Qed.

Lemma of_le_bytes_le_bytes n z : of_le_bytes (le_bytes n z) = z mod 256 ^ Z.of_nat n.
Proof.
  revert z. induction n; intros; [by rewrite Z.mod_1_r|].
  cbn [of_le_bytes le_bytes]. rewrite IHn, Nat2Z.inj_succ, Z.pow_succ_r by lia.
  rewrite Z.rem_mul_r by lia. done.
Qed.

Lemma le_bytes_of_le_bytes l : Forall is_byte l -> le_bytes (length l) (of_le_bytes l) = l.
Proof.
  induction 1 as [|b l Hb Hl IH]; [done|].
  cbn [length of_le_bytes le_bytes]. unfold is_byte in Hb.
  rewrite (Z.mul_comm 256), Z.mod_add, Z.div_add, Z.mod_small, Z.div_small by lia.
  by rewrite Z.add_0_l, IH.
Qed.

(** ** Checked [int] arithmetic

    Signed overflow is undefined in C: [None]. *)

Definition INT_MAX : Z := 2 ^ 31 - 1.

Definition chk_int (z : Z) : option Z :=
  if (- 2 ^ 31 <=? z) && (z <=? INT_MAX) then Some z else None.

Lemma chk_int_ok z : - 2 ^ 31 <= z <= INT_MAX -> chk_int z = Some z.
Proof.
  unfold chk_int. intros. rewrite (proj2 (Z.leb_le _ z)), (proj2 (Z.leb_le z _)) by lia. done.
Qed.

Lemma lor_bound a b n : 0 <= n -> 0 <= a < 2 ^ n -> 0 <= b < 2 ^ n -> 0 <= Z.lor a b < 2 ^ n.
Proof.
  intros Hn Ha Hb. split; [apply Z.lor_nonneg; lia|].
  assert (E : Z.lor a b = Z.lor a b mod 2 ^ n); [|rewrite E; apply Z.mod_pos_bound; lia].
  apply Z.bits_inj'. intros k Hk. rewrite Z.lor_spec.
  destruct (Z.lt_ge_cases k n).
  - by rewrite Z.mod_pow2_bits_low, Z.lor_spec by lia.
  - rewrite Z.mod_pow2_bits_high by lia.
    rewrite <- (Z.mod_small a (2 ^ n)), <- (Z.mod_small b (2 ^ n)) by lia.
    by rewrite !Z.mod_pow2_bits_high by lia.
Qed.

