(* ===== verification/Buffer.v ===== *)
(** * utils/buffer.c: the linear receive buffer

    A heap block with a write and a read position. The buffer refines a bounded
    byte queue: the unread bytes are those between the two positions. *)

From S2P Require Import Prelude.
From S2P Require Import Words.

Record buffer_s := mk_buffer {
  b_data : bytes;
  b_data_len : Z;
  b_write_pos : Z;
  b_read_pos : Z;
}.

Definition set_b_data (d : bytes) (self : buffer_s) : buffer_s :=
  mk_buffer d (b_data_len self) (b_write_pos self) (b_read_pos self).
Definition set_b_write_pos (n : Z) (self : buffer_s) : buffer_s :=
  mk_buffer (b_data self) (b_data_len self) n (b_read_pos self).
Definition set_b_read_pos (n : Z) (self : buffer_s) : buffer_s :=
  mk_buffer (b_data self) (b_data_len self) (b_write_pos self) n.

(** [malloc1] tells whether the record is allocated; [malloc2] is the block
    obtained for the data, with whatever bytes it holds. *)
Definition ox_buffer_new (malloc1 : bool) (malloc2 : Z -> option bytes)
    (buffer_size : Z) : option buffer_s :=
  if malloc1 then
    match malloc2 buffer_size with
    | Some block => Some (mk_buffer block buffer_size 0 0)
    | None => None
    end
  else None.

Definition ox_buffer_init (self : buffer_s) : buffer_s :=
  set_b_write_pos 0 (set_b_read_pos 0 self).

Definition ox_buffer_getwritepos (self : buffer_s) : Z := b_write_pos self.
Definition ox_buffer_getreadpos (self : buffer_s) : Z := b_read_pos self.

Definition ox_buffer_addwritepos (self : buffer_s) (value : Z) : buffer_s :=
  let temp := u64 (b_write_pos self + value) in
  if temp <=? b_data_len self then set_b_write_pos temp self else self.

Definition ox_buffer_addreadpos (self : buffer_s) (value : Z) : buffer_s :=
  let temp := u64 (b_read_pos self + value) in
  if temp <=? b_data_len self then set_b_read_pos temp self else self.

Definition ox_buffer_getreadvalidcount (self : buffer_s) : Z :=
  u64 (b_write_pos self - b_read_pos self).

Definition ox_buffer_getwritevalidcount (self : buffer_s) : Z :=
  u64 (b_data_len self - b_write_pos self).

Definition ox_buffer_getsize (self : buffer_s) : Z := b_data_len self.

(** Pointers into [data] are offsets; [None] is [NULL]. *)
Definition ox_buffer_getwriteptr (self : buffer_s) : option Z :=
  if b_write_pos self <? b_data_len self then Some (b_write_pos self) else None.

Definition ox_buffer_getreadptr (self : buffer_s) : option Z :=
  if b_read_pos self <? b_data_len self then Some (b_read_pos self) else None.

Definition ox_buffer_adjustto_head (self : buffer_s) : option buffer_s :=
  if b_read_pos self <=? 0 then Some self
  else
    let len := ox_buffer_getreadvalidcount self in
    block ← (if 0 <? len then
               moved ← load (b_data self) (b_read_pos self) len;
               memcpy (b_data self) 0 moved
             else Some (b_data self));
    Some (set_b_write_pos len (set_b_read_pos 0 (set_b_data block self))).

(** The recursive call after [ox_buffer_adjustto_head] uses one unit of fuel;
    [None] is an access outside a block or missing fuel. The result of the
    recursive call is ignored, as in the source. *)
Fixpoint ox_buffer_write (fuel : nat) (self : buffer_s) (data : bytes) (len : Z)
    : option (bool * buffer_s) :=
  match fuel with
  | O => None
  | S fuel =>
      if len <=? ox_buffer_getwritevalidcount self then
        src ← load data 0 len;
        block ← match ox_buffer_getwriteptr self with
                | Some ptr => memcpy (b_data self) ptr src
                | None => if len =? 0 then Some (b_data self) else None
                end;
        Some (true, ox_buffer_addwritepos (set_b_data block self) len)
      else
        let left_len := u64 (b_data_len self - ox_buffer_getreadvalidcount self) in
        if len <=? left_len then
          self1 ← ox_buffer_adjustto_head self;
          r ← ox_buffer_write fuel self1 data len;
          Some (true, snd r)
        else Some (false, self)
  end.

(** ** Invariant and abstraction *)

Record buffer_wf (self : buffer_s) : Prop := {
  wf_block : zlen (b_data self) = b_data_len self;
  wf_size : b_data_len self <= SIZE_MAX;
  wf_read : 0 <= b_read_pos self <= b_write_pos self;
  wf_write : b_write_pos self <= b_data_len self;
}.

(** The unread bytes. *)
Definition contents (self : buffer_s) : bytes :=
  slice (b_data self) (b_read_pos self) (b_write_pos self - b_read_pos self).

(** The specification: a byte queue of bounded capacity. *)
Record bqueue := mk_bqueue { q_cap : Z; q_bytes : bytes }.

Definition bq_push (q : bqueue) (d : bytes) : bool * bqueue :=
  if zlen (q_bytes q) + zlen d <=? q_cap q
  then (true, mk_bqueue (q_cap q) (q_bytes q ++ d))
  else (false, q).

Definition bq_drop (q : bqueue) (n : Z) : bqueue :=
  mk_bqueue (q_cap q) (drop (Z.to_nat n) (q_bytes q)).

Definition abs (self : buffer_s) : bqueue := mk_bqueue (b_data_len self) (contents self).

Ltac buffer_wf :=
  repeat match goal with
  | H : buffer_wf ?s |- _ =>
      lazymatch goal with
      | _ : 0 <= b_read_pos s <= b_write_pos s |- _ => fail
      | _ => pose proof (wf_block s H); pose proof (wf_size s H);
             pose proof (wf_read s H); pose proof (wf_write s H)
      end
  end; unfold SIZE_MAX in *.

Section Facts.
Context (self : buffer_s) (Hwf : buffer_wf self).

Lemma readvalidcount_wf : ox_buffer_getreadvalidcount self = b_write_pos self - b_read_pos self.
Proof. buffer_wf. unfold ox_buffer_getreadvalidcount. apply u64_small. unfold SIZE_MAX. lia. Qed.

Lemma writevalidcount_wf : ox_buffer_getwritevalidcount self = b_data_len self - b_write_pos self.
Proof. buffer_wf. unfold ox_buffer_getwritevalidcount. apply u64_small. unfold SIZE_MAX. lia. Qed.

Lemma zlen_contents : zlen (contents self) = b_write_pos self - b_read_pos self.
Proof. buffer_wf. apply zlen_slice; lia. Qed.

Lemma load_wf off n : 0 <= off -> 0 <= n -> off + n <= b_data_len self ->
  load (b_data self) off n = Some (slice (b_data self) off n).
Proof. buffer_wf. intros. apply load_ok; lia. Qed.

Lemma adjustto_head_wf :
  exists self', ox_buffer_adjustto_head self = Some self' /\ buffer_wf self' /\
    b_read_pos self' = 0 /\ b_data_len self' = b_data_len self /\
    b_write_pos self' = b_write_pos self - b_read_pos self /\
    contents self' = contents self.
Proof.
  pose proof zlen_contents as Hlen. unfold ox_buffer_adjustto_head.
  rewrite readvalidcount_wf. zbool.
  { exists self. buffer_wf. split_and!; [done|by constructor|lia|done|lia|done]. }
  - rewrite load_wf by (buffer_wf; lia). simpl.
    fold (contents self).
    rewrite memcpy_spec by (buffer_wf; lia). rewrite Hlen. zbool. simpl.
    eexists. split; [done|]. split_and!; [|done..|].
    + buffer_wf. constructor; simpl; rewrite ?zlen_splice, ?Hlen; unfold SIZE_MAX; lia.
    + unfold contents at 1. cbn [b_data b_read_pos b_write_pos set_b_data set_b_read_pos set_b_write_pos].
      rewrite Z.sub_0_r, <- Hlen. apply slice_splice_same; buffer_wf; lia.
  - simpl. eexists. split; [done|]. unfold contents; simpl.
    split_and!; try done.
    + buffer_wf. constructor; simpl; unfold SIZE_MAX; lia.
    + rewrite !slice_nil by (buffer_wf; lia). done.
Qed.

End Facts.

(** Writing in place, when the tail of the block has room. *)
Lemma write_direct self fuel d :
  buffer_wf self -> zlen d <= b_data_len self - b_write_pos self ->
  exists self', ox_buffer_write (S fuel) self d (zlen d) = Some (true, self') /\
    buffer_wf self' /\ b_data_len self' = b_data_len self /\
    b_read_pos self' = b_read_pos self /\
    contents self' = contents self ++ d.
Proof.
  intros Hwf Hd. pose proof (zlen_nonneg d). simpl.
  rewrite writevalidcount_wf by done. rewrite (proj2 (Z.leb_le _ _)) by done.
  rewrite load_ok by lia. simpl. rewrite slice_all.
  unfold ox_buffer_getwriteptr.
  destruct (Z.ltb_spec (b_write_pos self) (b_data_len self)) as [Hp|Hp].
  - rewrite memcpy_spec by (buffer_wf; lia). simpl.
    unfold ox_buffer_addwritepos. simpl.
    rewrite u64_small by (buffer_wf; unfold SIZE_MAX; lia).
    rewrite (proj2 (Z.leb_le _ _)) by (buffer_wf; lia).
    eexists. split; [done|]. simpl. unfold contents; simpl.
    destruct (Z.eqb_spec (zlen d) 0) as [E|E].
    + apply zlen_zero in E. subst d. rewrite app_nil_r, zlen_nil, Z.add_0_r.
      buffer_wf. split_and!; [by constructor|done..].
    + split_and!; [|done..|].
      * buffer_wf. constructor; simpl; rewrite ?zlen_splice; unfold SIZE_MAX; lia.
      * replace (b_write_pos self + zlen d - b_read_pos self)
          with ((b_write_pos self - b_read_pos self) + zlen d) by lia.
        rewrite slice_add by (buffer_wf; lia).
        replace (b_read_pos self + (b_write_pos self - b_read_pos self))
          with (b_write_pos self) by lia.
        rewrite slice_splice_same, slice_splice_before by (buffer_wf; lia). done.
  - assert (d = []) as -> by (apply zlen_zero; lia).
    simpl. unfold ox_buffer_addwritepos; simpl. rewrite zlen_nil, Z.add_0_r, app_nil_r.
    rewrite u64_small by (buffer_wf; unfold SIZE_MAX; lia).
    rewrite (proj2 (Z.leb_le _ _)) by (buffer_wf; lia).
    eexists. split; [done|]. buffer_wf. split_and!; [by constructor|done..].
Qed.

Lemma write_shift self fuel d :
  buffer_wf self -> b_data_len self - b_write_pos self < zlen d ->
  ox_buffer_write (S fuel) self d (zlen d) =
  if zlen d <=? b_data_len self - zlen (contents self) then
    self1 ← ox_buffer_adjustto_head self;
    r ← ox_buffer_write fuel self1 d (zlen d);
    Some (true, snd r)
  else Some (false, self).
Proof.
  intros Hwf Hd. simpl. rewrite writevalidcount_wf, readvalidcount_wf by done.
  rewrite (proj2 (Z.leb_gt (zlen d) _)) by done.
  rewrite zlen_contents, u64_small by (buffer_wf; unfold SIZE_MAX; done || lia). done.
Qed.

Lemma write_spec self d :
  buffer_wf self -> zlen d <= SIZE_MAX ->
  exists ok self', ox_buffer_write 2 self d (zlen d) = Some (ok, self') /\
    buffer_wf self' /\ (ok, abs self') = bq_push (abs self) d.
Proof.
  intros Hwf Hmax. unfold bq_push, abs. simpl q_bytes. simpl q_cap.
  rewrite zlen_contents by done. pose proof (zlen_nonneg d).
  destruct (Z.leb_spec (zlen d) (b_data_len self - b_write_pos self)).
  - destruct (write_direct self 1 d Hwf) as (s' & E & W & L & _ & C); [done|].
    exists true, s'. rewrite E, L, C. split_and!; [done..|].
    rewrite (proj2 (Z.leb_le _ _)) by (buffer_wf; lia). done.
  - rewrite write_shift, zlen_contents by done.
    destruct (Z.leb_spec (zlen d) (b_data_len self - (b_write_pos self - b_read_pos self))).
    + destruct (adjustto_head_wf self Hwf) as (s1 & E1 & W1 & R1 & L1 & P1 & C1).
      destruct (write_direct s1 0 d W1) as (s' & E & W & L & _ & C); [lia|].
      rewrite E1. cbn [mbind option_bind]. rewrite E.
      exists true, s'. rewrite L, L1, C, C1. split_and!; [done..|].
      rewrite (proj2 (Z.leb_le _ _)) by lia. done.
    + exists false, self. split_and!; [done..|].
      rewrite (proj2 (Z.leb_gt _ _)) by lia. done.
Qed.

(** ** Refinement of the bounded queue *)

Lemma new_wf malloc2 n self :
  0 <= n <= SIZE_MAX -> (forall k b, malloc2 k = Some b -> zlen b = k) ->
  ox_buffer_new true malloc2 n = Some self -> buffer_wf self /\ abs self = mk_bqueue n [].
Proof.
  intros Hn Hm E. unfold ox_buffer_new in E. destruct (malloc2 n) as [block|] eqn:E2; [|done].
  injection E as <-. apply Hm in E2. split.
  - constructor; simpl; lia.
  - unfold abs, contents. simpl. by rewrite slice_nil.
Qed.

Lemma addreadpos_spec self n :
  buffer_wf self -> 0 <= n <= zlen (contents self) ->
  buffer_wf (ox_buffer_addreadpos self n) /\
  abs (ox_buffer_addreadpos self n) = bq_drop (abs self) n.
Proof.
  intros Hwf Hn. rewrite zlen_contents in Hn by done. unfold ox_buffer_addreadpos.
  rewrite u64_small by (buffer_wf; unfold SIZE_MAX; lia).
  rewrite (proj2 (Z.leb_le _ _)) by (buffer_wf; lia). split.
  - buffer_wf. constructor; simpl; unfold SIZE_MAX; lia.
  - unfold abs, bq_drop, contents. simpl. f_equal.
    replace (b_write_pos self - b_read_pos self)
      with (n + (b_write_pos self - (b_read_pos self + n))) by lia.
    rewrite slice_add by (buffer_wf; lia).
    rewrite drop_app_length'; [done|].
    pose proof (zlen_slice (b_data self) (b_read_pos self) n) as E. unfold zlen in E.
    buffer_wf. unfold zlen in *. lia.
Qed.

Lemma init_spec self :
  buffer_wf self ->
  buffer_wf (ox_buffer_init self) /\ abs (ox_buffer_init self) = mk_bqueue (b_data_len self) [].
Proof.
  intros. split.
  - buffer_wf. constructor; simpl; unfold SIZE_MAX; lia.
  - unfold abs, contents. simpl. by rewrite slice_nil.
Qed.

(** The operations a client performs. *)
Inductive buf_op :=
  | OpWrite (d : bytes)
  | OpConsume (n : Z)
  | OpAdjust
  | OpInit.

Definition buf_step (op : buf_op) (self : buffer_s) : option (bool * buffer_s) :=
  match op with
  | OpWrite d => ox_buffer_write 2 self d (zlen d)
  | OpConsume n => Some (true, ox_buffer_addreadpos self n)
  | OpAdjust => self' ← ox_buffer_adjustto_head self; Some (true, self')
  | OpInit => Some (true, ox_buffer_init self)
  end.

(** [None]: more is consumed than there is, which the contract of the buffer leaves to its
    clients to avoid. *)
Definition bq_step (op : buf_op) (q : bqueue) : option (bool * bqueue) :=
  match op with
  | OpWrite d => Some (bq_push q d)
  | OpConsume n => if n <=? zlen (q_bytes q) then Some (true, bq_drop q n) else None
  | OpAdjust => Some (true, q)
  | OpInit => Some (true, mk_bqueue (q_cap q) [])
  end.

Definition op_ok (op : buf_op) : Prop :=
  match op with
  | OpWrite d => zlen d <= SIZE_MAX
  | OpConsume n => 0 <= n
  | _ => True
  end.

(** Any operations one after the other, with their answers. *)
Fixpoint run_ops {S} (step : buf_op -> S -> option (bool * S)) (ops : list buf_op) (s : S) : option (list bool * S) :=
  match ops with
  | [] => Some ([], s)
  | op :: ops =>
      '(b, s) ← step op s;
      '(bs, s) ← run_ops step ops s;
      Some (b :: bs, s)
  end.

Definition buf_run : list buf_op -> buffer_s -> option (list bool * buffer_s) := run_ops buf_step.
Definition bq_run : list buf_op -> bqueue -> option (list bool * bqueue) := run_ops bq_step.

Lemma buf_step_refines op self b q :
  buffer_wf self -> op_ok op -> bq_step op (abs self) = Some (b, q) ->
  exists self', buf_step op self = Some (b, self') /\ buffer_wf self' /\ abs self' = q.
Proof.
  intros Hwf Hop Hq. destruct op as [d|n| |]; simpl in *.
  - destruct (write_spec self d Hwf Hop) as (ok & s' & E & W & A).
    injection Hq as Hq. rewrite Hq in A. injection A as -> A. by exists s'.
  - destruct (Z.leb_spec n (zlen (contents self))); [|done]. injection Hq as <- <-.
    exists (ox_buffer_addreadpos self n). split; [done|]. by apply addreadpos_spec.
  - destruct (adjustto_head_wf self Hwf) as (s' & E & W & R & L & P & C). injection Hq as <- <-.
    exists s'. rewrite E. split_and!; [done..|]. unfold abs. by rewrite L, C.
  - injection Hq as <- <-. exists (ox_buffer_init self). split; [done|]. by apply init_spec.
Qed.

(** C33: on any sequence of writes, consumptions, compactions and
    resets in which no consumption asks for more bytes than are unread, the buffer of buffer.c answers
    and holds exactly what a bounded byte queue does; in particular no access leaves its block and no unread
    byte is lost or reordered. The condition is needed: [ox_buffer_addreadpos] does not check it
    ([addreadpos_past_write]). *)
Theorem buffer_refines_queue (ops : list buf_op) (self : buffer_s) answers q :
  buffer_wf self -> Forall op_ok ops -> bq_run ops (abs self) = Some (answers, q) ->
  exists self', buf_run ops self = Some (answers, self') /\ buffer_wf self' /\ abs self' = q.
Proof.
  intros Hwf Hops. revert self Hwf answers.
  induction Hops as [|op ops Hop _ IH]; intros self Hwf answers E.
  { injection E as <- <-. by exists self. }
  unfold bq_run, buf_run in *. cbn [run_ops] in *.
  destruct (bq_step op (abs self)) as [[b q1]|] eqn:Eq; [|done]. cbn [mbind option_bind] in E.
  destruct (buf_step_refines op self b q1 Hwf Hop Eq) as (s1 & E1 & W1 & <-).
  destruct (run_ops bq_step ops (abs s1)) as [[bs q2]|] eqn:Er; [|done]. injection E as <- <-.
  destruct (IH s1 W1 bs Er) as (s2 & E2 & W2 & A2).
  exists s2. rewrite E1. cbn [mbind option_bind]. by rewrite E2.
Qed.

Definition buffer_demo : buffer_s := mk_buffer [7; 7; 7; 7] 4 0 0.
Definition buffer_demo_ops : list buf_op :=
  [OpWrite [1; 2; 3]; OpConsume 2; OpWrite [4; 5]; OpWrite [6; 7]; OpAdjust; OpConsume 1].

Lemma buffer_refines_queue_witness :
  exists self', buf_run buffer_demo_ops buffer_demo = Some ([true; true; true; false; true; true], self')
    /\ contents self' = [4; 5].
Proof.
  destruct (buffer_refines_queue buffer_demo_ops buffer_demo [true; true; true; false; true; true] (mk_bqueue 4 [4; 5]))
    as (s & E & _ & A).
  - constructor; vm_compute; intuition discriminate.
  - repeat constructor; vm_compute; discriminate.
  - vm_compute. reflexivity.
  - exists s. split; [exact E|]. exact (f_equal q_bytes A).
Defined.

(** The guard of [ox_buffer_addreadpos] is the block's size and not the
    write position: consuming more than the unread bytes is accepted and the
    count of unread bytes wraps around to a huge value. *)
Theorem addreadpos_past_write (self : buffer_s) (n : Z) :
  buffer_wf self -> zlen (contents self) < n <= b_data_len self - b_read_pos self ->
  ox_buffer_getreadvalidcount (ox_buffer_addreadpos self n)
    = 2 ^ 64 - (n - zlen (contents self)).
Proof.
  intros Hwf Hn. pose proof (zlen_nonneg (contents self)).
  rewrite zlen_contents in * by done. unfold ox_buffer_addreadpos.
  rewrite u64_small by (buffer_wf; unfold SIZE_MAX; lia).
  rewrite (proj2 (Z.leb_le _ _)) by lia.
  unfold ox_buffer_getreadvalidcount. simpl. unfold wrap. buffer_wf.
  symmetry. apply Z.mod_unique with (q := -1); lia.
Qed.

Lemma addreadpos_past_write_witness :
  ox_buffer_getreadvalidcount (ox_buffer_addreadpos (mk_buffer [1; 2; 3; 4] 4 1 0) 3)
    = 2 ^ 64 - 2.
Proof.
  apply (addreadpos_past_write (mk_buffer [1; 2; 3; 4] 4 1 0) 3).
  - constructor; vm_compute; intuition discriminate.
  - vm_compute. intuition discriminate.
Defined.
