(* ===== verification/Array.v ===== *)
(** * utils/array.c: the resizable array of fixed-size elements *)

From S2P Require Import Prelude.
From S2P Require Import Words.

Record array_s := mk_array {
  a_buffer : bytes;
  a_buffer_size : Z;
  a_element_size : Z;
  a_element_num : Z;
}.

Definition set_a_buffer (b : bytes) (self : array_s) : array_s :=
  mk_array b (a_buffer_size self) (a_element_size self) (a_element_num self).

(** In the operations below the outer option is [None] on undefined behaviour
    (signed overflow, access outside a block), the inner one is [NULL].
    [malloc1] tells whether the record is obtained, [malloc2] gives the data
    block; a negative [int] size is converted to [size_t]. *)
Definition ox_array_new (malloc1 : bool) (malloc2 : Z -> option bytes)
    (num element_size : Z) : option (option array_s) :=
  buffer_size ← chk_int (num * element_size);
  if negb malloc1 then Some None
  else match malloc2 (u64 buffer_size) with
       | Some block =>
           (* memset *)
           Some (Some (mk_array (replicate (length block) 0) buffer_size element_size num))
       | None => Some None
       end.

(** A pointer into the buffer is an offset. The [assert(false)] of the failing
    branch is compiled out in release builds. *)
Definition ox_array_at (self : array_s) (index : Z) : option Z :=
  if (0 <=? index) && (index <? a_element_num self)
  then Some (index * a_element_size self) else None.

Definition ox_array_set (self : array_s) (index : Z) (data : bytes) : option (bool * array_s) :=
  match ox_array_at self index with
  | Some old_data =>
      src ← load data 0 (a_element_size self);
      block ← memcpy (a_buffer self) old_data src;
      Some (true, set_a_buffer block self)
  | None => Some (false, self)
  end.

Definition ox_array_increase (malloc : Z -> option bytes) (self : array_s)
    (increase_num : Z) : option (bool * array_s) :=
  if increase_num <=? 0 then Some (false, self)
  else
    grow ← chk_int (increase_num * a_element_size self);
    new_buffer_size ← chk_int (a_buffer_size self + grow);
    match malloc (u64 new_buffer_size) with
    | Some block =>
        let zeroed := replicate (length block) 0 in
        old ← load (a_buffer self) 0 (a_buffer_size self);
        new_buffer ← memcpy zeroed 0 old;
        n ← chk_int (a_element_num self + increase_num);
        Some (true, mk_array new_buffer new_buffer_size (a_element_size self) n)
    | None => Some (false, self)
    end.

Definition ox_array_num (self : array_s) : Z := a_element_num self.

(** ** Invariant and abstraction: the list of the elements *)

Record array_wf (self : array_s) : Prop := {
  awf_block : zlen (a_buffer self) = a_buffer_size self;
  awf_size : a_buffer_size self = a_element_num self * a_element_size self;
  awf_max : a_buffer_size self <= INT_MAX;
  awf_es : 0 < a_element_size self;
  awf_num : 0 <= a_element_num self;
}.

Definition element (self : array_s) (i : Z) : bytes :=
  slice (a_buffer self) (i * a_element_size self) (a_element_size self).

Definition elements (self : array_s) : list bytes :=
  element self <$> seqZ 0 (a_element_num self).

(** What the C library promises of [malloc]: the block has the size asked for. *)
Definition malloc_ok (malloc : Z -> option bytes) : Prop :=
  forall n b, malloc n = Some b -> zlen b = n.

Ltac array_wf :=
  repeat match goal with
  | H : array_wf ?s |- _ =>
      lazymatch goal with
      | _ : 0 <= a_element_num s |- _ => fail
      | _ => pose proof (awf_block s H); pose proof (awf_size s H);
             pose proof (awf_max s H); pose proof (awf_es s H); pose proof (awf_num s H)
      end
  end; unfold INT_MAX in *.

Lemma element_offset self i :
  array_wf self -> 0 <= i < a_element_num self ->
  0 <= i * a_element_size self /\
  i * a_element_size self + a_element_size self <= a_buffer_size self.
Proof. intros. array_wf. nia. Qed.

Lemma lookup_elements self i :
  array_wf self -> 0 <= i < a_element_num self ->
  elements self !! Z.to_nat i = Some (element self i).
Proof.
  intros Hwf Hi. unfold elements. rewrite list_lookup_fmap, lookup_seqZ_lt by lia.
  simpl. f_equal. f_equal. lia.
Qed.

Lemma length_elements self : array_wf self -> zlen (elements self) = a_element_num self.
Proof. intros. array_wf. unfold zlen, elements. rewrite length_fmap, length_seqZ. lia. Qed.

Lemma zlen_element self i :
  array_wf self -> 0 <= i < a_element_num self -> zlen (element self i) = a_element_size self.
Proof.
  intros Hwf Hi. pose proof (element_offset self i Hwf Hi). array_wf. apply zlen_slice; lia.
Qed.

Lemma array_set_spec self i data :
  array_wf self -> 0 <= i < a_element_num self -> zlen data = a_element_size self ->
  exists self', ox_array_set self i data = Some (true, self') /\ array_wf self' /\
    a_element_num self' = a_element_num self /\
    a_element_size self' = a_element_size self /\
    forall j, 0 <= j < a_element_num self ->
      element self' j = if j =? i then data else element self j.
Proof.
  intros Hwf Hi Hd. pose proof (element_offset self i Hwf Hi).
  unfold ox_array_set, ox_array_at. zbool. simpl.
  rewrite load_ok by (array_wf; lia). rewrite <- Hd, slice_all. simpl.
  rewrite Hd, memcpy_spec by (array_wf; lia).
  destruct (Z.eqb_spec (zlen data) 0); [array_wf; lia|]. simpl.
  eexists. split; [done|]. split_and!; [|done..|].
  - array_wf. constructor; simpl; rewrite ?zlen_splice; unfold INT_MAX; lia.
  - intros j Hj. unfold element; simpl. pose proof (element_offset self j Hwf Hj).
    destruct (Z.eqb_spec j i) as [->|].
    + pose proof (slice_splice_same (a_buffer self) (i * a_element_size self) data) as E.
      rewrite Hd in E. apply E; array_wf; lia.
    + destruct (Z.ltb_spec j i).
      * apply slice_splice_before; array_wf; nia.
      * apply slice_splice_after; array_wf; nia.
Qed.

Lemma array_new_spec malloc2 num es :
  malloc_ok malloc2 -> 0 <= num -> 0 < es -> num * es <= INT_MAX ->
  ox_array_new true malloc2 num es = Some None \/
  exists self, ox_array_new true malloc2 num es = Some (Some self) /\ array_wf self /\
    a_element_num self = num /\ a_element_size self = es /\
    forall j, 0 <= j < num -> element self j = replicate (Z.to_nat es) 0.
Proof.
  intros Hm Hn He Hmax. unfold ox_array_new.
  rewrite chk_int_ok by (unfold INT_MAX in *; nia). simpl.
  destruct (malloc2 (u64 (num * es))) as [block|] eqn:E; [right|by left].
  apply Hm in E. rewrite u64_small in E by (unfold INT_MAX, SIZE_MAX in *; nia).
  assert (zlen (replicate (length block) 0) = num * es) as E2.
  { rewrite zlen_replicate. exact E. }
  eexists. split; [done|]. split_and!.
  - constructor; simpl; unfold INT_MAX in *; lia.
  - done.
  - done.
  - intros j Hj. unfold element. simpl. apply list_eq. intros i.
    rewrite lookup_slice. unfold zlen in *. rewrite length_replicate in E2.
    case_decide.
    + rewrite !lookup_replicate_2; [done|nia..].
    + symmetry. apply lookup_ge_None_2. rewrite length_replicate. lia.
Qed.

(** Two arrays of the same shape with the same elements hold the same list. *)
Lemma elements_ext self l :
  array_wf self -> zlen l = a_element_num self ->
  (forall i, 0 <= i < a_element_num self -> l !! Z.to_nat i = Some (element self i)) ->
  elements self = l.
Proof.
  intros Hwf Hl Hlook. pose proof (length_elements self Hwf) as Hlen.
  apply list_eq. intros i. destruct (decide (Z.of_nat i < a_element_num self)).
  - rewrite <- (Nat2Z.id i). rewrite lookup_elements, Hlook by (done || lia). done.
  - unfold zlen in *. rewrite !(proj2 (lookup_ge_None _ _)) by lia. done.
Qed.

(** The elements of a block that starts with the old one and ends with zeros. *)
Lemma elements_extended self k len :
  array_wf self -> 0 < k ->
  let n := (a_element_num self + k) * a_element_size self in
  Z.of_nat len = n -> n <= INT_MAX ->
  let b := a_buffer self ++ drop (length (a_buffer self)) (replicate len 0) in
  let self' := mk_array b n (a_element_size self) (a_element_num self + k) in
  array_wf self' /\
  elements self' = elements self ++
    replicate (Z.to_nat k) (replicate (Z.to_nat (a_element_size self)) 0).
Proof.
  intros Hwf Hk n Hlen Hmax b self'. pose proof (length_elements self Hwf) as Hle.
  assert (Hzb : zlen b = n).
  { unfold b. rewrite zlen_app. unfold zlen. rewrite length_drop, length_replicate.
    array_wf. unfold zlen in *. nia. }
  assert (W : array_wf self') by (array_wf; constructor; simpl; unfold INT_MAX in *; lia).
  split; [done|]. apply elements_ext; [done|..]; simpl.
  - rewrite zlen_app, zlen_replicate. unfold zlen in *. lia.
  - intros i Hi. unfold element; simpl. unfold b. destruct (Z.ltb_spec i (a_element_num self)).
    + pose proof (element_offset self i Hwf ltac:(lia)).
      rewrite lookup_app_l, lookup_elements by (done || unfold zlen in *; lia).
      unfold element. rewrite slice_app_l by (array_wf; lia). done.
    + rewrite lookup_app_r, lookup_replicate_2 by (unfold zlen in *; lia). f_equal.
      rewrite slice_app_r by (array_wf; nia). clear W. apply list_eq. intros j.
      rewrite lookup_slice, drop_replicate. subst n. array_wf. unfold zlen in *. case_decide.
      * rewrite !lookup_replicate_2; [done|nia..].
      * apply lookup_ge_None_2. rewrite length_replicate. lia.
Qed.

(** Growing an array keeps its elements and appends zeroed ones; when the
    allocation fails nothing changes. *)
Theorem array_increase_elements malloc self k :
  array_wf self -> malloc_ok malloc -> 0 < k ->
  (a_element_num self + k) * a_element_size self <= INT_MAX ->
  let n := (a_element_num self + k) * a_element_size self in
  ox_array_increase malloc self k = Some (false, self) /\ malloc n = None \/
  exists self', ox_array_increase malloc self k = Some (true, self') /\ array_wf self' /\
    elements self' = elements self ++
      replicate (Z.to_nat k) (replicate (Z.to_nat (a_element_size self)) 0).
Proof.
  intros Hwf Hm Hk Hmax. unfold ox_array_increase. zbool.
  rewrite (chk_int_ok (k * _)) by (array_wf; nia). simpl.
  assert (a_buffer_size self + k * a_element_size self
          = (a_element_num self + k) * a_element_size self) as -> by (array_wf; nia).
  rewrite !chk_int_ok by (array_wf; nia). simpl.
  rewrite u64_small by (array_wf; unfold SIZE_MAX; nia).
  destruct (malloc _) as [block|] eqn:E; [right|by left].
  apply Hm in E. unfold zlen in E. rewrite load_ok by (array_wf; lia). simpl.
  replace (slice (a_buffer self) 0 (a_buffer_size self)) with (a_buffer self)
    by (array_wf; symmetry; apply slice_all_ge; lia).
  rewrite memcpy_spec by (rewrite ?zlen_replicate; array_wf; nia). simpl.
  set (b := if _ =? _ then _ else _).
  assert (b = a_buffer self ++ drop (length (a_buffer self)) (replicate (length block) 0)) as ->.
  { unfold b. destruct (Z.eqb_spec (zlen (a_buffer self)) 0) as [E0|]; [|done].
    apply zlen_zero in E0. by rewrite E0. }
  eexists. split; [done|]. by apply elements_extended.
Qed.

(** A concrete allocator, for the examples. *)
Definition demo_malloc (n : Z) : option bytes :=
  if 0 <=? n then Some (replicate (Z.to_nat n) 9) else None.

Lemma demo_malloc_ok : malloc_ok demo_malloc.
Proof.
  intros n b. unfold demo_malloc. destruct (Z.leb_spec 0 n); [|done].
  intros [= <-]. rewrite zlen_replicate. lia.
Qed.

Lemma array_increase_elements_witness :
  exists self', ox_array_increase demo_malloc (mk_array [1; 2; 3; 4] 4 2 2) 1 = Some (true, self') /\
    elements self' = [[1; 2]; [3; 4]; [0; 0]].
Proof.
  destruct (array_increase_elements demo_malloc (mk_array [1; 2; 3; 4] 4 2 2) 1)
    as [[_ H]|(s & E & _ & H)].
  - constructor; vm_compute; intuition discriminate.
  - apply demo_malloc_ok.
  - done.
  - vm_compute. discriminate.
  - discriminate H.
  - exists s. split; [exact E|exact H].
Defined.
