(* ===== verification/Stack.v ===== *)
(** * utils/stack.c: the growing ring buffer of fixed-size elements

    Despite its name the structure is a double-ended queue over array.c: [push]
    adds at the back, [popfront] and [popback] remove at the two ends. *)

From S2P Require Import Prelude.
From S2P Require Import Words.
From S2P Require Import Array.

Record stack_s := mk_stack {
  st_array : array_s;
  st_element_size : Z;
  st_element_num : Z;
  st_front : Z;
  st_num : Z;
}.

Definition ox_stack_new (malloc0 malloc1 : bool) (malloc2 : Z -> option bytes)
    (num element_size : Z) : option (option stack_s) :=
  if negb malloc0 then Some None
  else
    a ← ox_array_new malloc1 malloc2 num element_size;
    match a with
    | Some array => Some (Some (mk_stack array element_size num 0 0))
    | None => Some None
    end.

Definition ox_stack_init (self : stack_s) : stack_s :=
  mk_stack (st_array self) (st_element_size self) (st_element_num self) 0 0.

Definition ox_stack_size (self : stack_s) : Z := st_element_num self.
Definition ox_stack_num (self : stack_s) : Z := st_num self.
Definition ox_stack_isfull (self : stack_s) : bool := st_num self =? st_element_num self.

(** [(a + b) % n] on [int]: undefined when the sum overflows or [n] is 0. *)
Definition ring_index (a b n : Z) : option Z :=
  s ← chk_int (a + b);
  if n =? 0 then None else Some (Z.rem s n).

(** The loop of [ox_stack_increase]: iterations [i], [i+1], ... of [k]. *)
Fixpoint increase_copy (self : stack_s) (current_num : Z) (tmp : array_s) (i : Z) (k : nat)
    : option array_s :=
  match k with
  | O => Some tmp
  | S k =>
      idx ← ring_index (st_front self) i current_num;
      ptr ← ox_array_at (st_array self) idx;
      data ← load (a_buffer (st_array self)) ptr (a_element_size tmp);
      r ← ox_array_set tmp i data;
      increase_copy self current_num (snd r) (i + 1) k
  end.

Definition ox_stack_increase (malloc1 : bool) (malloc2 : Z -> option bytes)
    (self : stack_s) (increase_num : Z) : option (bool * stack_s) :=
  n ← chk_int (st_element_num self + increase_num);
  a ← ox_array_new malloc1 malloc2 n (st_element_size self);
  match a with
  | None => Some (false, self)
  | Some tmp =>
      let current_num := st_element_num self in
      let current_stack_num := ox_stack_num self in
      tmp' ← increase_copy self current_num tmp 0 (Z.to_nat current_stack_num);
      Some (true, mk_stack tmp' (st_element_size self) (ox_array_num tmp') 0 (st_num self))
  end.

Definition ox_stack_push (malloc1 : bool) (malloc2 : Z -> option bytes)
    (self : stack_s) (data : bytes) : option (bool * stack_s) :=
  self1 ← (if ox_stack_isfull self
           then r ← ox_stack_increase malloc1 malloc2 self (ox_stack_size self); Some (snd r)
           else Some self);
  if ox_stack_isfull self1 then Some (false, self1)
  else
    idx ← ring_index (st_front self1) (st_num self1) (st_element_num self1);
    r ← ox_array_set (st_array self1) idx data;
    Some (true, mk_stack (snd r) (st_element_size self1) (st_element_num self1)
                  (st_front self1) (st_num self1 + 1)).

Definition ox_stack_front (self : stack_s) : option Z :=
  if 0 <? ox_stack_num self then ox_array_at (st_array self) (st_front self) else None.

(** The pops return a pointer into the array (an offset, [None] is [NULL]). *)
Definition ox_stack_popfront (self : stack_s) : option (option Z * stack_s) :=
  match ox_stack_front self with
  | Some ret =>
      front ← ring_index (st_front self) 1 (st_element_num self);
      Some (Some ret, mk_stack (st_array self) (st_element_size self) (st_element_num self)
                        front (st_num self - 1))
  | None => Some (None, self)
  end.

Definition ox_stack_popback (self : stack_s) : option (option Z * stack_s) :=
  if 0 <? ox_stack_num self then
    let num := st_num self - 1 in
    idx ← ring_index (st_front self) num (st_element_num self);
    Some (ox_array_at (st_array self) idx,
          mk_stack (st_array self) (st_element_size self) (st_element_num self)
            (st_front self) num)
  else Some (None, self).

(** ** Invariant and abstraction: a deque of elements *)

Record stack_wf (self : stack_s) : Prop := {
  swf_array : array_wf (st_array self);
  swf_es : st_element_size self = a_element_size (st_array self);
  swf_en : st_element_num self = a_element_num (st_array self);
  swf_num : 0 <= st_num self <= st_element_num self;
  swf_front : 0 <= st_front self;
  swf_front_lt : 0 < st_element_num self -> st_front self < st_element_num self;
  swf_max : 2 * st_element_num self <= INT_MAX;
}.

(** The element at distance [i] from the front. *)
Definition ring_element (self : stack_s) (i : Z) : bytes :=
  element (st_array self) ((st_front self + i) mod st_element_num self).

Definition deque (self : stack_s) : list bytes :=
  ring_element self <$> seqZ 0 (st_num self).

(** What the pointer [p] points to. *)
Definition pointee (self : stack_s) (p : Z) : bytes :=
  slice (a_buffer (st_array self)) p (st_element_size self).

Ltac stack_wf :=
  repeat match goal with
  | H : stack_wf ?s |- _ =>
      lazymatch goal with
      | _ : 0 <= st_front s |- _ => fail
      | _ => pose proof (swf_array s H); pose proof (swf_es s H); pose proof (swf_en s H);
             pose proof (swf_num s H); pose proof (swf_front s H);
             pose proof (swf_front_lt s H); pose proof (swf_max s H)
      end
  end; unfold INT_MAX in *.

Lemma ring_index_ok a b n :
  0 <= a -> 0 <= b -> a + b <= INT_MAX -> 0 < n -> ring_index a b n = Some ((a + b) mod n).
Proof.
  intros. unfold ring_index. rewrite chk_int_ok by (unfold INT_MAX in *; lia). simpl.
  destruct (Z.eqb_spec n 0); [lia|]. by rewrite Z.rem_mod_nonneg by lia.
Qed.

(** Distances below the capacity name distinct cells. *)
Lemma ring_index_inj f i j n :
  0 <= i < n -> 0 <= j < n -> (f + i) mod n = (f + j) mod n -> i = j.
Proof.
  intros Hi Hj H. assert ((i - j) mod n = 0) as E.
  { replace (i - j) with ((f + i) - (f + j)) by lia.
    rewrite Zminus_mod, H, Z.sub_diag. apply Z.mod_0_l. lia. }
  apply Z.mod_divide in E; [|lia]. destruct E as [q E].
  assert (q = 0) by nia. nia.
Qed.

Lemma length_deque self : stack_wf self -> zlen (deque self) = st_num self.
Proof. intros. stack_wf. unfold zlen, deque. rewrite length_fmap, length_seqZ. lia. Qed.

Lemma lookup_deque self i :
  0 <= i < st_num self -> deque self !! Z.to_nat i = Some (ring_element self i).
Proof.
  intros. unfold deque. rewrite list_lookup_fmap, lookup_seqZ_lt by lia.
  simpl. f_equal. f_equal. lia.
Qed.

Lemma deque_ext self l :
  stack_wf self -> zlen l = st_num self ->
  (forall i, 0 <= i < st_num self -> l !! Z.to_nat i = Some (ring_element self i)) ->
  deque self = l.
Proof.
  intros Hwf Hl Hlook. pose proof (length_deque self Hwf) as Hlen.
  apply list_eq. intros i. destruct (decide (Z.of_nat i < st_num self)).
  - rewrite <- (Nat2Z.id i). rewrite lookup_deque, Hlook by lia. done.
  - unfold zlen in *. rewrite !(proj2 (lookup_ge_None _ _)) by lia. done.
Qed.

Lemma increase_copy_spec self tmp k i :
  stack_wf self -> array_wf tmp -> 0 <= i -> a_element_size tmp = st_element_size self ->
  i + Z.of_nat k = st_num self -> st_num self <= a_element_num tmp ->
  exists tmp', increase_copy self (st_element_num self) tmp i k = Some tmp' /\ array_wf tmp' /\
    a_element_num tmp' = a_element_num tmp /\ a_element_size tmp' = a_element_size tmp /\
    forall j, 0 <= j < st_num self ->
      element tmp' j = if j <? i then element tmp j else ring_element self j.
Proof.
  intros Hwf. revert tmp i. induction k as [|k IH]; intros tmp i Ht Hi Hes Hk Hn.
  { exists tmp. split_and!; [done..|]. intros j Hj. zbool; done. }
  assert (0 < st_element_num self) as Hpos by (stack_wf; lia).
  cbn [increase_copy]. rewrite ring_index_ok by (stack_wf; lia). simpl.
  set (idx := (st_front self + i) mod st_element_num self).
  assert (0 <= idx < st_element_num self) as Hidx by (apply Z.mod_pos_bound; lia).
  unfold ox_array_at at 1.
  rewrite (proj2 (Z.leb_le _ _)), (proj2 (Z.ltb_lt _ _)) by (stack_wf; lia). simpl.
  assert (0 <= idx < a_element_num (st_array self)) as Hidx' by (stack_wf; lia).
  pose proof (element_offset (st_array self) idx (swf_array _ Hwf) Hidx').
  rewrite load_ok by (stack_wf; array_wf; lia). simpl.
  set (d := slice _ _ _).
  assert (d = ring_element self i) as Hd.
  { unfold d, ring_element, element. fold idx. by rewrite Hes, (swf_es _ Hwf). }
  destruct (array_set_spec tmp i d Ht) as (t1 & E1 & W1 & N1 & S1 & L1); [lia|..].
  { rewrite Hd. unfold ring_element. fold idx. rewrite zlen_element by (stack_wf; done).
    stack_wf; lia. }
  rewrite E1. simpl.
  destruct (IH t1 (i + 1)) as (t2 & E2 & W2 & N2 & S2 & L2); [done|lia|congruence|lia|lia|].
  exists t2. rewrite E2. split_and!; [done|done|congruence|congruence|].
  intros j Hj. rewrite L2 by lia. destruct (Z.ltb_spec j (i + 1)).
  - rewrite L1 by lia. destruct (Z.eqb_spec j i) as [->|]; [rewrite Z.ltb_irrefl; done|].
    rewrite (proj2 (Z.ltb_lt _ _)) by lia. done.
  - rewrite (proj2 (Z.ltb_ge _ _)) by lia. done.
Qed.

(** The client sees a deque: [push] at the back ... *)
Lemma push_notfull self m1 m2 d :
  stack_wf self -> zlen d = st_element_size self -> st_num self < st_element_num self ->
  exists self', ox_stack_push m1 m2 self d = Some (true, self') /\ stack_wf self' /\
    deque self' = deque self ++ [d] /\ st_element_num self' = st_element_num self /\
    st_element_size self' = st_element_size self.
Proof.
  intros Hwf Hd Hroom. unfold ox_stack_push, ox_stack_isfull.
  rewrite (proj2 (Z.eqb_neq _ _)) by lia. simpl.
  rewrite (proj2 (Z.eqb_neq _ _)) by lia.
  rewrite ring_index_ok by (stack_wf; lia). simpl.
  set (idx := (st_front self + st_num self) mod st_element_num self).
  assert (0 <= idx < st_element_num self) as Hidx by (apply Z.mod_pos_bound; stack_wf; lia).
  destruct (array_set_spec (st_array self) idx d) as (a & E & W & N & S & L);
    [stack_wf; done|stack_wf; lia|stack_wf; lia|].
  rewrite E. simpl. eexists. split; [done|].
  assert (stack_wf (mk_stack a (st_element_size self) (st_element_num self)
                      (st_front self) (st_num self + 1))) as W'.
  { stack_wf. constructor; simpl; unfold INT_MAX; try done || lia. }
  split_and!; [done| |done..]. apply deque_ext; [done|..]; simpl.
  { rewrite zlen_app, length_deque by done. done. }
  intros i Hi. unfold ring_element; simpl.
  rewrite L by (stack_wf; pose proof (Z.mod_pos_bound (st_front self + i) (st_element_num self)); lia).
  destruct (Z.ltb_spec i (st_num self)).
  - rewrite lookup_app_l by (pose proof (length_deque self Hwf); unfold zlen in *; lia).
    rewrite lookup_deque by lia. rewrite (proj2 (Z.eqb_neq _ _)); [done|].
    unfold idx. intros Heq. apply (ring_index_inj (st_front self) i (st_num self)) in Heq;
      stack_wf; lia.
  - assert (i = st_num self) as -> by lia. fold idx. rewrite Z.eqb_refl.
    pose proof (length_deque self Hwf). rewrite lookup_app_r by (unfold zlen in *; lia).
    replace (Z.to_nat (st_num self) - length (deque self))%nat with O by (unfold zlen in *; lia).
    done.
Qed.

(** ... growing when it is full: the ring is copied to a block twice as large. *)
Lemma increase_spec self m2 n :
  stack_wf self -> malloc_ok m2 -> 0 < n ->
  2 * (st_element_num self + n) <= INT_MAX ->
  (st_element_num self + n) * st_element_size self <= INT_MAX ->
  ox_stack_increase true m2 self n = Some (false, self) \/
  exists self', ox_stack_increase true m2 self n = Some (true, self') /\ stack_wf self' /\
    deque self' = deque self /\ st_element_num self' = st_element_num self + n /\
    st_element_size self' = st_element_size self.
Proof.
  intros Hwf Hm Hn Hmax1 Hmax2. unfold ox_stack_increase.
  rewrite chk_int_ok by (stack_wf; lia). simpl.
  destruct (array_new_spec m2 (st_element_num self + n) (st_element_size self))
    as [E|(tmp & E & W & N & S & _)]; [done|stack_wf; lia|stack_wf; array_wf; lia|done|..].
  { left. by rewrite E. }
  right. rewrite E. simpl. unfold ox_stack_num.
  destruct (increase_copy_spec self tmp (Z.to_nat (st_num self)) 0)
    as (t & E' & W' & N' & S' & L); [done|done|lia|done|stack_wf; lia|stack_wf; lia|].
  rewrite E'. simpl. unfold ox_array_num. eexists. split; [done|].
  assert (stack_wf (mk_stack t (st_element_size self) (a_element_num t) 0 (st_num self))) as Wf.
  { stack_wf. constructor; simpl; rewrite ?N', ?N; unfold INT_MAX; try done || congruence || lia. }
  split_and!; [done| |simpl; congruence|done]. apply deque_ext; [done|..]; simpl.
  { by rewrite length_deque. }
  intros i Hi. rewrite lookup_deque by done. unfold ring_element at 2; simpl.
  rewrite N', N, Z.mod_small, L by (stack_wf; lia).
  rewrite (proj2 (Z.ltb_ge _ _)) by lia. done.
Qed.

(** An allocator that does not fail. *)
Definition malloc_total (m2 : Z -> option bytes) : Prop :=
  malloc_ok m2 /\ forall n, 0 <= n -> is_Some (m2 n).

Lemma array_new_total m2 num es :
  malloc_total m2 -> 0 <= num -> 0 < es -> num * es <= INT_MAX ->
  ox_array_new true m2 num es <> Some None.
Proof.
  intros [Hm Ht] Hn He Hmax. unfold ox_array_new.
  rewrite chk_int_ok by (unfold INT_MAX in *; nia). simpl.
  rewrite u64_small by (unfold INT_MAX, SIZE_MAX in *; nia).
  destruct (Ht (num * es)) as [b ->]; [nia|done].
Qed.

Lemma push_spec self m2 d :
  stack_wf self -> malloc_total m2 -> zlen d = st_element_size self ->
  0 < st_element_num self ->
  4 * st_num self * st_element_size self <= INT_MAX ->
  4 * st_num self <= INT_MAX ->
  exists self', ox_stack_push true m2 self d = Some (true, self') /\ stack_wf self' /\
    deque self' = deque self ++ [d] /\
    st_element_num self <= st_element_num self' <= Z.max (st_element_num self) (2 * st_num self) /\
    st_element_size self' = st_element_size self.
Proof.
  intros Hwf Hm Hd Hpos Hmax1 Hmax2.
  destruct (Z.eqb_spec (st_num self) (st_element_num self)) as [Hfull|Hfull].
  - destruct (increase_spec self m2 (st_element_num self))
      as [E|(s1 & E & W & D & N & S)]; [done|apply Hm|done|lia|stack_wf; array_wf; lia|..].
    { exfalso. unfold ox_stack_increase in E.
      rewrite chk_int_ok in E by (stack_wf; lia). simpl in E.
      destruct (array_new_spec m2 (st_element_num self + st_element_num self)
        (st_element_size self)) as [E'|(tmp & E' & _)];
        [apply Hm|lia|stack_wf; array_wf; lia|stack_wf; array_wf; nia|..].
      - apply array_new_total in E'; [done|done|lia|stack_wf; array_wf; lia|stack_wf; array_wf; nia].
      - rewrite E' in E. simpl in E. by destruct (increase_copy _ _ _ _ _). }
    assert (ox_stack_isfull self = true) as Hf by (apply Z.eqb_eq; done).
    unfold ox_stack_push. rewrite Hf.
    unfold ox_stack_size. rewrite E. simpl.
    assert (st_num s1 = st_num self) as Hs1.
    { rewrite <- (length_deque s1), <- (length_deque self) by done. by rewrite D. }
    destruct (push_notfull s1 true m2 d W) as (s2 & E2 & W2 & D2 & N2 & S2);
      [congruence|lia|].
    assert (ox_stack_isfull s1 = false) as Hf1 by (apply Z.eqb_neq; lia).
    unfold ox_stack_push in E2. rewrite Hf1 in E2. simpl in E2. rewrite Hf1 in E2.
    rewrite Hf1, E2. exists s2.
    split_and!; [done|done|congruence|lia|lia|congruence].
  - destruct (push_notfull self true m2 d Hwf) as (s2 & E2 & W2 & D2 & N2 & S2);
      [done|stack_wf; lia|].
    exists s2. split_and!; [done|done|done|lia|lia|done].
Qed.

Lemma popfront_spec self :
  stack_wf self ->
  exists r self', ox_stack_popfront self = Some (r, self') /\ stack_wf self' /\
    option_map (pointee self') r = head (deque self) /\ deque self' = tail (deque self) /\
    st_element_num self' = st_element_num self /\ st_element_size self' = st_element_size self.
Proof.
  intros Hwf. unfold ox_stack_popfront, ox_stack_front, ox_stack_num.
  pose proof (length_deque self Hwf) as Hlen.
  destruct (Z.ltb_spec 0 (st_num self)) as [Hpos|Hpos].
  2: { exists None, self. destruct (deque self) as [|x l] eqn:E; [by split_and!|].
       rewrite zlen_cons in Hlen. pose proof (zlen_nonneg l). lia. }
  assert (st_front self < st_element_num self) as Hf
    by (apply (swf_front_lt _ Hwf); stack_wf; lia).
  unfold ox_array_at. rewrite (proj2 (Z.leb_le _ _)), (proj2 (Z.ltb_lt _ _)) by (stack_wf; lia).
  simpl. rewrite ring_index_ok by (stack_wf; lia). simpl.
  eexists _, _. split; [done|].
  pose proof (Z.mod_pos_bound (st_front self + 1) (st_element_num self)) as Hm.
  assert (stack_wf (mk_stack (st_array self) (st_element_size self) (st_element_num self)
     ((st_front self + 1) mod st_element_num self) (st_num self - 1))) as W.
  { stack_wf. constructor; simpl; unfold INT_MAX; try done || lia. }
  assert (deque self = ring_element self 0 :: tail (deque self)) as Hd.
  { pose proof (lookup_deque self 0 ltac:(lia)) as L.
    destruct (deque self) as [|x l]; [done|]. simpl in L. by injection L as ->. }
  split_and!; [done| | |done..].
  - rewrite Hd. simpl. unfold pointee, ring_element, element. simpl.
    rewrite Z.add_0_r, Z.mod_small by (stack_wf; lia). do 2 f_equal. stack_wf; lia.
  - apply deque_ext; [done|..]; simpl.
    { rewrite Hd in Hlen. rewrite zlen_cons in Hlen. lia. }
    intros i Hi. pose proof (lookup_deque self (i + 1) ltac:(lia)) as L.
    rewrite Hd, Z2Nat.inj_add, Nat.add_comm in L by lia. simpl in L. rewrite L. f_equal.
    unfold ring_element; simpl. rewrite Z.add_mod_idemp_l by (stack_wf; lia).
    do 2 f_equal. lia.
Qed.

Lemma popback_spec self :
  stack_wf self ->
  exists r self', ox_stack_popback self = Some (r, self') /\ stack_wf self' /\
    option_map (pointee self') r = last (deque self) /\
    deque self' = take (pred (length (deque self))) (deque self) /\
    st_element_num self' = st_element_num self /\ st_element_size self' = st_element_size self.
Proof.
  intros Hwf. unfold ox_stack_popback, ox_stack_num.
  pose proof (length_deque self Hwf) as Hlen.
  destruct (Z.ltb_spec 0 (st_num self)) as [Hpos|Hpos].
  2: { exists None, self. destruct (deque self) as [|x l] eqn:E; [by split_and!|].
       rewrite zlen_cons in Hlen. pose proof (zlen_nonneg l). lia. }
  rewrite ring_index_ok by (stack_wf; lia). simpl.
  pose proof (Z.mod_pos_bound (st_front self + (st_num self - 1)) (st_element_num self)) as Hm.
  unfold ox_array_at. rewrite (proj2 (Z.leb_le _ _)), (proj2 (Z.ltb_lt _ _)) by (stack_wf; lia).
  simpl. eexists _, _. split; [done|].
  assert (stack_wf (mk_stack (st_array self) (st_element_size self) (st_element_num self)
     (st_front self) (st_num self - 1))) as W.
  { stack_wf. constructor; simpl; unfold INT_MAX; try done || lia. }
  split_and!; [done| | |done..].
  - simpl. rewrite last_lookup. unfold pointee; simpl.
    replace (pred (length (deque self))) with (Z.to_nat (st_num self - 1)) by (unfold zlen in *; lia).
    rewrite lookup_deque by lia. unfold ring_element, element. do 2 f_equal. stack_wf; lia.
  - apply deque_ext; [done|..]; simpl.
    { unfold zlen in *. rewrite length_take. lia. }
    intros i Hi. rewrite lookup_take_lt by (unfold zlen in *; lia). by rewrite lookup_deque by lia.
Qed.

(** ** Refinement of the deque

    A client dereferences the pointer of a pop before its next call. *)

Inductive stack_op :=
  | Push (d : bytes)
  | PopFront
  | PopBack
  | Init.

Definition stack_step (m2 : Z -> option bytes) (op : stack_op) (self : stack_s)
    : option (option bytes * stack_s) :=
  match op with
  | Push d =>
      match ox_stack_push true m2 self d with
      | Some (ok, self') => Some (if ok then Some d else None, self')
      | None => None
      end
  | PopFront =>
      match ox_stack_popfront self with
      | Some (r, self') => Some (option_map (pointee self') r, self')
      | None => None
      end
  | PopBack =>
      match ox_stack_popback self with
      | Some (r, self') => Some (option_map (pointee self') r, self')
      | None => None
      end
  | Init => Some (None, ox_stack_init self)
  end.

Definition deque_step (op : stack_op) (q : list bytes) : option bytes * list bytes :=
  match op with
  | Push d => (Some d, q ++ [d])
  | PopFront => (head q, tail q)
  | PopBack => (last q, take (pred (length q)) q)
  | Init => (None, [])
  end.

Fixpoint stack_run m2 (ops : list stack_op) (self : stack_s)
    : option (list (option bytes) * stack_s) :=
  match ops with
  | [] => Some ([], self)
  | op :: ops =>
      r ← stack_step m2 op self;
      rs ← stack_run m2 ops (snd r);
      Some (fst r :: fst rs, snd rs)
  end.

Fixpoint deque_run (ops : list stack_op) (q : list bytes)
    : list (option bytes) * list bytes :=
  match ops with
  | [] => ([], q)
  | op :: ops =>
      let r := deque_step op q in
      let rs := deque_run ops (snd r) in
      (fst r :: fst rs, snd rs)
  end.

Definition stack_op_ok (es : Z) (op : stack_op) : Prop :=
  match op with Push d => zlen d = es | _ => True end.

Lemma deque_step_length op q : zlen (snd (deque_step op q)) <= zlen q + 1.
Proof.
  destruct op; simpl; unfold zlen; rewrite ?length_app, ?length_take; simpl; try lia.
  destruct q; simpl; lia.
Qed.

Lemma stack_step_refines m2 op self :
  stack_wf self -> malloc_total m2 -> 0 < st_element_num self ->
  stack_op_ok (st_element_size self) op ->
  4 * zlen (deque self) * st_element_size self <= INT_MAX ->
  4 * zlen (deque self) <= INT_MAX ->
  exists self', stack_step m2 op self = Some (fst (deque_step op (deque self)), self') /\
    stack_wf self' /\ deque self' = snd (deque_step op (deque self)) /\
    0 < st_element_num self' /\ st_element_size self' = st_element_size self.
Proof.
  intros Hwf Hm Hpos Hop H1 H2. rewrite length_deque in H1, H2 by done.
  destruct op as [d| | |]; simpl in *.
  - destruct (push_spec self m2 d) as (s & E & W & D & N & S); [done..|].
    exists s. rewrite E. simpl. split_and!; [done..|lia|done].
  - destruct (popfront_spec self Hwf) as (r & s & E & W & R & D & N & S).
    exists s. rewrite E. simpl. rewrite R. split_and!; [done..|lia|done].
  - destruct (popback_spec self Hwf) as (r & s & E & W & R & D & N & S).
    exists s. rewrite E. simpl. rewrite R. split_and!; [done..|lia|done].
  - exists (ox_stack_init self). split; [done|].
    assert (stack_wf (ox_stack_init self)) as W.
    { stack_wf. constructor; simpl; unfold INT_MAX; try done || lia. }
    split_and!; [done| |done..]. apply deque_ext; [done|done|]. simpl. lia.
Qed.

(** C39: for every sequence of pushes, pops at either end and resets, the ring
    buffer of stack.c answers exactly as a double-ended queue: wrapping around,
    growing and copying never lose, duplicate or reorder an element, and every
    returned pointer designates the element removed. *)
Theorem stack_refines_deque m2 (ops : list stack_op) (self : stack_s) :
  stack_wf self -> malloc_total m2 -> 0 < st_element_num self ->
  Forall (stack_op_ok (st_element_size self)) ops ->
  4 * (zlen (deque self) + zlen ops) * st_element_size self <= INT_MAX ->
  exists self', stack_run m2 ops self = Some (fst (deque_run ops (deque self)), self') /\
    stack_wf self' /\ deque self' = snd (deque_run ops (deque self)).
Proof.
  intros Hwf Hm Hpos Hops. revert self Hwf Hpos Hops.
  induction ops as [|op ops IH]; intros self Hwf Hpos Hops Hmax; simpl.
  { by exists self. }
  apply Forall_cons in Hops as [Hop Hops]. rewrite zlen_cons in Hmax.
  pose proof (zlen_nonneg ops). pose proof (zlen_nonneg (deque self)).
  assert (0 < st_element_size self) by (stack_wf; array_wf; lia).
  destruct (stack_step_refines m2 op self) as (s1 & E1 & W1 & D1 & N1 & S1);
    [done|done|done|done|nia|unfold INT_MAX in *; nia|].
  pose proof (deque_step_length op (deque self)).
  destruct (IH s1 W1 N1) as (s2 & E2 & W2 & D2); [by rewrite S1| |].
  { rewrite S1, D1. nia. }
  exists s2. rewrite E1. simpl. rewrite E2. simpl. by rewrite <- D1, D2.
Qed.

(** A full ring whose front has wrapped around. *)
Definition stack_demo : stack_s := mk_stack (mk_array [5; 6] 2 1 2) 1 2 1 2.

Lemma stack_refines_deque_witness :
  exists self', stack_run demo_malloc [Push [7]; PopFront; PopBack; Push [8]; PopFront] stack_demo
      = Some ([Some [7]; Some [6]; Some [7]; Some [8]; Some [5]], self')
    /\ deque self' = [[8]].
Proof.
  destruct (stack_refines_deque demo_malloc
    [Push [7]; PopFront; PopBack; Push [8]; PopFront] stack_demo) as (s & E & _ & D).
  - constructor; try (vm_compute; intuition discriminate).
    constructor; vm_compute; intuition discriminate.
  - split; [apply demo_malloc_ok|]. intros n Hn. unfold demo_malloc.
    rewrite (proj2 (Z.leb_le _ _) Hn). eauto.
  - reflexivity.
  - repeat constructor.
  - vm_compute. discriminate.
  - exists s. split; [exact E|exact D].
Defined.
