(* ===== verification/MsgQueue.v ===== *)
(** * utils/MsgQueue.h: the queue between a writing and a reading thread

    Each of the two threads has a list of its own; a third one is shared under
    the mutex. Every access to the shared list, with or without the mutex, and
    every wait on the condition variable is a step of its own, so a run is any
    interleaving of the two threads. *)

From S2P Require Import Prelude.
#[local] Open Scope Z_scope.

Section Queue.
Context {T : Type}.

(** Inside the calls of the writer. [TryLock] and [ForceLock]: before the
    mutex; [forced]: [trySyncWrite] was called by [forceSyncWrite]. *)
Inductive writer_pc :=
  | WriterIdle
  | TryTest                   (* trySyncWrite called by forceSyncWrite, before its test *)
  | TryLock (forced : bool)
  | ForceLock.

(** Inside [syncRead]: waiting on [mCond], and before the second lock. *)
Inductive reader_pc := ReaderIdle | Waiting | ReadLock.

(** [notified]: the wait that runs was notified. What was pushed, what the
    reader has taken out and what [clear] dropped are recorded in order. *)
Record state := mk_state {
  mWriteList : list T; mSharedList : list T; mReadList : list T;
  writer : writer_pc; reader : reader_pc; notified : bool;
  pushed : list T; taken : list T; dropped : list T }.

Definition init : state := mk_state [] [] [] WriterIdle ReaderIdle false [] [] [].

Definition set_writer p s := mk_state (mWriteList s) (mSharedList s) (mReadList s) p (reader s)
  (notified s) (pushed s) (taken s) (dropped s).
Definition set_reader p s := mk_state (mWriteList s) (mSharedList s) (mReadList s) (writer s) p
  false (pushed s) (taken s) (dropped s).
Definition set_lists w h r s := mk_state w h r (writer s) (reader s)
  (notified s) (pushed s) (taken s) (dropped s).

Definition empty {A} (l : list A) : bool := match l with [] => true | _ => false end.

(** [mCond.notify_one()]: nobody is woken unless the reader waits. *)
Definition notify_one (s : state) : state :=
  mk_state (mWriteList s) (mSharedList s) (mReadList s) (writer s) (reader s)
    (match reader s with Waiting => true | _ => notified s end) (pushed s) (taken s) (dropped s).

(** ** The writer *)

Definition push (t : T) (s : state) : state :=
  mk_state (mWriteList s ++ [t]) (mSharedList s) (mReadList s) (writer s) (reader s)
    (notified s) (pushed s ++ [t]) (taken s) (dropped s).

(** [trySyncWrite] up to the mutex, and its section. *)
Definition trySyncWrite (forced : bool) (s : state) : state :=
  if empty (mWriteList s) || negb (empty (mSharedList s)) then set_writer WriterIdle s
  else set_writer (TryLock forced) s.

Definition try_section (s : state) : state :=
  set_writer WriterIdle
    (if negb (empty (mWriteList s)) && empty (mSharedList s)
     then notify_one (set_lists (mSharedList s) (mWriteList s) (mReadList s) s)
     else s).

Definition forceSyncWrite (s : state) : state :=
  if empty (mWriteList s) then s
  else if empty (mSharedList s) then set_writer TryTest s
  else set_writer ForceLock s.

(** [for (it = mSharedList.rbegin(); ...) mWriteList.push_front( *it)] *)
Definition push_fronts (shared write : list T) : list T := foldr cons write shared.

Definition force_section (s : state) : state :=
  set_writer WriterIdle
    (if empty (mWriteList s) then s
     else notify_one
       (if (length (mSharedList s) <? length (mWriteList s))%nat
        then set_lists [] (push_fronts (mSharedList s) (mWriteList s)) (mReadList s) s
        else set_lists [] (mSharedList s ++ mWriteList s) (mReadList s) s)).

(** ** The reader *)

Definition take_out (t : T) (r : list T) (s : state) : state :=
  mk_state (mWriteList s) (mSharedList s) r (writer s) (reader s)
    (notified s) (pushed s) (taken s ++ [t]) (dropped s).

Definition popFront (s : state) : bool * state :=
  match mReadList s with
  | [] => (false, s)
  | t :: r => (true, take_out t r s)
  end.

Definition popBack (s : state) : bool * state :=
  match last (mReadList s) with
  | None => (false, s)
  | Some t => (true, take_out t (removelast (mReadList s)) s)
  end.

(** [syncRead] up to its wait, and its section. *)
Definition syncRead (waitMicroSecond : Z) (s : state) : state :=
  if negb (empty (mReadList s)) then s
  else if negb (waitMicroSecond =? 0) then set_reader Waiting s
  else set_reader ReadLock s.

Definition read_section (s : state) : state :=
  set_reader ReaderIdle
    (if empty (mReadList s) && negb (empty (mSharedList s))
     then set_lists (mWriteList s) (mReadList s) (mSharedList s) s
     else s).

Definition clear (s : state) : state :=
  mk_state [] [] [] (writer s) (reader s) (notified s) (pushed s) (taken s)
    (dropped s ++ mReadList s ++ mSharedList s ++ mWriteList s).

(** ** Runs *)

Inductive action :=
  | Push (t : T) | TrySyncWrite | ForceSyncWrite
  | WriterGoes                              (* the next step of the writer's call *)
  | PopFront | PopBack | SyncRead (waitMicroSecond : Z)
  | WokenUp                                 (* the notification arrives *)
  | WaitEnds                                (* the time is over, or a spurious wakeup *)
  | ReaderGoes                              (* the section of syncRead *)
  | Clear.                                  (* by one of the two threads, the other one outside *)

Definition step (a : action) (s : state) : option state :=
  match a, writer s, reader s with
  | Push t, WriterIdle, _ => Some (push t s)
  | TrySyncWrite, WriterIdle, _ => Some (trySyncWrite false s)
  | ForceSyncWrite, WriterIdle, _ => Some (forceSyncWrite s)
  | WriterGoes, TryTest, _ => Some (trySyncWrite true s)
  | WriterGoes, TryLock _, _ => Some (try_section s)
  | WriterGoes, ForceLock, _ => Some (force_section s)
  | PopFront, _, ReaderIdle => Some (snd (popFront s))
  | PopBack, _, ReaderIdle => Some (snd (popBack s))
  | SyncRead w, _, ReaderIdle => Some (syncRead w s)
  | WokenUp, _, Waiting => if notified s then Some (set_reader ReadLock s) else None
  | WaitEnds, _, Waiting => Some (set_reader ReadLock s)
  | ReaderGoes, _, ReadLock => Some (read_section s)
  | Clear, WriterIdle, ReaderIdle => Some (clear s)
  | _, _, _ => None
  end.

Fixpoint run (l : list action) (s : state) : option state :=
  match l with
  | [] => Some s
  | a :: l => s ← step a s; run l s
  end.

(** ** What holds in every state *)

(** What is in the queue, the oldest first. *)
Definition contents (s : state) : list T := mReadList s ++ mSharedList s ++ mWriteList s.

Definition in_order (a : action) : Prop :=
  match a with PopBack | Clear => False | _ => True end.

(** The writer alone fills the shared list, so its test stays true. *)
Definition writer_ok (s : state) : Prop :=
  match writer s with
  | TryTest | TryLock _ => mSharedList s = [] /\ mWriteList s <> []
  | ForceLock => mWriteList s <> []
  | WriterIdle => True
  end.

Lemma empty_spec {A} (l : list A) : reflect (l = []) (empty l).
Proof. by destruct l; constructor. Qed.

Lemma push_fronts_app l m : push_fronts l m = l ++ m.
Proof. induction l as [|x l IH]; [done|]. simpl. by rewrite IH. Qed.

Lemma last_removelast (l : list T) t : last l = Some t -> l = removelast l ++ [t].
Proof.
  induction l as [|x [|y l] IH]; [done|by intros [= ->]|]. intros E.
  change (x :: y :: l = x :: (removelast (y :: l) ++ [t])). by rewrite <- IH.
Qed.

(** What a step does to the queue and to the record. *)
Definition effect (a : action) (s s' : state) : Prop :=
  match a with
  | Push t => pushed s' = pushed s ++ [t] /\ taken s' = taken s /\ dropped s' = dropped s /\
      contents s' = contents s ++ [t]
  | PopFront => pushed s' = pushed s /\ dropped s' = dropped s /\
      taken s' ++ contents s' = taken s ++ contents s
  | PopBack => pushed s' = pushed s /\ dropped s' = dropped s /\
      taken s' ++ contents s' ≡ₚ taken s ++ contents s
  | Clear => pushed s' = pushed s /\ taken s' = taken s /\ dropped s' = dropped s ++ contents s /\
      contents s' = []
  | _ => pushed s' = pushed s /\ taken s' = taken s /\ dropped s' = dropped s /\ contents s' = contents s
  end.

Lemma try_effect forced s : contents (trySyncWrite forced s) = contents s.
Proof. unfold trySyncWrite. by destruct (_ || _). Qed.

Lemma section_effect s : writer_ok s -> contents (try_section s) = contents s.
Proof.
  intros _. unfold try_section. destruct (empty_spec (mSharedList s)) as [E|]; [|by rewrite andb_false_r].
  destruct (negb _); [|done]. unfold contents. simpl. by rewrite E, app_nil_r.
Qed.

Lemma force_effect s : contents (force_section s) = contents s.
Proof.
  unfold force_section. destruct (empty _); [done|].
  destruct (_ <? _)%nat; unfold contents; simpl; by rewrite ?push_fronts_app, app_nil_r.
Qed.

Lemma read_effect s : contents (read_section s) = contents s.
Proof.
  unfold read_section. destruct (empty_spec (mReadList s)) as [E|]; [|done].
  destruct (negb _); [|done]. unfold contents. simpl. by rewrite E.
Qed.

Lemma popback_effect s : effect PopBack s (snd (popBack s)).
Proof.
  unfold popBack. destruct (last (mReadList s)) as [t|] eqn:E; [|done].
  split_and!; [done..|]. unfold contents. simpl. rewrite (last_removelast _ _ E) at 2.
  rewrite <- !app_assoc. apply Permutation_app_head. simpl. apply Permutation_middle.
Qed.

Lemma record_kept s : pushed (force_section s) = pushed s /\ taken (force_section s) = taken s /\
  dropped (force_section s) = dropped s.
Proof. unfold force_section. destruct (empty _); [done|]. by destruct (_ <? _)%nat. Qed.

Lemma step_effect a s s' : writer_ok s -> step a s = Some s' -> effect a s s'.
Proof.
  intros Hw. unfold step. destruct a; simpl.
  - destruct (writer s); intros [= <-]. split_and!; [done..|]. unfold contents. simpl. by rewrite !app_assoc.
  - destruct (writer s); intros [= <-]. unfold trySyncWrite. by destruct (_ || _).
  - destruct (writer s); intros [= <-]. unfold forceSyncWrite. destruct (empty _); [done|]. by destruct (empty _).
  - destruct (writer s) eqn:E; intros [= <-].
    + unfold trySyncWrite. by destruct (_ || _).
    + split_and!; [..|by apply section_effect]; unfold try_section; by destruct (_ && _).
    + destruct (record_kept s) as (? & ? & ?). split_and!; [done..|apply force_effect].
  - destruct (reader s); intros [= <-]. unfold popFront. destruct (mReadList s) as [|t r] eqn:E; [done|].
    split_and!; [done..|]. unfold contents. simpl. by rewrite E, <- app_assoc.
  - destruct (reader s); intros [= <-]. apply popback_effect.
  - destruct (reader s); intros [= <-]. unfold syncRead. destruct (negb _); [done|]. by destruct (negb _).
  - destruct (reader s); [done| |done]. destruct (notified s); intros [= <-]. done.
  - destruct (reader s); intros [= <-]. done.
  - destruct (reader s); intros [= <-]. split_and!; [..|apply read_effect]; unfold read_section; by destruct (_ && _).
  - destruct (writer s); [|done..]. destruct (reader s); intros [= <-]. done.
Qed.

Lemma step_writer_ok a s s' : writer_ok s -> step a s = Some s' -> writer_ok s'.
Proof.
  intros Hw E. unfold writer_ok in *. revert E. unfold step. destruct a; simpl.
  - destruct (writer s) eqn:Ew; intros [= <-]. simpl. by rewrite Ew.
  - destruct (writer s) eqn:Ew; intros [= <-]. unfold trySyncWrite.
    destruct (empty_spec (mWriteList s)), (empty_spec (mSharedList s)); done.
  - destruct (writer s) eqn:Ew; intros [= <-]. unfold forceSyncWrite.
    destruct (empty_spec (mWriteList s)), (empty_spec (mSharedList s)); simpl; try done; by rewrite Ew.
  - destruct (writer s) eqn:Ew; intros [= <-]; try done. unfold trySyncWrite. destruct (_ || _); [done|]. done.
  - destruct (reader s); intros [= <-]. unfold popFront. by destruct (mReadList s).
  - destruct (reader s); intros [= <-]. unfold popBack. by destruct (last _).
  - destruct (reader s); intros [= <-]. unfold syncRead. destruct (negb _); [done|]. by destruct (negb _).
  - destruct (reader s); [done| |done]. destruct (notified s); intros [= <-]. done.
  - destruct (reader s); intros [= <-]. done.
  - destruct (reader s); intros [= <-]. unfold read_section.
    destruct (empty_spec (mReadList s)) as [E|]; [|done]. destruct (negb _); [|done]. simpl. rewrite E.
    destruct (writer s); [done|by destruct Hw|by destruct Hw|done].
  - destruct (writer s) eqn:Ew; [|done..]. destruct (reader s); intros [= <-]. simpl. by rewrite Ew.
Qed.

(** ** The invariant of a run *)

(** Everything pushed is taken out, dropped or still inside. *)
Definition accounted (s : state) : Prop := taken s ++ dropped s ++ contents s ≡ₚ pushed s.
Definition queued (s : state) : Prop := dropped s = [] /\ pushed s = taken s ++ contents s.

Lemma step_accounted a s s' : effect a s s' -> accounted s -> accounted s'.
Proof.
  unfold accounted. destruct a; simpl; intros E H;
    try (destruct E as (-> & -> & -> & ->); done || (rewrite <- H; by rewrite ?app_nil_r, !app_assoc)).
  - destruct E as (-> & -> & Hp). rewrite <- H. rewrite (Permutation_app_comm (dropped s)), !app_assoc, Hp.
    by rewrite <- !app_assoc, (Permutation_app_comm (contents s)).
  - destruct E as (-> & -> & Hp). rewrite <- H. rewrite (Permutation_app_comm (dropped s)), !app_assoc, Hp.
    by rewrite <- !app_assoc, (Permutation_app_comm (contents s)).
Qed.

Lemma step_queued a s s' : effect a s s' -> in_order a -> queued s -> queued s'.
Proof.
  unfold queued. destruct a; simpl; intros E Ho (Hd & Hq); try done;
    try (destruct E as (-> & -> & -> & ->); by rewrite ?Hq, ?app_assoc).
  destruct E as (-> & -> & Hp). by rewrite Hp.
Qed.

Lemma run_ind (P : state -> Prop) (allowed : action -> Prop) l s s' :
  (forall a s s', allowed a -> P s -> step a s = Some s' -> P s') ->
  Forall allowed l -> P s -> run l s = Some s' -> P s'.
Proof.
  intros Hstep. revert s. induction l as [|a l IH]; intros s Hl HP; cbn [run]; [by intros [= <-]|].
  apply Forall_cons in Hl as [Ha Hl]. destruct (step a s) as [s1|] eqn:E; [|done]. simpl.
  apply IH; [done|]. by apply (Hstep a s s1).
Qed.

Lemma all_allowed (l : list action) : Forall (fun _ => True) l.
Proof. by apply Forall_true. Qed.

Lemma run_writer_ok l s s' : writer_ok s -> run l s = Some s' -> writer_ok s'.
Proof.
  intros Hw. apply (run_ind writer_ok (fun _ => True)); [|apply all_allowed|done].
  intros a s1 s2 _. apply step_writer_ok.
Qed.

(** ** Sharing and reading *)

(** The writer is inside [forceSyncWrite]. *)
Definition in_force (p : writer_pc) : bool :=
  match p with TryTest | TryLock true | ForceLock => true | _ => false end.

(** Actions that begin no call of the writer. *)
Definition no_new_write (a : action) : Prop :=
  match a with Push _ | TrySyncWrite | ForceSyncWrite => False | _ => True end.

(** Inside [forceSyncWrite], or after it with nothing left to share. *)
Definition forcing (s : state) : Prop :=
  writer_ok s /\ (in_force (writer s) = true \/ writer s = WriterIdle /\ mWriteList s = []).

Lemma forceSyncWrite_forcing s : writer s = WriterIdle -> forcing (forceSyncWrite s).
Proof.
  intros Ew. unfold forcing, writer_ok, forceSyncWrite.
  destruct (empty_spec (mWriteList s)) as [E|E]; [by rewrite Ew; auto|].
  destruct (empty_spec (mSharedList s)); simpl; auto.
Qed.

Lemma sections_share s : writer_ok s ->
  (forall b, writer s = TryLock b -> mWriteList (try_section s) = []) /\
  mWriteList (force_section s) = [].
Proof.
  intros Hw. split.
  - intros b E. unfold writer_ok in Hw. rewrite E in Hw. destruct Hw as [Hs Hne].
    unfold try_section. rewrite Hs. by destruct (empty_spec (mWriteList s)).
  - unfold force_section. destruct (empty_spec (mWriteList s)) as [E|E]; [done|]. by destruct (_ <? _)%nat.
Qed.

Lemma step_forcing a s s' : no_new_write a -> forcing s -> step a s = Some s' -> forcing s'.
Proof.
  intros Ha [Hw Hf] E. split; [by eapply step_writer_ok|]. revert E. unfold step.
  destruct (sections_share s Hw) as [Ht Hforce]. destruct a; simpl; try done.
  - destruct (writer s) eqn:Ew; intros [= <-]; [|right; split; [done|by eapply Ht]|right; by split].
    left. unfold writer_ok in Hw. rewrite Ew in Hw. destruct Hw as [Hs Hne]. unfold trySyncWrite.
    rewrite Hs. by destruct (empty_spec (mWriteList s)).
  - destruct (reader s); intros [= <-]. unfold popFront. by destruct (mReadList s).
  - destruct (reader s); intros [= <-]. unfold popBack. by destruct (last _).
  - destruct (reader s); intros [= <-]. unfold syncRead. destruct (negb _); [done|]. by destruct (negb _).
  - destruct (reader s); [done| |done]. destruct (notified s); intros [= <-]. done.
  - destruct (reader s); intros [= <-]. done.
  - destruct (reader s); intros [= <-]. unfold read_section. by destruct (_ && _).
  - destruct (writer s) eqn:Ew; [|done..]. destruct (reader s); intros [= <-]. simpl. auto.
Qed.

Lemma sync_takes_all s : reader s = ReaderIdle -> mReadList s = [] -> mWriteList s = [] ->
  exists s', run [SyncRead 0; ReaderGoes] s = Some s' /\ mReadList s' = contents s.
Proof.
  intros Er E Ew. unfold contents. rewrite E, Ew, app_nil_r. cbn [run step]. rewrite Er. cbn [mbind option_bind].
  unfold syncRead. rewrite E. simpl.
  assert (Hs : step ReaderGoes (set_reader ReadLock s) = Some (read_section (set_reader ReadLock s))).
  { simpl. by destruct (writer s). }
  eexists. split; [by destruct (writer s)|]. unfold read_section. simpl. rewrite E.
  destruct (empty_spec (mSharedList s)) as [Es|]; [|done]. simpl. by rewrite E, Es.
Qed.
End Queue.

Arguments state : clear implicits.
Arguments action : clear implicits.

(** C27: messages arrive once each and in order. In every interleaving of the
    writing and the reading thread what was pushed is, up to order, what was taken out,
    what [clear] dropped and what is inside; when the reader takes from the front and
    nothing is cleared, what was taken followed by what is inside is what was pushed,
    in order. When a [forceSyncWrite] is over, whatever the reader did meanwhile,
    no message is left with the writer, and a reader whose list is empty then
    finds all the messages inside with one [syncRead]. *)
Theorem messages_in_order {T} (l : list (action T)) (s : state T) :
  run l init = Some s ->
  (taken s ++ dropped s ++ contents s ≡ₚ pushed s) /\
  (Forall in_order l -> dropped s = [] /\ pushed s = taken s ++ contents s) /\
  (forall m s', run (ForceSyncWrite :: m) s = Some s' -> Forall no_new_write m -> writer s' = WriterIdle ->
    mWriteList s' = [] /\
    (reader s' = ReaderIdle -> mReadList s' = [] ->
     exists s'', run [SyncRead 0; ReaderGoes] s' = Some s'' /\ mReadList s'' = contents s')).
Proof.
  intros Hrun. assert (Hw : writer_ok s) by (by apply (run_writer_ok l init)).
  split; [|split].
  - refine (proj2 (run_ind (fun s => writer_ok s /\ accounted s) (fun _ => True) l init s _ _ _ Hrun)).
    + intros a s1 s2 _ [Hw1 H1] E. split; [by eapply step_writer_ok|]. eapply step_accounted; [|done]. by apply step_effect.
    + by apply all_allowed.
    + split; [exact I|constructor].
  - intros Ho.
    refine (proj2 (run_ind (fun s => writer_ok s /\ queued s) in_order l init s _ Ho _ Hrun)).
    + intros a s1 s2 Ha [Hw1 H1] E. split; [by eapply step_writer_ok|]. eapply step_queued; [|done..]. by apply step_effect.
    + by split.
  - intros m s' Hm Hn Hi. cbn [run] in Hm. destruct (step ForceSyncWrite s) as [s1|] eqn:E; [|done].
    simpl in Hm. assert (writer s = WriterIdle /\ s1 = forceSyncWrite s) as [Ew ->].
    { simpl in E. destruct (writer s); [|done..]. by injection E as <-. }
    assert (Hf : forcing s') by (apply (run_ind forcing no_new_write m (forceSyncWrite s));
      [intros a x y; apply step_forcing|done|by apply forceSyncWrite_forcing|done]).
    destruct Hf as [_ [Hf|[_ Hf]]]; [by rewrite Hi in Hf|].
    split; [done|]. intros Hr Hl. by apply sync_takes_all.
Qed.

(** Two messages shared, one read while the next ones are forced behind the other. *)
Definition demo_actions : list (action Z) :=
  [Push 1; Push 2; TrySyncWrite; WriterGoes; SyncRead 0; ReaderGoes; Push 3; TrySyncWrite; WriterGoes; Push 4; Push 5].
Definition demo_forced : list (action Z) := [PopFront; WriterGoes; PopFront].

Definition demo_state : state Z :=
  mk_state [4; 5] [3] [1; 2] WriterIdle ReaderIdle false [1; 2; 3; 4; 5] [] [].
Definition demo_end : state Z :=
  mk_state [] [3; 4; 5] [] WriterIdle ReaderIdle false [1; 2; 3; 4; 5] [1; 2] [].

Lemma messages_in_order_witness :
  run demo_actions init = Some demo_state /\ pushed demo_state = taken demo_state ++ contents demo_state /\
  run (ForceSyncWrite :: demo_forced) demo_state = Some demo_end /\ mWriteList demo_end = [] /\
  exists s, run [SyncRead 0; ReaderGoes] demo_end = Some s /\ mReadList s = [3; 4; 5].
Proof.
  assert (E : run demo_actions init = Some demo_state) by reflexivity.
  assert (E' : run (ForceSyncWrite :: demo_forced) demo_state = Some demo_end) by reflexivity.
  destruct (messages_in_order demo_actions demo_state E) as (_ & Ho & Hf).
  destruct (Hf demo_forced demo_end E') as (Hw & Hs); [repeat (constructor; [exact I|]); constructor|reflexivity|].
  split; [exact E|]. split; [apply Ho; repeat (constructor; [exact I|]); constructor|].
  split; [exact E'|]. split; [exact Hw|]. exact (Hs eq_refl eq_refl).
Defined.

(** A message shared just before the reader begins to wait: [syncRead] waits
    without looking, and nothing is going to notify it. *)
Definition demo_waiting : state Z := mk_state [] [2] [] WriterIdle Waiting false [1; 2] [1] [].

Example shared_before_wait :
  run [Push 1; SyncRead 1000; WaitEnds; TrySyncWrite; WriterGoes; ReaderGoes; PopFront;
       Push 2; TrySyncWrite; WriterGoes; SyncRead 1000] init = Some demo_waiting.
Proof. vm_compute. reflexivity. Qed.
