(* ===== verification/IntQueue.v ===== *)
(** * Queues of integers

    What utils/coroutine.c asks of utils/stack.c: a double-ended queue of [int],
    as a type class; and the instance by stack.c, which keeps the bytes of the
    integers in its ring. *)

From S2P Require Import Prelude.
From S2P Require Import Words.
From S2P Require Import Array.
From S2P Require Import Stack.

Definition is_int (x : Z) : Prop := 0 <= x <= INT_MAX.

(** [q_ok q l]: the queue [q] holds the integers [l], the front first. The
    operations fail ([None]) when the memory of the ring is left. *)
Class IntQueue (Q : Type) := {
  q_ok : Q -> list Z -> Prop;
  q_new : Z -> option Q;
  q_num : Q -> Z;
  q_push : Q -> Z -> option Q;
  q_popfront : Q -> option (option Z * Q);
  q_popback : Q -> option (option Z * Q);
  q_room : Z;
  q_room_range : 4096 <= q_room <= 2 ^ 26;
  q_new_ok n : 0 < n <= q_room -> exists q, q_new n = Some q /\ q_ok q [];
  q_num_ok q l : q_ok q l -> q_num q = zlen l;
  q_push_ok q l x : q_ok q l -> is_int x -> zlen l < q_room -> exists q', q_push q x = Some q' /\ q_ok q' (l ++ [x]);
  q_popfront_ok q l : q_ok q l -> exists q', q_popfront q = Some (head l, q') /\ q_ok q' (tail l);
  q_popback_ok q l : q_ok q l -> exists q', q_popback q = Some (last l, q') /\ q_ok q' (removelast l) }.

(** ** stack.c as such a queue *)

Section StackQueue.
Context (malloc : Z -> option bytes) (Hmalloc : malloc_total malloc).

(** [*(int* )p] *)
Definition read_int (s : stack_s) (p : Z) : Z := s32 (of_le_bytes (pointee s p)).

Definition stack_holds (s : stack_s) (l : list Z) : Prop :=
  stack_wf s /\ st_element_size s = 4 /\ 0 < st_element_num s /\
  deque s = map (le_bytes 4) l /\ Forall is_int l.

Definition stack_new (n : Z) : option stack_s := s ← ox_stack_new true true malloc n 4; s.
Definition stack_push (s : stack_s) (x : Z) : option stack_s :=
  '(_, s) ← ox_stack_push true malloc s (le_bytes 4 x); Some s.
Definition stack_popfront (s : stack_s) : option (option Z * stack_s) :=
  '(p, s) ← ox_stack_popfront s; Some (option_map (read_int s) p, s).
Definition stack_popback (s : stack_s) : option (option Z * stack_s) :=
  '(p, s) ← ox_stack_popback s; Some (option_map (read_int s) p, s).

Lemma read_back x : is_int x -> s32 (of_le_bytes (le_bytes 4 x)) = x.
Proof.
  unfold is_int, INT_MAX. intros Hx. rewrite of_le_bytes_le_bytes.
  change (256 ^ Z.of_nat 4) with (2 ^ 32). rewrite Z.mod_small by lia. apply swrap_small; lia.
Qed.

Lemma read_option s r o : option_map (pointee s) r = option_map (le_bytes 4) o ->
  (forall x, o = Some x -> is_int x) -> option_map (read_int s) r = o.
Proof.
  destruct r as [p|], o as [x|]; cbn [option_map]; intros E Hx; try discriminate; [|done].
  assert (E1 : pointee s p = le_bytes 4 x) by congruence. unfold read_int. by rewrite E1, read_back by auto.
Qed.

Lemma head_map {A B} (f : A -> B) l : head (map f l) = option_map f (head l).
Proof. by destruct l. Qed.
Lemma last_map {A B} (f : A -> B) l : last (map f l) = option_map f (last l).
Proof. induction l as [|a [|b l] IH]; [done|done|]. exact IH. Qed.

Lemma removelast_take {A} (l : list A) : removelast l = take (pred (length l)) l.
Proof. induction l as [|a [|b l] IH]; [done|done|]. simpl in *. by rewrite IH. Qed.

#[export] Program Instance stack_queue : IntQueue stack_s := {|
  q_ok := stack_holds; q_new := stack_new; q_num := ox_stack_num; q_push := stack_push;
  q_popfront := stack_popfront; q_popback := stack_popback; q_room := 2 ^ 26 |}.
Next Obligation. simpl. lia. Qed.
Next Obligation.
  intros n Hn. simpl in Hn. unfold stack_new, ox_stack_new. cbn [negb].
  destruct (array_new_spec malloc n 4) as [E|(a & E & W & N & S & _)];
    [by destruct Hmalloc|lia|unfold INT_MAX in *; lia|unfold INT_MAX in *; lia|..].
  { exfalso. revert E. apply array_new_total; [done|lia|lia|unfold INT_MAX; lia]. }
  rewrite E. cbn [mbind option_bind]. eexists. split; [done|].
  assert (Hw : stack_wf (mk_stack a 4 n 0 0)).
  { constructor; simpl; unfold INT_MAX; try done || lia. }
  unfold stack_holds. split; [done|]. split_and!; try done. simpl. lia.
Qed.
Next Obligation.
  intros s l (Hw & _ & _ & Hd & _). simpl. unfold ox_stack_num. rewrite <- (length_deque s Hw), Hd.
  unfold zlen. by rewrite length_map.
Qed.
Next Obligation.
  intros s l x (Hw & Hes & Hpos & Hd & Hl) Hx Hroom. simpl in Hroom. unfold stack_push.
  assert (Hn : st_num s = zlen l).
  { rewrite <- (length_deque s Hw), Hd. unfold zlen. by rewrite length_map. }
  destruct (push_spec s malloc (le_bytes 4 x)) as (s' & E & W & D & N & S);
    [done|done|by rewrite zlen_le_bytes, Hes|done|rewrite Hes; unfold INT_MAX; lia|unfold INT_MAX; lia|].
  rewrite E. cbn [mbind option_bind]. exists s'. split; [done|].
  split; [done|]. split_and!; [congruence|lia| |].
  - by rewrite D, Hd, map_app.
  - apply Forall_app. by split; [|constructor].
Qed.
Next Obligation.
  intros s l (Hw & Hes & Hpos & Hd & Hl). unfold stack_popfront.
  destruct (popfront_spec s Hw) as (r & s' & E & W & Hr & D & N & S).
  rewrite E. cbn [mbind option_bind]. exists s'. rewrite Hd, head_map in Hr. split.
  - do 2 f_equal. apply read_option; [exact Hr|]. intros x Hx. destruct l; [done|]. injection Hx as ->.
    by apply Forall_cons in Hl as [? _].
  - split; [done|]. split_and!; [congruence|lia|by rewrite D, Hd; destruct l|by apply Forall_tail].
Qed.
Next Obligation.
  intros s l (Hw & Hes & Hpos & Hd & Hl). unfold stack_popback.
  destruct (popback_spec s Hw) as (r & s' & E & W & Hr & D & N & S).
  rewrite E. cbn [mbind option_bind]. exists s'. rewrite Hd, last_map in Hr. split.
  - do 2 f_equal. apply read_option; [exact Hr|]. intros x Hx. rewrite Forall_forall in Hl. apply Hl.
    apply last_Some in Hx as [k ->]. set_solver.
  - split; [done|]. rewrite removelast_take. split_and!; [congruence|lia| |by apply Forall_take].
    rewrite D, Hd, length_map. by rewrite firstn_map.
Qed.
End StackQueue.

(** An allocator that does not fail, for the demonstrations. *)
Lemma demo_total : malloc_total demo_malloc.
Proof.
  split; [apply demo_malloc_ok|]. intros n Hn. unfold demo_malloc. rewrite (proj2 (Z.leb_le _ _) Hn). eauto.
Qed.
