(* ===== verification/Scheduler.v ===== *)
(** * What a scheduler of coroutines promises

    utils/coroutine.h: coroutines that run one at a time and give way of their
    own accord. Its state machine on a finite map from identifiers to coroutines,
    the invariant that all its operations keep, the order in which coroutines
    get their turns; and the type class by which the two implementations in
    utils/coroutine.c, over POSIX contexts and over Windows fibers, are compared
    with it. *)

From stdpp Require Import gmap.
From S2P Require Import Prelude.
From S2P Require Import Words.
From S2P Require Import IntQueue.
#[local] Open Scope Z_scope.
#[local] Open Scope brynet_scope.

(** [enum COROUTINE_STATE] *)
Inductive COROUTINE_STATE :=
  COROUTINE_READY | COROUTINE_RUNNING | COROUTINE_SUSPEND | COROUTINE_BLOCK | COROUTINE_DEAD.

#[export] Instance COROUTINE_STATE_eq_dec : EqDecision COROUTINE_STATE.
Proof. solve_decision. Defined.

Section Spec.
(** What a coroutine does when it gets a turn: its function and argument, or the
    point where it gave way. *)
Context {L : Type}.

(** The calls of the library, by the main program or by the coroutine that runs,
    and the end of its function; [l] is where the coroutine goes on. *)
Inductive event :=
  | New (l : L)
  | Schedule
  | Yield (l : L)
  | Block (l : L)
  | Return
  | Resume (id : Z)
  | Status (id : Z)
  | Running.

(** What a call gives back; [Turn id l]: the coroutine [id] goes on at [l]. *)
Inductive answer :=
  | Done
  | Id (id : Z)
  | State (s : COROUTINE_STATE)
  | Turn (id : Z) (l : L).

Record t := mk {
  tasks : gmap Z (COROUTINE_STATE * L);
  active : list Z;
  running : option Z;
  given : list Z }.

Definition init : t := mk ∅ [] None [].

Definition state_in (m : gmap Z (COROUTINE_STATE * L)) (id : Z) : COROUTINE_STATE :=
  match m !! id with Some (st, _) => st | None => COROUTINE_DEAD end.
Definition task (s : t) (id : Z) : COROUTINE_STATE := state_in (tasks s) id.

Definition put (id : Z) (st : COROUTINE_STATE) (l : L) (s : t) : t :=
  mk (<[id := (st, l)]> (tasks s)) (active s) (running s) (given s).
Definition enqueue (id : Z) (s : t) : t := mk (tasks s) (active s ++ [id]) (running s) (given s).
Definition set_running (r : option Z) (s : t) : t := mk (tasks s) (active s) r (given s).

Inductive step : event -> t -> answer -> t -> Prop :=
  | step_new l id s : tasks s !! id = None -> is_int id ->
      step (New l) s (Id id)
        (mk (<[id := (COROUTINE_READY, l)]> (tasks s)) (active s ++ [id]) (running s) (id :: given s))
  | step_idle s : active s = [] -> step Schedule s Done s
  | step_turn id ids st l s : active s = id :: ids -> tasks s !! id = Some (st, l) ->
      step Schedule s (Turn id l)
        (mk (<[id := (COROUTINE_RUNNING, l)]> (tasks s)) ids (Some id) (given s))
  | step_yield l id s : running s = Some id ->
      step (Yield l) s Done (set_running None (enqueue id (put id COROUTINE_SUSPEND l s)))
  | step_block l id s : running s = Some id ->
      step (Block l) s Done (set_running None (put id COROUTINE_BLOCK l s))
  | step_return id s : running s = Some id ->
      step Return s Done (mk (delete id (tasks s)) (active s) None (given s))
  | step_resume id l s : tasks s !! id = Some (COROUTINE_BLOCK, l) ->
      step (Resume id) s Done (enqueue id (put id COROUTINE_SUSPEND l s))
  | step_no_resume id s : task s id <> COROUTINE_BLOCK -> step (Resume id) s Done s
  | step_status id s : step (Status id) s (State (task s id)) s
  | step_running s : step Running s (Id (default (-1) (running s))) s.

(** When a call is allowed: only a coroutine that runs gives way or ends, and
    the main program hands out the turns; identifiers come from the library. *)
Definition allowed (e : event) (s : t) : Prop :=
  match e with
  | Yield _ | Block _ | Return => running s <> None
  | Schedule => running s = None
  | Resume id | Status id => id ∈ given s
  | New _ | Running => True
  end.

(** ** The invariant *)

Definition waits (st : COROUTINE_STATE) : bool :=
  match st with COROUTINE_READY | COROUTINE_SUSPEND => true | _ => false end.

Record wf (s : t) : Prop := mk_wf {
  wf_active : NoDup (active s);
  wf_waits : forall id, id ∈ active s <-> waits (task s id) = true;
  wf_running : forall id, running s = Some id <-> task s id = COROUTINE_RUNNING;
  wf_dead : forall id l, tasks s !! id <> Some (COROUTINE_DEAD, l);
  wf_given : forall id, is_Some (tasks s !! id) -> id ∈ given s;
  wf_ids : Forall is_int (given s) }.

Lemma state_insert m id st l j :
  state_in (<[id := (st, l)]> m) j = if decide (j = id) then st else state_in m j.
Proof. unfold state_in. destruct (decide (j = id)) as [->|Hne]; by simplify_map_eq. Qed.

Lemma state_delete m id j :
  state_in (delete id m) j = if decide (j = id) then COROUTINE_DEAD else state_in m j.
Proof. unfold state_in. destruct (decide (j = id)) as [->|Hne]; by simplify_map_eq. Qed.

Lemma state_some m id st l : m !! id = Some (st, l) -> state_in m id = st.
Proof. unfold state_in. by intros ->. Qed.

Lemma init_wf : wf init.
Proof.
  constructor; simpl; [constructor|..|constructor].
  - intros id. unfold task, state_in. simpl. rewrite lookup_empty. simpl. split; [set_solver|done].
  - intros id. unfold task, state_in. simpl. rewrite lookup_empty. done.
  - intros id l. by rewrite lookup_empty.
  - intros id. rewrite lookup_empty. by intros [].
Qed.

(** The invariant after a call that changes the state of [id] only. *)
Lemma wf_put_states (m m' : gmap Z (COROUTINE_STATE * L)) act run gv act' run' gv' id st :
  wf (mk m act run gv) -> (forall j, state_in m' j = if decide (j = id) then st else state_in m j) ->
  NoDup act' -> (forall j, j <> id -> (j ∈ act' <-> j ∈ act)) -> (id ∈ act' <-> waits st = true) ->
  (forall j, j <> id -> (run' = Some j <-> run = Some j)) -> (run' = Some id <-> st = COROUTINE_RUNNING) ->
  (forall j l, m' !! j <> Some (COROUTINE_DEAD, l)) ->
  (forall j, is_Some (m' !! j) -> is_Some (m !! j) \/ j ∈ gv') -> (forall j, j ∈ gv -> j ∈ gv') -> Forall is_int gv' ->
  wf (mk m' act' run' gv').
Proof.
  intros [W1 W2 W3 W4 W5 W6] Hm Hnd Hact Hid Hrun Hrid Hdead Hgv Hgv' Hint.
  unfold task in *; cbn [tasks active running given] in *.
  constructor; unfold task; cbn [tasks active running given]; try done.
  - intros j. rewrite Hm. destruct (decide (j = id)) as [->|Hne]; [done|]. by rewrite Hact, W2.
  - intros j. rewrite Hm. destruct (decide (j = id)) as [->|Hne]; [done|]. by rewrite Hrun, W3.
  - intros j [Hj|Hj]%Hgv; auto.
Qed.

Lemma wf_insert m act run gv act' run' gv' id st l :
  wf (mk m act run gv) -> st <> COROUTINE_DEAD ->
  NoDup act' -> (forall j, j <> id -> (j ∈ act' <-> j ∈ act)) -> (id ∈ act' <-> waits st = true) ->
  (forall j, j <> id -> (run' = Some j <-> run = Some j)) -> (run' = Some id <-> st = COROUTINE_RUNNING) ->
  (forall j, j ∈ gv -> j ∈ gv') -> id ∈ gv' -> Forall is_int gv' ->
  wf (mk (<[id := (st, l)]> m) act' run' gv').
Proof.
  intros Hw Hst Hnd Hact Hid Hrun Hrid Hgv Hidg Hint.
  apply (wf_put_states m _ act run gv _ _ _ id st Hw); try done.
  - intros j. apply state_insert.
  - intros j l' E. destruct (decide (j = id)) as [->|Hne]; simplify_map_eq.
    by apply (wf_dead _ Hw j l').
  - intros j E. destruct (decide (j = id)) as [->|Hne]; [by right|]. left.
    by rewrite lookup_insert_ne in E by done.
Qed.

Lemma elem_of_snoc (l : list Z) j k : j <> k -> (j ∈ l ++ [k] <-> j ∈ l).
Proof. set_solver. Qed.
Lemma NoDup_snoc (l : list Z) k : NoDup l -> k ∉ l -> NoDup (l ++ [k]).
Proof. intros. apply NoDup_app. split_and!; [done|set_solver|apply NoDup_singleton]. Qed.

(** Every call keeps the invariant. *)
Lemma step_wf e s a s' : wf s -> allowed e s -> step e s a s' -> wf s'.
Proof.
  intros Hw Ha Hs. pose proof Hw as [W1 W2 W3 W4 W5 W6]. unfold task in *.
  assert (Hout : forall id st, state_in (tasks s) id = st -> waits st = false -> id ∉ active s).
  { intros id st E Hst Hin%W2. congruence. }
  destruct Hs as [l id s Hm Hid|s _|id ids st l s Hact Hm|l id s Hr|l id s Hr|id s Hr|id l s Hm|id s|id s|s];
    try done; destruct s as [m act run gv]; cbn [tasks active running given] in *; subst;
    unfold enqueue, put, set_running; cbn [tasks active running given].
  - assert (E : state_in m id = COROUTINE_DEAD) by (unfold state_in; by rewrite Hm).
    pose proof (Hout id _ E eq_refl). eapply wf_insert; [exact Hw|done|by apply NoDup_snoc| | | | | | |].
    + intros. by apply elem_of_snoc.
    + set_solver.
    + done.
    + rewrite W3, E. done.
    + set_solver.
    + set_solver.
    + by constructor.
  - apply NoDup_cons in W1 as [Hni Hnd]. simpl in Ha. subst.
    assert (Hg : id ∈ gv) by (apply W5; by eexists).
    eapply wf_insert; [exact Hw|done|done| | | | | | |]; try done.
    + set_solver.
    + intros j Hj. split; [congruence|discriminate].
  - pose proof (proj1 (W3 id) eq_refl) as E. pose proof (Hout id _ E eq_refl).
    assert (Hg : id ∈ gv).
    { apply W5. unfold state_in in E. by destruct (m !! id). }
    eapply wf_insert; [exact Hw|done|by apply NoDup_snoc| | | | | | |]; try done.
    + intros. by apply elem_of_snoc.
    + set_solver.
    + intros j Hj. split; [discriminate|congruence].
  - pose proof (proj1 (W3 id) eq_refl) as E. pose proof (Hout id _ E eq_refl).
    assert (Hg : id ∈ gv).
    { apply W5. unfold state_in in E. by destruct (m !! id). }
    eapply wf_insert; [exact Hw|done|done| | | | | | |]; try done.
    intros j Hj. split; [discriminate|congruence].
  - pose proof (proj1 (W3 id) eq_refl) as E. pose proof (Hout id _ E eq_refl).
    eapply (wf_put_states m _ act _ gv _ _ _ id COROUTINE_DEAD Hw); try done.
    + intros j. apply state_delete.
    + intros j Hj. split; [discriminate|congruence].
    + intros j l Hl. apply lookup_delete_Some in Hl as [_ Hl]. by apply (W4 j l).
    + intros j [x Hx]. apply lookup_delete_Some in Hx as [_ Hx]. left. by exists x.
  - pose proof (state_some m id _ _ Hm) as E. pose proof (Hout id _ E eq_refl).
    assert (Hg : id ∈ gv) by (apply W5; by eexists).
    eapply wf_insert; [exact Hw|done|by apply NoDup_snoc| | | | | | |]; try done.
    + intros. by apply elem_of_snoc.
    + set_solver.
    + rewrite W3, E. done.
Qed.

(** Every call that is allowed has an answer, given a free identifier. *)
Lemma step_total e s : wf s -> allowed e s ->
  match e with New _ => True | _ => exists a s', step e s a s' end.
Proof.
  intros Hw Ha. destruct e; try done; simpl in Ha.
  - destruct (active s) as [|id ids] eqn:E; [by eexists _, _; constructor|].
    assert (Hin : waits (task s id) = true) by (apply (wf_waits s Hw); rewrite E; set_solver).
    unfold task, state_in in Hin. destruct (tasks s !! id) as [[st l]|] eqn:El; [|done].
    eexists _, _. by eapply step_turn.
  - destruct (running s) eqn:E; [|done]. by eexists _, _; constructor.
  - destruct (running s) eqn:E; [|done]. by eexists _, _; constructor.
  - destruct (running s) eqn:E; [|done]. by eexists _, _; constructor.
  - destruct (decide (task s id = COROUTINE_BLOCK)) as [E|E]; [|eexists _, _; by apply step_no_resume].
    unfold task, state_in in E. destruct (tasks s !! id) as [[st l]|] eqn:El; [|done]. subst st.
    eexists _, _. by eapply step_resume.
  - eexists _, _. constructor.
  - eexists _, _. constructor.
Qed.

(** ** Runs, and the turns *)

Inductive steps : t -> list (event * answer) -> t -> Prop :=
  | steps_nil s : steps s [] s
  | steps_cons s e a s1 es s2 : allowed e s -> step e s a s1 -> steps s1 es s2 -> steps s ((e, a) :: es) s2.

Lemma steps_wf s es s' : wf s -> steps s es s' -> wf s'.
Proof. intros Hw Hs. induction Hs as [|s e a s1 es s2 Ha Hs1 _ IH]; [done|]. apply IH. by eapply step_wf. Qed.

(** The turns that are handed out. *)
Definition turns (es : list (event * answer)) : list Z :=
  omap (fun x => match x.2 with Turn id _ => Some id | _ => None end) es.

(** A call changes the queue at its ends only. *)
Lemma step_queue e s a s' : step e s a s' ->
  exists queued, turns [(e, a)] ++ active s' = active s ++ queued.
Proof.
  intros Hs. destruct Hs; simpl; try (exists []; rewrite app_nil_r; done); try (eexists; reflexivity).
Qed.

Lemma steps_queue s es s' : steps s es s' ->
  exists queued, turns es ++ active s' = active s ++ queued.
Proof.
  intros Hs. induction Hs as [s|s e a s1 es s2 _ Hs _ [q2 IH]]; [exists []; by rewrite app_nil_r|].
  destruct (step_queue e s a s1 Hs) as [q1 E]. exists (q1 ++ q2).
  assert (Et : turns ((e, a) :: es) = turns [(e, a)] ++ turns es).
  { unfold turns. simpl. by destruct (match a with Turn id _ => Some id | _ => None end). }
  rewrite Et, <- app_assoc, IH, app_assoc, E. by rewrite app_assoc.
Qed.

Lemma turns_cons e a es :
  turns ((e, a) :: es) = match a with Turn id _ => id :: turns es | _ => turns es end.
Proof. by destruct a. Qed.

(** The identifiers that were handed out. *)
Definition news (es : list (event * answer)) : list Z :=
  omap (fun x => match x with (New _, Id id) => Some id | _ => None end) es.

Lemma steps_given s es s' : steps s es s' -> given s' = rev (news es) ++ given s.
Proof.
  intros Hs. induction Hs as [s|s e a s1 es s2 _ Hs _ IH]; [done|]. rewrite IH.
  destruct Hs; try done. simpl. by rewrite <- app_assoc.
Qed.

(** How often [coroutine_schedule] is called. *)
Fixpoint schedules (es : list (event * answer)) : nat :=
  match es with
  | [] => O
  | (Schedule, _) :: es => S (schedules es)
  | _ :: es => schedules es
  end.

(** Each call hands out a turn as long as there is one to hand out. *)
Lemma enough_turns s es s' : steps s es s' ->
  (schedules es <= length (turns es) \/ length (active s) <= length (turns es))%nat.
Proof.
  intros Hs. induction Hs as [s|s e a s1 es s2 _ Hs _ IH]; [by left|].
  rewrite turns_cons. destruct Hs; simpl in *; rewrite ?length_app in *; simpl in *; try lia.
  - right. rewrite H. simpl. lia.
  - rewrite H. simpl. lia.
Qed.

(** The coroutine at place [k] of the queue gets the turn after the [k] ahead of it. *)
Lemma turn_comes s es s' k id :
  steps s es s' -> active s !! k = Some id -> (k < schedules es)%nat -> turns es !! k = Some id.
Proof.
  intros Hs Hk Hlt. pose proof (lookup_lt_Some _ _ _ Hk) as Hlen.
  destruct (steps_queue s es s' Hs) as [q E]. pose proof (enough_turns s es s' Hs).
  rewrite <- (lookup_app_l _ (active s')) by lia. rewrite E. by rewrite lookup_app_l.
Qed.

Lemma steps_app s es1 es2 s' : steps s (es1 ++ es2) s' -> exists s1, steps s es1 s1 /\ steps s1 es2 s'.
Proof.
  revert s. induction es1 as [|[e a] es1 IH]; intros s Hs; [exists s; split; [constructor|done]|].
  inversion Hs as [|? ? ? s1 ? ? Ha Hst Hrest]; subst. destruct (IH s1 Hrest) as (s2 & H1 & H2).
  exists s2. split; [by econstructor|done].
Qed.

(** ** Programs and implementations

    What a whole program does with the library, the main program and its coroutines
    in turn, depends on the answers. *)
Inductive program := Stop | Call (e : event) (k : answer -> program).

(** The program makes at most [n] calls, each of them allowed and one of those
    that [supported] names. *)
Fixpoint well_behaved (supported : event -> Prop) (n : nat) (p : program) (s : t) : Prop :=
  match p, n with
  | Stop, _ => True
  | Call e k, S n => allowed e s /\ supported e /\
      forall a s', step e s a s' -> well_behaved supported n (k a) s'
  | Call _ _, O => False
  end.

Class Coroutines (C : Type) := {
  repr : C -> t -> Prop;
  perform : event -> C -> option (answer * C);
  supported : event -> Prop;
  capacity : Z;
  perform_ok c s e : repr c s -> wf s -> allowed e s -> supported e -> zlen (given s) < capacity ->
    exists a c' s', perform e c = Some (a, c') /\ step e s a s' /\ repr c' s' }.

Fixpoint run {C} `{Coroutines C} (p : program) (c : C) : option (list (event * answer) * C) :=
  match p with
  | Stop => Some ([], c)
  | Call e k =>
      '(a, c) ← perform e c;
      '(es, c) ← run (k a) c;
      Some ((e, a) :: es, c)
  end.

Lemma step_given e s a s' : step e s a s' -> zlen (given s') <= zlen (given s) + 1.
Proof. intros Hs. destruct Hs; simpl; rewrite ?zlen_cons; lia. Qed.

(** The answers of an implementation are those of the state machine. *)
Lemma run_refines {C} `{Coroutines C} n : forall p c s,
  repr c s -> wf s -> well_behaved supported n p s -> zlen (given s) + Z.of_nat n <= capacity ->
  exists es c' s', run p c = Some (es, c') /\ steps s es s' /\ repr c' s' /\ wf s'.
Proof.
  induction n as [|n IH]; intros [|e k] c s Hr Hw Hp Hc; try done;
    try (exists [], c, s; split; [done|]; split; [constructor|done]).
  destruct Hp as (Ha & Hs & Hk).
  destruct (perform_ok c s e Hr Hw Ha Hs) as (a & c1 & s1 & E & Hst & Hr1); [lia|].
  pose proof (step_given e s a s1 Hst).
  destruct (IH (k a) c1 s1 Hr1) as (es & c2 & s2 & E2 & Hss & Hr2 & Hw2);
    [by eapply step_wf|by apply Hk|lia|].
  exists ((e, a) :: es), c2, s2. cbn [run]. rewrite E. cbn [mbind option_bind]. rewrite E2.
  split; [done|]. split; [by econstructor|done].
Qed.
End Spec.
