(* ===== verification/CoroutinePosix.v ===== *)
(** * utils/coroutine.c over POSIX contexts

    All coroutines run on one stack of [STACK_SIZE] bytes inside the [schedule]
    object. A coroutine that gives way copies its part of the stack to a block of
    its own, and gets it back in the same place when its turn comes.
    [getcontext], [makecontext] and [swapcontext] save and load the registers;
    the contents of the memory from the saved stack pointer on are what the
    coroutine finds. *)

From stdpp Require Import gmap.
From S2P Require Import Prelude.
From S2P Require Import Words.
From S2P Require Import IntQueue.
From S2P Require Import Scheduler.
#[local] Open Scope Z_scope.
#[local] Open Scope brynet_scope.

Definition STACK_SIZE : Z := 1024 * 1024.
Definition DEFAULT_COROUTINE : Z := 16.

Section Posix.
(** A function of a coroutine with its argument; the registers that a context
    saves; the contents of a new block; the place of [_save_stack]'s caller's
    variable [C], which is above [dummy]; and the queue, stack.c. *)
Context {F R Q : Type} (malloc : Z -> bytes) (Hmalloc : forall n, 0 <= n -> zlen (malloc n) = n).
Context (addr_C : Z -> Z) (Haddr : forall dummy, dummy < addr_C dummy).
Context `{HQ : IntQueue Q}.

(** Where a coroutine goes on: at its start, or with the registers [r] and the
    part [frames] of the stack. *)
Inductive point := Start (f : F) | Inside (r : R) (frames : bytes).

(** The context is saved with the offset of the stack pointer in the stack. *)
Record coroutine := mk_co {
  func : F;
  ctx : option (R * Z);
  co_cap : Z;
  co_size : Z;
  co_state : COROUTINE_STATE;
  co_stack : bytes }.

Record schedule := mk_schedule {
  stack : bytes;
  nco : Z;
  cap : Z;
  S_running : Z;
  cos : list (option coroutine);
  active_list : Q }.

Definition set_cos (l : list (option coroutine)) (S : schedule) : schedule :=
  mk_schedule (stack S) (nco S) (cap S) (S_running S) l (active_list S).
Definition set_S_running (r : Z) (S : schedule) : schedule :=
  mk_schedule (stack S) (nco S) (cap S) r (cos S) (active_list S).
Definition set_stack (b : bytes) (S : schedule) : schedule :=
  mk_schedule b (nco S) (cap S) (S_running S) (cos S) (active_list S).
Definition set_active_list (q : Q) (S : schedule) : schedule :=
  mk_schedule (stack S) (nco S) (cap S) (S_running S) (cos S) q.

(** [S->cos[id]], [None] outside the block. *)
Definition cos_at (S : schedule) (id : Z) : option (option coroutine) :=
  if (0 <=? id) && (id <? cap S) then cos S !! Z.to_nat id else None.

Definition assert_ (b : bool) : option unit := if b then Some tt else None.

Definition _co_new (f : F) : coroutine := mk_co f None 0 0 COROUTINE_READY [].

Definition coroutine_open (uninit : bytes) : option schedule :=
  q ← q_new 1024;
  Some (mk_schedule uninit 0 DEFAULT_COROUTINE (-1) (replicate (Z.to_nat DEFAULT_COROUTINE) None) q).

(** The coroutines that are deleted; the stack [active_list] is not. *)
Definition coroutine_close (S : schedule) : list coroutine := omap id (cos S).

(** [for (i=0;i<S->cap;i++)]: a free slot, the search starting at [nco]. *)
Fixpoint find_slot (n : nat) (i : Z) (S : schedule) : option Z :=
  match n with
  | O => None
  | Datatypes.S n =>
      let id := (i + nco S) mod cap S in
      match cos_at S id with
      | Some None => Some id
      | _ => find_slot n (i + 1) S
      end
  end.

Definition claim (id : Z) (co : coroutine) (S : schedule) : option (Z * schedule) :=
  q ← q_push (active_list S) id;
  Some (id, mk_schedule (stack S) (nco S + 1) (cap S) (S_running S)
    (<[Z.to_nat id := Some co]> (cos S)) q).

Definition coroutine_new (f : F) (S : schedule) : option (Z * schedule) :=
  let co := _co_new f in
  if cap S <=? nco S then
    cap2 ← chk_int (cap S * 2);
    let id := cap S in
    claim id co (mk_schedule (stack S) (nco S) cap2 (S_running S)
      (cos S ++ replicate (Z.to_nat (cap S)) None) (active_list S))
  else
    id ← find_slot (Z.to_nat (cap S)) 0 S;
    claim id co S.

(** The end of [mainfunc], when the function of the coroutine has returned. *)
Definition mainfunc_end (S : schedule) : option schedule :=
  let id := S_running S in
  c ← cos_at S id;
  Some (mk_schedule (stack S) (nco S - 1) (cap S) (-1) (<[Z.to_nat id := None]> (cos S)) (active_list S)).

Definition set_state (st : COROUTINE_STATE) (C : coroutine) : coroutine :=
  mk_co (func C) (ctx C) (co_cap C) (co_size C) st (co_stack C).

(** Where the coroutine goes on: the function, or what its context and the
    memory of the stack hold. *)
Definition coroutine_goto (id : Z) (S : schedule) : option (answer (L := point) * schedule) :=
  assert_ (S_running S =? -1);;
  assert_ ((0 <=? id) && (id <? cap S));;
  c ← cos_at S id;
  match c with
  | None => Some (Done, S)
  | Some C =>
      let S' := set_S_running id (set_cos (<[Z.to_nat id := Some (set_state COROUTINE_RUNNING C)]> (cos S)) S) in
      match co_state C with
      | COROUTINE_READY => Some (Turn id (Start (func C)), S')
      | COROUTINE_SUSPEND =>
          data ← load (co_stack C) 0 (co_size C);
          m ← memcpy (stack S) (STACK_SIZE - co_size C) data;
          '(r, sp) ← ctx C;
          Some (Turn id (Inside r (slice m sp (STACK_SIZE - sp))), set_stack m S')
      | _ => None
      end
  end.

(** [_save_stack(C, S->stack + STACK_SIZE)], [dummy] being the offset of its local
    variable in the stack. *)
Definition _save_stack (dummy : Z) (S : schedule) (C : coroutine) : option coroutine :=
  let size := STACK_SIZE - dummy in
  assert_ (size <=? STACK_SIZE);;
  let '(cap, block) := if co_cap C <? size then (size, malloc size) else (co_cap C, co_stack C) in
  data ← load (stack S) dummy size;
  block ← memcpy block 0 data;
  Some (mk_co (func C) (ctx C) cap size (co_state C) block).

(** [coroutine_yield] and [coroutine_block] up to [swapcontext], which saves the
    registers [r]. *)
Definition give_way (st : COROUTINE_STATE) (r : R) (dummy : Z) (S : schedule) : option (Z * schedule) :=
  let id := S_running S in
  assert_ (0 <=? id);;
  c ← cos_at S id; C ← c;
  assert_ (0 <? addr_C dummy);;
  C ← _save_stack dummy S C;
  let C := mk_co (func C) (Some (r, dummy)) (co_cap C) (co_size C) st (co_stack C) in
  Some (id, set_S_running (-1) (set_cos (<[Z.to_nat id := Some C]> (cos S)) S)).

Definition coroutine_yield (r : R) (dummy : Z) (S : schedule) : option schedule :=
  '(id, S) ← give_way COROUTINE_SUSPEND r dummy S;
  q ← q_push (active_list S) id;
  Some (set_active_list q S).

Definition coroutine_block (r : R) (dummy : Z) (S : schedule) : option schedule :=
  '(_, S) ← give_way COROUTINE_BLOCK r dummy S; Some S.

Definition coroutine_status (id : Z) (S : schedule) : option COROUTINE_STATE :=
  assert_ ((0 <=? id) && (id <? cap S));;
  c ← cos_at S id;
  Some (match c with None => COROUTINE_DEAD | Some C => co_state C end).

Definition coroutine_running (S : schedule) : Z := S_running S.

Definition coroutine_schedule (S : schedule) : option (answer (L := point) * schedule) :=
  if 0 <? q_num (active_list S) then
    '(id, q) ← q_popfront (active_list S);
    id ← id;
    coroutine_goto id (set_active_list q S)
  else Some (Done, S).

(** What the running coroutine has on the stack when it calls the library. *)
Definition with_frames (frames : bytes) (S : schedule) : option schedule :=
  m ← memcpy (stack S) (STACK_SIZE - zlen frames) frames; Some (set_stack m S).

Definition posix_perform (e : event (L := point)) (S : schedule) : option (answer (L := point) * schedule) :=
  match e with
  | New (Start f) => '(id, S) ← coroutine_new f S; Some (Id id, S)
  | Schedule => coroutine_schedule S
  | Yield (Inside r frames) =>
      S ← with_frames frames S; S ← coroutine_yield r (STACK_SIZE - zlen frames) S; Some (Done, S)
  | Block (Inside r frames) =>
      S ← with_frames frames S; S ← coroutine_block r (STACK_SIZE - zlen frames) S; Some (Done, S)
  | Return => S ← mainfunc_end S; Some (Done, S)
  | Status id => st ← coroutine_status id S; Some (State st, S)
  | Running => Some (Id (coroutine_running S), S)
  | _ => None
  end.

(** The calls of this platform; [coroutine_resume] does not compile here, for it uses
    array.c, which only the other branch includes. *)
Definition posix_supported (e : event (L := point)) : Prop :=
  match e with
  | New (Start _) => True
  | Yield (Inside _ frames) | Block (Inside _ frames) => zlen frames <= STACK_SIZE
  | New (Inside _ _) | Yield (Start _) | Block (Start _) | Resume _ => False
  | Schedule | Return | Status _ | Running => True
  end.

(** ** What the object stands for *)

Definition one (c : option coroutine) : Z := match c with Some _ => 1 | None => 0 end.
Fixpoint used (l : list (option coroutine)) : Z := match l with [] => 0 | c :: l => one c + used l end.

Definition block_ok (C : coroutine) : Prop := zlen (co_stack C) = co_cap C.

(** Where the coroutine [C] goes on, while it does not run. *)
Definition goes_on (C : coroutine) (l : point) : Prop :=
  match co_state C with
  | COROUTINE_READY => l = Start (func C)
  | COROUTINE_SUSPEND | COROUTINE_BLOCK =>
      exists r frames, l = Inside r frames /\ zlen frames <= STACK_SIZE /\
        ctx C = Some (r, STACK_SIZE - zlen frames) /\ co_size C = zlen frames /\
        load (co_stack C) 0 (zlen frames) = Some frames
  | _ => True
  end.

Definition slot_ok (m : gmap Z (COROUTINE_STATE * point)) (id : Z) (c : option (option coroutine)) : Prop :=
  match c with
  | Some (Some C) => exists l, m !! id = Some (co_state C, l) /\ goes_on C l /\ block_ok C
  | _ => m !! id = None
  end.

Record posix_repr (S : schedule) (s : t) : Prop := mk_repr {
  pr_stack : zlen (stack S) = STACK_SIZE;
  pr_cap : 16 <= cap S <= Z.max 16 (2 * zlen (given s));
  pr_cos : zlen (cos S) = cap S;
  pr_nco : nco S = used (cos S);
  pr_few : nco S <= zlen (given s);
  pr_running : S_running S = default (-1) (running s);
  pr_tasks : forall id, slot_ok (tasks s) id (cos_at S id);
  pr_given : Forall (fun id => 0 <= id < cap S) (given s);
  pr_queue : q_ok (active_list S) (active s) }.

(** ** The slots *)

Lemma used_insert l i c c' : l !! i = Some c -> used (<[i := c']> l) = used l - one c + one c'.
Proof.
  revert i. induction l as [|a l IH]; intros [|i] E; try done; simpl in *.
  - injection E as ->. lia.
  - rewrite (IH i E). lia.
Qed.

Lemma used_app l k : used (l ++ k) = used l + used k.
Proof. induction l as [|a l IH]; simpl; lia. Qed.

Lemma used_none n : used (replicate n None) = 0.
Proof. induction n; simpl; lia. Qed.

Lemma used_range l : 0 <= used l <= zlen l.
Proof. induction l as [|[C|] l IH]; [done|..]; simpl; rewrite zlen_cons; lia. Qed.

Lemma used_full l : (forall i, l !! i <> Some None) -> used l = zlen l.
Proof.
  induction l as [|[C|] l IH]; intros H; [done|..]; simpl.
  - rewrite zlen_cons, IH; [done|]. intros i. exact (H (Datatypes.S i)).
  - by destruct (H O).
Qed.

Lemma cos_at_lookup S id : 0 <= id < cap S -> cos_at S id = cos S !! Z.to_nat id.
Proof.
  intros H. unfold cos_at. by rewrite (proj2 (Z.leb_le _ _)), (proj2 (Z.ltb_lt _ _)) by lia.
Qed.

Lemma cos_at_some S id c : cos_at S id = Some c -> 0 <= id < cap S /\ cos S !! Z.to_nat id = Some c.
Proof.
  unfold cos_at. destruct (Z.leb_spec 0 id), (Z.ltb_spec id (cap S)); try discriminate. done.
Qed.

Lemma cos_at_inside S id : zlen (cos S) = cap S -> 0 <= id < cap S -> exists c, cos_at S id = Some c.
Proof.
  intros Hl H. rewrite cos_at_lookup by done. apply lookup_lt_is_Some_2. unfold zlen in Hl. lia.
Qed.

Lemma find_slot_ok S n : forall i k, 0 <= i -> i <= k < i + Z.of_nat n ->
  cos_at S ((k + nco S) mod cap S) = Some None ->
  exists id, find_slot n i S = Some id /\ cos_at S id = Some None.
Proof.
  induction n as [|n IH]; intros i k Hi Hk Hc; [lia|]. cbn [find_slot].
  destruct (cos_at S ((i + nco S) mod cap S)) as [[C|]|] eqn:E; [|by eexists|].
  all: apply (IH (i + 1) k); [lia| |done];
    destruct (Z.eq_dec i k) as [->|]; [congruence|lia].
Qed.

(** There is a free slot when fewer coroutines live than there are slots. *)
Lemma free_slot S : zlen (cos S) = cap S -> nco S = used (cos S) -> nco S < cap S ->
  exists id, find_slot (Z.to_nat (cap S)) 0 S = Some id /\ cos_at S id = Some None.
Proof.
  intros Hl Hn Hlt. pose proof (used_range (cos S)).
  assert (Hex : exists i, cos S !! i = Some None).
  { destruct (decide (Exists (fun c => c = None) (cos S))) as [He|He].
    - apply Exists_exists in He as (c & Hc & ->). by apply list_elem_of_lookup in Hc.
    - exfalso. assert (used (cos S) = zlen (cos S)); [|lia]. apply used_full. intros i Hi. apply He.
      apply Exists_exists. exists None. split; [|done]. by eapply list_elem_of_lookup_2. }
  destruct Hex as [i Hi]. pose proof (lookup_lt_Some _ _ _ Hi) as Hlen. unfold zlen in Hl.
  apply (find_slot_ok S _ 0 ((Z.of_nat i - nco S) mod cap S)); [lia| |].
  - pose proof (Z.mod_pos_bound (Z.of_nat i - nco S) (cap S) ltac:(lia)). lia.
  - rewrite Zplus_mod_idemp_l. replace (Z.of_nat i - nco S + nco S) with (Z.of_nat i) by lia.
    rewrite Z.mod_small by lia. rewrite cos_at_lookup by lia. by rewrite Nat2Z.id.
Qed.

Lemma cos_at_insert S st n r q id c j :
  zlen (cos S) = cap S -> 0 <= id < cap S ->
  cos_at (mk_schedule st n (cap S) r (<[Z.to_nat id := c]> (cos S)) q) j =
  if decide (j = id) then Some c else cos_at S j.
Proof.
  intros Hl Hid. unfold cos_at. cbn [cap cos]. destruct (decide (j = id)) as [->|Hne].
  - rewrite (proj2 (Z.leb_le _ _)), (proj2 (Z.ltb_lt _ _)) by lia. cbn [andb].
    apply list_lookup_insert_eq. unfold zlen in Hl. lia.
  - destruct (Z.leb_spec 0 j), (Z.ltb_spec j (cap S)); try done. cbn [andb].
    apply list_lookup_insert_ne. lia.
Qed.

Lemma posix_slot_ok_ext m m' id c : m !! id = m' !! id -> slot_ok m id c -> slot_ok m' id c.
Proof. intros E. unfold slot_ok. by rewrite E. Qed.

(** The object after a call that changes one slot. *)
Lemma posix_repr_update S s id c c' st' n' r' q' m' act' run' gv' :
  posix_repr S s -> cos_at S id = Some c -> zlen st' = STACK_SIZE ->
  slot_ok m' id (Some c') -> (forall j, j <> id -> tasks s !! j = m' !! j) ->
  n' = nco S - one c + one c' -> n' <= zlen gv' -> r' = default (-1) run' -> q_ok q' act' ->
  zlen (given s) <= zlen gv' -> Forall (fun j => 0 <= j < cap S) gv' ->
  posix_repr (mk_schedule st' n' (cap S) r' (<[Z.to_nat id := c']> (cos S)) q') (mk m' act' run' gv').
Proof.
  intros [R1 R2 R3 R4 R5 R6 R7 R8 R9] Hc Hst Hslot Hm Hn Hfew Hr Hq Hgv Hids.
  apply cos_at_some in Hc as [Hid Hc].
  constructor; cbn [stack nco cap S_running cos active_list tasks active running given]; try done; try lia.
  - unfold zlen in *. by rewrite length_insert.
  - rewrite (used_insert _ _ c c' Hc). lia.
  - intros j. rewrite cos_at_insert by done. destruct (decide (j = id)) as [->|Hne]; [done|].
    eapply posix_slot_ok_ext; [by apply Hm|apply R7].
Qed.

Lemma posix_active_le_given s : wf s -> zlen (active s) <= zlen (given (L := point) s).
Proof.
  intros Hw. unfold zlen. apply inj_le. apply submseteq_length, NoDup_submseteq; [apply Hw|].
  intros id Hin%(wf_waits s Hw). apply (wf_given s Hw). unfold task, state_in in Hin.
  destruct (tasks s !! id) as [x|]; [by exists x|done].
Qed.

(** ** The calls *)

Lemma posix_open_ok uninit : zlen uninit = STACK_SIZE ->
  exists S, coroutine_open uninit = Some S /\ posix_repr S init.
Proof.
  intros Hu. unfold coroutine_open. pose proof q_room_range.
  destruct (q_new_ok 1024) as (q & E & Hq); [lia|]. rewrite E. cbn [mbind option_bind].
  eexists. split; [done|].
  constructor; cbn [stack nco cap S_running cos active_list tasks active running given init]; try done.
  - intros id. unfold cos_at. cbn [cap cos]. destruct ((0 <=? id) && (id <? DEFAULT_COROUTINE)); [|done].
    destruct (replicate _ _ !! _) as [c|] eqn:El; [|done].
    apply lookup_replicate in El as [-> _]. done.
Qed.

Lemma grow_ok S s : posix_repr S s -> cap S <= nco S -> zlen (given s) < q_room ->
  exists c2, chk_int (cap S * 2) = Some c2 /\
    let S' := mk_schedule (stack S) (nco S) c2 (S_running S)
      (cos S ++ replicate (Z.to_nat (cap S)) None) (active_list S) in
    posix_repr S' s /\ cos_at S' (cap S) = Some None.
Proof.
  intros [R1 R2 R3 R4 R5 R6 R7 R8 R9] Hle Hg. pose proof q_room_range.
  exists (cap S * 2). split; [apply chk_int_ok; unfold INT_MAX; lia|].
  assert (Hat : forall j, cos_at (mk_schedule (stack S) (nco S) (cap S * 2) (S_running S)
      (cos S ++ replicate (Z.to_nat (cap S)) None) (active_list S)) j =
      if (cap S <=? j) && (j <? cap S * 2) then Some None else cos_at S j).
  { intros j. unfold cos_at. cbn [cap cos]. unfold zlen in R3.
    destruct (Z.leb_spec 0 j), (Z.ltb_spec j (cap S * 2)), (Z.leb_spec (cap S) j), (Z.ltb_spec j (cap S));
      try lia; try done; cbn [andb].
    - rewrite lookup_app_r by lia. rewrite lookup_replicate_2 by lia. done.
    - by rewrite lookup_app_l by lia. }
  split.
  - constructor; cbn [stack nco cap S_running cos active_list]; try done; try lia.
    + rewrite zlen_app, zlen_replicate. lia.
    + rewrite used_app, used_none. lia.
    + intros j. rewrite Hat. destruct (Z.leb_spec (cap S) j), (Z.ltb_spec j (cap S * 2)); cbn [andb]; try apply R7.
      specialize (R7 j). unfold cos_at in R7. rewrite (proj2 (Z.ltb_ge j (cap S))), andb_false_r in R7 by lia. done.
    + eapply Forall_impl; [exact R8|]. simpl. lia.
  - rewrite Hat. by rewrite (proj2 (Z.leb_le _ _)), (proj2 (Z.ltb_lt _ _)) by lia.
Qed.

Lemma posix_claim_ok S s id f : posix_repr S s -> wf s -> cos_at S id = Some None -> zlen (given s) < q_room ->
  exists S' s', claim id (_co_new f) S = Some (id, S') /\ step (New (Start f)) s (Id id) s' /\ posix_repr S' s'.
Proof.
  intros Hr Hw Hc Hg. pose proof Hr as [R1 R2 R3 R4 R5 R6 R7 R8 R9]. pose proof q_room_range.
  pose proof (cos_at_some S id _ Hc) as [Hid _]. pose proof (posix_active_le_given s Hw).
  assert (Hint : is_int id) by (unfold is_int, INT_MAX; lia).
  unfold claim. destruct (q_push_ok (active_list S) (active s) id R9 Hint) as (q & -> & Hq); [lia|].
  cbn [mbind option_bind]. eexists _, _. split; [done|]. split.
  - apply step_new; [|done]. specialize (R7 id). by rewrite Hc in R7.
  - apply (posix_repr_update S s id None (Some (_co_new f)) _ _ _ _ _ _ _ _ Hr Hc); try done.
    + exists (Start f). split; [apply lookup_insert_eq|]. by split.
    + intros j Hne. by rewrite lookup_insert_ne by done.
    + simpl. lia.
    + rewrite zlen_cons. lia.
    + rewrite zlen_cons. lia.
    + by constructor.
Qed.

Lemma posix_new_ok S s f : posix_repr S s -> wf s -> zlen (given s) < q_room ->
  exists id S' s', coroutine_new f S = Some (id, S') /\ step (New (Start f)) s (Id id) s' /\ posix_repr S' s'.
Proof.
  intros Hr Hw Hg. unfold coroutine_new. destruct (Z.leb_spec (cap S) (nco S)) as [Hle|Hlt].
  - destruct (grow_ok S s Hr Hle Hg) as (c2 & -> & Hr' & Hc). cbn [mbind option_bind].
    destruct (posix_claim_ok _ s (cap S) f Hr' Hw Hc Hg) as (S' & s' & E & Hs & Hr''). by exists (cap S), S', s'.
  - destruct (free_slot S) as (id & -> & Hc); [apply Hr|apply Hr|done|]. cbn [mbind option_bind].
    destruct (posix_claim_ok S s id f Hr Hw Hc Hg) as (S' & s' & E & Hs & Hr'). by exists id, S', s'.
Qed.

(** The slot of a coroutine that lives. *)
Lemma posix_slot_of S s id st l : posix_repr S s -> tasks s !! id = Some (st, l) ->
  exists C, cos_at S id = Some (Some C) /\ co_state C = st /\ goes_on C l /\ block_ok C.
Proof.
  intros Hr Hm. pose proof (pr_tasks S s Hr id) as Hs. unfold slot_ok in Hs. rewrite Hm in Hs.
  destruct (cos_at S id) as [[C|]|]; try discriminate. destruct Hs as (l' & [= -> ->] & ? & ?). by exists C.
Qed.

(** What was saved comes back to its place, whatever the stack holds. *)
Lemma frames_back (st frames : bytes) : zlen st = STACK_SIZE -> zlen frames <= STACK_SIZE ->
  exists m, memcpy st (STACK_SIZE - zlen frames) frames = Some m /\ zlen m = STACK_SIZE /\
    slice m (STACK_SIZE - zlen frames) (zlen frames) = frames.
Proof.
  intros Hst Hf. pose proof (zlen_nonneg frames). rewrite memcpy_spec by lia. eexists. split; [done|].
  destruct (Z.eqb_spec (zlen frames) 0) as [E|E].
  - split; [done|]. rewrite E, slice_nil by lia. symmetry. by apply zlen_zero.
  - split; [by rewrite zlen_splice by lia|]. by rewrite slice_splice_same by lia.
Qed.

Lemma posix_schedule_ok S s : posix_repr S s -> wf s -> running s = None ->
  exists a S' s', coroutine_schedule S = Some (a, S') /\ step Schedule s a s' /\ posix_repr S' s'.
Proof.
  intros Hr Hw Hn. pose proof Hr as [R1 R2 R3 R4 R5 R6 R7 R8 R9]. unfold coroutine_schedule.
  rewrite (q_num_ok _ _ R9). destruct (active s) as [|id ids] eqn:Ea.
  { exists Done, S, s. split; [done|]. by split; [constructor|]. }
  pose proof (zlen_nonneg ids). rewrite zlen_cons, (proj2 (Z.ltb_lt _ _)) by lia.
  destruct (q_popfront_ok _ _ R9) as (q & -> & Hq). cbn [mbind option_bind head tail] in *.
  assert (Hwait : waits (task s id) = true) by (apply (wf_waits s Hw); rewrite Ea; set_solver).
  unfold task, state_in in Hwait. destruct (tasks s !! id) as [[st l]|] eqn:Hm; [|done].
  destruct (posix_slot_of S s id st l Hr Hm) as (C & Hc & Hst & Hgo & Hb).
  pose proof (cos_at_some S id _ Hc) as [Hid _].
  assert (Hgoal : forall m, zlen m = STACK_SIZE -> posix_repr
    (mk_schedule m (nco S) (cap S) id (<[Z.to_nat id := Some (set_state COROUTINE_RUNNING C)]> (cos S)) q)
    (mk (<[id := (COROUTINE_RUNNING, l)]> (tasks s)) ids (Some id) (given s))).
  { intros m Hl. apply (posix_repr_update S s id (Some C) (Some (set_state COROUTINE_RUNNING C)) _ _ _ _ _ _ _ _ Hr Hc);
      try done.
    - exists l. split; [apply lookup_insert_eq|]. by split.
    - intros j Hne. by rewrite lookup_insert_ne by done.
    - simpl. lia. }
  pose proof (step_turn id ids st l s Ea Hm) as Hstep.
  unfold coroutine_goto. change (cos_at (set_active_list q S) id) with (cos_at S id).
  change (S_running (set_active_list q S)) with (S_running S). rewrite R6, Hn.
  change (cap (set_active_list q S)) with (cap S). change (default (-1) None) with (-1). rewrite Z.eqb_refl.
  rewrite (proj2 (Z.leb_le _ _)), (proj2 (Z.ltb_lt _ _)) by lia.
  cbn [assert_ andb mbind option_bind]. rewrite Hc. cbn [mbind option_bind].
  unfold goes_on in Hgo. rewrite Hst in *. destruct st; try discriminate.
  - subst l. eexists _, _, _. split; [done|]. split; [exact Hstep|]. by apply Hgoal.
  - destruct Hgo as (r & frames & -> & Hf & Hctx & Hsz & Hld). rewrite Hsz, Hld. cbn [mbind option_bind].
    destruct (frames_back (stack S) frames R1 Hf) as (m & Em & Lm & Sm).
    change (stack (set_active_list q S)) with (stack S). rewrite Em, Hctx. cbn [mbind option_bind].
    replace (STACK_SIZE - (STACK_SIZE - zlen frames)) with (zlen frames) by lia. rewrite Sm.
    eexists _, _, _. split; [done|]. split; [exact Hstep|]. by apply Hgoal.
Qed.

(** The copy of the frames that [_save_stack] makes. *)
Lemma save_ok S C (frames : bytes) : zlen (stack S) = STACK_SIZE -> block_ok C -> zlen frames <= STACK_SIZE ->
  slice (stack S) (STACK_SIZE - zlen frames) (zlen frames) = frames ->
  exists C', _save_stack (STACK_SIZE - zlen frames) S C = Some C' /\ func C' = func C /\ block_ok C' /\
    co_size C' = zlen frames /\ load (co_stack C') 0 (zlen frames) = Some frames.
Proof.
  intros Hst Hb Hf Hs. pose proof (zlen_nonneg frames) as Hz. unfold _save_stack.
  replace (STACK_SIZE - (STACK_SIZE - zlen frames)) with (zlen frames) by lia.
  rewrite (proj2 (Z.leb_le _ _)) by lia. cbn [assert_ mbind option_bind].
  set (cb := if co_cap C <? zlen frames then (zlen frames, malloc (zlen frames)) else (co_cap C, co_stack C)).
  assert (Hcb : zlen cb.2 = cb.1 /\ zlen frames <= cb.1).
  { unfold cb. destruct (Z.ltb_spec (co_cap C) (zlen frames)); simpl; [|by split].
    split; [by apply Hmalloc|lia]. }
  destruct cb as [c b]. simpl in Hcb. destruct Hcb as [Hlb Hc].
  rewrite load_ok, Hs by lia. cbn [mbind option_bind].
  rewrite memcpy_spec by lia. cbn [mbind option_bind]. eexists. split; [done|].
  split; [done|]. unfold block_ok. cbn [co_stack co_cap co_size].
  destruct (Z.eqb_spec (zlen frames) 0) as [E|E].
  - split_and!; try done. rewrite E, load_ok, slice_nil by lia. f_equal. symmetry. by apply zlen_zero.
  - split; [by rewrite zlen_splice by lia|]. split; [done|].
    rewrite load_ok by (rewrite ?zlen_splice; lia). by rewrite slice_splice_same by lia.
Qed.

(** Giving way, by [coroutine_yield] or [coroutine_block]. *)
Lemma give_way_ok S s id r (frames : bytes) st :
  posix_repr S s -> wf s -> running s = Some id -> zlen frames <= STACK_SIZE ->
  st = COROUTINE_SUSPEND \/ st = COROUTINE_BLOCK ->
  exists S0 S', with_frames frames S = Some S0 /\
    give_way st r (STACK_SIZE - zlen frames) S0 = Some (id, S') /\ active_list S' = active_list S /\
    posix_repr S' (set_running None (put id st (Inside r frames) s)).
Proof.
  intros Hr Hw Hrun Hf Hst. pose proof Hr as [R1 R2 R3 R4 R5 R6 R7 R8 R9]. pose proof (zlen_nonneg frames).
  assert (Htask : task s id = COROUTINE_RUNNING) by (by apply (wf_running s Hw)).
  unfold task, state_in in Htask. destruct (tasks s !! id) as [[st0 l]|] eqn:Hm; [|done]. subst st0.
  destruct (posix_slot_of S s id _ l Hr Hm) as (C & Hc & HC & _ & Hb).
  pose proof (cos_at_some S id _ Hc) as [Hid _].
  destruct (frames_back (stack S) frames R1 Hf) as (m & Em & Lm & Sm).
  destruct (save_ok (set_stack m S) C frames Lm Hb Hf Sm) as (C' & E & Hfn & Hb' & Hsz & Hld).
  unfold with_frames. rewrite Em. cbn [mbind option_bind]. eexists _, _. split; [done|]. unfold give_way.
  change (S_running (set_stack m S)) with (S_running S). change (cos_at (set_stack m S)) with (cos_at S).
  rewrite R6, Hrun. change (default (-1) (Some id)) with id. rewrite (proj2 (Z.leb_le _ _)) by lia. cbn [assert_ mbind option_bind].
  rewrite Hc. cbn [mbind option_bind].
  rewrite (proj2 (Z.ltb_lt _ _)) by (pose proof (Haddr (STACK_SIZE - zlen frames)); lia).
  cbn [assert_ mbind option_bind]. rewrite E. cbn [mbind option_bind]. split; [done|]. split; [done|].
  apply (posix_repr_update S s id (Some C) (Some (mk_co (func C') (Some (r, STACK_SIZE - zlen frames))
    (co_cap C') (co_size C') st (co_stack C'))) _ _ _ _ _ _ _ _ Hr Hc); try done.
  - exists (Inside r frames). split; [apply lookup_insert_eq|]. split; [|done].
    destruct Hst as [-> | ->]; by exists r, frames.
  - intros j Hne. cbn [tasks put]. by rewrite lookup_insert_ne by done.
  - simpl. lia.
Qed.

Lemma posix_yield_ok S s r (frames : bytes) :
  posix_repr S s -> wf s -> running s <> None -> zlen frames <= STACK_SIZE -> zlen (given s) < q_room ->
  exists S0 S' s', with_frames frames S = Some S0 /\ coroutine_yield r (STACK_SIZE - zlen frames) S0 = Some S' /\
    step (Yield (Inside r frames)) s Done s' /\ posix_repr S' s'.
Proof.
  intros Hr Hw Hrun Hf Hg. destruct (running s) as [id|] eqn:Er; [|done]. pose proof q_room_range.
  destruct (give_way_ok S s id r frames COROUTINE_SUSPEND Hr Hw Er Hf) as (S0 & S' & E0 & E & Eq & Hr'); [by left|].
  pose proof (posix_active_le_given s Hw). pose proof (pr_cap S s Hr).
  assert (Hin : id ∈ given s).
  { apply (wf_given s Hw). apply (wf_running s Hw) in Er. unfold task, state_in in Er.
    destruct (tasks s !! id) as [x|]; [by exists x|done]. }
  pose proof (pr_given S s Hr) as Hids. rewrite Forall_forall in Hids. specialize (Hids id Hin).
  simpl in Hids. destruct (q_push_ok (active_list S') (active s) id) as (q & Ep & Hq);
    [rewrite Eq; apply Hr|unfold is_int, INT_MAX; lia|lia|].
  exists S0, (set_active_list q S'), (set_running None (enqueue id (put id COROUTINE_SUSPEND (Inside r frames) s))).
  split; [done|]. unfold coroutine_yield. rewrite E. cbn [mbind option_bind]. rewrite Ep. cbn [mbind option_bind].
  split; [done|]. split; [by constructor|]. destruct Hr'. by constructor.
Qed.

Lemma blocks_ok S s r (frames : bytes) :
  posix_repr S s -> wf s -> running s <> None -> zlen frames <= STACK_SIZE ->
  exists S0 S' s', with_frames frames S = Some S0 /\ coroutine_block r (STACK_SIZE - zlen frames) S0 = Some S' /\
    step (Block (Inside r frames)) s Done s' /\ posix_repr S' s'.
Proof.
  intros Hr Hw Hrun Hf. destruct (running s) as [id|] eqn:Er; [|done].
  destruct (give_way_ok S s id r frames COROUTINE_BLOCK Hr Hw Er Hf) as (S0 & S' & E0 & E & Eq & Hr'); [by right|].
  exists S0, S', (set_running None (put id COROUTINE_BLOCK (Inside r frames) s)). split; [done|].
  unfold coroutine_block. rewrite E. split; [done|]. split; [by constructor|done].
Qed.

Lemma posix_return_ok S s : posix_repr S s -> wf s -> running s <> None ->
  exists S' s', mainfunc_end S = Some S' /\ step Return s Done s' /\ posix_repr S' s'.
Proof.
  intros Hr Hw Hrun. destruct (running s) as [id|] eqn:Er; [|done].
  pose proof Hr as [R1 R2 R3 R4 R5 R6 R7 R8 R9].
  assert (Htask : task s id = COROUTINE_RUNNING) by (by apply (wf_running s Hw)).
  unfold task, state_in in Htask. destruct (tasks s !! id) as [[st0 l]|] eqn:Hm; [|done].
  destruct (posix_slot_of S s id _ l Hr Hm) as (C & Hc & _).
  unfold mainfunc_end. rewrite R6, Er. change (default (-1) (Some id)) with id. rewrite Hc. cbn [mbind option_bind].
  eexists _, _. split; [done|]. split; [by constructor|].
  apply (posix_repr_update S s id (Some C) None _ _ _ _ _ _ _ _ Hr Hc); try done.
  - simpl. apply lookup_delete_eq.
  - intros j Hne. by rewrite lookup_delete_ne by done.
  - simpl. lia.
  - simpl. lia.
Qed.

Lemma posix_status_ok S s id : posix_repr S s -> id ∈ given s -> coroutine_status id S = Some (task s id).
Proof.
  intros Hr Hin. pose proof (pr_given S s Hr) as Hids. rewrite Forall_forall in Hids.
  specialize (Hids id Hin). simpl in Hids. unfold coroutine_status.
  rewrite (proj2 (Z.leb_le _ _)), (proj2 (Z.ltb_lt _ _)) by lia. cbn [assert_ andb mbind option_bind].
  destruct (cos_at_inside S id) as [c Hc]; [apply Hr|done|]. rewrite Hc. cbn [mbind option_bind].
  pose proof (pr_tasks S s Hr id) as Hs. rewrite Hc in Hs. unfold task, state_in.
  destruct c as [C|]; [destruct Hs as (l & -> & _); done|]. by rewrite Hs.
Qed.

#[export] Program Instance posix_coroutines : Coroutines (L := point) schedule := {|
  repr := posix_repr; perform := posix_perform; supported := posix_supported; capacity := q_room |}.
Next Obligation.
  intros S s e Hr Hw Ha Hsup Hg.
  destruct e as [[f|r frames]| |[f|r frames]|[f|r frames]| |id|id|]; simpl in Ha, Hsup; try done; simpl.
  - destruct (posix_new_ok S s f Hr Hw Hg) as (id & S' & s' & -> & Hs & Hr'). by eexists _, _, _.
  - by apply posix_schedule_ok.
  - destruct (posix_yield_ok S s r frames Hr Hw Ha Hsup Hg) as (S0 & S' & s' & E0 & E & Hs & Hr').
    rewrite E0. cbn [mbind option_bind]. rewrite E. by eexists _, _, _.
  - destruct (blocks_ok S s r frames Hr Hw Ha Hsup) as (S0 & S' & s' & E0 & E & Hs & Hr').
    rewrite E0. cbn [mbind option_bind]. rewrite E. by eexists _, _, _.
  - destruct (posix_return_ok S s Hr Hw Ha) as (S' & s' & -> & Hs & Hr'). by eexists _, _, _.
  - rewrite (posix_status_ok S s id Hr Ha). eexists _, _, _. split; [done|]. split; [constructor|done].
  - eexists _, _, _. split; [done|]. split; [|done]. unfold coroutine_running.
    rewrite (pr_running S s Hr). constructor.
Qed.
End Posix.
