(* ===== verification/CoroutineFiber.v ===== *)
(** * utils/coroutine.c over Windows fibers

    Every coroutine has a fiber with a stack of its own, which the system keeps;
    the identifiers come from a stack of free ones, and the array of the
    coroutines (array.c) grows by 1024 places at a time. [coroutine_resume] and
    [coroutine_schedule] are those at the end of the file, which both platforms
    share. *)

From stdpp Require Import gmap.
From S2P Require Import Prelude.
From S2P Require Import Words.
From S2P Require Import IntQueue.
From S2P Require Import Scheduler.
#[local] Open Scope Z_scope.
#[local] Open Scope brynet_scope.

Section Fiber.
(** [L]: what a fiber does next, from [CreateFiber] or from the last
    [SwitchToFiber] on; and the queue, stack.c. *)
Context {L Q : Type} `{HQ : IntQueue Q}.

Record coroutine := mk_co { state : COROUTINE_STATE; fiber : L }.

(** [cos]: the array of pointers, [None] a null pointer. *)
Record schedule := mk_schedule {
  cos : list (option coroutine);
  freeids : Q;
  active_list : Q;
  current : Z }.

(** [*(struct coroutine** )ox_array_at(s->cos, id)], nothing outside the array. *)
Definition co_at (s : schedule) (id : Z) : option (option coroutine) :=
  if id <? 0 then None else cos s !! Z.to_nat id.

Definition co_set (id : Z) (c : option coroutine) (s : schedule) : schedule :=
  mk_schedule (<[Z.to_nat id := c]> (cos s)) (freeids s) (active_list s) (current s).
Definition set_active_list (q : Q) (s : schedule) : schedule :=
  mk_schedule (cos s) (freeids s) q (current s).
Definition set_current (id : Z) (s : schedule) : schedule :=
  mk_schedule (cos s) (freeids s) (active_list s) id.

(** [for(; i < new_num; ++i)]: the new places are free. *)
Fixpoint push_ids (n : nat) (i : Z) (q : Q) : option Q :=
  match n with
  | O => Some q
  | S n => q ← q_push q i; push_ids n (i + 1) q
  end.

(** When there is an array already; [ox_array_increase] appends. *)
Definition increase_coroutine (s : schedule) (num : nat) : option schedule :=
  let old_num := zlen (cos s) in
  q ← push_ids num old_num (freeids s);
  Some (mk_schedule (cos s ++ replicate num None) q (active_list s) (current s)).

(** [increase_coroutine] makes the array and [freeids] the first time. *)
Definition coroutine_open : option schedule :=
  active ← q_new 1024;
  free ← q_new 1024;
  s ← increase_coroutine (mk_schedule [] free active (-1)) 1024;
  Some (set_current (-1) s).

Definition claim_coroutine_id (s : schedule) : option (Z * schedule) :=
  s ← (if q_num (freeids s) =? 0 then increase_coroutine s 1024 else Some s);
  '(ret, q) ← q_popback (freeids s);
  id ← ret;
  Some (id, mk_schedule (cos s) q (active_list s) (current s)).

Definition coroutine_new (l : L) (s : schedule) : option (Z * schedule) :=
  '(id, s) ← claim_coroutine_id s;
  _ ← co_at s id;
  let s := co_set id (Some (mk_co COROUTINE_READY l)) s in
  q ← q_push (active_list s) id;
  Some (id, set_active_list q s).

(** The end of [coroutine_main]; the identifier is not given back. *)
Definition coroutine_main_end (s : schedule) : option schedule :=
  _ ← co_at s (current s);
  Some (set_current (-1) (co_set (current s) None s)).

Definition waiting (co : coroutine) : bool :=
  match state co with COROUTINE_READY | COROUTINE_SUSPEND => true | _ => false end.

(** [None]: the assertion fails or a null pointer is read. *)
Definition coroutine_goto (id : Z) (s : schedule) : option (answer (L := L) * schedule) :=
  c ← co_at s id; co ← c;
  if waiting co
  then Some (Turn id (fiber co), set_current id (co_set id (Some (mk_co COROUTINE_RUNNING (fiber co))) s))
  else None.

Definition coroutine_status (id : Z) (s : schedule) : option COROUTINE_STATE :=
  c ← co_at s id;
  Some (match c with Some co => state co | None => COROUTINE_DEAD end).

Definition coroutine_running (s : schedule) : Z := current s.

(** [SwitchToFiber(s->main)] leaves the fiber at [l]. *)
Definition coroutine_yield (l : L) (s : schedule) : option schedule :=
  let id := current s in
  c ← co_at s id; co ← c;
  q ← q_push (active_list s) id;
  Some (set_current (-1) (set_active_list q (co_set id (Some (mk_co COROUTINE_SUSPEND l)) s))).

Definition coroutine_block (l : L) (s : schedule) : option schedule :=
  let id := current s in
  c ← co_at s id; co ← c;
  Some (set_current (-1) (co_set id (Some (mk_co COROUTINE_BLOCK l)) s)).

Definition coroutine_resume (id : Z) (s : schedule) : option schedule :=
  c ← co_at s id;
  match c with
  | Some co =>
      if decide (state co = COROUTINE_BLOCK)
      then q ← q_push (active_list s) id;
           Some (set_active_list q (co_set id (Some (mk_co COROUTINE_SUSPEND (fiber co))) s))
      else Some s
  | None => Some s
  end.

Definition coroutine_schedule (s : schedule) : option (answer (L := L) * schedule) :=
  if 0 <? q_num (active_list s) then
    '(id, q) ← q_popfront (active_list s);
    id ← id;
    coroutine_goto id (set_active_list q s)
  else Some (Done, s).

Definition fiber_perform (e : event (L := L)) (s : schedule) : option (answer (L := L) * schedule) :=
  match e with
  | New l => '(id, s) ← coroutine_new l s; Some (Id id, s)
  | Schedule => coroutine_schedule s
  | Yield l => s ← coroutine_yield l s; Some (Done, s)
  | Block l => s ← coroutine_block l s; Some (Done, s)
  | Return => s ← coroutine_main_end s; Some (Done, s)
  | Resume id => s ← coroutine_resume id s; Some (Done, s)
  | Status id => st ← coroutine_status id s; Some (State st, s)
  | Running => Some (Id (coroutine_running s), s)
  end.

(** ** What the object stands for *)

Definition slot_ok (m : gmap Z (COROUTINE_STATE * L)) (id : Z) (c : option (option coroutine)) : Prop :=
  match c with
  | Some (Some co) => exists l, m !! id = Some (state co, l) /\ (state co = COROUTINE_RUNNING \/ fiber co = l)
  | _ => m !! id = None
  end.

Record fiber_repr (c : schedule) (s : t) : Prop := mk_repr {
  fr_current : current c = default (-1) (running s);
  fr_tasks : forall id, slot_ok (tasks s) id (co_at c id);
  fr_given : Forall (fun id => 0 <= id < zlen (cos c)) (given s);
  fr_queue : q_ok (active_list c) (active s);
  fr_free : exists free, q_ok (freeids c) free /\ NoDup free /\ zlen (cos c) = zlen (given s) + zlen free /\
    zlen free <= 1024 /\ forall id, id ∈ free -> 0 <= id < zlen (cos c) /\ id ∉ given s }.

(** ** Places *)

Lemma co_at_some c id x : co_at c id = Some x -> 0 <= id < zlen (cos c) /\ cos c !! Z.to_nat id = Some x.
Proof.
  unfold co_at, zlen. destruct (Z.ltb_spec id 0); [done|]. intros E. split; [|done].
  apply lookup_lt_Some in E. lia.
Qed.

Lemma co_at_inside c id : 0 <= id < zlen (cos c) -> exists x, co_at c id = Some x.
Proof.
  intros H. unfold co_at, zlen in *. rewrite (proj2 (Z.ltb_ge _ _)) by lia.
  apply lookup_lt_is_Some_2. lia.
Qed.

Lemma co_at_insert (c : schedule) f a r id x j : 0 <= id < zlen (cos c) ->
  co_at (mk_schedule (<[Z.to_nat id := x]> (cos c)) f a r) j = if decide (j = id) then Some x else co_at c j.
Proof.
  intros Hid. unfold co_at, zlen in *. cbn [cos]. destruct (decide (j = id)) as [->|Hne].
  - rewrite (proj2 (Z.ltb_ge _ _)) by lia. apply list_lookup_insert_eq. lia.
  - destruct (Z.ltb_spec j 0); [done|]. apply list_lookup_insert_ne. lia.
Qed.

Lemma fiber_slot_ok_ext m m' id c : m !! id = m' !! id -> slot_ok m id c -> slot_ok m' id c.
Proof. intros E. unfold slot_ok. by rewrite E. Qed.

Lemma fiber_active_le_given s : wf s -> zlen (active s) <= zlen (given (L := L) s).
Proof.
  intros Hw. unfold zlen. apply inj_le. apply submseteq_length, NoDup_submseteq; [apply Hw|].
  intros id Hin%(wf_waits s Hw). apply (wf_given s Hw). unfold task, state_in in Hin.
  destruct (tasks s !! id) as [x|]; [by exists x|done].
Qed.

Lemma push_ids_ok n : forall i q l, q_ok q l -> 0 <= i -> i + Z.of_nat n <= INT_MAX ->
  zlen l + Z.of_nat n <= q_room -> exists q', push_ids n i q = Some q' /\ q_ok q' (l ++ seqZ i (Z.of_nat n)).
Proof.
  induction n as [|n IH]; intros i q l Hq Hi Hmax Hroom; cbn [push_ids].
  { exists q. by rewrite app_nil_r. }
  destruct (q_push_ok q l i Hq) as (q1 & -> & Hq1); [unfold is_int; lia|lia|]. cbn [mbind option_bind].
  destruct (IH (i + 1) q1 (l ++ [i]) Hq1) as (q2 & -> & Hq2); [lia|lia|rewrite zlen_app; change (zlen [i]) with 1; lia|].
  exists q2. split; [done|]. rewrite seqZ_cons by lia. rewrite <- app_assoc in Hq2. simpl in Hq2.
  replace (Z.succ i) with (i + 1) by lia. by replace (Z.pred (Z.of_nat (S n))) with (Z.of_nat n) by lia.
Qed.

Lemma zlen_seqZ i n : 0 <= n -> zlen (seqZ i n) = n.
Proof. intros. unfold zlen. rewrite length_seqZ. lia. Qed.

Lemma increase_ok c s : fiber_repr c s -> (forall free, q_ok (freeids c) free -> free = []) -> zlen (given s) < q_room ->
  exists c', increase_coroutine c 1024 = Some c' /\ fiber_repr c' s /\ q_ok (freeids c') (seqZ (zlen (given s)) 1024).
Proof.
  intros [R1 R2 R3 R4 (free & R5 & R6 & R7 & R8 & R9)] Hfree Hg. pose proof q_room_range.
  assert (free = []) as -> by (by apply Hfree). change (zlen []) with 0 in *. rewrite Z.add_0_r in R7. pose proof (zlen_nonneg (given s)).
  destruct (push_ids_ok 1024 (zlen (cos c)) (freeids c) [] R5) as (q & Eq & Hq);
    [lia|unfold INT_MAX; lia|change (zlen []) with 0; lia|].
  unfold increase_coroutine. rewrite Eq. cbn [mbind option_bind]. eexists. split; [done|].
  cbn [app] in Hq. rewrite R7 in Hq. change (Z.of_nat 1024) with 1024 in Hq. split; [|exact Hq].
  assert (Hl : zlen (cos c ++ replicate 1024 None) = zlen (cos c) + 1024) by (by rewrite zlen_app, zlen_replicate).
  constructor; cbn [cos freeids active_list current]; try done.
  - intros id. specialize (R2 id). unfold co_at in *. cbn [cos]. destruct (Z.ltb_spec id 0); [done|].
    destruct (decide (Z.to_nat id < length (cos c))%nat) as [Hlt|Hge]; [by rewrite lookup_app_l|].
    rewrite lookup_ge_None_2 in R2 by lia. rewrite lookup_app_r by lia.
    destruct (replicate _ _ !! _) as [x|] eqn:E; [|done]. apply lookup_replicate in E as [-> _]. exact R2.
  - eapply Forall_impl; [exact R3|]. intros j Hj. cbv beta in *. lia.
  - exists (seqZ (zlen (given s)) 1024). split; [exact Hq|]. split; [apply NoDup_seqZ|].
    rewrite zlen_seqZ by lia. split; [lia|]. split; [lia|].
    intros id Hid%elem_of_seqZ. split; [lia|]. intros Hin. rewrite Forall_forall in R3. specialize (R3 id Hin).
    simpl in R3. lia.
Qed.

(** The object after a call that changes one place and not the free ones. *)
Lemma fiber_repr_update c s id x x' r' q' m' act' run' :
  fiber_repr c s -> co_at c id = Some x -> slot_ok m' id (Some x') ->
  (forall j, j <> id -> tasks s !! j = m' !! j) -> r' = default (-1) run' -> q_ok q' act' ->
  fiber_repr (mk_schedule (<[Z.to_nat id := x']> (cos c)) (freeids c) q' r') (mk m' act' run' (given s)).
Proof.
  intros [R1 R2 R3 R4 R5] Hc Hslot Hm Hr Hq. apply co_at_some in Hc as [Hid _].
  assert (Hl : zlen (<[Z.to_nat id := x']> (cos c)) = zlen (cos c)) by (unfold zlen; by rewrite length_insert).
  constructor; cbn [cos freeids active_list current tasks active running given]; try done.
  - intros j. rewrite co_at_insert by done. destruct (decide (j = id)) as [->|Hne]; [done|].
    eapply fiber_slot_ok_ext; [by apply Hm|apply R2].
  - by rewrite Hl.
  - by rewrite Hl.
Qed.

(** ** The calls *)

Lemma fiber_open_ok : exists c, coroutine_open = Some c /\ fiber_repr c init.
Proof.
  pose proof q_room_range. unfold coroutine_open.
  destruct (q_new_ok 1024) as (a & E & Ha); [lia|]. rewrite E. cbn [mbind option_bind].
  destruct (push_ids_ok 1024 0 a [] Ha) as (f & Ef & Hf);
    [lia|unfold INT_MAX; lia|change (zlen []) with 0; lia|].
  unfold increase_coroutine. cbn [cos freeids]. change (zlen []) with 0. rewrite Ef. cbn [mbind option_bind].
  eexists. split; [done|]. change (Z.of_nat 1024) with 1024 in Hf.
  constructor; cbn [cos freeids active_list current tasks active running given init set_current]; try done.
  - intros id. unfold co_at. cbn [cos set_current]. destruct (Z.ltb_spec id 0); [done|].
    destruct (([] ++ replicate 1024 None) !! _) as [x|] eqn:El; [|done].
    apply lookup_replicate in El as [-> _]. done.
  - exists (seqZ 0 1024). split; [exact Hf|]. split; [apply NoDup_seqZ|]. rewrite zlen_seqZ by lia.
    change (zlen ([] ++ replicate 1024 None)) with 1024. split; [done|]. split; [done|].
    intros id Hid%elem_of_seqZ. split; [lia|]. apply not_elem_of_nil.
Qed.

Lemma fiber_claim_ok c s : fiber_repr c s -> wf s -> zlen (given s) < q_room ->
  exists id c1, claim_coroutine_id c = Some (id, c1) /\ co_at c1 id = Some None /\ id ∉ given s /\
    active_list c1 = active_list c /\ current c1 = current c /\ 0 <= id < zlen (cos c1) /\
    zlen (cos c1) <= zlen (given s) + 1024 /\
    (forall j, slot_ok (tasks s) j (co_at c1 j)) /\ Forall (fun j => 0 <= j < zlen (cos c1)) (given s) /\
    exists free, q_ok (freeids c1) free /\ NoDup (id :: free) /\ zlen (cos c1) = zlen (given s) + 1 + zlen free /\
      zlen free <= 1024 /\ forall j, j ∈ free -> 0 <= j < zlen (cos c1) /\ j ∉ given s.
Proof.
  intros Hr Hw Hg. unfold claim_coroutine_id.
  assert (H : exists c0 free, (if q_num (freeids c) =? 0 then increase_coroutine c 1024 else Some c) = Some c0 /\
    fiber_repr c0 s /\ q_ok (freeids c0) free /\ free <> [] /\ active_list c0 = active_list c /\ current c0 = current c).
  { destruct (fr_free c s Hr) as (free & Hf & _). rewrite (q_num_ok _ _ Hf).
    destruct (Z.eqb_spec (zlen free) 0) as [E|E].
    - destruct (increase_ok c s Hr) as (c0 & E0 & Hr0 & Hf0); [|done|].
      { intros free' Hf'. apply zlen_zero. rewrite <- (q_num_ok _ _ Hf'), (q_num_ok _ _ Hf). done. }
      exists c0, (seqZ (zlen (given s)) 1024). split; [exact E0|]. split; [done|]. split; [done|].
      split; [by rewrite seqZ_cons by lia|].
      unfold increase_coroutine in E0. destruct (push_ids _ _ _); [|done]. by injection E0 as <-.
    - exists c, free. split; [done|]. split; [done|]. split; [done|]. split; [|done]. intros ->. done. }
  destruct H as (c0 & free0 & -> & Hr0 & Hf0 & Hne & Ea & Ec). cbn [mbind option_bind].
  destruct Hr0 as [R1 R2 R3 R4 (free & R5 & R6 & R7 & R8 & R9)].
  assert (Hlen : zlen free = zlen free0) by (by rewrite <- (q_num_ok _ _ R5), (q_num_ok _ _ Hf0)).
  destruct free as [|id free' _] using rev_ind.
  { exfalso. apply Hne. apply zlen_zero. by rewrite <- Hlen. }
  destruct (q_popback_ok _ _ R5) as (q & -> & Hq). cbn [mbind option_bind].
  rewrite last_snoc, removelast_last in *. cbn [mbind option_bind].
  assert (Hid : id ∈ free' ++ [id]) by set_solver. destruct (R9 id Hid) as [Hin Hng].
  rewrite zlen_app in R7, R8. change (zlen [id]) with 1 in R7, R8. pose proof (zlen_nonneg free').
  exists id. eexists. split; [done|]. split.
  { destruct (co_at_inside c0 id Hin) as [x Hx]. change (co_at c0 id = Some None). rewrite Hx.
    specialize (R2 id). rewrite Hx in R2. destruct x as [co|]; [|done]. exfalso. apply Hng.
    apply (wf_given s Hw). destruct R2 as (l & -> & _). by eexists. }
  cbn [cos freeids active_list current]. split_and!; try done; try lia.
  exists free'. split; [done|]. split.
  { apply NoDup_app in R6 as (H1 & H2 & _). constructor; [|done]. intros Hin'. apply (H2 id Hin'). set_solver. }
  split; [lia|]. split; [lia|]. intros j Hj. apply R9. set_solver.
Qed.

Lemma fiber_new_ok c s l : fiber_repr c s -> wf s -> zlen (given s) < q_room ->
  exists id c' s', coroutine_new l c = Some (id, c') /\ step (New l) s (Id id) s' /\ fiber_repr c' s'.
Proof.
  intros Hr Hw Hg. pose proof q_room_range. unfold coroutine_new.
  destruct (fiber_claim_ok c s Hr Hw Hg) as (id & c1 & -> & Hc & Hng & Ea & Ec & Hid & Hmax & Ht & Hgv & free & F1 & F2 & F3 & F4 & F5).
  cbn [mbind option_bind]. rewrite Hc. cbn [mbind option_bind].
  assert (Hint : is_int id) by (unfold is_int, INT_MAX; lia). pose proof (fiber_active_le_given s Hw).
  destruct (q_push_ok (active_list c) (active s) id) as (q & Eq & Hq); [apply Hr|done|lia|].
  change (active_list (co_set id (Some (mk_co COROUTINE_READY l)) c1)) with (active_list c1).
  rewrite Ea, Eq. cbn [mbind option_bind]. eexists _, _, _. split; [done|]. split.
  { apply step_new; [|done]. specialize (Ht id). by rewrite Hc in Ht. }
  assert (Hl : zlen (<[Z.to_nat id := Some (mk_co COROUTINE_READY l)]> (cos c1)) = zlen (cos c1))
    by (unfold zlen; by rewrite length_insert).
  constructor; cbn [cos freeids active_list current tasks active running given set_active_list co_set]; try done.
  - rewrite Ec. apply Hr.
  - intros j. unfold set_active_list, co_set. cbn [cos freeids active_list current].
    rewrite co_at_insert by done. destruct (decide (j = id)) as [->|Hne].
    + exists l. split; [apply lookup_insert_eq|by right].
    + eapply fiber_slot_ok_ext; [|apply Ht]. by rewrite lookup_insert_ne by done.
  - rewrite Hl. by constructor.
  - apply NoDup_cons in F2 as [F2 F2']. exists free. rewrite Hl, zlen_cons. split_and!; try done; try lia.
    intros j Hj. destruct (F5 j Hj). split; [done|]. intros [->|?]%elem_of_cons; done.
Qed.

Lemma fiber_slot_of c s id st l : fiber_repr c s -> tasks s !! id = Some (st, l) ->
  exists co, co_at c id = Some (Some co) /\ state co = st /\ (st = COROUTINE_RUNNING \/ fiber co = l).
Proof.
  intros Hr Hm. pose proof (fr_tasks c s Hr id) as Hs. unfold slot_ok in Hs. rewrite Hm in Hs.
  destruct (co_at c id) as [[co|]|]; try discriminate. destruct Hs as (l' & [= -> ->] & ?). by exists co.
Qed.

Lemma running_slot c s id : fiber_repr c s -> wf s -> running s = Some id ->
  exists co, co_at c id = Some (Some co) /\ id ∈ given s /\ 0 <= id < zlen (cos c).
Proof.
  intros Hr Hw Hrun. apply (wf_running s Hw) in Hrun. unfold task, state_in in Hrun.
  destruct (tasks s !! id) as [[st l]|] eqn:Hm; [|done].
  destruct (fiber_slot_of c s id st l Hr Hm) as (co & Hc & _). exists co. split; [done|].
  split; [apply (wf_given s Hw); by eexists|by apply (co_at_some c id _ Hc)].
Qed.

Lemma fiber_schedule_ok c s : fiber_repr c s -> wf s ->
  running s = None -> exists a c' s', coroutine_schedule c = Some (a, c') /\ step Schedule s a s' /\ fiber_repr c' s'.
Proof.
  intros Hr Hw Hn. unfold coroutine_schedule. rewrite (q_num_ok _ _ (fr_queue c s Hr)).
  destruct (active s) as [|id ids] eqn:Ea.
  { exists Done, c, s. split; [done|]. by split; [constructor|]. }
  pose proof (zlen_nonneg ids). rewrite zlen_cons, (proj2 (Z.ltb_lt _ _)) by lia.
  pose proof (fr_queue c s Hr) as R4. rewrite Ea in R4.
  destruct (q_popfront_ok _ _ R4) as (q & -> & Hq). cbn [mbind option_bind head tail] in *.
  assert (Hwait : waits (task s id) = true) by (apply (wf_waits s Hw); rewrite Ea; set_solver).
  unfold task, state_in in Hwait. destruct (tasks s !! id) as [[st l]|] eqn:Hm; [|done].
  destruct (fiber_slot_of c s id st l Hr Hm) as (co & Hc & Hst & Hl).
  unfold coroutine_goto. change (co_at (set_active_list q c) id) with (co_at c id). rewrite Hc. cbn [mbind option_bind].
  unfold waiting. rewrite Hst. assert (fiber co = l) as -> by (destruct Hl as [->|]; [done|done]).
  destruct st; try discriminate.
  all: eexists _, _, _; split; [done|]; split; [by eapply step_turn|];
    apply (fiber_repr_update c s id (Some co) (Some (mk_co COROUTINE_RUNNING l)) id q _ ids (Some id) Hr Hc); try done;
    [exists l; split; [apply lookup_insert_eq|by left]|intros j Hne; cbn [tasks put enqueue Scheduler.set_running]; by rewrite lookup_insert_ne by done].
Qed.

Lemma fiber_yield_ok c s l : fiber_repr c s -> wf s -> running s <> None -> zlen (given s) < q_room ->
  exists c' s', coroutine_yield l c = Some c' /\ step (Yield l) s Done s' /\ fiber_repr c' s'.
Proof.
  intros Hr Hw Hrun Hg. destruct (running s) as [id|] eqn:Er; [|done]. pose proof q_room_range.
  destruct (running_slot c s id Hr Hw Er) as (co & Hc & Hin & Hid).
  unfold coroutine_yield. rewrite (fr_current c s Hr), Er. change (default (-1) (Some id)) with id.
  rewrite Hc. cbn [mbind option_bind]. pose proof (fiber_active_le_given s Hw).
  destruct (fr_free c s Hr) as (free & _ & _ & Hlen & Hmax & _).
  destruct (q_push_ok (active_list c) (active s) id) as (q & Eq & Hq);
    [apply Hr|unfold is_int, INT_MAX; lia|lia|].
  rewrite Eq. cbn [mbind option_bind]. eexists _, _. split; [done|]. split; [by constructor|].
  apply (fiber_repr_update c s id (Some co) (Some (mk_co COROUTINE_SUSPEND l)) (-1) q _ _ None Hr Hc); try done.
  - exists l. split; [apply lookup_insert_eq|by right].
  - intros j Hne. cbn [tasks put enqueue Scheduler.set_running]. by rewrite lookup_insert_ne by done.
Qed.

Lemma block_ok c s l : fiber_repr c s -> wf s -> running s <> None ->
  exists c' s', coroutine_block l c = Some c' /\ step (Block l) s Done s' /\ fiber_repr c' s'.
Proof.
  intros Hr Hw Hrun. destruct (running s) as [id|] eqn:Er; [|done].
  destruct (running_slot c s id Hr Hw Er) as (co & Hc & _).
  unfold coroutine_block. rewrite (fr_current c s Hr), Er. change (default (-1) (Some id)) with id.
  rewrite Hc. cbn [mbind option_bind]. eexists _, _. split; [done|]. split; [by constructor|].
  apply (fiber_repr_update c s id (Some co) (Some (mk_co COROUTINE_BLOCK l)) (-1) (active_list c) _ _ None Hr Hc); try done.
  - exists l. split; [apply lookup_insert_eq|by right].
  - intros j Hne. cbn [tasks put enqueue Scheduler.set_running]. by rewrite lookup_insert_ne by done.
  - apply Hr.
Qed.

Lemma fiber_return_ok c s : fiber_repr c s -> wf s -> running s <> None ->
  exists c' s', coroutine_main_end c = Some c' /\ step Return s Done s' /\ fiber_repr c' s'.
Proof.
  intros Hr Hw Hrun. destruct (running s) as [id|] eqn:Er; [|done].
  destruct (running_slot c s id Hr Hw Er) as (co & Hc & _).
  unfold coroutine_main_end. rewrite (fr_current c s Hr), Er. change (default (-1) (Some id)) with id.
  rewrite Hc. cbn [mbind option_bind]. eexists _, _. split; [done|]. split; [by constructor|].
  apply (fiber_repr_update c s id (Some co) None (-1) (active_list c) _ _ None Hr Hc); try done.
  - simpl. apply lookup_delete_eq.
  - intros j Hne. by rewrite lookup_delete_ne by done.
  - apply Hr.
Qed.

Lemma resume_ok c s id : fiber_repr c s -> wf s -> id ∈ given s -> zlen (given s) < q_room ->
  exists c' s', coroutine_resume id c = Some c' /\ step (Resume id) s Done s' /\ fiber_repr c' s'.
Proof.
  intros Hr Hw Hin Hg. pose proof q_room_range. pose proof (fr_given c s Hr) as Hids.
  rewrite Forall_forall in Hids. specialize (Hids id Hin). simpl in Hids. unfold coroutine_resume.
  destruct (co_at_inside c id Hids) as [x Hx]. rewrite Hx. cbn [mbind option_bind].
  pose proof (fr_tasks c s Hr id) as Hs. rewrite Hx in Hs. unfold slot_ok in Hs.
  destruct x as [co|].
  - destruct Hs as (l & Hm & Hl). destruct (decide (state co = COROUTINE_BLOCK)) as [E|E].
    + assert (fiber co = l) as -> by (destruct Hl as [Hl|]; [congruence|done]). rewrite E in Hm.
      pose proof (fiber_active_le_given s Hw). destruct (fr_free c s Hr) as (free & _ & _ & Hlen & Hmax & _).
      destruct (q_push_ok (active_list c) (active s) id) as (q & Eq & Hq);
        [apply Hr|unfold is_int, INT_MAX; lia|lia|].
      rewrite Eq. cbn [mbind option_bind]. eexists _, _. split; [done|]. split; [by eapply step_resume|].
      apply (fiber_repr_update c s id (Some co) (Some (mk_co COROUTINE_SUSPEND l)) (current c) q _ _ (running s) Hr Hx); try done.
      * exists l. split; [apply lookup_insert_eq|by right].
      * intros j Hne. cbn [tasks put enqueue Scheduler.set_running]. by rewrite lookup_insert_ne by done.
      * apply Hr.
    + exists c, s. split; [done|]. split; [|done]. apply step_no_resume. unfold task, state_in. by rewrite Hm.
  - exists c, s. split; [done|]. split; [|done]. apply step_no_resume. unfold task, state_in. by rewrite Hs.
Qed.

Lemma fiber_status_ok c s id : fiber_repr c s -> id ∈ given s -> coroutine_status id c = Some (task s id).
Proof.
  intros Hr Hin. pose proof (fr_given c s Hr) as Hids. rewrite Forall_forall in Hids.
  specialize (Hids id Hin). simpl in Hids. unfold coroutine_status.
  destruct (co_at_inside c id Hids) as [x Hx]. rewrite Hx. cbn [mbind option_bind].
  pose proof (fr_tasks c s Hr id) as Hs. rewrite Hx in Hs. unfold task, state_in.
  destruct x as [co|]; [destruct Hs as (l & -> & _); done|]. by rewrite Hs.
Qed.

#[export] Program Instance fiber_coroutines : Coroutines (L := L) schedule := {|
  repr := fiber_repr; perform := fiber_perform; supported := fun _ => True; capacity := q_room |}.
Next Obligation.
  intros c s e Hr Hw Ha _ Hg. destruct e as [l| |l|l| |id|id|]; simpl in Ha; simpl.
  - destruct (fiber_new_ok c s l Hr Hw Hg) as (id & c' & s' & -> & Hs & Hr'). by eexists _, _, _.
  - by apply fiber_schedule_ok.
  - destruct (fiber_yield_ok c s l Hr Hw Ha Hg) as (c' & s' & -> & Hs & Hr'). by eexists _, _, _.
  - destruct (block_ok c s l Hr Hw Ha) as (c' & s' & -> & Hs & Hr'). by eexists _, _, _.
  - destruct (fiber_return_ok c s Hr Hw Ha) as (c' & s' & -> & Hs & Hr'). by eexists _, _, _.
  - destruct (resume_ok c s id Hr Hw Ha Hg) as (c' & s' & -> & Hs & Hr'). by eexists _, _, _.
  - rewrite (fiber_status_ok c s id Hr Ha). eexists _, _, _. split; [done|]. split; [constructor|done].
  - eexists _, _, _. split; [done|]. split; [|done]. unfold coroutine_running.
    rewrite (fr_current c s Hr). constructor.
Qed.
End Fiber.
