(* ===== verification/Coroutines.v ===== *)
(** * utils/coroutine.c: the theorems

    Both implementations, with stack.c as their queue, answer every program as
    the state machine of Scheduler.v does, and their objects stay consistent. *)

From stdpp Require Import gmap.
From S2P Require Import Prelude.
From S2P Require Import Words.
From S2P Require Import Array.
From S2P Require Import Stack.
From S2P Require Import IntQueue.
From S2P Require Import Scheduler.
From S2P Require CoroutinePosix.
From S2P Require CoroutineFiber.
#[local] Open Scope Z_scope.
#[local] Open Scope brynet_scope.
Module Posix := CoroutinePosix.
Module Fiber := CoroutineFiber.

Section Together.
Context {F R L : Type} (malloc : Z -> option bytes) (Hmalloc : malloc_total malloc).
Context (block : Z -> bytes) (Hblock : forall n, 0 <= n -> zlen (block n) = n).
Context (addr_C : Z -> Z) (Haddr : forall dummy, dummy < addr_C dummy).

#[local] Instance queue : IntQueue stack_s := stack_queue malloc Hmalloc.
#[local] Instance posix : Coroutines (L := Posix.point (F := F) (R := R)) Posix.schedule :=
  Posix.posix_coroutines block Hblock addr_C Haddr.
#[local] Instance fiber : Coroutines (L := L) Fiber.schedule := Fiber.fiber_coroutines.

(** What a run promises: its answers are those of the state machine, and at any
    moment the coroutine at place [k] of the queue gets the turn after [k] others,
    if coroutine_schedule is called often enough. *)
Definition as_promised {P : Type} (es : list (event (L := P) * answer)) : Prop :=
  exists s, steps init es s /\
  forall es1 es2 s1 k id, es = es1 ++ es2 -> steps init es1 s1 -> steps s1 es2 s ->
    active s1 !! k = Some id -> (k < schedules es2)%nat -> turns es2 !! k = Some id.

Lemma promised {C P : Type} `{Coroutines (L := P) C} n p c : repr c init ->
  well_behaved supported n p init -> Z.of_nat n <= capacity ->
  exists es c', run p c = Some (es, c') /\ as_promised es /\
    exists s, steps init es s /\ repr c' s /\ wf s.
Proof.
  intros Hr Hp Hn. destruct (run_refines n p c init Hr init_wf Hp) as (es & c' & s & E & Hs & Hr' & Hw); [done|].
  exists es, c'. split; [done|]. split; [|by exists s]. exists s. split; [done|].
  intros es1 es2 s1 k id -> _ H2. by apply (turn_comes s1 es2 s).
Qed.

(** C35: the coroutines of utils/coroutine.c, on POSIX contexts and on Windows fibers, with
    utils/stack.c as the queue. For every program, the main program and all its
    coroutines, that calls the library as it may, no assertion fails and no access
    leaves an array or the stack; the answers are those of the state machine of
    coroutine.h: identifiers are new, a coroutine goes on where it gave way, with its
    registers and its part of the stack, and blocked coroutines get no turn before
    they are resumed; and turns are given in the order of the queue. *)
Theorem coroutines_refine n uninit (p : program (L := Posix.point (F := F) (R := R))) (q : program (L := L)) :
  zlen uninit = Posix.STACK_SIZE -> Z.of_nat n <= 2 ^ 26 ->
  well_behaved Posix.posix_supported n p init -> well_behaved (fun _ => True) n q init ->
  (exists S es S', Posix.coroutine_open uninit = Some S /\ run p S = Some (es, S') /\ as_promised es) /\
  (exists S es S', Fiber.coroutine_open (L := L) = Some S /\ run q S = Some (es, S') /\ as_promised es).
Proof.
  intros Hu Hn Hp Hq. split.
  - destruct (Posix.posix_open_ok (F := F) (R := R) uninit Hu) as (S & E & Hr).
    destruct (promised (H := posix) n p S Hr Hp Hn) as (es & S' & Er & Ha & _). by exists S, es, S'.
  - destruct (Fiber.fiber_open_ok (L := L)) as (S & E & Hr).
    destruct (promised (H := fiber) n q S Hr Hq Hn) as (es & S' & Er & Ha & _). by exists S, es, S'.
Qed.

(** The state of the coroutines [ids] as the library shows it. *)
Definition consistent (status : Z -> option COROUTINE_STATE) (running : Z) (queue : stack_s) (ids : list Z) : Prop :=
  exists l, stack_holds queue l /\ NoDup l /\
  forall id, id ∈ ids -> exists st, status id = Some st /\
    (id ∈ l <-> st = COROUTINE_READY \/ st = COROUTINE_SUSPEND) /\
    (running = id <-> st = COROUTINE_RUNNING).

Lemma consistent_wf {P : Type} (es : list (event (L := P) * answer)) s status r q :
  wf s -> steps init es s -> (forall id, id ∈ given s -> status id = Some (task s id)) ->
  r = default (-1) (running s) -> stack_holds q (active s) -> consistent status r q (news es).
Proof.
  intros Hw Hs Hst -> Hq. exists (active s). split; [done|]. split; [apply Hw|].
  intros id Hid. assert (Hg : id ∈ given s).
  { rewrite (steps_given _ _ _ Hs). apply elem_of_app. left. apply list_elem_of_In. rewrite <- in_rev. by apply list_elem_of_In. }
  exists (task s id). split; [by apply Hst|]. split.
  - rewrite (wf_waits s Hw id). destruct (task s id); simpl; split; intros H; try done; try tauto;
      destruct H; discriminate.
  - rewrite <- (wf_running s Hw id). pose proof (wf_ids s Hw) as Hint. rewrite Forall_forall in Hint.
    specialize (Hint id Hg). unfold is_int in Hint. destruct (running s) as [j|]; simpl; split; try congruence; lia.
Qed.

(** C36: after every such program, on both platforms, the objects are well formed: no
    identifier is in the queue twice, exactly the coroutines that are ready or
    suspended are in it, exactly the coroutine that coroutine_running names is in
    the state of a running one, and the counter of the POSIX scheduler is the
    number of its coroutines. *)
Theorem scheduler_consistent n uninit (p : program (L := Posix.point (F := F) (R := R))) (q : program (L := L)) :
  zlen uninit = Posix.STACK_SIZE -> Z.of_nat n <= 2 ^ 26 ->
  well_behaved Posix.posix_supported n p init -> well_behaved (fun _ => True) n q init ->
  (exists S es S', Posix.coroutine_open uninit = Some S /\ run p S = Some (es, S') /\
    consistent (fun id => Posix.coroutine_status id S') (Posix.coroutine_running S') (Posix.active_list S') (news es) /\
    Posix.nco S' = Posix.used (Posix.cos S')) /\
  (exists S es S', Fiber.coroutine_open (L := L) = Some S /\ run q S = Some (es, S') /\
    consistent (fun id => Fiber.coroutine_status id S') (Fiber.coroutine_running S') (Fiber.active_list S') (news es)).
Proof.
  intros Hu Hn Hp Hq. split.
  - destruct (Posix.posix_open_ok (F := F) (R := R) uninit Hu) as (S & E & Hr).
    destruct (promised (H := posix) n p S Hr Hp Hn) as (es & S' & Er & _ & s & Hs & Hr' & Hw). exists S, es, S'.
    split; [done|]. split; [done|]. split; [|apply Hr'].
    apply (consistent_wf es s); [done|done|intros id; by apply Posix.posix_status_ok|apply Hr'|apply Hr'].
  - destruct (Fiber.fiber_open_ok (L := L)) as (S & E & Hr).
    destruct (promised (H := fiber) n q S Hr Hq Hn) as (es & S' & Er & _ & s & Hs & Hr' & Hw). exists S, es, S'.
    split; [done|]. split; [done|].
    apply (consistent_wf es s); [done|done|intros id; by apply Fiber.fiber_status_ok|apply Hr'|apply Hr'].
Qed.
End Together.

(** ** Demonstrations *)

Definition demo_block (n : Z) : bytes := replicate (Z.to_nat n) 0.
Lemma demo_block_ok n : 0 <= n -> zlen (demo_block n) = n.
Proof. intros. unfold demo_block. rewrite zlen_replicate. lia. Qed.

(** Two coroutines on POSIX contexts; the first gives way with two bytes on the stack. *)
Definition demo_posix : program (L := Posix.point (F := bool) (R := Z)) :=
  Call (New (Posix.Start true)) (fun _ => Call (New (Posix.Start false)) (fun _ =>
  Call Schedule (fun _ => Call (Yield (Posix.Inside 7 [1; 2])) (fun _ =>
  Call Schedule (fun _ => Call Return (fun _ => Call Schedule (fun _ => Call Running (fun _ => Stop)))))))).

(** Two fibers; the first blocks and is resumed by the second. *)
Definition demo_fibers : program (L := Z) :=
  Call (New 10) (fun a => Call (New 20) (fun _ =>
  Call Schedule (fun _ => Call (Block 11) (fun _ =>
  Call Schedule (fun _ => Call (match a with Id id => Resume id | _ => Running end) (fun _ =>
  Call Return (fun _ => Call Schedule (fun _ => Call Running (fun _ => Stop))))))))).

Ltac demo_step :=
  split; [simpl; try done; set_solver|split; [simpl; done|]];
  let Hs := fresh "Hs" in intros ? ? Hs; inversion Hs; subst; clear Hs; simpl in *; simplify_eq; try done.

Lemma demo_posix_ok : well_behaved Posix.posix_supported 9 demo_posix init.
Proof. unfold demo_posix. repeat demo_step. Qed.

Lemma demo_fibers_ok : well_behaved (fun _ => True) 9 demo_fibers init.
Proof. unfold demo_fibers. repeat demo_step. Qed.

(** The turns of the fibers, with lists as queues. *)
#[local] Program Instance list_queue : IntQueue (list Z) := {|
  q_ok := fun q l => q = l; q_new := fun _ => Some []; q_num := fun q => zlen q;
  q_push := fun q x => Some (q ++ [x]); q_popfront := fun q => Some (head q, tail q);
  q_popback := fun q => Some (last q, removelast q); q_room := 4096 |}.
Solve All Obligations with (simpl; intros; subst; eauto; lia).

#[local] Instance demo_fiber : Coroutines (L := Z) (Fiber.schedule (L := Z) (Q := list Z)) := Fiber.fiber_coroutines.

Example demo_fibers_run :
  match Fiber.coroutine_open (L := Z) (Q := list Z) with
  | Some c => option_map (fun r => turns r.1) (run demo_fibers c)
  | None => None
  end = Some [1023; 1022; 1023].
Proof. vm_compute. reflexivity. Qed.

Lemma coroutines_refine_witness :
  let uninit := demo_block Posix.STACK_SIZE in
  let posix := Posix.posix_coroutines (HQ := stack_queue demo_malloc demo_total) demo_block demo_block_ok
    (fun dummy => dummy + 1) (fun dummy => Z.lt_succ_diag_r dummy) in
  let fiber := Fiber.fiber_coroutines (HQ := stack_queue demo_malloc demo_total) in
  (exists c es c', Posix.coroutine_open (HQ := stack_queue demo_malloc demo_total) uninit = Some c /\
    run (H := posix) demo_posix c = Some (es, c') /\ as_promised es) /\
  (exists c es c', Fiber.coroutine_open (HQ := stack_queue demo_malloc demo_total) = Some c /\
    run (H := fiber) demo_fibers c = Some (es, c') /\ as_promised es).
Proof.
  apply (coroutines_refine demo_malloc demo_total demo_block demo_block_ok
    (fun dummy => dummy + 1) (fun dummy => Z.lt_succ_diag_r dummy) 9 (demo_block Posix.STACK_SIZE) demo_posix demo_fibers).
  - by apply demo_block_ok.
  - lia.
  - exact demo_posix_ok.
  - exact demo_fibers_ok.
Defined.

Lemma scheduler_consistent_witness :
  let queue := stack_queue demo_malloc demo_total in
  let posix := Posix.posix_coroutines (HQ := queue) demo_block demo_block_ok
    (fun dummy => dummy + 1) (fun dummy => Z.lt_succ_diag_r dummy) in
  exists c es c', Posix.coroutine_open (HQ := queue) (demo_block Posix.STACK_SIZE) = Some c /\
    run (H := posix) demo_posix c = Some (es, c') /\
    consistent (fun id => Posix.coroutine_status id c') (Posix.coroutine_running c') (Posix.active_list c') (news es).
Proof.
  destruct (scheduler_consistent demo_malloc demo_total demo_block demo_block_ok
    (fun dummy => dummy + 1) (fun dummy => Z.lt_succ_diag_r dummy) 9 (demo_block Posix.STACK_SIZE) demo_posix demo_fibers)
    as [(c & es & c' & E1 & E2 & H & _) _].
  - by apply demo_block_ok.
  - lia.
  - exact demo_posix_ok.
  - exact demo_fibers_ok.
  - exists c, es, c'. split; [exact E1|]. split; [exact E2|exact H].
Defined.
