(* ===== verification/Fdset.v ===== *)
(** * net/fdset.c: the set of polled descriptors

    The array given to [poll] is kept dense: removal shifts the tail down. The
    structure refines a finite map from descriptors to event masks. *)

From stdpp Require Import gmap.
From S2P Require Import Prelude.
From S2P Require Import Words.
From S2P Require Import Array.
From S2P Require Import Stack.

(** [enum CheckType] *)
Definition ReadCheck : Z := 0x1.
Definition WriteCheck : Z := 0x2.
Definition ErrorCheck : Z := 0x4.

(** The [poll] constants of Linux. *)
Definition POLLIN : Z := 0x001.
Definition POLLPRI : Z := 0x002.
Definition POLLOUT : Z := 0x004.
Definition POLLERR : Z := 0x008.
Definition POLLHUP : Z := 0x010.
Definition POLLRDNORM : Z := 0x040.
Definition POLLRDBAND : Z := 0x080.
Definition POLLWRNORM : Z := 0x100.
Definition POLLWRBAND : Z := 0x200.

Definition CHECK_READ_FLAG : Z :=
  Z.lor (Z.lor (Z.lor POLLIN POLLRDNORM) POLLRDBAND) POLLPRI.
Definition CHECK_WRITE_FLAG : Z := Z.lor (Z.lor POLLOUT POLLWRNORM) POLLWRBAND.
Definition CHECK_ERROR_FLAG : Z := Z.lor POLLERR POLLHUP.

Record pollfd := mk_pollfd { fd : Z; events : Z; revents : Z }.

Record fdset_s := mk_fdset {
  pollFds : list pollfd;  (* the heap block; [] when the pointer is NULL *)
  nfds : Z;
  limitSize : Z;
}.

(** [malloc n] is a block of [n] entries with whatever they hold, or [None], for NULL. The
    sizes are of type int and at least 0: they grow by 1024 and then by 128 as descriptors are
    added, each of which is an open descriptor of the process with 8 bytes in the block, so
    the sum below stays far under 2^31 and is not wrapped. *)
Definition upstepPollfd (malloc : Z -> option (list pollfd)) (self : fdset_s) (upSize : Z)
    : option fdset_s :=
  if upSize <=? 0 then Some self
  else match malloc (limitSize self + upSize) with
       | None => Some self
       | Some newPollfds =>
           old ← load (pollFds self) 0 (nfds self);
           block ← memcpy newPollfds 0 old;
           Some (mk_fdset block (nfds self) (limitSize self + upSize))
       end.

(** The first index, counted from [i], of a descriptor. *)
Fixpoint find_from (l : list pollfd) (i : Z) (x : Z) : option Z :=
  match l with
  | [] => None
  | p :: l => if fd p =? x then Some i else find_from l (i + 1) x
  end.

Definition findPollfd (self : fdset_s) (x : Z) : option Z :=
  find_from (slice (pollFds self) 0 (nfds self)) 0 x.

Definition TryRemovePollFd (self : fdset_s) (x : Z) : option fdset_s :=
  match find_from (slice (pollFds self) 0 (nfds self)) 0 x with
  | None => Some self
  | Some pos =>
      moved ← load (pollFds self) (pos + 1) (nfds self - pos - 1);
      block ← memcpy (pollFds self) pos moved;
      Some (mk_fdset block (nfds self - 1) (limitSize self))
  end.

Definition ox_fdset_new (malloc0 : bool) (malloc : Z -> option (list pollfd))
    : option (option fdset_s) :=
  if malloc0 then
    s ← upstepPollfd malloc (mk_fdset [] 0 0) 1024; Some (Some s)
  else Some None.

Definition set_events (self : fdset_s) (i : Z) (f : Z -> Z) : fdset_s :=
  mk_fdset (alter (fun p => mk_pollfd (fd p) (f (events p)) (revents p)) (Z.to_nat i) (pollFds self))
    (nfds self) (limitSize self).

(** [if (type & t) pf->events |= flag;] *)
Definition add_flag (type t flag : Z) (ev : Z) : Z :=
  if negb (Z.land type t =? 0) then Z.lor ev flag else ev.

(** [if (type & t) pf->events &= ~flag;] *)
Definition del_flag (type t flag : Z) (ev : Z) : Z :=
  if negb (Z.land type t =? 0) then Z.land ev (Z.lnot flag) else ev.

Definition ox_fdset_add (malloc : Z -> option (list pollfd)) (self : fdset_s) (x type : Z)
    : option fdset_s :=
  self1 ← (if limitSize self =? nfds self then upstepPollfd malloc self 128 else Some self);
  if limitSize self1 <=? nfds self1 then Some self1
  else
    let '(self2, pf) :=
      match findPollfd self1 x with
      | Some pf => (self1, pf)
      | None =>
          let pf := nfds self1 in
          (mk_fdset (alter (fun p => mk_pollfd x 0 (revents p)) (Z.to_nat pf) (pollFds self1))
             (nfds self1 + 1) (limitSize self1), pf)
      end in
    let self3 := set_events self2 pf (add_flag type ReadCheck CHECK_READ_FLAG) in
    Some (set_events self3 pf (add_flag type WriteCheck CHECK_WRITE_FLAG)).

Definition events_at (self : fdset_s) (i : Z) : Z :=
  match pollFds self !! Z.to_nat i with Some p => events p | None => 0 end.

Definition ox_fdset_del (self : fdset_s) (x type : Z) : option fdset_s :=
  match findPollfd self x with
  | None => Some self
  | Some pf =>
      let self1 := set_events self pf (del_flag type ReadCheck CHECK_READ_FLAG) in
      let self2 := set_events self1 pf (del_flag type WriteCheck CHECK_WRITE_FLAG) in
      let self3 := set_events self2 pf (del_flag type ErrorCheck CHECK_ERROR_FLAG) in
      if events_at self3 pf =? 0 then TryRemovePollFd self3 x else Some self3
  end.

Definition ox_fdset_remove (self : fdset_s) (x : Z) : option fdset_s :=
  TryRemovePollFd self x.

Definition check_event (pf : option pollfd) (type : Z) : bool :=
  match pf with
  | None => false
  | Some pf =>
      if negb (Z.land type ReadCheck =? 0) && negb (Z.land (revents pf) CHECK_READ_FLAG =? 0)
      then true
      else if negb (Z.land type WriteCheck =? 0) && negb (Z.land (revents pf) CHECK_WRITE_FLAG =? 0)
      then true
      else if negb (Z.land type ErrorCheck =? 0) && negb (Z.land (revents pf) CHECK_ERROR_FLAG =? 0)
      then true
      else false
  end.

(** The descriptors with an event are pushed on [result] as 4-byte integers. *)
Fixpoint visit (m2 : Z -> option bytes) (l : list pollfd) (type : Z) (result : stack_s)
    : option stack_s :=
  match l with
  | [] => Some result
  | p :: l =>
      if check_event (Some p) type then
        r ← ox_stack_push true m2 result (le_bytes 4 (fd p));
        visit m2 l type (snd r)
      else visit m2 l type result
  end.

Definition ox_fdset_visitor (m2 : Z -> option bytes) (self : fdset_s) (type : Z)
    (result : stack_s) : option stack_s :=
  visit m2 (slice (pollFds self) 0 (nfds self)) type result.

Definition ox_fdset_check (self : fdset_s) (x type : Z) : bool :=
  match findPollfd self x with
  | None => false
  | Some pf => check_event (pollFds self !! Z.to_nat pf) type
  end.

(** [poll] is the system's: given the entries and the time-out it returns a
    count (or -1), [errno] and the [revents] it stored. *)
Definition EINTR : Z := 4.
Definition SOCKET_ERROR : Z := -1.

Definition ox_fdset_poll (poll : list pollfd -> Z -> Z * Z * list Z) (self : fdset_s)
    (overtime : Z) : Z * fdset_s :=
  let live := slice (pollFds self) 0 (nfds self) in
  let '(ret, err, revs) := poll live overtime in
  let live' := zip_with (fun p r => mk_pollfd (fd p) (events p) r) live revs in
  let ret' := if ret =? SOCKET_ERROR then (if negb (err =? EINTR) then -1 else 0) else ret in
  (ret', mk_fdset (splice (pollFds self) 0 live') (nfds self) (limitSize self)).

(** ** Invariant and abstraction *)

(** The entries in use. *)
Definition live (self : fdset_s) : list pollfd := slice (pollFds self) 0 (nfds self).

Record fdset_wf (self : fdset_s) : Prop := {
  fwf_block : zlen (pollFds self) = limitSize self;
  fwf_nfds : 0 <= nfds self <= limitSize self;
  fwf_nodup : NoDup (fd <$> live self);
}.

Definition entry (p : pollfd) : Z * Z := (fd p, events p).

(** The events each descriptor is polled for. *)
Definition interest (self : fdset_s) : gmap Z Z := list_to_map (entry <$> live self).

Lemma find_from_spec l i x :
  match find_from l i x with
  | Some k => i <= k < i + zlen l /\
      exists p, l !! Z.to_nat (k - i) = Some p /\ fd p = x
  | None => x ∉ (fd <$> l)
  end.
Proof.
  revert i. induction l as [|p l IH]; intros i; simpl; [set_solver|].
  rewrite zlen_cons. pose proof (zlen_nonneg l).
  destruct (Z.eqb_spec (fd p) x) as [E|E].
  { split; [lia|]. exists p. by rewrite Z.sub_diag. }
  specialize (IH (i + 1)). destruct (find_from l (i + 1) x) as [k|].
  - destruct IH as [? (q & Hq & Eq)]. split; [lia|]. exists q. split; [|done].
    replace (Z.to_nat (k - i)) with (S (Z.to_nat (k - (i + 1)))) by lia. done.
  - set_solver.
Qed.

Lemma fst_entry (l : list pollfd) : (entry <$> l).*1 = fd <$> l.
Proof. rewrite <- list_fmap_compose. done. Qed.

Lemma interest_lookup self x e :
  fdset_wf self -> interest self !! x = Some e <->
  exists p, p ∈ live self /\ fd p = x /\ events p = e.
Proof.
  intros Hwf. unfold interest.
  rewrite <- elem_of_list_to_map by (rewrite fst_entry; apply Hwf).
  rewrite list_elem_of_fmap. unfold entry. naive_solver.
Qed.

(** *** The map of a list with distinct descriptors *)

Abbreviation to_map l := (list_to_map (entry <$> l) : gmap Z Z).

Definition upd (f : Z -> Z) (p : pollfd) : pollfd := mk_pollfd (fd p) (f (events p)) (revents p).

Lemma to_map_cons q l : to_map (q :: l) = <[fd q := events q]> (to_map l).
Proof. done. Qed.

Lemma fds_alter f i (l : list pollfd) : fd <$> alter (upd f) i l = fd <$> l.
Proof.
  revert i. induction l as [|q l IH]; intros [|i]; simpl; try done. f_equal. apply IH.
Qed.

Lemma map_alter f i l p :
  NoDup (fd <$> l) -> l !! i = Some p ->
  to_map (alter (upd f) i l) = <[fd p := f (events p)]> (to_map l).
Proof.
  revert i. induction l as [|q l IH]; intros [|i] Hnd Hi; try done.
  - injection Hi as ->. change (alter (upd f) 0%nat (p :: l)) with (upd f p :: l).
    rewrite !to_map_cons. by rewrite insert_insert_eq.
  - change (alter (upd f) (S i) (q :: l)) with (q :: alter (upd f) i l).
    rewrite fmap_cons in Hnd. apply NoDup_cons in Hnd as [Hq Hnd].
    rewrite !to_map_cons, (IH i Hnd Hi). simpl in Hi.
    apply insert_insert_ne. intros E. apply Hq. rewrite E.
    apply list_elem_of_fmap_2, (list_elem_of_lookup_2 _ i). done.
Qed.

Lemma map_delete i l p :
  NoDup (fd <$> l) -> l !! i = Some p -> to_map (delete i l) = delete (fd p) (to_map l).
Proof.
  revert i. induction l as [|q l IH]; intros [|i] Hnd Hi; try done;
    rewrite fmap_cons in Hnd; apply NoDup_cons in Hnd as [Hq Hnd].
  - injection Hi as ->. change (delete 0%nat (p :: l)) with l.
    rewrite to_map_cons, delete_insert_id; [done|].
    apply not_elem_of_list_to_map_1. by rewrite fst_entry.
  - change (delete (S i) (q :: l)) with (q :: delete i l).
    rewrite !to_map_cons, (IH i Hnd Hi). simpl in Hi.
    rewrite delete_insert_ne; [done|]. intros E. apply Hq. rewrite <- E.
    apply list_elem_of_fmap_2, (list_elem_of_lookup_2 _ i). done.
Qed.

Lemma map_snoc l p : fd p ∉ (fd <$> l) -> to_map (l ++ [p]) = <[fd p := events p]> (to_map l).
Proof.
  induction l as [|q l IH]; intros Hp; [done|]. rewrite fmap_cons in Hp.
  apply not_elem_of_cons in Hp as [Hne Hp].
  change ((q :: l) ++ [p]) with (q :: (l ++ [p])).
  rewrite !to_map_cons, (IH Hp). by apply insert_insert_ne.
Qed.

(** *** The live entries after each internal step *)

Lemma length_live self : fdset_wf self -> zlen (live self) = nfds self.
Proof. intros H. destruct H. apply zlen_slice; lia. Qed.

Lemma live_lookup self i : 0 <= i < nfds self -> live self !! Z.to_nat i = pollFds self !! Z.to_nat i.
Proof. intros. unfold live. rewrite lookup_slice. case_decide; [done|lia]. Qed.

Lemma slice_alter {A} (f : A -> A) i l n :
  slice (alter f i l) 0 n = alter f i (slice l 0 n).
Proof.
  apply list_eq. intros j. rewrite list_lookup_alter, !lookup_slice.
  change (Z.to_nat 0 + j)%nat with j. rewrite list_lookup_alter.
  repeat case_decide; subst; done || lia.
Qed.

Lemma set_events_wf self i f :
  fdset_wf self -> fdset_wf (set_events self i f) /\
  live (set_events self i f) = alter (upd f) (Z.to_nat i) (live self).
Proof.
  intros [Hb Hn Hd].
  assert (live (set_events self i f) = alter (upd f) (Z.to_nat i) (live self)) as E
    by apply slice_alter.
  split; [|done]. constructor; simpl; [|done|by rewrite E, fds_alter].
  unfold zlen. rewrite length_alter. done.
Qed.

Lemma set_events_interest self i f x p :
  fdset_wf self -> live self !! Z.to_nat i = Some p -> fd p = x ->
  fdset_wf (set_events self i f) /\
  live (set_events self i f) !! Z.to_nat i = Some (upd f p) /\
  interest (set_events self i f) = <[x := f (events p)]> (interest self).
Proof.
  intros Hwf Hp <-. destruct (set_events_wf self i f Hwf) as [W E]. split; [done|].
  unfold interest. rewrite E. split.
  - by rewrite list_lookup_alter, decide_True, Hp.
  - apply map_alter; [apply Hwf|done].
Qed.

Lemma find_live self x :
  fdset_wf self ->
  match findPollfd self x with
  | Some k => 0 <= k < nfds self /\ exists p, live self !! Z.to_nat k = Some p /\ fd p = x /\
      interest self !! x = Some (events p)
  | None => (x ∉ (fd <$> live self)) /\ interest self !! x = None
  end.
Proof.
  intros Hwf. pose proof (find_from_spec (live self) 0 x) as H. unfold findPollfd.
  fold (live self). rewrite length_live in H by done.
  destruct (find_from (live self) 0 x) as [k|].
  - destruct H as [Hk (p & Hp & E)]. rewrite Z.sub_0_r in Hp. split; [lia|].
    exists p. split_and!; [done|done|]. apply interest_lookup; [done|].
    exists p. split_and!; [|done|done]. by eapply list_elem_of_lookup_2.
  - split; [done|]. unfold interest. apply not_elem_of_list_to_map_1. by rewrite fst_entry.
Qed.

(** *** The operations *)

Definition fd_malloc_ok (malloc : Z -> option (list pollfd)) : Prop :=
  forall n, 0 <= n -> exists b, malloc n = Some b /\ zlen b = n.

Lemma upstep_spec malloc self n :
  fdset_wf self -> fd_malloc_ok malloc -> 0 < n ->
  exists self', upstepPollfd malloc self n = Some self' /\ fdset_wf self' /\
    live self' = live self /\ nfds self' = nfds self /\ limitSize self' = limitSize self + n.
Proof.
  intros Hwf Hm Hn. unfold upstepPollfd. rewrite (proj2 (Z.leb_gt _ _)) by lia.
  destruct Hwf as [Hb Hr Hd].
  destruct (Hm (limitSize self + n)) as (b & -> & Hlen); [lia|].
  rewrite load_ok by lia. simpl. fold (live self).
  assert (zlen (live self) = nfds self) as Hl by (apply zlen_slice; lia).
  rewrite memcpy_spec by lia. simpl. eexists. split; [done|].
  set (blk := if zlen (live self) =? 0 then b else splice b 0 (live self)).
  assert (zlen blk = limitSize self + n /\ slice blk 0 (nfds self) = live self) as [E1 E2].
  { unfold blk. destruct (Z.eqb_spec (zlen (live self)) 0) as [E|E].
    - split; [done|]. apply zlen_zero in E. rewrite E, slice_nil; [done|]. rewrite E in Hl.
      rewrite <- Hl. done.
    - split; [rewrite zlen_splice; lia|]. rewrite <- Hl. apply slice_splice_same; lia. }
  split_and!; [|done..]. constructor; simpl; [done|lia|]. unfold live; simpl. by rewrite E2.
Qed.

(** A new entry at the end of the live ones. *)
Lemma fresh_spec self x :
  fdset_wf self -> nfds self < limitSize self -> x ∉ (fd <$> live self) ->
  let self' := mk_fdset
    (alter (fun p => mk_pollfd x 0 (revents p)) (Z.to_nat (nfds self)) (pollFds self))
    (nfds self + 1) (limitSize self) in
  fdset_wf self' /\ exists p, live self' = live self ++ [p] /\ fd p = x /\ events p = 0.
Proof.
  intros Hwf Hlt Hx self'. pose proof (length_live self Hwf) as Hlen.
  destruct Hwf as [Hb Hr Hd].
  destruct (lookup_lt_is_Some_2 (pollFds self) (Z.to_nat (nfds self))) as [q Hq].
  { unfold zlen in *. lia. }
  assert (live self' = live self ++ [mk_pollfd x 0 (revents q)]) as E.
  { unfold live, self'; simpl. rewrite slice_add by lia. f_equal.
    - apply list_eq. intros j. rewrite !lookup_slice. case_decide; [|done].
      apply list_lookup_alter_ne. lia.
    - rewrite Z.add_0_l.
      rewrite (slice_cons _ _ _ (mk_pollfd x 0 (revents q))), slice_nil by
        (try lia; by rewrite list_lookup_alter, decide_True, Hq). done. }
  split; [|by eexists].
  constructor; simpl; [unfold zlen in *; by rewrite length_alter|lia|].
  rewrite E, fmap_app. apply NoDup_app. simpl. split_and!; [done| |by apply NoDup_singleton].
  intros y Hy. rewrite list_elem_of_singleton. by intros ->.
Qed.

(** What [add] and [del] do to an event mask. *)
Definition add_mask (type ev : Z) : Z :=
  add_flag type WriteCheck CHECK_WRITE_FLAG (add_flag type ReadCheck CHECK_READ_FLAG ev).
Definition del_mask (type ev : Z) : Z :=
  del_flag type ErrorCheck CHECK_ERROR_FLAG
    (del_flag type WriteCheck CHECK_WRITE_FLAG (del_flag type ReadCheck CHECK_READ_FLAG ev)).

Lemma add_two_spec self k x type p :
  fdset_wf self -> live self !! Z.to_nat k = Some p -> fd p = x ->
  let self' := set_events (set_events self k (add_flag type ReadCheck CHECK_READ_FLAG)) k
                 (add_flag type WriteCheck CHECK_WRITE_FLAG) in
  fdset_wf self' /\ interest self' = <[x := add_mask type (events p)]> (interest self).
Proof.
  intros Hwf Hp Hx self'.
  destruct (set_events_interest self k (add_flag type ReadCheck CHECK_READ_FLAG) x p)
    as (W1 & L1 & I1); [done..|].
  destruct (set_events_interest _ k (add_flag type WriteCheck CHECK_WRITE_FLAG) x _ W1 L1)
    as (W2 & L2 & I2); [done|].
  split; [done|]. unfold self'. by rewrite I2, I1, insert_insert_eq.
Qed.

Definition fm_add (m : gmap Z Z) (x type : Z) : gmap Z Z :=
  <[x := add_mask type (default 0 (m !! x))]> m.
Definition fm_del (m : gmap Z Z) (x type : Z) : gmap Z Z :=
  match m !! x with
  | None => m
  | Some e => if del_mask type e =? 0 then delete x m else <[x := del_mask type e]> m
  end.

Lemma add_spec malloc self x type :
  fdset_wf self -> fd_malloc_ok malloc ->
  exists self', ox_fdset_add malloc self x type = Some self' /\ fdset_wf self' /\
    interest self' = fm_add (interest self) x type.
Proof.
  intros Hwf Hm. unfold ox_fdset_add.
  assert (exists self1, (if limitSize self =? nfds self then upstepPollfd malloc self 128
      else Some self) = Some self1 /\ fdset_wf self1 /\ live self1 = live self /\
      nfds self1 < limitSize self1) as (s1 & -> & W1 & L1 & Hroom).
  { destruct (Z.eqb_spec (limitSize self) (nfds self)).
    - destruct (upstep_spec malloc self 128) as (s & E & W & L & N & S); [done..|].
      exists s. split_and!; [done..|lia].
    - exists self. destruct Hwf. split_and!; [done..|lia]. }
  simpl. rewrite (proj2 (Z.leb_gt _ _)) by done.
  assert (interest s1 = interest self) as EI by (unfold interest; by rewrite L1).
  pose proof (find_live s1 x W1) as Hf. destruct (findPollfd s1 x) as [k|].
  - destruct Hf as (Hk & p & Hp & Hx & Hi).
    destruct (add_two_spec s1 k x type p W1 Hp Hx) as [W I]. eexists. split; [done|].
    split; [done|]. rewrite I. unfold fm_add. rewrite <- EI. by rewrite Hi.
  - destruct Hf as [Hx Hi].
    destruct (fresh_spec s1 x W1 Hroom Hx) as (W2 & p & L2 & Hp & He).
    match goal with |- context [set_events (set_events ?s _ _) _ _] => set (s2 := s) in * end.
    destruct (add_two_spec s2 (nfds s1) x type p W2) as [W I]; [|done|].
    { rewrite L2. apply list_lookup_middle. pose proof (length_live s1 W1).
      unfold zlen in *; lia. }
    eexists. split; [done|]. split; [done|]. rewrite I. unfold fm_add. rewrite <- EI, Hi, He.
    simpl. unfold interest at 1. rewrite L2, map_snoc by (rewrite Hp; done).
    rewrite Hp, He. apply insert_insert_eq.
Qed.

Lemma remove_spec self x :
  fdset_wf self ->
  exists self', TryRemovePollFd self x = Some self' /\ fdset_wf self' /\
    interest self' = delete x (interest self).
Proof.
  intros Hwf. unfold TryRemovePollFd. pose proof (find_live self x Hwf) as Hf.
  unfold findPollfd in Hf. destruct (find_from _ 0 x) as [k|].
  2: { destruct Hf as [Hx Hi]. exists self. split_and!; [done..|]. by rewrite delete_id. }
  destruct Hf as (Hk & p & Hp & Hx & Hi). pose proof (length_live self Hwf) as Hlen.
  destruct Hwf as [Hb Hr Hd]. rewrite load_ok by lia. simpl.
  set (mv := slice (pollFds self) (k + 1) (nfds self - k - 1)).
  assert (zlen mv = nfds self - k - 1) as Hmv by (apply zlen_slice; lia).
  rewrite memcpy_spec by lia. simpl.
  set (blk := if zlen mv =? 0 then pollFds self else splice (pollFds self) k mv).
  eexists. split; [done|].
  assert (slice blk 0 (nfds self - 1) = delete (Z.to_nat k) (live self)) as E.
  { assert (slice blk 0 (nfds self - 1) = slice (pollFds self) 0 k ++ mv) as E'.
    { replace (nfds self - 1) with (k + zlen mv) by lia. unfold blk.
      destruct (Z.eqb_spec (zlen mv) 0) as [E0|E0].
      - rewrite E0, Z.add_0_r, (zlen_zero mv E0). by rewrite app_nil_r.
      - rewrite slice_add by lia. rewrite slice_splice_before by lia.
        f_equal. apply slice_splice_same; lia. }
    rewrite E', delete_take_drop. f_equal; unfold live, mv.
    - unfold slice. rewrite take_take. f_equal. lia.
    - rewrite Z.sub_0_r || idtac. unfold slice. change (Z.to_nat 0) with O.
      rewrite drop_0, skipn_firstn_comm. replace (Z.to_nat (k + 1)) with (S (Z.to_nat k)) by lia.
      f_equal. lia. }
  assert (fdset_wf (mk_fdset blk (nfds self - 1) (limitSize self))) as W.
  { constructor; simpl; [|lia|].
    - unfold blk. destruct (_ =? _); [done|]. rewrite zlen_splice; lia.
    - unfold live; simpl. rewrite E. apply (sublist_NoDup _ (fd <$> live self)); [done|].
      apply fmap_sublist, sublist_delete. }
  split; [done|]. unfold interest, live; simpl. rewrite E, <- Hx. by apply map_delete.
Qed.

Lemma del_spec self x type :
  fdset_wf self ->
  exists self', ox_fdset_del self x type = Some self' /\ fdset_wf self' /\
    interest self' = fm_del (interest self) x type.
Proof.
  intros Hwf. unfold ox_fdset_del, fm_del. pose proof (find_live self x Hwf) as Hf.
  destruct (findPollfd self x) as [k|].
  2: { destruct Hf as [Hx ->]. by exists self. }
  destruct Hf as (Hk & p & Hp & Hx & ->).
  destruct (set_events_interest self k (del_flag type ReadCheck CHECK_READ_FLAG) x p)
    as (W1 & L1 & I1); [done..|].
  destruct (set_events_interest _ k (del_flag type WriteCheck CHECK_WRITE_FLAG) x _ W1 L1)
    as (W2 & L2 & I2); [done|].
  destruct (set_events_interest _ k (del_flag type ErrorCheck CHECK_ERROR_FLAG) x _ W2 L2)
    as (W3 & L3 & I3); [done|].
  set (s3 := set_events (set_events (set_events self _ _) _ _) _ _) in *.
  assert (interest s3 = <[x := del_mask type (events p)]> (interest self)) as I.
  { rewrite I3, I2, I1, !insert_insert_eq. done. }
  assert (events_at s3 k = del_mask type (events p)) as ->.
  { unfold events_at. rewrite <- live_lookup, L3 by (simpl; lia). done. }
  destruct (_ =? 0).
  - destruct (remove_spec s3 x W3) as (s & E & W & Is). exists s. split_and!; [done..|].
    rewrite Is, I. apply delete_insert_eq.
  - by exists s3.
Qed.

(** ** Refinement of the map *)

Inductive fdset_op :=
  | Add (x type : Z)
  | Del (x type : Z)
  | Remove (x : Z).

Definition fdset_step malloc (op : fdset_op) (self : fdset_s) : option fdset_s :=
  match op with
  | Add x type => ox_fdset_add malloc self x type
  | Del x type => ox_fdset_del self x type
  | Remove x => ox_fdset_remove self x
  end.

Definition fm_step (op : fdset_op) (m : gmap Z Z) : gmap Z Z :=
  match op with
  | Add x type => fm_add m x type
  | Del x type => fm_del m x type
  | Remove x => delete x m
  end.

Fixpoint fdset_run malloc (ops : list fdset_op) (self : fdset_s) : option fdset_s :=
  match ops with
  | [] => Some self
  | op :: ops => self' ← fdset_step malloc op self; fdset_run malloc ops self'
  end.

Lemma fdset_step_refines malloc op self :
  fdset_wf self -> fd_malloc_ok malloc ->
  exists self', fdset_step malloc op self = Some self' /\ fdset_wf self' /\
    interest self' = fm_step op (interest self).
Proof.
  intros. destruct op; simpl; eauto using add_spec, del_spec, remove_spec.
Qed.

(** C40: after any sequence of additions, deletions and removals the dense
    array of fdset.c holds each descriptor at most once, with exactly the event
    mask a map from descriptors to masks would hold, and no access leaves the
    block. *)
Theorem fdset_refines_map malloc (ops : list fdset_op) (self : fdset_s) :
  fdset_wf self -> fd_malloc_ok malloc ->
  exists self', fdset_run malloc ops self = Some self' /\ fdset_wf self' /\
    interest self' = fold_left (fun m op => fm_step op m) ops (interest self).
Proof.
  intros Hwf Hm. revert self Hwf. induction ops as [|op ops IH]; intros self Hwf; simpl.
  { by exists self. }
  destruct (fdset_step_refines malloc op self Hwf Hm) as (s1 & E1 & W1 & I1).
  destruct (IH s1 W1) as (s2 & E2 & W2 & I2). exists s2. rewrite E1. simpl. by rewrite <- I1.
Qed.

Definition demo_fd_malloc (n : Z) : option (list pollfd) :=
  Some (replicate (Z.to_nat n) (mk_pollfd (-9) (-9) 0)).

Lemma demo_fd_malloc_ok : fd_malloc_ok demo_fd_malloc.
Proof. intros n Hn. eexists. split; [done|]. rewrite zlen_replicate. lia. Qed.

Definition demo_fdset : fdset_s :=
  mk_fdset [mk_pollfd 3 195 0; mk_pollfd 5 772 4] 2 2.

Lemma fdset_refines_map_witness :
  exists self', fdset_run demo_fd_malloc
      [Add 7 (Z.lor ReadCheck WriteCheck); Del 3 ReadCheck; Remove 5; Del 7 WriteCheck] demo_fdset
      = Some self' /\ interest self' = {[ 7 := CHECK_READ_FLAG ]}.
Proof.
  destruct (fdset_refines_map demo_fd_malloc
    [Add 7 (Z.lor ReadCheck WriteCheck); Del 3 ReadCheck; Remove 5; Del 7 WriteCheck] demo_fdset)
    as (s & E & _ & I).
  - constructor; [reflexivity|vm_compute; intuition discriminate|].
    unfold live, demo_fdset. simpl. repeat constructor; set_solver.
  - apply demo_fd_malloc_ok.
  - exists s. split; [exact E|]. rewrite I. vm_compute. reflexivity.
Defined.
