(* ===== verification/HttpChars.v ===== *)
(** * net/http/http_parser.{h,c}: constants, character classes and enumerations

    The parser is compiled in its default strict mode (HTTP_PARSER_STRICT = 1). *)

From S2P Require Import Prelude.
From S2P Require Import Words.

(** [enum state] *)
Inductive state :=
  | s_dead
  | s_start_req_or_res
  | s_res_or_resp_H
  | s_start_res
  | s_res_H
  | s_res_HT
  | s_res_HTT
  | s_res_HTTP
  | s_res_first_http_major
  | s_res_http_major
  | s_res_first_http_minor
  | s_res_http_minor
  | s_res_first_status_code
  | s_res_status_code
  | s_res_status_start
  | s_res_status
  | s_res_line_almost_done
  | s_start_req
  | s_req_method
  | s_req_spaces_before_url
  | s_req_schema
  | s_req_schema_slash
  | s_req_schema_slash_slash
  | s_req_server_start
  | s_req_server
  | s_req_server_with_at
  | s_req_path
  | s_req_query_string_start
  | s_req_query_string
  | s_req_fragment_start
  | s_req_fragment
  | s_req_http_start
  | s_req_http_H
  | s_req_http_HT
  | s_req_http_HTT
  | s_req_http_HTTP
  | s_req_first_http_major
  | s_req_http_major
  | s_req_first_http_minor
  | s_req_http_minor
  | s_req_line_almost_done
  | s_header_field_start
  | s_header_field
  | s_header_value_discard_ws
  | s_header_value_discard_ws_almost_done
  | s_header_value_discard_lws
  | s_header_value_start
  | s_header_value
  | s_header_value_lws
  | s_header_almost_done
  | s_chunk_size_start
  | s_chunk_size
  | s_chunk_parameters
  | s_chunk_size_almost_done
  | s_headers_almost_done
  | s_headers_done
  | s_chunk_data
  | s_chunk_data_almost_done
  | s_chunk_data_done
  | s_body_identity
  | s_body_identity_eof
  | s_message_done.

#[export] Instance state_eq_dec : EqDecision state.
Proof. solve_decision. Defined.

(** The position of a state in the enumeration ([s_dead = 1]); it is only used
    to compare with [s_headers_done]. *)
Definition state_num (s : state) : Z :=
  match s with
  | s_dead => 1
  | s_start_req_or_res => 2
  | s_res_or_resp_H => 3
  | s_start_res => 4
  | s_res_H => 5
  | s_res_HT => 6
  | s_res_HTT => 7
  | s_res_HTTP => 8
  | s_res_first_http_major => 9
  | s_res_http_major => 10
  | s_res_first_http_minor => 11
  | s_res_http_minor => 12
  | s_res_first_status_code => 13
  | s_res_status_code => 14
  | s_res_status_start => 15
  | s_res_status => 16
  | s_res_line_almost_done => 17
  | s_start_req => 18
  | s_req_method => 19
  | s_req_spaces_before_url => 20
  | s_req_schema => 21
  | s_req_schema_slash => 22
  | s_req_schema_slash_slash => 23
  | s_req_server_start => 24
  | s_req_server => 25
  | s_req_server_with_at => 26
  | s_req_path => 27
  | s_req_query_string_start => 28
  | s_req_query_string => 29
  | s_req_fragment_start => 30
  | s_req_fragment => 31
  | s_req_http_start => 32
  | s_req_http_H => 33
  | s_req_http_HT => 34
  | s_req_http_HTT => 35
  | s_req_http_HTTP => 36
  | s_req_first_http_major => 37
  | s_req_http_major => 38
  | s_req_first_http_minor => 39
  | s_req_http_minor => 40
  | s_req_line_almost_done => 41
  | s_header_field_start => 42
  | s_header_field => 43
  | s_header_value_discard_ws => 44
  | s_header_value_discard_ws_almost_done => 45
  | s_header_value_discard_lws => 46
  | s_header_value_start => 47
  | s_header_value => 48
  | s_header_value_lws => 49
  | s_header_almost_done => 50
  | s_chunk_size_start => 51
  | s_chunk_size => 52
  | s_chunk_parameters => 53
  | s_chunk_size_almost_done => 54
  | s_headers_almost_done => 55
  | s_headers_done => 56
  | s_chunk_data => 57
  | s_chunk_data_almost_done => 58
  | s_chunk_data_done => 59
  | s_body_identity => 60
  | s_body_identity_eof => 61
  | s_message_done => 62
  end.

Definition PARSING_HEADER (s : state) : bool := state_num s <=? state_num s_headers_done.

(** [enum header_states] *)
Inductive header_states :=
  | h_general
  | h_C
  | h_CO
  | h_CON
  | h_matching_connection
  | h_matching_proxy_connection
  | h_matching_content_length
  | h_matching_transfer_encoding
  | h_matching_upgrade
  | h_connection
  | h_content_length
  | h_transfer_encoding
  | h_upgrade
  | h_matching_transfer_encoding_chunked
  | h_matching_connection_token_start
  | h_matching_connection_keep_alive
  | h_matching_connection_close
  | h_matching_connection_upgrade
  | h_matching_connection_token
  | h_transfer_encoding_chunked
  | h_connection_keep_alive
  | h_connection_close
  | h_connection_upgrade.

#[export] Instance header_states_eq_dec : EqDecision header_states.
Proof. solve_decision. Defined.

(** [enum http_host_state] *)
Inductive http_host_state :=
  | s_http_host_dead
  | s_http_userinfo_start
  | s_http_userinfo
  | s_http_host_start
  | s_http_host_v6_start
  | s_http_host
  | s_http_host_v6
  | s_http_host_v6_end
  | s_http_host_v6_zone_start
  | s_http_host_v6_zone
  | s_http_host_port_start
  | s_http_host_port.

#[export] Instance http_host_state_eq_dec : EqDecision http_host_state.
Proof. solve_decision. Defined.

(** [enum http_method] *)
Inductive http_method :=
  | HTTP_DELETE
  | HTTP_GET
  | HTTP_HEAD
  | HTTP_POST
  | HTTP_PUT
  | HTTP_CONNECT
  | HTTP_OPTIONS
  | HTTP_TRACE
  | HTTP_COPY
  | HTTP_LOCK
  | HTTP_MKCOL
  | HTTP_MOVE
  | HTTP_PROPFIND
  | HTTP_PROPPATCH
  | HTTP_SEARCH
  | HTTP_UNLOCK
  | HTTP_BIND
  | HTTP_REBIND
  | HTTP_UNBIND
  | HTTP_ACL
  | HTTP_REPORT
  | HTTP_MKACTIVITY
  | HTTP_CHECKOUT
  | HTTP_MERGE
  | HTTP_MSEARCH
  | HTTP_NOTIFY
  | HTTP_SUBSCRIBE
  | HTTP_UNSUBSCRIBE
  | HTTP_PATCH
  | HTTP_PURGE
  | HTTP_MKCALENDAR.

#[export] Instance http_method_eq_dec : EqDecision http_method.
Proof. solve_decision. Defined.

(** [method_strings] *)
Definition method_string (m : http_method) : bytes :=
  match m with
  | HTTP_DELETE => str "DELETE"
  | HTTP_GET => str "GET"
  | HTTP_HEAD => str "HEAD"
  | HTTP_POST => str "POST"
  | HTTP_PUT => str "PUT"
  | HTTP_CONNECT => str "CONNECT"
  | HTTP_OPTIONS => str "OPTIONS"
  | HTTP_TRACE => str "TRACE"
  | HTTP_COPY => str "COPY"
  | HTTP_LOCK => str "LOCK"
  | HTTP_MKCOL => str "MKCOL"
  | HTTP_MOVE => str "MOVE"
  | HTTP_PROPFIND => str "PROPFIND"
  | HTTP_PROPPATCH => str "PROPPATCH"
  | HTTP_SEARCH => str "SEARCH"
  | HTTP_UNLOCK => str "UNLOCK"
  | HTTP_BIND => str "BIND"
  | HTTP_REBIND => str "REBIND"
  | HTTP_UNBIND => str "UNBIND"
  | HTTP_ACL => str "ACL"
  | HTTP_REPORT => str "REPORT"
  | HTTP_MKACTIVITY => str "MKACTIVITY"
  | HTTP_CHECKOUT => str "CHECKOUT"
  | HTTP_MERGE => str "MERGE"
  | HTTP_MSEARCH => str "M-SEARCH"
  | HTTP_NOTIFY => str "NOTIFY"
  | HTTP_SUBSCRIBE => str "SUBSCRIBE"
  | HTTP_UNSUBSCRIBE => str "UNSUBSCRIBE"
  | HTTP_PATCH => str "PATCH"
  | HTTP_PURGE => str "PURGE"
  | HTTP_MKCALENDAR => str "MKCALENDAR"
  end.

Definition all_methods : list http_method :=
  [HTTP_DELETE; HTTP_GET; HTTP_HEAD; HTTP_POST;
   HTTP_PUT; HTTP_CONNECT; HTTP_OPTIONS; HTTP_TRACE;
   HTTP_COPY; HTTP_LOCK; HTTP_MKCOL; HTTP_MOVE;
   HTTP_PROPFIND; HTTP_PROPPATCH; HTTP_SEARCH; HTTP_UNLOCK;
   HTTP_BIND; HTTP_REBIND; HTTP_UNBIND; HTTP_ACL;
   HTTP_REPORT; HTTP_MKACTIVITY; HTTP_CHECKOUT; HTTP_MERGE;
   HTTP_MSEARCH; HTTP_NOTIFY; HTTP_SUBSCRIBE; HTTP_UNSUBSCRIBE;
   HTTP_PATCH; HTTP_PURGE; HTTP_MKCALENDAR].

(** [enum http_parser_type] *)
Inductive http_parser_type :=
  | HTTP_REQUEST
  | HTTP_RESPONSE
  | HTTP_BOTH.

#[export] Instance http_parser_type_eq_dec : EqDecision http_parser_type.
Proof. solve_decision. Defined.

(** [enum http_errno] *)
Inductive http_errno :=
  | HPE_OK
  | HPE_CB_message_begin
  | HPE_CB_url
  | HPE_CB_header_field
  | HPE_CB_header_value
  | HPE_CB_headers_complete
  | HPE_CB_body
  | HPE_CB_message_complete
  | HPE_CB_status
  | HPE_CB_chunk_header
  | HPE_CB_chunk_complete
  | HPE_INVALID_EOF_STATE
  | HPE_HEADER_OVERFLOW
  | HPE_CLOSED_CONNECTION
  | HPE_INVALID_VERSION
  | HPE_INVALID_STATUS
  | HPE_INVALID_METHOD
  | HPE_INVALID_URL
  | HPE_INVALID_HOST
  | HPE_INVALID_PORT
  | HPE_INVALID_PATH
  | HPE_INVALID_QUERY_STRING
  | HPE_INVALID_FRAGMENT
  | HPE_LF_EXPECTED
  | HPE_INVALID_HEADER_TOKEN
  | HPE_INVALID_CONTENT_LENGTH
  | HPE_INVALID_CHUNK_SIZE
  | HPE_INVALID_CONSTANT
  | HPE_INVALID_INTERNAL_STATE
  | HPE_STRICT
  | HPE_PAUSED
  | HPE_UNKNOWN.

#[export] Instance http_errno_eq_dec : EqDecision http_errno.
Proof. solve_decision. Defined.

(** [enum flags] *)
Definition F_CHUNKED : Z := 1.
Definition F_CONNECTION_KEEP_ALIVE : Z := 2.
Definition F_CONNECTION_CLOSE : Z := 4.
Definition F_CONNECTION_UPGRADE : Z := 8.
Definition F_TRAILING : Z := 16.
Definition F_UPGRADE : Z := 32.
Definition F_SKIPBODY : Z := 64.

(** [flags & f] as a condition. *)
Definition has_flag (flags f : Z) : bool := negb (Z.land flags f =? 0).

(** [tokens]: the lower-cased token characters, 0 elsewhere. The initialiser
    gives 128 entries and the rest of the array is 0. *)
Definition tokens : list Z :=
  [0; 0; 0; 0; 0; 0; 0; 0;
   0; 0; 0; 0; 0; 0; 0; 0;
   0; 0; 0; 0; 0; 0; 0; 0;
   0; 0; 0; 0; 0; 0; 0; 0;
   0; #"!"; 0; #"#"; #"$"; #"%"; #"&"; #"'";
   0; 0; #"*"; #"+"; 0; #"-"; #"."; 0;
   #"0"; #"1"; #"2"; #"3"; #"4"; #"5"; #"6"; #"7";
   #"8"; #"9"; 0; 0; 0; 0; 0; 0;
   0; #"a"; #"b"; #"c"; #"d"; #"e"; #"f"; #"g";
   #"h"; #"i"; #"j"; #"k"; #"l"; #"m"; #"n"; #"o";
   #"p"; #"q"; #"r"; #"s"; #"t"; #"u"; #"v"; #"w";
   #"x"; #"y"; #"z"; 0; 0; 0; #"^"; #"_";
   #"`"; #"a"; #"b"; #"c"; #"d"; #"e"; #"f"; #"g";
   #"h"; #"i"; #"j"; #"k"; #"l"; #"m"; #"n"; #"o";
   #"p"; #"q"; #"r"; #"s"; #"t"; #"u"; #"v"; #"w";
   #"x"; #"y"; #"z"; 0; #"|"; 0; #"~"; 0].

(** [unhex]: again 128 initialisers for 256 entries, so the entries of the
    bytes above 127 are 0. *)
Definition unhex : list Z :=
  [-1; -1; -1; -1; -1; -1; -1; -1; -1; -1; -1; -1; -1; -1; -1; -1;
   -1; -1; -1; -1; -1; -1; -1; -1; -1; -1; -1; -1; -1; -1; -1; -1;
   -1; -1; -1; -1; -1; -1; -1; -1; -1; -1; -1; -1; -1; -1; -1; -1;
   0; 1; 2; 3; 4; 5; 6; 7; 8; 9; -1; -1; -1; -1; -1; -1;
   -1; 10; 11; 12; 13; 14; 15; -1; -1; -1; -1; -1; -1; -1; -1; -1;
   -1; -1; -1; -1; -1; -1; -1; -1; -1; -1; -1; -1; -1; -1; -1; -1;
   -1; 10; 11; 12; 13; 14; 15; -1; -1; -1; -1; -1; -1; -1; -1; -1;
   -1; -1; -1; -1; -1; -1; -1; -1; -1; -1; -1; -1; -1; -1; -1; -1].

(** [normal_url_char], strict mode: one byte for eight characters, the
    disjunctions of the initialiser evaluated. *)
Definition normal_url_char : list Z :=
  [0; 0; 0; 0; 246; 255; 255; 127;
   255; 255; 255; 255; 255; 255; 255; 127].

Definition CR : Z := 13.
Definition LF : Z := 10.
Definition ULLONG_MAX : Z := 2 ^ 64 - 1.
Definition HTTP_MAX_HEADER_SIZE : Z := 80 * 1024.

(** ** Character classes *)

Definition BIT_AT (a : list Z) (i : Z) : bool :=
  negb (Z.land (znth a (Z.shiftr i 3) 0) (Z.shiftl 1 (Z.land i 7)) =? 0).

Definition LOWER (c : Z) : Z := Z.lor c 0x20.
Definition IS_ALPHA (c : Z) : bool := (#"a" <=? LOWER c) && (LOWER c <=? #"z").
Definition IS_NUM (c : Z) : bool := (#"0" <=? c) && (c <=? #"9").
Definition IS_ALPHANUM (c : Z) : bool := IS_ALPHA c || IS_NUM c.
Definition IS_HEX (c : Z) : bool := IS_NUM c || ((#"a" <=? LOWER c) && (LOWER c <=? #"f")).
Definition IS_MARK (c : Z) : bool :=
  (c =? #"-") || (c =? #"_") || (c =? #".") || (c =? #"!") || (c =? #"~") ||
  (c =? #"*") || (c =? #"'") || (c =? #"(") || (c =? #")").
Definition IS_USERINFO_CHAR (c : Z) : bool :=
  IS_ALPHANUM c || IS_MARK c || (c =? #"%") || (c =? #";") || (c =? #":") ||
  (c =? #"&") || (c =? #"=") || (c =? #"+") || (c =? #"$") || (c =? #",").
Definition STRICT_TOKEN (c : Z) : Z := znth tokens c 0.
Definition TOKEN (c : Z) : Z := znth tokens c 0.
Definition IS_URL_CHAR (c : Z) : bool := BIT_AT normal_url_char c.
Definition IS_HOST_CHAR (c : Z) : bool := IS_ALPHANUM c || (c =? #".") || (c =? #"-").

Lemma method_len m : 3 <= zlen (method_string m) <= 11.
Proof. by destruct m; vm_compute. Qed.

(** The number that decimal digits continue. *)
Definition dec_value (acc : Z) (l : bytes) : Z :=
  fold_left (fun a c => a * 10 + (c - #"0")) l acc.
