(* ===== verification/HttpUrl.v ===== *)
(** * net/http/http_parser.c: the URL parser

    [parse_url_char] is the character transition shared by the request parser
    and by [http_parser_parse_url]. *)

From S2P Require Import Prelude.
From S2P Require Import Words.
From S2P Require Import HttpChars.

(** The body of [s_req_server_start] and [s_req_server], into which
    [s_req_server_with_at] falls through. *)
Definition url_server_char (ch : Z) : state :=
  if ch =? #"/" then s_req_path
  else if ch =? #"?" then s_req_query_string_start
  else if ch =? #"@" then s_req_server_with_at
  else if IS_USERINFO_CHAR ch || (ch =? #"[") || (ch =? #"]") then s_req_server
  else s_dead.

Definition parse_url_char (s : state) (ch : Z) : state :=
  if (ch =? #" ") || (ch =? CR) || (ch =? LF) then s_dead
  else if (ch =? 9) || (ch =? 12) then s_dead  (* \t, \f: strict mode *)
  else match s with
  | s_req_spaces_before_url =>
      if (ch =? #"/") || (ch =? #"*") then s_req_path
      else if IS_ALPHA ch then s_req_schema
      else s_dead
  | s_req_schema =>
      if IS_ALPHA ch then s
      else if ch =? #":" then s_req_schema_slash
      else s_dead
  | s_req_schema_slash =>
      if ch =? #"/" then s_req_schema_slash_slash else s_dead
  | s_req_schema_slash_slash =>
      if ch =? #"/" then s_req_server_start else s_dead
  | s_req_server_with_at =>
      if ch =? #"@" then s_dead else url_server_char ch
  | s_req_server_start | s_req_server => url_server_char ch
  | s_req_path =>
      if IS_URL_CHAR ch then s
      else if ch =? #"?" then s_req_query_string_start
      else if ch =? #"#" then s_req_fragment_start
      else s_dead
  | s_req_query_string_start | s_req_query_string =>
      if IS_URL_CHAR ch then s_req_query_string
      else if ch =? #"?" then s_req_query_string
      else if ch =? #"#" then s_req_fragment_start
      else s_dead
  | s_req_fragment_start =>
      if IS_URL_CHAR ch then s_req_fragment
      else if ch =? #"?" then s_req_fragment
      else if ch =? #"#" then s
      else s_dead
  | s_req_fragment =>
      if IS_URL_CHAR ch then s
      else if (ch =? #"?") || (ch =? #"#") then s
      else s_dead
  | _ => s_dead
  end.

(** ** http_parser_url *)

(** [enum http_parser_url_fields] *)
Inductive url_field :=
  | UF_SCHEMA
  | UF_HOST
  | UF_PORT
  | UF_PATH
  | UF_QUERY
  | UF_FRAGMENT
  | UF_USERINFO.

#[export] Instance url_field_eq_dec : EqDecision url_field.
Proof. solve_decision. Defined.

Definition uf_num (f : url_field) : Z :=
  match f with
  | UF_SCHEMA => 0
  | UF_HOST => 1
  | UF_PORT => 2
  | UF_PATH => 3
  | UF_QUERY => 4
  | UF_FRAGMENT => 5
  | UF_USERINFO => 6
  end.

(** [off] and [len] are 16 bits wide. *)
Record http_parser_url := mk_url {
  field_set : Z;
  port : Z;
  field_off : url_field -> Z;
  field_len : url_field -> Z;
}.

Definition upd_field (f : url_field) (v : Z) (g : url_field -> Z) : url_field -> Z :=
  fun f' => if decide (f' = f) then v else g f'.

Definition set_off (f : url_field) (v : Z) (u : http_parser_url) : http_parser_url :=
  mk_url (field_set u) (port u) (upd_field f (u16 v) (field_off u)) (field_len u).
Definition set_len (f : url_field) (v : Z) (u : http_parser_url) : http_parser_url :=
  mk_url (field_set u) (port u) (field_off u) (upd_field f (u16 v) (field_len u)).
Definition set_field (f : url_field) (u : http_parser_url) : http_parser_url :=
  mk_url (Z.lor (field_set u) (Z.shiftl 1 (uf_num f))) (port u) (field_off u) (field_len u).
Definition set_port (v : Z) (u : http_parser_url) : http_parser_url :=
  mk_url (field_set u) (u16 v) (field_off u) (field_len u).
Definition has_field (u : http_parser_url) (f : url_field) : bool :=
  negb (Z.land (field_set u) (Z.shiftl 1 (uf_num f)) =? 0).

Definition http_parse_host_char (s : http_host_state) (ch : Z) : http_host_state :=
  let after_host :=
    if ch =? #":" then s_http_host_port_start else s_http_host_dead in
  let v6_char :=
    if IS_HEX ch || (ch =? #":") || (ch =? #".") then s_http_host_v6
    else if bool_decide (s = s_http_host_v6) && (ch =? #"%") then s_http_host_v6_zone_start
    else s_http_host_dead in
  let zone_char :=
    if IS_ALPHANUM ch || (ch =? #"%") || (ch =? #".") || (ch =? #"-") || (ch =? #"_") ||
       (ch =? #"~") then s_http_host_v6_zone
    else s_http_host_dead in
  match s with
  | s_http_userinfo | s_http_userinfo_start =>
      if ch =? #"@" then s_http_host_start
      else if IS_USERINFO_CHAR ch then s_http_userinfo
      else s_http_host_dead
  | s_http_host_start =>
      if ch =? #"[" then s_http_host_v6_start
      else if IS_HOST_CHAR ch then s_http_host
      else s_http_host_dead
  | s_http_host => if IS_HOST_CHAR ch then s_http_host else after_host
  | s_http_host_v6_end => after_host
  | s_http_host_v6 => if ch =? #"]" then s_http_host_v6_end else v6_char
  | s_http_host_v6_start => v6_char
  | s_http_host_v6_zone => if ch =? #"]" then s_http_host_v6_end else zone_char
  | s_http_host_v6_zone_start => zone_char
  | s_http_host_port | s_http_host_port_start =>
      if IS_NUM ch then s_http_host_port else s_http_host_dead
  | s_http_host_dead => s_http_host_dead
  end.

(** The update of [u] for the character at offset [off], from [s] to [new_s]. *)
Definition parse_host_step (s new_s : http_host_state) (off : Z) (u : http_parser_url)
    : http_parser_url :=
  match new_s with
  | s_http_host | s_http_host_v6 =>
      let u := if bool_decide (s = new_s) then u else set_off UF_HOST off u in
      set_len UF_HOST (field_len u UF_HOST + 1) u
  | s_http_host_v6_zone_start | s_http_host_v6_zone =>
      set_len UF_HOST (field_len u UF_HOST + 1) u
  | s_http_host_port =>
      let u := if bool_decide (s = s_http_host_port) then u
               else set_field UF_PORT (set_len UF_PORT 0 (set_off UF_PORT off u)) in
      set_len UF_PORT (field_len u UF_PORT + 1) u
  | s_http_userinfo =>
      let u := if bool_decide (s = s_http_userinfo) then u
               else set_field UF_USERINFO (set_len UF_USERINFO 0 (set_off UF_USERINFO off u)) in
      set_len UF_USERINFO (field_len u UF_USERINFO + 1) u
  | _ => u
  end.

(** The loop over the characters [l] of the host, the first at offset [off];
    no state is the early [return 1]. *)
Fixpoint parse_host_loop (l : bytes) (off : Z) (s : http_host_state) (u : http_parser_url)
    : option http_host_state * http_parser_url :=
  match l with
  | [] => (Some s, u)
  | ch :: l =>
      let new_s := http_parse_host_char s ch in
      if decide (new_s = s_http_host_dead) then (None, u)
      else parse_host_loop l (off + 1) new_s (parse_host_step s new_s off u)
  end.

Definition host_final (s : http_host_state) : bool :=
  match s with
  | s_http_host_start | s_http_host_v6_start | s_http_host_v6 | s_http_host_v6_zone_start
  | s_http_host_v6_zone | s_http_host_port_start | s_http_userinfo | s_http_userinfo_start => false
  | _ => true
  end.

(** Returns the C result (0 on success) with the updated structure. *)
Definition http_parse_host (buf : bytes) (u : http_parser_url) (found_at : bool)
    : Z * http_parser_url :=
  let off := field_off u UF_HOST in
  let buflen := off + field_len u UF_HOST in
  let u := set_len UF_HOST 0 u in
  let s := if found_at then s_http_userinfo_start else s_http_host_start in
  match parse_host_loop (slice buf off (buflen - off)) off s u with
  | (None, u) => (1, u)
  | (Some s, u) => if host_final s then (0, u) else (1, u)
  end.

(** What a state of the URL parser means for [http_parser_parse_url]: an error,
    a delimiter to skip, a character of a field, or [assert(!"Unexpected state")]. *)
Inductive url_class := UrlError | UrlSkip | UrlField (f : url_field) | UrlAssert.

Definition classify (s : state) : url_class :=
  match s with
  | s_dead => UrlError
  | s_req_schema_slash | s_req_schema_slash_slash | s_req_server_start
  | s_req_query_string_start | s_req_fragment_start => UrlSkip
  | s_req_schema => UrlField UF_SCHEMA
  | s_req_server_with_at | s_req_server => UrlField UF_HOST
  | s_req_path => UrlField UF_PATH
  | s_req_query_string => UrlField UF_QUERY
  | s_req_fragment => UrlField UF_FRAGMENT
  | _ => UrlAssert
  end.

(** The loop of [http_parser_parse_url]; no [found_at] is the early
    [return 1], [None] a failed assertion. *)
Fixpoint parse_url_loop (l : bytes) (off : Z) (s : state) (old_uf : option url_field)
    (found_at : bool) (u : http_parser_url) : option (option bool * http_parser_url) :=
  match l with
  | [] => Some (Some found_at, u)
  | ch :: l =>
      let s := parse_url_char s ch in
      match classify s with
      | UrlError => Some (None, u)
      | UrlAssert => None
      | UrlSkip => parse_url_loop l (off + 1) s old_uf found_at u
      | UrlField uf =>
          let found_at := found_at || bool_decide (s = s_req_server_with_at) in
          if decide (old_uf = Some uf)
          then parse_url_loop l (off + 1) s old_uf found_at (set_len uf (field_len u uf + 1) u)
          else parse_url_loop l (off + 1) s (Some uf) found_at
                 (set_field uf (set_len uf 1 (set_off uf off u)))
      end
  end.

(** The value of the leading digits; ULONG_MAX + 1 when it is more than ULONG_MAX. *)
Fixpoint digits_value (l : bytes) (acc : Z) : Z :=
  match l with
  | ch :: l =>
      if IS_NUM ch then digits_value l (Z.min (ULLONG_MAX + 1) (acc * 10 + (ch - #"0"))) else acc
  | [] => acc
  end.

(** [isspace] in the C locale. *)
Definition is_space (ch : Z) : bool := (ch =? 32) || ((9 <=? ch) && (ch <=? 13)).

Fixpoint skip_spaces (l : bytes) : bytes :=
  match l with ch :: r => if is_space ch then skip_spaces r else l | [] => [] end.

(** [strtoul(nptr, NULL, 10)] of the C library: blanks, a sign and digits, with [ULONG_MAX]
    for what is larger. *)
Definition strtoul (nptr : bytes) : Z :=
  let l := skip_spaces nptr in
  let '(minus, l) := match l with
    | ch :: r => if ch =? #"-" then (true, r) else if ch =? #"+" then (false, r) else (false, l)
    | [] => (false, [])
    end in
  let v := digits_value l 0 in
  if ULLONG_MAX <? v then ULLONG_MAX else if minus then u64 (- v) else v.

Example strtoul_blanks : strtoul (str "  +80/") = 80. Proof. reflexivity. Qed.
Example strtoul_minus : strtoul (str "-1") = ULLONG_MAX. Proof. reflexivity. Qed.
Example strtoul_large : strtoul (str "99999999999999999999") = ULLONG_MAX. Proof. reflexivity. Qed.

(** [after] is the memory behind the buffer up to a NUL: [strtoul] is not told
    where the buffer ends. Returns the C result (0 on success) and the structure;
    [None] is a failed assertion. *)
Definition http_parser_parse_url (buf after : bytes) (is_connect : bool) (u : http_parser_url)
    : option (Z * http_parser_url) :=
  let u := mk_url 0 0 (field_off u) (field_len u) in
  let s := if is_connect then s_req_server_start else s_req_spaces_before_url in
  match parse_url_loop buf 0 s None false u with
  | None => None
  | Some (None, u) => Some (1, u)
  | Some (Some found_at, u) =>
      if has_field u UF_SCHEMA && negb (has_field u UF_HOST) then Some (1, u)
      else
        let '(rc, u) :=
          if has_field u UF_HOST then http_parse_host buf u found_at else (0, u) in
        if negb (rc =? 0) then Some (1, u)
        else if is_connect &&
          negb (field_set u =? Z.lor (Z.shiftl 1 (uf_num UF_HOST)) (Z.shiftl 1 (uf_num UF_PORT)))
        then Some (1, u)
        else if has_field u UF_PORT then
          let v := strtoul (drop (Z.to_nat (field_off u UF_PORT)) (buf ++ after)) in
          if 0xffff <? v then Some (1, u) else Some (0, set_port v u)
        else Some (0, u)
  end.

Definition url0 : http_parser_url := mk_url 0 0 (fun _ => 0) (fun _ => 0).

Definition url_text (buf : bytes) (u : http_parser_url) (f : url_field) : bytes :=
  slice buf (field_off u f) (field_len u f).

Example parse_url_example :
  let buf := str "http://me@host:8080/a/b?x=1#frag" in
  match http_parser_parse_url buf [] false url0 with
  | Some (rc, u) => rc = 0 /\ port u = 8080 /\
      map (url_text buf u) [UF_SCHEMA; UF_HOST; UF_PORT; UF_PATH; UF_QUERY; UF_FRAGMENT; UF_USERINFO]
      = map str ["http"; "host"; "8080"; "/a/b"; "x=1"; "frag"; "me"]%string
  | None => False
  end.
Proof. vm_compute. auto. Qed.
