(* ===== verification/HttpUrlFields.v ===== *)
(** * The fields of a URL

    [http_parser_parse_url] reads back the parts of the URLs it is meant for:
    offsets and lengths of every field, and the port as a number; and the one
    place where it reads behind the buffer. *)

From S2P Require Import Prelude.
From S2P Require Import Words.
From S2P Require Import HttpChars.
From S2P Require Import HttpUrl.

(** ** Layouts

    Where each field lies: its offset and its length, if it is set. *)
Definition layout : Type := url_field -> option (Z * Z).

Definition place (f : url_field) (o n : Z) (D : layout) : layout :=
  fun f' => if decide (f' = f) then Some (o, n) else D f'.

Definition laid (D : layout) (u : http_parser_url) : Prop :=
  forall f, match D f with
            | Some (o, n) => has_field u f = true /\ field_off u f = o /\ field_len u f = n
            | None => has_field u f = false
            end.

Lemma has_field_testbit u f : has_field u f = Z.testbit (field_set u) (uf_num f).
Proof.
  unfold has_field. assert (Hf : 0 <= uf_num f) by (by destruct f).
  rewrite Z.shiftl_1_l. destruct (Z.testbit (field_set u) (uf_num f)) eqn:E.
  - apply negb_true_iff, Z.eqb_neq. intros H. assert (T : Z.testbit 0 (uf_num f) = true).
    { rewrite <- H, Z.land_spec, E, Z.pow2_bits_true by done. done. }
    by rewrite Z.bits_0 in T.
  - apply negb_false_iff, Z.eqb_eq, Z.bits_inj'. intros k Hk.
    rewrite Z.land_spec, Z.bits_0, Z.pow2_bits_eqb by done.
    destruct (Z.eqb_spec (uf_num f) k) as [<-|]; [by rewrite E|apply andb_false_r].
Qed.

Lemma uf_num_inj f g : uf_num f = uf_num g -> f = g.
Proof. by destruct f, g. Qed.

Lemma has_set_field u f g : has_field (set_field f u) g = bool_decide (g = f) || has_field u g.
Proof.
  rewrite !has_field_testbit. simpl. assert (Hf : 0 <= uf_num f) by (by destruct f).
  rewrite Z.lor_spec, Z.shiftl_1_l, Z.pow2_bits_eqb, orb_comm by done. f_equal.
  case_bool_decide as E; [subst; apply Z.eqb_refl|].
  apply Z.eqb_neq. intros H. apply E. symmetry. by apply uf_num_inj.
Qed.

Lemma laid_ext D D' u : (forall f, D f = D' f) -> laid D u -> laid D' u.
Proof. intros E H f. rewrite <- E. apply H. Qed.

Lemma u16_fits v : 0 <= v < 65536 -> u16 v = v.
Proof. intros. unfold u16. by apply wrap_small. Qed.

Lemma laid_start D u f o :
  laid D u -> 0 <= o < 65536 ->
  laid (place f o 1 D) (set_field f (set_len f 1 (set_off f o u))).
Proof.
  intros H Ho g. specialize (H g). unfold place. rewrite has_set_field. simpl. unfold upd_field.
  destruct (decide (g = f)) as [->|Hne].
  - rewrite bool_decide_eq_true_2 by done. rewrite !u16_fits by lia. done.
  - rewrite bool_decide_eq_false_2 by done. exact H.
Qed.

Lemma laid_len D u f o n k :
  laid D u -> D f = Some (o, n) -> 0 <= k < 65536 -> laid (place f o k D) (set_len f k u).
Proof.
  intros H E Hk g. unfold place. simpl. unfold upd_field. pose proof (H g) as Hg.
  destruct (decide (g = f)) as [->|Hne].
  - rewrite E in Hg. destruct Hg as (? & ? & _). rewrite u16_fits by lia. done.
  - exact Hg.
Qed.

Lemma laid_off D u f o n k :
  laid D u -> D f = Some (o, n) -> 0 <= k < 65536 -> laid (place f k n D) (set_off f k u).
Proof.
  intros H E Hk g. unfold place. simpl. unfold upd_field. pose proof (H g) as Hg.
  destruct (decide (g = f)) as [->|Hne].
  - rewrite E in Hg. destruct Hg as (? & _ & ?). rewrite u16_fits by lia. done.
  - exact Hg.
Qed.

Lemma place_same f o n o' n' D g : place f o' n' (place f o n D) g = place f o' n' D g.
Proof. unfold place. by destruct (decide (g = f)). Qed.

Lemma laid_lookup D u f o n :
  laid D u -> D f = Some (o, n) -> has_field u f = true /\ field_off u f = o /\ field_len u f = n.
Proof. intros H E. specialize (H f). by rewrite E in H. Qed.

(** ** A run of characters of one field *)

Definition url_run (s : state) (l : bytes) : state := fold_left parse_url_char l s.

Fixpoint in_field (uf : url_field) (s : state) (l : bytes) : Prop :=
  match l with
  | [] => True
  | c :: l => classify (parse_url_char s c) = UrlField uf /\ in_field uf (parse_url_char s c) l
  end.

Fixpoint at_seen (s : state) (l : bytes) : bool :=
  match l with
  | [] => false
  | c :: l => bool_decide (parse_url_char s c = s_req_server_with_at) || at_seen (parse_url_char s c) l
  end.

Lemma loop_more uf l : forall rest off s fa u D o n,
  in_field uf s l -> laid D u -> D uf = Some (o, n) -> 0 <= n -> n + zlen l < 65536 ->
  exists u', parse_url_loop (l ++ rest) off s (Some uf) fa u
      = parse_url_loop rest (off + zlen l) (url_run s l) (Some uf) (fa || at_seen s l) u' /\
    laid (place uf o (n + zlen l) D) u'.
Proof.
  induction l as [|c l IH]; intros rest off s fa u D o n Hl Hu HD Hn Hmax.
  - change (zlen []) with 0. rewrite !Z.add_0_r, orb_false_r. exists u. split; [done|].
    eapply laid_ext; [|exact Hu]. intros g. unfold place. by destruct (decide (g = uf)) as [->|].
  - destruct Hl as [Hc Hl]. rewrite zlen_cons in *. pose proof (zlen_nonneg l).
    simpl app. cbn [parse_url_loop]. rewrite Hc, decide_True by done.
    destruct (laid_lookup _ _ _ _ _ Hu HD) as (_ & _ & ->).
    destruct (IH rest (off + 1) (parse_url_char s c)
      (fa || bool_decide (parse_url_char s c = s_req_server_with_at)) (set_len uf (n + 1) u)
      (place uf o (n + 1) D) o (n + 1)) as (u' & E & Hu'); try done; try lia.
    + eapply laid_len; [done|exact HD|lia].
    + unfold place. by rewrite decide_True.
    + exists u'. rewrite E. simpl. rewrite orb_assoc.
      replace (off + 1 + zlen l) with (off + (1 + zlen l)) by lia. split; [done|].
      eapply laid_ext; [|exact Hu']. intros g. rewrite place_same. f_equal. lia.
Qed.

Lemma loop_field uf c l rest off s old fa u D :
  in_field uf s (c :: l) -> old <> Some uf -> laid D u -> 0 <= off < 65536 ->
  zlen (c :: l) < 65536 ->
  exists u', parse_url_loop ((c :: l) ++ rest) off s old fa u
      = parse_url_loop rest (off + zlen (c :: l)) (url_run s (c :: l)) (Some uf)
          (fa || at_seen s (c :: l)) u' /\
    laid (place uf off (zlen (c :: l)) D) u'.
Proof.
  intros [Hc Hl] Hold Hu Hoff Hmax. rewrite zlen_cons in *. pose proof (zlen_nonneg l).
  simpl app. cbn [parse_url_loop]. rewrite Hc, decide_False by done.
  destruct (loop_more uf l rest (off + 1) (parse_url_char s c)
    (fa || bool_decide (parse_url_char s c = s_req_server_with_at))
    (set_field uf (set_len uf 1 (set_off uf off u))) (place uf off 1 D) off 1)
    as (u' & E & Hu'); try done; try lia.
  - by apply laid_start.
  - unfold place. by rewrite decide_True.
  - exists u'. rewrite E. simpl. rewrite orb_assoc.
    replace (off + 1 + zlen l) with (off + (1 + zlen l)) by lia. split; [done|].
    eapply laid_ext; [|exact Hu']. intros g. by rewrite place_same.
Qed.

Lemma loop_skip c rest off s old fa u :
  classify (parse_url_char s c) = UrlSkip ->
  parse_url_loop (c :: rest) off s old fa u
  = parse_url_loop rest (off + 1) (parse_url_char s c) old fa u.
Proof. intros E. cbn [parse_url_loop]. by rewrite E. Qed.

(** ** Characters *)

Definition class (P : Z -> bool) (c : Z) : Prop := is_byte c /\ P c = true.

Definition IS_V6_CHAR (c : Z) : bool := IS_HEX c || (c =? #":") || (c =? #".").
Definition IS_QUERY_CHAR (c : Z) : bool := IS_URL_CHAR c || (c =? #"?").
Definition IS_FRAGMENT_CHAR (c : Z) : bool := IS_QUERY_CHAR c || (c =? #"#").
Definition IS_AUTH_CHAR (c : Z) : bool := IS_USERINFO_CHAR c || (c =? #"[") || (c =? #"]").

(** A fact on the bytes of a class, checked on all bytes. *)
Lemma class_forall (P Q : Z -> bool) c :
  forallb (fun b => negb (P b) || Q b) all_bytes = true -> class P c -> Q c = true.
Proof.
  intros H [Hb Hp]. pose proof (byte_forall _ H c Hb) as E. cbn beta in E. by rewrite Hp in E.
Qed.

Lemma class_state P s s' c :
  forallb (fun b => negb (P b) || bool_decide (parse_url_char s b = s')) all_bytes = true ->
  class P c -> parse_url_char s c = s'.
Proof.
  intros H Hc. apply (class_forall P (fun b => bool_decide (parse_url_char s b = s')) c H) in Hc.
  by apply bool_decide_eq_true in Hc.
Qed.

Lemma class_incl P Q c :
  forallb (fun b => negb (P b) || Q b) all_bytes = true -> class P c -> class Q c.
Proof. intros H Hc. split; [apply Hc|by apply (class_forall P Q c H)]. Qed.

Lemma class_incl_all P Q l :
  forallb (fun b => negb (P b) || Q b) all_bytes = true -> Forall (class P) l -> Forall (class Q) l.
Proof. intros H Hl. eapply Forall_impl; [exact Hl|]. intros c. by apply class_incl. Qed.

(** ** Runs of the URL automaton *)

(** A run of characters of one class that stay in one state, once entered. *)
Lemma run_stays P s l uf :
  forallb (fun b => negb (P b) || bool_decide (parse_url_char s b = s)) all_bytes = true ->
  Forall (class P) l -> s <> s_req_server_with_at -> classify s = UrlField uf ->
  in_field uf s l /\ url_run s l = s /\ at_seen s l = false.
Proof.
  intros Hs Hl Hat Huf. induction l as [|c l IH]; [done|]. apply Forall_cons in Hl as [Hc Hl].
  destruct (IH Hl) as (H1 & H2 & H3). simpl. rewrite (class_state P s s c Hs Hc).
  split_and!; try done. by rewrite H3, bool_decide_eq_false_2.
Qed.

Lemma run_enters P s s' c l uf :
  parse_url_char s c = s' ->
  forallb (fun b => negb (P b) || bool_decide (parse_url_char s' b = s')) all_bytes = true ->
  Forall (class P) l -> s' <> s_req_server_with_at -> classify s' = UrlField uf ->
  in_field uf s (c :: l) /\ url_run s (c :: l) = s' /\ at_seen s (c :: l) = false.
Proof.
  intros Hc Hs Hl Hat Huf. destruct (run_stays P s' l uf Hs Hl Hat Huf) as (H1 & H2 & H3).
  simpl. rewrite Hc. split_and!; try done. by rewrite H3, bool_decide_eq_false_2.
Qed.

Lemma in_field_app uf s l1 l2 :
  in_field uf s l1 -> in_field uf (url_run s l1) l2 -> in_field uf s (l1 ++ l2).
Proof. revert s. induction l1 as [|c l1 IH]; intros s; [done|]. simpl. intros [? ?] ?. auto. Qed.

Lemma at_seen_app s l1 l2 : at_seen s (l1 ++ l2) = at_seen s l1 || at_seen (url_run s l1) l2.
Proof. revert s. induction l1 as [|c l1 IH]; intros s; [done|]. simpl. by rewrite IH, orb_assoc. Qed.

Lemma url_run_app s l1 l2 : url_run s (l1 ++ l2) = url_run (url_run s l1) l2.
Proof. apply fold_left_app. Qed.

Lemma server_chars s l :
  s = s_req_server_start \/ s = s_req_server_with_at -> l <> [] -> Forall (class IS_AUTH_CHAR) l ->
  in_field UF_HOST s l /\ url_run s l = s_req_server /\ at_seen s l = false.
Proof.
  intros Hs Hne Hl. destruct l as [|c l]; [done|]. apply Forall_cons in Hl as [Hc Hl].
  apply (run_enters IS_AUTH_CHAR s s_req_server); try done.
  - destruct Hs as [-> | ->]; apply (class_state IS_AUTH_CHAR); (done || by vm_compute).
Qed.

(** ** URLs *)

Record authority := mk_authority {
  a_userinfo : option bytes; a_v6 : bool; a_host : bytes; a_port : option bytes }.

Record url_parts := mk_parts {
  w_origin : option (bytes * authority);   (* the scheme and the authority *)
  w_path : bytes; w_query : option bytes; w_fragment : option bytes }.

Definition opt {A} (f : A -> bytes) (x : option A) : bytes :=
  match x with Some a => f a | None => [] end.

Definition host_bytes (a : authority) : bytes :=
  if a_v6 a then [ #"["] ++ a_host a ++ [ #"]"] else a_host a.
Definition hostport_bytes (a : authority) : bytes :=
  host_bytes a ++ opt (fun t => [ #":"] ++ t) (a_port a).
Definition authority_bytes (a : authority) : bytes :=
  opt (fun t => t ++ [ #"@"]) (a_userinfo a) ++ hostport_bytes a.
Definition tail_bytes (w : url_parts) : bytes :=
  w_path w ++ opt (fun t => [ #"?"] ++ t) (w_query w) ++ opt (fun t => [ #"#"] ++ t) (w_fragment w).
Definition url_bytes (w : url_parts) : bytes :=
  opt (fun '(s, a) => s ++ str "://" ++ authority_bytes a) (w_origin w) ++ tail_bytes w.

Definition word (P : Z -> bool) (t : bytes) : Prop := t <> [] /\ Forall (class P) t.

Definition opt_ok {A} (P : A -> Prop) (x : option A) : Prop :=
  match x with Some a => P a | None => True end.

Definition authority_ok (a : authority) : Prop :=
  opt_ok (word IS_USERINFO_CHAR) (a_userinfo a) /\
  word (if a_v6 a then IS_V6_CHAR else IS_HOST_CHAR) (a_host a) /\
  opt_ok (fun t => word IS_NUM t /\ dec_value 0 t <= 65535) (a_port a).

Definition path_ok (t : bytes) : Prop :=
  match t with [] => True | c :: l => c = #"/" /\ Forall (class IS_URL_CHAR) l end.

Definition fragment_ok (t : bytes) : Prop :=
  match t with
  | [] => False
  | c :: l => class IS_QUERY_CHAR c /\ Forall (class IS_FRAGMENT_CHAR) l
  end.

Definition parts_ok (w : url_parts) : Prop :=
  opt_ok (fun '(s, a) => word IS_ALPHA s /\ authority_ok a) (w_origin w) /\
  path_ok (w_path w) /\ opt_ok (word IS_QUERY_CHAR) (w_query w) /\
  opt_ok fragment_ok (w_fragment w) /\
  (w_origin w = None -> w_path w <> []) /\
  (w_path w = [] -> w_query w = None -> w_fragment w = None).

(** The text of each field of a URL. *)
Definition part (w : url_parts) (f : url_field) : option bytes :=
  match f with
  | UF_SCHEMA => option_map fst (w_origin w)
  | UF_HOST => option_map (fun x => a_host (snd x)) (w_origin w)
  | UF_PORT => match w_origin w with Some (_, a) => a_port a | None => None end
  | UF_PATH => match w_path w with [] => None | t => Some t end
  | UF_QUERY => w_query w
  | UF_FRAGMENT => w_fragment w
  | UF_USERINFO => match w_origin w with Some (_, a) => a_userinfo a | None => None end
  end.

(** ** The URL loop *)

Definition place_word (f : url_field) (o : Z) (t : bytes) (D : layout) : layout :=
  match t with [] => D | _ => place f o (zlen t) D end.
Definition place_opt (f : url_field) (o : Z) (t : option bytes) (D : layout) : layout :=
  match t with Some t => place f o (zlen t) D | None => D end.

Definition tail_layout (o : Z) (w : url_parts) (D : layout) : layout :=
  let o1 := o + zlen (w_path w) in
  let o2 := o1 + zlen (opt (fun t => [ #"?"] ++ t) (w_query w)) in
  place_opt UF_FRAGMENT (o2 + 1) (w_fragment w)
    (place_opt UF_QUERY (o1 + 1) (w_query w) (place_word UF_PATH o (w_path w) D)).

(** What a stretch of the loop does: from state [s] to [s'], with the last field
    [old'] and the layout [D']. *)
Definition runs (l : bytes) (s s' : state) (old old' : option url_field) (fa fa' : bool)
    (off : Z) (D D' : layout) : Prop :=
  forall rest u, laid D u ->
  exists u', parse_url_loop (l ++ rest) off s old fa u
      = parse_url_loop rest (off + zlen l) s' old' fa' u' /\ laid D' u'.

Lemma runs_nil s old fa off D : runs [] s s old old fa fa off D D.
Proof. intros rest u Hu. exists u. change (zlen []) with 0. by rewrite Z.add_0_r. Qed.

Lemma runs_app l1 l2 s s1 s2 f f1 f2 a a1 a2 off D D1 D2 :
  runs l1 s s1 f f1 a a1 off D D1 -> runs l2 s1 s2 f1 f2 a1 a2 (off + zlen l1) D1 D2 ->
  runs (l1 ++ l2) s s2 f f2 a a2 off D D2.
Proof.
  intros R1 R2 rest u Hu. destruct (R1 (l2 ++ rest) u Hu) as (u1 & E1 & H1).
  destruct (R2 rest u1 H1) as (u2 & E2 & H2). exists u2. split; [|exact H2].
  by rewrite <- app_assoc, E1, E2, zlen_app, Z.add_assoc.
Qed.

Lemma runs_skip c s s' old fa off D :
  parse_url_char s c = s' -> classify s' = UrlSkip -> runs [c] s s' old old fa fa off D D.
Proof. intros <- E rest u Hu. exists u. split; [by apply loop_skip|done]. Qed.

Lemma runs_field_at uf l s old fa off D :
  l <> [] -> in_field uf s l -> old <> Some uf -> 0 <= off -> off + zlen l < 65536 ->
  runs l s (url_run s l) old (Some uf) fa (fa || at_seen s l) off D (place uf off (zlen l) D).
Proof.
  intros Hne Hl Hold Hoff Hmax rest u Hu. destruct l as [|c l]; [done|].
  pose proof (zlen_nonneg (c :: l)). by apply loop_field; [| | |lia|lia].
Qed.

Lemma runs_field uf l s s' old fa off D :
  l <> [] -> in_field uf s l /\ url_run s l = s' /\ at_seen s l = false -> old <> Some uf ->
  0 <= off -> off + zlen l < 65536 ->
  runs l s s' old (Some uf) fa fa off D (place uf off (zlen l) D).
Proof.
  intros Hne (Hl & <- & Hat) Hold Hoff Hmax.
  pose proof (runs_field_at uf l s old fa off D Hne Hl Hold Hoff Hmax) as R.
  by rewrite Hat, orb_false_r in R.
Qed.

Lemma runs_path t s old fa off D :
  s = s_req_server \/ s = s_req_spaces_before_url -> path_ok t ->
  old = None \/ old = Some UF_HOST -> 0 <= off -> off + zlen t < 65536 ->
  runs t s (if decide (t = []) then s else s_req_path)
    old (if decide (t = []) then old else Some UF_PATH) fa fa off D (place_word UF_PATH off t D).
Proof.
  intros Hs Ht Hold Hoff Hmax. destruct t as [|c l].
  - rewrite !decide_True by done. apply runs_nil.
  - rewrite !decide_False by done. destruct Ht as [-> Hl]. apply runs_field; try done.
    + apply (run_enters IS_URL_CHAR s s_req_path); try done.
      by destruct Hs as [-> | ->].
    + by destruct Hold as [-> | ->].
Qed.

Lemma runs_query q s old fa off D :
  s = s_req_server \/ s = s_req_path -> opt_ok (word IS_QUERY_CHAR) q ->
  old = Some UF_HOST \/ old = Some UF_PATH -> 0 <= off ->
  off + zlen (opt (fun t => [ #"?"] ++ t) q) < 65536 ->
  runs (opt (fun t => [ #"?"] ++ t) q) s (match q with Some _ => s_req_query_string | None => s end)
    old (match q with Some _ => Some UF_QUERY | None => old end) fa fa off D
    (place_opt UF_QUERY (off + 1) q D).
Proof.
  intros Hs Hq Hold Hoff Hmax. destruct q as [t|]; [|apply runs_nil].
  destruct Hq as [Hne Ht]. simpl opt in *. rewrite zlen_cons in Hmax.
  change (#"?" :: t) with ([ #"?"] ++ t). eapply runs_app.
  - apply (runs_skip #"?" s s_req_query_string_start); [|done]. by destruct Hs as [-> | ->].
  - change (zlen [ #"?"]) with 1. apply runs_field; try done; [| |lia|lia].
    + destruct t as [|c l]; [done|]. apply Forall_cons in Ht as [Hc Hl].
      apply (run_enters IS_QUERY_CHAR s_req_query_string_start s_req_query_string); try done.
      revert Hc. apply class_state. by vm_compute.
    + by destruct Hold as [-> | ->].
Qed.

Lemma runs_fragment q s old fa off D :
  s = s_req_query_string \/ s = s_req_path -> opt_ok fragment_ok q ->
  old <> Some UF_FRAGMENT -> 0 <= off ->
  off + zlen (opt (fun t => [ #"#"] ++ t) q) < 65536 ->
  exists s' old', runs (opt (fun t => [ #"#"] ++ t) q) s s' old old' fa fa off D
    (place_opt UF_FRAGMENT (off + 1) q D).
Proof.
  intros Hs Hq Hold Hoff Hmax. destruct q as [t|]; [|do 2 eexists; apply runs_nil].
  destruct t as [|c l]; [done|]. destruct Hq as [Hc Hl]. simpl opt in *. rewrite zlen_cons in Hmax.
  change (#"#" :: c :: l) with ([ #"#"] ++ c :: l). do 2 eexists. eapply runs_app.
  - apply (runs_skip #"#" s s_req_fragment_start); [|done]. by destruct Hs as [-> | ->].
  - change (zlen [ #"#"]) with 1. apply runs_field; try done; [|lia|lia].
    apply (run_enters IS_FRAGMENT_CHAR s_req_fragment_start s_req_fragment); try done.
    revert Hc. apply class_state. by vm_compute.
Qed.

Lemma runs_tail w s old fa off D :
  s = s_req_server /\ old = Some UF_HOST \/
  s = s_req_spaces_before_url /\ old = None /\ w_path w <> [] ->
  path_ok (w_path w) -> opt_ok (word IS_QUERY_CHAR) (w_query w) ->
  opt_ok fragment_ok (w_fragment w) -> (w_path w = [] -> w_query w = None -> w_fragment w = None) ->
  0 <= off -> off + zlen (tail_bytes w) < 65536 ->
  exists s' old', runs (tail_bytes w) s s' old old' fa fa off D (tail_layout off w D).
Proof.
  intros Hs Hp Hq Hf Hone Hoff Hmax. unfold tail_bytes, tail_layout in *.
  rewrite !zlen_app in Hmax. pose proof (zlen_nonneg (w_path w)).
  set (qb := opt _ (w_query w)) in *. set (fb := opt _ (w_fragment w)) in *.
  pose proof (zlen_nonneg qb). pose proof (zlen_nonneg fb).
  assert (R1 := runs_path (w_path w) s old fa off D ltac:(intuition) Hp ltac:(intuition)
    Hoff ltac:(lia)).
  assert (R2 : w_path w = [] /\ w_query w = None /\ w_fragment w = None \/
    exists s2 old2, (s2 = s_req_query_string \/ s2 = s_req_path) /\ old2 <> Some UF_FRAGMENT /\
      runs (w_path w ++ qb) s s2 old old2 fa fa off D
        (place_opt UF_QUERY (off + zlen (w_path w) + 1) (w_query w)
           (place_word UF_PATH off (w_path w) D))).
  { destruct (decide (w_path w = [] /\ w_query w = None)) as [[E1 E2]|Hn]; [left; auto|right].
    set (s1 := if decide (w_path w = []) then s else s_req_path) in *.
    set (old1 := if decide (w_path w = []) then old else Some UF_PATH) in *.
    assert (Hs1 : (s1 = s_req_server \/ s1 = s_req_path) /\ (old1 = Some UF_HOST \/ old1 = Some UF_PATH)).
    { unfold s1, old1. case_decide; [|by auto]. by destruct Hs as [[-> ->]|(_ & _ & ?)]; [auto|]. }
    destruct Hs1 as [Hs1 Hold1].
    do 2 eexists. split; [|split; [|eapply runs_app;
      [exact R1|by apply runs_query; [| | |lia|fold qb; lia]]]].
    - destruct (w_query w); [by left|]. right. unfold s1. apply decide_False. tauto.
    - destruct (w_query w); [done|]. by destruct Hold1 as [-> | ->]. }
  destruct R2 as [(E1 & E2 & E3)|(s2 & old2 & Hs2 & Hold2 & R2)].
  - subst qb fb. rewrite E1, E2, E3 in *. simpl. do 2 eexists. apply runs_nil.
  - destruct (runs_fragment (w_fragment w) s2 old2 fa (off + zlen (w_path w ++ qb))
      (place_opt UF_QUERY (off + zlen (w_path w) + 1) (w_query w)
         (place_word UF_PATH off (w_path w) D)))
      as (s3 & old3 & R3); try done; [rewrite zlen_app; lia|rewrite zlen_app; fold fb; lia|].
    exists s3, old3. rewrite app_assoc. eapply runs_app; [exact R2|].
    rewrite zlen_app, Z.add_assoc in R3 |- *. exact R3.
Qed.

Lemma hostport_chars a : authority_ok a -> hostport_bytes a <> [] /\ Forall (class IS_AUTH_CHAR) (hostport_bytes a).
Proof.
  intros (_ & [Hne Hh] & Hp). unfold hostport_bytes, host_bytes.
  assert (Hp' : Forall (class IS_AUTH_CHAR) (opt (fun t => [ #":"] ++ t) (a_port a))).
  { destruct (a_port a) as [t|]; [|constructor]. destruct Hp as [[_ Ht] _].
    apply Forall_app. split; [repeat constructor; by vm_compute|].
    revert Ht. apply class_incl_all. by vm_compute. }
  destruct (a_v6 a).
  - split; [done|]. apply Forall_app. split; [|done].
    apply Forall_cons. split; [split; by vm_compute|]. apply Forall_app. split.
    + revert Hh. apply class_incl_all. by vm_compute.
    + repeat constructor; by vm_compute.
  - split; [by destruct (a_host a)|]. apply Forall_app. split; [|done].
    revert Hh. apply class_incl_all. by vm_compute.
Qed.

Definition has {A} (x : option A) : bool := match x with Some _ => true | None => false end.

Lemma runs_authority a off D :
  authority_ok a -> 0 <= off -> off + zlen (authority_bytes a) < 65536 ->
  runs (authority_bytes a) s_req_server_start s_req_server (Some UF_SCHEMA) (Some UF_HOST)
    false (has (a_userinfo a)) off D (place UF_HOST off (zlen (authority_bytes a)) D).
Proof.
  intros Ha Hoff Hmax. destruct (hostport_chars a Ha) as [Hne Hch]. destruct Ha as (Hu & _ & _).
  assert (H : in_field UF_HOST s_req_server_start (authority_bytes a) /\
    url_run s_req_server_start (authority_bytes a) = s_req_server /\
    at_seen s_req_server_start (authority_bytes a) = has (a_userinfo a)).
  { unfold authority_bytes. destruct (a_userinfo a) as [t|]; simpl opt.
    - destruct Hu as [Hte Ht]. apply (class_incl_all _ IS_AUTH_CHAR) in Ht; [|by vm_compute].
      destruct (server_chars s_req_server_start t) as (T1 & T2 & T3); [by left|done|done|].
      destruct (server_chars s_req_server_with_at (hostport_bytes a)) as (S1 & S2 & S3);
        [by right|done|done|].
      rewrite <- app_assoc, !at_seen_app, !url_run_app, T2, T3.
      change (url_run s_req_server [ #"@"]) with s_req_server_with_at. rewrite S2, S3.
      split_and!; try done. apply in_field_app; [done|]. rewrite T2.
      apply (in_field_app UF_HOST s_req_server [ #"@"]); done.
    - apply server_chars; [by left|done|done]. }
  destruct H as (H1 & H2 & H3). rewrite <- H3, <- H2. rewrite <- (orb_false_l (at_seen _ _)).
  apply runs_field_at; try done. unfold authority_bytes. by destruct (a_userinfo a) as [[|]|].
Qed.

(** The layout before the authority is split. *)
Definition origin_bytes (w : url_parts) : bytes :=
  opt (fun '(s, a) => s ++ str "://" ++ authority_bytes a) (w_origin w).

Definition origin_layout (w : url_parts) : layout :=
  match w_origin w with
  | Some (s, a) => place UF_HOST (zlen s + 3) (zlen (authority_bytes a))
                     (place UF_SCHEMA 0 (zlen s) (fun _ => None))
  | None => fun _ => None
  end.

Definition found_at (w : url_parts) : bool :=
  match w_origin w with Some (_, a) => has (a_userinfo a) | None => false end.

Lemma runs_origin s a :
  word IS_ALPHA s -> authority_ok a -> zlen (s ++ str "://" ++ authority_bytes a) < 65536 ->
  runs (s ++ str "://" ++ authority_bytes a) s_req_spaces_before_url s_req_server None (Some UF_HOST)
    false (has (a_userinfo a)) 0 (fun _ => None)
    (place UF_HOST (zlen s + 3) (zlen (authority_bytes a)) (place UF_SCHEMA 0 (zlen s) (fun _ => None))).
Proof.
  intros [Hne Hs] Ha Hmax. rewrite !zlen_app in Hmax. change (zlen (str "://")) with 3 in Hmax.
  pose proof (zlen_nonneg s). pose proof (zlen_nonneg (authority_bytes a)).
  eapply runs_app; [apply runs_field; try done; [|lia]|].
  { destruct s as [|c l]; [done|]. apply Forall_cons in Hs as [Hc Hl].
    apply (run_enters IS_ALPHA s_req_spaces_before_url s_req_schema); try done.
    revert Hc. apply class_state. by vm_compute. }
  change (str "://") with ([ #":"] ++ [ #"/"] ++ [ #"/"]). rewrite <- !app_assoc.
  eapply runs_app; [by apply (runs_skip _ _ s_req_schema_slash)|].
  eapply runs_app; [by apply (runs_skip _ _ s_req_schema_slash_slash)|].
  eapply runs_app; [by apply (runs_skip _ _ s_req_server_start)|].
  change (zlen [ _ ]) with 1. replace (0 + zlen s + 1 + 1 + 1) with (zlen s + 3) by lia.
  apply runs_authority; [done|lia|lia].
Qed.

Lemma runs_url w :
  parts_ok w -> zlen (url_bytes w) < 65536 ->
  exists s' old', runs (url_bytes w) s_req_spaces_before_url s' None old' false (found_at w) 0
    (fun _ => None) (tail_layout (zlen (origin_bytes w)) w (origin_layout w)).
Proof.
  intros (Ho & Hp & Hq & Hf & H1 & H2) Hmax. unfold url_bytes in *. fold (origin_bytes w) in *.
  rewrite zlen_app in Hmax. pose proof (zlen_nonneg (tail_bytes w)).
  pose proof (zlen_nonneg (origin_bytes w)). unfold origin_bytes, origin_layout, found_at in *.
  destruct (w_origin w) as [[s a]|]; cbn [opt] in *.
  - destruct Ho as [Hs Ha].
    destruct (runs_tail w s_req_server (Some UF_HOST) (has (a_userinfo a))
      (zlen (s ++ str "://" ++ authority_bytes a))
      (place UF_HOST (zlen s + 3) (zlen (authority_bytes a)) (place UF_SCHEMA 0 (zlen s) (fun _ => None))))
      as (s' & old' & R); try done; [by left|].
    exists s', old'. eapply runs_app; [apply runs_origin; (done || lia)|exact R].
  - apply runs_tail; try done. right. auto.
Qed.

(** ** The host *)

Definition host_runs (l : bytes) (s s' : http_host_state) (off : Z) (D D' : layout) : Prop :=
  forall rest u, laid D u ->
  exists u', parse_host_loop (l ++ rest) off s u = parse_host_loop rest (off + zlen l) s' u' /\
    laid D' u'.

Lemma host_runs_app l1 l2 s s1 s2 off D D1 D2 :
  host_runs l1 s s1 off D D1 -> host_runs l2 s1 s2 (off + zlen l1) D1 D2 ->
  host_runs (l1 ++ l2) s s2 off D D2.
Proof.
  intros R1 R2 rest u Hu. destruct (R1 (l2 ++ rest) u Hu) as (u1 & E1 & H1).
  destruct (R2 rest u1 H1) as (u2 & E2 & H2). exists u2. split; [|exact H2].
  by rewrite <- app_assoc, E1, E2, zlen_app, Z.add_assoc.
Qed.

Lemma host_runs_nil s off D : host_runs [] s s off D D.
Proof. intros rest u Hu. exists u. change (zlen []) with 0. by rewrite Z.add_0_r. Qed.

Lemma host_runs_skip c s s' off D :
  http_parse_host_char s c = s' -> s' <> s_http_host_dead ->
  (forall u, parse_host_step s s' off u = u) -> host_runs [c] s s' off D D.
Proof.
  intros E Hd Hst rest u Hu. exists u. split; [|done]. cbn [parse_host_loop app].
  rewrite E, decide_False, Hst by done. done.
Qed.

(** The field that the characters of a state belong to. *)
Definition host_field (s : http_host_state) : option url_field :=
  match s with
  | s_http_host | s_http_host_v6 => Some UF_HOST
  | s_http_host_port => Some UF_PORT
  | s_http_userinfo => Some UF_USERINFO
  | _ => None
  end.

Lemma host_step_more s uf D u off o n :
  host_field s = Some uf -> laid D u -> D uf = Some (o, n) -> 0 <= n -> n + 1 < 65536 ->
  laid (place uf o (n + 1) D) (parse_host_step s s off u).
Proof.
  intros Hs Hu HD Hn Hmax. destruct (laid_lookup _ _ _ _ _ Hu HD) as (_ & _ & El).
  assert (E : parse_host_step s s off u = set_len uf (n + 1) u)
    by (rewrite <- El; by destruct s; try discriminate; injection Hs as <-).
  rewrite E. eapply laid_len; [done|exact HD|lia].
Qed.

Lemma host_step_first s s' uf D u off :
  host_field s' = Some uf -> s <> s' -> laid D u ->
  (uf = UF_HOST -> exists o, D UF_HOST = Some (o, 0)) -> 0 <= off < 65536 ->
  laid (place uf off 1 D) (parse_host_step s s' off u).
Proof.
  intros Hs Hne Hu HD Hoff.
  assert (Hnew : forall f, laid (place f off 1 D)
    (set_len f (field_len (set_field f (set_len f 0 (set_off f off u))) f + 1)
       (set_field f (set_len f 0 (set_off f off u))))).
  { intros f g. pose proof (Hu g) as Hg. unfold place.
    change (has_field (set_len f _ ?v) g) with (has_field v g).
    rewrite has_set_field. change (has_field (set_len f 0 (set_off f off u)) g) with (has_field u g).
    simpl. unfold upd_field. destruct (decide (g = f)) as [->|].
    - rewrite bool_decide_eq_true_2, !decide_True by done. rewrite !u16_fits by lia. done.
    - rewrite bool_decide_eq_false_2 by done. exact Hg. }
  assert (Hhost : uf = UF_HOST -> laid (place uf off 1 D)
    (set_len UF_HOST (field_len (set_off UF_HOST off u) UF_HOST + 1) (set_off UF_HOST off u))).
  { intros ->. destruct (HD eq_refl) as [o Ho]. destruct (laid_lookup _ _ _ _ _ Hu Ho) as (_ & _ & El).
    simpl. rewrite El. eapply laid_ext; [|eapply laid_len; [eapply laid_off; [done|exact Ho|lia]| |]].
    - intros g. by rewrite place_same.
    - unfold place. by rewrite decide_True.
    - lia. }
  destruct s'; try discriminate; injection Hs as <-; unfold parse_host_step;
    rewrite bool_decide_eq_false_2 by done; (apply Hnew || by apply Hhost).
Qed.

(** A run of characters of one field: entered by its first character. *)
Lemma host_runs_field P s s' uf l off D :
  host_field s' = Some uf -> s <> s' -> word P l ->
  (forall c, class P c -> http_parse_host_char s c = s' /\ http_parse_host_char s' c = s') ->
  (uf = UF_HOST -> exists o, D UF_HOST = Some (o, 0)) -> 0 <= off -> off + zlen l < 65536 ->
  host_runs l s s' off D (place uf off (zlen l) D).
Proof.
  intros Hs Hne [Hl Hc] HP HD Hoff Hmax rest u Hu. destruct l as [|c l]; [done|].
  assert (Hd : s' <> s_http_host_dead) by (by intros ->).
  apply Forall_cons in Hc as [Hc Hcs]. rewrite zlen_cons in *. pose proof (zlen_nonneg l).
  assert (Hmore : forall l off u n, Forall (class P) l -> laid (place uf (off - n) n D) u ->
    0 <= n -> n + zlen l < 65536 -> exists u', parse_host_loop (l ++ rest) off s' u
      = parse_host_loop rest (off + zlen l) s' u' /\ laid (place uf (off - n) (n + zlen l) D) u').
  { clear -HP Hs Hd. induction l as [|c l IH]; intros off u n Hcs Hu Hn Hmax.
    - exists u. change (zlen []) with 0. by rewrite !Z.add_0_r.
    - apply Forall_cons in Hcs as [Hc Hcs]. rewrite zlen_cons in *. pose proof (zlen_nonneg l).
      cbn [parse_host_loop app]. destruct (HP c Hc) as [_ ->]. rewrite decide_False by done.
      pose proof (host_step_more s' uf _ u off (off - n) n Hs Hu) as Hst.
      destruct (IH (off + 1) (parse_host_step s' s' off u) (n + 1) Hcs) as (u' & E & Hu').
      + eapply laid_ext; [|apply Hst; [unfold place; by rewrite decide_True|lia|lia]].
        intros g. rewrite place_same. f_equal. lia.
      + lia.
      + lia.
      + exists u'. rewrite E. replace (off + 1 + zlen l) with (off + (1 + zlen l)) by lia.
        split; [done|]. replace (off - n) with (off + 1 - (n + 1)) by lia.
        replace (n + (1 + zlen l)) with (n + 1 + zlen l) by lia. done. }
  cbn [parse_host_loop app]. destruct (HP c Hc) as [-> _]. rewrite decide_False by done.
  pose proof (host_step_first s s' uf D u off Hs Hne Hu HD ltac:(lia)) as H1.
  replace off with (off + 1 - 1) in H1 at 1 by lia.
  destruct (Hmore l (off + 1) _ 1 Hcs H1) as (u' & E & Hu'); [lia|lia|].
  exists u'. rewrite E. replace (off + 1 + zlen l) with (off + (1 + zlen l)) by lia.
  split; [done|]. by replace (off + 1 - 1) with off in Hu' by lia.
Qed.

Definition userinfo_bytes (a : authority) : bytes := opt (fun t => t ++ [ #"@"]) (a_userinfo a).

Definition host_layout (off : Z) (a : authority) (D : layout) : layout :=
  let o1 := off + zlen (userinfo_bytes a) in
  let oh := if a_v6 a then o1 + 1 else o1 in
  place_opt UF_PORT (o1 + zlen (host_bytes a) + 1) (a_port a)
    (place UF_HOST oh (zlen (a_host a)) (place_opt UF_USERINFO off (a_userinfo a) D)).

Lemma host_class P s s' c :
  forallb (fun b => negb (P b) || bool_decide (http_parse_host_char s b = s')) all_bytes = true ->
  class P c -> http_parse_host_char s c = s'.
Proof.
  intros H Hc. apply (class_forall P (fun b => bool_decide (http_parse_host_char s b = s')) c H) in Hc.
  by apply bool_decide_eq_true in Hc.
Qed.

Lemma host_runs_userinfo a off D :
  authority_ok a -> 0 <= off -> off + zlen (userinfo_bytes a) < 65536 ->
  host_runs (userinfo_bytes a)
    (if has (a_userinfo a) then s_http_userinfo_start else s_http_host_start) s_http_host_start
    off D (place_opt UF_USERINFO off (a_userinfo a) D).
Proof.
  intros (Ha & _ & _) Hoff Hmax. unfold userinfo_bytes in *.
  destruct (a_userinfo a) as [t|]; [|apply host_runs_nil]. cbn [opt has] in *.
  rewrite zlen_app in Hmax. change (zlen [ #"@"]) with 1 in Hmax.
  eapply host_runs_app.
  - apply (host_runs_field IS_USERINFO_CHAR _ s_http_userinfo); try done; [|lia].
    intros c Hc. split; revert Hc; apply host_class; by vm_compute.
  - by apply host_runs_skip.
Qed.

Lemma host_runs_host a off D o :
  authority_ok a -> 0 <= off -> off + zlen (host_bytes a) < 65536 -> D UF_HOST = Some (o, 0) ->
  host_runs (host_bytes a) s_http_host_start (if a_v6 a then s_http_host_v6_end else s_http_host)
    off D (place UF_HOST (if a_v6 a then off + 1 else off) (zlen (a_host a)) D).
Proof.
  intros (_ & Ha & _) Hoff Hmax HD. unfold host_bytes in *. destruct (a_v6 a).
  - rewrite !zlen_app in Hmax. change (zlen [ _ ]) with 1 in Hmax.
    eapply host_runs_app; [by apply (host_runs_skip _ _ s_http_host_v6_start)|].
    change (zlen [ _ ]) with 1. eapply host_runs_app.
    + apply (host_runs_field IS_V6_CHAR _ s_http_host_v6); try done; [| |lia|lia].
      * intros c Hc. split; revert Hc; apply host_class; by vm_compute.
      * intros _. by exists o.
    + by apply host_runs_skip.
  - apply (host_runs_field IS_HOST_CHAR _ s_http_host); try done.
    + intros c Hc. split; revert Hc; apply host_class; by vm_compute.
    + intros _. by exists o.
Qed.

Lemma host_runs_port t s off D :
  s = s_http_host \/ s = s_http_host_v6_end -> opt_ok (word IS_NUM) t -> 0 <= off ->
  off + zlen (opt (fun t => [ #":"] ++ t) t) < 65536 ->
  host_runs (opt (fun t => [ #":"] ++ t) t) s (match t with Some _ => s_http_host_port | None => s end)
    off D (place_opt UF_PORT (off + 1) t D).
Proof.
  intros Hs Ht Hoff Hmax. destruct t as [t|]; [|apply host_runs_nil].
  cbn [opt] in *. rewrite zlen_app in Hmax. change (zlen [ _ ]) with 1 in Hmax.
  eapply host_runs_app.
  - apply (host_runs_skip _ _ s_http_host_port_start); try done. by destruct Hs as [-> | ->].
  - change (zlen [ _ ]) with 1. apply (host_runs_field IS_NUM _ s_http_host_port); try done; [|lia|lia].
    intros c Hc. split; revert Hc; apply host_class; by vm_compute.
Qed.

Lemma host_parsed a buf off u D :
  authority_ok a -> laid D u -> D UF_HOST = Some (off, zlen (authority_bytes a)) ->
  slice buf off (zlen (authority_bytes a)) = authority_bytes a ->
  0 <= off -> off + zlen (authority_bytes a) < 65536 ->
  exists u', http_parse_host buf u (has (a_userinfo a)) = (0, u') /\ laid (host_layout off a D) u'.
Proof.
  intros Ha Hu HD Hs Hoff Hmax. unfold http_parse_host.
  destruct (laid_lookup _ _ _ _ _ Hu HD) as (_ & Eo & En).
  change (field_off u UF_HOST) with (field_off u UF_HOST). rewrite Eo, En.
  replace (off + zlen (authority_bytes a) - off) with (zlen (authority_bytes a)) by lia. rewrite Hs.
  assert (H0 : laid (place UF_HOST off 0 D) (set_len UF_HOST 0 u))
    by (eapply laid_len; [done|exact HD|lia]).
  unfold authority_bytes, hostport_bytes in *. fold (userinfo_bytes a) in *.
  rewrite !zlen_app in Hmax. set (pb := opt _ (a_port a)) in *.
  pose proof (zlen_nonneg (userinfo_bytes a)). pose proof (zlen_nonneg (host_bytes a)).
  pose proof (zlen_nonneg pb).
  assert (R : host_runs (userinfo_bytes a ++ host_bytes a ++ pb)
    (if has (a_userinfo a) then s_http_userinfo_start else s_http_host_start)
    (match a_port a with Some _ => s_http_host_port
     | None => if a_v6 a then s_http_host_v6_end else s_http_host end) off
    (place UF_HOST off 0 D) (host_layout off a (place UF_HOST off 0 D))).
  { eapply host_runs_app; [apply host_runs_userinfo; (done || lia)|].
    eapply host_runs_app.
    - apply (host_runs_host a _ _ off); try done; [lia|lia|].
      unfold place_opt, place. by destruct (a_userinfo a).
    - unfold host_layout. apply host_runs_port; try lia.
      + destruct (a_v6 a); auto.
      + destruct Ha as (_ & _ & Ha). by destruct (a_port a); [apply Ha|].
      + fold pb. lia. }
  destruct (R [] _ H0) as (u' & E & Hu'). rewrite app_nil_r in E. rewrite E. cbn [parse_host_loop].
  exists u'. split.
  - by destruct (a_port a), (a_v6 a).
  - eapply laid_ext; [|exact Hu']. intros g. unfold host_layout, place_opt, place.
    destruct g, (a_port a), (a_userinfo a); done.
Qed.

(** ** The whole URL *)

Definition url_layout (w : url_parts) : layout :=
  let D := tail_layout (zlen (origin_bytes w)) w (origin_layout w) in
  match w_origin w with
  | Some (s, a) => host_layout (zlen s + 3) a D
  | None => D
  end.

(** The layout places the text [t] of a field in [buf]. *)
Definition placed (buf : bytes) (p : option (Z * Z)) (t : option bytes) : Prop :=
  match t with
  | Some t => exists pre post, buf = pre ++ t ++ post /\ p = Some (zlen pre, zlen t)
  | None => p = None
  end.

Lemma placed_at buf o t pre post :
  buf = pre ++ t ++ post -> zlen pre = o -> placed buf (Some (o, zlen t)) (Some t).
Proof. intros -> <-. by exists pre, post. Qed.

Lemma place_eq f o n D : place f o n D f = Some (o, n).
Proof. unfold place. by rewrite decide_True. Qed.
Lemma place_ne f g o n D : g <> f -> place f o n D g = D g.
Proof. intros. unfold place. by rewrite decide_False. Qed.
Lemma place_opt_eq f o t D :
  place_opt f o t D f = match t with Some t => Some (o, zlen t) | None => D f end.
Proof. destruct t; [apply place_eq|done]. Qed.
Lemma place_opt_ne f g o t D : g <> f -> place_opt f o t D g = D g.
Proof. intros. destruct t; [by apply place_ne|done]. Qed.
Lemma place_word_eq f o t D :
  place_word f o t D f = match t with [] => D f | _ => Some (o, zlen t) end.
Proof. destruct t; [done|apply place_eq]. Qed.
Lemma place_word_ne f g o t D : g <> f -> place_word f o t D g = D g.
Proof. intros. destruct t; [done|by apply place_ne]. Qed.

Create Rewrite HintDb layout.
#[local] Hint Rewrite place_eq place_opt_eq place_word_eq : layout.
#[local] Hint Rewrite place_ne place_opt_ne place_word_ne using done : layout.

Ltac look := autorewrite with layout.

(** The lengths of what comes before a field. *)
Ltac lens := rewrite ?zlen_app; cbn [opt]; rewrite ?zlen_app; change (zlen (str "://")) with 3;
  repeat match goal with |- context [zlen [?c]] => change (zlen [c]) with 1 end; try lia.

Lemma tail_placed w D f :
  f = UF_PATH \/ f = UF_QUERY \/ f = UF_FRAGMENT -> D f = None ->
  placed (url_bytes w) (tail_layout (zlen (origin_bytes w)) w D f) (part w f).
Proof.
  intros Hf HD. unfold url_bytes, tail_bytes. fold (origin_bytes w).
  set (pb := origin_bytes w). set (qb := opt _ (w_query w)). unfold tail_layout. fold qb.
  destruct Hf as [-> | [-> | ->]]; unfold part; look.
  - destruct (w_path w) eqn:E; [done|]. eapply placed_at; reflexivity.
  - destruct (w_query w) as [t|]; subst qb; look; [|by destruct (w_path w)].
    apply (placed_at _ _ _ (pb ++ w_path w ++ [ #"?"])
      (opt (fun t => [ #"#"] ++ t) (w_fragment w))); [by rewrite <- !app_assoc|lens].
  - destruct (w_fragment w) as [t|]; [|by rewrite HD].
    apply (placed_at _ _ _ (pb ++ w_path w ++ qb ++ [ #"#"]) []); [|lens].
    cbn [opt]. by rewrite app_nil_r, <- !app_assoc.
Qed.

Lemma host_layout_other off a D g :
  g <> UF_PORT -> g <> UF_HOST -> g <> UF_USERINFO -> host_layout off a D g = D g.
Proof. intros. unfold host_layout. by rewrite place_opt_ne, place_ne, place_opt_ne. Qed.

Lemma tail_layout_other off w D g :
  g <> UF_PATH -> g <> UF_QUERY -> g <> UF_FRAGMENT -> tail_layout off w D g = D g.
Proof. intros. unfold tail_layout. by rewrite !place_opt_ne, place_word_ne. Qed.

(** The fields of the authority. *)
Lemma origin_placed w s a f :
  w_origin w = Some (s, a) -> f = UF_SCHEMA \/ f = UF_HOST \/ f = UF_PORT \/ f = UF_USERINFO ->
  placed (url_bytes w) (host_layout (zlen s + 3) a (origin_layout w) f) (part w f).
Proof.
  intros Eo Hf. unfold url_bytes, origin_layout, part. rewrite Eo. cbn [opt].
  unfold authority_bytes, hostport_bytes. fold (userinfo_bytes a). set (tb := tail_bytes w).
  set (ob := opt _ (a_port a)). unfold host_layout.
  destruct Hf as [-> | [-> | [-> | ->]]]; look; cbn [option_map fst snd].
  - apply (placed_at _ _ _ [] (str "://" ++ (userinfo_bytes a ++ host_bytes a ++ ob) ++ tb)); [|done].
    by rewrite <- !app_assoc.
  - apply (placed_at _ _ _ (s ++ str "://" ++ userinfo_bytes a ++ if a_v6 a then [ #"["] else [])
      ((if a_v6 a then [ #"]"] else []) ++ ob ++ tb)); unfold host_bytes.
    + destruct (a_v6 a); by rewrite <- !app_assoc.
    + destruct (a_v6 a); lens; change (zlen []) with 0; lia.
  - destruct (a_port a) as [t|]; look; [|done]. subst ob.
    apply (placed_at _ _ _ (s ++ str "://" ++ userinfo_bytes a ++ host_bytes a ++ [ #":"]) tb);
      [cbn [opt]; by rewrite <- !app_assoc|lens].
  - unfold userinfo_bytes. destruct (a_userinfo a) as [t|]; look; [|done].
    apply (placed_at _ _ _ (s ++ str "://") ([ #"@"] ++ host_bytes a ++ ob ++ tb)); [|lens].
    cbn [opt]. by rewrite <- !app_assoc.
Qed.

Lemma url_placed w f : placed (url_bytes w) (url_layout w f) (part w f).
Proof.
  unfold url_layout. destruct (decide (f = UF_PATH \/ f = UF_QUERY \/ f = UF_FRAGMENT)) as [Hf|Hf].
  - assert (E : origin_layout w f = None).
    { unfold origin_layout. destruct (w_origin w) as [[s a]|]; [|done].
      by destruct Hf as [-> | [-> | ->]]. }
    destruct (w_origin w) as [[s a]|]; [rewrite host_layout_other|]; try (by apply tail_placed);
      by destruct Hf as [-> | [-> | ->]].
  - destruct (w_origin w) as [[s a]|] eqn:Eo.
    + assert (E : forall D D' g, D UF_SCHEMA = D' UF_SCHEMA -> D UF_PORT = D' UF_PORT ->
        D UF_USERINFO = D' UF_USERINFO -> g = UF_SCHEMA \/ g = UF_HOST \/ g = UF_PORT \/ g = UF_USERINFO ->
        host_layout (zlen s + 3) a D g = host_layout (zlen s + 3) a D' g).
      { intros D D' g H1 H2 H3 Hg. unfold host_layout. destruct Hg as [-> | [-> | [-> | ->]]]; look;
          by rewrite ?H1, ?H2, ?H3. }
      rewrite (E _ (origin_layout w)) by (rewrite ?tail_layout_other; (done || destruct f; tauto)).
      apply origin_placed; [done|]. destruct f; tauto.
    + rewrite tail_layout_other by tauto. unfold origin_layout, part. rewrite Eo.
      destruct f; try done; tauto.
Qed.

(** ** The port *)

(** The digits that a list starts with. *)
Fixpoint digits (l : bytes) : bytes :=
  match l with
  | c :: l => if IS_NUM c then c :: digits l else []
  | [] => []
  end.

Lemma dec_value_mono l : forall acc, 0 <= acc -> Forall (class IS_NUM) l -> acc <= dec_value acc l.
Proof.
  induction l as [|c l IH]; intros acc Ha Hl; [done|]. apply Forall_cons in Hl as [[_ Hc] Hl].
  unfold IS_NUM in Hc. apply andb_true_iff in Hc as [Hc _]. apply Z.leb_le in Hc.
  simpl. specialize (IH (acc * 10 + (c - #"0")) ltac:(lia) Hl). lia.
Qed.

Lemma value_digits t l : forall acc,
  Forall (class IS_NUM) t -> 0 <= acc -> dec_value acc t <= ULLONG_MAX ->
  digits_value (t ++ l) acc = digits_value l (dec_value acc t).
Proof.
  induction t as [|c t IH]; intros acc Ht Ha Hm; [done|]. apply Forall_cons in Ht as [[Hb Hc] Ht].
  simpl. rewrite Hc. unfold IS_NUM in Hc. apply andb_true_iff in Hc as [Hc _]. apply Z.leb_le in Hc.
  pose proof (dec_value_mono t (acc * 10 + (c - #"0")) ltac:(lia) Ht).
  simpl in Hm. rewrite Z.min_r by lia. apply IH; [done|lia|done].
Qed.

Lemma digits_class l : Forall is_byte l -> Forall (class IS_NUM) (digits l).
Proof.
  induction l as [|c l IH]; intros Hl; [constructor|]. apply Forall_cons in Hl as [Hc Hl].
  simpl. destruct (IS_NUM c) eqn:E; constructor; auto. by split.
Qed.

Lemma value_stops l acc :
  Forall is_byte l -> 0 <= acc -> dec_value acc (digits l) <= ULLONG_MAX ->
  digits_value l acc = dec_value acc (digits l).
Proof.
  intros Hl Ha Hm. assert (E : exists r, l = digits l ++ r /\ forall v, digits_value r v = v).
  { clear. induction l as [|c l (r & E & Hr)]; [by exists []|]. simpl.
    destruct (IS_NUM c) eqn:Ec; [|exists (c :: l); split; [done|intros v; simpl; by rewrite Ec]].
    exists r. split; [by rewrite E at 1|done]. }
  destruct E as (r & E & Hr). rewrite E at 1. by rewrite value_digits, Hr by (auto using digits_class).
Qed.

(** A string that starts with a digit has neither blanks nor a sign. *)
Lemma strtoul_number c l : IS_NUM c = true -> digits_value (c :: l) 0 <= ULLONG_MAX ->
  strtoul (c :: l) = digits_value (c :: l) 0.
Proof.
  intros Hc Hm. unfold strtoul.
  assert (Hr : is_space c = false /\ c =? #"-" = false /\ c =? #"+" = false).
  { unfold IS_NUM in Hc. apply andb_true_iff in Hc as [H1 H2]. apply Z.leb_le in H1, H2.
    change #"0" with 48 in *. change #"9" with 57 in *. change #"-" with 45. change #"+" with 43.
    unfold is_space. rewrite (proj2 (Z.eqb_neq c 32)), (proj2 (Z.leb_gt c 13)), andb_false_r by lia.
    rewrite (proj2 (Z.eqb_neq c 45)), (proj2 (Z.eqb_neq c 43)) by lia. done. }
  destruct Hr as (E1 & E2 & E3). cbn [skip_spaces]. rewrite E1, E2, E3. by rewrite (proj2 (Z.ltb_ge _ _)) by done.
Qed.

(** What [strtoul] reads from the port on: its digits, and when the URL ends
    with the port, the digits in the memory behind the buffer. *)
Definition spill (w : url_parts) (after : bytes) : bytes :=
  if decide (tail_bytes w = []) then digits after else [].

Definition port_of (w : url_parts) : option bytes :=
  match w_origin w with Some (_, a) => a_port a | None => None end.

Lemma tail_no_digit w l : parts_ok w -> tail_bytes w <> [] -> digits (tail_bytes w ++ l) = [].
Proof.
  intros (_ & Hp & _ & _ & _ & _) Hne. unfold tail_bytes in *. destruct (w_path w) as [|c p].
  - by destruct (w_query w), (w_fragment w).
  - destruct Hp as [-> _]. done.
Qed.

Lemma read_port w after t pre post :
  parts_ok w -> port_of w = Some t -> url_bytes w = pre ++ t ++ post -> zlen pre + zlen t
    = zlen (url_bytes w) - zlen (tail_bytes w) -> Forall is_byte after ->
  dec_value 0 (t ++ spill w after) <= ULLONG_MAX ->
  strtoul (drop (Z.to_nat (zlen pre)) (url_bytes w ++ after)) = dec_value 0 (t ++ spill w after).
Proof.
  intros Hw Ht E Hlen Haf Hm.
  assert (Hd : word IS_NUM t).
  { unfold port_of in Ht. destruct Hw as (Ho & _). destruct (w_origin w) as [[s a]|]; [|done].
    destruct Ho as (_ & _ & _ & Hp). rewrite Ht in Hp. apply Hp. }
  destruct Hd as [Hne Hd].
  assert (Hpost : post = tail_bytes w).
  { assert (L : length post = length (tail_bytes w)).
    { rewrite E, !zlen_app in Hlen. unfold zlen in Hlen. lia. }
    unfold url_bytes in E. rewrite app_assoc in E. apply app_inj_2 in E as [_ E]; [done|].
    by symmetry. }
  subst post. unfold dec_value in Hm |- *. rewrite fold_left_app in Hm |- *.
  fold (dec_value 0 t) in Hm |- *. fold (dec_value (dec_value 0 t) (spill w after)) in Hm |- *.
  pose proof (dec_value_mono t 0 ltac:(lia) Hd) as H0.
  assert (Hs : Forall (class IS_NUM) (spill w after)).
  { unfold spill. case_decide; [by apply digits_class|constructor]. }
  pose proof (dec_value_mono _ (dec_value 0 t) H0 Hs).
  rewrite E, <- !app_assoc. unfold zlen. rewrite Nat2Z.id, drop_app_length.
  assert (G : digits_value (t ++ tail_bytes w ++ after) 0 = dec_value (dec_value 0 t) (spill w after)).
  { rewrite value_digits by (done || lia). unfold spill in *. case_decide as Etail.
    - rewrite Etail. simpl app. by apply value_stops.
    - pose proof (tail_no_digit w after Hw Etail) as Hnd.
      assert (G : forall l v, digits l = [] -> digits_value l v = v).
      { intros [|c l] v; simpl; [done|]. by destruct (IS_NUM c). }
      by apply G. }
  destruct t as [|c t]; [done|]. cbn [app] in *. rewrite strtoul_number; [exact G| |by rewrite G].
  apply Forall_cons in Hd as [[_ Hc] _]. exact Hc.
Qed.

(** ** The theorems *)

Lemma loop_port l : forall off s old fa u r u',
  parse_url_loop l off s old fa u = Some (r, u') -> port u' = port u.
Proof.
  induction l as [|c l IH]; intros off s old fa u r u'; cbn [parse_url_loop]; [by intros [= _ <-]|].
  destruct (classify _) as [| |f|]; [by intros [= _ <-]|by apply IH| |done].
  case_decide; intros E; by apply IH in E.
Qed.

Lemma host_loop_port l : forall off s u, port (snd (parse_host_loop l off s u)) = port u.
Proof.
  induction l as [|c l IH]; intros off s u; cbn [parse_host_loop]; [done|].
  case_decide; [done|]. rewrite IH. unfold parse_host_step.
  destruct (http_parse_host_char s c); by repeat case_bool_decide.
Qed.

Lemma parse_host_port buf u fa : port (snd (http_parse_host buf u fa)) = port u.
Proof.
  unfold http_parse_host.
  match goal with |- context [parse_host_loop ?l ?o ?s ?v] =>
    pose proof (host_loop_port l o s v) as H; destruct (parse_host_loop l o s v) as [[s'|] u'] end;
    [destruct (host_final s')|]; exact H.
Qed.

Lemma laid_has D u f : laid D u -> has_field u f = has (D f).
Proof. intros H. specialize (H f). by destruct (D f) as [[]|]; [destruct H|]. Qed.

Lemma placed_part w u f :
  laid (url_layout w) u ->
  match part w f with
  | Some t => has_field u f = true /\ url_text (url_bytes w) u f = t
  | None => has_field u f = false
  end.
Proof.
  intros H. specialize (H f). pose proof (url_placed w f) as P. unfold placed in P.
  destruct (part w f) as [t|]; [|by rewrite P in H].
  destruct P as (pre & post & E & P). rewrite P in H. destruct H as (H1 & H2 & H3).
  split; [done|]. unfold url_text. rewrite H2, H3, E.
  rewrite slice_app_r by lia. rewrite Z.sub_diag, slice_app_l by lia. apply slice_all.
Qed.

Definition port_value (w : url_parts) (after : bytes) : Z :=
  match port_of w with Some t => dec_value 0 (t ++ spill w after) | None => 0 end.

(** The parts before the port is read. *)
Lemma url_split w after u0 :
  parts_ok w -> zlen (url_bytes w) < 65536 ->
  exists u, laid (url_layout w) u /\ port u = 0 /\
    http_parser_parse_url (url_bytes w) after false u0 =
    if has (port_of w) then
      let v := strtoul (drop (Z.to_nat (field_off u UF_PORT)) (url_bytes w ++ after)) in
      if 0xffff <? v then Some (1, u) else Some (0, set_port v u)
    else Some (0, u).
Proof.
  intros Hw Hmax. destruct (runs_url w Hw Hmax) as (s' & old' & R).
  destruct (R [] (mk_url 0 0 (field_off u0) (field_len u0))) as (u1 & E1 & H1); [done|].
  rewrite app_nil_r in E1. cbn [parse_url_loop] in E1. unfold http_parser_parse_url.
  cbn beta zeta. rewrite E1. pose proof (loop_port _ _ _ _ _ _ _ _ E1) as P1. simpl in P1.
  assert (Hlk : forall f, f = UF_SCHEMA \/ f = UF_HOST -> has_field u1 f = has (w_origin w)).
  { intros f Hf. rewrite (laid_has _ _ f H1), tail_layout_other by (by destruct Hf as [-> | ->]).
    unfold origin_layout, place. destruct (w_origin w) as [[s a]|]; [|done].
    by destruct Hf as [-> | ->]. }
  rewrite !Hlk by auto. unfold url_layout, port_of, found_at.
  destruct (w_origin w) as [[s a]|] eqn:Eo; cbn [has negb andb].
  - destruct (host_parsed a (url_bytes w) (zlen s + 3) u1
      (tail_layout (zlen (origin_bytes w)) w (origin_layout w))) as (u2 & E2 & H2); try done.
    + destruct Hw as (Ho & _). rewrite Eo in Ho. apply Ho.
    + rewrite tail_layout_other by done. unfold origin_layout. by rewrite Eo, place_eq.
    + unfold url_bytes. rewrite Eo. cbn [opt]. rewrite <- !app_assoc.
      rewrite (app_assoc s), slice_app_r by (rewrite zlen_app; change (zlen (str "://")) with 3; lia).
      rewrite zlen_app. change (zlen (str "://")) with 3. rewrite Z.sub_diag, slice_app_l by lia.
      apply slice_all.
    + pose proof (zlen_nonneg s). lia.
    + revert Hmax. unfold url_bytes. rewrite Eo. cbn [opt]. rewrite !zlen_app.
      change (zlen (str "://")) with 3. pose proof (zlen_nonneg (tail_bytes w)). lia.
    + rewrite E2. cbn [negb]. change (0 =? 0) with true. cbn [negb andb].
      exists u2. split; [exact H2|]. split.
      { pose proof (parse_host_port (url_bytes w) u1 (has (a_userinfo a))) as P2.
        rewrite E2 in P2. simpl in P2. by rewrite P2. }
      rewrite (laid_has _ _ UF_PORT H2). unfold host_layout. rewrite place_opt_eq.
      destruct (a_port a); cbn [has]; [done|]. rewrite place_ne, place_opt_ne by done.
      rewrite tail_layout_other by done. unfold origin_layout. by rewrite Eo, !place_ne by done.
  - exists u1. change (0 =? 0) with true. cbn [negb andb]. split; [exact H1|]. split; [exact P1|].
    rewrite (laid_has _ _ UF_PORT H1), tail_layout_other by done. unfold origin_layout. by rewrite Eo.
Qed.

Lemma url_parsed w after u0 :
  parts_ok w -> zlen (url_bytes w) < 65536 -> Forall is_byte after -> port_value w after <= 65535 ->
  exists u, http_parser_parse_url (url_bytes w) after false u0 = Some (0, u) /\
    (forall f, match part w f with
               | Some t => has_field u f = true /\ url_text (url_bytes w) u f = t
               | None => has_field u f = false
               end) /\ port u = port_value w after.
Proof.
  intros Hw Hmax Haf Hport. destruct (url_split w after u0 Hw Hmax) as (u & Hu & Hp & E).
  rewrite E. clear E. unfold port_value in *. destruct (port_of w) as [t|] eqn:Et; cbn [has].
  2: { exists u. split_and!; [done| |done]. intros f. by apply placed_part. }
  pose proof (url_placed w UF_PORT) as P. unfold port_of in Et. unfold part in P.
  destruct (w_origin w) as [[s a]|] eqn:Eo; [|done]. rewrite Et in P.
  destruct P as (pre & post & Eb & Epl).
  destruct (laid_lookup _ _ _ _ _ Hu Epl) as (_ & -> & _).
  assert (Hv : strtoul (drop (Z.to_nat (zlen pre)) (url_bytes w ++ after))
    = dec_value 0 (t ++ spill w after)).
  { apply (read_port w after t pre post); try done.
    - unfold port_of. by rewrite Eo.
    - assert (Epre : zlen pre = zlen s + 3 + zlen (userinfo_bytes a) + zlen (host_bytes a) + 1).
      { unfold url_layout in Epl. rewrite Eo in Epl. unfold host_layout in Epl.
        rewrite place_opt_eq, Et in Epl. by injection Epl as <-. }
      rewrite Epre. unfold url_bytes. rewrite Eo. cbn [opt]. unfold authority_bytes, hostport_bytes.
      rewrite Et. cbn [opt]. fold (userinfo_bytes a). rewrite !zlen_app.
      change (zlen (str "://")) with 3. change (zlen [ _ ]) with 1. lia.
    - unfold ULLONG_MAX. lia. }
  rewrite Hv. cbn beta zeta. rewrite (proj2 (Z.ltb_ge _ _)) by lia.
  assert (H0 : 0 <= dec_value 0 (t ++ spill w after)).
  { destruct Hw as (Ho & _). rewrite Eo in Ho. destruct Ho as (_ & _ & _ & Ho). rewrite Et in Ho.
    apply dec_value_mono; [done|]. apply Forall_app. split; [apply Ho|].
    unfold spill. case_decide; [by apply digits_class|constructor]. }
  eexists. split; [done|]. split; [|simpl; apply u16_fits; lia].
  intros f. by apply (placed_part w u f).
Qed.

(** C31: a URL is read back exactly. For every URL of less than 65536 bytes put together from a
    scheme, user information, a host name or an IPv6 address, a port, a path, a query and
    a fragment (or from a path on), http_parser_parse_url succeeds, sets exactly
    the fields that are present, and each field's offset and length select
    exactly its text; the port is the number its digits write: provided that, when the URL
    ends with its port, the memory behind the buffer does not go on with digits
    ([port_read_behind_buffer] says what happens then). *)
Theorem url_roundtrip w after u0 :
  parts_ok w -> zlen (url_bytes w) < 65536 -> Forall is_byte after -> spill w after = [] ->
  exists u, http_parser_parse_url (url_bytes w) after false u0 = Some (0, u) /\
    (forall f, match part w f with
               | Some t => has_field u f = true /\ url_text (url_bytes w) u f = t
               | None => has_field u f = false
               end) /\
    port u = match port_of w with Some t => dec_value 0 t | None => 0 end.
Proof.
  intros Hw Hmax Haf Hs.
  assert (E : port_value w after = match port_of w with Some t => dec_value 0 t | None => 0 end).
  { unfold port_value. rewrite Hs. by destruct (port_of w); rewrite ?app_nil_r. }
  rewrite <- E. apply url_parsed; try done. rewrite E. unfold port_of.
  destruct Hw as (Ho & _). destruct (w_origin w) as [[s a]|]; [|lia].
  destruct Ho as (_ & _ & _ & Ho). destruct (a_port a); [apply Ho|lia].
Qed.

Definition demo_parts : url_parts :=
  mk_parts (Some (str "https", mk_authority (Some (str "me:pw")) true (str "::1") (Some (str "8443"))))
    (str "/a%20b") (Some (str "q=1&r=?")) (Some (str "top#")).

Lemma url_roundtrip_witness :
  let buf := str "https://me:pw@[::1]:8443/a%20b?q=1&r=?#top#" in
  exists u, http_parser_parse_url buf (str "9") false url0 = Some (0, u) /\
    url_text buf u UF_HOST = str "::1" /\ url_text buf u UF_FRAGMENT = str "top#" /\ port u = 8443.
Proof.
  destruct (url_roundtrip demo_parts (str "9") url0) as (u & E & F & P).
  - repeat split; try done; repeat constructor; vm_compute; congruence.
  - by vm_compute.
  - repeat constructor; vm_compute; congruence.
  - by vm_compute.
  - exists u. split; [exact E|]. split; [apply (F UF_HOST)|]. split; [apply (F UF_FRAGMENT)|exact P].
Defined.

(** When a URL ends with its port, the port number is read with strtoul,
    which is not told where the buffer ends: digits that happen to follow in
    memory are taken for digits of the port, although the port field itself is
    the text inside the buffer. *)
Theorem port_read_behind_buffer w after u0 t :
  parts_ok w -> zlen (url_bytes w) < 65536 -> Forall is_byte after ->
  port_of w = Some t -> tail_bytes w = [] -> dec_value 0 (t ++ digits after) <= 65535 ->
  exists u, http_parser_parse_url (url_bytes w) after false u0 = Some (0, u) /\
    url_text (url_bytes w) u UF_PORT = t /\ port u = dec_value 0 (t ++ digits after).
Proof.
  intros Hw Hmax Haf Ht Htail Hv.
  assert (E : port_value w after = dec_value 0 (t ++ digits after)).
  { unfold port_value, spill. by rewrite Ht, decide_True. }
  destruct (url_parsed w after u0) as (u & Eu & F & P); try done; [by rewrite E|].
  exists u. rewrite <- E. split_and!; [done| |done]. specialize (F UF_PORT). unfold part in F.
  unfold port_of in Ht. destruct (w_origin w) as [[s a]|]; [|done]. rewrite Ht in F. apply F.
Qed.

Lemma port_read_behind_buffer_witness :
  exists u, http_parser_parse_url (str "http://h:8") (str "0/") false url0 = Some (0, u) /\
    url_text (str "http://h:8") u UF_PORT = str "8" /\ port u = 80.
Proof.
  destruct (port_read_behind_buffer
    (mk_parts (Some (str "http", mk_authority None false (str "h") (Some (str "8")))) [] None None)
    (str "0/") url0 (str "8")) as (u & E & F & P).
  - repeat split; try done; repeat constructor; vm_compute; congruence.
  - by vm_compute.
  - repeat constructor; vm_compute; congruence.
  - done.
  - done.
  - vm_compute. congruence.
  - exists u. auto.
Defined.
