(* ===== verification/HttpUrlSafe.v ===== *)
(** * The URL parser on arbitrary input

    [http_parser_parse_url] fails no assertion, and the fields that it reports lie
    inside the buffer. *)

From S2P Require Import Prelude.
From S2P Require Import Words.
From S2P Require Import HttpChars.
From S2P Require Import HttpUrl.
From S2P Require Import HttpUrlFields.

Lemma classify_no_assert s c : classify (parse_url_char s c) <> UrlAssert.
Proof. unfold parse_url_char, url_server_char. destruct s; by repeat case_match. Qed.

(** A field lies before offset [k]; every field that is set lies before the
    offset that [b] gives for it. *)
Definition field_inside (u : http_parser_url) (k : Z) (f : url_field) : Prop :=
  0 <= field_off u f /\ 0 <= field_len u f /\ field_off u f + field_len u f <= k.

Definition inside (u : http_parser_url) (b : url_field -> Z) : Prop :=
  forall f, has_field u f = true -> field_inside u (b f) f.

Lemma inside_mono u b b' : inside u b -> (forall f, b f <= b' f) -> inside u b'.
Proof. intros H Hb f Hf. destruct (H f Hf) as (? & ? & ?). specialize (Hb f). unfold field_inside. lia. Qed.

Lemma has_set_len u f n g : has_field (set_len f n u) g = has_field u g.
Proof. done. Qed.

(** A field is started at offset [k], with no character or with one. *)
Lemma inside_start u f k n b b' :
  inside u b -> (forall g, b g <= b' g) -> 0 <= k < 65535 -> 0 <= n <= 1 -> k + n <= b' f ->
  inside (set_field f (set_len f n (set_off f k u))) b'.
Proof.
  intros H Hb Hk Hn Hbf g Hg. rewrite has_set_field in Hg. unfold field_inside. simpl. unfold upd_field.
  destruct (decide (g = f)) as [->|Hne]; [rewrite !u16_fits by lia; lia|].
  rewrite bool_decide_eq_false_2 in Hg by done. destruct (H g Hg) as (? & ? & ?). specialize (Hb g). lia.
Qed.

(** A field gets one character more. *)
Lemma inside_more u f b b' :
  inside u b -> has_field u f = true -> (forall g, b g <= b' g) -> b f + 1 <= b' f -> b f < 65535 ->
  inside (set_len f (field_len u f + 1) u) b'.
Proof.
  intros H Hf Hb Hbf Hmax g Hg. rewrite has_set_len in Hg. destruct (H g Hg) as (? & ? & ?).
  specialize (Hb g). unfold field_inside. simpl. unfold upd_field.
  destruct (decide (g = f)) as [->|Hne]; [|lia]. rewrite u16_fits by lia. lia.
Qed.

Definition host_part (f : url_field) : bool :=
  match f with UF_HOST | UF_PORT | UF_USERINFO => true | _ => false end.

Definition no_host_part (u : http_parser_url) : Prop :=
  has_field u UF_PORT = false /\ has_field u UF_USERINFO = false.

Lemma loop_inside l : forall off s old fa u,
  inside u (fun _ => off) -> no_host_part u -> (forall f, old = Some f -> has_field u f = true) ->
  0 <= off -> off + zlen l < 65536 ->
  exists r u', parse_url_loop l off s old fa u = Some (r, u') /\ inside u' (fun _ => off + zlen l) /\ no_host_part u'.
Proof.
  induction l as [|c l IH]; intros off s old fa u Hu Hno Hold Hoff Hmax; cbn [parse_url_loop].
  - change (zlen []) with 0. rewrite Z.add_0_r. by do 2 eexists.
  - rewrite zlen_cons in *. pose proof (zlen_nonneg l).
    replace (off + (1 + zlen l)) with (off + 1 + zlen l) by lia.
    destruct (classify (parse_url_char s c)) as [| |f|] eqn:E.
    + do 2 eexists. split; [done|]. split; [|done]. eapply inside_mono; [exact Hu|simpl; lia].
    + apply IH; try done; try lia. eapply inside_mono; [exact Hu|simpl; lia].
    + assert (Hf : f <> UF_PORT /\ f <> UF_USERINFO).
      { clear -E. by destruct (parse_url_char s c); try discriminate; injection E as <-. }
      destruct Hf as [Hf1 Hf2]. case_decide as Ed.
      * apply IH; try done; try lia.
        eapply inside_more; [exact Hu|by apply Hold|simpl; lia..].
      * apply IH; try lia.
        -- eapply inside_start; [exact Hu|simpl; lia|lia|lia|lia].
        -- destruct Hno. unfold no_host_part. rewrite !has_set_field.
           by rewrite !bool_decide_eq_false_2.
        -- intros g [= <-]. rewrite has_set_field. by rewrite bool_decide_eq_true_2.
    + by destruct (classify_no_assert s c).
Qed.

(** *** The host

    Before the host proper its length is 0; then it grows with the position. *)
Definition before_host (s : http_host_state) : bool :=
  match s with
  | s_http_userinfo_start | s_http_userinfo | s_http_host_start | s_http_host_v6_start => true
  | _ => false
  end.

(** The fields of the authority lie before the position [k], the others before
    [n]. *)
Definition host_bound (n k : Z) (f : url_field) : Z := if host_part f then k else n.

Definition host_inv (n : Z) (s : http_host_state) (u : http_parser_url) (k : Z) : Prop :=
  inside u (host_bound n k) /\ has_field u UF_HOST = true /\
  (before_host s = true -> field_len u UF_HOST = 0) /\
  (s = s_http_host_port -> has_field u UF_PORT = true) /\
  (s = s_http_userinfo -> has_field u UF_USERINFO = true).

(** The moves of the automaton: what is entered from where. *)
Lemma host_char_moves s c :
  let n := http_parse_host_char s c in
  (before_host n = true -> before_host s = true) /\
  (n = s_http_host \/ n = s_http_host_v6 -> n <> s -> before_host s = true).
Proof. unfold http_parse_host_char. destruct s; repeat case_match; simpl; intuition congruence. Qed.

Lemma host_bound_le n k f : host_bound n k f <= host_bound n (k + 1) f.
Proof. unfold host_bound. destruct (host_part f); lia. Qed.

Lemma host_enter n u k s :
  inside u (host_bound n k) -> has_field u UF_HOST = true -> field_len u UF_HOST = 0 ->
  0 <= k < 65535 -> s = s_http_host \/ s = s_http_host_v6 ->
  host_inv n s (set_len UF_HOST (field_len (set_off UF_HOST k u) UF_HOST + 1) (set_off UF_HOST k u)) (k + 1).
Proof.
  intros Hu Hh H0 Hk Hs.
  split; [|split; [exact Hh|destruct Hs as [-> | ->]; split_and!; done]]. intros g Hg.
  rewrite has_set_len in Hg. change (has_field (set_off UF_HOST k u) g) with (has_field u g) in Hg.
  destruct (Hu g Hg) as (? & ? & ?). pose proof (host_bound_le n k g).
  unfold field_inside. simpl. unfold upd_field.
  destruct (decide (g = UF_HOST)) as [->|]; [|lia]. rewrite H0, !u16_fits by lia.
  unfold host_bound in *. simpl in *. lia.
Qed.

Lemma has_begin u f k n g :
  has_field (set_len f n (set_field f (set_len f 0 (set_off f k u)))) g
  = bool_decide (g = f) || has_field u g.
Proof. rewrite has_set_len, has_set_field. done. Qed.

(** A port or a user information starts with its first character. *)
Lemma inside_begin n u k f :
  inside u (host_bound n k) -> 0 <= k < 65535 -> host_part f = true ->
  let v := set_field f (set_len f 0 (set_off f k u)) in
  inside (set_len f (field_len v f + 1) v) (host_bound n (k + 1)).
Proof.
  intros Hu Hk Hf v. eapply (inside_more v f (host_bound n k)).
  - unfold v. eapply inside_start; [exact Hu|done|lia|lia|]. unfold host_bound. rewrite Hf. lia.
  - unfold v. rewrite has_set_field. by rewrite bool_decide_eq_true_2.
  - apply host_bound_le.
  - unfold host_bound. rewrite Hf. lia.
  - unfold host_bound. rewrite Hf. lia.
Qed.

Lemma host_step_inv n s c u k :
  host_inv n s u k -> 0 <= k < 65535 -> http_parse_host_char s c <> s_http_host_dead ->
  host_inv n (http_parse_host_char s c) (parse_host_step s (http_parse_host_char s c) k u) (k + 1).
Proof.
  intros (Hu & Hh & H0 & Hp & Hui) Hk Hd. destruct (host_char_moves s c) as [M1 M2].
  assert (Hmono : inside u (host_bound n (k + 1))) by (eapply inside_mono; [exact Hu|apply host_bound_le]).
  assert (Hmore : forall f, host_part f = true -> has_field u f = true ->
    inside (set_len f (field_len u f + 1) u) (host_bound n (k + 1))).
  { intros f Hf Hset. eapply inside_more; [exact Hu|done|apply host_bound_le| |];
      unfold host_bound; rewrite Hf; lia. }
  pose proof (Hmore UF_HOST eq_refl Hh) as Hhost.
  pose proof (inside_begin n u k UF_PORT Hu Hk eq_refl) as Bport.
  pose proof (inside_begin n u k UF_USERINFO Hu Hk eq_refl) as Buser.
  destruct (http_parse_host_char s c) eqn:E; try done; unfold parse_host_step;
    try (case_bool_decide as Eb; [subst s|]);
    try (by split; [exact Hmono|split; [done|split; [|done]]]; auto);
    try (by split; [exact Hhost|split; [done|split; [|done]]]);
    try (by apply host_enter; auto).
  - split; [apply Hmore; auto|]. split_and!; try done; auto; intros _; by apply H0, M1.
  - split; [exact Buser|]. rewrite !has_begin, Hh, !orb_true_r.
    split_and!; try done; auto; intros _; by apply H0, M1.
  - split; [apply Hmore; auto|]. split_and!; try done; auto.
  - split; [exact Bport|]. rewrite !has_begin, Hh, !orb_true_r. split_and!; done.
Qed.

Lemma host_loop_inside n l : forall k s u,
  host_inv n s u k -> 0 <= k -> k + zlen l < 65536 ->
  inside (snd (parse_host_loop l k s u)) (host_bound n (k + zlen l)).
Proof.
  induction l as [|c l IH]; intros k s u Hu Hk Hmax; cbn [parse_host_loop].
  - change (zlen []) with 0. rewrite Z.add_0_r. apply Hu.
  - rewrite zlen_cons in *. pose proof (zlen_nonneg l). case_decide as Ed; cbn [snd].
    + eapply inside_mono; [apply Hu|]. intros f. unfold host_bound. destruct (host_part f); lia.
    + replace (k + (1 + zlen l)) with (k + 1 + zlen l) by lia.
      apply IH; [apply host_step_inv; [done|lia|done]|lia|lia].
Qed.

Lemma parse_host_inside buf u fa :
  inside u (fun _ => zlen buf) -> no_host_part u -> has_field u UF_HOST = true -> zlen buf < 65536 ->
  inside (snd (http_parse_host buf u fa)) (fun _ => zlen buf).
Proof.
  intros Hu [Hp Hui] Hh Hmax. destruct (Hu UF_HOST Hh) as (H1 & H2 & H3). unfold http_parse_host.
  set (o := field_off u UF_HOST) in *. set (n := field_len u UF_HOST) in *.
  replace (o + n - o) with n by lia.
  assert (Hlen : zlen (slice buf o n) = n) by (by apply zlen_slice).
  set (s := if fa then s_http_userinfo_start else s_http_host_start).
  assert (Hinv : host_inv (zlen buf) s (set_len UF_HOST 0 u) o).
  { split; [|split; [exact Hh|split; [done|by destruct fa]]]. intros g Hg. rewrite has_set_len in Hg.
    destruct (Hu g Hg) as (? & ? & ?). unfold field_inside, host_bound. simpl. unfold upd_field.
    destruct (decide (g = UF_HOST)) as [->|].
    - rewrite u16_fits by done. simpl. lia.
    - destruct g; simpl; try lia; congruence. }
  pose proof (host_loop_inside (zlen buf) (slice buf o n) o s _ Hinv H1 ltac:(lia)) as H.
  rewrite Hlen in H.
  assert (H' : inside (snd (parse_host_loop (slice buf o n) o s (set_len UF_HOST 0 u))) (fun _ => zlen buf)).
  { eapply inside_mono; [exact H|]. intros f. unfold host_bound. destruct (host_part f); lia. }
  destruct (parse_host_loop _ _ _ _) as [[s'|] u']; [destruct (host_final s')|]; exact H'.
Qed.

(** C32: on whatever bytes, less than 65536 of them, as the offsets and lengths of the result
    have 16 bits, and whatever the memory behind them, as a request or for CONNECT, http_parser_parse_url
    reaches none of its assertions; it returns 0 or 1, and with 0 every field
    that it marks as set lies inside the buffer. *)
Theorem url_fields_inside buf after is_connect u0 :
  zlen buf < 65536 ->
  exists rc u, http_parser_parse_url buf after is_connect u0 = Some (rc, u) /\ (rc = 0 \/ rc = 1) /\
    (rc = 0 -> forall f, has_field u f = true ->
       0 <= field_off u f /\ 0 <= field_len u f /\ field_off u f + field_len u f <= zlen buf).
Proof.
  intros Hmax. unfold http_parser_parse_url. cbn beta zeta.
  set (s := if is_connect then s_req_server_start else s_req_spaces_before_url).
  destruct (loop_inside buf 0 s None false (mk_url 0 0 (field_off u0) (field_len u0)))
    as (r & u & -> & Hu & Hno); try done.
  destruct r as [fa|]; [|do 2 eexists; split; [done|split; [by right|done]]].
  rewrite Z.add_0_l in Hu.
  set (bad := has_field u UF_SCHEMA && negb (has_field u UF_HOST)).
  destruct bad; [do 2 eexists; split; [done|split; [by right|done]]|].
  assert (H : inside (snd (if has_field u UF_HOST then http_parse_host buf u fa else (0, u)))
    (fun _ => zlen buf)).
  { destruct (has_field u UF_HOST) eqn:Eh; [by apply parse_host_inside|exact Hu]. }
  destruct (if has_field u UF_HOST then _ else _) as [rc u1]. cbn [snd] in H.
  repeat match goal with |- context [if ?c then _ else _] => destruct c end;
    do 2 eexists; (split; [reflexivity|]); (split; [by auto|]); intros E f Hf; try discriminate;
    exact (H f Hf).
Qed.

Lemma url_fields_inside_witness :
  exists u, http_parser_parse_url (str "//a@b/c?d") [] false url0 = Some (0, u) /\
    (forall f, has_field u f = true -> field_off u f + field_len u f <= 9) /\ has_field u UF_QUERY = true.
Proof.
  destruct (url_fields_inside (str "//a@b/c?d") [] false url0) as (rc & u & E & _ & H); [by vm_compute|].
  assert (Erc : rc = 0) by (vm_compute in E; by injection E as <- _).
  exists u. rewrite Erc in *. split; [exact E|]. split.
  - intros f Hf. by apply (H eq_refl f).
  - vm_compute in E. by injection E as <-.
Defined.
