(* ===== verification/HttpState.v ===== *)
(** * net/http/http_parser.{h,c}: the parser object and the control flow of
    [http_parser_execute]

    [http_parser] and [http_parser_settings] as records, the local variables of
    [http_parser_execute] as the record [exec], its jumps
    ([goto reexecute], [goto error], [return]) as the exits of a small state
    monad, and the macros of the file as operations of that monad. *)

From S2P Require Import Prelude.
From S2P Require Import Words.
From S2P Require Import HttpChars.

(** ** struct http_parser *)

Record http_parser := mk_parser {
  type : http_parser_type;
  flags : Z;            (* unsigned : 7 *)
  pstate : state;       (* the field [state] *)
  header_state : header_states;
  index : Z;            (* unsigned : 8 *)
  nread : Z;            (* uint32_t *)
  content_length : Z;   (* uint64_t *)
  http_major : Z;       (* unsigned short *)
  http_minor : Z;       (* unsigned short *)
  status_code : Z;      (* unsigned : 16 *)
  method : http_method;
  perrno : http_errno;  (* the field [http_errno] *)
  upgrade : bool }.

Definition set_type v (x : http_parser) := mk_parser v (flags x) (pstate x) (header_state x)
  (index x) (nread x) (content_length x) (http_major x) (http_minor x) (status_code x)
  (method x) (perrno x) (upgrade x).
Definition set_flags v (x : http_parser) := mk_parser (type x) v (pstate x) (header_state x)
  (index x) (nread x) (content_length x) (http_major x) (http_minor x) (status_code x)
  (method x) (perrno x) (upgrade x).
Definition set_pstate v (x : http_parser) := mk_parser (type x) (flags x) v (header_state x)
  (index x) (nread x) (content_length x) (http_major x) (http_minor x) (status_code x)
  (method x) (perrno x) (upgrade x).
Definition set_header_state v (x : http_parser) := mk_parser (type x) (flags x) (pstate x) v
  (index x) (nread x) (content_length x) (http_major x) (http_minor x) (status_code x)
  (method x) (perrno x) (upgrade x).
Definition set_index v (x : http_parser) := mk_parser (type x) (flags x) (pstate x)
  (header_state x) v (nread x) (content_length x) (http_major x) (http_minor x)
  (status_code x) (method x) (perrno x) (upgrade x).
Definition set_nread v (x : http_parser) := mk_parser (type x) (flags x) (pstate x)
  (header_state x) (index x) v (content_length x) (http_major x) (http_minor x)
  (status_code x) (method x) (perrno x) (upgrade x).
Definition set_content_length v (x : http_parser) := mk_parser (type x) (flags x) (pstate x)
  (header_state x) (index x) (nread x) v (http_major x) (http_minor x) (status_code x)
  (method x) (perrno x) (upgrade x).
Definition set_http_major v (x : http_parser) := mk_parser (type x) (flags x) (pstate x)
  (header_state x) (index x) (nread x) (content_length x) v (http_minor x) (status_code x)
  (method x) (perrno x) (upgrade x).
Definition set_http_minor v (x : http_parser) := mk_parser (type x) (flags x) (pstate x)
  (header_state x) (index x) (nread x) (content_length x) (http_major x) v (status_code x)
  (method x) (perrno x) (upgrade x).
Definition set_status_code v (x : http_parser) := mk_parser (type x) (flags x) (pstate x)
  (header_state x) (index x) (nread x) (content_length x) (http_major x) (http_minor x) v
  (method x) (perrno x) (upgrade x).
Definition set_method v (x : http_parser) := mk_parser (type x) (flags x) (pstate x)
  (header_state x) (index x) (nread x) (content_length x) (http_major x) (http_minor x)
  (status_code x) v (perrno x) (upgrade x).
Definition set_perrno v (x : http_parser) := mk_parser (type x) (flags x) (pstate x)
  (header_state x) (index x) (nread x) (content_length x) (http_major x) (http_minor x)
  (status_code x) (method x) v (upgrade x).
Definition set_upgrade v (x : http_parser) := mk_parser (type x) (flags x) (pstate x)
  (header_state x) (index x) (nread x) (content_length x) (http_major x) (http_minor x)
  (status_code x) (method x) (perrno x) v.

(** ** The functions on the parser object *)

Definition http_parser_init (t : http_parser_type) : http_parser :=
  mk_parser t 0
    (match t with
     | HTTP_REQUEST => s_start_req
     | HTTP_RESPONSE => s_start_res
     | HTTP_BOTH => s_start_req_or_res
     end)
    h_general 0 0 0 0 0 0 HTTP_DELETE HPE_OK false.

Definition http_message_needs_eof (x : http_parser) : bool :=
  if decide (type x = HTTP_REQUEST) then false
  else if (status_code x / 100 =? 1) || (status_code x =? 204) || (status_code x =? 304)
          || has_flag (flags x) F_SKIPBODY then false
  else if has_flag (flags x) F_CHUNKED || negb (content_length x =? ULLONG_MAX) then false
  else true.

Definition http_should_keep_alive (x : http_parser) : bool :=
  if (0 <? http_major x) && (0 <? http_minor x) then
    if has_flag (flags x) F_CONNECTION_CLOSE then false
    else negb (http_message_needs_eof x)
  else
    if negb (has_flag (flags x) F_CONNECTION_KEEP_ALIVE) then false
    else negb (http_message_needs_eof x).

(** [assert(0)] in an error state is [None]. *)
Definition http_parser_pause (x : http_parser) (paused : bool) : option http_parser :=
  if bool_decide (perrno x = HPE_OK) || bool_decide (perrno x = HPE_PAUSED)
  then Some (set_perrno (if paused then HPE_PAUSED else HPE_OK) x)
  else None.

Definition http_body_is_final (x : http_parser) : bool :=
  bool_decide (pstate x = s_message_done).

Definition http_parser_version : Z :=
  Z.lor (Z.lor (2 * 0x10000) (5 * 0x00100)) (0 * 0x00001).

Definition http_method_str (m : http_method) : bytes := method_string m.

(** [start_state] and [NEW_MESSAGE()] *)
Definition start_state (x : http_parser) : state :=
  if decide (type x = HTTP_REQUEST) then s_start_req else s_start_res.

Definition NEW_MESSAGE (x : http_parser) : state :=
  if http_should_keep_alive x then start_state x else s_dead.

(** ** struct http_parser_settings

    A callback gets the parser and the application's data and returns its
    [int], with the parser and the data as it leaves them; a data callback also
    gets the bytes. A null function pointer is [None]. *)

Definition http_cb (U : Type) : Type := http_parser -> U -> Z * http_parser * U.
Definition http_data_cb (U : Type) : Type := bytes -> http_cb U.

Record http_parser_settings (U : Type) := mk_settings {
  on_message_begin : option (http_cb U);
  on_url : option (http_data_cb U);
  on_status : option (http_data_cb U);
  on_header_field : option (http_data_cb U);
  on_header_value : option (http_data_cb U);
  on_headers_complete : option (http_cb U);
  on_body : option (http_data_cb U);
  on_message_complete : option (http_cb U);
  on_chunk_header : option (http_cb U);
  on_chunk_complete : option (http_cb U) }.
Arguments mk_settings {U}.
Arguments on_message_begin {U}.
Arguments on_url {U}.
Arguments on_status {U}.
Arguments on_header_field {U}.
Arguments on_header_value {U}.
Arguments on_headers_complete {U}.
Arguments on_body {U}.
Arguments on_message_complete {U}.
Arguments on_chunk_header {U}.
Arguments on_chunk_complete {U}.

Definition http_parser_settings_init {U} : http_parser_settings U :=
  mk_settings None None None None None None None None None None.

(** The argument [FOR] of the callback macros. *)
Inductive notify := message_begin | message_complete | chunk_header | chunk_complete.
Inductive mark := header_field | header_value | url | body | status.

Definition notify_cb {U} (st : http_parser_settings U) (f : notify) : option (http_cb U) :=
  match f with
  | message_begin => on_message_begin st
  | message_complete => on_message_complete st
  | chunk_header => on_chunk_header st
  | chunk_complete => on_chunk_complete st
  end.

Definition data_cb {U} (st : http_parser_settings U) (f : mark) : option (http_data_cb U) :=
  match f with
  | header_field => on_header_field st
  | header_value => on_header_value st
  | url => on_url st
  | body => on_body st
  | status => on_status st
  end.

Definition notify_errno (f : notify) : http_errno :=
  match f with
  | message_begin => HPE_CB_message_begin
  | message_complete => HPE_CB_message_complete
  | chunk_header => HPE_CB_chunk_header
  | chunk_complete => HPE_CB_chunk_complete
  end.

Definition data_errno (f : mark) : http_errno :=
  match f with
  | header_field => HPE_CB_header_field
  | header_value => HPE_CB_header_value
  | url => HPE_CB_url
  | body => HPE_CB_body
  | status => HPE_CB_status
  end.

(** ** The local variables of [http_parser_execute]

    [p] and the marks are offsets in [data]; a null mark is [None]. *)
Record exec (U : Type) := mk_exec {
  prs : http_parser;
  usr : U;
  p_state : state;
  p : Z;
  ch : Z;
  header_field_mark : option Z;
  header_value_mark : option Z;
  url_mark : option Z;
  body_mark : option Z;
  status_mark : option Z }.
Arguments mk_exec {U}.
Arguments prs {U}.
Arguments usr {U}.
Arguments p_state {U}.
Arguments p {U}.
Arguments ch {U}.
Arguments header_field_mark {U}.
Arguments header_value_mark {U}.
Arguments url_mark {U}.
Arguments body_mark {U}.
Arguments status_mark {U}.

Definition set_prs {U} v (e : exec U) : exec U := mk_exec v (usr e) (p_state e) (p e) (ch e)
  (header_field_mark e) (header_value_mark e) (url_mark e) (body_mark e) (status_mark e).
Definition set_usr {U} v (e : exec U) : exec U := mk_exec (prs e) v (p_state e) (p e) (ch e)
  (header_field_mark e) (header_value_mark e) (url_mark e) (body_mark e) (status_mark e).
Definition set_p_state {U} v (e : exec U) : exec U := mk_exec (prs e) (usr e) v (p e) (ch e)
  (header_field_mark e) (header_value_mark e) (url_mark e) (body_mark e) (status_mark e).
Definition set_p {U} v (e : exec U) : exec U := mk_exec (prs e) (usr e) (p_state e) v (ch e)
  (header_field_mark e) (header_value_mark e) (url_mark e) (body_mark e) (status_mark e).
Definition set_ch {U} v (e : exec U) : exec U := mk_exec (prs e) (usr e) (p_state e) (p e) v
  (header_field_mark e) (header_value_mark e) (url_mark e) (body_mark e) (status_mark e).

Definition get_mark {U} (f : mark) (e : exec U) : option Z :=
  match f with
  | header_field => header_field_mark e
  | header_value => header_value_mark e
  | url => url_mark e
  | body => body_mark e
  | status => status_mark e
  end.

Definition set_mark {U} (f : mark) (v : option Z) (e : exec U) : exec U :=
  let sel (g : bool) (old : option Z) := if g then v else old in
  mk_exec (prs e) (usr e) (p_state e) (p e) (ch e)
    (sel (match f with header_field => true | _ => false end) (header_field_mark e))
    (sel (match f with header_value => true | _ => false end) (header_value_mark e))
    (sel (match f with url => true | _ => false end) (url_mark e))
    (sel (match f with body => true | _ => false end) (body_mark e))
    (sel (match f with status => true | _ => false end) (status_mark e)).

(** ** Control flow

    [XAssert] is a failed [assert] or a read outside a string constant;
    [XFuel] is a loop that was cut (it is proved unreachable). *)
Inductive exit := XReexecute | XError | XReturn (n : Z) | XAssert | XFuel.

Inductive res (U A : Type) :=
  | Val (a : A) (e : exec U)
  | Exit (x : exit) (e : exec U).
Arguments Val {U A}.
Arguments Exit {U A}.

Definition M (U A : Type) : Type := exec U -> res U A.

Definition ret {U A} (a : A) : M U A := fun e => Val a e.
Definition jump {U A} (x : exit) : M U A := fun e => Exit x e.
Definition bind {U A B} (m : M U A) (k : A -> M U B) : M U B := fun e =>
  match m e with
  | Val a e' => k a e'
  | Exit x e' => Exit x e'
  end.
Definition gets {U A} (f : exec U -> A) : M U A := fun e => Val (f e) e.
Definition modify {U} (f : exec U -> exec U) : M U unit := fun e => Val tt (f e).

Notation "'let*' x ':=' m 'in' k" := (bind m (fun x => k))
  (at level 10, x name, m at level 100, k at level 200) : brynet_scope.
Notation "m ;;; k" := (bind m (fun _ => k)) (at level 100, right associativity) : brynet_scope.

Definition upd {U} (f : http_parser -> http_parser) : M U unit :=
  modify (fun e => set_prs (f (prs e)) e).

(** Macros without callbacks. *)
Definition SET_ERRNO {U} (x : http_errno) : M U unit := upd (set_perrno x).
Definition UPDATE_STATE {U} (s : state) : M U unit := modify (set_p_state s).
Definition RETURN {U A} (n : Z) : M U A :=
  modify (fun e => set_prs (set_pstate (p_state e) (prs e)) e) ;;; jump (XReturn n).
Definition REEXECUTE {U A} : M U A := jump XReexecute.
Definition goto_error {U A} : M U A := jump XError.
Definition fail {U A} (x : http_errno) : M U A := SET_ERRNO x ;;; goto_error.
Definition assert {U} (b : bool) : M U unit := if b then ret tt else jump XAssert.
Definition MARK {U} (f : mark) : M U unit :=
  modify (fun e => match get_mark f e with None => set_mark f (Some (p e)) e | Some _ => e end).
Definition COUNT_HEADER_SIZE {U} (v : Z) : M U unit :=
  upd (fun x => set_nread (u32 (nread x + v)) x) ;;;
  let* x := gets prs in
  if HTTP_MAX_HEADER_SIZE <? nread x then fail HPE_HEADER_OVERFLOW else ret tt.
Definition STRICT_CHECK {U} (b : bool) : M U unit := if b then fail HPE_STRICT else ret tt.

(** Macros that run a callback. *)
Section Callbacks.
  Context {U : Type} (settings : http_parser_settings U) (data : bytes).

  (** Call [cb] with the parser and the application's data. *)
Definition call (cb : http_cb U) : M U Z := fun e =>
    match cb (prs e) (usr e) with
    | (r, x, u) => Val r (set_usr u (set_prs x e))
    end.

  (** The common part: store the state, call, record the error, reload the
      state, and return [er] if there is an error. *)
Definition run_callback (cb : http_cb U) (err : http_errno) (er : Z) : M U unit :=
    modify (fun e => set_prs (set_pstate (p_state e) (prs e)) e) ;;;
    let* r := call cb in
    (if r =? 0 then ret tt else SET_ERRNO err) ;;;
    modify (fun e => set_p_state (pstate (prs e)) e) ;;;
    let* x := gets prs in
    if decide (perrno x = HPE_OK) then ret tt else jump (XReturn er).

Definition assert_no_errno : M U unit :=
    let* x := gets prs in assert (bool_decide (perrno x = HPE_OK)).

Definition CALLBACK_NOTIFY_ (f : notify) (er : Z) : M U unit :=
    assert_no_errno ;;;
    match notify_cb settings f with
    | Some cb => run_callback cb (notify_errno f) er
    | None => ret tt
    end.

Definition CALLBACK_NOTIFY (f : notify) : M U unit :=
    let* q := gets p in CALLBACK_NOTIFY_ f (q + 1).

Definition CALLBACK_NOTIFY_NOADVANCE (f : notify) : M U unit :=
    let* q := gets p in CALLBACK_NOTIFY_ f q.

  (** What a callback is given lies inside [data]. *)
Definition in_data (m n : Z) : bool := (0 <=? m) && (0 <=? n) && (m + n <=? zlen data).

  (** [len] is computed from the mark; [XAssert]: the text is not inside the data. *)
Definition CALLBACK_DATA_ (f : mark) (len : Z -> Z) (er : Z) : M U unit :=
    assert_no_errno ;;;
    let* mk := gets (get_mark f) in
    match mk with
    | None => ret tt
    | Some m =>
        match data_cb settings f with
        | Some cb => assert (in_data m (len m)) ;;; run_callback (cb (slice data m (len m))) (data_errno f) er
        | None => ret tt
        end ;;;
        modify (set_mark f None)
    end.

Definition CALLBACK_DATA (f : mark) : M U unit :=
    let* q := gets p in CALLBACK_DATA_ f (fun m => q - m) (q + 1).

Definition CALLBACK_DATA_NOADVANCE (f : mark) : M U unit :=
    let* q := gets p in CALLBACK_DATA_ f (fun m => q - m) q.
End Callbacks.

Lemma in_data_true data m n : 0 <= m -> 0 <= n -> m + n <= zlen data -> in_data data m n = true.
Proof. intros. unfold in_data. rewrite !(proj2 (Z.leb_le _ _)) by done. done. Qed.
