(* ===== verification/HttpExec.v ===== *)
(** * net/http/http_parser.c: [http_parser_execute]

    One definition per [case] of the state switch, in the order of the source;
    [switch_state] dispatches to them, [run_switch] is the [reexecute] loop and
    [exec_loop] the loop over the bytes. *)

From S2P Require Import Prelude.
From S2P Require Import Words.
From S2P Require Import HttpChars.
From S2P Require Import HttpUrl.
From S2P Require Import HttpState.

Section Execute.
Context {U : Type} (settings : http_parser_settings U) (data : bytes).

#[local] Abbreviation M := (M U).
#[local] Abbreviation CALLBACK_NOTIFY := (CALLBACK_NOTIFY settings).
#[local] Abbreviation CALLBACK_NOTIFY_NOADVANCE := (CALLBACK_NOTIFY_NOADVANCE settings).
#[local] Abbreviation CALLBACK_DATA := (CALLBACK_DATA settings data).
#[local] Abbreviation CALLBACK_DATA_NOADVANCE := (CALLBACK_DATA_NOADVANCE settings data).

(** [ch - '0'] added to a number read so far, in a 16-bit field that must stay
    below 1000; shared by the version numbers and the status code. *)
Definition push_digit (get : http_parser -> Z) (set : Z -> http_parser -> http_parser)
  (e : http_errno) (c : Z) : M unit :=
  upd (fun x => set (u16 (get x * 10)) x) ;;;
  upd (fun x => set (u16 (get x + (c - #"0"))) x) ;;;
  let* x := gets prs in
  if 999 <? get x then fail e else ret tt.

(** ** Status line *)

Definition case_s_dead (c : Z) : M unit :=
  if (c =? CR) || (c =? LF) then ret tt else fail HPE_CLOSED_CONNECTION.

Definition case_s_start_req_or_res (c : Z) : M unit :=
  if (c =? CR) || (c =? LF) then ret tt else
  upd (set_flags 0) ;;;
  upd (set_content_length ULLONG_MAX) ;;;
  if c =? #"H" then
    UPDATE_STATE s_res_or_resp_H ;;;
    CALLBACK_NOTIFY message_begin
  else
    upd (set_type HTTP_REQUEST) ;;;
    UPDATE_STATE s_start_req ;;;
    REEXECUTE.

Definition case_s_res_or_resp_H (c : Z) : M unit :=
  if c =? #"T" then
    upd (set_type HTTP_RESPONSE) ;;; UPDATE_STATE s_res_HT
  else if negb (c =? #"E") then fail HPE_INVALID_CONSTANT
  else
    upd (set_type HTTP_REQUEST) ;;;
    upd (set_method HTTP_HEAD) ;;;
    upd (set_index 2) ;;;
    UPDATE_STATE s_req_method.

Definition case_s_start_res (c : Z) : M unit :=
  upd (set_flags 0) ;;;
  upd (set_content_length ULLONG_MAX) ;;;
  (if c =? #"H" then UPDATE_STATE s_res_H
   else if (c =? CR) || (c =? LF) then ret tt
   else fail HPE_INVALID_CONSTANT) ;;;
  CALLBACK_NOTIFY message_begin.

(** The states that expect one character of a constant: [s_res_H], [s_res_HT],
    [s_res_HTT], [s_res_HTTP], the [s_req_http_*] states, and those that wait
    for a line feed. *)
Definition case_expect (c want : Z) (next : state) : M unit :=
  STRICT_CHECK (negb (c =? want)) ;;; UPDATE_STATE next.

Definition case_s_res_first_http_major (c : Z) : M unit :=
  if (c <? #"0") || (#"9" <? c) then fail HPE_INVALID_VERSION else
  upd (set_http_major (c - #"0")) ;;; UPDATE_STATE s_res_http_major.

Definition case_s_res_http_major (c : Z) : M unit :=
  if c =? #"." then UPDATE_STATE s_res_first_http_minor
  else if negb (IS_NUM c) then fail HPE_INVALID_VERSION
  else push_digit http_major set_http_major HPE_INVALID_VERSION c.

Definition case_s_res_first_http_minor (c : Z) : M unit :=
  if negb (IS_NUM c) then fail HPE_INVALID_VERSION else
  upd (set_http_minor (c - #"0")) ;;; UPDATE_STATE s_res_http_minor.

Definition case_s_res_http_minor (c : Z) : M unit :=
  if c =? #" " then UPDATE_STATE s_res_first_status_code
  else if negb (IS_NUM c) then fail HPE_INVALID_VERSION
  else push_digit http_minor set_http_minor HPE_INVALID_VERSION c.

Definition case_s_res_first_status_code (c : Z) : M unit :=
  if negb (IS_NUM c) then
    if c =? #" " then ret tt else fail HPE_INVALID_STATUS
  else upd (set_status_code (c - #"0")) ;;; UPDATE_STATE s_res_status_code.

Definition case_s_res_status_code (c : Z) : M unit :=
  if negb (IS_NUM c) then
    if c =? #" " then UPDATE_STATE s_res_status_start
    else if c =? CR then UPDATE_STATE s_res_line_almost_done
    else if c =? LF then UPDATE_STATE s_header_field_start
    else fail HPE_INVALID_STATUS
  else push_digit status_code set_status_code HPE_INVALID_STATUS c.

Definition case_s_res_status_start (c : Z) : M unit :=
  if c =? CR then UPDATE_STATE s_res_line_almost_done
  else if c =? LF then UPDATE_STATE s_header_field_start
  else MARK status ;;; UPDATE_STATE s_res_status ;;; upd (set_index 0).

Definition case_s_res_status (c : Z) : M unit :=
  if c =? CR then UPDATE_STATE s_res_line_almost_done ;;; CALLBACK_DATA status
  else if c =? LF then UPDATE_STATE s_header_field_start ;;; CALLBACK_DATA status
  else ret tt.

(** ** Request line *)

(** The [switch (ch)] on the first letter of the method. *)
Definition method_of_letter (c : Z) : option http_method :=
  if c =? #"A" then Some HTTP_ACL
  else if c =? #"B" then Some HTTP_BIND
  else if c =? #"C" then Some HTTP_CONNECT
  else if c =? #"D" then Some HTTP_DELETE
  else if c =? #"G" then Some HTTP_GET
  else if c =? #"H" then Some HTTP_HEAD
  else if c =? #"L" then Some HTTP_LOCK
  else if c =? #"M" then Some HTTP_MKCOL
  else if c =? #"N" then Some HTTP_NOTIFY
  else if c =? #"O" then Some HTTP_OPTIONS
  else if c =? #"P" then Some HTTP_POST
  else if c =? #"R" then Some HTTP_REPORT
  else if c =? #"S" then Some HTTP_SUBSCRIBE
  else if c =? #"T" then Some HTTP_TRACE
  else if c =? #"U" then Some HTTP_UNLOCK
  else None.

Definition case_s_start_req (c : Z) : M unit :=
  if (c =? CR) || (c =? LF) then ret tt else
  upd (set_flags 0) ;;;
  upd (set_content_length ULLONG_MAX) ;;;
  if negb (IS_ALPHA c) then fail HPE_INVALID_METHOD else
  upd (set_method HTTP_DELETE) ;;;  (* (enum http_method) 0 *)
  upd (set_index 1) ;;;
  match method_of_letter c with
  | None => fail HPE_INVALID_METHOD
  | Some m => upd (set_method m)
  end ;;;
  UPDATE_STATE s_req_method ;;;
  CALLBACK_NOTIFY message_begin.

(** [s[i]] of a string constant, its terminating 0 included. *)
Definition str_at (s : bytes) (i : Z) : option Z :=
  if (0 <=? i) && (i <? zlen s) then Some (znth s i 0)
  else if i =? zlen s then Some 0 else None.

(** The method after a character that does not match the current one. *)
Definition method_switch (m : http_method) (i c : Z) : option http_method :=
  if decide (m = HTTP_CONNECT) then
    if (i =? 1) && (c =? #"H") then Some HTTP_CHECKOUT
    else if (i =? 2) && (c =? #"P") then Some HTTP_COPY
    else None
  else if decide (m = HTTP_MKCOL) then
    if (i =? 1) && (c =? #"O") then Some HTTP_MOVE
    else if (i =? 1) && (c =? #"E") then Some HTTP_MERGE
    else if (i =? 1) && (c =? #"-") then Some HTTP_MSEARCH
    else if (i =? 2) && (c =? #"A") then Some HTTP_MKACTIVITY
    else if (i =? 3) && (c =? #"A") then Some HTTP_MKCALENDAR
    else None
  else if decide (m = HTTP_SUBSCRIBE) then
    if (i =? 1) && (c =? #"E") then Some HTTP_SEARCH else None
  else if decide (m = HTTP_REPORT) then
    if (i =? 2) && (c =? #"B") then Some HTTP_REBIND else None
  else if (i =? 1) && bool_decide (m = HTTP_POST) then
    if c =? #"R" then Some HTTP_PROPFIND
    else if c =? #"U" then Some HTTP_PUT
    else if c =? #"A" then Some HTTP_PATCH
    else None
  else if i =? 2 then
    if decide (m = HTTP_PUT) then
      if c =? #"R" then Some HTTP_PURGE else None
    else if decide (m = HTTP_UNLOCK) then
      if c =? #"S" then Some HTTP_UNSUBSCRIBE
      else if c =? #"B" then Some HTTP_UNBIND
      else None
    else None
  else if (i =? 4) && bool_decide (m = HTTP_PROPFIND) && (c =? #"P") then Some HTTP_PROPPATCH
  else None.

Definition case_s_req_method (c : Z) : M unit :=
  if c =? 0 then fail HPE_INVALID_METHOD else
  let* x := gets prs in
  match str_at (method_string (method x)) (index x) with
  | None => jump XAssert
  | Some m =>
      if (c =? #" ") && (m =? 0) then UPDATE_STATE s_req_spaces_before_url
      else if c =? m then ret tt
      else match method_switch (method x) (index x) c with
           | Some m' => upd (set_method m')
           | None => fail HPE_INVALID_METHOD
           end
  end ;;;
  upd (fun x => set_index (wrap 8 (index x + 1)) x).

(** [UPDATE_STATE(parse_url_char(CURRENT_STATE(), ch))] with its error. *)
Definition url_char (c : Z) : M unit :=
  let* s := gets p_state in
  UPDATE_STATE (parse_url_char s c) ;;;
  let* s' := gets p_state in
  if decide (s' = s_dead) then fail HPE_INVALID_URL else ret tt.

Definition case_s_req_spaces_before_url (c : Z) : M unit :=
  if c =? #" " then ret tt else
  MARK url ;;;
  let* x := gets prs in
  (if decide (method x = HTTP_CONNECT) then UPDATE_STATE s_req_server_start else ret tt) ;;;
  url_char c.

(** [s_req_schema], [s_req_schema_slash], [s_req_schema_slash_slash],
    [s_req_server_start] *)
Definition case_s_req_schema (c : Z) : M unit :=
  if (c =? #" ") || (c =? CR) || (c =? LF) then fail HPE_INVALID_URL else url_char c.

(** [s_req_server] to [s_req_fragment] *)
Definition case_s_req_server (c : Z) : M unit :=
  if c =? #" " then UPDATE_STATE s_req_http_start ;;; CALLBACK_DATA url
  else if (c =? CR) || (c =? LF) then
    upd (set_http_major 0) ;;;
    upd (set_http_minor 9) ;;;
    UPDATE_STATE (if c =? CR then s_req_line_almost_done else s_header_field_start) ;;;
    CALLBACK_DATA url
  else url_char c.

Definition case_s_req_http_start (c : Z) : M unit :=
  if c =? #"H" then UPDATE_STATE s_req_http_H
  else if c =? #" " then ret tt
  else fail HPE_INVALID_CONSTANT.

Definition case_s_req_first_http_major (c : Z) : M unit :=
  if (c <? #"1") || (#"9" <? c) then fail HPE_INVALID_VERSION else
  upd (set_http_major (c - #"0")) ;;; UPDATE_STATE s_req_http_major.

Definition case_s_req_http_major (c : Z) : M unit :=
  if c =? #"." then UPDATE_STATE s_req_first_http_minor
  else if negb (IS_NUM c) then fail HPE_INVALID_VERSION
  else push_digit http_major set_http_major HPE_INVALID_VERSION c.

Definition case_s_req_first_http_minor (c : Z) : M unit :=
  if negb (IS_NUM c) then fail HPE_INVALID_VERSION else
  upd (set_http_minor (c - #"0")) ;;; UPDATE_STATE s_req_http_minor.

Definition case_s_req_http_minor (c : Z) : M unit :=
  if c =? CR then UPDATE_STATE s_req_line_almost_done
  else if c =? LF then UPDATE_STATE s_header_field_start
  else if negb (IS_NUM c) then fail HPE_INVALID_VERSION
  else push_digit http_minor set_http_minor HPE_INVALID_VERSION c.

Definition case_s_req_line_almost_done (c : Z) : M unit :=
  if negb (c =? LF) then fail HPE_LF_EXPECTED else UPDATE_STATE s_header_field_start.

(** ** Header field *)

Definition field_start_state (c : Z) : header_states :=
  if c =? #"c" then h_C
  else if c =? #"p" then h_matching_proxy_connection
  else if c =? #"t" then h_matching_transfer_encoding
  else if c =? #"u" then h_matching_upgrade
  else h_general.

Definition case_s_header_field_start (ch : Z) : M unit :=
  if ch =? CR then UPDATE_STATE s_headers_almost_done
  else if ch =? LF then UPDATE_STATE s_headers_almost_done ;;; REEXECUTE
  else
    let c := TOKEN ch in
    if c =? 0 then fail HPE_INVALID_HEADER_TOKEN else
    MARK header_field ;;;
    upd (set_index 0) ;;;
    UPDATE_STATE s_header_field ;;;
    upd (set_header_state (field_start_state c)).

Definition CONNECTION : bytes := str "connection".
Definition PROXY_CONNECTION : bytes := str "proxy-connection".
Definition CONTENT_LENGTH : bytes := str "content-length".
Definition TRANSFER_ENCODING : bytes := str "transfer-encoding".
Definition UPGRADE : bytes := str "upgrade".
Definition CHUNKED : bytes := str "chunked".
Definition KEEP_ALIVE : bytes := str "keep-alive".
Definition CLOSE : bytes := str "close".

(** One character against the constant [s] ([sizeof(s) - 1] is its length):
    [cur] to stay in the state, [bad] on a mismatch, [done] on the last
    character. The index is already incremented. *)
Definition match_const (s : bytes) (i c : Z) (cur bad done : header_states)
  : option header_states :=
  if zlen s <? i then Some bad
  else m ← str_at s i;
       Some (if negb (c =? m) then bad else if i =? zlen s - 1 then done else cur).

(** The body of the inner loop of [s_header_field]; [None] is an [assert]. *)
Definition header_field_step (x : http_parser) (ch c : Z) : option http_parser :=
  let hs := header_state x in
  let x1 := set_index (wrap 8 (index x + 1)) x in
  let go (s : bytes) (done : header_states) : option http_parser :=
    match match_const s (index x1) c hs h_general done with
    | Some h => Some (set_header_state h x1)
    | None => None
    end in
  match hs with
  | h_general => Some x
  | h_C => Some (set_header_state (if c =? #"o" then h_CO else h_general) x1)
  | h_CO => Some (set_header_state (if c =? #"n" then h_CON else h_general) x1)
  | h_CON =>
      Some (set_header_state
        (if c =? #"n" then h_matching_connection
         else if c =? #"t" then h_matching_content_length else h_general) x1)
  | h_matching_connection => go CONNECTION h_connection
  | h_matching_proxy_connection => go PROXY_CONNECTION h_connection
  | h_matching_content_length => go CONTENT_LENGTH h_content_length
  | h_matching_transfer_encoding => go TRANSFER_ENCODING h_transfer_encoding
  | h_matching_upgrade => go UPGRADE h_upgrade
  | h_connection | h_content_length | h_transfer_encoding | h_upgrade =>
      Some (if negb (ch =? #" ") then set_header_state h_general x else x)
  | _ => None
  end.

(** [for (; p != data + len; p++)] on the bytes [l] from [p] on. *)
Fixpoint header_field_loop (l : bytes) : M unit :=
  match l with
  | [] => ret tt
  | b :: l' =>
      modify (set_ch b) ;;;
      let c := TOKEN b in
      if c =? 0 then ret tt else
      let* x := gets prs in
      match header_field_step x b c with
      | None => jump XAssert
      | Some x' =>
          modify (set_prs x') ;;;
          modify (fun e => set_p (p e + 1) e) ;;;
          header_field_loop l'
      end
  end.

Definition case_s_header_field : M unit :=
  let* start := gets p in
  header_field_loop (drop (Z.to_nat start) data) ;;;
  let* q := gets p in
  COUNT_HEADER_SIZE (q - start) ;;;
  if q =? zlen data then modify (set_p (q - 1)) else
  let* c := gets ch in
  if c =? #":" then
    UPDATE_STATE s_header_value_discard_ws ;;; CALLBACK_DATA header_field
  else fail HPE_INVALID_HEADER_TOKEN.

(** ** Header value *)

Definition case_s_header_value_start (ch : Z) : M unit :=
  MARK header_value ;;;
  UPDATE_STATE s_header_value ;;;
  upd (set_index 0) ;;;
  let c := LOWER ch in
  let* x := gets prs in
  match header_state x with
  | h_upgrade =>
      upd (fun x => set_flags (Z.lor (flags x) F_UPGRADE) x) ;;;
      upd (set_header_state h_general)
  | h_transfer_encoding =>
      upd (set_header_state
        (if #"c" =? c then h_matching_transfer_encoding_chunked else h_general))
  | h_content_length =>
      if negb (IS_NUM ch) then fail HPE_INVALID_CONTENT_LENGTH
      else upd (set_content_length (ch - #"0"))
  | h_connection =>
      upd (set_header_state
        (if c =? #"k" then h_matching_connection_keep_alive
         else if c =? #"c" then h_matching_connection_close
         else if c =? #"u" then h_matching_connection_upgrade
         else h_matching_connection_token))
  | h_matching_connection_token_start => ret tt
  | _ => upd (set_header_state h_general)
  end.

Definition case_s_header_value_discard_ws (c : Z) : M unit :=
  if (c =? #" ") || (c =? 9) then ret tt
  else if c =? CR then UPDATE_STATE s_header_value_discard_ws_almost_done
  else if c =? LF then UPDATE_STATE s_header_value_discard_lws
  else case_s_header_value_start c.

(** [memchr(l, c, limit)], as an offset in [l]. *)
Fixpoint memchr (l : bytes) (c : Z) (limit : nat) : option Z :=
  match limit, l with
  | S n, b :: l' => if b =? c then Some 0 else option_map Z.succ (memchr l' c n)
  | _, _ => None
  end.

(** [h_general]: jump to the end of the line; the new [p], decremented. *)
Definition skip_general (q : Z) : Z :=
  let l := drop (Z.to_nat q) data in
  let limit := Z.to_nat (Z.min (zlen data - q) HTTP_MAX_HEADER_SIZE) in
  match memchr l CR limit, memchr l LF limit with
  | Some cr, Some lf => if lf <=? cr then q + lf - 1 else q + cr - 1
  | Some cr, None => q + cr - 1
  | None, Some lf => q + lf - 1
  | None, None => zlen data - 1
  end.

Definition connection_flag (h : header_states) : Z :=
  match h with
  | h_connection_keep_alive => F_CONNECTION_KEEP_ALIVE
  | h_connection_close => F_CONNECTION_CLOSE
  | h_connection_upgrade => F_CONNECTION_UPGRADE
  | _ => 0
  end.

(** A character of a token of the [Connection] or [Transfer-Encoding] header. *)
Definition match_value (s : bytes) (c : Z) (cur bad done : header_states) : M header_states :=
  upd (fun x => set_index (wrap 8 (index x + 1)) x) ;;;
  let* x := gets prs in
  match match_const s (index x) c cur bad done with
  | Some h => ret h
  | None => jump XAssert
  end.

(** The [switch (h_state)] of the inner loop of [s_header_value]. *)
Definition header_value_step (h_state : header_states) (ch c : Z) : M header_states :=
  match h_state with
  | h_general =>
      modify (fun e => set_p (skip_general (p e)) e) ;;; ret h_state
  | h_connection | h_transfer_encoding => jump XAssert
  | h_content_length =>
      if ch =? #" " then ret h_state else
      if negb (IS_NUM ch) then
        SET_ERRNO HPE_INVALID_CONTENT_LENGTH ;;; upd (set_header_state h_state) ;;; goto_error
      else
        let* x := gets prs in
        let t := u64 (u64 (content_length x * 10) + (ch - #"0")) in
        if (ULLONG_MAX - 10) / 10 <? content_length x then
          SET_ERRNO HPE_INVALID_CONTENT_LENGTH ;;; upd (set_header_state h_state) ;;; goto_error
        else upd (set_content_length t) ;;; ret h_state
  | h_matching_transfer_encoding_chunked =>
      match_value CHUNKED c h_state h_general h_transfer_encoding_chunked
  | h_matching_connection_token_start =>
      ret (if c =? #"k" then h_matching_connection_keep_alive
           else if c =? #"c" then h_matching_connection_close
           else if c =? #"u" then h_matching_connection_upgrade
           else if negb (STRICT_TOKEN c =? 0) then h_matching_connection_token
           else if (c =? #" ") || (c =? 9) then h_state
           else h_general)
  | h_matching_connection_keep_alive =>
      match_value KEEP_ALIVE c h_state h_matching_connection_token h_connection_keep_alive
  | h_matching_connection_close =>
      match_value CLOSE c h_state h_matching_connection_token h_connection_close
  | h_matching_connection_upgrade =>
      match_value UPGRADE c h_state h_matching_connection_token h_connection_upgrade
  | h_matching_connection_token =>
      if ch =? #"," then upd (set_index 0) ;;; ret h_matching_connection_token_start
      else ret h_state
  | h_transfer_encoding_chunked =>
      ret (if negb (ch =? #" ") then h_general else h_state)
  | h_connection_keep_alive | h_connection_close | h_connection_upgrade =>
      if ch =? #"," then
        upd (fun x => set_flags (Z.lor (flags x) (connection_flag h_state)) x) ;;;
        upd (set_index 0) ;;;
        ret h_matching_connection_token_start
      else ret (if negb (ch =? #" ") then h_matching_connection_token else h_state)
  | _ => UPDATE_STATE s_header_value ;;; ret h_general
  end.

(** The inner loop of [s_header_value]; the fuel is the number of bytes left. *)
Fixpoint header_value_loop (fuel : nat) (start : Z) (h_state : header_states)
  : M header_states :=
  let* q := gets p in
  if q =? zlen data then ret h_state else
  match fuel with
  | O => jump XFuel
  | S fuel' =>
      let c0 := znth data q 0 in
      modify (set_ch c0) ;;;
      if c0 =? CR then
        UPDATE_STATE s_header_almost_done ;;;
        upd (set_header_state h_state) ;;;
        CALLBACK_DATA header_value ;;;
        ret h_state
      else if c0 =? LF then
        UPDATE_STATE s_header_almost_done ;;;
        COUNT_HEADER_SIZE (q - start) ;;;
        upd (set_header_state h_state) ;;;
        CALLBACK_DATA_NOADVANCE header_value ;;;
        REEXECUTE
      else
        let* h := header_value_step h_state c0 (LOWER c0) in
        modify (fun e => set_p (p e + 1) e) ;;;
        header_value_loop fuel' start h
  end.

Definition case_s_header_value : M unit :=
  let* start := gets p in
  let* x := gets prs in
  let* h_state := header_value_loop (Z.to_nat (zlen data - start)) start (header_state x) in
  upd (set_header_state h_state) ;;;
  let* q := gets p in
  COUNT_HEADER_SIZE (q - start) ;;;
  if q =? zlen data then modify (set_p (q - 1)) else ret tt.

(** The flag that a finished header value sets. *)
Definition value_flag (h : header_states) : Z :=
  match h with
  | h_transfer_encoding_chunked => F_CHUNKED
  | _ => connection_flag h
  end.

Definition set_value_flag : M unit :=
  upd (fun x => set_flags (Z.lor (flags x) (value_flag (header_state x))) x).

Definition case_s_header_value_lws (c : Z) : M unit :=
  if (c =? #" ") || (c =? 9) then UPDATE_STATE s_header_value_start ;;; REEXECUTE
  else set_value_flag ;;; UPDATE_STATE s_header_field_start ;;; REEXECUTE.

Definition case_s_header_value_discard_lws (c : Z) : M unit :=
  if (c =? #" ") || (c =? 9) then UPDATE_STATE s_header_value_discard_ws
  else
    set_value_flag ;;;
    MARK header_value ;;;
    UPDATE_STATE s_header_field_start ;;;
    CALLBACK_DATA_NOADVANCE header_value ;;;
    REEXECUTE.

(** ** End of the headers *)

Definition upgrade_of (x : http_parser) : bool :=
  (Z.land (flags x) (Z.lor F_UPGRADE F_CONNECTION_UPGRADE)
     =? Z.lor F_UPGRADE F_CONNECTION_UPGRADE)
  || bool_decide (method x = HTTP_CONNECT).

Definition case_s_headers_almost_done (c : Z) : M unit :=
  STRICT_CHECK (negb (c =? LF)) ;;;
  let* x := gets prs in
  let* q := gets p in
  if has_flag (flags x) F_TRAILING then
    UPDATE_STATE s_message_done ;;;
    CALLBACK_NOTIFY_NOADVANCE chunk_complete ;;;
    REEXECUTE
  else
    UPDATE_STATE s_headers_done ;;;
    upd (fun x => set_upgrade (upgrade_of x) x) ;;;
    match on_headers_complete settings with
    | None => ret tt
    | Some cb =>
        let* r := call cb in
        if r =? 0 then ret tt
        else if r =? 1 then upd (fun x => set_flags (Z.lor (flags x) F_SKIPBODY) x)
        else SET_ERRNO HPE_CB_headers_complete ;;; RETURN q
    end ;;;
    let* x := gets prs in
    if decide (perrno x = HPE_OK) then REEXECUTE else RETURN q.

Definition update_NEW_MESSAGE : M unit :=
  let* x := gets prs in UPDATE_STATE (NEW_MESSAGE x).

Definition case_s_headers_done (c : Z) : M unit :=
  STRICT_CHECK (negb (c =? LF)) ;;;
  upd (set_nread 0) ;;;
  let* x := gets prs in
  let hasBody := has_flag (flags x) F_CHUNKED
    || ((0 <? content_length x) && negb (content_length x =? ULLONG_MAX)) in
  if upgrade x && (bool_decide (method x = HTTP_CONNECT)
                   || has_flag (flags x) F_SKIPBODY || negb hasBody)
  then
    update_NEW_MESSAGE ;;;
    CALLBACK_NOTIFY message_complete ;;;
    let* q := gets p in RETURN (q + 1)
  else if has_flag (flags x) F_SKIPBODY then
    update_NEW_MESSAGE ;;; CALLBACK_NOTIFY message_complete
  else if has_flag (flags x) F_CHUNKED then UPDATE_STATE s_chunk_size_start
  else if content_length x =? 0 then
    update_NEW_MESSAGE ;;; CALLBACK_NOTIFY message_complete
  else if negb (content_length x =? ULLONG_MAX) then UPDATE_STATE s_body_identity
  else if negb (http_message_needs_eof x) then
    update_NEW_MESSAGE ;;; CALLBACK_NOTIFY message_complete
  else UPDATE_STATE s_body_identity_eof.

(** ** Body *)

(** [to_read] bytes of the body are consumed; shared by [s_body_identity] and
    [s_chunk_data]. *)
Definition assert_content_length : M unit :=
  let* x := gets prs in
  assert (negb (content_length x =? 0) && negb (content_length x =? ULLONG_MAX)).

Definition consume_body : M unit :=
  let* q := gets p in
  let* x := gets prs in
  let to_read := Z.min (content_length x) (zlen data - q) in
  assert_content_length ;;;
  MARK body ;;;
  upd (fun x => set_content_length (content_length x - to_read) x) ;;;
  modify (set_p (q + (to_read - 1))).

Definition case_s_body_identity : M unit :=
  consume_body ;;;
  let* x := gets prs in
  if content_length x =? 0 then
    UPDATE_STATE s_message_done ;;;
    let* q := gets p in
    CALLBACK_DATA_ settings data body (fun m => q - m + 1) q ;;;
    REEXECUTE
  else ret tt.

Definition case_s_body_identity_eof : M unit :=
  MARK body ;;; modify (set_p (zlen data - 1)).

Definition case_s_message_done : M unit :=
  update_NEW_MESSAGE ;;;
  CALLBACK_NOTIFY message_complete ;;;
  let* x := gets prs in
  if upgrade x then let* q := gets p in RETURN (q + 1) else ret tt.

(** ** Chunks *)

Definition assert_chunked : M unit :=
  let* x := gets prs in assert (has_flag (flags x) F_CHUNKED).

Definition unhex_at (c : Z) : Z := znth unhex c 0.

Definition case_s_chunk_size_start (c : Z) : M unit :=
  (let* x := gets prs in assert (nread x =? 1)) ;;;
  assert_chunked ;;;
  let unhex_val := unhex_at c in
  if unhex_val =? -1 then fail HPE_INVALID_CHUNK_SIZE else
  upd (set_content_length unhex_val) ;;;
  UPDATE_STATE s_chunk_size.

Definition case_s_chunk_size (c : Z) : M unit :=
  assert_chunked ;;;
  if c =? CR then UPDATE_STATE s_chunk_size_almost_done else
  let unhex_val := unhex_at c in
  if unhex_val =? -1 then
    if (c =? #";") || (c =? #" ") then UPDATE_STATE s_chunk_parameters
    else fail HPE_INVALID_CHUNK_SIZE
  else
    let* x := gets prs in
    let t := u64 (u64 (content_length x * 16) + unhex_val) in
    if (ULLONG_MAX - 16) / 16 <? content_length x then fail HPE_INVALID_CONTENT_LENGTH
    else upd (set_content_length t).

Definition case_s_chunk_parameters (c : Z) : M unit :=
  assert_chunked ;;;
  if c =? CR then UPDATE_STATE s_chunk_size_almost_done else ret tt.

Definition case_s_chunk_size_almost_done (c : Z) : M unit :=
  assert_chunked ;;;
  STRICT_CHECK (negb (c =? LF)) ;;;
  upd (set_nread 0) ;;;
  let* x := gets prs in
  (if content_length x =? 0 then
     upd (fun x => set_flags (Z.lor (flags x) F_TRAILING) x) ;;;
     UPDATE_STATE s_header_field_start
   else UPDATE_STATE s_chunk_data) ;;;
  CALLBACK_NOTIFY chunk_header.

Definition case_s_chunk_data : M unit :=
  assert_chunked ;;;
  consume_body ;;;
  let* x := gets prs in
  if content_length x =? 0 then UPDATE_STATE s_chunk_data_almost_done else ret tt.

Definition case_s_chunk_data_almost_done (c : Z) : M unit :=
  assert_chunked ;;;
  (let* x := gets prs in assert (content_length x =? 0)) ;;;
  STRICT_CHECK (negb (c =? CR)) ;;;
  UPDATE_STATE s_chunk_data_done ;;;
  CALLBACK_DATA body.

Definition case_s_chunk_data_done (c : Z) : M unit :=
  assert_chunked ;;;
  STRICT_CHECK (negb (c =? LF)) ;;;
  upd (set_nread 0) ;;;
  UPDATE_STATE s_chunk_size_start ;;;
  CALLBACK_NOTIFY chunk_complete.

(** ** The switch and the loops *)

Definition switch_state : M unit :=
  let* s := gets p_state in
  let* c := gets ch in
  match s with
  | s_dead => case_s_dead c
  | s_start_req_or_res => case_s_start_req_or_res c
  | s_res_or_resp_H => case_s_res_or_resp_H c
  | s_start_res => case_s_start_res c
  | s_res_H => case_expect c #"T" s_res_HT
  | s_res_HT => case_expect c #"T" s_res_HTT
  | s_res_HTT => case_expect c #"P" s_res_HTTP
  | s_res_HTTP => case_expect c #"/" s_res_first_http_major
  | s_res_first_http_major => case_s_res_first_http_major c
  | s_res_http_major => case_s_res_http_major c
  | s_res_first_http_minor => case_s_res_first_http_minor c
  | s_res_http_minor => case_s_res_http_minor c
  | s_res_first_status_code => case_s_res_first_status_code c
  | s_res_status_code => case_s_res_status_code c
  | s_res_status_start => case_s_res_status_start c
  | s_res_status => case_s_res_status c
  | s_res_line_almost_done => case_expect c LF s_header_field_start
  | s_start_req => case_s_start_req c
  | s_req_method => case_s_req_method c
  | s_req_spaces_before_url => case_s_req_spaces_before_url c
  | s_req_schema | s_req_schema_slash | s_req_schema_slash_slash
  | s_req_server_start => case_s_req_schema c
  | s_req_server | s_req_server_with_at | s_req_path | s_req_query_string_start
  | s_req_query_string | s_req_fragment_start | s_req_fragment => case_s_req_server c
  | s_req_http_start => case_s_req_http_start c
  | s_req_http_H => case_expect c #"T" s_req_http_HT
  | s_req_http_HT => case_expect c #"T" s_req_http_HTT
  | s_req_http_HTT => case_expect c #"P" s_req_http_HTTP
  | s_req_http_HTTP => case_expect c #"/" s_req_first_http_major
  | s_req_first_http_major => case_s_req_first_http_major c
  | s_req_http_major => case_s_req_http_major c
  | s_req_first_http_minor => case_s_req_first_http_minor c
  | s_req_http_minor => case_s_req_http_minor c
  | s_req_line_almost_done => case_s_req_line_almost_done c
  | s_header_field_start => case_s_header_field_start c
  | s_header_field => case_s_header_field
  | s_header_value_discard_ws => case_s_header_value_discard_ws c
  | s_header_value_discard_ws_almost_done => case_expect c LF s_header_value_discard_lws
  | s_header_value_discard_lws => case_s_header_value_discard_lws c
  | s_header_value_start => case_s_header_value_start c
  | s_header_value => case_s_header_value
  | s_header_value_lws => case_s_header_value_lws c
  | s_header_almost_done => case_expect c LF s_header_value_lws
  | s_chunk_size_start => case_s_chunk_size_start c
  | s_chunk_size => case_s_chunk_size c
  | s_chunk_parameters => case_s_chunk_parameters c
  | s_chunk_size_almost_done => case_s_chunk_size_almost_done c
  | s_headers_almost_done => case_s_headers_almost_done c
  | s_headers_done => case_s_headers_done c
  | s_chunk_data => case_s_chunk_data
  | s_chunk_data_almost_done => case_s_chunk_data_almost_done c
  | s_chunk_data_done => case_s_chunk_data_done c
  | s_body_identity => case_s_body_identity
  | s_body_identity_eof => case_s_body_identity_eof
  | s_message_done => case_s_message_done
  end.

(** [reexecute:] with at most [fuel] rounds of the switch. *)
Fixpoint run_switch (fuel : nat) : M unit := fun e =>
  match fuel with
  | O => Exit XFuel e
  | S fuel' =>
      match switch_state e with
      | Exit XReexecute e' => run_switch fuel' e'
      | r => r
      end
  end.

Definition reexecute_fuel : nat := 8.

(** One iteration of the loop over the bytes, without the final [p++]. *)
Definition exec_byte : M unit :=
  let* q := gets p in
  modify (set_ch (znth data q 0)) ;;;
  let* s := gets p_state in
  (if PARSING_HEADER s then COUNT_HEADER_SIZE 1 else ret tt) ;;;
  run_switch reexecute_fuel.

Fixpoint exec_loop (fuel : nat) : M unit :=
  let* q := gets p in
  if q =? zlen data then ret tt else
  match fuel with
  | O => jump XFuel
  | S fuel' =>
      exec_byte ;;;
      modify (fun e => set_p (p e + 1) e) ;;;
      exec_loop fuel'
  end.

Definition bool_num (b : bool) : Z := if b then 1 else 0.
Definition is_marked (f : mark) (e : exec U) : bool :=
  match get_mark f e with Some _ => true | None => false end.

(** After the loop: the callbacks for the marks that are left. *)
Definition exec_end : M unit :=
  let* e := gets id in
  assert (bool_num (is_marked header_field e) + bool_num (is_marked header_value e)
          + bool_num (is_marked url e) + bool_num (is_marked body e)
          + bool_num (is_marked status e) <=? 1) ;;;
  CALLBACK_DATA_NOADVANCE header_field ;;;
  CALLBACK_DATA_NOADVANCE header_value ;;;
  CALLBACK_DATA_NOADVANCE url ;;;
  CALLBACK_DATA_NOADVANCE body ;;;
  CALLBACK_DATA_NOADVANCE status ;;;
  RETURN (zlen data).

(** The marks at the start of the data, from the state of the last call. *)
Definition initial_mark (s : state) : option mark :=
  match s with
  | s_header_field => Some header_field
  | s_header_value => Some header_value
  | s_req_path | s_req_schema | s_req_schema_slash | s_req_schema_slash_slash
  | s_req_server_start | s_req_server | s_req_server_with_at
  | s_req_query_string_start | s_req_query_string
  | s_req_fragment_start | s_req_fragment => Some url
  | s_res_status => Some status
  | _ => None
  end.

Definition exec_init (x : http_parser) (u : U) : exec U :=
  let e := mk_exec x u (pstate x) 0 0 None None None None None in
  match initial_mark (pstate x) with
  | Some f => set_mark f (Some 0) e
  | None => e
  end.

(** [len == 0]: the end of the input. *)
Definition exec_eof : M unit :=
  let* s := gets p_state in
  match s with
  | s_body_identity_eof => CALLBACK_NOTIFY_NOADVANCE message_complete ;;; jump (XReturn 0)
  | s_dead | s_start_req_or_res | s_start_res | s_start_req => jump (XReturn 0)
  | _ => SET_ERRNO HPE_INVALID_EOF_STATE ;;; jump (XReturn 1)
  end.

(** The result of a call: the returned count with the parser and the
    application's data, or a failed assertion. *)
Inductive outcome :=
  | Returned (n : Z) (x : http_parser) (u : U)
  | Aborted
  | OutOfFuel.

(** The label [error]. *)
Definition at_error (e : exec U) : outcome :=
  let x := prs e in
  let x := if decide (perrno x = HPE_OK) then set_perrno HPE_UNKNOWN x else x in
  Returned (p e) (set_pstate (p_state e) x) (usr e).

Definition finish {A : Type} (r : res U A) : outcome :=
  match r with
  | Exit (XReturn n) e => Returned n (prs e) (usr e)
  | Exit XError e => at_error e
  | Exit XAssert _ => Aborted
  | _ => OutOfFuel
  end.

Definition http_parser_execute (x : http_parser) (u : U) : outcome :=
  if negb (bool_decide (perrno x = HPE_OK)) then Returned 0 x u
  else if zlen data =? 0 then finish (exec_eof (exec_init x u))
  else finish ((exec_loop (length data) ;;; exec_end) (exec_init x u)).
End Execute.

Arguments Returned {U}.
Arguments Aborted {U}.
Arguments OutOfFuel {U}.
