(* ===== verification/HttpWp.v ===== *)
(** * Weakest preconditions for the exit monad of the HTTP parser *)

From S2P Require Import Prelude.
From S2P Require Import HttpChars.
From S2P Require Import HttpState.
From S2P Require Import HttpExec.

Section Wp.
Context {U : Type}.

Definition wp {A} (m : M U A) (Q : A -> exec U -> Prop) (X : exit -> exec U -> Prop)
  (e : exec U) : Prop :=
  match m e with
  | Val a e' => Q a e'
  | Exit x e' => X x e'
  end.

Lemma wp_bind {A B} (m : M U A) (k : A -> M U B) Q X e :
  wp m (fun a => wp (k a) Q X) X e -> wp (bind m k) Q X e.
Proof. unfold wp, bind. by destruct (m e). Qed.

Lemma wp_mono {A} (m : M U A) (Q Q' : A -> exec U -> Prop) (X X' : exit -> exec U -> Prop) e :
  wp m Q X e -> (forall a e', Q a e' -> Q' a e') -> (forall x e', X x e' -> X' x e') ->
  wp m Q' X' e.
Proof. unfold wp. destruct (m e); auto. Qed.
End Wp.

(** ** Tactics

    [norm] reduces projections of the records and the field updates;
    [wp_base] runs one operation that is not a callback. *)
Ltac norm :=
  cbn [prs usr p_state p ch header_field_mark header_value_mark url_mark body_mark status_mark
       set_prs set_usr set_p_state set_p set_ch get_mark set_mark
       type flags pstate header_state index nread content_length http_major http_minor
       status_code method perrno upgrade
       set_type set_flags set_pstate set_header_state set_index set_nread set_content_length
       set_http_major set_http_minor set_status_code set_method set_perrno set_upgrade
       id negb] in *.

Ltac wp_base :=
  lazymatch goal with
  | |- wp (bind _ _) _ _ _ => apply wp_bind
  | |- wp (ret ?a) ?Q ?X ?e => change (Q a e); cbv beta
  | |- wp (jump ?x) ?Q ?X ?e => change (X x e)
  | |- wp (gets ?f) ?Q ?X ?e => change (Q (f e) e); cbv beta
  | |- wp (modify ?f) ?Q ?X ?e => change (Q tt (f e)); cbv beta
  | |- wp (upd ?f) ?Q ?X ?e => change (Q tt (set_prs (f (prs e)) e)); cbv beta
  | |- wp (UPDATE_STATE ?s) _ _ _ => unfold UPDATE_STATE
  | |- wp (SET_ERRNO _) _ _ _ => unfold SET_ERRNO
  | |- wp (fail _) _ _ _ => unfold fail
  | |- wp goto_error _ _ _ => unfold goto_error
  | |- wp (RETURN _) _ _ _ => unfold RETURN
  | |- wp REEXECUTE _ _ _ => unfold REEXECUTE
  | |- wp (STRICT_CHECK _) _ _ _ => unfold STRICT_CHECK
  | |- wp (COUNT_HEADER_SIZE _) _ _ _ => unfold COUNT_HEADER_SIZE
  | |- wp (assert _) _ _ _ => unfold assert
  | |- wp update_NEW_MESSAGE _ _ _ => unfold update_NEW_MESSAGE
  | |- wp (CALLBACK_NOTIFY _ _) _ _ _ => unfold CALLBACK_NOTIFY
  | |- wp (CALLBACK_NOTIFY_NOADVANCE _ _) _ _ _ => unfold CALLBACK_NOTIFY_NOADVANCE
  | |- wp (CALLBACK_DATA _ _ _) _ _ _ => unfold CALLBACK_DATA
  | |- wp (CALLBACK_DATA_NOADVANCE _ _ _) _ _ _ => unfold CALLBACK_DATA_NOADVANCE
  | |- wp (if ?b then _ else _) _ _ _ => let E := fresh "E" in destruct b eqn:E
  | |- wp (match ?b with _ => _ end) _ _ _ => let E := fresh "E" in destruct b eqn:E
  | |- (match ?b with Some _ => _ | None => _ end) => let E := fresh "E" in destruct b eqn:E
  end; norm.

