(* ===== verification/HttpSafe.v ===== *)
(** * Safety and termination of [http_parser_execute]

    An invariant of the parser object between two calls and of the local
    variables between two bytes, preserved by every case of the switch. *)

From S2P Require Import Prelude.
From S2P Require Import Words.
From S2P Require Import HttpChars.
From S2P Require Import HttpUrl.
From S2P Require Import HttpState.
From S2P Require Import HttpExec.
From S2P Require Import HttpWp.

(** ** The invariant *)

(** The fields hold values that fit them. *)
Record fields_ok (x : http_parser) : Prop := mk_fields_ok {
  ok_flags : 0 <= flags x < 128;
  ok_index : 0 <= index x < 256;
  ok_nread : 0 <= nread x <= HTTP_MAX_HEADER_SIZE;
  ok_length : 0 <= content_length x <= ULLONG_MAX;
  ok_major : 0 <= http_major x <= 999;
  ok_minor : 0 <= http_minor x <= 999;
  ok_status : 0 <= status_code x <= 999 }.

(** The header states of [s_header_field] and of [s_header_value]. *)
Definition field_hs (h : header_states) : bool :=
  match h with
  | h_general | h_C | h_CO | h_CON | h_matching_connection | h_matching_proxy_connection
  | h_matching_content_length | h_matching_transfer_encoding | h_matching_upgrade
  | h_connection | h_content_length | h_transfer_encoding | h_upgrade => true
  | _ => false
  end.

Definition value_hs (h : header_states) : bool :=
  match h with
  | h_connection | h_transfer_encoding => false
  | _ => true
  end.

(** What each state relies on; [k] is 0 before a byte is counted in [nread]
    and 1 after. *)
Definition state_inv (k : Z) (s : state) (x : http_parser) : Prop :=
  match s with
  | s_req_method => index x <= zlen (method_string (method x))
  | s_header_field => field_hs (header_state x) = true
  | s_header_value => value_hs (header_state x) = true
  | s_chunk_size_start => nread x = k /\ has_flag (flags x) F_CHUNKED = true
  | s_chunk_size | s_chunk_parameters | s_chunk_size_almost_done =>
      has_flag (flags x) F_CHUNKED = true /\ content_length x < ULLONG_MAX
  | s_chunk_data =>
      has_flag (flags x) F_CHUNKED = true /\ 0 < content_length x < ULLONG_MAX
  | s_chunk_data_almost_done =>
      has_flag (flags x) F_CHUNKED = true /\ content_length x = 0
  | s_chunk_data_done => has_flag (flags x) F_CHUNKED = true
  | s_body_identity => 0 < content_length x < ULLONG_MAX
  | _ => True
  end.

(** The states in which a mark may be set. *)
Definition mark_state (f : mark) (s : state) : bool :=
  match f, s with
  | header_field, s_header_field => true
  | header_value, s_header_value => true
  | url, (s_req_path | s_req_schema | s_req_schema_slash | s_req_schema_slash_slash
  | s_req_server_start | s_req_server | s_req_server_with_at
  | s_req_query_string_start | s_req_query_string
  | s_req_fragment_start | s_req_fragment) => true
  | body, (s_body_identity | s_body_identity_eof | s_chunk_data
  | s_chunk_data_almost_done) => true
  | status, s_res_status => true
  | _, _ => false
  end.

Definition mark_ok (s : state) (q : Z) (f : mark) (o : option Z) : Prop :=
  match o with
  | None => True
  | Some m => 0 <= m <= q /\ mark_state f s = true
  end.

Lemma mark_state_unique f g s :
  mark_state f s = true -> mark_state g s = true -> f = g.
Proof. by destruct f, s; try discriminate; destruct g. Qed.

(** A parser that can be given data: not in an error state, or paused. *)
Definition running (x : http_parser) : Prop := perrno x = HPE_OK \/ perrno x = HPE_PAUSED.

Definition parser_ok (x : http_parser) : Prop :=
  running x -> fields_ok x /\ state_inv 0 (pstate x) x.

(** Callbacks that may return any value and pause the parser, and leave its
    other fields alone. *)
Definition cb_ok {U} (cb : http_cb U) : Prop := forall x u,
  exists r u', cb x u = (r, x, u') \/ cb x u = (r, set_perrno HPE_PAUSED x, u').

Record settings_ok {U} (st : http_parser_settings U) : Prop := mk_settings_ok {
  notify_ok : forall f cb, notify_cb st f = Some cb -> cb_ok cb;
  data_ok : forall f cb d, data_cb st f = Some cb -> cb_ok (cb d);
  headers_ok : forall cb, on_headers_complete st = Some cb -> cb_ok cb }.

(** How many times the switch can be run again on the same byte. *)
Definition rank (s : state) : nat :=
  match s with
  | s_header_value_lws | s_header_value_discard_lws => 3
  | s_header_field_start => 2
  | s_headers_almost_done | s_header_value | s_start_req_or_res | s_body_identity => 1
  | _ => 0
  end.

(** ** The conditions on the exits *)

Section Safe.
Context {U : Type} (settings : http_parser_settings U) (data : bytes).
Context (Hset : settings_ok settings).

Definition inv (k : Z) (e : exec U) : Prop :=
  perrno (prs e) = HPE_OK /\ fields_ok (prs e) /\ state_inv k (p_state e) (prs e) /\
  mark_ok (p_state e) (p e) header_field (header_field_mark e) /\
  mark_ok (p_state e) (p e) header_value (header_value_mark e) /\
  mark_ok (p_state e) (p e) url (url_mark e) /\
  mark_ok (p_state e) (p e) body (body_mark e) /\
  mark_ok (p_state e) (p e) status (status_mark e).

(** What a [return n] promises. *)
Definition return_ok (n : Z) (x : http_parser) : Prop :=
  0 <= n <= zlen data /\ parser_ok x /\
  (perrno x = HPE_OK -> n = zlen data \/ upgrade x = true).

Definition exits (s : state) (q : Z) (x : exit) (e : exec U) : Prop :=
  match x with
  | XReexecute => inv 1 e /\ q <= p e < zlen data /\ (rank (p_state e) < rank s)%nat
  | XError => 0 <= p e <= zlen data /\ ~ running (prs e)
  | XReturn n => return_ok n (prs e)
  | XAssert | XFuel => False
  end.

Definition next (q : Z) (_ : unit) (e : exec U) : Prop := inv 0 e /\ q <= p e < zlen data.

(** ** Callbacks *)

Lemma wp_run_callback (cb : http_cb U) err er Q X e :
  cb_ok cb -> err <> HPE_OK -> perrno (prs e) = HPE_OK ->
  (forall u, Q tt (set_usr u (set_prs (set_pstate (p_state e) (prs e)) e))) ->
  (forall u err', err' = err \/ err' = HPE_PAUSED ->
     X (XReturn er)
       (set_usr u (set_prs (set_perrno err' (set_pstate (p_state e) (prs e))) e))) ->
  wp (run_callback cb err er) Q X e.
Proof.
  intros Hcb Herr He HQ HX. destruct e as [x u s q c m1 m2 m3 m4 m5]. simpl in He.
  assert (He' : perrno (set_pstate s x) = HPE_OK) by done.
  unfold wp, run_callback, bind, modify, call, gets, SET_ERRNO, upd, ret, jump.
  change (set_prs ?y (mk_exec x ?a ?b ?c ?d ?e ?f ?g ?h ?i)) with (mk_exec y a b c d e f g h i).
  unfold set_prs, set_usr in HQ, HX. simpl in HQ, HX |- *.
  destruct (Hcb (set_pstate s x) u) as (r & u' & [E|E]); rewrite E;
    destruct (r =? 0); simpl; try case_decide; simpl in *; try congruence; try apply HQ;
    apply HX; auto.
Qed.

Lemma wp_call (cb : http_cb U) Q X e :
  cb_ok cb ->
  (forall r u, Q r (set_usr u (set_prs (prs e) e))) ->
  (forall r u, Q r (set_usr u (set_prs (set_perrno HPE_PAUSED (prs e)) e))) ->
  wp (call cb) Q X e.
Proof.
  intros Hcb H1 H2. unfold wp, call.
  destruct (Hcb (prs e) (usr e)) as (r & u & [E|E]); rewrite E; auto.
Qed.

Lemma wp_notify f er Q X e :
  perrno (prs e) = HPE_OK ->
  (forall u s, s = p_state e \/ s = pstate (prs e) ->
     Q tt (set_usr u (set_prs (set_pstate s (prs e)) e))) ->
  (forall u err, err <> HPE_OK -> err = HPE_PAUSED \/ err = notify_errno f ->
     X (XReturn er)
       (set_usr u (set_prs (set_perrno err (set_pstate (p_state e) (prs e))) e))) ->
  wp (CALLBACK_NOTIFY_ settings f er) Q X e.
Proof.
  intros He HQ HX. unfold CALLBACK_NOTIFY_. apply wp_bind.
  unfold wp at 1, assert_no_errno, bind, gets, assert. rewrite He. simpl.
  destruct (notify_cb settings f) as [cb|] eqn:E.
  - apply wp_run_callback; [by eapply notify_ok|by destruct f|done|by auto|].
    intros u err' H'. apply HX; destruct H' as [->| ->]; by (auto || destruct f).
  - specialize (HQ (usr e) (pstate (prs e)) (or_intror eq_refl)). unfold wp, ret.
    by destruct e as [[]]; simpl in *.
Qed.

Lemma wp_data f len er Q X e :
  perrno (prs e) = HPE_OK ->
  (forall m, get_mark f e = Some m -> 0 <= m /\ 0 <= len m /\ m + len m <= zlen data) ->
  (forall u s, Q tt (set_mark f None (set_usr u (set_prs (set_pstate s (prs e)) e)))) ->
  (forall u err, err <> HPE_OK -> err = HPE_PAUSED \/ err = data_errno f ->
     X (XReturn er)
       (set_usr u (set_prs (set_perrno err (set_pstate (p_state e) (prs e))) e))) ->
  wp (CALLBACK_DATA_ settings data f len er) Q X e.
Proof.
  intros He Hin HQ HX. unfold CALLBACK_DATA_. apply wp_bind.
  unfold wp at 1, assert_no_errno, bind at 1, gets at 1, assert. rewrite He. simpl.
  apply wp_bind. unfold wp at 1, gets.
  assert (HQ0 : Q tt (set_mark f None e)).
  { specialize (HQ (usr e) (pstate (prs e))). by destruct e as [[]]. }
  destruct (get_mark f e) as [m|] eqn:Em.
  2:{ unfold wp, ret. destruct e, f; simpl in *; subst; done. }
  destruct (Hin m eq_refl) as (Hm0 & Hm1 & Hm2).
  apply wp_bind. destruct (data_cb settings f) as [cb|] eqn:E.
  - apply wp_bind. rewrite (in_data_true data m (len m)) by done. unfold wp at 1, assert, ret.
    apply wp_run_callback; [by eapply data_ok|by destruct f|done| |].
    + intros u. exact (HQ u (p_state e)).
    + intros u err' H'. apply HX; destruct H' as [->| ->]; by (auto || destruct f).
  - exact HQ0.
Qed.
(** ** Symbolic execution of a case *)

Lemma flags_lor a b : 0 <= a < 128 -> 0 <= b < 128 -> 0 <= Z.lor a b < 128.
Proof. apply (lor_bound a b 7). lia. Qed.

Lemma connection_flag_range h : 0 <= connection_flag h < 128.
Proof. destruct h; vm_compute; split; congruence. Qed.

Lemma value_flag_range h : 0 <= value_flag h < 128.
Proof. destruct h; vm_compute; split; congruence. Qed.

Lemma unhex_range c : -1 <= unhex_at c <= 15.
Proof.
  unfold unhex_at, znth. destruct (c <? 0); [lia|].
  destruct (nth_in_or_default (Z.to_nat c) unhex 0) as [H| ->]; [|lia].
  assert (F : Forall (fun v => -1 <= v <= 15) unhex) by (repeat constructor; lia).
  rewrite List.Forall_forall in F. auto.
Qed.

Lemma IS_NUM_range c : IS_NUM c = true -> 0 <= c - #"0" <= 9.
Proof. unfold IS_NUM. chars. intros. zprop. lia. Qed.

Lemma u16_digit a c : 0 <= a <= 999 -> 0 <= c <= 9 -> u16 (u16 (a * 10) + c) = a * 10 + c.
Proof.
  intros. unfold u16, wrap. change (2 ^ 16) with 65536.
  rewrite (Z.mod_small (a * 10)) by lia. apply Z.mod_small. lia.
Qed.

(** The states whose invariant says nothing. *)
Definition plain (s : state) : bool :=
  match s with
  | s_req_method | s_header_field | s_header_value | s_chunk_size_start | s_chunk_size
  | s_chunk_parameters | s_chunk_size_almost_done | s_chunk_data | s_chunk_data_almost_done
  | s_chunk_data_done | s_body_identity => false
  | _ => true
  end.

Lemma plain_inv k s x : plain s = true -> state_inv k s x.
Proof. by destruct s. Qed.

Lemma mark_ok_move s s' q q' f o :
  mark_ok s q f o -> q <= q' -> mark_state f s' = true -> mark_ok s' q' f o.
Proof. destruct o; [|done]. intros [] ? ?. split; [lia|done]. Qed.

Lemma parse_url_char_class s c :
  parse_url_char s c <> s_dead -> mark_state url (parse_url_char s c) = true.
Proof. unfold parse_url_char, url_server_char. destruct s; by repeat case_match. Qed.

Lemma mark_url_plain s : mark_state url s = true -> plain s = true.
Proof. by destruct s. Qed.

Lemma field_start_hs c : field_hs (field_start_state c) = true.
Proof. unfold field_start_state. by repeat case_match. Qed.

Create HintDb http.
#[local] Hint Resolve parse_url_char_class mark_url_plain field_start_hs : http.

Lemma wp_push_digit get set err c Q X (e : exec U) :
  IS_NUM c = true -> 0 <= get (prs e) <= 999 ->
  (forall v x, get (set v x) = v) -> (forall v w x, set v (set w x) = set v x) ->
  (forall v, 0 <= v <= 999 -> Q tt (set_prs (set v (prs e)) e)) ->
  (forall v, X XError (set_prs (set_perrno err (set v (prs e))) e)) ->
  wp (push_digit get set err c) Q X e.
Proof.
  intros Hc Hg Hgs Hss HQ HX. apply IS_NUM_range in Hc.
  unfold wp, push_digit, bind, upd, modify, gets, fail, SET_ERRNO, goto_error, jump, ret.
  cbn [prs set_prs]. unfold bind, upd, modify. cbn [prs set_prs].
  rewrite !Hgs, !Hss, u16_digit by lia.
  destruct (999 <? _) eqn:E; [apply HX|]. apply HQ. zprop. lia.
Qed.

Lemma new_message_plain x : plain (NEW_MESSAGE x) = true.
Proof. unfold NEW_MESSAGE, start_state. by repeat case_match. Qed.
#[local] Hint Resolve new_message_plain : http.

Lemma wp_mark f Q X (e : exec U) :
  (exists s, mark_ok s (p e) f (get_mark f e)) -> 0 <= p e ->
  (forall m, 0 <= m <= p e -> Q tt (set_mark f (Some m) e)) ->
  wp (MARK f) Q X e.
Proof.
  intros [s Hm] Hp HQ. unfold wp, MARK, modify.
  destruct (get_mark f e) as [m|] eqn:E; [|apply HQ; lia].
  replace e with (set_mark f (Some m) e) at 1; [apply HQ; apply Hm|].
  destruct e, f; simpl in *; by subst.
Qed.

(** *** Tactics

    [wp_step] runs one operation; [finish_inv] proves the conditions on the
    exits. *)
Ltac mark_inside :=
  match goal with
  | H : ?o = Some ?m, M : mark_ok _ _ _ ?o |- _ => rewrite H in M; destruct M as [M _]; lia
  | H : Some _ = Some _ |- _ => injection H as <-; lia
  | H : None = Some _ |- _ => discriminate H
  | _ => idtac
  end.

Ltac wp_callback :=
  lazymatch goal with
  | |- wp (MARK _) _ _ _ =>
      apply wp_mark; [norm; first [exists s_dead; exact I|eexists; eassumption]|norm; lia
        |let v := fresh "m" in let H := fresh "Hm" in intros v H]
  | |- wp (CALLBACK_NOTIFY_ _ _ _) _ _ _ =>
      apply wp_notify; [norm; first [assumption|reflexivity]
        |let v := fresh "usr" in let s := fresh "st" in let H := fresh "Hst" in intros v s H
        |let v := fresh "usr" in let er := fresh "er" in let N := fresh "Ner" in
         let D := fresh "Der" in intros v er N D]
  | |- wp (CALLBACK_DATA_ _ _ _ _ _) _ _ _ =>
      apply wp_data; [norm; first [assumption|reflexivity]
        |let v := fresh "m" in let H := fresh "Hm" in intros v H; norm; mark_inside
        |let v := fresh "usr" in let s := fresh "st" in intros v s
        |let v := fresh "usr" in let er := fresh "er" in let N := fresh "Ner" in
         let D := fresh "Der" in intros v er N D]
  | |- wp (push_digit _ _ _ _) _ _ _ =>
      apply wp_push_digit; norm; [zprop; assumption|lia|reflexivity|reflexivity
        |let v := fresh "v" in let H := fresh "Hv" in intros v H
        |let v := fresh "v" in intros v]
  | |- wp (call _) _ _ _ =>
      apply wp_call; [eapply headers_ok; eassumption
        |let v := fresh "r" in let w := fresh "usr" in intros v w
        |let v := fresh "r" in let w := fresh "usr" in intros v w]
  end; norm.

Ltac wp_step := first [wp_callback | wp_base].

(** Split an execution state that satisfies the invariant into its parts; the
    marks that the state excludes are null. *)
Lemma mark_none s q f o : mark_ok s q f o -> mark_state f s = false -> o = None.
Proof. destruct o; [|done]. intros [_ H]. congruence. Qed.

Definition case_ok (s : state) (m : M U unit) : Prop := forall e,
  inv 1 e -> 0 <= p e < zlen data -> p_state e = s ->
  wp m (next (p e)) (exits s (p e)) e.

Ltac open_case :=
  let Hi := fresh "Hinv" in let Hp := fresh "Hp" in let Hs := fresh "Hs" in
  let He := fresh "He" in let Hf := fresh "Hf" in
  let M1 := fresh "M" in let M2 := fresh "M" in let M3 := fresh "M" in
  let M4 := fresh "M" in let M5 := fresh "M" in
  let c0 := fresh "c" in let er := fresh "er" in let s := fresh "s" in
  intros [[ty fl ps hs ix nr cl ma mi sc me er up] u s q c0 m1 m2 m3 m4 m5] Hi Hp Hs;
  destruct Hi as (He & Hf & Hi & M1 & M2 & M3 & M4 & M5);
  norm; subst s; subst er; destruct Hf; norm; cbn [state_inv] in Hi; norm;
  repeat match goal with
  | H : mark_ok _ _ _ ?m |- _ => apply mark_none in H; [|first [reflexivity|solve [auto]]]; subst m
  end.

Ltac num_facts :=
  repeat match goal with
  | H : negb (IS_NUM _) = false |- _ => apply negb_false_iff, IS_NUM_range in H
  end; chars; zprop.

Ltac solve_fields :=
  num_facts; constructor; norm; unfold HTTP_MAX_HEADER_SIZE, ULLONG_MAX in *;
  solve [lia|apply flags_lor; first
         [assumption|apply value_flag_range|apply connection_flag_range
         |vm_compute; split; congruence]].

Ltac finish_inv :=
  match goal with
  | |- next _ _ _ => unfold next, inv; norm; split_and!
  | |- exits _ _ XError _ => unfold exits, running; norm; split;
       [lia|intros [|]; congruence]
  | |- exits _ _ XReexecute _ => unfold exits, inv; norm; split_and!
  | |- exits _ _ (XReturn _) _ => unfold exits, return_ok, parser_ok; norm; split_and!
  | |- exits _ _ _ _ => exfalso
  | _ => idtac
  end.

Ltac finish_goal :=
  norm;
  match goal with
  | |- mark_ok _ _ _ None => exact I
  | |- mark_ok _ _ _ (Some _) => split; [lia|first [reflexivity|solve [auto with http]]]
  | |- mark_ok _ _ _ _ => solve [eapply mark_ok_move; [eassumption|lia|auto with http]]
  | |- fields_ok _ => solve_fields
  | |- state_inv _ _ _ => solve [apply plain_inv; auto with http]
  | |- state_inv _ _ _ => cbn [state_inv]; norm; solve
       [done|lia|auto with http|split; [done || lia|done || lia]|repeat case_match; done]
  | |- running _ -> _ => intros _; split;
       [solve_fields|norm; solve [apply plain_inv; auto with http|cbn [state_inv]; norm; done
                                 |cbn [state_inv]; norm; lia]]
  | |- _ = HPE_OK -> _ =>
       let H := fresh in intros H; first [congruence|right; zprop; assumption]
  | |- (rank _ < rank _)%nat => cbn [rank]; lia
  | |- _ => solve [reflexivity|lia|assumption]
  end.

Ltac run_case := open_case; repeat wp_step; finish_inv; try finish_goal.

Lemma ok_s_dead c : case_ok s_dead (case_s_dead c).
Proof. unfold case_s_dead. run_case. Qed.

Lemma ok_s_start_req_or_res c : case_ok s_start_req_or_res (case_s_start_req_or_res settings c).
Proof. unfold case_s_start_req_or_res. run_case. Qed.

Lemma ok_s_res_or_resp_H c : case_ok s_res_or_resp_H (case_s_res_or_resp_H c).
Proof. unfold case_s_res_or_resp_H. run_case. Qed.

Lemma ok_s_start_res c : case_ok s_start_res (case_s_start_res settings c).
Proof. unfold case_s_start_res. run_case. Qed.

Lemma ok_expect s c want next : plain s = true ->
  (forall f, mark_state f s = false) -> plain next = true ->
  case_ok s (case_expect c want next).
Proof. intros Hs Hm Hn. unfold case_expect. run_case. Qed.

Lemma ok_s_res_first_http_major c : case_ok s_res_first_http_major (case_s_res_first_http_major c).
Proof. unfold case_s_res_first_http_major. chars. run_case. Qed.

Lemma ok_s_res_http_major c : case_ok s_res_http_major (case_s_res_http_major c).
Proof. unfold case_s_res_http_major. run_case. Qed.

Lemma ok_s_req_spaces_before_url c :
  case_ok s_req_spaces_before_url (case_s_req_spaces_before_url c).
Proof. unfold case_s_req_spaces_before_url, url_char. run_case. Qed.

Lemma ok_s_res_first_http_minor c : case_ok s_res_first_http_minor (case_s_res_first_http_minor c).
Proof. unfold case_s_res_first_http_minor. run_case. Qed.

Lemma ok_s_res_http_minor c : case_ok s_res_http_minor (case_s_res_http_minor c).
Proof. unfold case_s_res_http_minor. run_case. Qed.

Lemma ok_s_res_first_status_code c : case_ok s_res_first_status_code (case_s_res_first_status_code c).
Proof. unfold case_s_res_first_status_code. run_case. Qed.

Lemma ok_s_res_status_code c : case_ok s_res_status_code (case_s_res_status_code c).
Proof. unfold case_s_res_status_code. run_case. Qed.

Lemma ok_s_res_status_start c : case_ok s_res_status_start (case_s_res_status_start c).
Proof. unfold case_s_res_status_start. run_case. Qed.

Lemma ok_s_res_status c : case_ok s_res_status (case_s_res_status settings data c).
Proof. unfold case_s_res_status. run_case. Qed.

Lemma ok_s_start_req c : case_ok s_start_req (case_s_start_req settings c).
Proof.
  unfold case_s_start_req. run_case;
    match goal with E : method_of_letter _ = Some ?m |- _ => pose proof (method_len m) end;
    finish_goal.
Qed.

Lemma ok_req_schema s c : mark_state url s = true -> case_ok s (case_s_req_schema c).
Proof. intros Hu. unfold case_s_req_schema, url_char. destruct s; try discriminate; run_case. Qed.

Lemma ok_req_server s c : mark_state url s = true -> case_ok s (case_s_req_server settings data c).
Proof. intros Hu. unfold case_s_req_server, url_char.
  destruct (c =? CR); destruct s; try discriminate; run_case. Qed.

Lemma ok_s_req_http_start c : case_ok s_req_http_start (case_s_req_http_start c).
Proof. unfold case_s_req_http_start. run_case. Qed.

Lemma ok_s_req_first_http_major c : case_ok s_req_first_http_major (case_s_req_first_http_major c).
Proof. unfold case_s_req_first_http_major. run_case. Qed.

Lemma ok_s_req_http_major c : case_ok s_req_http_major (case_s_req_http_major c).
Proof. unfold case_s_req_http_major. run_case. Qed.

Lemma ok_s_req_first_http_minor c : case_ok s_req_first_http_minor (case_s_req_first_http_minor c).
Proof. unfold case_s_req_first_http_minor. run_case. Qed.

Lemma ok_s_req_http_minor c : case_ok s_req_http_minor (case_s_req_http_minor c).
Proof. unfold case_s_req_http_minor. run_case. Qed.

Lemma ok_s_req_line_almost_done c : case_ok s_req_line_almost_done (case_s_req_line_almost_done c).
Proof. unfold case_s_req_line_almost_done. run_case. Qed.

Lemma ok_s_header_field_start c : case_ok s_header_field_start (case_s_header_field_start c).
Proof. unfold case_s_header_field_start. run_case. Qed.

Lemma ok_s_header_value_start c : case_ok s_header_value_start (case_s_header_value_start c).
Proof. unfold case_s_header_value_start. run_case. Qed.

Lemma ok_s_header_value_discard_ws c : case_ok s_header_value_discard_ws (case_s_header_value_discard_ws c).
Proof. unfold case_s_header_value_discard_ws, case_s_header_value_start. run_case. Qed.

Lemma ok_s_header_value_lws c : case_ok s_header_value_lws (case_s_header_value_lws c).
Proof. unfold case_s_header_value_lws, set_value_flag. run_case. Qed.

Lemma ok_s_header_value_discard_lws c : case_ok s_header_value_discard_lws (case_s_header_value_discard_lws settings data c).
Proof. unfold case_s_header_value_discard_lws, set_value_flag. run_case. Qed.

(** The tables of methods never lead outside a method's name. *)
Lemma method_switch_index m i c m' :
  method_switch m i c = Some m' -> 0 <= i -> i + 1 <= zlen (method_string m').
Proof.
  unfold method_switch. intros H Hi.
  repeat case_match; simplify_eq; zprop;
    repeat match goal with H : (?i =? _) = true |- _ => apply Z.eqb_eq in H end;
    subst; vm_compute; congruence.
Qed.

Lemma str_at_ok s i : 0 <= i <= zlen s -> exists m, str_at s i = Some m.
Proof. intros. unfold str_at. zbool; eauto. Qed.

Lemma str_at_nonzero s i m : str_at s i = Some m -> m <> 0 -> 0 <= i < zlen s.
Proof. unfold str_at. zbool; simpl; intros; simplify_eq; lia. Qed.

Lemma ok_s_req_method c : case_ok s_req_method (case_s_req_method c).
Proof.
  unfold case_s_req_method. open_case. pose proof (method_len me).
  assert (Hw : wrap 8 (ix + 1) = ix + 1) by (apply wrap_small; lia).
  repeat wp_step; rewrite ?Hw; finish_inv; try finish_goal.
  - apply Z.eqb_eq in E2. subst. cbn [state_inv]. norm.
    apply str_at_nonzero in E0; [lia|by apply Z.eqb_neq].
  - cbn [state_inv]. norm. apply method_switch_index in E3; [lia|lia].
  - destruct (str_at_ok (method_string me) ix) as [m Hm]; [lia|congruence].
Qed.

Lemma ok_s_headers_almost_done c : case_ok s_headers_almost_done (case_s_headers_almost_done settings c).
Proof. unfold case_s_headers_almost_done. run_case. Qed.

Lemma ok_s_headers_done c : case_ok s_headers_done (case_s_headers_done settings c).
Proof. unfold case_s_headers_done. run_case. Qed.

Ltac zfacts :=
  zprop; unfold HTTP_MAX_HEADER_SIZE, ULLONG_MAX in *;
  repeat match goal with
  | H : (_ && _) = false |- _ => apply andb_false_iff in H; destruct H
  end; zprop.

Lemma ok_s_body_identity : case_ok s_body_identity (case_s_body_identity settings data).
Proof.
  unfold case_s_body_identity, consume_body, assert_content_length.
  run_case; zfacts; lia.
Qed.

Lemma ok_s_body_identity_eof : case_ok s_body_identity_eof (case_s_body_identity_eof data).
Proof. unfold case_s_body_identity_eof. run_case. Qed.

Lemma ok_s_message_done : case_ok s_message_done (case_s_message_done settings).
Proof. unfold case_s_message_done. run_case. Qed.

Ltac finish_chunk :=
  try intros _; cbn [state_inv]; norm; zfacts; try lia;
  intuition (congruence || lia || solve_fields).

Lemma ok_s_chunk_size_start c : case_ok s_chunk_size_start (case_s_chunk_size_start c).
Proof.
  unfold case_s_chunk_size_start, assert_chunked. pose proof (unhex_range c).
  run_case; finish_chunk.
Qed.

Lemma ok_s_chunk_parameters c : case_ok s_chunk_parameters (case_s_chunk_parameters c).
Proof. unfold case_s_chunk_parameters, assert_chunked. run_case; finish_chunk. Qed.

Lemma ok_s_chunk_size_almost_done c :
  case_ok s_chunk_size_almost_done (case_s_chunk_size_almost_done settings c).
Proof. unfold case_s_chunk_size_almost_done, assert_chunked. run_case; finish_chunk. Qed.

Lemma ok_s_chunk_data : case_ok s_chunk_data (case_s_chunk_data data).
Proof.
  unfold case_s_chunk_data, consume_body, assert_content_length, assert_chunked.
  run_case; finish_chunk.
Qed.

Lemma ok_s_chunk_data_almost_done c :
  case_ok s_chunk_data_almost_done (case_s_chunk_data_almost_done settings data c).
Proof. unfold case_s_chunk_data_almost_done, assert_chunked. run_case; finish_chunk. Qed.

Lemma ok_s_chunk_data_done c : case_ok s_chunk_data_done (case_s_chunk_data_done settings c).
Proof. unfold case_s_chunk_data_done, assert_chunked. run_case; finish_chunk. Qed.

(** The overflow test on [content_length] is exact enough: what is stored did
    not wrap around and is not the value that stands for "no length". *)
Lemma length_push cl v k :
  0 < k -> 0 <= cl <= ULLONG_MAX -> ((ULLONG_MAX - k) / k <? cl) = false -> 0 <= v < k ->
  u64 (u64 (cl * k) + v) = cl * k + v /\ 0 <= cl * k + v < ULLONG_MAX.
Proof.
  intros Hk Hcl Hlim Hv. apply Z.ltb_ge in Hlim.
  assert (k * ((ULLONG_MAX - k) / k) <= ULLONG_MAX - k) by (apply Z.mul_div_le; lia).
  assert (cl * k <= k * ((ULLONG_MAX - k) / k)) by nia.
  assert (0 <= cl * k) by nia.
  rewrite (wrap_small 64 (cl * k)), wrap_small by (unfold ULLONG_MAX in *; lia). lia.
Qed.

Lemma ok_s_chunk_size c : case_ok s_chunk_size (case_s_chunk_size c).
Proof.
  unfold case_s_chunk_size, assert_chunked. pose proof (unhex_range c).
  run_case; try finish_chunk;
    destruct (length_push cl (unhex_at c) 16) as [-> ?]; finish_chunk.
Qed.

(** ** Header fields *)

Lemma u8_range z : 0 <= wrap 8 z < 256.
Proof. unfold wrap. apply Z.mod_pos_bound. lia. Qed.

Lemma match_const_ok s i c cur bad fin :
  0 <= i -> exists h, match_const s i c cur bad fin = Some h /\ (h = cur \/ h = bad \/ h = fin).
Proof.
  intros Hi. unfold match_const. destruct (Z.ltb_spec (zlen s) i); [eauto|].
  destruct (str_at_ok s i) as [m ->]; [lia|]. simpl. eexists. split; [done|].
  repeat case_match; auto.
Qed.

Lemma field_step_ok x b c :
  field_hs (header_state x) = true -> 0 <= index x < 256 ->
  exists h i, header_field_step x b c = Some (set_header_state h (set_index i x)) /\
    field_hs h = true /\ 0 <= i < 256.
Proof.
  intros Hh Hi. pose proof (u8_range (index x + 1)) as Hu.
  assert (Eta : set_header_state (header_state x) (set_index (index x) x) = x) by by destruct x.
  assert (Keep : forall h, field_hs h = true ->
    exists h' i, Some (set_header_state h x) = Some (set_header_state h' (set_index i x)) /\
      field_hs h' = true /\ 0 <= i < 256).
  { intros h ?. exists h, (index x). split_and!; [|done|lia|lia]. by destruct x. }
  assert (Same : exists h i, Some x = Some (set_header_state h (set_index i x)) /\
      field_hs h = true /\ 0 <= i < 256).
  { exists (header_state x), (index x). rewrite Eta. auto. }
  unfold header_field_step. destruct (header_state x) eqn:E; try discriminate;
    try (destruct (b =? #" "); first [exact Same|exact (Keep h_general eq_refl)]);
    try exact Same;
    try (eexists _, (wrap 8 (index x + 1)); split; [reflexivity|]; split; [|lia];
         by repeat case_match);
    cbv zeta beta; norm;
    lazymatch goal with |- context [match_const ?s ?i ?c ?a ?d ?e] =>
      destruct (match_const_ok s i c a d e) as (h & -> & Hhs); [lia|];
      exists h, (wrap 8 (index x + 1)); split; [reflexivity|]; split; [|lia];
      by destruct Hhs as [->|[->| ->]]
    end.
Qed.

Lemma field_loop_ok l (e : exec U) :
  field_hs (header_state (prs e)) = true -> 0 <= index (prs e) < 256 ->
  exists h i c n,
    header_field_loop l e =
      Val tt (set_ch c (set_p (p e + n) (set_prs (set_header_state h (set_index i (prs e))) e))) /\
    field_hs h = true /\ 0 <= i < 256 /\ 0 <= n <= zlen l.
Proof.
  revert e. induction l as [|b l IH]; intros e Hh Hi.
  - exists (header_state (prs e)), (index (prs e)), (ch e), 0. split_and!; try done; try lia.
    rewrite Z.add_0_r. by destruct e as [[]].
  - cbn [header_field_loop]. unfold bind, modify, gets, ret, jump. norm. rewrite zlen_cons.
    pose proof (zlen_nonneg l). destruct (TOKEN b =? 0).
    + exists (header_state (prs e)), (index (prs e)), b, 0. rewrite Z.add_0_r.
      split_and!; try done; try lia. by destruct e as [[]].
    + change (prs (set_ch b e)) with (prs e).
      destruct (field_step_ok (prs e) b (TOKEN b) Hh Hi) as (h & i & -> & Hh' & Hi').
      match goal with |- context [header_field_loop l ?e'] =>
        destruct (IH e') as (h2 & i2 & c2 & n & E & ? & ? & ?); [done|done|] end.
      rewrite E.
      exists h2, i2, c2, (1 + n). split_and!; try done; try lia.
      replace (p e + (1 + n)) with (p e + 1 + n) by lia. reflexivity.
Qed.

Lemma ok_s_header_field : case_ok s_header_field (case_s_header_field settings data).
Proof.
  unfold case_s_header_field. open_case. do 2 wp_step.
  apply wp_bind. unfold wp at 1.
  match goal with |- context [header_field_loop ?l ?e'] =>
    destruct (field_loop_ok l e') as (h & i & c2 & n & -> & ? & ? & Hn); [done|done|] end.
  norm. assert (zlen (drop (Z.to_nat q) data) = zlen data - q) as Hd
    by (unfold zlen in *; rewrite length_drop; lia).
  rewrite Hd in Hn. assert (0 <= u32 (nr + (q + n - q))) by (apply wrap_range; lia).
  repeat wp_step; finish_inv; zprop; finish_goal.
Qed.

(** ** Header values *)

Lemma memchr_range l c n r : memchr l c n = Some r -> 0 <= r < Z.of_nat n.
Proof.
  revert n r. induction l as [|b l IH]; intros [|n] r; simpl; try discriminate.
  destruct (b =? c); [intros [= <-]; lia|].
  destruct (memchr l c n) as [r'|] eqn:E; [|discriminate]. intros [= <-].
  apply IH in E. lia.
Qed.

Lemma memchr_not_first b l c n r :
  memchr (b :: l) c n = Some r -> b <> c -> 1 <= r < Z.of_nat n.
Proof.
  intros H Hb. pose proof (memchr_range _ _ _ _ H). destruct n; [discriminate|]. simpl in H.
  rewrite (proj2 (Z.eqb_neq b c)) in H by done.
  destruct (memchr l c n) as [r'|] eqn:E; [|discriminate]. injection H as <-.
  apply memchr_range in E. lia.
Qed.

Lemma drop_cons_znth q : 0 <= q < zlen data ->
  exists l, drop (Z.to_nat q) data = znth data q 0 :: l.
Proof.
  unfold zlen. intros. destruct (lookup_lt_is_Some_2 data (Z.to_nat q)) as [b Hb]; [lia|].
  rewrite (drop_S _ _ _ Hb), (znth_lookup _ _ _ _ (proj1 H) Hb). eauto.
Qed.

(** The jump to the end of the line goes forward and stays inside the data. *)
Lemma skip_general_range q : 0 <= q < zlen data ->
  znth data q 0 <> CR -> znth data q 0 <> LF -> q <= skip_general data q < zlen data.
Proof.
  intros Hq Hcr Hlf. destruct (drop_cons_znth q Hq) as [l El]. unfold skip_general.
  assert (HTTP_MAX_HEADER_SIZE = 81920) by done.
  rewrite El. case_match eqn:E1; case_match eqn:E2;
    repeat match goal with H : memchr _ _ _ = Some _ |- _ =>
      apply memchr_not_first in H; [|assumption] end;
    try case_match; lia.
Qed.

Definition value_mid (e : exec U) (q : Z) (e' : exec U) : Prop :=
  perrno (prs e') = HPE_OK /\ fields_ok (prs e') /\ p_state e' = s_header_value /\
  q <= p e' < zlen data /\ header_value_mark e' = header_value_mark e /\
  header_field_mark e' = None /\ url_mark e' = None /\ body_mark e' = None /\
  status_mark e' = None.

Lemma wp_match_value s c cur bad fin Q X (e : exec U) :
  (forall i h, 0 <= i < 256 -> h = cur \/ h = bad \/ h = fin ->
     Q h (set_prs (set_index i (prs e)) e)) ->
  wp (match_value s c cur bad fin) Q X e.
Proof.
  intros HQ. unfold match_value. do 4 wp_step.
  change (index (set_index (u8 (index (prs e) + 1)) (prs e))) with (u8 (index (prs e) + 1)).
  pose proof (u8_range (index (prs e) + 1)).
  edestruct match_const_ok as (h & -> & Hh); [|by apply HQ]. lia.
Qed.

Lemma value_step_ok h b (e : exec U) :
  value_hs h = true -> perrno (prs e) = HPE_OK -> fields_ok (prs e) ->
  p_state e = s_header_value -> 0 <= p e < zlen data ->
  header_field_mark e = None -> url_mark e = None -> body_mark e = None -> status_mark e = None ->
  b = znth data (p e) 0 -> b <> CR -> b <> LF ->
  wp (header_value_step data h b (LOWER b))
    (fun h' e' => value_hs h' = true /\ value_mid e (p e) e')
    (exits s_header_value (p e)) e.
Proof.
  destruct e as [[ty fl ps hs ix nr cl ma mi sc me er up] u s q c0 m1 m2 m3 m4 m5]. norm.
  intros Hh -> Hf -> Hp -> -> -> -> Hb Hcr Hlf. destruct Hf. norm.
  pose proof (skip_general_range q Hp). rewrite <- Hb in *.
  destruct (skip_general_range q) as [Hsk1 Hsk2]; [done|congruence|congruence|].
  unfold header_value_step. destruct h; try discriminate;
    repeat first [apply wp_match_value; intros i h ? Hhs|wp_step];
    try finish_inv; try finish_goal;
    try (destruct (length_push cl (b - #"0") 10) as [-> ?];
         [lia|lia|assumption|num_facts; lia|]);
    (split; [try (destruct_or! Hhs; subst); solve [done|repeat case_match; done]|]);
    unfold value_mid; norm; split_and!; try finish_goal.
Qed.

Lemma exits_mono s q q' x (e : exec U) : q' <= q -> exits s q x e -> exits s q' x e.
Proof. destruct x; try done. simpl. intros ? (? & ? & ?). split_and!; try done; lia. Qed.

Definition value_done (q : Z) (h : header_states) (e : exec U) : Prop :=
  perrno (prs e) = HPE_OK /\ fields_ok (prs e) /\ q <= p e /\
  header_field_mark e = None /\ url_mark e = None /\ body_mark e = None /\
  status_mark e = None /\
  (p_state e = s_header_value /\ value_hs h = true /\ p e = zlen data /\
     mark_ok s_header_value q header_value (header_value_mark e) \/
   p_state e = s_header_almost_done /\ p e < zlen data /\ header_value_mark e = None).

Lemma value_loop_ok fuel start q0 h (e : exec U) :
  value_hs h = true -> perrno (prs e) = HPE_OK -> fields_ok (prs e) ->
  p_state e = s_header_value -> 0 <= q0 <= p e -> p e <= zlen data ->
  header_field_mark e = None -> url_mark e = None -> body_mark e = None -> status_mark e = None ->
  mark_ok s_header_value q0 header_value (header_value_mark e) ->
  (Z.to_nat (zlen data - p e) <= fuel)%nat ->
  wp (header_value_loop settings data fuel start h) (value_done q0) (exits s_header_value q0) e.
Proof.
  revert h e. induction fuel as [|fuel IH]; intros h e Hh He Hf Hs Hq Hp H1 H2 H3 H4 Hm Hfu;
    cbn [header_value_loop]; do 2 wp_step; wp_step.
  1, 3: apply Z.eqb_eq in E; unfold value_done; split_and!; try done; try lia; by left.
  all: apply Z.eqb_neq in E.
  { exfalso. lia. }
  do 2 wp_step. destruct (znth data (p e) 0 =? CR) eqn:Ecr.
  { destruct e as [[ty fl ps hs ix nr cl ma mi sc me er up] u s q c0 m1 m2 m3 m4 m5].
    norm. subst. destruct Hf. norm.
    repeat wp_step; finish_inv; try finish_goal.
    unfold value_done. norm. split_and!; try finish_goal. right. split_and!; try done. lia. }
  destruct (znth data (p e) 0 =? LF) eqn:Elf.
  { destruct e as [[ty fl ps hs ix nr cl ma mi sc me er up] u s q c0 m1 m2 m3 m4 m5].
    norm. subst. destruct Hf. norm.
    assert (0 <= u32 (nr + (q - start))) by (apply wrap_range; lia).
    repeat wp_step; finish_inv; zprop; finish_goal. }
  zprop. apply wp_bind. eapply wp_mono.
  - apply value_step_ok; try done. norm. lia.
  - intros h' e' (Hh' & He' & Hf' & Hs' & Hp' & Hm' & ? & ? & ? & ?). norm. do 2 wp_step.
    apply IH; norm; try done; try lia.
    by rewrite Hm'.
  - intros x e'. norm. apply exits_mono. lia.
Qed.

Lemma ok_s_header_value : case_ok s_header_value (case_s_header_value settings data).
Proof.
  intros e (He & Hf & Hi & M1 & M2 & M3 & M4 & M5) Hp Hs. unfold case_s_header_value.
  do 4 wp_step. apply wp_bind. rewrite Hs in *.
  apply mark_none in M1, M3, M4, M5; [|reflexivity..]. eapply wp_mono.
  - apply (value_loop_ok _ _ (p e)); try done; lia.
  - intros h e' (He' & Hf' & Hp' & ? & ? & ? & ? & Hd).
    assert (0 <= u32 (nread (prs e') + (p e' - p e))) by (apply wrap_range; lia).
    destruct e' as [[ty fl ps hs ix nr cl ma mi sc me er up] u s q c0 m1 m2 m3 m4 m5].
    norm. subst. destruct Hf'. norm.
    destruct Hd as [(-> & Hh & -> & Hm)|(-> & ? & ->)];
      repeat wp_step; finish_inv; zprop; finish_goal.
  - auto.
Qed.

(** ** The switch and the loops *)

Lemma switch_ok (e : exec U) : inv 1 e -> 0 <= p e < zlen data ->
  wp (switch_state settings data) (next (p e)) (exits (p_state e) (p e)) e.
Proof.
  intros Hi Hp. unfold switch_state. do 4 wp_step. revert e Hi Hp.
  assert (H : forall s m, case_ok s m -> forall e : exec U, inv 1 e -> 0 <= p e < zlen data ->
    p_state e = s -> wp m (next (p e)) (exits s (p e)) e) by auto.
  intros e Hi Hp. destruct (p_state e) eqn:Es; apply H; auto.
  all: try (apply ok_expect; [done|by intros []|done]).
  all: auto using ok_s_dead, ok_s_start_req_or_res, ok_s_res_or_resp_H, ok_s_start_res,
    ok_s_res_first_http_major, ok_s_res_http_major, ok_s_res_first_http_minor, ok_s_res_http_minor,
    ok_s_res_first_status_code, ok_s_res_status_code, ok_s_res_status_start, ok_s_res_status,
    ok_s_start_req, ok_s_req_method, ok_s_req_spaces_before_url, ok_req_schema, ok_req_server.
  all: auto using ok_s_req_http_start, ok_s_req_first_http_major, ok_s_req_http_major,
    ok_s_req_first_http_minor, ok_s_req_http_minor, ok_s_req_line_almost_done,
    ok_s_header_field_start, ok_s_header_field, ok_s_header_value_discard_ws,
    ok_s_header_value_discard_lws, ok_s_header_value_start, ok_s_header_value,
    ok_s_header_value_lws, ok_s_headers_almost_done, ok_s_headers_done.
  all: auto using ok_s_chunk_size_start, ok_s_chunk_size, ok_s_chunk_parameters,
    ok_s_chunk_size_almost_done, ok_s_chunk_data, ok_s_chunk_data_almost_done,
    ok_s_chunk_data_done, ok_s_body_identity, ok_s_body_identity_eof, ok_s_message_done.
Qed.

(** The exits of a whole byte: no jump to [reexecute] is left. *)
Definition byte_exits (x : exit) (e : exec U) : Prop :=
  match x with
  | XError => 0 <= p e <= zlen data /\ ~ running (prs e)
  | XReturn n => return_ok n (prs e)
  | _ => False
  end.

Lemma run_switch_ok fuel q (e : exec U) :
  inv 1 e -> 0 <= q <= p e -> p e < zlen data -> (rank (p_state e) < fuel)%nat ->
  wp (run_switch settings data fuel) (next q) byte_exits e.
Proof.
  revert e. induction fuel as [|fuel IH]; intros e Hi Hq Hp Hr; [lia|].
  pose proof (switch_ok e Hi ltac:(lia)) as Hw. unfold wp in *. cbn [run_switch].
  destruct (switch_state settings data e) as [[] e'|[] e'] eqn:E; try done.
  - destruct Hw as [? ?]. split; [done|lia].
  - destruct Hw as (Hi' & ? & ?). apply IH; [done|lia|lia|lia].
Qed.

Lemma rank_le s : (rank s <= 3)%nat.
Proof. destruct s; simpl; lia. Qed.

Lemma inv_count s x : state_inv 0 s x -> state_inv 1 s (set_nread (nread x + 1) x).
Proof. destruct s; simpl; intuition lia. Qed.

Lemma inv_no_count s x : state_inv 0 s x -> PARSING_HEADER s = false -> state_inv 1 s x.
Proof. destruct s; simpl; try done. Qed.

Lemma exec_byte_ok (e : exec U) : inv 0 e -> 0 <= p e < zlen data ->
  wp (exec_byte settings data) (next (p e)) byte_exits e.
Proof.
  intros (He & Hf & Hi & M1 & M2 & M3 & M4 & M5) Hp. unfold exec_byte. do 6 wp_step.
  pose proof (rank_le (p_state e)) as Hr.
  assert (Hgo : forall x c, perrno x = HPE_OK -> fields_ok x -> state_inv 1 (p_state e) x ->
    wp (run_switch settings data reexecute_fuel) (next (p e)) byte_exits (set_prs x (set_ch c e))).
  { intros x c ? ? ?. apply run_switch_ok; norm; [|lia|lia|unfold reexecute_fuel; lia].
    unfold inv. norm. by split_and!. }
  assert (Hn : u32 (nread (prs e) + 1) = nread (prs e) + 1)
    by (apply wrap_small; destruct Hf; unfold HTTP_MAX_HEADER_SIZE in *; lia).
  apply wp_bind. wp_step.
  - do 5 wp_step. rewrite Hn in *. wp_step.
    + repeat wp_step. unfold byte_exits, running. norm. split; [lia|]. intros [|]; congruence.
    + wp_step. zprop. apply Hgo; norm; [done| |by apply inv_count].
      destruct Hf. constructor; norm; lia.
  - wp_step. apply (Hgo (prs e)); auto using inv_no_count.
Qed.

Lemma mark_ok_le s q q' f o : mark_ok s q f o -> q <= q' -> mark_ok s q' f o.
Proof. destruct o; [|done]. intros [] ?. split; [lia|done]. Qed.

Lemma exec_loop_ok fuel (e : exec U) : inv 0 e -> 0 <= p e <= zlen data ->
  (Z.to_nat (zlen data - p e) <= fuel)%nat ->
  wp (exec_loop settings data fuel) (fun _ e' => inv 0 e' /\ p e' = zlen data) byte_exits e.
Proof.
  revert e. induction fuel as [|fuel IH]; intros e Hi Hp Hfu; cbn [exec_loop]; do 2 wp_step;
    wp_step; zprop; try (wp_step; by split_and!); [exfalso; lia|].
  apply wp_bind. eapply wp_mono; [apply exec_byte_ok; [done|lia]| |done].
  intros [] e' (Hi' & Hp'). do 2 wp_step. apply IH; norm; [|lia|lia].
  destruct Hi' as (? & ? & ? & M1 & M2 & M3 & M4 & M5). unfold inv. norm.
  split_and!; try done; (eapply mark_ok_le; [eassumption|lia]).
Qed.

(** At most one mark is set, so the final assertion holds. *)
Lemma one_mark (e : exec U) : inv 0 e ->
  (bool_num (is_marked header_field e) + bool_num (is_marked header_value e)
    + bool_num (is_marked url e) + bool_num (is_marked body e)
    + bool_num (is_marked status e) <=? 1) = true.
Proof.
  intros (_ & _ & _ & M1 & M2 & M3 & M4 & M5). unfold is_marked, get_mark.
  destruct (header_field_mark e), (header_value_mark e), (url_mark e), (body_mark e),
    (status_mark e); try reflexivity; exfalso;
  match goal with H1 : mark_ok _ _ ?f (Some _), H2 : mark_ok _ _ ?g (Some _) |- _ =>
    assert (f = g) by (eapply mark_state_unique; [apply H1|apply H2]); discriminate end.
Qed.

Lemma exec_end_ok (e : exec U) : inv 0 e -> p e = zlen data ->
  wp (exec_end settings data) (fun _ _ => False) byte_exits e.
Proof.
  intros Hi Hp. unfold exec_end. do 3 wp_step. rewrite (one_mark e Hi).
  destruct Hi as (He & Hf & Hs & M1 & M2 & M3 & M4 & M5). pose proof (zlen_nonneg data).
  destruct e as [[ty fl ps hs ix nr cl ma mi sc me er up] u s q c0 m1 m2 m3 m4 m5].
  norm. subst. destruct Hf. norm.
  assert (Hst : forall er' ps', state_inv 0 s
    (mk_parser ty fl ps' hs ix nr cl ma mi sc me er' up)) by (intros; by destruct s).
  unfold assert. repeat wp_step.
  all: unfold byte_exits, return_ok, parser_ok; norm; split_and!; try lia; try finish_goal.
Qed.

(** ** The whole call *)

Lemma exec_init_ok x u :
  perrno x = HPE_OK -> parser_ok x -> inv 0 (exec_init x u).
Proof.
  intros He Hx. destruct Hx as [Hf Hs]; [by left|]. unfold exec_init.
  destruct x as [ty fl ps hs ix nr cl ma mi sc me er up]. norm. unfold inv.
  destruct ps; norm; split_and!; done.
Qed.

Lemma exec_init_p x (u : U) : p (exec_init x u) = 0.
Proof. unfold exec_init. by destruct (initial_mark (pstate x)) as [[]|]. Qed.

(** What is returned is fine whatever the exit. *)
Definition outcome_ok (o : outcome) : Prop :=
  exists n x u, o = Returned (U := U) n x u /\ 0 <= n <= Z.max 1 (zlen data) /\ parser_ok x /\
    (perrno x = HPE_OK -> n = zlen data \/ upgrade x = true).

Definition call_exits (x : exit) (e : exec U) : Prop :=
  match x with
  | XError => 0 <= p e <= zlen data /\ ~ running (prs e)
  | XReturn n => 0 <= n <= Z.max 1 (zlen data) /\ parser_ok (prs e) /\
      (perrno (prs e) = HPE_OK -> n = zlen data \/ upgrade (prs e) = true)
  | _ => False
  end.

Lemma byte_call_exits x e : byte_exits x e -> call_exits x e.
Proof. destruct x; try done. simpl. intros (? & ? & ?). split_and!; try done; lia. Qed.

Lemma finish_ok {A : Type} (m : M U A) e :
  wp m (fun _ _ => False) call_exits e -> outcome_ok (finish (m e)).
Proof.
  unfold wp. destruct (m e) as [|[] e']; simpl; try done.
  - intros [Hp Hr]. unfold at_error.
    set (x := if decide (perrno (prs e') = HPE_OK) then _ else _).
    assert (Hx : perrno x <> HPE_OK /\ perrno x <> HPE_PAUSED).
    { unfold x, running in *. case_decide; simpl; [done|]. split; [done|tauto]. }
    eexists _, _, _. split; [done|]. split; [lia|].
    unfold parser_ok, running. simpl. split; [intros [|]; tauto|tauto].
  - intros (? & ? & ?). eexists _, _, _. split; [done|]. split_and!; try done; lia.
Qed.

Lemma exec_eof_ok x u : zlen data = 0 -> perrno x = HPE_OK -> parser_ok x ->
  outcome_ok (finish (exec_eof settings (exec_init x u))).
Proof.
  intros Hd He Hx. apply finish_ok. destruct Hx as [Hf Hs]; [by left|]. unfold exec_init.
  destruct x as [ty fl ps hs ix nr cl ma mi sc me er up]. norm. subst. destruct Hf. norm.
  unfold exec_eof.
  destruct ps; cbn [initial_mark set_mark]; norm; repeat wp_step;
    unfold call_exits, parser_ok; norm; split_and!; try lia; try finish_goal.
  by destruct_or! Hst; subst; finish_goal.
Qed.

Lemma execute_ok x u : parser_ok x -> outcome_ok (http_parser_execute settings data x u).
Proof.
  intros Hx. unfold http_parser_execute. pose proof (zlen_nonneg data).
  case_bool_decide as He; simpl.
  2:{ eexists _, _, _. split; [done|]. split; [lia|]. split; [done|]. intros. contradiction. }
  destruct (zlen data =? 0) eqn:E; zprop; [by apply exec_eof_ok|].
  apply finish_ok, wp_bind. eapply wp_mono; [apply exec_loop_ok|..].
  - by apply exec_init_ok.
  - rewrite exec_init_p. lia.
  - rewrite exec_init_p. unfold zlen. lia.
  - intros [] e [Hi Hp]. eapply wp_mono; [by apply exec_end_ok|done|apply byte_call_exits].
  - apply byte_call_exits.
Qed.
End Safe.

(** C6: given a parser that satisfies the invariant and callbacks that only
    observe or pause it, a call of [http_parser_execute] on any bytes stops,
    fails none of the assertions of the source, reads no string constant out of
    bounds, gives callbacks only texts that lie inside the data, returns at most the bytes it was given (1 at the end of the input),
    keeps the invariant, and returns early without an error only for an
    upgrade. *)
Theorem execute_safe {U} (st : http_parser_settings U) (data : bytes) (x : http_parser) (u : U) :
  settings_ok st -> parser_ok x ->
  exists n x' u', http_parser_execute st data x u = Returned n x' u' /\
    0 <= n <= Z.max 1 (zlen data) /\ parser_ok x' /\
    (perrno x' = HPE_OK -> n = zlen data \/ upgrade x' = true).
Proof. intros Hst Hx. exact (execute_ok st data Hst x u Hx). Qed.

(** Callbacks that count their calls and pause the parser at each header. *)
Definition demo_settings : http_parser_settings Z :=
  let n := Some (fun x u => (0, x, u + 1)) in
  let d := Some (fun (b : bytes) x u => (0, x, u + zlen b)) in
  mk_settings n d d d
    (Some (fun (b : bytes) x u => (0, set_perrno HPE_PAUSED x, u + zlen b)))
    (Some (fun x u => (1, x, u))) d n n n.

Lemma demo_settings_ok : settings_ok demo_settings.
Proof.
  constructor.
  - intros [] cb; simpl; intros [= <-]; intros x u; eexists _, _; by left.
  - intros [] cb d; simpl; intros [= <-]; intros x u; eexists _, _; (by left) || by right.
  - intros cb; simpl; intros [= <-]; intros x u; eexists _, _; by left.
Qed.

Lemma http_parser_init_ok t : parser_ok (http_parser_init t).
Proof.
  intros _. split; [constructor; simpl; unfold ULLONG_MAX, HTTP_MAX_HEADER_SIZE; lia|].
  by destruct t.
Qed.

Lemma execute_safe_witness : exists n x' u',
  http_parser_execute demo_settings (str "GET /index HTTP/1.1" ++ [CR; LF] ++ str "Host: b" ++ [CR; LF; CR; LF])
    (http_parser_init HTTP_BOTH) 0 = Returned n x' u' /\ n = 29 /\ perrno x' = HPE_PAUSED.
Proof.
  destruct (execute_safe demo_settings
    (str "GET /index HTTP/1.1" ++ [CR; LF] ++ str "Host: b" ++ [CR; LF; CR; LF])
    (http_parser_init HTTP_BOTH) 0 demo_settings_ok (http_parser_init_ok _))
    as (n & x & u & E & _ & _ & _).
  exists n, x, u. split; [exact E|]. revert E. vm_compute. intros [= <- <- _]. done.
Defined.
