(* ===== verification/HttpRun.v ===== *)
(** * Running [http_parser_execute] on given bytes

    Callbacks that only observe, runs of the byte loop from one execution state
    to another, and the equations of single bytes used by the theorems on
    request lines, headers and bodies. *)

From S2P Require Import Prelude.
From S2P Require Import Words.
From S2P Require Import HttpChars.
From S2P Require Import HttpUrl.
From S2P Require Import HttpState.
From S2P Require Import HttpExec.
From S2P Require Import HttpWp.

(** ** Observers

    An application that sets every callback, leaves the parser alone and always
    continues, except that [on_headers_complete] chooses its result. Only
    [on_status], which is never called for a request, looks at the parser. *)
Record observer (U : Type) := mk_observer {
  ob_notify : notify -> U -> U;
  ob_data : mark -> bytes -> U -> U;
  ob_headers : U -> Z * U;
  ob_status : http_parser -> bytes -> U -> U }.
Arguments mk_observer {U}.
Arguments ob_notify {U}.
Arguments ob_data {U}.
Arguments ob_headers {U}.
Arguments ob_status {U}.

Definition observe {U} (o : observer U) : http_parser_settings U :=
  let n f : option (http_cb U) := Some (fun x u => (0, x, ob_notify o f u)) in
  let d f : option (http_data_cb U) := Some (fun b x u => (0, x, ob_data o f b u)) in
  mk_settings (n message_begin) (d url)
    (Some (fun b x u => (0, x, ob_status o x b u))) (d header_field) (d header_value)
    (Some (fun x u => let '(r, u') := ob_headers o u in (r, x, u')))
    (d body) (n message_complete) (n chunk_header) (n chunk_complete).

(** ** Runs *)

(** An execution state between two tokens: no mark is set. *)
Definition at_state {U} (x : http_parser) (u : U) (s : state) (q c : Z) : exec U :=
  mk_exec x u s q c None None None None None.


Section Run.
Context {U : Type} (o : observer U) (data : bytes).

#[local] Abbreviation st := (observe o).

(** From [e], the byte loop continues as from [e'], with one unit of fuel per
    byte at most. *)
Definition reaches (e e' : exec U) : Prop :=
  p e <= p e' /\ exists k, (k <= Z.to_nat (p e' - p e))%nat /\
    forall f, exec_loop st data (k + f) e = exec_loop st data f e'.

Lemma reaches_refl e : reaches e e.
Proof. split; [lia|]. exists 0%nat. split; [lia|done]. Qed.

Lemma reaches_trans e1 e2 e3 : reaches e1 e2 -> reaches e2 e3 -> reaches e1 e3.
Proof.
  intros [P1 (k1 & B1 & H1)] [P2 (k2 & B2 & H2)]. split; [lia|].
  exists (k1 + k2)%nat. split; [lia|]. intros f. by rewrite <- Nat.add_assoc, H1, H2.
Qed.

Lemma reaches_byte e e' :
  p e < zlen data -> exec_byte st data e = Val tt e' -> p e <= p e' ->
  reaches e (set_p (p e' + 1) e').
Proof.
  intros Hp E Hle. split; [simpl; lia|]. exists 1%nat. split; [simpl; lia|].
  intros f. cbn [exec_loop Nat.add]. unfold bind at 1, gets.
  rewrite (proj2 (Z.eqb_neq (p e) (zlen data))) by lia.
  unfold bind at 1. by rewrite E.
Qed.

(** The bytes of the data from offset [q] on start with [l]. *)
Definition at_pos (q : Z) (l : bytes) : Prop :=
  exists pre rest, data = pre ++ l ++ rest /\ q = zlen pre.

Lemma at_pos_cons q c l :
  at_pos q (c :: l) -> 0 <= q < zlen data /\ znth data q 0 = c /\ at_pos (q + 1) l.
Proof.
  intros (pre & rest & E & ->). pose proof (zlen_nonneg pre). pose proof (zlen_nonneg (l ++ rest)).
  split_and!; [lia|rewrite E; simpl; autorewrite with zlen; rewrite zlen_app in *; lia| |].
  - rewrite E, znth_app_r, Z.sub_diag by lia. done.
  - exists (pre ++ [c]), rest. rewrite <- app_assoc. split; [done|].
    autorewrite with zlen. lia.
Qed.

Lemma at_pos_app q l1 l2 : at_pos q (l1 ++ l2) -> at_pos q l1 /\ at_pos (q + zlen l1) l2.
Proof.
  intros (pre & rest & E & ->). split.
  - exists pre, (l2 ++ rest). by rewrite E, <- app_assoc.
  - exists (pre ++ l1), rest. rewrite E, zlen_app, <- !app_assoc. done.
Qed.

Lemma at_pos_len q l : at_pos q l -> 0 <= q /\ q + zlen l <= zlen data.
Proof.
  intros (pre & rest & E & ->). pose proof (zlen_nonneg pre). pose proof (zlen_nonneg rest).
  rewrite E, !zlen_app. lia.
Qed.

Lemma at_pos_drop q l : at_pos q l -> exists rest, drop (Z.to_nat q) data = l ++ rest.
Proof.
  intros (pre & rest & E & ->). exists rest. rewrite E. unfold zlen. rewrite Nat2Z.id.
  by rewrite drop_app_length.
Qed.

Lemma at_pos_slice q l : at_pos q l -> slice data q (zlen l) = l.
Proof.
  intros (pre & rest & E & ->). rewrite E, slice_app_r by lia. rewrite Z.sub_diag.
  rewrite slice_app_l by lia. apply slice_all.
Qed.

(** One byte, run symbolically. *)
Lemma reaches_wp e e' :
  p e < zlen data ->
  wp (exec_byte st data) (fun _ e1 => p e <= p e1 /\ e' = set_p (p e1 + 1) e1)
    (fun _ _ => False) e ->
  reaches e e'.
Proof.
  intros Hp. unfold wp. destruct (exec_byte st data e) as [[] e1|] eqn:E; [|done].
  intros [? ->]. by apply reaches_byte.
Qed.

(** One byte that ends in an error. *)
Lemma wp_error (e : exec U) er :
  wp (exec_byte st data) (fun _ _ => False)
    (fun x e1 => x = XError /\ perrno (prs e1) = er) e ->
  exists e1, exec_byte st data e = Exit XError e1 /\ perrno (prs e1) = er.
Proof.
  unfold wp. destruct (exec_byte st data e) as [|x e1] eqn:E; [done|]. intros [-> ?]. eauto.
Qed.

(** The rules for the callbacks of an observer. *)
Lemma wp_notify_obs f er Q X (e : exec U) :
  perrno (prs e) = HPE_OK ->
  Q tt (set_usr (ob_notify o f (usr e)) (set_prs (set_pstate (p_state e) (prs e)) e)) ->
  wp (CALLBACK_NOTIFY_ st f er) Q X e.
Proof.
  intros He HQ. destruct e as [[]]. simpl in *. subst.
  unfold wp, CALLBACK_NOTIFY_, run_callback, assert_no_errno, assert, call, bind, gets, modify, ret.
  by destruct f.
Qed.

Lemma wp_data_obs f m len er Q X (e : exec U) :
  f <> status -> perrno (prs e) = HPE_OK -> get_mark f e = Some m -> in_data data m (len m) = true ->
  Q tt (set_mark f None (set_usr (ob_data o f (slice data m (len m)) (usr e))
                           (set_prs (set_pstate (p_state e) (prs e)) e))) ->
  wp (CALLBACK_DATA_ st data f len er) Q X e.
Proof.
  intros Hf He Hm Hin HQ. destruct e as [[]]. simpl in *. subst.
  unfold wp, CALLBACK_DATA_, run_callback, assert_no_errno, assert, call, bind, gets, modify, ret.
  by destruct f; simpl in *; subst; rewrite Hin.
Qed.

Lemma wp_data_none f len er Q X (e : exec U) :
  perrno (prs e) = HPE_OK -> get_mark f e = None -> Q tt e ->
  wp (CALLBACK_DATA_ st data f len er) Q X e.
Proof.
  intros He Hm HQ. unfold CALLBACK_DATA_. apply wp_bind. unfold assert_no_errno. do 2 wp_base.
  rewrite bool_decide_eq_true_2 by done. unfold assert. wp_base. do 2 wp_base. by rewrite Hm.
Qed.

(** A byte of the header part is counted, then the switch runs. *)
Lemma wp_byte_header c Q X (e : exec U) :
  PARSING_HEADER (p_state e) = true -> znth data (p e) 0 = c ->
  0 <= nread (prs e) < HTTP_MAX_HEADER_SIZE ->
  wp (run_switch st data reexecute_fuel) Q X
    (set_prs (set_nread (nread (prs e) + 1) (prs e)) (set_ch c e)) ->
  wp (exec_byte st data) Q X e.
Proof.
  intros Hh Hc Hn HQ. unfold exec_byte. do 6 wp_base. rewrite Hh, Hc. apply wp_bind.
  do 5 wp_base. rewrite wrap_small by (unfold HTTP_MAX_HEADER_SIZE in *; lia).
  rewrite (proj2 (Z.ltb_ge _ _)) by lia. wp_base. exact HQ.
Qed.

Lemma wp_byte_body c Q X (e : exec U) :
  PARSING_HEADER (p_state e) = false -> znth data (p e) 0 = c ->
  wp (run_switch st data reexecute_fuel) Q X (set_ch c e) ->
  wp (exec_byte st data) Q X e.
Proof.
  intros Hh Hc HQ. unfold exec_byte. do 6 wp_base. rewrite Hh, Hc. apply wp_bind. by wp_base.
Qed.

(** One round of the switch: done, or again after [goto reexecute]. *)
Lemma wp_switch n Q X (e : exec U) :
  wp (switch_state st data) Q
    (fun x e' => match x with
                 | XReexecute => wp (run_switch st data n) Q X e'
                 | _ => X x e'
                 end) e ->
  wp (run_switch st data (S n)) Q X e.
Proof. unfold wp. cbn [run_switch]. by destruct (switch_state st data e) as [|[]]. Qed.

(** A run up to the last byte, and the callbacks for the marks left. *)
Lemma reaches_end x u e e' :
  0 < zlen data -> perrno x = HPE_OK -> reaches (exec_init x u) e -> p e = zlen data ->
  exec_end st data e = Exit (XReturn (zlen data)) e' ->
  http_parser_execute st data x u = Returned (zlen data) (prs e') (usr e').
Proof.
  intros Hlen Hx [Hp (k & Hk & E)] He Hend. unfold http_parser_execute.
  rewrite bool_decide_eq_true_2 by done. cbn [negb].
  rewrite (proj2 (Z.eqb_neq _ _)) by lia.
  assert (E0 : p (exec_init x u) = 0)
    by (unfold exec_init; by destruct (initial_mark (pstate x)) as [[]|]).
  assert (Hk' : (k <= length data)%nat) by (unfold zlen in *; lia).
  unfold bind. replace (length data) with (k + (length data - k))%nat by lia. rewrite E.
  assert (El : exec_loop st data (length data - k) e = Val tt e).
  { destruct (length data - k)%nat; cbn [exec_loop]; unfold bind, gets;
      by rewrite (proj2 (Z.eqb_eq _ _) He). }
  rewrite El, Hend. reflexivity.
Qed.

(** The end of the data when no mark is left. *)
Lemma exec_end_unmarked x u s q c :
  perrno x = HPE_OK ->
  exec_end st data (at_state x u s q c) =
    Exit (XReturn (zlen data)) (at_state (set_pstate s x) u s q c).
Proof.
  intros Hx.
  enough (H : wp (exec_end st data) (fun _ _ => False)
    (fun z e => z = XReturn (zlen data) /\ e = at_state (set_pstate s x) u s q c) (at_state x u s q c)).
  { unfold wp in H. destruct (exec_end st data (at_state x u s q c)); [done|]. by destruct H as [-> ->]. }
  unfold exec_end, assert. do 3 wp_base.
  match goal with |- wp (if ?b then _ else _) _ _ _ => change b with true end. cbv iota. wp_base.
  do 5 (apply wp_bind; unfold CALLBACK_DATA_NOADVANCE; do 2 wp_base;
        apply wp_data_none; [done|done|]).
  by repeat wp_base.
Qed.

Lemma reaches_return x u s q c y v :
  0 < zlen data -> perrno x = HPE_OK -> perrno y = HPE_OK ->
  reaches (exec_init x u) (at_state y v s q c) -> q = zlen data ->
  http_parser_execute st data x u = Returned (zlen data) (set_pstate s y) v.
Proof.
  intros Hd Hx Hy Hr Hq.
  exact (reaches_end x u _ _ Hd Hx Hr Hq (exec_end_unmarked y v s q c Hy)).
Qed.

(** A run that ends at some byte. *)
Lemma reaches_exit x u e r e' :
  perrno x = HPE_OK -> reaches (exec_init x u) e -> p e < zlen data ->
  exec_byte st data e = Exit r e' ->
  http_parser_execute st data x u = finish (Exit (A := unit) r e').
Proof.
  intros Hx [Hp (k & Hk & E)] He Hbyte. unfold http_parser_execute.
  rewrite bool_decide_eq_true_2 by done. cbn [negb].
  assert (E0 : p (exec_init x u) = 0)
    by (unfold exec_init; by destruct (initial_mark (pstate x)) as [[]|]).
  rewrite (proj2 (Z.eqb_neq _ _)) by lia.
  assert (Hk' : (k < length data)%nat) by (unfold zlen in *; lia).
  unfold bind. replace (length data) with (k + S (length data - k - 1))%nat by lia. rewrite E.
  cbn [exec_loop]. unfold bind, gets. rewrite (proj2 (Z.eqb_neq _ _)) by lia.
  by rewrite Hbyte.
Qed.

Lemma reaches_error x u e e' :
  perrno x = HPE_OK -> reaches (exec_init x u) e -> p e < zlen data ->
  exec_byte st data e = Exit XError e' ->
  http_parser_execute st data x u = at_error e'.
Proof. exact (reaches_exit x u e XError e'). Qed.
End Run.

(** Symbolic execution of one byte with an observer, the tests already
    rewritten to [true] or [false]. *)
Ltac wp_obs :=
  first
  [ lazymatch goal with
    | |- wp (MARK _) _ _ _ => unfold MARK
    | |- wp (CALLBACK_NOTIFY_ _ _ _) _ _ _ => apply wp_notify_obs; [norm; assumption|]
    | |- wp (CALLBACK_DATA_ _ _ _ _ _) _ _ _ =>
        eapply wp_data_obs; [discriminate|norm; assumption|reflexivity|apply in_data_true; norm; lia|]
    | |- wp (if true then _ else _) _ _ _ => cbv iota
    | |- wp (if false then _ else _) _ _ _ => cbv iota
    | |- wp (if negb true then _ else _) _ _ _ => cbn [negb]; cbv iota
    | |- wp (if negb false then _ else _) _ _ _ => cbn [negb]; cbv iota
    | |- wp (if _ then _ else _) _ _ _ => fail
    | |- wp (match _ with _ => _ end) _ _ _ => fail
    end; norm
  | lazymatch goal with
    | |- wp (if _ then _ else _) _ _ _ => fail
    | |- wp (match _ with _ => _ end) _ _ _ => fail
    | |- _ => wp_base
    end ].

Ltac obs_done := split; [lia|reflexivity].

(** Start a byte of the header part in a known state. *)
Ltac header_byte c :=
  unfold at_state; first [apply reaches_wp; [norm; lia|]|apply wp_error];
  apply (wp_byte_header _ _ c); [reflexivity|norm; assumption|norm; lia|];
  apply wp_switch; unfold switch_state; do 4 wp_base; norm.
