(* ===== verification/HttpMethod.v ===== *)
(** * The request methods that [http_parser_execute] recognises *)

From S2P Require Import Prelude.
From S2P Require Import Words.
From S2P Require Import HttpChars.
From S2P Require Import HttpUrl.
From S2P Require Import HttpState.
From S2P Require Import HttpExec.
From S2P Require Import HttpWp.
From S2P Require Import HttpRun.

(** ** The method automaton *)

(** The method after one character of [s_req_method] that is not a space. *)
Definition method_step (m : http_method) (i c : Z) : option http_method :=
  if c =? 0 then None else
  match str_at (method_string m) i with
  | Some k => if c =? k then Some m else method_switch m i c
  | None => None
  end.

Fixpoint scan (m : http_method) (i : Z) (l : bytes) : option http_method :=
  match l with
  | [] => Some m
  | c :: l' =>
      match method_step m i c with
      | Some m' => scan m' (i + 1) l'
      | None => None
      end
  end.

(** A complete word: its first letter, then the automaton up to the end of the
    method's name. *)
Definition scan_word (w : bytes) : option http_method :=
  match w with
  | [] => None
  | c :: l =>
      match method_of_letter c with
      | None => None
      | Some m =>
          match scan m 1 l with
          | Some m' => if zlen (method_string m') =? zlen w then Some m' else None
          | None => None
          end
      end
  end.

Lemma scan_word_complete m : scan_word (method_string m) = Some m.
Proof. by destruct m. Qed.

(** A step keeps what was read a prefix of the name of the method. *)
Lemma method_step_prefix m i c m' :
  0 <= i -> method_step m i c = Some m' ->
  slice (method_string m') 0 i = slice (method_string m) 0 i /\
  method_string m' !! Z.to_nat i = Some c.
Proof.
  intros Hi. unfold method_step. destruct (Z.eqb_spec c 0); [done|].
  destruct (str_at (method_string m) i) as [k|] eqn:Ek; [|done].
  destruct (Z.eqb_spec c k) as [<-|].
  - intros [= <-]. split; [done|]. unfold str_at in Ek.
    destruct ((0 <=? i) && (i <? zlen (method_string m))) eqn:E.
    + injection Ek as <-. zprop. unfold zlen in *.
      destruct (lookup_lt_is_Some_2 (method_string m) (Z.to_nat i)) as [b Hb]; [lia|].
      by rewrite (znth_lookup _ _ 0 _ Hi Hb).
    + destruct (i =? zlen (method_string m)); [congruence|done].
  - clear Ek. unfold method_switch. intros H. repeat case_match; simplify_eq; zprop;
      repeat match goal with
      | H : (_ =? _) = true |- _ => apply Z.eqb_eq in H
      | H : bool_decide _ = true |- _ => apply bool_decide_eq_true in H
      end; subst; split; reflexivity.
Qed.

Lemma scan_prefix l : forall m i m', 0 <= i -> scan m i l = Some m' ->
  slice (method_string m') 0 (i + zlen l) = slice (method_string m) 0 i ++ l /\
  (l <> [] -> i + zlen l <= zlen (method_string m')).
Proof.
  induction l as [|c l IH]; intros m i m' Hi; simpl.
  - intros [= <-]. change (zlen []) with 0. rewrite Z.add_0_r, app_nil_r. done.
  - destruct (method_step m i c) as [m1|] eqn:E; [|done]. intros H.
    apply method_step_prefix in E as [E1 E2]; [|done].
    pose proof H as H'. apply IH in H' as [Hs Hl]; [|lia]. rewrite zlen_cons.
    replace (i + (1 + zlen l)) with (i + 1 + zlen l) by lia. rewrite Hs, <- E1.
    rewrite slice_add by lia. rewrite Z.add_0_l.
    rewrite (slice_cons (method_string m1) i 1 c Hi) by (lia || done).
    rewrite (slice_nil _ _ (1 - 1)) by lia. rewrite <- app_assoc. split; [done|]. intros _.
    destruct l as [|c' l]; [|by apply Hl]. injection H as <-. rewrite zlen_nil.
    apply lookup_lt_Some in E2. unfold zlen. lia.
Qed.

Lemma method_of_letter_first c m : method_of_letter c = Some m ->
  slice (method_string m) 0 1 = [c].
Proof.
  unfold method_of_letter. intros H. repeat case_match; simplify_eq;
    match goal with H : (_ =? _) = true |- _ => apply Z.eqb_eq in H; subst c end; reflexivity.
Qed.

(** The automaton accepts exactly the names of the methods. *)
Lemma scan_word_sound w m : scan_word w = Some m -> w = method_string m.
Proof.
  unfold scan_word. destruct w as [|c l]; [done|].
  destruct (method_of_letter c) as [m0|] eqn:E0; [|done].
  destruct (scan m0 1 l) as [m'|] eqn:E1; [|done].
  destruct (zlen (method_string m') =? zlen (c :: l)) eqn:E2; [|done]. intros [= ->]. zprop.
  apply scan_prefix in E1 as [E1 _]; [|lia]. apply method_of_letter_first in E0.
  rewrite E0 in E1. rewrite zlen_cons in E2. rewrite <- E2, slice_all in E1. by rewrite E1.
Qed.

(** ** Running the automaton *)

Section Run.
Context {U : Type} (o : observer U) (data : bytes).

Lemma letter_facts c m : method_of_letter c = Some m ->
  (c =? CR) || (c =? LF) = false /\ negb (IS_ALPHA c) = false.
Proof.
  unfold method_of_letter. intros H. repeat case_match; simplify_eq;
    match goal with H : (_ =? _) = true |- _ => apply Z.eqb_eq in H; subst c end; by vm_compute.
Qed.

Lemma run_first x u q c0 c m :
  0 <= q < zlen data -> znth data q 0 = c -> perrno x = HPE_OK ->
  0 <= nread x < HTTP_MAX_HEADER_SIZE -> method_of_letter c = Some m ->
  reaches o data (at_state x u s_start_req q c0)
    (at_state (set_pstate s_req_method (set_method m (set_index 1
       (set_method HTTP_DELETE (set_content_length ULLONG_MAX (set_flags 0
          (set_nread (nread x + 1) x)))))))
       (ob_notify o message_begin u) s_req_method (q + 1) c).
Proof.
  intros Hq Hc Hx Hn Hm. destruct (letter_facts c m Hm) as [E1 E2].
  header_byte c. unfold case_s_start_req. rewrite E1, E2, Hm.
  repeat wp_obs. obs_done.
Qed.

Lemma run_method x u q c0 c m :
  0 <= q < zlen data -> znth data q 0 = c -> perrno x = HPE_OK ->
  0 <= nread x < HTTP_MAX_HEADER_SIZE -> 0 <= index x < 100 -> c <> #" " ->
  method_step (method x) (index x) c = Some m ->
  reaches o data (at_state x u s_req_method q c0)
    (at_state (set_index (index x + 1) (set_method m (set_nread (nread x + 1) x)))
       u s_req_method (q + 1) c).
Proof.
  intros Hq Hc Hx Hn Hi Hsp Hm. header_byte c. unfold case_s_req_method.
  unfold method_step in Hm. destruct (c =? 0); [done|].
  rewrite (proj2 (Z.eqb_neq _ _) Hsp). repeat wp_obs.
  destruct (str_at _ _) as [k|]; [|done]. cbn [andb].
  destruct (c =? k).
  - injection Hm as <-. repeat wp_obs. rewrite (wrap_small 8) by lia. obs_done.
  - rewrite Hm. repeat wp_obs. rewrite (wrap_small 8) by lia. obs_done.
Qed.

Lemma run_method_space x u q c0 :
  0 <= q < zlen data -> znth data q 0 = #" " -> perrno x = HPE_OK ->
  0 <= nread x < HTTP_MAX_HEADER_SIZE -> 0 <= index x < 100 ->
  index x = zlen (method_string (method x)) ->
  reaches o data (at_state x u s_req_method q c0)
    (at_state (set_index (index x + 1) (set_nread (nread x + 1) x))
       u s_req_spaces_before_url (q + 1) #" ").
Proof.
  intros Hq Hc Hx Hn Hi Hm. header_byte #" ". unfold case_s_req_method.
  change (#" " =? 0) with false. change (#" " =? #" ") with true. repeat wp_obs.
  assert (Es : str_at (method_string (method x)) (index x) = Some 0)
    by (unfold str_at; by rewrite Hm, Z.ltb_irrefl, andb_false_r, Z.eqb_refl).
  rewrite Es. cbn [andb]. change (0 =? 0) with true. repeat wp_obs. rewrite (wrap_small 8) by lia. obs_done.
Qed.

(** Errors: a first letter of no method, a character that leads to no method,
    a space before the end of the name. *)
Lemma err_first x u q c0 c :
  0 <= q < zlen data -> znth data q 0 = c -> perrno x = HPE_OK ->
  0 <= nread x < HTTP_MAX_HEADER_SIZE -> c <> CR -> c <> LF -> method_of_letter c = None ->
  exists e, exec_byte (observe o) data (at_state x u s_start_req q c0) = Exit XError e /\
    perrno (prs e) = HPE_INVALID_METHOD.
Proof.
  intros Hq Hc Hx Hn Hcr Hlf Hm. header_byte c. unfold case_s_start_req.
  rewrite (proj2 (Z.eqb_neq _ _) Hcr), (proj2 (Z.eqb_neq _ _) Hlf), Hm. cbn [orb].
  destruct (negb (IS_ALPHA c)); repeat wp_obs; done.
Qed.

Lemma err_method x u q c0 c :
  0 <= q < zlen data -> znth data q 0 = c -> perrno x = HPE_OK ->
  0 <= nread x < HTTP_MAX_HEADER_SIZE -> 0 <= index x <= zlen (method_string (method x)) ->
  c <> #" " -> method_step (method x) (index x) c = None ->
  exists e, exec_byte (observe o) data (at_state x u s_req_method q c0) = Exit XError e /\
    perrno (prs e) = HPE_INVALID_METHOD.
Proof.
  intros Hq Hc Hx Hn Hi Hsp Hm. header_byte c. unfold case_s_req_method.
  unfold method_step in Hm. destruct (c =? 0); [repeat wp_obs; done|].
  rewrite (proj2 (Z.eqb_neq _ _) Hsp). repeat wp_obs.
  destruct (str_at _ _) as [k|] eqn:E.
  - cbn [andb]. destruct (c =? k); [done|]. rewrite Hm. repeat wp_obs. done.
  - unfold str_at in E. revert E. zbool; done.
Qed.

Lemma method_chars_nonzero m i : 0 <= i < zlen (method_string m) -> znth (method_string m) i 0 <> 0.
Proof.
  intros Hi. assert (H : Forall (fun c => c <> 0) (method_string m)).
  { destruct m; repeat constructor; by vm_compute. }
  unfold zlen in *. destruct (lookup_lt_is_Some_2 (method_string m) (Z.to_nat i)) as [b Hb]; [lia|].
  rewrite (znth_lookup _ _ _ _ (proj1 Hi) Hb). rewrite Forall_lookup in H. by apply (H _ _ Hb).
Qed.

Lemma method_step_space m i : 0 <= i < zlen (method_string m) -> method_step m i #" " = None.
Proof.
  intros Hi. destruct (method_step m i #" ") as [m'|] eqn:E; [|done]. exfalso.
  apply method_step_prefix in E as [_ E]; [|lia].
  assert (H : Forall (fun c => c <> #" ") (method_string m')).
  { destruct m'; repeat constructor; by vm_compute. }
  rewrite Forall_lookup in H. by apply (H _ _ E).
Qed.

Lemma err_space x u q c0 :
  0 <= q < zlen data -> znth data q 0 = #" " -> perrno x = HPE_OK ->
  0 <= nread x < HTTP_MAX_HEADER_SIZE -> 0 <= index x < zlen (method_string (method x)) ->
  exists e, exec_byte (observe o) data (at_state x u s_req_method q c0) = Exit XError e /\
    perrno (prs e) = HPE_INVALID_METHOD.
Proof.
  intros Hq Hc Hx Hn Hi. pose proof (method_step_space _ _ Hi) as Hm.
  header_byte #" ". unfold case_s_req_method.
  unfold method_step in Hm. change (#" " =? 0) with false in *. repeat wp_obs.
  destruct (str_at (method_string (method x)) (index x)) as [k|] eqn:E.
  - cbn [andb]. destruct (Z.eqb_spec k 0) as [->|Hk].
    + exfalso. unfold str_at in E. rewrite (proj2 (Z.leb_le _ _)), (proj2 (Z.ltb_lt _ _)) in E by lia.
      cbn [andb] in E. injection E as E. by apply (method_chars_nonzero (method x) (index x)).
    + destruct (#" " =? k); [done|]. rewrite Hm. repeat wp_obs. done.
  - unfold str_at in E. revert E. zbool; done.
Qed.

Lemma run_scan l : forall x u q c0 m',
  at_pos data q l -> perrno x = HPE_OK -> Forall (fun c => c <> #" ") l ->
  0 <= nread x -> nread x + zlen l <= HTTP_MAX_HEADER_SIZE -> 0 <= index x ->
  index x <= zlen (method_string (method x)) -> scan (method x) (index x) l = Some m' ->
  exists c, reaches o data (at_state x u s_req_method q c0)
    (at_state (set_index (index x + zlen l) (set_method m' (set_nread (nread x + zlen l) x)))
       u s_req_method (q + zlen l) c).
Proof.
  induction l as [|c l IH]; intros x u q c0 m' Hq Hx Hl Hn1 Hn2 Hi Hi' Hs.
  - simpl in Hs. injection Hs as <-. exists c0. change (zlen []) with 0. rewrite !Z.add_0_r.
    destruct x. apply reaches_refl.
  - simpl in Hs. destruct (method_step (method x) (index x) c) as [m1|] eqn:E; [|done].
    apply at_pos_cons in Hq as (Hq & Hc & Hq'). apply Forall_cons in Hl as [Hc' Hl].
    rewrite zlen_cons in *. pose proof (zlen_nonneg l). pose proof (method_len (method x)).
    destruct (method_step_prefix _ _ _ _ Hi E) as [_ E2]. apply lookup_lt_Some in E2.
    destruct (IH (set_index (index x + 1) (set_method m1 (set_nread (nread x + 1) x)))
      u (q + 1) c m') as [c' Hr]; norm; try done; try lia.
    { unfold zlen. lia. }
    exists c'. eapply reaches_trans; [eapply run_method; [lia|exact Hc|done|lia|lia|done|exact E]|].
    replace (index x + (1 + zlen l)) with (index x + 1 + zlen l) by lia.
    replace (nread x + (1 + zlen l)) with (nread x + 1 + zlen l) by lia.
    replace (q + (1 + zlen l)) with (q + 1 + zlen l) by lia. exact Hr.
Qed.

Lemma scan_app l1 l2 : forall m i,
  scan m i (l1 ++ l2) =
    match scan m i l1 with Some m1 => scan m1 (i + zlen l1) l2 | None => None end.
Proof.
  induction l1 as [|c l1 IH]; intros m i; simpl.
  - change (zlen []) with 0. by rewrite Z.add_0_r.
  - destruct (method_step m i c) as [m1|]; [|done]. rewrite IH, zlen_cons.
    by replace (i + 1 + zlen l1) with (i + (1 + zlen l1)) by lia.
Qed.

Lemma scan_cases l : forall m i,
  (exists m', scan m i l = Some m') \/
  (exists l1 c l2 m1, l = l1 ++ c :: l2 /\ scan m i l1 = Some m1 /\
     method_step m1 (i + zlen l1) c = None).
Proof.
  induction l as [|c l IH]; intros m i; simpl; [eauto|].
  destruct (method_step m i c) as [m1|] eqn:E.
  - destruct (IH m1 (i + 1)) as [[m' Hm]|(l1 & c' & l2 & m2 & -> & Hs & Hm)]; [eauto|].
    right. exists (c :: l1), c', l2, m2. simpl. rewrite E, zlen_cons.
    replace (i + (1 + zlen l1)) with (i + 1 + zlen l1) by lia. done.
  - right. exists [], c, l, m. simpl. change (zlen []) with 0. by rewrite Z.add_0_r.
Qed.
End Run.

(** A fresh request parser at the start of its data. *)
Definition fresh : http_parser := http_parser_init HTTP_REQUEST.

Lemma exec_init_fresh {U} (u : U) : exec_init fresh u = at_state fresh u s_start_req 0 0.
Proof. reflexivity. Qed.

Section Decision.
Context {U : Type} (o : observer U).

Lemma error_result data x u e e1 er :
  perrno x = HPE_OK -> reaches o data (exec_init x u) e -> p e < zlen data ->
  exec_byte (observe o) data e = Exit XError e1 -> perrno (prs e1) = er -> er <> HPE_OK ->
  exists n x' u', http_parser_execute (observe o) data x u = Returned n x' u' /\ perrno x' = er.
Proof.
  intros Hx Hr Hp He Her Hne. erewrite reaches_error by done. unfold at_error.
  eexists _, _, _. split; [done|]. case_decide; simpl; congruence.
Qed.

Lemma scan_word_error w m : scan_word w = None -> w <> method_string m.
Proof. intros H ->. by rewrite scan_word_complete in H. Qed.

(** The word [c :: l] after its first letter has been read. *)
Definition after_first (m0 : http_method) : http_parser :=
  set_pstate s_req_method (set_method m0 (set_index 1 (set_method HTTP_DELETE
    (set_content_length ULLONG_MAX (set_flags 0 (set_nread 1 fresh)))))).

Definition decides (w : bytes) (u : U) : Prop :=
  exists n x' u', http_parser_execute (observe o) (w ++ [ #" "]) fresh u = Returned n x' u' /\
    ((exists m, w = method_string m /\ perrno x' = HPE_OK /\ n = zlen w + 1 /\
        pstate x' = s_req_spaces_before_url /\ method x' = m)
     \/ (forall m, w <> method_string m) /\ perrno x' = HPE_INVALID_METHOD).

Lemma decides_error w u data e e1 :
  data = w ++ [ #" "] -> scan_word w = None ->
  reaches o data (exec_init fresh u) e -> p e < zlen data ->
  exec_byte (observe o) data e = Exit XError e1 -> perrno (prs e1) = HPE_INVALID_METHOD ->
  decides w u.
Proof.
  intros -> Hs Hr Hp He Her.
  edestruct error_result as (n & x' & u' & E & Hx'); [|exact Hr|exact Hp|exact He|exact Her|done|].
  { done. }
  exists n, x', u'. split; [exact E|]. right. split; [|done]. intros m. by apply scan_word_error.
Qed.

Lemma decide_rest c l u m0 :
  method_of_letter c = Some m0 -> Forall (fun c => c <> #" ") l ->
  1 + zlen l < HTTP_MAX_HEADER_SIZE ->
  at_pos ((c :: l) ++ [ #" "]) 1 (l ++ [ #" "]) ->
  reaches o ((c :: l) ++ [ #" "]) (exec_init fresh u)
    (at_state (after_first m0) (ob_notify o message_begin u) s_req_method 1 c) ->
  decides (c :: l) u.
Proof.
  set (data := (c :: l) ++ [ #" "]). intros E0 Hf Hn H1 R1. pose proof (zlen_nonneg l).
  pose proof (method_len m0). unfold HTTP_MAX_HEADER_SIZE in *.
  destruct (scan_cases l m0 1) as [[m' Hs]|(l1 & c' & l2 & m1 & El & Hs & Hm)].
  - destruct (scan_prefix l m0 1 m' ltac:(lia) Hs) as [_ Hle]. apply at_pos_app in H1 as [H1 H2].
    assert (Hle' : 1 + zlen l <= zlen (method_string m')).
    { destruct l; [|by apply Hle]. pose proof (method_len m'). change (zlen []) with 0. lia. }
    pose proof (method_len m').
    destruct (run_scan o data l (after_first m0) (ob_notify o message_begin u) 1 c m')
      as [c' R2]; try done; simpl; unfold HTTP_MAX_HEADER_SIZE; try lia.
    simpl in R2. apply at_pos_cons in H2 as (Hq & Hc & _).
    destruct (decide (1 + zlen l = zlen (method_string m'))) as [Heq|Hneq].
    + assert (R3 := run_method_space o data
        (set_index (1 + zlen l) (set_method m' (set_nread (1 + zlen l) (after_first m0)))) (ob_notify o message_begin u) _ c' Hq Hc
        eq_refl ltac:(simpl; unfold HTTP_MAX_HEADER_SIZE; lia) ltac:(simpl; lia) Heq).
      assert (Hd : 1 + zlen l + 1 = zlen data) by (unfold data; autorewrite with zlen; lia).
      eexists _, _, _. split.
      * eapply (reaches_return o data fresh u); [lia|done| |
          eapply reaches_trans; [exact R1|]; eapply reaches_trans; [exact R2|exact R3]|exact Hd].
        done.
      * left. exists m'. split_and!; try done.
        -- apply scan_word_sound. simpl. rewrite E0, Hs, zlen_cons.
           by rewrite (proj2 (Z.eqb_eq _ _)) by lia.
        -- unfold data. autorewrite with zlen. lia.
    + destruct (err_space o data (set_index (1 + zlen l)
        (set_method m' (set_nread (1 + zlen l) (after_first m0))))
        (ob_notify o message_begin u) (1 + zlen l) c' Hq Hc) as (e & He & Her);
        [done|simpl; unfold HTTP_MAX_HEADER_SIZE; lia|simpl; lia|].
      eapply decides_error; [done| |eapply reaches_trans; [exact R1|exact R2]
        |exact (proj2 Hq)|exact He|exact Her].
      simpl. rewrite E0, Hs, zlen_cons. by rewrite (proj2 (Z.eqb_neq _ _)) by lia.
  - rewrite El in H1, Hf, Hn. rewrite <- app_assoc in H1. apply at_pos_app in H1 as [H1 H2].
    apply Forall_app in Hf as [Hf1 Hf2]. apply Forall_cons in Hf2 as [Hc' _].
    rewrite zlen_app, zlen_cons in Hn. pose proof (zlen_nonneg l1). pose proof (zlen_nonneg l2).
    destruct (scan_prefix l1 m0 1 m1 ltac:(lia) Hs) as [_ Hle].
    assert (Hle' : 1 + zlen l1 <= zlen (method_string m1)).
    { destruct l1; [|by apply Hle]. pose proof (method_len m1). change (zlen []) with 0. lia. }
    destruct (run_scan o data l1 (after_first m0) (ob_notify o message_begin u) 1 c m1)
      as [c'' R2]; try done; simpl; unfold HTTP_MAX_HEADER_SIZE; try lia.
    simpl in R2. apply at_pos_cons in H2 as (Hq & Hc & _).
    destruct (err_method o data (set_index (1 + zlen l1)
        (set_method m1 (set_nread (1 + zlen l1) (after_first m0))))
        (ob_notify o message_begin u) (1 + zlen l1) c'' c' Hq Hc) as (e & He & Her);
        try done; [simpl; unfold HTTP_MAX_HEADER_SIZE; lia|simpl; lia|].
    eapply decides_error; [done| |eapply reaches_trans; [exact R1|exact R2]
        |exact (proj2 Hq)|exact He|exact Her].
    simpl. rewrite E0. destruct (scan m0 1 l) as [m'|] eqn:Es; [|done]. exfalso.
    rewrite El, scan_app, Hs in Es. simpl in Es. by rewrite Hm in Es.
Qed.

(** On the first word of a request line the parser decides exactly
    whether the word is the name of one of the 31 methods: if it is, the parser
    waits for the URL with that method set, and if not, the call fails with
    HPE_INVALID_METHOD. *)
Theorem method_decision (w : bytes) (u : U) :
  w <> [] -> Forall (fun c => c <> #" " /\ c <> CR /\ c <> LF) w ->
  zlen w < HTTP_MAX_HEADER_SIZE ->
  exists n x' u', http_parser_execute (observe o) (w ++ [ #" "]) fresh u = Returned n x' u' /\
    ((exists m, w = method_string m /\ perrno x' = HPE_OK /\ n = zlen w + 1 /\
        pstate x' = s_req_spaces_before_url /\ method x' = m)
     \/ (forall m, w <> method_string m) /\ perrno x' = HPE_INVALID_METHOD).
Proof.
  intros Hw Hf Hn. change (decides w u).
  destruct w as [|c l]; [done|]. apply Forall_cons in Hf as [(Hsp & Hcr & Hlf) Hf].
  assert (Hf' : Forall (fun c => c <> #" ") l) by (eapply Forall_impl; [exact Hf|naive_solver]).
  assert (H0 : at_pos ((c :: l) ++ [ #" "]) 0 ([c] ++ l ++ [ #" "])).
  { exists [], []. by rewrite app_nil_r. }
  apply at_pos_app in H0 as [H0 H1]. change (0 + zlen [c]) with 1 in H1.
  apply at_pos_cons in H0 as (Hq0 & Hc & _). rewrite zlen_cons in Hn.
  destruct (method_of_letter c) as [m0|] eqn:E0.
  - eapply decide_rest; [done|done|done|exact H1|]. rewrite exec_init_fresh.
    exact (run_first o _ fresh u 0 0 c m0 Hq0 Hc eq_refl ltac:(done) E0).
  - destruct (err_first o _ fresh u 0 0 c Hq0 Hc) as (e & He & Her); try done.
    eapply decides_error; [done| |rewrite exec_init_fresh; apply reaches_refl
      |exact (proj2 Hq0)|exact He|exact Her].
    simpl. by rewrite E0.
Qed.
End Decision.

Lemma method_decision_witness :
  let o := mk_observer (U := Z) (fun _ u => u + 1) (fun _ _ u => u) (fun u => (0, u)) (fun _ _ u => u) in
  (exists n x' u', http_parser_execute (observe o) (str "M-SEARCH ") fresh 0 = Returned n x' u' /\
     method x' = HTTP_MSEARCH) /\
  (exists n x' u', http_parser_execute (observe o) (str "MKTEMP ") fresh 0 = Returned n x' u' /\
     perrno x' = HPE_INVALID_METHOD).
Proof.
  intros o. split.
  - destruct (method_decision o (str "M-SEARCH") 0) as (n & x & u & E & [(m & Hm & _ & _ & _ & H)|[H _]]);
      [done|repeat constructor; done|done| |].
    + exists n, x, u. split; [exact E|]. rewrite H.
      destruct m; try discriminate Hm. reflexivity.
    + destruct (H HTTP_MSEARCH eq_refl).
  - destruct (method_decision o (str "MKTEMP") 0) as (n & x & u & E & [(m & Hm & _)|[_ H]]);
      [done|repeat constructor; done|done| |].
    + destruct m; discriminate Hm.
    + exists n, x, u. split; [exact E|exact H].
Defined.
