(* ===== verification/HttpHeaders.v ===== *)
(** * The headers that [http_parser_execute] recognises, and header lines

    The matching states of the header field are compared with a reference that
    looks at the whole name. *)

From S2P Require Import Prelude.
From S2P Require Import Words.
From S2P Require Import HttpChars.
From S2P Require Import HttpUrl.
From S2P Require Import HttpState.
From S2P Require Import HttpExec.
From S2P Require Import HttpWp.
From S2P Require Import HttpRun.

(** ** The reference *)

(** The names that matter to the parser, in lower case. *)
Definition known_names : list bytes :=
  [CONNECTION; PROXY_CONNECTION; CONTENT_LENGTH; TRANSFER_ENCODING; UPGRADE].

Definition is_prefix (w s : bytes) : bool := bool_decide (take (length w) s = w).

(** The state that stands for the lower-cased prefix [w] of a header name. *)
Definition name_state (w : bytes) : header_states :=
  if decide (w = str "c") then h_C
  else if decide (w = str "co") then h_CO
  else if decide (w = str "con") then h_CON
  else if decide (w = CONNECTION) then h_connection
  else if decide (w = PROXY_CONNECTION) then h_connection
  else if decide (w = CONTENT_LENGTH) then h_content_length
  else if decide (w = TRANSFER_ENCODING) then h_transfer_encoding
  else if decide (w = UPGRADE) then h_upgrade
  else if is_prefix w CONNECTION then h_matching_connection
  else if is_prefix w PROXY_CONNECTION then h_matching_proxy_connection
  else if is_prefix w CONTENT_LENGTH then h_matching_content_length
  else if is_prefix w TRANSFER_ENCODING then h_matching_transfer_encoding
  else if is_prefix w UPGRADE then h_matching_upgrade
  else h_general.

(** ** The automaton follows the reference *)

Definition known_prefix (w : bytes) : bool := existsb (is_prefix w) known_names.

Lemma name_state_general w : known_prefix w = false -> name_state w = h_general.
Proof.
  unfold known_prefix, known_names. cbn [existsb]. rewrite orb_false_r.
  intros (H1 & (H2 & (H3 & (H4 & H5)%orb_false_iff)%orb_false_iff)%orb_false_iff)%orb_false_iff.
  unfold name_state.
  repeat (case_decide; [subst; vm_compute in H1, H2, H3, H4, H5; discriminate|]).
  by rewrite H1, H2, H3, H4, H5.
Qed.

Lemma is_prefix_app w c s : is_prefix (w ++ [c]) s = true -> is_prefix w s = true.
Proof.
  unfold is_prefix. rewrite !bool_decide_eq_true, length_app. simpl. intros H.
  rewrite <- (take_app_length w [c]) at 2. rewrite <- H, take_take. f_equal. lia.
Qed.

Lemma known_prefix_app w c : known_prefix w = false -> known_prefix (w ++ [c]) = false.
Proof.
  intros H. apply not_true_iff_false. intros H'. unfold known_prefix in *.
  apply existsb_exists in H' as (s & Hs & Hp). apply is_prefix_app in Hp.
  rewrite <- not_true_iff_false in H. apply H. apply existsb_exists. eauto.
Qed.

(** All the prefixes of the known names, for a check by computation. *)
Definition all_prefixes : list bytes :=
  flat_map (fun s => map (fun n => take n s) (seq 1 (length s))) known_names.

Lemma known_prefix_in w : w <> [] -> known_prefix w = true -> In w all_prefixes.
Proof.
  intros Hw H. unfold known_prefix in H. apply existsb_exists in H as (s & Hs & Hp).
  unfold is_prefix in Hp. apply bool_decide_eq_true in Hp.
  unfold all_prefixes. apply in_flat_map. exists s. split; [done|].
  apply in_map_iff. exists (length w). split; [done|]. apply in_seq.
  assert (length w <= length s)%nat by (rewrite <- Hp, length_take; lia).
  destruct w; [done|]. simpl in *. lia.
Qed.

(** [header_field_step] only reads the header state and the index. *)
Definition dummy (h : header_states) (i : Z) : http_parser :=
  set_header_state h (set_index i (http_parser_init HTTP_REQUEST)).

Lemma field_step_dummy x b c :
  header_field_step x b c =
    option_map (fun y => set_header_state (header_state y) (set_index (index y) x))
      (header_field_step (dummy (header_state x) (index x)) b c).
Proof.
  unfold header_field_step. destruct x as [ty fl ps hs ix nr cl ma mi sc me er up].
  destruct hs; cbn; try reflexivity; try (by destruct (match_const _ _ _ _ _ _));
    by destruct (b =? #" ").
Qed.

Definition check_step (w : bytes) (b : Z) : bool :=
  let c := TOKEN b in
  (c =? 0) ||
  match header_field_step (dummy (name_state w) (zlen w - 1)) b c with
  | Some y =>
      bool_decide (header_state y = name_state (w ++ [c])) &&
      (negb (known_prefix (w ++ [c])) || (index y =? zlen w))
  | None => false
  end.

Lemma check_steps : forallb (fun w => forallb (check_step w) all_bytes) all_prefixes = true.
Proof. vm_compute. reflexivity. Qed.

(** The invariant: what was read of the name, lower-cased, is [w]. *)
Definition name_inv (w : bytes) (h : header_states) (i : Z) : Prop :=
  h = name_state w /\ (known_prefix w = true -> i = zlen w - 1).

Lemma name_step w x b :
  w <> [] -> is_byte b -> TOKEN b <> 0 -> name_inv w (header_state x) (index x) ->
  exists h i, header_field_step x b (TOKEN b) = Some (set_header_state h (set_index i x)) /\
    name_inv (w ++ [TOKEN b]) h i.
Proof.
  intros Hw Hb Ht [Hh Hi]. rewrite field_step_dummy.
  destruct (known_prefix w) eqn:Ek.
  - pose proof (known_prefix_in w Hw Ek) as Hin.
    pose proof check_steps as Hc. rewrite forallb_forall in Hc.
    pose proof (byte_forall _ (Hc _ Hin) b Hb) as H. unfold check_step in H.
    rewrite (proj2 (Z.eqb_neq _ _) Ht) in H. cbn [orb] in H.
    rewrite Hh, (Hi eq_refl).
    destruct (header_field_step _ _ _) as [y|]; [|done]. simpl.
    apply andb_true_iff in H as [H1 H2]. apply bool_decide_eq_true in H1.
    exists (header_state y), (index y). split; [done|]. split; [done|].
    intros Hk. rewrite Hk in H2. simpl in H2. zprop. rewrite zlen_app.
    change (zlen [TOKEN b]) with 1. lia.
  - rewrite (name_state_general w Ek) in Hh. rewrite Hh. cbn.
    exists h_general, (index x). split; [done|]. split.
    + symmetry. apply name_state_general. by apply known_prefix_app.
    + intros Hk. by rewrite known_prefix_app in Hk.
Qed.

Lemma name_first b : is_byte b -> TOKEN b <> 0 -> name_inv [TOKEN b] (field_start_state (TOKEN b)) 0.
Proof.
  intros Hb Ht. split; [|done].
  assert (H : forallb (fun b => (TOKEN b =? 0)
    || bool_decide (field_start_state (TOKEN b) = name_state [TOKEN b])) all_bytes = true)
    by (vm_compute; reflexivity).
  pose proof (byte_forall _ H b Hb) as H1. cbv beta in H1.
  rewrite (proj2 (Z.eqb_neq _ _) Ht) in H1. cbn [orb] in H1. by apply bool_decide_eq_true in H1.
Qed.

(** The bytes of a header name. *)
Definition name_byte (b : Z) : Prop := is_byte b /\ TOKEN b <> 0.

Section Loop.
Context {U : Type}.

Lemma name_loop l : forall w rest (e : exec U),
  Forall name_byte l -> w <> [] -> TOKEN #":" = 0 ->
  name_inv w (header_state (prs e)) (index (prs e)) ->
  exists h i, header_field_loop (l ++ #":" :: rest) e =
    Val tt (set_ch #":" (set_p (p e + zlen l)
      (set_prs (set_header_state h (set_index i (prs e))) e))) /\
    name_inv (w ++ map TOKEN l) h i.
Proof.
  induction l as [|b l IH]; intros w rest e Hl Hw Hcolon Hinv.
  - exists (header_state (prs e)), (index (prs e)). rewrite app_nil_r. split; [|done].
    cbn [app header_field_loop]. unfold bind, modify. rewrite Hcolon. change (zlen []) with 0. rewrite Z.add_0_r.
    by destruct e as [[]].
  - apply Forall_cons in Hl as [[Hb Ht] Hl]. cbn [app header_field_loop].
    unfold bind, modify, gets. rewrite (proj2 (Z.eqb_neq _ _) Ht).
    change (prs (set_ch b e)) with (prs e).
    destruct (name_step w (prs e) b Hw Hb Ht Hinv) as (h & i & -> & Hinv').
    match goal with |- context [header_field_loop _ ?e'] =>
      destruct (IH (w ++ [TOKEN b]) rest e') as (h2 & i2 & E & Hinv2) end;
      [done|by destruct w|done|done|].
    exists h2, i2. rewrite E, zlen_cons. split.
    + replace (p e + (1 + zlen l)) with (p e + 1 + zlen l) by lia. reflexivity.
    + simpl. by rewrite <- app_assoc in Hinv2.
Qed.
End Loop.

(** ** A header field *)

Section Field.
Context {U : Type} (o : observer U) (data : bytes).

(** The states in which a header line can start: the first line, and a line
    after a value, whose flag is set then. *)
Definition line_start (s : state) : Prop := s = s_header_field_start \/ s = s_header_value_lws.

Definition line_flags (s : state) (x : http_parser) : Z :=
  match s with s_header_value_lws => Z.lor (flags x) (value_flag (header_state x)) | _ => flags x end.

Lemma token_not_space b : TOKEN b <> 0 -> (b =? #" ") || (b =? 9) = false.
Proof. intros H. apply orb_false_iff. split; apply Z.eqb_neq; intros ->; by apply H. Qed.

(** A name with its colon. *)
Lemma run_name b l s x u q c0 :
  line_start s -> at_pos data q ((b :: l) ++ [ #":"]) -> Forall name_byte (b :: l) ->
  perrno x = HPE_OK -> 0 <= nread x -> nread x + zlen (b :: l) + 1 <= HTTP_MAX_HEADER_SIZE ->
  exists i, reaches o data (at_state x u s q c0)
    (at_state (set_pstate s_header_value_discard_ws
       (set_nread (nread x + zlen (b :: l) + 1)
         (set_header_state (name_state (map TOKEN (b :: l))) (set_index i (set_flags (line_flags s x) x)))))
       (ob_data o header_field (b :: l) u) s_header_value_discard_ws
       (q + zlen (b :: l) + 1) #":").
Proof.
  intros Hs Hp Hl Hx Hn1 Hn2. apply Forall_cons in Hl as [[Hb Ht] Hl].
  pose proof (at_pos_slice data q (b :: l)) as Hslice.
  destruct (at_pos_app _ _ _ _ Hp) as [Hp0 _].
  specialize (Hslice Hp0). cbn [app] in Hp. apply at_pos_cons in Hp as (Hq & Hc & Hp).
  rewrite zlen_cons in *. pose proof (zlen_nonneg l).
  destruct (at_pos_drop _ _ _ Hp) as [rest Hdrop]. rewrite <- app_assoc in Hdrop.
  pose proof (at_pos_len _ _ _ Hp) as [_ Hlen]. rewrite zlen_app in Hlen.
  change (zlen [ #":"]) with 1 in Hlen.
  assert (Hcr : (b =? CR) = false) by (apply Z.eqb_neq; intros ->; by apply Ht).
  assert (Hlf : (b =? LF) = false) by (apply Z.eqb_neq; intros ->; by apply Ht).
  set (e1' := mk_exec
    (set_header_state (field_start_state (TOKEN b)) (set_index 0 (set_nread (nread x + 1) (set_flags (line_flags s x) x))))
    u s_header_field (q + 1) b (Some q) None None None None).
  assert (R1 : reaches o data (at_state x u s q c0) e1').
  { destruct Hs as [->| ->]; header_byte b.
    - unfold case_s_header_field_start. rewrite Hcr, Hlf, (proj2 (Z.eqb_neq _ _) Ht).
      repeat wp_obs. destruct x. obs_done.
    - unfold case_s_header_value_lws, set_value_flag. rewrite (token_not_space b Ht).
      repeat wp_obs.
      apply wp_switch. unfold switch_state. do 4 wp_base.
      unfold case_s_header_field_start. rewrite Hcr, Hlf, (proj2 (Z.eqb_neq _ _) Ht).
      repeat wp_obs. obs_done. }
  destruct (name_loop l [TOKEN b] rest
    (set_prs (set_nread (nread x + 1 + 1) (prs e1')) (set_ch (znth data (q + 1) 0) e1')))
    as (h & i & E & Hinv); [done|done|reflexivity|exact (name_first b Hb Ht)|].
  exists i. eapply reaches_trans; [exact R1|].
  apply reaches_wp; [simpl; lia|].
  apply (wp_byte_header _ _ (znth data (q + 1) 0)); [done|done|simpl; lia|].
  apply wp_switch. unfold switch_state, e1' in *. clear R1. do 4 wp_base.
  unfold case_s_header_field. do 2 wp_base. apply wp_bind. unfold wp at 1.
  rewrite Hdrop. change (l ++ [ #":"] ++ rest) with (l ++ #":" :: rest). rewrite E. clear E.
  repeat wp_obs. replace (nread x + 1 + 1 + (q + 1 + zlen l - (q + 1)))
    with (nread x + (1 + zlen l) + 1) by lia.
  rewrite wrap_small by (unfold HTTP_MAX_HEADER_SIZE in *; lia).
  rewrite (proj2 (Z.ltb_ge _ _)) by lia. rewrite (proj2 (Z.eqb_neq _ (zlen data))) by lia.
  repeat wp_obs. change (#":" =? #":") with true. repeat wp_obs.
  replace (q + 1 + zlen l - q) with (1 + zlen l) by lia. rewrite Hslice.
  replace (q + (1 + zlen l) + 1) with (q + 1 + zlen l + 1) by lia.
  destruct Hinv as [-> _]. obs_done.
Qed.
End Field.

(** The special states are reached by exactly one name, [h_connection] by two. *)
Lemma name_state_special w :
  (name_state w = h_content_length <-> w = CONTENT_LENGTH) /\
  (name_state w = h_transfer_encoding <-> w = TRANSFER_ENCODING) /\
  (name_state w = h_upgrade <-> w = UPGRADE) /\
  (name_state w = h_connection <-> w = CONNECTION \/ w = PROXY_CONNECTION).
Proof.
  unfold name_state.
  repeat (case_decide; [subst; vm_compute; intuition congruence|]).
  repeat case_match; intuition congruence.
Qed.

(** C30: whatever the letters' case, a header name is recognised exactly when
    all of it, lower-cased, is one of the names the parser acts upon; every
    other name is left to the application only. The name is handed to the
    callback unchanged and every byte of it is counted. *)
Theorem header_name_recognised {U} (o : observer U) (name : bytes) (x : http_parser) (u : U) :
  name <> [] -> Forall name_byte name ->
  perrno x = HPE_OK -> pstate x = s_header_field_start ->
  0 <= nread x -> nread x + zlen name + 1 <= HTTP_MAX_HEADER_SIZE ->
  exists x', http_parser_execute (observe o) (name ++ [ #":"]) x u
      = Returned (zlen name + 1) x' (ob_data o header_field name u) /\
    perrno x' = HPE_OK /\ pstate x' = s_header_value_discard_ws /\
    nread x' = nread x + zlen name + 1 /\
    let w := map TOKEN name in
    (header_state x' = h_content_length <-> w = CONTENT_LENGTH) /\
    (header_state x' = h_transfer_encoding <-> w = TRANSFER_ENCODING) /\
    (header_state x' = h_upgrade <-> w = UPGRADE) /\
    (header_state x' = h_connection <-> w = CONNECTION \/ w = PROXY_CONNECTION).
Proof.
  intros Hne Hname Hx Hs Hn1 Hn2. destruct name as [|b l]; [done|].
  assert (Hp : at_pos ((b :: l) ++ [ #":"]) 0 ((b :: l) ++ [ #":"])).
  { exists [], []. by rewrite app_nil_r. }
  destruct (run_name o _ b l s_header_field_start x u 0 0 (or_introl eq_refl) Hp Hname Hx Hn1 Hn2)
    as [i R].
  assert (Hd : 0 + zlen (b :: l) + 1 = zlen ((b :: l) ++ [ #":"])) by (by rewrite zlen_app).
  assert (E : exec_init x u = at_state x u s_header_field_start 0 0)
    by (unfold exec_init; by rewrite Hs).
  rewrite <- E in R. pose proof (zlen_nonneg l).
  eexists. split.
  - replace (zlen (b :: l) + 1) with (zlen ((b :: l) ++ [ #":"])) by lia.
    eapply reaches_return; [|exact Hx| |exact R|exact Hd]; [rewrite <- Hd, zlen_cons; lia|exact Hx].
  - split_and!; try done. apply name_state_special.
Qed.

Lemma header_name_recognised_witness :
  let o := mk_observer (U := bytes) (fun _ u => u) (fun _ b u => u ++ b) (fun u => (0, u)) (fun _ _ u => u) in
  let x := set_pstate s_header_field_start (http_parser_init HTTP_REQUEST) in
  (exists x', http_parser_execute (observe o) (str "Content-LENGTH:") x []
     = Returned 15 x' (str "Content-LENGTH") /\ header_state x' = h_content_length) /\
  (exists x', http_parser_execute (observe o) (str "Content-Lengths:") x []
     = Returned 16 x' (str "Content-Lengths") /\ header_state x' <> h_content_length).
Proof.
  intros o x. split.
  - destruct (header_name_recognised o (str "Content-LENGTH") x []) as (x' & E & _ & _ & _ & H & _);
      [done|repeat constructor; by vm_compute|done|done|vm_compute; congruence|vm_compute; congruence|].
    exists x'. split; [exact E|]. by apply H.
  - destruct (header_name_recognised o (str "Content-Lengths") x []) as (x' & E & _ & _ & _ & H & _);
      [done|repeat constructor; by vm_compute|done|done|vm_compute; congruence|vm_compute; congruence|].
    exists x'. split; [exact E|]. intros Hx. apply H in Hx. vm_compute in Hx. discriminate.
Defined.
