(* ===== verification/HttpLines.v ===== *)
(** * Header lines

    What http_parser_execute does with one header line of a request: the jump over a
    plain value, the digits of a length, the tokens of [Connection], and the name,
    and then with all of them. *)

From S2P Require Import Prelude.
From S2P Require Import Words.
From S2P Require Import HttpChars.
From S2P Require Import HttpUrl.
From S2P Require Import HttpState.
From S2P Require Import HttpExec.
From S2P Require Import HttpWp.
From S2P Require Import HttpSafe.
From S2P Require Import HttpRun.
From S2P Require Import HttpMethod.
From S2P Require Import HttpHeaders.

(** ** Header values *)

(** The bytes of a value: no line end; the first one is not blank. *)
Definition value_byte (b : Z) : Prop := b <> CR /\ b <> LF.

Definition value_ok (v : bytes) : Prop :=
  Forall value_byte v /\
  match v with
  | [] => False
  | b :: _ => b <> #" " /\ b <> 9
  end.

(** The header states in which a value means nothing to the parser. *)
Definition plain_hs (h : header_states) : bool :=
  match h with
  | h_upgrade | h_transfer_encoding | h_content_length | h_connection
  | h_matching_connection_token_start => false
  | _ => true
  end.

Lemma value_byte_tests b : value_byte b -> (b =? CR) = false /\ (b =? LF) = false.
Proof. intros [H1 H2]. by split; apply Z.eqb_neq. Qed.

Lemma memchr_app l c rest n :
  Forall (fun b => b <> c) l -> (length l < n)%nat -> memchr (l ++ c :: rest) c n = Some (zlen l).
Proof.
  revert n. induction l as [|b l IH]; intros [|n] Hl Hn; simpl in *; try lia.
  - by rewrite Z.eqb_refl.
  - apply Forall_cons in Hl as [Hb Hl]. rewrite (proj2 (Z.eqb_neq _ _) Hb), IH by (done || lia).
    simpl. rewrite zlen_cons. f_equal. lia.
Qed.


(** The values of [Connection] that the parser knows, with the states in which one is
    being matched and has been matched. *)
Inductive connection_token := KeepAlive | Close | ToUpgrade.

Definition token_text (t : connection_token) : bytes :=
  match t with KeepAlive => KEEP_ALIVE | Close => CLOSE | ToUpgrade => UPGRADE end.
Definition token_start (t : connection_token) : header_states :=
  match t with
  | KeepAlive => h_matching_connection_keep_alive
  | Close => h_matching_connection_close
  | ToUpgrade => h_matching_connection_upgrade
  end.
Definition token_state (t : connection_token) : header_states :=
  match t with
  | KeepAlive => h_connection_keep_alive
  | Close => h_connection_close
  | ToUpgrade => h_connection_upgrade
  end.

Section Values.
Context {U : Type} (o : observer U) (data : bytes).

Lemma memchr_ge l c rest n r :
  Forall (fun b => b <> c) l -> memchr (l ++ rest) c n = Some r -> zlen l <= r.
Proof.
  revert n r. induction l as [|b l IH]; intros n r Hl.
  - intros H. simpl in H. revert n r H. induction rest as [|b rest IH]; intros [|n] r; simpl; try done.
    destruct (b =? c); [intros [= <-]; done|].
    destruct (memchr rest c n) eqn:E; [|done]. intros [= <-]. apply IH in E.
    change (zlen []) with 0 in *. lia.
  - apply Forall_cons in Hl as [Hb Hl]. destruct n as [|n]; simpl; [done|].
    rewrite (proj2 (Z.eqb_neq _ _) Hb).
    destruct (memchr (l ++ rest) c n) eqn:E; [|done]. intros [= <-]. apply IH in E; [|done].
    rewrite zlen_cons. lia.
Qed.

(** The jump over the rest of a plain value stops before its CR. *)
Lemma skip_general_value q l :
  at_pos data q (l ++ [CR]) -> Forall value_byte l -> zlen l < HTTP_MAX_HEADER_SIZE ->
  skip_general data q = q + zlen l - 1.
Proof.
  intros Hp Hl Hn. destruct (at_pos_drop _ _ _ Hp) as [rest Hd].
  pose proof (at_pos_len _ _ _ Hp) as [Hq Hlen]. rewrite zlen_app in Hlen.
  change (zlen [CR]) with 1 in Hlen.
  unfold skip_general. rewrite Hd, <- app_assoc. cbn [app].
  assert (Hlim : (length l < Z.to_nat (Z.min (zlen data - q) HTTP_MAX_HEADER_SIZE))%nat)
    by (unfold zlen in *; lia).
  rewrite memchr_app; [|eapply Forall_impl; [exact Hl|by intros ? []]|exact Hlim].
  destruct (memchr _ LF _) as [lf|] eqn:E; [|done].
  change (l ++ CR :: rest) with (l ++ [CR] ++ rest) in E. rewrite app_assoc in E.
  apply memchr_ge in E.
  - rewrite zlen_app in E. change (zlen [CR]) with 1 in E.
    by rewrite (proj2 (Z.leb_gt _ _)) by lia.
  - apply Forall_app. split; [eapply Forall_impl; [exact Hl|by intros ? []]|].
    by repeat constructor.
Qed.

(** The inner loop on the rest of a plain value. *)
Lemma loop_plain fuel q0 q l x u c0 m :
  at_pos data q (l ++ [CR]) -> Forall value_byte l -> zlen l < HTTP_MAX_HEADER_SIZE ->
  perrno x = HPE_OK -> (2 <= fuel)%nat -> 0 <= m <= q ->
  wp (header_value_loop (observe o) data fuel q0 h_general)
    (fun h e => h = h_general /\ e = at_state
      (set_pstate s_header_almost_done (set_header_state h_general x))
      (ob_data o header_value (slice data m (q + zlen l - m)) u)
      s_header_almost_done (q + zlen l) CR) (fun _ _ => False)
    (mk_exec x u s_header_value q c0 None (Some m) None None None).
Proof.
  intros Hp Hl Hn Hx Hf Hm.
  pose proof (at_pos_len _ _ _ Hp) as [Hq Hlen]. rewrite zlen_app in Hlen.
  change (zlen [CR]) with 1 in Hlen. pose proof (zlen_nonneg l).
  destruct (at_pos_app _ _ _ _ Hp) as [_ Hcr]. apply at_pos_cons in Hcr as (_ & Hcr & _).
  (* the CR, from any amount of fuel *)
  assert (Hend : forall f c1, (1 <= f)%nat ->
    wp (header_value_loop (observe o) data f q0 h_general)
    (fun h e => h = h_general /\ e = at_state
      (set_pstate s_header_almost_done (set_header_state h_general x))
      (ob_data o header_value (slice data m (q + zlen l - m)) u)
      s_header_almost_done (q + zlen l) CR) (fun _ _ => False)
    (mk_exec x u s_header_value (q + zlen l) c1 None (Some m) None None None)).
  { intros [|f] c1 ?; [lia|]. cbn [header_value_loop]. do 2 wp_base.
    rewrite (proj2 (Z.eqb_neq _ _)) by lia. do 2 wp_base.
    rewrite Hcr. change (CR =? CR) with true. cbv iota. repeat wp_obs. split; reflexivity. }
  destruct l as [|b l]; [change (zlen []) with 0 in *; rewrite Z.add_0_r in *; apply Hend; lia|].
  destruct fuel as [|fuel]; [lia|]. cbn [header_value_loop]. do 2 wp_base.
  rewrite (proj2 (Z.eqb_neq _ _)) by lia. do 2 wp_base.
  pose proof Hp as Hp'. cbn [app] in Hp'. apply at_pos_cons in Hp' as (_ & Hb & _). rewrite Hb.
  apply Forall_cons in Hl as Hl'. destruct Hl' as [Hb' _].
  destruct (value_byte_tests b Hb') as [-> ->]. unfold header_value_step. repeat wp_obs.
  rewrite (skip_general_value q (b :: l) Hp Hl Hn).
  replace (q + zlen (b :: l) - 1 + 1) with (q + zlen (b :: l)) by lia. apply Hend. lia.
Qed.

(** The same loop on the digits of a length. *)
Definition digit (b : Z) : Prop := #"0" <= b <= #"9".

Lemma dec_value_ge l : forall acc, 0 <= acc -> Forall digit l -> acc <= dec_value acc l.
Proof.
  induction l as [|b l IH]; intros acc Ha Hl; [done|].
  apply Forall_cons in Hl as [Hb Hl]. unfold digit in Hb. simpl.
  specialize (IH (acc * 10 + (b - #"0")) ltac:(lia) Hl). lia.
Qed.

Lemma digit_tests b : digit b ->
  (b =? CR) = false /\ (b =? LF) = false /\ (b =? #" ") = false /\ IS_NUM b = true.
Proof.
  unfold digit, IS_NUM. chars. intros. split_and!; [apply Z.eqb_neq; unfold CR; lia
    |apply Z.eqb_neq; unfold LF; lia|apply Z.eqb_neq; lia|].
  apply andb_true_iff. split; apply Z.leb_le; lia.
Qed.

Lemma loop_digits l : forall fuel q0 q x u c0 m,
  at_pos data q (l ++ [CR]) -> Forall digit l ->
  perrno x = HPE_OK -> (length l < fuel)%nat -> 0 <= m <= q ->
  0 <= content_length x -> dec_value (content_length x) l <= ULLONG_MAX - 10 ->
  wp (header_value_loop (observe o) data fuel q0 h_content_length)
    (fun h e => h = h_content_length /\ e = at_state
      (set_pstate s_header_almost_done (set_header_state h_content_length
         (set_content_length (dec_value (content_length x) l) x)))
      (ob_data o header_value (slice data m (q + zlen l - m)) u)
      s_header_almost_done (q + zlen l) CR) (fun _ _ => False)
    (mk_exec x u s_header_value q c0 None (Some m) None None None).
Proof.
  induction l as [|b l IH]; intros fuel q0 q x u c0 m Hp Hl Hx Hf Hm Hc Hv;
    (destruct fuel as [|fuel]; [simpl in Hf; lia|]); cbn [app] in Hp;
    apply at_pos_cons in Hp as (Hq & Hb & Hp); cbn [header_value_loop]; do 2 wp_base;
    rewrite (proj2 (Z.eqb_neq _ _)) by lia; do 2 wp_base; rewrite Hb.
  - change (CR =? CR) with true. cbv iota. repeat wp_obs.
    change (zlen []) with 0. rewrite Z.add_0_r. split; [done|]. simpl. by destruct x.
  - apply Forall_cons in Hl as [Hd Hl]. destruct (digit_tests b Hd) as (-> & -> & Es & Hnum).
    pose proof (IS_NUM_range b Hnum) as Hr.
    set (acc := content_length x) in *.
    pose proof (dec_value_ge l (acc * 10 + (b - #"0")) ltac:(lia) Hl) as Hge.
    change (dec_value acc (b :: l)) with (dec_value (acc * 10 + (b - #"0")) l) in *.
    assert (Hlim : ((ULLONG_MAX - 10) / 10 <? acc) = false).
    { apply Z.ltb_ge. apply Z.div_le_lower_bound; lia. }
    destruct (length_push acc (b - #"0") 10) as [Ht _]; [lia|unfold ULLONG_MAX in *; lia|done|lia|].
    unfold header_value_step. rewrite Es, Hnum. repeat wp_obs.
    fold acc. rewrite Ht, Hlim. repeat wp_obs.
    eapply wp_mono; [eapply (IH fuel q0 (q + 1)
      (set_content_length (acc * 10 + (b - #"0")) x) u b m); try done;
      [simpl in Hf; lia|lia|simpl; lia]| |done].
    intros h e [-> ->]. split; [done|]. rewrite zlen_cons.
    replace (q + (1 + zlen l)) with (q + 1 + zlen l) by lia. done.
Qed.

(** The same loop on the rest of a word that is matched in state [cur]: what [index]
    counts was read. *)
Lemma loop_match text cur bad fin l :
  (forall b c, header_value_step (U := U) data cur b c = match_value text c cur bad fin) -> zlen text < 256 ->
  forall fuel q0 q x u c0 m,
  at_pos data q (l ++ [CR]) -> Forall value_byte l -> perrno x = HPE_OK -> (length l < fuel)%nat -> 0 <= m <= q ->
  0 <= index x -> index x + 1 + zlen l = zlen text ->
  map LOWER l = drop (Z.to_nat (index x + 1)) text ->
  wp (header_value_loop (observe o) data fuel q0 (if decide (l = []) then fin else cur))
    (fun h e => h = fin /\ e = at_state
      (set_pstate s_header_almost_done (set_header_state fin (set_index (zlen text - 1) x)))
      (ob_data o header_value (slice data m (q + zlen l - m)) u)
      s_header_almost_done (q + zlen l) CR) (fun _ _ => False)
    (mk_exec x u s_header_value q c0 None (Some m) None None None).
Proof.
  intros Hstep Ht. induction l as [|b l IH]; intros fuel q0 q x u c0 m Hp Hv Hx Hf Hm Hi Hlen Hl;
    (destruct fuel as [|fuel]; [simpl in Hf; lia|]); cbn [app] in Hp;
    apply at_pos_cons in Hp as (Hq & Hb & Hp); cbn [header_value_loop]; do 2 wp_base;
    rewrite (proj2 (Z.eqb_neq _ _)) by lia; do 2 wp_base; rewrite Hb.
  - change (CR =? CR) with true. cbv iota. repeat wp_obs. rewrite decide_True by done.
    change (zlen []) with 0 in *. rewrite Z.add_0_r in *. split; [done|].
    assert (E : zlen text - 1 = index x) by lia. rewrite E. by destruct x.
  - apply Forall_cons in Hv as [Hb' Hv]. destruct (value_byte_tests b Hb') as [-> ->].
    rewrite decide_False by done. rewrite zlen_cons in *. pose proof (zlen_nonneg l).
    assert (Hc : str_at text (index x + 1) = Some (LOWER b) /\
      map LOWER l = drop (Z.to_nat (index x + 1 + 1)) text).
    { cbn [map] in Hl. split.
      - assert (E : text !! Z.to_nat (index x + 1) = Some (LOWER b)).
        { rewrite <- (Nat.add_0_r (Z.to_nat (index x + 1))), <- lookup_drop, <- Hl. done. }
        unfold str_at. rewrite (proj2 (Z.leb_le 0 _)), (proj2 (Z.ltb_lt _ (zlen _))) by lia. cbn [andb].
        by rewrite (znth_lookup _ _ _ (LOWER b)) by (lia || done).
      - replace (Z.to_nat (index x + 1 + 1)) with (Z.to_nat (index x + 1) + 1)%nat by lia.
        by rewrite <- drop_drop, <- Hl. }
    destruct Hc as [Hc Hl'].
    assert (Em : match_const text (index x + 1) (LOWER b) cur bad fin = Some (if decide (l = []) then fin else cur)).
    { unfold match_const. rewrite (proj2 (Z.ltb_ge _ _)) by lia. rewrite Hc. cbn [mbind option_bind].
      rewrite Z.eqb_refl. cbn [negb]. destruct (decide (l = [])) as [->|Hne].
      - change (zlen []) with 0 in Hlen. by rewrite (proj2 (Z.eqb_eq _ _)) by lia.
      - rewrite (proj2 (Z.eqb_neq _ _)); [done|]. destruct l; [done|]. rewrite zlen_cons in Hlen.
        pose proof (zlen_nonneg l). lia. }
    rewrite Hstep. apply wp_bind. unfold match_value. repeat wp_obs. rewrite wrap_small by lia. rewrite Em. repeat wp_obs.
    eapply wp_mono; [apply (IH fuel q0 (q + 1) (set_index (index x + 1) x) u b m); try done;
      [simpl in Hf; lia|lia|simpl; lia|simpl; lia]| |done].
    intros h e [-> ->]. split; [done|].
    replace (q + (1 + zlen l)) with (q + 1 + zlen l) by lia. done.
Qed.

(** *** A value with the space before it and the CR after it *)

Lemma run_space x u q c0 :
  0 <= q < zlen data -> znth data q 0 = #" " -> perrno x = HPE_OK ->
  0 <= nread x < HTTP_MAX_HEADER_SIZE ->
  reaches o data (at_state x u s_header_value_discard_ws q c0)
    (at_state (set_nread (nread x + 1) x) u s_header_value_discard_ws (q + 1) #" ").
Proof.
  intros Hq Hc Hx Hn. header_byte #" ". unfold case_s_header_value_discard_ws.
  change ((#" " =? #" ") || (#" " =? 9)) with true. repeat wp_obs. obs_done.
Qed.

(** The first byte of a value: [y] is the parser after it. *)
Lemma run_value_first b x u q c0 y :
  0 <= q < zlen data -> znth data q 0 = b -> perrno x = HPE_OK ->
  0 <= nread x < HTTP_MAX_HEADER_SIZE -> value_byte b -> b <> #" " -> b <> 9 ->
  (plain_hs (header_state x) = true /\
     y = set_header_state h_general (set_index 0 (set_nread (nread x + 1) x)) \/
   header_state x = h_content_length /\ IS_NUM b = true /\
     y = set_content_length (b - #"0") (set_index 0 (set_nread (nread x + 1) x)) \/
   header_state x = h_upgrade /\
     y = set_header_state h_general (set_flags (Z.lor (flags x) F_UPGRADE)
           (set_index 0 (set_nread (nread x + 1) x))) \/
   exists t, header_state x = h_connection /\ LOWER b = znth (token_text t) 0 0 /\
     y = set_header_state (token_start t) (set_index 0 (set_nread (nread x + 1) x))) ->
  reaches o data (at_state x u s_header_value_discard_ws q c0)
    (mk_exec y u s_header_value (q + 1) b None (Some q) None None None).
Proof.
  intros Hq Hc Hx Hn Hb Hsp Htab Hy. destruct (value_byte_tests b Hb) as [Ecr Elf].
  header_byte b. unfold case_s_header_value_discard_ws.
  rewrite (proj2 (Z.eqb_neq _ _) Hsp), (proj2 (Z.eqb_neq _ _) Htab), Ecr, Elf. cbn [orb].
  unfold case_s_header_value_start. repeat wp_obs.
  destruct Hy as [[Hp ->]|[(Hh & Hnum & ->)|[(Hh & ->)|(t & Hh & Hb0 & ->)]]].
  - destruct (header_state x); try discriminate; repeat wp_obs; obs_done.
  - rewrite Hh, Hnum. repeat wp_obs. obs_done.
  - rewrite Hh. repeat wp_obs. obs_done.
  - rewrite Hh, Hb0. destruct t; repeat wp_obs; obs_done.
Qed.

(** The rest of a value up to its CR, the loop being given. *)
Lemma run_value_rest l h h' x u q c0 m y v :
  at_pos data q (l ++ [CR]) -> perrno x = HPE_OK -> header_state x = h ->
  0 <= nread x -> nread x + zlen l + 1 <= HTTP_MAX_HEADER_SIZE ->
  (forall z c, perrno z = HPE_OK -> content_length z = content_length x -> index z = index x ->
     wp (header_value_loop (observe o) data (Z.to_nat (zlen data - q)) q h)
     (fun h1 e => h1 = h' /\ e = at_state
        (set_pstate s_header_almost_done (set_header_state h' (y z))) v
        s_header_almost_done (q + zlen l) CR) (fun _ _ => False)
     (mk_exec z u s_header_value q c None (Some m) None None None)) ->
  (forall z, nread (y z) = nread z) ->
  reaches o data (mk_exec x u s_header_value q c0 None (Some m) None None None)
    (at_state (set_nread (nread x + zlen l + 1) (set_pstate s_header_almost_done
       (set_header_state h' (y (set_nread (nread x + 1) x))))) v
       s_header_almost_done (q + zlen l + 1) CR).
Proof.
  intros Hp Hx Hh Hn1 Hn2 Hloop Hy. pose proof (zlen_nonneg l).
  pose proof (at_pos_len _ _ _ Hp) as [Hq Hlen]. rewrite zlen_app in Hlen.
  change (zlen [CR]) with 1 in Hlen. apply reaches_wp; [simpl; lia|].
  apply (wp_byte_header _ _ (znth data q 0)); [done|done|simpl; lia|].
  apply wp_switch. unfold switch_state. do 4 wp_base. unfold case_s_header_value.
  do 4 wp_base. apply wp_bind. rewrite Hh.
  eapply wp_mono; [apply (Hloop (set_nread (nread x + 1) x)); done| |done].
  intros h1 e [-> ->]. unfold at_state. repeat wp_obs. rewrite Hy. norm.
  replace (nread x + 1 + (q + zlen l - q)) with (nread x + zlen l + 1) by lia.
  rewrite wrap_small by (unfold HTTP_MAX_HEADER_SIZE in *; lia).
  rewrite (proj2 (Z.ltb_ge _ _)) by lia. rewrite (proj2 (Z.eqb_neq _ (zlen data))) by lia.
  repeat wp_obs. split; [lia|]. f_equal.
Qed.

Lemma run_lf x u q c0 :
  0 <= q < zlen data -> znth data q 0 = LF -> perrno x = HPE_OK ->
  0 <= nread x < HTTP_MAX_HEADER_SIZE ->
  reaches o data (at_state x u s_header_almost_done q c0)
    (at_state (set_nread (nread x + 1) x) u s_header_value_lws (q + 1) LF).
Proof.
  intros Hq Hc Hx Hn. header_byte LF. unfold case_expect.
  change (negb (LF =? LF)) with false. repeat wp_obs. obs_done.
Qed.

(** ** Header lines

    Between two tokens only these fields matter: what a line leaves unchanged,
    with the length [cl] and the flags [fl] after it. *)
Definition same_core (cl fl : Z) (x y : http_parser) : Prop :=
  type y = type x /\ flags y = fl /\ content_length y = cl /\
  http_major y = http_major x /\ http_minor y = http_minor x /\
  method y = method x /\ perrno y = perrno x /\ upgrade y = upgrade x /\ status_code y = status_code x.

Definition header_line (name value : bytes) : bytes :=
  name ++ [ #":"; #" "] ++ value ++ [CR; LF].

Lemma zlen_header_line name value :
  zlen (header_line name value) = zlen name + zlen value + 4.
Proof. unfold header_line. rewrite !zlen_app. change (zlen [ #":"; #" "]) with 2.
  change (zlen [CR; LF]) with 2. lia. Qed.

(** A name that the parser does not act upon. *)
Definition plain_name (name : bytes) : Prop :=
  name <> [] /\ Forall name_byte name /\ ~ In (map TOKEN name) known_names.

Lemma plain_name_state name : plain_name name -> plain_hs (name_state (map TOKEN name)) = true.
Proof.
  intros (_ & _ & H). destruct (name_state_special (map TOKEN name)) as (H1 & H2 & H3 & H4).
  unfold known_names in H. simpl in H.
  destruct (name_state (map TOKEN name)) eqn:E; try done.
  - destruct H4 as [H4 _]. destruct (H4 eq_refl); intuition congruence.
  - destruct H1 as [H1 _]. specialize (H1 eq_refl). intuition congruence.
  - destruct H2 as [H2 _]. specialize (H2 eq_refl). intuition congruence.
  - destruct H3 as [H3 _]. specialize (H3 eq_refl). intuition congruence.
  - unfold name_state in E. repeat case_match; congruence.
Qed.

Definition header_events (o : observer U) (name value : bytes) (u : U) : U :=
  ob_data o header_value value (ob_data o header_field name u).

Lemma at_pos_two q c d l : at_pos data q (c :: d :: l) -> at_pos data (q + 1) (d :: l).
Proof. intros H. by apply at_pos_cons in H as (_ & _ & H). Qed.

(** A header line of a request: one that only the application reads, the length of
    the body, a token of [Connection], or [Upgrade]. *)
Inductive line_kind := Plain | Length | Token (t : connection_token) | Upgrade.

Definition line_ok (k : line_kind) (name value : bytes) : Prop :=
  match k with
  | Plain => plain_name name /\ value_ok value
  | Length => Forall name_byte name /\ map TOKEN name = CONTENT_LENGTH /\
      value <> [] /\ Forall digit value /\ dec_value 0 value <= ULLONG_MAX - 10
  | Token t => Forall name_byte name /\ (map TOKEN name = CONNECTION \/ map TOKEN name = PROXY_CONNECTION) /\
      value_ok value /\ map LOWER value = token_text t
  | Upgrade => Forall name_byte name /\ map TOKEN name = UPGRADE /\ value_ok value
  end.

Definition line_state (k : line_kind) : header_states :=
  match k with Plain | Upgrade => h_general | Length => h_content_length | Token t => token_state t end.

(** The state in which the rest of the value is read. *)
Definition value_state (k : line_kind) : header_states :=
  match k with Token t => token_start t | _ => line_state k end.

Definition line_length (k : line_kind) (value : bytes) (cl : Z) : Z :=
  match k with Length => dec_value 0 value | _ => cl end.

(** The flag that the value sets at once, and all that the line sets. *)
Definition value_sets (k : line_kind) : Z := match k with Upgrade => F_UPGRADE | _ => 0 end.
Definition line_sets (k : line_kind) : Z := Z.lor (value_sets k) (value_flag (line_state k)).

Lemma digit_value_byte b : digit b -> value_byte b /\ b <> #" " /\ b <> 9.
Proof.
  unfold digit, value_byte, CR, LF. chars. intros. split_and!; lia.
Qed.

Lemma line_ok_facts k name value : line_ok k name value ->
  exists b l v vs, name = b :: l /\ value = v :: vs /\ Forall name_byte (b :: l) /\
    value_byte v /\ Forall value_byte vs /\ v <> #" " /\ v <> 9.
Proof.
  destruct k; simpl.
  - intros [(Hne & Hn & _) [Hv Hf]]. destruct name as [|b l]; [done|].
    destruct value as [|v vs]; [done|]. apply Forall_cons in Hv as [? ?].
    exists b, l, v, vs. by destruct Hf.
  - intros (Hn & Hm & Hne & Hd & _). destruct name as [|b l]; [done|].
    destruct value as [|v vs]; [done|]. apply Forall_cons in Hd as [Hv Hvs].
    destruct (digit_value_byte v Hv) as (? & ? & ?). exists b, l, v, vs. split_and!; try done.
    eapply Forall_impl; [exact Hvs|]. intros d Hd. apply (digit_value_byte d Hd).
  - intros (Hn & Hm & [Hv Hf] & _). destruct name as [|b l]; [by destruct Hm|].
    destruct value as [|v vs]; [done|]. apply Forall_cons in Hv as [? ?].
    exists b, l, v, vs. by destruct Hf.
  - intros (Hn & Hm & [Hv Hf]). destruct name as [|b l]; [done|].
    destruct value as [|v vs]; [done|]. apply Forall_cons in Hv as [? ?].
    exists b, l, v, vs. by destruct Hf.
Qed.

(** The value of a line, from the parser [x] after its colon. *)
Lemma run_value k name v vs x u q c0 :
  line_ok k name (v :: vs) -> header_state x = name_state (map TOKEN name) ->
  at_pos data q ([ #" "] ++ (v :: vs) ++ [CR; LF]) ->
  perrno x = HPE_OK -> 0 <= nread x ->
  nread x + zlen (v :: vs) + 3 <= HTTP_MAX_HEADER_SIZE ->
  exists x', reaches o data (at_state x u s_header_value_discard_ws q c0)
    (at_state x' (ob_data o header_value (v :: vs) u) s_header_value_lws
       (q + zlen (v :: vs) + 3) LF) /\
    same_core (line_length k (v :: vs) (content_length x)) (Z.lor (flags x) (value_sets k)) x x' /\
    nread x' = nread x + zlen (v :: vs) + 3 /\ header_state x' = line_state k.
Proof.
  intros Hok Hh Hp Hx Hn1 Hn2.
  destruct (line_ok_facts _ _ _ Hok) as (b & l & v' & vs' & -> & [= <- <-] & Hname & Hv & Hvs & Hsp & Htab).
  assert (Hst : match k with
    | Plain => plain_hs (header_state x) = true
    | Length => header_state x = h_content_length
    | Token _ => header_state x = h_connection
    | Upgrade => header_state x = h_upgrade
    end).
  { destruct k; destruct Hok as [Hok1 Hok2]; rewrite Hh; [by apply plain_name_state|..];
      destruct Hok2 as [Hm _]; [by rewrite Hm|by destruct Hm as [-> | ->]|by rewrite Hm]. }
  pose proof (zlen_nonneg vs). pose proof (zlen_cons v vs) as Hlv.
  cbn [app] in Hp. apply at_pos_cons in Hp as (Hq2 & Hc2 & Hp).
  pose proof Hp as Hp'. change (v :: vs ++ [CR; LF]) with ((v :: vs) ++ [CR; LF]) in Hp'.
  apply at_pos_app in Hp' as [Hp' _]. pose proof (at_pos_slice _ _ _ Hp') as Hslice. clear Hp'.
  change (vs ++ [CR; LF]) with (vs ++ [CR] ++ [LF]) in Hp.
  apply at_pos_cons in Hp as (Hq3 & Hc3 & Hp). rewrite app_assoc in Hp.
  destruct (at_pos_app _ _ _ _ Hp) as [Hp4 Hp5]. rewrite zlen_app in Hp5.
  change (zlen [CR]) with 1 in Hp5. apply at_pos_cons in Hp5 as (Hq6 & Hc6 & _).
  assert (R2 := run_space x u q c0 Hq2 Hc2 Hx ltac:(simpl; lia)).
  set (x2 := set_nread (nread x + 1) x) in R2.
  set (y0 := set_index 0 (set_nread (nread x2 + 1) x2)).
  set (x3 := match k with
             | Plain => set_header_state h_general y0
             | Length => set_content_length (v - #"0") y0
             | Token t => set_header_state (token_start t) y0
             | Upgrade => set_header_state h_general (set_flags (Z.lor (flags x) F_UPGRADE) y0)
             end).
  assert (R3 : reaches o data (at_state x2 u s_header_value_discard_ws (q + 1) #" ")
    (mk_exec x3 u s_header_value (q + 1 + 1) v None (Some (q + 1)) None None None)).
  { apply run_value_first; try done; [simpl; lia|]. destruct k as [| |t|].
    - left. by split.
    - right. left. destruct Hok as (_ & _ & _ & Hd & _). apply Forall_cons in Hd as [Hd _].
      split_and!; [done|by apply digit_tests|done].
    - right. right. right. exists t. destruct Hok as (_ & _ & _ & Hm). cbn [map] in Hm.
      split_and!; [done|by rewrite <- Hm|done].
    - right. right. left. by split. }
  set (f := fun z => match k with
                     | Length => set_content_length (dec_value (v - #"0") vs) z
                     | Token t => set_index (zlen (token_text t) - 1) z
                     | _ => z
                     end).
  assert (Hf : forall z, nread (f z) = nread z) by (intros z; unfold f; by destruct k).
  assert (Hx3 : perrno x3 = HPE_OK /\ header_state x3 = value_state k /\ nread x3 = nread x + 2).
  { unfold x3, y0, x2. destruct k; simpl; (split_and!; [done|done|lia]). }
  destruct Hx3 as (Hx3 & Hh3 & Hn3).
  assert (R4 := run_value_rest vs (value_state k) (line_state k) x3 u (q + 1 + 1) v (q + 1) f
    (ob_data o header_value (v :: vs) u) Hp4 Hx3 Hh3 ltac:(lia) ltac:(lia)).
  assert (R5 : reaches o data (mk_exec x3 u s_header_value (q + 1 + 1) v None (Some (q + 1)) None None None)
    (at_state (set_nread (nread x3 + zlen vs + 1) (set_pstate s_header_almost_done
       (set_header_state (line_state k) (f (set_nread (nread x3 + 1) x3)))))
       (ob_data o header_value (v :: vs) u) s_header_almost_done (q + 1 + 1 + zlen vs + 1) CR)).
  { apply R4; [|done]. clear R2 R3 R4. intros z c Hz Hcl Hix.
    pose proof (at_pos_len _ _ _ Hp4) as [_ Hlen]. rewrite zlen_app in Hlen.
    change (zlen [CR]) with 1 in Hlen.
    replace (v :: vs) with (slice data (q + 1) (q + 1 + 1 + zlen vs - (q + 1)))
      by (rewrite <- Hslice; f_equal; lia).
    unfold f. destruct k as [| |t|]; cbn [line_state value_state].
    - apply loop_plain; try done; unfold HTTP_MAX_HEADER_SIZE, zlen in *; lia.
    - destruct Hok as (_ & _ & _ & Hd & Hdec). apply Forall_cons in Hd as [Hd Hds].
      change (dec_value 0 (v :: vs)) with (dec_value (v - #"0") vs) in Hdec. unfold digit in Hd.
      assert (Hcl' : content_length z = v - #"0") by (rewrite Hcl; reflexivity).
      eapply wp_mono; [apply loop_digits; try done| |done].
      + unfold zlen in *. lia.
      + lia.
      + rewrite Hcl'. lia.
      + by rewrite Hcl'.
      + rewrite Hcl'. auto.
    - destruct Hok as (_ & _ & _ & Hm). cbn [map] in Hm. assert (Hix' : index z = 0) by (rewrite Hix; reflexivity).
      assert (Htl : 1 + zlen vs = zlen (token_text t)) by (rewrite <- Hm; unfold zlen; simpl; rewrite length_map; lia).
      assert (Hne : vs <> []) by (intros ->; destruct t; vm_compute in Htl; lia).
      assert (Hstep : forall b' c', header_value_step (U := U) data (token_start t) b' c' =
        match_value (token_text t) c' (token_start t) h_matching_connection_token (token_state t)) by (by destruct t).
      pose proof (loop_match (token_text t) _ _ (token_state t) vs Hstep ltac:(by destruct t)
        (Z.to_nat (zlen data - (q + 1 + 1))) (q + 1 + 1) (q + 1 + 1) z u c (q + 1)) as L.
      rewrite decide_False in L by done.
      eapply wp_mono; [apply L; try done; rewrite ?Hix'; [unfold zlen in *; lia|lia|lia|lia|by rewrite <- Hm]| |done].
      auto.
    - apply loop_plain; try done; unfold HTTP_MAX_HEADER_SIZE, zlen in *; lia. }
  assert (R6 := run_lf (set_nread (nread x3 + zlen vs + 1) (set_pstate s_header_almost_done
    (set_header_state (line_state k) (f (set_nread (nread x3 + 1) x3)))))
    (ob_data o header_value (v :: vs) u) (q + 1 + 1 + (zlen vs + 1)) CR Hq6 Hc6).
  replace (q + 1 + 1 + (zlen vs + 1)) with (q + 1 + 1 + zlen vs + 1) in R6 by lia.
  replace (q + 1 + 1 + zlen vs + 1 + 1) with (q + zlen (v :: vs) + 3) in R6 by lia.
  eexists. split; [eapply reaches_trans; [exact R2|]; eapply reaches_trans; [exact R3|];
    eapply reaches_trans; [exact R5|]; apply R6|].
  - unfold f, x3, y0, x2. by destruct k.
  - simpl. lia.
  - split; [|split].
    + unfold f, x3, y0, x2, same_core. destruct k; cbn; rewrite ?Z.lor_0_r; done.
    + change (nread x3 + zlen vs + 1 + 1 = nread x + zlen (v :: vs) + 3). lia.
    + unfold f, x3, y0, x2. by destruct k.
Qed.

Lemma run_header k name value s x u q c0 :
  line_start s -> line_ok k name value ->
  at_pos data q (header_line name value) -> perrno x = HPE_OK -> 0 <= nread x ->
  nread x + zlen (header_line name value) <= HTTP_MAX_HEADER_SIZE ->
  exists x', reaches o data (at_state x u s q c0)
    (at_state x' (header_events o name value u) s_header_value_lws
       (q + zlen (header_line name value)) LF) /\
    same_core (line_length k value (content_length x)) (Z.lor (line_flags s x) (value_sets k)) x x' /\
    nread x' = nread x + zlen (header_line name value) /\ header_state x' = line_state k.
Proof.
  intros Hs Hok Hp Hx Hn1 Hn2. rewrite zlen_header_line in *.
  destruct (line_ok_facts _ _ _ Hok) as (b & l & v & vs & -> & -> & Hname & _).
  pose proof (zlen_nonneg (b :: l)). pose proof (zlen_nonneg (v :: vs)).
  unfold header_line in Hp. change ([ #":"; #" "] ++ ?r) with ([ #":"] ++ [ #" "] ++ r) in Hp.
  rewrite app_assoc in Hp. apply at_pos_app in Hp as [Hp1 Hp].
  rewrite zlen_app in Hp. change (zlen [ #":"]) with 1 in Hp.
  destruct (run_name o data b l s x u q c0 Hs Hp1 Hname Hx Hn1) as [i R1]; [lia|].
  set (n := zlen (b :: l)) in *.
  match type of R1 with reaches _ _ _ (at_state ?y _ _ _ _) => set (x1 := y) in R1 end.
  replace (q + (n + 1)) with (q + n + 1) in * by lia.
  destruct (run_value k (b :: l) v vs x1 (ob_data o header_field (b :: l) u) _ #":"
    Hok eq_refl Hp Hx) as (x' & R2 & Hcore & Hnr & Hh); [simpl; lia|simpl; lia|].
  exists x'. split_and!.
  - replace (q + (n + zlen (v :: vs) + 4)) with (q + n + 1 + zlen (v :: vs) + 3) by lia.
    eapply reaches_trans; [exact R1|exact R2].
  - exact Hcore.
  - rewrite Hnr. simpl. lia.
  - exact Hh.
Qed.

(** A list of header lines. *)
Record header := mk_header { h_kind : line_kind; h_name : bytes; h_value : bytes }.

Definition header_ok (h : header) : Prop := line_ok (h_kind h) (h_name h) (h_value h).

Definition header_bytes (hs : list header) : bytes :=
  concat (map (fun h => header_line (h_name h) (h_value h)) hs).

Definition headers_events (hs : list header) (u : U) : U :=
  fold_left (fun u h => header_events o (h_name h) (h_value h) u) hs u.

Definition headers_length (hs : list header) (cl : Z) : Z :=
  fold_left (fun cl h => line_length (h_kind h) (h_value h) cl) hs cl.

Definition headers_flags (hs : list header) (fl : Z) : Z :=
  fold_left (fun fl h => Z.lor fl (line_sets (h_kind h))) hs fl.

(** The same when the flag of the last line is still to be set. *)
Definition same_core' (cl fl : Z) (x : http_parser) (s : state) (y : http_parser) : Prop :=
  line_flags s y = fl /\ same_core cl (flags y) x y.

Lemma same_core_trans a fl b x y s z :
  same_core a fl x y -> same_core' b (line_flags s z) y s z -> same_core' b (line_flags s z) x s z.
Proof. unfold same_core', same_core. intuition congruence. Qed.

Lemma run_headers hs : forall s x u q c0,
  line_start s -> Forall header_ok hs -> at_pos data q (header_bytes hs) ->
  perrno x = HPE_OK -> 0 <= nread x ->
  nread x + zlen (header_bytes hs) <= HTTP_MAX_HEADER_SIZE ->
  exists s' x' c, reaches o data (at_state x u s q c0)
    (at_state x' (headers_events hs u) s' (q + zlen (header_bytes hs)) c) /\
    line_start s' /\
    same_core' (headers_length hs (content_length x)) (headers_flags hs (line_flags s x)) x s' x' /\
    nread x' = nread x + zlen (header_bytes hs).
Proof.
  induction hs as [|h hs IH]; intros s x u q c0 Hs Hok Hp Hx Hn1 Hn2.
  - exists s, x, c0. change (zlen (header_bytes [])) with 0. rewrite !Z.add_0_r.
    split_and!; [apply reaches_refl|done|done|done].
  - apply Forall_cons in Hok as [Hh Hok]. change (header_bytes (h :: hs)) with
      (header_line (h_name h) (h_value h) ++ header_bytes hs) in *.
    rewrite zlen_app in *. apply at_pos_app in Hp as [Hp1 Hp2].
    pose proof (zlen_nonneg (header_bytes hs)).
    destruct (run_header (h_kind h) (h_name h) (h_value h) s x u q c0) as (x1 & R1 & Hc1 & Hr1 & Hs1);
      try done; [lia|].
    destruct (IH s_header_value_lws x1 (header_events o (h_name h) (h_value h) u)
      (q + zlen (header_line (h_name h) (h_value h))) LF) as (s' & x' & c & R2 & Hs' & Hc2 & Hr2);
      try done.
    + by right.
    + destruct Hc1 as (_ & _ & _ & _ & _ & _ & E & _). by rewrite E.
    + rewrite Hr1, zlen_header_line. pose proof (zlen_nonneg (h_name h)).
      pose proof (zlen_nonneg (h_value h)). lia.
    + lia.
    + exists s', x', c. split_and!; [|done| |lia].
      * rewrite Z.add_assoc. eapply reaches_trans; [exact R1|exact R2].
      * assert (Ef : headers_flags (h :: hs) (line_flags s x) =
          headers_flags hs (line_flags s_header_value_lws x1)).
        { destruct Hc1 as (_ & Ef & _). unfold line_flags at 2. rewrite Ef, Hs1. unfold headers_flags, line_sets.
          cbn [fold_left]. by rewrite Z.lor_assoc. }
        rewrite Ef. destruct Hc2 as [E2 Hc2]. rewrite <- E2. eapply same_core_trans; [exact Hc1|].
        destruct Hc1 as (_ & _ & E & _). rewrite E in Hc2. by split.
Qed.
End Values.
