(* ===== verification/HttpRequest.v ===== *)
(** * Complete requests

    The bytes of a request, and the theorem that [http_parser_execute] reads
    them back: one call per field, in order, with the fields' contents. *)

From S2P Require Import Prelude.
From S2P Require Import Words.
From S2P Require Import HttpChars.
From S2P Require Import HttpUrl.
From S2P Require Import HttpState.
From S2P Require Import HttpExec.
From S2P Require Import HttpWp.
From S2P Require Import HttpSafe.
From S2P Require Import HttpRun.
From S2P Require Import HttpMethod.
From S2P Require Import HttpHeaders.
From S2P Require Import HttpLines.

(** ** The request line *)

(** A target that the URL automaton accepts, followed by a space. *)
Definition url_final (s : state) : bool :=
  match s with
  | s_req_server | s_req_server_with_at | s_req_path | s_req_query_string_start
  | s_req_query_string | s_req_fragment_start | s_req_fragment => true
  | _ => false
  end.

Fixpoint url_accepts (s : state) (l : bytes) : bool :=
  match l with
  | [] => url_final s
  | c :: l' =>
      negb (bool_decide (parse_url_char s c = s_dead)) && url_accepts (parse_url_char s c) l'
  end.

Definition target_ok (t : bytes) : bool :=
  match t with
  | [] => false
  | _ => url_accepts s_req_spaces_before_url t
  end.

Lemma parse_url_char_blank s c :
  parse_url_char s c <> s_dead -> (c =? #" ") = false /\ (c =? CR) || (c =? LF) = false.
Proof.
  unfold parse_url_char. destruct ((c =? #" ") || (c =? CR) || (c =? LF)) eqn:E; [done|].
  apply orb_false_iff in E as [E ?]. apply orb_false_iff in E as [? ?]. intros _.
  by rewrite orb_false_iff.
Qed.

Section Lines.
Context {U : Type} (o : observer U) (data : bytes).

Lemma run_url_char c s x u q c0 m :
  0 <= q < zlen data -> znth data q 0 = c -> perrno x = HPE_OK ->
  0 <= nread x < HTTP_MAX_HEADER_SIZE ->
  mark_state url s = true -> parse_url_char s c <> s_dead ->
  reaches o data (mk_exec x u s q c0 None None (Some m) None None)
    (mk_exec (set_nread (nread x + 1) x) u (parse_url_char s c) (q + 1) c None None (Some m) None None).
Proof.
  intros Hq Hc Hx Hn Hs Hd. destruct (parse_url_char_blank s c Hd) as [E1 E2].
  destruct s; try discriminate; header_byte c;
    unfold case_s_req_schema, case_s_req_server, url_char; rewrite ?E1, ?E2; cbn [orb];
    rewrite ?E2; repeat wp_obs;
    rewrite decide_False by exact Hd; repeat wp_obs; obs_done.
Qed.

Lemma run_url_space s x u q c0 m :
  0 <= q < zlen data -> znth data q 0 = #" " -> perrno x = HPE_OK ->
  0 <= nread x < HTTP_MAX_HEADER_SIZE -> url_final s = true -> 0 <= m <= q ->
  reaches o data (mk_exec x u s q c0 None None (Some m) None None)
    (at_state (set_pstate s_req_http_start (set_nread (nread x + 1) x))
       (ob_data o url (slice data m (q - m)) u) s_req_http_start (q + 1) #" ").
Proof.
  intros Hq Hc Hx Hn Hs Hm. destruct s; try discriminate; header_byte #" ";
    unfold case_s_req_server; change (#" " =? #" ") with true; repeat wp_obs; obs_done.
Qed.

(** A target after its first character. *)
Lemma run_url_rest l : forall s x u q c0 m,
  at_pos data q (l ++ [ #" "]) -> url_accepts s l = true -> mark_state url s = true ->
  perrno x = HPE_OK -> 0 <= nread x -> nread x + zlen l + 1 <= HTTP_MAX_HEADER_SIZE -> 0 <= m <= q ->
  reaches o data (mk_exec x u s q c0 None None (Some m) None None)
    (at_state (set_pstate s_req_http_start (set_nread (nread x + zlen l + 1) x))
       (ob_data o url (slice data m (q + zlen l - m)) u) s_req_http_start (q + zlen l + 1) #" ").
Proof.
  induction l as [|c l IH]; intros s x u q c0 m Hp Hl Hs Hx Hn1 Hn2 Hm; cbn [app] in Hp;
    apply at_pos_cons in Hp as (Hq & Hc & Hp); simpl in Hl.
  - change (zlen []) with 0 in *. rewrite !Z.add_0_r in *. apply run_url_space; try done; lia.
  - apply andb_true_iff in Hl as [Hd Hl]. apply negb_true_iff, bool_decide_eq_false in Hd.
    rewrite zlen_cons in *. pose proof (zlen_nonneg l).
    eapply reaches_trans; [apply (run_url_char c s); try done; lia|].
    specialize (IH (parse_url_char s c) (set_nread (nread x + 1) x) u (q + 1) c m Hp Hl
      (parse_url_char_class s c Hd) Hx ltac:(simpl; lia) ltac:(simpl; lia) ltac:(lia)).
    replace (nread x + (1 + zlen l) + 1) with (nread x + 1 + zlen l + 1) by lia.
    replace (q + (1 + zlen l)) with (q + 1 + zlen l) by lia. exact IH.
Qed.

Lemma run_target t x u q c0 :
  at_pos data q (t ++ [ #" "]) -> target_ok t = true -> method x <> HTTP_CONNECT ->
  perrno x = HPE_OK -> 0 <= nread x -> nread x + zlen t + 1 <= HTTP_MAX_HEADER_SIZE ->
  reaches o data (at_state x u s_req_spaces_before_url q c0)
    (at_state (set_pstate s_req_http_start (set_nread (nread x + zlen t + 1) x))
       (ob_data o url t u) s_req_http_start (q + zlen t + 1) #" ").
Proof.
  intros Hp Ht Hm Hx Hn1 Hn2. destruct t as [|b l]; [done|].
  destruct (at_pos_app _ _ _ _ Hp) as [Hs _]. apply at_pos_slice in Hs.
  cbn [app] in Hp. apply at_pos_cons in Hp as (Hq & Hc & Hp).
  unfold target_ok in Ht. cbn [url_accepts] in Ht. apply andb_true_iff in Ht as [Hd Hl].
  apply negb_true_iff, bool_decide_eq_false in Hd.
  rewrite zlen_cons in *. pose proof (zlen_nonneg l).
  destruct (parse_url_char_blank _ _ Hd) as [Esp _].
  set (s1 := parse_url_char s_req_spaces_before_url b) in *.
  assert (R1 : reaches o data (at_state x u s_req_spaces_before_url q c0)
    (mk_exec (set_nread (nread x + 1) x) u s1 (q + 1) b None None (Some q) None None)).
  { header_byte b. unfold case_s_req_spaces_before_url, url_char. rewrite Esp.
    repeat wp_obs. rewrite decide_False by done. repeat wp_obs.
    rewrite decide_False by exact Hd. repeat wp_obs. obs_done. }
  eapply reaches_trans; [exact R1|].
  assert (R2 := run_url_rest l s1 (set_nread (nread x + 1) x) u (q + 1) b q Hp Hl
    (parse_url_char_class _ _ Hd) Hx ltac:(simpl; lia) ltac:(simpl; lia) ltac:(lia)).
  replace (q + 1 + zlen l - q) with (1 + zlen l) in R2 by lia. rewrite Hs in R2.
  replace (nread x + (1 + zlen l) + 1) with (nread x + 1 + zlen l + 1) by lia.
  replace (q + (1 + zlen l)) with (q + 1 + zlen l) by lia. exact R2.
Qed.

(** [HTTP/1.1] and the end of the line, one byte after the other. *)
Definition version_line : bytes := str "HTTP/1.1" ++ [CR; LF].

Definition version_step (s : state) : option (Z * state * (http_parser -> http_parser)) :=
  match s with
  | s_req_http_start => Some (#"H", s_req_http_H, id)
  | s_req_http_H => Some (#"T", s_req_http_HT, id)
  | s_req_http_HT => Some (#"T", s_req_http_HTT, id)
  | s_req_http_HTT => Some (#"P", s_req_http_HTTP, id)
  | s_req_http_HTTP => Some (#"/", s_req_first_http_major, id)
  | s_req_first_http_major => Some (#"1", s_req_http_major, set_http_major 1)
  | s_req_http_major => Some (#".", s_req_first_http_minor, id)
  | s_req_first_http_minor => Some (#"1", s_req_http_minor, set_http_minor 1)
  | s_req_http_minor => Some (CR, s_req_line_almost_done, id)
  | s_req_line_almost_done => Some (LF, s_header_field_start, id)
  | _ => None
  end.

Lemma run_version_step s b s' f x u q c0 l :
  version_step s = Some (b, s', f) -> at_pos data q (b :: l) ->
  perrno x = HPE_OK -> 0 <= nread x < HTTP_MAX_HEADER_SIZE ->
  reaches o data (at_state x u s q c0)
    (at_state (f (set_nread (nread x + 1) x)) u s' (q + 1) b) /\ at_pos data (q + 1) l.
Proof.
  intros Hs Hp Hx Hn. apply at_pos_cons in Hp as (Hq & Hc & Hp). split; [|exact Hp].
  destruct s; try discriminate; injection Hs as <- <- <-;
    match goal with |- context [at_state _ _ _ (q + 1) ?b] => header_byte b end;
    unfold case_s_req_http_start, case_expect, case_s_req_first_http_major,
      case_s_req_http_major, case_s_req_first_http_minor, case_s_req_http_minor,
      case_s_req_line_almost_done;
    repeat (first [progress wp_obs
      |match goal with |- wp (if ?c then _ else _) _ _ _ =>
         let v := eval vm_compute in c in change c with v end]); obs_done.
Qed.

Ltac version_byte Hp :=
  match goal with |- reaches _ _ (at_state ?y ?v ?s ?r ?c) _ =>
    match eval cbv in (version_step s) with
    | Some (?b, ?s', ?f) =>
      match type of Hp with at_pos _ _ (_ :: ?l) =>
        let R := fresh "R" in
        assert (R := run_version_step s b s' f y v r c l eq_refl Hp eq_refl ltac:(norm; lia));
        clear Hp; destruct R as [R Hp]; eapply reaches_trans; [exact R|clear R; norm]
      end
    end
  end.

Definition after_version (x : http_parser) : http_parser :=
  set_http_minor 1 (set_http_major 1 (set_nread (nread x + 10) x)).

Lemma run_version x u q c0 :
  at_pos data q version_line -> perrno x = HPE_OK -> 0 <= nread x ->
  nread x + 10 <= HTTP_MAX_HEADER_SIZE ->
  reaches o data (at_state x u s_req_http_start q c0)
    (at_state (after_version x) u s_header_field_start (q + 10) LF).
Proof.
  intros Hp Hx Hn1 Hn2. unfold version_line in Hp. simpl in Hp.
  unfold after_version. destruct x as [ty fl ps hs ix nr cl ma mi sc me pe up]. norm. subst pe.
  do 10 version_byte Hp.
  replace (nr + 10) with (nr + 1 + 1 + 1 + 1 + 1 + 1 + 1 + 1 + 1 + 1) by lia.
  replace (q + 10) with (q + 1 + 1 + 1 + 1 + 1 + 1 + 1 + 1 + 1 + 1) by lia.
  apply reaches_refl.
Qed.
(** The parser after the method's name and the space behind it. *)
Definition begun (m : http_method) (n : Z) (y : http_parser) : Prop :=
  type y = HTTP_REQUEST /\ flags y = 0 /\ content_length y = ULLONG_MAX /\ method y = m /\
  perrno y = HPE_OK /\ nread y = n.

(** The states in which a request can start: the parser is for requests, or it
    is for requests and responses and has to find out. *)
Definition start_of (s : state) (x : http_parser) : Prop :=
  s = s_start_req /\ type x = HTTP_REQUEST \/ s = s_start_req_or_res.

Lemma method_scanned m : exists c l m0, method_string m = c :: l /\
  method_of_letter c = Some m0 /\ scan m0 1 l = Some m /\ 1 <= zlen (method_string m0) /\
  forallb (fun b => negb (b =? #" ")) l = true.
Proof.
  destruct m; (do 3 eexists; split; [reflexivity|]; split; [reflexivity|];
    split; [vm_compute; reflexivity|]; split; [vm_compute; congruence|reflexivity]).
Qed.

Lemma run_first_both x u q c0 c m :
  0 <= q < zlen data -> znth data q 0 = c -> perrno x = HPE_OK ->
  0 <= nread x < HTTP_MAX_HEADER_SIZE -> method_of_letter c = Some m -> c <> #"H" ->
  reaches o data (at_state x u s_start_req_or_res q c0)
    (at_state (set_pstate s_req_method (set_method m (set_index 1 (set_type HTTP_REQUEST
       (set_content_length ULLONG_MAX (set_flags 0 (set_nread (nread x + 1) x)))))))
       (ob_notify o message_begin u) s_req_method (q + 1) c).
Proof.
  intros Hq Hc Hx Hn Hm HH. destruct (letter_facts c m Hm) as [E1 E2].
  header_byte c. unfold case_s_start_req_or_res. rewrite E1, (proj2 (Z.eqb_neq c _) HH).
  repeat wp_obs. apply wp_switch. unfold switch_state. do 4 wp_base.
  unfold case_s_start_req. rewrite E1, E2, Hm. repeat wp_obs. obs_done.
Qed.

(** [HE]: the second byte tells a request from a response. *)
Lemma run_he x u q c0 l :
  at_pos data q (#"H" :: #"E" :: l) -> perrno x = HPE_OK -> 0 <= nread x ->
  nread x + 2 <= HTTP_MAX_HEADER_SIZE ->
  exists y, reaches o data (at_state x u s_start_req_or_res q c0)
    (at_state y (ob_notify o message_begin u) s_req_method (q + 2) #"E") /\
    begun HTTP_HEAD (nread x + 2) y /\ index y = 2.
Proof.
  intros Hp Hx Hn1 Hn2. apply at_pos_cons in Hp as (Hq & Hc & Hp).
  apply at_pos_cons in Hp as (Hq2 & Hc2 & _).
  set (x1 := set_pstate s_res_or_resp_H (set_content_length ULLONG_MAX
    (set_flags 0 (set_nread (nread x + 1) x)))).
  exists (set_index 2 (set_method HTTP_HEAD (set_type HTTP_REQUEST (set_nread (nread x1 + 1) x1)))).
  split; [|split; [|done]].
  - apply (reaches_trans o data _ (at_state x1 (ob_notify o message_begin u) s_res_or_resp_H (q + 1) #"H")).
    + subst x1. header_byte #"H". unfold case_s_start_req_or_res.
      change ((#"H" =? CR) || (#"H" =? LF)) with false. change (#"H" =? #"H") with true.
      repeat wp_obs. obs_done.
    + replace (q + 2) with (q + 1 + 1) by lia.
      assert (Hn : 0 <= nread x1 < HTTP_MAX_HEADER_SIZE) by (simpl; lia).
      assert (He : perrno x1 = HPE_OK) by exact Hx. clearbody x1.
      header_byte #"E". unfold case_s_res_or_resp_H. change (#"E" =? #"T") with false.
      change (#"E" =? #"E") with true. repeat wp_obs. obs_done.
  - unfold begun. simpl. split_and!; try done. lia.
Qed.

(** The rest of the name. *)
Lemma run_method_rest l m y u q c0 :
  at_pos data q (l ++ [ #" "]) -> perrno y = HPE_OK -> 0 <= nread y ->
  nread y + zlen l + 1 <= HTTP_MAX_HEADER_SIZE -> 0 <= index y ->
  index y <= zlen (method_string (method y)) -> Forall (fun b => b <> #" ") l ->
  scan (method y) (index y) l = Some m -> index y + zlen l = zlen (method_string m) ->
  type y = HTTP_REQUEST -> flags y = 0 -> content_length y = ULLONG_MAX ->
  exists z, reaches o data (at_state y u s_req_method q c0)
    (at_state z u s_req_spaces_before_url (q + zlen l + 1) #" ") /\ begun m (nread y + zlen l + 1) z.
Proof.
  intros Hp Hy Hn1 Hn2 Hi Hi' Hl Hs Hlen Ht Hf Hcl. pose proof (method_len m). pose proof (zlen_nonneg l).
  apply at_pos_app in Hp as [Hp1 Hp2]. apply at_pos_cons in Hp2 as (Hq2 & Hb2 & _).
  destruct (run_scan o data l y u q c0 m Hp1 Hy Hl) as [c1 R]; try done; [lia|].
  set (y1 := set_index (index y + zlen l) (set_method m (set_nread (nread y + zlen l) y))) in *.
  eexists. split; [eapply reaches_trans; [exact R|];
    apply (run_method_space o data y1 u (q + zlen l) c1 Hq2 Hb2 Hy)|].
  - simpl. lia.
  - simpl. lia.
  - exact Hlen.
  - unfold begun. simpl. split_and!; done.
Qed.

Lemma run_method_word m s x u q c0 :
  start_of s x -> at_pos data q (method_string m ++ [ #" "]) -> perrno x = HPE_OK -> 0 <= nread x ->
  nread x + zlen (method_string m) + 1 <= HTTP_MAX_HEADER_SIZE ->
  exists y, reaches o data (at_state x u s q c0)
    (at_state y (ob_notify o message_begin u) s_req_spaces_before_url
       (q + zlen (method_string m) + 1) #" ") /\
    begun m (nread x + zlen (method_string m) + 1) y.
Proof.
  intros Hs Hp Hx Hn1 Hn2. pose proof (method_len m) as Hlen.
  destruct (decide (s = s_start_req_or_res /\ m = HTTP_HEAD)) as [[-> ->]|Hnh].
  { change (method_string HTTP_HEAD ++ [ #" "]) with ([ #"H"; #"E"] ++ [ #"A"; #"D"] ++ [ #" "]) in Hp.
    destruct (at_pos_app _ _ _ _ Hp) as [Hp1 Hp2]. change (zlen [ #"H"; #"E"]) with 2 in Hp2.
    destruct (run_he x u q c0 [] Hp1 Hx Hn1) as (y & R & (B1 & B2 & B3 & B4 & B5 & B6) & Hi);
      [change (zlen (method_string HTTP_HEAD)) with 4 in Hn2; lia|].
    change (zlen (method_string HTTP_HEAD)) with 4 in *.
    destruct (run_method_rest [ #"A"; #"D"] HTTP_HEAD y (ob_notify o message_begin u) (q + 2) #"E")
      as (z & R2 & Hz); try done; rewrite ?B4, ?B6, ?Hi; try done;
      [lia|change (zlen [ #"A"; #"D"]) with 2; lia|by repeat constructor|].
    change (zlen [ #"A"; #"D"]) with 2 in *. exists z.
    replace (q + 4 + 1) with (q + 2 + 2 + 1) by lia. rewrite B6 in Hz.
    replace (nread x + 4 + 1) with (nread x + 2 + 2 + 1) by lia.
    split; [eapply reaches_trans; [exact R|exact R2]|exact Hz]. }
  destruct (method_scanned m) as (c & l & m0 & E & Hc & Hsc & Hm0 & Hl).
  assert (Hl' : Forall (fun b => b <> #" ") l).
  { clear -Hl. induction l as [|b l IH]; [constructor|]. simpl in Hl.
    apply andb_true_iff in Hl as [Hb Hl]. constructor; [|by apply IH].
    by apply Z.eqb_neq, negb_true_iff. }
  remember (zlen (method_string m)) as n eqn:En.
  rewrite E in Hp, En. rewrite zlen_cons in En. pose proof (zlen_nonneg l).
  cbn [app] in Hp. apply at_pos_cons in Hp as (Hq & Hb & Hp).
  assert (R1 : exists y, reaches o data (at_state x u s q c0)
    (at_state y (ob_notify o message_begin u) s_req_method (q + 1) c) /\
    begun m0 (nread x + 1) y /\ index y = 1).
  { destruct Hs as [[-> Ht] | ->].
    - eexists. split; [apply (run_first o data x u q c0 c m0 Hq Hb Hx ltac:(lia) Hc)|done].
    - eexists. split; [apply (run_first_both x u q c0 c m0 Hq Hb Hx ltac:(lia) Hc)|done].
      intros ->. apply Hnh. split; [done|]. clear -E. by destruct m. }
  destruct R1 as (y & R1 & (B1 & B2 & B3 & B4 & B5 & B6) & Hi).
  destruct (run_method_rest l m y (ob_notify o message_begin u) (q + 1) c) as (z & R2 & Hz);
    try done; rewrite ?B4, ?B6, ?Hi; try done; try lia.
  { rewrite E, zlen_cons. lia. }
  exists z. rewrite B6 in Hz. replace (nread x + n + 1) with (nread x + 1 + zlen l + 1) by lia.
  replace (q + n + 1) with (q + 1 + zlen l + 1) by lia.
  split; [eapply reaches_trans; [exact R1|exact R2]|exact Hz].
Qed.
End Lines.

(** ** The end of the headers and the body *)

(** What the first line and the headers leave to decide: a request with version 1.1,
    of the flags only those of [Connection] and [Upgrade]. *)
Definition body_flags : Z := Z.lor F_CHUNKED (Z.lor F_TRAILING F_SKIPBODY).

Definition plain_request (x : http_parser) : Prop :=
  type x = HTTP_REQUEST /\ Z.land (flags x) body_flags = 0 /\ http_major x = 1 /\ http_minor x = 1 /\
  method x <> HTTP_CONNECT /\ perrno x = HPE_OK.

Lemma no_body_flag fl f : Z.land fl body_flags = 0 -> Z.land body_flags f = f -> has_flag fl f = false.
Proof.
  intros H E. unfold has_flag. by rewrite <- E, Z.land_assoc, H.
Qed.

(** The connection is to be closed, or is to become another protocol's. *)
Definition closes (fl : Z) : bool := has_flag fl F_CONNECTION_CLOSE.
Definition upgrades (fl : Z) : bool :=
  Z.land fl (Z.lor F_UPGRADE F_CONNECTION_UPGRADE) =? Z.lor F_UPGRADE F_CONNECTION_UPGRADE.

Definition next_state (fl : Z) : state := if closes fl then s_dead else s_start_req.

(** The parser between two requests, in state [s]. *)
Definition ready (s : state) (x : http_parser) : Prop :=
  start_of s x /\ perrno x = HPE_OK /\ nread x = 0.

(** The parser after a request. *)
Definition ended (x : http_parser) : Prop :=
  type x = HTTP_REQUEST /\ perrno x = HPE_OK /\ nread x = 0.

Lemma ended_ready x : ended x -> ready s_start_req x.
Proof. intros (? & ? & ?). split; [by left|done]. Qed.

Lemma request_next x : type x = HTTP_REQUEST -> http_major x = 1 -> http_minor x = 1 ->
  NEW_MESSAGE x = next_state (flags x).
Proof.
  intros Ht Hma Hmi. unfold NEW_MESSAGE, http_should_keep_alive,
    http_message_needs_eof, start_state, next_state, closes. rewrite Hma, Hmi, Ht. cbn.
  by destruct (has_flag (flags x) F_CONNECTION_CLOSE).
Qed.

Lemma plain_request_next x : plain_request x -> NEW_MESSAGE x = next_state (flags x).
Proof. intros (Ht & Hf & Hma & Hmi & Hm & He). by apply request_next. Qed.

Lemma plain_request_upgrade x : plain_request x -> upgrade_of x = upgrades (flags x).
Proof.
  intros (Ht & Hf & Hma & Hmi & Hm & He). unfold upgrade_of.
  by rewrite bool_decide_eq_false_2, orb_false_r.
Qed.

Section Body.
Context {U : Type} (o : observer U) (data : bytes).

Lemma run_blank_cr s x u q c0 :
  line_start s -> 0 <= q < zlen data -> znth data q 0 = CR -> perrno x = HPE_OK ->
  0 <= nread x < HTTP_MAX_HEADER_SIZE ->
  reaches o data (at_state x u s q c0)
    (at_state (set_flags (line_flags s x) (set_nread (nread x + 1) x)) u s_headers_almost_done (q + 1) CR).
Proof.
  intros Hs Hq Hc Hx Hn. destruct Hs as [->| ->]; header_byte CR.
  - unfold case_s_header_field_start. change (CR =? CR) with true. repeat wp_obs. destruct x; obs_done.
  - unfold case_s_header_value_lws, set_value_flag.
    change ((CR =? #" ") || (CR =? 9)) with false. repeat wp_obs.
    apply wp_switch. unfold switch_state. do 4 wp_base.
    unfold case_s_header_field_start. change (CR =? CR) with true. repeat wp_obs.
    destruct x; obs_done.
Qed.

Lemma wp_headers_cb Q X (e : exec U) :
  Q (ob_headers o (usr e)).1 (set_usr (ob_headers o (usr e)).2 e) ->
  wp (call (fun x u => let '(r, u') := ob_headers o u in (r, x, u'))) Q X e.
Proof. unfold wp, call. destruct e as [x u]; simpl. by destruct (ob_headers o u). Qed.

(** The LF of the empty line, up to the decision on the body. *)
Definition after_headers (x : http_parser) : http_parser :=
  set_nread 0 (set_upgrade false x).

Lemma run_blank_lf x u q c0 :
  plain_request x -> upgrades (flags x) = false ->
  (ob_headers o u).1 = 0 -> 0 <= q < zlen data -> znth data q 0 = LF ->
  0 <= nread x < HTTP_MAX_HEADER_SIZE ->
  let v := (ob_headers o u).2 in
  reaches o data (at_state x u s_headers_almost_done q c0)
    (if (content_length x =? 0) || (content_length x =? ULLONG_MAX)
     then at_state (set_pstate (next_state (flags x)) (after_headers x)) (ob_notify o message_complete v)
            (next_state (flags x)) (q + 1) LF
     else at_state (after_headers x) v s_body_identity (q + 1) LF).
Proof.
  intros Hx Hnu Ho Hq Hc Hn v. pose proof (plain_request_next x Hx) as Hnext.
  pose proof (plain_request_upgrade x Hx) as Hup. rewrite Hnu in Hup.
  destruct Hx as (Ht & Hf & Hma & Hmi & Hm & He).
  match goal with |- reaches _ _ _ ?t => remember t as target eqn:Etarget end.
  header_byte LF. unfold case_s_headers_almost_done. change (negb (LF =? LF)) with false.
  repeat wp_obs. rewrite (no_body_flag _ F_TRAILING Hf eq_refl). repeat wp_obs.
  change (on_headers_complete (observe o)) with
    (Some (fun x u => let '(r, u') := ob_headers o u in (r, x, u')) : option (http_cb U)).
  cbv iota. apply wp_bind, wp_headers_cb. norm. rewrite Ho. change (0 =? 0) with true.
  repeat wp_obs. rewrite decide_True by exact He. repeat wp_obs.
  apply wp_switch. unfold switch_state. do 4 wp_base. unfold case_s_headers_done.
  change (negb (LF =? LF)) with false. repeat wp_obs.
  change (upgrade_of (set_nread (nread x + 1) x)) with (upgrade_of x). rewrite Hup.
  cbn [andb]. rewrite (no_body_flag _ F_SKIPBODY Hf eq_refl), (no_body_flag _ F_CHUNKED Hf eq_refl).
  repeat wp_obs. subst target.
  change (http_message_needs_eof _) with (http_message_needs_eof x).
  assert (Heof : http_message_needs_eof x = false) by (unfold http_message_needs_eof; by rewrite Ht).
  rewrite Heof. unfold at_state, after_headers, v.
  destruct (content_length x =? 0), (content_length x =? ULLONG_MAX); cbn [orb negb];
    repeat wp_obs; try (change (NEW_MESSAGE _) with (NEW_MESSAGE x); rewrite Hnext);
    repeat wp_obs; obs_done.
Qed.

(** A body of a given length, in front of the next state. *)
Lemma run_body_to nx b x u q c0 :
  perrno x = HPE_OK -> upgrade x = false -> b <> [] ->
  at_pos data q b -> content_length x = zlen b -> zlen b < ULLONG_MAX ->
  NEW_MESSAGE (set_pstate s_message_done (set_content_length 0 x)) = nx ->
  exists c, reaches o data (at_state x u s_body_identity q c0)
    (at_state (set_pstate nx (set_content_length 0 x)) (ob_notify o message_complete (ob_data o body b u)) nx (q + zlen b) c).
Proof.
  intros He Hu Hb Hp Hl Hmax Hnext.
  pose proof (at_pos_slice _ _ _ Hp) as Hs. pose proof (at_pos_len _ _ _ Hp) as [Hq Hlen].
  assert (0 < zlen b) by (destruct b; [done|rewrite zlen_cons; pose proof (zlen_nonneg b); lia]).
  exists (znth data q 0).
  match goal with |- reaches _ _ _ ?t => remember t as target eqn:Etarget end.
  unfold at_state. apply reaches_wp; [norm; lia|].
  apply (wp_byte_body _ _ (znth data q 0)); [reflexivity|reflexivity|].
  apply wp_switch. unfold switch_state. do 4 wp_base. norm.
  unfold case_s_body_identity, consume_body, assert_content_length.
  repeat wp_obs. rewrite Hl, (proj2 (Z.eqb_neq (zlen b) 0)), (proj2 (Z.eqb_neq (zlen b) _)) by lia.
  cbn [negb andb]. repeat wp_obs. rewrite !Z.min_l, !Hl, !Z.sub_diag by lia.
  change (0 =? 0) with true. repeat wp_obs.
  replace (q + (zlen b - 1) - q + 1) with (zlen b) by lia. rewrite Hs.
  apply wp_switch. unfold switch_state. do 4 wp_base. unfold case_s_message_done.
  repeat wp_obs. rewrite Hnext. repeat wp_obs.
  rewrite Hu. repeat wp_obs. subst target. replace (q + (zlen b - 1) + 1) with (q + zlen b) by lia.
  obs_done.
Qed.

(** The body of a request. *)
Lemma run_body b x u q c0 :
  plain_request x -> upgrade x = false -> nread x = 0 -> b <> [] ->
  at_pos data q b -> content_length x = zlen b -> zlen b < ULLONG_MAX ->
  exists x' c, reaches o data (at_state x u s_body_identity q c0)
    (at_state x' (ob_notify o message_complete (ob_data o body b u)) (next_state (flags x)) (q + zlen b) c) /\
    ended x' /\ upgrade x' = false.
Proof.
  intros Hx Hu Hn Hb Hp Hl Hmax. pose proof (plain_request_next (set_pstate s_message_done (set_content_length 0 x)) Hx) as Hnext.
  destruct Hx as (Ht & _ & _ & _ & _ & He).
  destruct (run_body_to _ b x u q c0 He Hu Hb Hp Hl Hmax Hnext) as [c R].
  eexists _, c. split; [exact R|]. by split.
Qed.
End Body.

(** ** Requests *)

Record request := mk_request {
  r_method : http_method; r_target : bytes; r_headers : list header; r_body : bytes }.

Definition request_line (r : request) : bytes :=
  method_string (r_method r) ++ [ #" "] ++ r_target r ++ [ #" "] ++ version_line.

Definition head_bytes (r : request) : bytes :=
  request_line r ++ header_bytes (r_headers r) ++ [CR; LF].

Definition request_bytes (r : request) : bytes := head_bytes r ++ r_body r.

(** The body's length is the one the last length header gives, if any. *)
Definition body_ok (r : request) : Prop :=
  let cl := headers_length (r_headers r) ULLONG_MAX in
  if bool_decide (cl = ULLONG_MAX) then r_body r = [] else zlen (r_body r) = cl.

(** The flags that the headers set. *)
Definition request_flags (r : request) : Z := headers_flags (r_headers r) 0.

Lemma headers_flags_body hs : forall fl, Z.land (headers_flags hs fl) body_flags = Z.land fl body_flags.
Proof.
  induction hs as [|h hs IH]; intros fl; [done|]. unfold headers_flags in *. cbn [fold_left]. rewrite IH.
  rewrite Z.land_lor_distr_l. destruct (h_kind h) as [| |[]|]; apply Z.lor_0_r.
Qed.

Definition well_formed (r : request) : Prop :=
  r_method r <> HTTP_CONNECT /\ target_ok (r_target r) = true /\
  Forall header_ok (r_headers r) /\ body_ok r /\ zlen (r_body r) < ULLONG_MAX /\
  zlen (head_bytes r) <= HTTP_MAX_HEADER_SIZE.

(** A request that does not ask for another protocol. *)
Definition request_ok (r : request) : Prop := well_formed r /\ upgrades (request_flags r) = false.

(** The application's state when the headers are complete. *)
Definition head_events {U} (o : observer U) (r : request) (u : U) : U :=
  headers_events o (r_headers r) (ob_data o url (r_target r) (ob_notify o message_begin u)).

(** The application lets the request continue. *)
Definition accepts {U} (o : observer U) (r : request) (u : U) : Prop :=
  (ob_headers o (head_events o r u)).1 = 0.

Definition request_events {U} (o : observer U) (r : request) (u : U) : U :=
  let u := (ob_headers o (head_events o r u)).2 in
  let u := match r_body r with [] => u | b => ob_data o body b u end in
  ob_notify o message_complete u.

Section Requests.
Context {U : Type} (o : observer U) (data : bytes).

(** From the end of the headers on. *)
Lemma run_tail r s x u q c0 :
  request_ok r -> (ob_headers o u).1 = 0 -> line_start s ->
  plain_request (set_flags (line_flags s x) x) -> line_flags s x = request_flags r ->
  content_length x = headers_length (r_headers r) ULLONG_MAX ->
  at_pos data q ([CR; LF] ++ r_body r) -> 0 <= nread x -> nread x + 2 <= HTTP_MAX_HEADER_SIZE ->
  let v := (ob_headers o u).2 in
  exists x' c, reaches o data (at_state x u s q c0)
    (at_state x' (ob_notify o message_complete
        match r_body r with [] => v | b => ob_data o body b v end)
       (next_state (request_flags r)) (q + 2 + zlen (r_body r)) c) /\
    ended x' /\ upgrade x' = false.
Proof.
  intros [(_ & _ & _ & Hbody & Hmax & _) Hnu] Ho Hs Hx Hfl Hcl Hp Hn1 Hn2 v.
  assert (He : perrno x = HPE_OK) by apply Hx.
  change ([CR; LF] ++ r_body r) with (CR :: LF :: r_body r) in Hp.
  apply at_pos_cons in Hp as (Hq1 & Hc1 & Hp). apply at_pos_cons in Hp as (Hq2 & Hc2 & Hp).
  assert (R1 := run_blank_cr o data s x u q c0 Hs Hq1 Hc1 He ltac:(lia)).
  set (x1 := set_flags (line_flags s x) (set_nread (nread x + 1) x)) in *.
  assert (Hf1 : flags x1 = request_flags r) by exact Hfl.
  assert (Hx1 : plain_request x1) by exact Hx.
  assert (R2 := run_blank_lf o data x1 u (q + 1) CR Hx1 ltac:(by rewrite Hf1) Ho Hq2 Hc2 ltac:(simpl; lia)).
  replace (q + 1 + 1) with (q + 2) in * by lia. fold v in R2. cbv zeta in R2.
  rewrite Hf1 in R2. change (content_length x1) with (content_length x) in R2. unfold body_ok in Hbody.
  rewrite Hcl in R2. set (cl := headers_length _ _) in *.
  assert (Hdec : r_body r = [] /\ (cl =? 0) || (cl =? ULLONG_MAX) = true \/
    r_body r <> [] /\ (cl =? 0) || (cl =? ULLONG_MAX) = false /\ zlen (r_body r) = cl).
  { destruct (decide (cl = ULLONG_MAX)) as [E|E].
    - rewrite bool_decide_eq_true_2 in Hbody by done. left. split; [done|].
      rewrite E. by vm_compute.
    - rewrite bool_decide_eq_false_2 in Hbody by done.
      rewrite (proj2 (Z.eqb_neq cl ULLONG_MAX) E), orb_false_r.
      destruct (r_body r) as [|b l] eqn:Eb; [left; by rewrite <- Hbody|].
      right. split; [done|]. split; [|done]. apply Z.eqb_neq. rewrite <- Hbody, zlen_cons.
      pose proof (zlen_nonneg l). lia. }
  destruct Hdec as [[-> E]|(Hne & E & Hlen)]; rewrite E in R2.
  - exists (set_pstate (next_state (request_flags r)) (after_headers x1)), LF. change (zlen []) with 0.
    rewrite Z.add_0_r. split; [eapply reaches_trans; [exact R1|exact R2]|].
    destruct Hx as (? & _ & _ & _ & _ & ?). done.
  - destruct (run_body o data (r_body r) (after_headers x1) v (q + 2) LF)
      as (x' & c & R3 & Hr); try done.
    + simpl. by rewrite Hcl.
    + change (flags (after_headers x1)) with (flags x1) in R3. rewrite Hf1 in R3.
      exists x', c. split; [|exact Hr].
      eapply reaches_trans; [exact R1|]. eapply reaches_trans; [exact R2|].
      destruct (r_body r); [done|exact R3].
Qed.

(** The first line. *)
Definition line_read (m : http_method) (n : Z) (x : http_parser) : Prop :=
  begun m n x /\ http_major x = 1 /\ http_minor x = 1.

Lemma run_request_line m t s x u q c0 :
  let line := method_string m ++ [ #" "] ++ t ++ [ #" "] ++ version_line in
  ready s x -> m <> HTTP_CONNECT -> target_ok t = true -> at_pos data q line -> zlen line <= HTTP_MAX_HEADER_SIZE ->
  exists x', reaches o data (at_state x u s q c0)
    (at_state x' (ob_data o url t (ob_notify o message_begin u)) s_header_field_start (q + zlen line) LF) /\
    line_read m (zlen line) x'.
Proof.
  intros line (Ht & He & Hn) Hm Htg Hp Hlen. unfold line in *.
  rewrite app_assoc in Hp. apply at_pos_app in Hp as [Hp1 Hp].
  rewrite app_assoc in Hp. apply at_pos_app in Hp as [Hp2 Hp3].
  rewrite !zlen_app in *. change (zlen [ #" "]) with 1 in *. change (zlen version_line) with 10 in *.
  pose proof (zlen_nonneg (method_string m)). pose proof (zlen_nonneg t).
  set (n1 := zlen (method_string m)) in *. set (n2 := zlen t) in *.
  destruct (run_method_word o data m s x u q c0 Ht Hp1 He ltac:(lia) ltac:(subst n1; lia))
    as (x1 & R1 & B1 & B2 & B3 & B4 & B5 & B6).
  fold n1 in R1, B6. set (u1 := ob_notify o message_begin u) in *.
  assert (Hx1 : nread x1 = n1 + 1) by lia.
  assert (R2 := run_target o data t x1 u1 (q + (n1 + 1)) #" " Hp2 Htg ltac:(by rewrite B4) B5
    ltac:(lia) ltac:(subst n2; lia)).
  fold n2 in R2. set (x2 := set_pstate _ _) in R2. set (u2 := ob_data o url _ u1) in *.
  assert (Hx2 : nread x2 = n1 + n2 + 2) by (simpl nread; lia).
  assert (R3 := run_version o data x2 u2 (q + (n1 + 1) + (n2 + 1)) #" " Hp3 B5
    ltac:(lia) ltac:(lia)).
  exists (after_version x2). split.
  - eapply reaches_trans; [exact R1|]. eapply reaches_trans.
    { replace (q + n1 + 1) with (q + (n1 + 1)) by lia. exact R2. }
    replace (q + (n1 + (1 + (n2 + (1 + 10))))) with (q + (n1 + 1) + (n2 + 1) + 10) by lia.
    replace (q + (n1 + 1) + n2 + 1) with (q + (n1 + 1) + (n2 + 1)) by lia. exact R3.
  - unfold line_read, begun, after_version, x2. simpl. split_and!; try done. simpl in Hx2. lia.
Qed.

(** Up to the empty line. *)
Lemma run_head r s x u q c0 :
  well_formed r -> ready s x -> at_pos data q (request_line r ++ header_bytes (r_headers r)) ->
  exists s' x' c, reaches o data (at_state x u s q c0)
    (at_state x' (head_events o r u) s' (q + zlen (head_bytes r) - 2) c) /\
    line_start s' /\ plain_request (set_flags (line_flags s' x') x') /\ line_flags s' x' = request_flags r /\
    content_length x' = headers_length (r_headers r) ULLONG_MAX /\ nread x' = zlen (head_bytes r) - 2.
Proof.
  intros (Hm & Htg & Hh & _ & _ & Hlen) Hx Hp.
  apply at_pos_app in Hp as [Hp1 Hp2]. unfold head_bytes in *. rewrite !zlen_app in *.
  change (zlen [CR; LF]) with 2 in *. pose proof (zlen_nonneg (header_bytes (r_headers r))).
  set (n3 := zlen (header_bytes (r_headers r))) in *.
  destruct (run_request_line (r_method r) (r_target r) s x u q c0 Hx Hm Htg Hp1 ltac:(unfold request_line in *; lia))
    as (x3 & R3 & (B1 & B2 & B3 & B4 & B5 & B6) & B7 & B8).
  fold (request_line r) in R3, B6. pose proof (zlen_nonneg (request_line r)).
  destruct (run_headers o data (r_headers r) s_header_field_start x3
    (ob_data o url (r_target r) (ob_notify o message_begin u)) (q + zlen (request_line r)) LF (or_introl eq_refl) Hh Hp2 B5 ltac:(lia)
    ltac:(lia)) as (s4 & x4 & c4 & R4 & Hs4 & Hcore & Hx4).
  fold n3 in R4, Hx4. destruct Hcore as (Hfl & C1 & C2 & C3 & C4 & C5 & C6 & C7 & C8).
  unfold line_flags at 2 in Hfl. rewrite B2 in Hfl.
  exists s4, x4, c4. split; [|split; [exact Hs4|split; [|split; [exact Hfl|split]]]].
  - eapply reaches_trans; [exact R3|].
    replace (q + (zlen (request_line r) + (n3 + 2)) - 2) with (q + zlen (request_line r) + n3) by lia. exact R4.
  - unfold plain_request. cbn [type flags http_major http_minor method perrno set_flags].
    rewrite Hfl, C1, C4, C5, C6, C7. split_and!; try done; [by unfold request_flags; rewrite headers_flags_body|congruence].
  - by rewrite B3 in C3.
  - lia.
Qed.

Lemma run_request r s x u q c0 :
  request_ok r -> accepts o r u -> ready s x -> at_pos data q (request_bytes r) ->
  exists x' c, reaches o data (at_state x u s q c0)
    (at_state x' (request_events o r u) (next_state (request_flags r)) (q + zlen (request_bytes r)) c) /\
    ended x' /\ upgrade x' = false.
Proof.
  intros Hr Ho Hx Hp. unfold request_bytes in *. rewrite zlen_app.
  assert (Hn : zlen (head_bytes r) <= HTTP_MAX_HEADER_SIZE) by apply Hr.
  assert (Hp' : at_pos data q ((request_line r ++ header_bytes (r_headers r)) ++ [CR; LF] ++ r_body r)).
  { unfold head_bytes in Hp. by rewrite <- !app_assoc in *. }
  apply at_pos_app in Hp' as [Hp1 Hp2].
  assert (Hl : zlen (request_line r ++ header_bytes (r_headers r)) = zlen (head_bytes r) - 2).
  { unfold head_bytes. rewrite !zlen_app. change (zlen [CR; LF]) with 2. lia. }
  rewrite Hl in Hp2. pose proof (zlen_nonneg (request_line r ++ header_bytes (r_headers r))).
  destruct (run_head r s x u q c0 (proj1 Hr) Hx Hp1) as (s4 & x4 & c4 & R & Hs4 & Hx4 & Hfl & Hcl & Hn4).
  replace (q + (zlen (head_bytes r) - 2)) with (q + zlen (head_bytes r) - 2) in Hp2 by lia.
  destruct (run_tail r s4 x4 (head_events o r u) _ c4 Hr Ho Hs4 Hx4 Hfl Hcl Hp2) as (x5 & c5 & R5 & Hx5); [lia|lia|].
  exists x5, c5. split; [|exact Hx5]. eapply reaches_trans; [exact R|].
  replace (q + (zlen (head_bytes r) + zlen (r_body r))) with (q + zlen (head_bytes r) - 2 + 2 + zlen (r_body r)) by lia.
  exact R5.
Qed.
End Requests.

(** ** A request to upgrade

    The parser stops behind the empty line; the bytes that follow are the other
    protocol's. *)
Definition upgrade_ok (r : request) : Prop :=
  well_formed r /\ upgrades (request_flags r) = true /\ r_body r = [].

Section Upgrade.
Context {U : Type} (o : observer U) (data : bytes).

Lemma upgrade_lf x u q c0 :
  plain_request x -> upgrades (flags x) = true -> content_length x = 0 \/ content_length x = ULLONG_MAX ->
  (ob_headers o u).1 = 0 -> 0 <= q < zlen data -> znth data q 0 = LF ->
  0 <= nread x < HTTP_MAX_HEADER_SIZE ->
  let v := (ob_headers o u).2 in
  exists e, exec_byte (observe o) data (at_state x u s_headers_almost_done q c0) = Exit (XReturn (q + 1)) e /\
    usr e = ob_notify o message_complete v /\ upgrade (prs e) = true.
Proof.
  intros Hx Hnu Hcl Ho Hq Hc Hn v. pose proof (plain_request_next x Hx) as Hnext.
  pose proof (plain_request_upgrade x Hx) as Hup. rewrite Hnu in Hup.
  destruct Hx as (Ht & Hf & Hma & Hmi & Hm & He).
  enough (H : wp (exec_byte (observe o) data) (fun _ _ => False)
    (fun r e => r = XReturn (q + 1) /\ usr e = ob_notify o message_complete v /\ upgrade (prs e) = true)
    (at_state x u s_headers_almost_done q c0)).
  { unfold wp in H. destruct (exec_byte _ _ _) as [|r e]; [done|]. destruct H as [-> H]. by exists e. }
  unfold at_state. apply (wp_byte_header _ _ LF); [reflexivity|norm; assumption|norm; lia|].
  apply wp_switch; unfold switch_state; do 4 wp_base; norm.
  unfold case_s_headers_almost_done. change (negb (LF =? LF)) with false.
  repeat wp_obs. rewrite (no_body_flag _ F_TRAILING Hf eq_refl). repeat wp_obs.
  change (on_headers_complete (observe o)) with
    (Some (fun x u => let '(r, u') := ob_headers o u in (r, x, u')) : option (http_cb U)).
  cbv iota. apply wp_bind, wp_headers_cb. norm. rewrite Ho. change (0 =? 0) with true.
  repeat wp_obs. rewrite decide_True by exact He. repeat wp_obs.
  apply wp_switch. unfold switch_state. do 4 wp_base. unfold case_s_headers_done.
  change (negb (LF =? LF)) with false. repeat wp_obs.
  change (upgrade_of (set_nread (nread x + 1) x)) with (upgrade_of x). rewrite Hup.
  assert (Hb : has_flag (flags x) F_CHUNKED || (0 <? content_length x) && negb (content_length x =? ULLONG_MAX) = false).
  { rewrite (no_body_flag _ F_CHUNKED Hf eq_refl). by destruct Hcl as [-> | ->]. }
  rewrite Hb. cbn [andb negb]. rewrite !orb_true_r. repeat wp_obs.
  done.
Qed.
End Upgrade.

(** The bytes of the other protocol, behind the empty line, are not read. *)
Lemma execute_upgrade {U} (o : observer U) r rest x u :
  upgrade_ok r -> accepts o r u -> ready (pstate x) x ->
  exists x', http_parser_execute (observe o) (head_bytes r ++ rest) x u
      = Returned (zlen (head_bytes r)) x' (request_events o r u) /\ upgrade x' = true.
Proof.
  intros (Hwf & Hup & Hbody) Ho Hx.
  assert (Hl : zlen (head_bytes r) = zlen (request_line r ++ header_bytes (r_headers r)) + 2).
  { unfold head_bytes. rewrite !zlen_app. change (zlen [CR; LF]) with 2. lia. }
  assert (Hp : at_pos (head_bytes r ++ rest) 0
    ((request_line r ++ header_bytes (r_headers r)) ++ [CR; LF])).
  { exists [], rest. split; [|done]. unfold head_bytes. by rewrite <- !app_assoc. }
  apply at_pos_app in Hp as [Hp1 Hp2].
  destruct (run_head o _ r (pstate x) x u 0 0 Hwf Hx Hp1)
    as (s4 & x4 & c4 & R & Hs4 & Hx4 & Hfl & Hcl & Hn4).
  pose proof (zlen_nonneg (request_line r ++ header_bytes (r_headers r))).
  destruct Hwf as (_ & _ & _ & Hb & _ & Hmax).
  replace (0 + zlen (head_bytes r) - 2) with (0 + zlen (request_line r ++ header_bytes (r_headers r))) in R by lia.
  apply at_pos_cons in Hp2 as (Hq1 & Hc1 & Hp2). apply at_pos_cons in Hp2 as (Hq2 & Hc2 & _).
  set (q := 0 + zlen (request_line r ++ header_bytes (r_headers r))) in *.
  assert (R1 := run_blank_cr o _ s4 x4 (head_events o r u) q c4 Hs4 Hq1 Hc1 ltac:(apply Hx4) ltac:(lia)).
  set (x5 := set_flags (line_flags s4 x4) (set_nread (nread x4 + 1) x4)) in *.
  destruct (upgrade_lf o (head_bytes r ++ rest) x5 (head_events o r u) (q + 1) CR) as (e & E & Hu & Hue); try done.
  - simpl. by rewrite Hfl.
  - change (content_length x5) with (content_length x4). rewrite Hcl. unfold body_ok in Hb.
    rewrite Hbody in Hb. case_bool_decide as Ec; [by right|]. by left.
  - simpl. lia.
  - assert (Ex : exec_init x u = at_state x u (pstate x) 0 0).
    { unfold exec_init. by destruct Hx as [[[-> _] | ->] _]. }
    exists (prs e). split; [|exact Hue]. unfold request_events. rewrite Hbody, <- Hu.
    replace (zlen (head_bytes r)) with (q + 1 + 1) by lia.
    refine (reaches_exit o _ x u _ (XReturn _) e _ _ _ E); [apply Hx| |simpl; lia].
    rewrite Ex. exact (reaches_trans _ _ _ _ _ R R1).
Qed.

(** ** A stream of requests *)

Definition stream_bytes (rs : list request) : bytes := concat (map request_bytes rs).

Definition stream_events {U} (o : observer U) (rs : list request) (u : U) : U :=
  fold_left (fun u r => request_events o r u) rs u.

Fixpoint accepts_all {U} (o : observer U) (rs : list request) (u : U) : Prop :=
  match rs with
  | [] => True
  | r :: rs => accepts o r u /\ accepts_all o rs (request_events o r u)
  end.

(** The parser at the start of a request. *)
Definition waiting (x : http_parser) : Prop := ready (pstate x) x.

(** All but the last leave the connection open. *)
Definition stays_open (r : request) : Prop := closes (request_flags r) = false.

Lemma run_requests {U} (o : observer U) data rs r : forall s x u q c0,
  Forall request_ok rs -> Forall stays_open rs -> request_ok r -> accepts_all o (rs ++ [r]) u -> ready s x ->
  at_pos data q (stream_bytes (rs ++ [r])) ->
  exists x' c, reaches o data (at_state x u s q c0)
    (at_state x' (stream_events o (rs ++ [r]) u) (next_state (request_flags r))
       (q + zlen (stream_bytes (rs ++ [r]))) c) /\
    ended x' /\ upgrade x' = false.
Proof.
  induction rs as [|r0 rs IH]; intros s x u q c0 Hrs Hopen Hr Ho Hx Hp.
  - destruct Ho as [Ho _]. change (stream_bytes ([] ++ [r])) with (request_bytes r ++ []) in *.
    rewrite app_nil_r in *. by apply run_request.
  - apply Forall_cons in Hrs as [Hr0 Hrs], Hopen as [Hopen0 Hopen]. destruct Ho as [Ho Hos].
    change (stream_bytes ((r0 :: rs) ++ [r])) with (request_bytes r0 ++ stream_bytes (rs ++ [r])) in *.
    rewrite zlen_app, Z.add_assoc. apply at_pos_app in Hp as [Hp1 Hp2].
    destruct (run_request o data r0 s x u q c0 Hr0 Ho Hx Hp1) as (x1 & c1 & R1 & Hx1 & _).
    unfold next_state, stays_open in *. rewrite Hopen0 in R1.
    destruct (IH s_start_req x1 (request_events o r0 u) _ c1 Hrs Hopen Hr Hos (ended_ready x1 Hx1) Hp2)
      as (x2 & c2 & R2 & Hx2).
    exists x2, c2. split; [eapply reaches_trans; [exact R1|exact R2]|exact Hx2].
Qed.

Lemma stream_not_empty r rs : 0 < zlen (stream_bytes (r :: rs)).
Proof.
  change (stream_bytes (r :: rs)) with (request_bytes r ++ stream_bytes rs).
  unfold request_bytes, head_bytes, request_line. rewrite !zlen_app.
  pose proof (method_len (r_method r)). pose proof (zlen_nonneg (r_target r)).
  pose proof (zlen_nonneg (header_bytes (r_headers r))). pose proof (zlen_nonneg (r_body r)).
  pose proof (zlen_nonneg (stream_bytes rs)).
  change (zlen version_line) with 10. change (zlen [ #" "]) with 1. change (zlen [CR; LF]) with 2. lia.
Qed.

Lemma execute_requests {U} (o : observer U) (rs : list request) r (x : http_parser) (u : U) :
  Forall request_ok rs -> Forall stays_open rs -> request_ok r -> accepts_all o (rs ++ [r]) u -> waiting x ->
  exists x', http_parser_execute (observe o) (stream_bytes (rs ++ [r])) x u
      = Returned (zlen (stream_bytes (rs ++ [r]))) x' (stream_events o (rs ++ [r]) u) /\
    pstate x' = next_state (request_flags r) /\ ended x' /\ upgrade x' = false.
Proof.
  intros Hrs Hopen Hr Ho Hx. set (l := rs ++ [r]) in *.
  assert (Hlen : 0 < zlen (stream_bytes l)).
  { unfold l. destruct rs; apply stream_not_empty. }
  assert (Hp : at_pos (stream_bytes l) 0 (stream_bytes l)).
  { exists [], []. by rewrite app_nil_r. }
  destruct (run_requests o (stream_bytes l) rs r (pstate x) x u 0 0 Hrs Hopen Hr Ho Hx Hp) as (x' & c & R & Hx' & Hup).
  exists (set_pstate (next_state (request_flags r)) x'). split; [|done].
  eapply reaches_return; [exact Hlen|apply Hx|apply Hx'| |apply Z.add_0_l].
  replace (exec_init x u) with (at_state x u (pstate x) 0 0); [exact R|].
  unfold exec_init. by destruct Hx as [[[-> _] | ->] _].
Qed.

(** C1: requests written one after the other on a connection are read back
    exactly. For every list of HTTP/1.1 requests whose heads respect the size
    limit, whose bodies have the length that their headers announce, and of which
    only the last may ask to close the connection, and which the application accepts
    when their headers are complete, one call consumes all the bytes, reports to
    the application each request's target, headers, end of headers, body and end,
    unchanged, complete and in order, and leaves the parser waiting for the next
    request, or closed if the last one asked for it. The parser may be one for
    requests or one that also takes responses. *)
Theorem requests_parsed {U} (o : observer U) (rs : list request) r (x : http_parser) (u : U) :
  Forall request_ok (rs ++ [r]) -> Forall stays_open rs -> accepts_all o (rs ++ [r]) u -> waiting x ->
  exists x', http_parser_execute (observe o) (stream_bytes (rs ++ [r])) x u
      = Returned (zlen (stream_bytes (rs ++ [r]))) x' (stream_events o (rs ++ [r]) u) /\
    if closes (request_flags r) then pstate x' = s_dead else pstate x' = s_start_req /\ waiting x'.
Proof.
  intros Hrs Hopen Ho Hx. apply Forall_app in Hrs as [Hrs Hr]. apply Forall_cons in Hr as [Hr _].
  destruct (execute_requests o rs r x u Hrs Hopen Hr Ho Hx) as (x' & E & Hs & He & _).
  exists x'. split; [exact E|]. unfold next_state in Hs. destruct (closes _); [exact Hs|].
  split; [exact Hs|]. unfold waiting. rewrite Hs. by apply ended_ready.
Qed.

(** A query that keeps the connection, and an upload of four bytes that closes it. *)
Definition demo_query : request :=
  mk_request HTTP_GET (str "/search?q=x")
    [mk_header Plain (str "Host") (str "example.org"); mk_header (Token KeepAlive) (str "Connection") (str "Keep-Alive")] [].
Definition demo_upload : request :=
  mk_request HTTP_POST (str "http://h:80/up")
    [mk_header Length (str "Content-Length") (str "4"); mk_header (Token Close) (str "Connection") (str "close")]
    (str "DATA").

Definition demo_log : observer (list bytes) :=
  mk_observer (fun f u => u) (fun f b u => u ++ [b]) (fun u => (0, u ++ [str "."]))
    (fun _ _ u => u).

(** Deciding [request_ok] on given requests. *)
Lemma forallb_Forall {A} (P : A -> Prop) (f : A -> bool) l :
  (forall a, f a = true -> P a) -> forallb f l = true -> Forall P l.
Proof.
  intros H. induction l as [|a l IH]; simpl; [constructor|]. intros E.
  apply andb_true_iff in E as [Ea El]. constructor; auto.
Qed.

Definition name_byteb (b : Z) : bool := (0 <=? b) && (b <? 256) && negb (TOKEN b =? 0).
Definition value_byteb (b : Z) : bool := negb (b =? CR) && negb (b =? LF).
Definition digitb (b : Z) : bool := (#"0" <=? b) && (b <=? #"9").

Lemma name_byteb_ok b : name_byteb b = true -> name_byte b.
Proof.
  unfold name_byteb, name_byte, is_byte. intros H. apply andb_true_iff in H as [H1 H2].
  apply andb_true_iff in H1 as [H0 H1]. apply negb_true_iff, Z.eqb_neq in H2. lia.
Qed.

Lemma value_byteb_ok b : value_byteb b = true -> value_byte b.
Proof.
  unfold value_byteb, value_byte. intros H. apply andb_true_iff in H as [H1 H2].
  by apply negb_true_iff, Z.eqb_neq in H1, H2.
Qed.

Lemma digitb_ok b : digitb b = true -> digit b.
Proof. unfold digitb, digit. lia. Qed.

Definition headerb (h : header) : bool :=
  let w := map TOKEN (h_name h) in
  let v := h_value h in
  forallb name_byteb (h_name h) && negb (bool_decide (v = [])) &&
  match h_kind h with
  | Plain => negb (bool_decide (h_name h = [])) && negb (bool_decide (w ∈ known_names)) &&
      forallb value_byteb v && negb (znth v 0 0 =? #" ") && negb (znth v 0 0 =? 9)
  | Length => bool_decide (w = CONTENT_LENGTH) && forallb digitb v &&
      (dec_value 0 v <=? ULLONG_MAX - 10)
  | Token t => (bool_decide (w = CONNECTION) || bool_decide (w = PROXY_CONNECTION)) &&
      forallb value_byteb v && negb (znth v 0 0 =? #" ") && negb (znth v 0 0 =? 9) &&
      bool_decide (map LOWER v = token_text t)
  | Upgrade => bool_decide (w = UPGRADE) &&
      forallb value_byteb v && negb (znth v 0 0 =? #" ") && negb (znth v 0 0 =? 9)
  end.

Lemma headerb_ok h : headerb h = true -> header_ok h.
Proof.
  destruct h as [k name v]. unfold headerb, header_ok, line_ok. cbn [h_kind h_name h_value].
  intros H. apply andb_true_iff in H as [H Hk]. apply andb_true_iff in H as [Hn Hv].
  apply (forallb_Forall name_byte) in Hn; [|apply name_byteb_ok].
  apply negb_true_iff, bool_decide_eq_false in Hv. destruct k.
  - rewrite !andb_true_iff, !negb_true_iff, !bool_decide_eq_false, !Z.eqb_neq in Hk.
    destruct Hk as ((((? & Hin) & Hb) & Hsp) & Htab). split.
    + split; [done|]. split; [done|]. by rewrite <- list_elem_of_In.
    + split; [by apply (forallb_Forall value_byte _ _ value_byteb_ok)|]. by destruct v.
  - rewrite !andb_true_iff, Z.leb_le in Hk. destruct Hk as ((Hw & Hd) & Hm).
    apply bool_decide_eq_true in Hw. split_and!; try done.
    by apply (forallb_Forall digit _ _ digitb_ok).
  - rewrite !andb_true_iff, orb_true_iff, !negb_true_iff, !bool_decide_eq_true, !Z.eqb_neq in Hk.
    destruct Hk as ((((Hw & Hb) & Hsp) & Htab) & Ht). split_and!; try done.
    split; [by apply (forallb_Forall value_byte _ _ value_byteb_ok)|]. by destruct v.
  - rewrite !andb_true_iff, !negb_true_iff, bool_decide_eq_true, !Z.eqb_neq in Hk.
    destruct Hk as (((Hw & Hb) & Hsp) & Htab). split_and!; try done.
    split; [by apply (forallb_Forall value_byte _ _ value_byteb_ok)|]. by destruct v.
Qed.

Definition well_formedb (r : request) : bool :=
  let cl := headers_length (r_headers r) ULLONG_MAX in
  negb (bool_decide (r_method r = HTTP_CONNECT)) && target_ok (r_target r) &&
  forallb headerb (r_headers r) &&
  (if bool_decide (cl = ULLONG_MAX) then bool_decide (r_body r = [])
   else zlen (r_body r) =? cl) &&
  (zlen (r_body r) <? ULLONG_MAX) && (zlen (head_bytes r) <=? HTTP_MAX_HEADER_SIZE).

Lemma well_formedb_ok r : well_formedb r = true -> well_formed r.
Proof.
  unfold well_formedb, well_formed, body_ok. rewrite !andb_true_iff, negb_true_iff.
  rewrite bool_decide_eq_false, Z.ltb_lt, Z.leb_le. intros (((((Hm & Ht) & Hh) & Hb) & Hl) & Hn).
  split_and!; try done.
  - by apply (forallb_Forall header_ok _ _ headerb_ok).
  - case_bool_decide; [by apply bool_decide_eq_true in Hb|by apply Z.eqb_eq].
Qed.

Definition requestb (r : request) : bool := well_formedb r && negb (upgrades (request_flags r)).

Lemma requestb_ok r : requestb r = true -> request_ok r.
Proof.
  unfold requestb. rewrite andb_true_iff, negb_true_iff. intros [H1 H2].
  split; [by apply well_formedb_ok|exact H2].
Qed.

Lemma requests_parsed_witness :
  exists x', http_parser_execute (observe demo_log)
    (str "GET /search?q=x HTTP/1.1" ++ [CR; LF] ++ str "Host: example.org" ++ [CR; LF] ++
     str "Connection: Keep-Alive" ++ [CR; LF; CR; LF] ++
     str "POST http://h:80/up HTTP/1.1" ++ [CR; LF] ++ str "Content-Length: 4" ++ [CR; LF] ++
     str "Connection: close" ++ [CR; LF; CR; LF] ++ str "DATA") (http_parser_init HTTP_BOTH) []
    = Returned 145 x' [str "/search?q=x"; str "Host"; str "example.org"; str "Connection"; str "Keep-Alive"; str ".";
        str "http://h:80/up"; str "Content-Length"; str "4"; str "Connection"; str "close"; str ".";
        str "DATA"] /\ pstate x' = s_dead.
Proof.
  destruct (requests_parsed demo_log [demo_query] demo_upload (http_parser_init HTTP_BOTH) [])
    as (x' & E & Hs); [|by repeat constructor|done|by split; [right|]|].
  - apply (forallb_Forall request_ok requestb); [exact requestb_ok|vm_compute; reflexivity].
  - exists x'. split; [exact E|exact Hs].
Defined.
