(* ===== verification/HttpChunked.v ===== *)
(** * Chunked bodies

    Requests with [Transfer-Encoding: chunked]: the sizes, the extensions and the data of
    the chunks, and the trailers behind the last one. *)

From S2P Require Import Prelude.
From S2P Require Import Words.
From S2P Require Import HttpChars.
From S2P Require Import HttpUrl.
From S2P Require Import HttpState.
From S2P Require Import HttpExec.
From S2P Require Import HttpWp.
From S2P Require Import HttpSafe.
From S2P Require Import HttpRun.
From S2P Require Import HttpMethod.
From S2P Require Import HttpHeaders.
From S2P Require Import HttpLines.
From S2P Require Import HttpRequest.

(** ** Chunks *)

(** The digits of a size, in either case. *)
Definition size_digit (b : Z) : Prop := #"0" <= b <= #"9" \/ #"a" <= b <= #"f" \/ #"A" <= b <= #"F".

Definition hex_of (b : Z) : Z :=
  if b <=? #"9" then b - #"0" else if b <=? #"F" then b - #"A" + 10 else b - #"a" + 10.

Fixpoint hex_value (acc : Z) (l : bytes) : Z :=
  match l with [] => acc | b :: l => hex_value (acc * 16 + hex_of b) l end.

(** What may stand between a size and the end of its line. *)
Definition extension (l : bytes) : Prop :=
  match l with
  | [] => True
  | b :: l => (b = #";" \/ b = #" ") /\ Forall (fun b => b <> CR) l
  end.

Record chunk := mk_chunk { ck_size : bytes; ck_ext : bytes; ck_data : bytes }.

Definition size_line (size ext : bytes) : bytes := size ++ ext ++ [CR; LF].

Definition size_ok (size ext : bytes) (n : Z) : Prop :=
  size <> [] /\ Forall size_digit size /\ hex_value 0 size = n /\ n < ULLONG_MAX - 16 /\ extension ext /\
  zlen (size_line size ext) <= HTTP_MAX_HEADER_SIZE.

Definition chunk_ok (k : chunk) : Prop :=
  ck_data k <> [] /\ size_ok (ck_size k) (ck_ext k) (zlen (ck_data k)).

Definition chunk_bytes (k : chunk) : bytes := size_line (ck_size k) (ck_ext k) ++ ck_data k ++ [CR; LF].

(** What the application sees of a chunk. *)
Definition chunk_events {U} (o : observer U) (u : U) (k : chunk) : U :=
  ob_notify o chunk_complete (ob_data o body (ck_data k) (ob_notify o chunk_header u)).

(** ** Sizes *)

Definition size_digitb (b : Z) : bool :=
  ((#"0" <=? b) && (b <=? #"9")) || ((#"a" <=? b) && (b <=? #"f")) || ((#"A" <=? b) && (b <=? #"F")).

Lemma size_digitb_ok b : size_digitb b = true <-> size_digit b.
Proof. unfold size_digitb, size_digit. rewrite !orb_true_iff, !andb_true_iff, !Z.leb_le. tauto. Qed.

(** The table has their values. *)
Lemma unhex_size_digit b : size_digit b -> unhex_at b = hex_of b /\ 0 <= hex_of b < 16 /\ (b =? CR) = false.
Proof.
  intros Hd. assert (Hb : is_byte b) by (unfold size_digit in Hd; chars; unfold is_byte; lia).
  assert (H : forallb (fun b => negb (size_digitb b) ||
    ((unhex_at b =? hex_of b) && (0 <=? hex_of b) && (hex_of b <? 16) && negb (b =? CR))) all_bytes = true)
    by (vm_compute; reflexivity).
  pose proof (byte_forall _ H b Hb) as H1. cbv beta in H1. apply size_digitb_ok in Hd. rewrite Hd in H1. cbn [negb orb] in H1.
  rewrite !andb_true_iff, negb_true_iff, Z.eqb_eq in H1. split; [apply H1|]. split; [lia|apply H1].
Qed.

Lemma hex_value_ge l : forall acc, 0 <= acc -> Forall size_digit l -> acc <= hex_value acc l.
Proof.
  induction l as [|b l IH]; intros acc Ha Hl; [done|].
  apply Forall_cons in Hl as [Hb Hl]. pose proof (unhex_size_digit b Hb). simpl.
  specialize (IH (acc * 16 + hex_of b) ltac:(lia) Hl). lia.
Qed.

(** The parser inside a chunked body. *)
Definition in_chunks (x : http_parser) : Prop :=
  perrno x = HPE_OK /\ has_flag (flags x) F_CHUNKED = true.

Section Chunks.
Context {U : Type} (o : observer U) (data : bytes).

Lemma run_size_first b x u q c0 :
  in_chunks x -> nread x = 0 -> 0 <= q < zlen data -> znth data q 0 = b -> size_digit b ->
  reaches o data (at_state x u s_chunk_size_start q c0)
    (at_state (set_content_length (hex_of b) (set_nread 1 x)) u s_chunk_size (q + 1) b).
Proof.
  intros [He Hf] Hn Hq Hc Hb. destruct (unhex_size_digit b Hb) as (Hu & Hr & _). assert (Hmax : 0 < HTTP_MAX_HEADER_SIZE) by done.
  header_byte b. unfold case_s_chunk_size_start, assert_chunked, assert.
  repeat wp_obs. rewrite Hn. change (0 + 1 =? 1) with true. repeat wp_obs. rewrite Hf. repeat wp_obs.
  rewrite Hu, (proj2 (Z.eqb_neq (hex_of b) _)) by lia. repeat wp_obs. obs_done.
Qed.

Lemma run_size_digit b x u q c0 :
  in_chunks x -> 0 <= nread x < HTTP_MAX_HEADER_SIZE -> 0 <= q < zlen data -> znth data q 0 = b -> size_digit b ->
  0 <= content_length x -> content_length x * 16 + hex_of b < ULLONG_MAX - 16 ->
  reaches o data (at_state x u s_chunk_size q c0)
    (at_state (set_content_length (content_length x * 16 + hex_of b) (set_nread (nread x + 1) x)) u s_chunk_size (q + 1) b).
Proof.
  intros [He Hf] Hn Hq Hc Hb Hc0 Hmax. destruct (unhex_size_digit b Hb) as (Hu & Hr & Hcr). header_byte b. unfold case_s_chunk_size, assert_chunked, assert.
  repeat wp_obs. rewrite Hf. repeat wp_obs. rewrite Hcr, Hu, (proj2 (Z.eqb_neq (hex_of b) _)) by lia. repeat wp_obs.
  assert (Hlim : ((ULLONG_MAX - 16) / 16 <? content_length x) = false).
  { apply Z.ltb_ge. apply Z.div_le_lower_bound; lia. }
  rewrite Hlim. repeat wp_obs.
  rewrite (wrap_small 64 (content_length x * 16)) by (unfold ULLONG_MAX in *; lia).
  rewrite wrap_small by (unfold ULLONG_MAX in *; lia). obs_done.
Qed.

Lemma run_size_digits l : forall x u q c0,
  in_chunks x -> at_pos data q l -> Forall size_digit l -> 0 <= nread x -> nread x + zlen l <= HTTP_MAX_HEADER_SIZE ->
  0 <= content_length x -> hex_value (content_length x) l < ULLONG_MAX - 16 ->
  exists c, reaches o data (at_state x u s_chunk_size q c0)
    (at_state (set_content_length (hex_value (content_length x) l) (set_nread (nread x + zlen l) x)) u s_chunk_size (q + zlen l) c).
Proof.
  induction l as [|b l IH]; intros x u q c0 Hx Hp Hl Hn1 Hn2 Hc0 Hmax.
  - exists c0. change (zlen []) with 0. rewrite !Z.add_0_r. cbn [hex_value]. destruct x. apply reaches_refl.
  - apply at_pos_cons in Hp as (Hq & Hc & Hp). apply Forall_cons in Hl as [Hb Hl]. cbn [hex_value] in *.
    rewrite zlen_cons in *. pose proof (zlen_nonneg l). pose proof (unhex_size_digit b Hb).
    pose proof (hex_value_ge l (content_length x * 16 + hex_of b) ltac:(lia) Hl).
    assert (R1 := run_size_digit b x u q c0 Hx ltac:(lia) Hq Hc Hb Hc0 ltac:(lia)).
    set (x1 := set_content_length _ _) in R1.
    destruct (IH x1 u (q + 1) b Hx Hp Hl) as [c R2]; [simpl; lia|simpl; lia|simpl; lia|exact Hmax|].
    exists c. eapply reaches_trans; [exact R1|].
    replace (q + (1 + zlen l)) with (q + 1 + zlen l) by lia.
    replace (nread x + (1 + zlen l)) with (nread x1 + zlen l) by (simpl; lia). exact R2.
Qed.

(** The rest of the line up to its CR. *)
Lemma run_size_cr s x u q c0 :
  s = s_chunk_size \/ s = s_chunk_parameters ->
  in_chunks x -> 0 <= nread x < HTTP_MAX_HEADER_SIZE -> 0 <= q < zlen data -> znth data q 0 = CR ->
  reaches o data (at_state x u s q c0)
    (at_state (set_nread (nread x + 1) x) u s_chunk_size_almost_done (q + 1) CR).
Proof.
  intros Hs [He Hf] Hn Hq Hc. destruct Hs as [-> | ->]; header_byte CR;
    unfold case_s_chunk_size, case_s_chunk_parameters, assert_chunked, assert; repeat wp_obs; rewrite Hf; repeat wp_obs;
    change (CR =? CR) with true; repeat wp_obs; obs_done.
Qed.

Lemma run_parameters l : forall x u q c0,
  in_chunks x -> at_pos data q l -> Forall (fun b => b <> CR) l -> 0 <= nread x -> nread x + zlen l <= HTTP_MAX_HEADER_SIZE ->
  exists c, reaches o data (at_state x u s_chunk_parameters q c0)
    (at_state (set_nread (nread x + zlen l) x) u s_chunk_parameters (q + zlen l) c).
Proof.
  induction l as [|b l IH]; intros x u q c0 Hx Hp Hl Hn1 Hn2.
  - exists c0. change (zlen []) with 0. rewrite !Z.add_0_r. destruct x. apply reaches_refl.
  - apply at_pos_cons in Hp as (Hq & Hc & Hp). apply Forall_cons in Hl as [Hb Hl].
    rewrite zlen_cons in *. pose proof (zlen_nonneg l).
    assert (R1 : reaches o data (at_state x u s_chunk_parameters q c0)
      (at_state (set_nread (nread x + 1) x) u s_chunk_parameters (q + 1) b)).
    { destruct Hx as [He Hf]. header_byte b. unfold case_s_chunk_parameters, assert_chunked, assert.
      repeat wp_obs. rewrite Hf. repeat wp_obs. rewrite (proj2 (Z.eqb_neq _ _) Hb). repeat wp_obs. obs_done. }
    destruct (IH (set_nread (nread x + 1) x) u (q + 1) b Hx Hp Hl) as [c R2]; [simpl; lia|simpl; lia|].
    exists c. eapply reaches_trans; [exact R1|].
    replace (q + (1 + zlen l)) with (q + 1 + zlen l) by lia.
    replace (nread x + (1 + zlen l)) with (nread x + 1 + zlen l) by lia. exact R2.
Qed.

(** The extension with the CR behind it. *)
Lemma run_extension ext x u q c0 :
  in_chunks x -> extension ext -> at_pos data q (ext ++ [CR]) -> 0 <= nread x ->
  nread x + zlen ext + 1 <= HTTP_MAX_HEADER_SIZE ->
  reaches o data (at_state x u s_chunk_size q c0)
    (at_state (set_nread (nread x + zlen ext + 1) x) u s_chunk_size_almost_done (q + zlen ext + 1) CR).
Proof.
  intros Hx Hext Hp Hn1 Hn2. apply at_pos_app in Hp as [Hp1 Hp2]. apply at_pos_cons in Hp2 as (Hq2 & Hc2 & _).
  destruct ext as [|b l].
  - change (zlen []) with 0 in *. rewrite !Z.add_0_r in *. apply run_size_cr; [by left|done|lia|done|done].
  - destruct Hext as [Hb Hl]. apply at_pos_cons in Hp1 as (Hq & Hc & Hp1).
    rewrite zlen_cons in *. pose proof (zlen_nonneg l).
    assert (R1 : reaches o data (at_state x u s_chunk_size q c0)
      (at_state (set_nread (nread x + 1) x) u s_chunk_parameters (q + 1) b)).
    { destruct Hx as [He Hf]. header_byte b. unfold case_s_chunk_size, assert_chunked, assert.
      repeat wp_obs. rewrite Hf. repeat wp_obs.
      assert (E : (b =? CR) = false /\ (unhex_at b =? -1) = true /\ (b =? #";") || (b =? #" ") = true)
        by (by destruct Hb as [-> | ->]).
      destruct E as (-> & -> & ->). repeat wp_obs. obs_done. }
    destruct (run_parameters l (set_nread (nread x + 1) x) u (q + 1) b Hx Hp1 Hl) as [c R2]; [simpl; lia|simpl; lia|].
    eapply reaches_trans; [exact R1|]. eapply reaches_trans; [exact R2|].
    replace (q + (1 + zlen l)) with (q + 1 + zlen l) in * by lia.
    replace (nread x + (1 + zlen l) + 1) with (nread x + 1 + zlen l + 1) by lia.
    apply (run_size_cr s_chunk_parameters (set_nread (nread (set_nread (nread x + 1) x) + zlen l) (set_nread (nread x + 1) x)));
      [by right|exact Hx|simpl; lia|done|done].
Qed.

(** The parser at the end of the line of a size [n]. *)
Definition sized (n : Z) (x : http_parser) : http_parser :=
  if n =? 0 then set_pstate s_header_field_start
    (set_flags (Z.lor (flags x) F_TRAILING) (set_nread 0 (set_content_length 0 x)))
  else set_pstate s_chunk_data (set_nread 0 (set_content_length n x)).

Lemma run_size_lf x u q c0 n :
  in_chunks x -> content_length x = n -> 0 <= nread x < HTTP_MAX_HEADER_SIZE -> 0 <= q < zlen data -> znth data q 0 = LF ->
  reaches o data (at_state x u s_chunk_size_almost_done q c0)
    (at_state (sized n x) (ob_notify o chunk_header u) (if n =? 0 then s_header_field_start else s_chunk_data) (q + 1) LF).
Proof.
  intros [He Hf] Hl Hn Hq Hc. match goal with |- reaches _ _ _ ?t => remember t as target eqn:Et end.
  header_byte LF. unfold case_s_chunk_size_almost_done, assert_chunked, assert.
  repeat wp_obs. rewrite Hf. repeat wp_obs. change (LF =? LF) with true. repeat wp_obs. rewrite Hl. subst target.
  unfold sized, at_state. destruct (n =? 0) eqn:En; repeat wp_obs; (split; [lia|]); destruct x; cbn in *; [|by subst].
  apply Z.eqb_eq in En. by subst.
Qed.

(** The line of a size. *)
Lemma run_size_line size ext n x u q c0 :
  in_chunks x -> nread x = 0 -> size_ok size ext n -> at_pos data q (size_line size ext) ->
  exists m, reaches o data (at_state x u s_chunk_size_start q c0)
    (at_state (sized n (set_nread m x)) (ob_notify o chunk_header u)
       (if n =? 0 then s_header_field_start else s_chunk_data) (q + zlen (size_line size ext)) LF).
Proof.
  intros Hx Hn (Hne & Hd & Hv & Hmax & Hext & Hlen) Hp. unfold size_line in *.
  apply at_pos_app in Hp as [Hp1 Hp2]. change [CR; LF] with ([CR] ++ [LF]) in Hp2, Hlen |- *.
  rewrite app_assoc in Hp2. apply at_pos_app in Hp2 as [Hp2 Hp3].
  apply at_pos_cons in Hp3 as (Hq3 & Hc3 & _).
  rewrite !zlen_app in *. change (zlen [CR]) with 1 in *. change (zlen [LF]) with 1 in *.
  destruct size as [|b l]; [done|]. apply Forall_cons in Hd as [Hb Hd]. apply at_pos_cons in Hp1 as (Hq1 & Hc1 & Hp1).
  rewrite zlen_cons in *. pose proof (zlen_nonneg l). pose proof (zlen_nonneg ext). pose proof (unhex_size_digit b Hb).
  cbn [hex_value] in Hv. change (0 * 16 + hex_of b) with (hex_of b) in Hv.
  assert (R1 := run_size_first b x u q c0 Hx Hn Hq1 Hc1 Hb).
  set (x1 := set_content_length (hex_of b) (set_nread 1 x)) in *.
  destruct (run_size_digits l x1 u (q + 1) b Hx Hp1 Hd) as [c R2]; [done|simpl; lia|simpl; lia|simpl; lia|].
  change (content_length x1) with (hex_of b) in R2. rewrite Hv in R2. change (nread x1) with 1 in R2.
  set (x2 := set_content_length n (set_nread (1 + zlen l) x1)) in *.
  replace (q + (1 + zlen l)) with (q + 1 + zlen l) in * by lia.
  assert (R3 := run_extension ext x2 u (q + 1 + zlen l) c Hx Hext Hp2 ltac:(simpl; lia) ltac:(simpl; lia)).
  set (x3 := set_nread (nread x2 + zlen ext + 1) x2) in *.
  replace (q + 1 + zlen l + (zlen ext + 1)) with (q + 1 + zlen l + zlen ext + 1) in * by lia.
  assert (R4 := run_size_lf x3 u _ CR n Hx eq_refl ltac:(simpl; lia) Hq3 Hc3).
  exists (nread x3). replace (q + (1 + zlen l + (zlen ext + (1 + 1)))) with (q + 1 + zlen l + zlen ext + 1 + 1) by lia.
  eapply reaches_trans; [exact R1|]. eapply reaches_trans; [exact R2|]. eapply reaches_trans; [exact R3|].
  replace (sized n (set_nread (nread x3) x)) with (sized n x3); [exact R4|].
  unfold sized, x3, x2, x1. by destruct x, (n =? 0).
Qed.

(** ** Data *)

Lemma run_chunk_data d x u q c0 :
  in_chunks x -> d <> [] -> zlen d < ULLONG_MAX -> content_length x = zlen d -> nread x = 0 ->
  at_pos data q (d ++ [CR; LF]) ->
  reaches o data (at_state x u s_chunk_data q c0)
    (at_state (set_pstate s_chunk_size_start (set_content_length 0 x))
       (ob_notify o chunk_complete (ob_data o body d u)) s_chunk_size_start (q + zlen d + 2) LF).
Proof.
  intros [He Hf] Hd Hmax Hl Hn Hp. apply at_pos_app in Hp as [Hp1 Hp2].
  pose proof (at_pos_slice _ _ _ Hp1) as Hs. pose proof (at_pos_len _ _ _ Hp1) as [Hq Hlen].
  assert (0 < zlen d) by (destruct d; [done|rewrite zlen_cons; pose proof (zlen_nonneg d); lia]).
  apply at_pos_cons in Hp2 as (Hq2 & Hc2 & Hp2). apply at_pos_cons in Hp2 as (Hq3 & Hc3 & _).
  set (x1 := set_content_length 0 x).
  assert (R1 : reaches o data (at_state x u s_chunk_data q c0)
    (mk_exec x1 u s_chunk_data_almost_done (q + zlen d) (znth data q 0) None None None (Some q) None)).
  { match goal with |- reaches _ _ _ ?t => remember t as target eqn:Etarget end.
    unfold at_state. apply reaches_wp; [norm; lia|].
    apply (wp_byte_body _ _ (znth data q 0)); [reflexivity|reflexivity|].
    apply wp_switch. unfold switch_state. do 4 wp_base. norm.
    unfold case_s_chunk_data, consume_body, assert_content_length, assert_chunked, assert.
    repeat wp_obs. rewrite Hf. repeat wp_obs. rewrite Hl, (proj2 (Z.eqb_neq (zlen d) 0)), (proj2 (Z.eqb_neq (zlen d) _)) by lia.
    cbn [negb andb]. repeat wp_obs. rewrite !Z.min_l, !Hl, !Z.sub_diag by lia.
    change (0 =? 0) with true. repeat wp_obs. subst target.
    replace (q + (zlen d - 1) + 1) with (q + zlen d) by lia. split; [lia|]. unfold x1. reflexivity. }
  eapply reaches_trans; [exact R1|].
  assert (R2 : reaches o data (mk_exec x1 u s_chunk_data_almost_done (q + zlen d) (znth data q 0) None None None (Some q) None)
    (at_state (set_pstate s_chunk_data_done x1) (ob_data o body d u) s_chunk_data_done (q + zlen d + 1) CR)).
  { apply reaches_wp; [norm; lia|]. apply (wp_byte_body _ _ CR); [reflexivity|exact Hc2|].
    apply wp_switch. unfold switch_state. do 4 wp_base. norm.
    unfold case_s_chunk_data_almost_done, assert_chunked, assert, x1. repeat wp_obs. rewrite Hf. repeat wp_obs.
    change (0 =? 0) with true. repeat wp_obs. change (CR =? CR) with true. repeat wp_obs.
    replace (q + zlen d - q) with (zlen d) by lia. rewrite Hs. split; [lia|reflexivity]. }
  eapply reaches_trans; [exact R2|]. replace (q + zlen d + 2) with (q + zlen d + 1 + 1) by lia.
  unfold at_state, x1. apply reaches_wp; [norm; lia|]. apply (wp_byte_body _ _ LF); [reflexivity|exact Hc3|].
  apply wp_switch. unfold switch_state. do 4 wp_base. norm.
  unfold case_s_chunk_data_done, assert_chunked, assert. repeat wp_obs. rewrite Hf. repeat wp_obs.
  change (LF =? LF) with true. repeat wp_obs. split; [lia|]. destruct x; cbn in *; by subst.
Qed.

(** A chunk, and all of them. *)
Definition between (x : http_parser) : Prop := in_chunks x /\ nread x = 0.

(** What the chunks leave as it was. *)
Definition same_head (x y : http_parser) : Prop :=
  type y = type x /\ flags y = flags x /\ http_major y = http_major x /\ http_minor y = http_minor x /\
  method y = method x /\ upgrade y = upgrade x.

Lemma run_chunk k x u q c0 :
  between x -> chunk_ok k -> at_pos data q (chunk_bytes k) ->
  exists x', reaches o data (at_state x u s_chunk_size_start q c0)
    (at_state x' (chunk_events o u k) s_chunk_size_start (q + zlen (chunk_bytes k)) LF) /\
    between x' /\ same_head x x'.
Proof.
  intros [Hx Hn] [Hd Hs] Hp. unfold chunk_bytes in *. apply at_pos_app in Hp as [Hp1 Hp2].
  destruct (run_size_line (ck_size k) (ck_ext k) (zlen (ck_data k)) x u q c0 Hx Hn Hs Hp1) as [m R1].
  assert (Hpos : 0 < zlen (ck_data k)).
  { destruct (ck_data k); [done|]. rewrite zlen_cons. pose proof (zlen_nonneg l). lia. }
  unfold sized in R1. rewrite (proj2 (Z.eqb_neq _ 0)) in R1 by lia.
  match type of R1 with reaches _ _ _ (at_state ?y ?v _ ?r ?c) =>
    assert (R2 := run_chunk_data (ck_data k) y v r c Hx Hd ltac:(destruct Hs as (_ & _ & _ & ? & _); lia) eq_refl eq_refl Hp2);
    exists (set_pstate s_chunk_size_start (set_content_length 0 y)) end.
  split; [|split; [by split|by split_and!]].
  rewrite !zlen_app. change (zlen [CR; LF]) with 2. rewrite !Z.add_assoc. eapply reaches_trans; [exact R1|exact R2].
Qed.

Definition chunks_bytes (ks : list chunk) : bytes := concat (map chunk_bytes ks).

Lemma run_chunks ks : forall x u q c0,
  between x -> Forall chunk_ok ks -> at_pos data q (chunks_bytes ks) ->
  exists x' c, reaches o data (at_state x u s_chunk_size_start q c0)
    (at_state x' (fold_left (chunk_events o) ks u) s_chunk_size_start (q + zlen (chunks_bytes ks)) c) /\
    between x' /\ same_head x x'.
Proof.
  induction ks as [|k ks IH]; intros x u q c0 Hx Hks Hp.
  - exists x, c0. change (zlen (chunks_bytes [])) with 0. rewrite Z.add_0_r. split; [apply reaches_refl|]. by split.
  - apply Forall_cons in Hks as [Hk Hks]. change (chunks_bytes (k :: ks)) with (chunk_bytes k ++ chunks_bytes ks) in *.
    apply at_pos_app in Hp as [Hp1 Hp2].
    destruct (run_chunk k x u q c0 Hx Hk Hp1) as (x1 & R1 & Hx1 & Hh1).
    destruct (IH x1 (chunk_events o u k) _ LF Hx1 Hks Hp2) as (x2 & c & R2 & Hx2 & Hh2).
    exists x2, c. rewrite zlen_app, Z.add_assoc. split; [eapply reaches_trans; [exact R1|exact R2]|].
    split; [done|]. unfold same_head in *. intuition congruence.
Qed.
End Chunks.

(** ** The end of a chunked message *)

Lemma headers_flags_flag hs fl f : Z.land body_flags f = f -> has_flag (headers_flags hs fl) f = has_flag fl f.
Proof.
  intros E. unfold has_flag. rewrite <- E, !Z.land_assoc. by rewrite headers_flags_body.
Qed.

Lemma has_flag_lor fl f : f <> 0 -> has_flag (Z.lor fl f) f = true.
Proof.
  intros Hf. unfold has_flag. rewrite Z.land_lor_distr_l, Z.land_diag. apply negb_true_iff, Z.eqb_neq.
  intros H. by apply Z.lor_eq_0_iff in H as [_ H].
Qed.

(** Whether the connection closes, and whether another protocol is asked for, does not
    depend on the flags about the body. *)
Lemma closes_lor fl f : Z.land f F_CONNECTION_CLOSE = 0 -> closes (Z.lor fl f) = closes fl.
Proof. intros E. unfold closes, has_flag. by rewrite Z.land_lor_distr_l, E, Z.lor_0_r. Qed.

Lemma headers_flags_lor hs f : forall fl, headers_flags hs (Z.lor fl f) = Z.lor (headers_flags hs fl) f.
Proof.
  induction hs as [|h hs IH]; intros fl; [done|]. unfold headers_flags in *. cbn [fold_left]. rewrite <- IH. f_equal.
  rewrite <- !Z.lor_assoc. f_equal. apply Z.lor_comm.
Qed.

Section End_.
Context {U : Type} (o : observer U) (data : bytes).

(** The LF of the empty line behind the trailers. *)
Lemma run_trailing_lf x u q c0 :
  type x = HTTP_REQUEST -> http_major x = 1 -> http_minor x = 1 -> perrno x = HPE_OK -> upgrade x = false ->
  has_flag (flags x) F_TRAILING = true -> 0 <= nread x < HTTP_MAX_HEADER_SIZE ->
  0 <= q < zlen data -> znth data q 0 = LF ->
  reaches o data (at_state x u s_headers_almost_done q c0)
    (at_state (set_pstate (next_state (flags x)) (set_nread (nread x + 1) x))
       (ob_notify o message_complete (ob_notify o chunk_complete u)) (next_state (flags x)) (q + 1) LF).
Proof.
  intros Ht Hma Hmi He Hup Hf Hn Hq Hc. pose proof (request_next x Ht Hma Hmi) as Hnext.
  match goal with |- reaches _ _ _ ?t => remember t as target eqn:Etarget end.
  header_byte LF. unfold case_s_headers_almost_done. change (negb (LF =? LF)) with false.
  repeat wp_obs. rewrite Hf. repeat wp_obs.
  apply wp_switch. unfold switch_state. do 4 wp_base. unfold case_s_message_done. repeat wp_obs.
  change (NEW_MESSAGE _) with (NEW_MESSAGE x). rewrite Hnext. repeat wp_obs. rewrite Hup. repeat wp_obs.
  subst target. obs_done.
Qed.

Definition last_bytes (size ext : bytes) (trailers : list header) : bytes :=
  size_line size ext ++ header_bytes trailers ++ [CR; LF].

Definition last_events (trailers : list header) (u : U) : U :=
  ob_notify o message_complete (ob_notify o chunk_complete (headers_events o trailers (ob_notify o chunk_header u))).

Definition trailers_ok (trailers : list header) : Prop :=
  Forall header_ok trailers /\ zlen (header_bytes trailers) + 2 <= HTTP_MAX_HEADER_SIZE.

Lemma run_last size ext trailers x u q c0 :
  between x -> size_ok size ext 0 -> trailers_ok trailers ->
  type x = HTTP_REQUEST -> http_major x = 1 -> http_minor x = 1 -> upgrade x = false ->
  at_pos data q (last_bytes size ext trailers) ->
  exists x', reaches o data (at_state x u s_chunk_size_start q c0)
    (at_state x' (last_events trailers u) (next_state (headers_flags trailers (flags x)))
       (q + zlen (last_bytes size ext trailers)) LF) /\
    perrno x' = HPE_OK /\ type x' = HTTP_REQUEST /\ nread x' = zlen (header_bytes trailers) + 2.
Proof.
  intros [Hx Hn] Hs [Htr Hlen] Ht Hma Hmi Hup Hp. unfold last_bytes in *.
  apply at_pos_app in Hp as [Hp1 Hp2]. apply at_pos_app in Hp2 as [Hp2 Hp3].
  apply at_pos_cons in Hp3 as (Hq3 & Hc3 & Hp3). apply at_pos_cons in Hp3 as (Hq4 & Hc4 & _).
  destruct (run_size_line o data size ext 0 x u q c0 Hx Hn Hs Hp1) as [m R1]. unfold sized in R1.
  change (0 =? 0) with true in R1. cbv iota in R1.
  match type of R1 with reaches _ _ _ (at_state ?y _ _ _ _) => set (x1 := y) in R1 end.
  pose proof (zlen_nonneg (header_bytes trailers)). destruct Hx as [He _].
  destruct (run_headers o data trailers s_header_field_start x1 (ob_notify o chunk_header u) _ LF (or_introl eq_refl) Htr Hp2 He)
    as (s2 & x2 & c2 & R2 & Hs2 & Hcore & Hn2); [done|simpl; lia|].
  destruct Hcore as (Hfl & C1 & C2 & C3 & C4 & C5 & C6 & C7 & C8 & _).
  change (line_flags s_header_field_start x1) with (Z.lor (flags x) F_TRAILING) in Hfl. change (nread x1) with 0 in Hn2.
  assert (R3 := run_blank_cr o data s2 x2 (headers_events o trailers (ob_notify o chunk_header u)) _ c2 Hs2 Hq3 Hc3
    ltac:(by rewrite C7) ltac:(lia)).
  rewrite Hfl in R3. set (x3 := set_flags _ _) in R3.
  assert (R4 := run_trailing_lf x3 (headers_events o trailers (ob_notify o chunk_header u)) _ CR
    ltac:(simpl; by rewrite C1) ltac:(simpl; by rewrite C4) ltac:(simpl; by rewrite C5) ltac:(simpl; by rewrite C7)
    ltac:(simpl; by rewrite C8)
    ltac:(change (flags x3) with (headers_flags trailers (Z.lor (flags x) F_TRAILING)); rewrite headers_flags_flag by done; by apply has_flag_lor)
    ltac:(simpl; lia) Hq4 Hc4).
  assert (Enext : next_state (flags x3) = next_state (headers_flags trailers (flags x))).
  { change (flags x3) with (headers_flags trailers (Z.lor (flags x) F_TRAILING)). unfold next_state.
    by rewrite headers_flags_lor, closes_lor. }
  rewrite Enext in R4. eexists. split; [|].
  - rewrite !zlen_app. change (zlen [CR; LF]) with 2.
    replace (q + (zlen (size_line size ext) + (zlen (header_bytes trailers) + 2)))
      with (q + zlen (size_line size ext) + zlen (header_bytes trailers) + 1 + 1) by lia.
    eapply reaches_trans; [exact R1|]. eapply reaches_trans; [exact R2|]. eapply reaches_trans; [exact R3|exact R4].
  - simpl. rewrite C7, C1. split_and!; [done|done|lia].
Qed.
End End_.

(** ** The header that announces the chunks *)

Definition encoding_ok (name value : bytes) : Prop :=
  Forall name_byte name /\ map TOKEN name = TRANSFER_ENCODING /\
  Forall value_byte value /\ map LOWER value = CHUNKED.

Section Encoding.
Context {U : Type} (o : observer U) (data : bytes).

Lemma run_encoding_first b x u q c0 :
  0 <= q < zlen data -> znth data q 0 = b -> perrno x = HPE_OK ->
  0 <= nread x < HTTP_MAX_HEADER_SIZE -> value_byte b -> LOWER b = #"c" -> header_state x = h_transfer_encoding ->
  reaches o data (at_state x u s_header_value_discard_ws q c0)
    (mk_exec (set_header_state h_matching_transfer_encoding_chunked (set_index 0 (set_nread (nread x + 1) x)))
       u s_header_value (q + 1) b None (Some q) None None None).
Proof.
  intros Hq Hc Hx Hn Hb Hl Hh. destruct (value_byte_tests b Hb) as [Ecr Elf].
  assert (Ews : (b =? #" ") || (b =? 9) = false).
  { apply orb_false_iff. split; apply Z.eqb_neq; intros ->; by vm_compute in Hl. }
  header_byte b. unfold case_s_header_value_discard_ws. rewrite Ews, Ecr, Elf.
  unfold case_s_header_value_start. repeat wp_obs. rewrite Hh, Hl. change (#"c" =? #"c") with true.
  repeat wp_obs. obs_done.
Qed.

(** The value, from the parser after the colon. *)
Lemma run_encoding_value v vs x u q c0 :
  Forall value_byte (v :: vs) -> map LOWER (v :: vs) = CHUNKED -> header_state x = h_transfer_encoding ->
  at_pos data q ([ #" "] ++ (v :: vs) ++ [CR; LF]) -> perrno x = HPE_OK ->
  0 <= nread x -> nread x + zlen (v :: vs) + 3 <= HTTP_MAX_HEADER_SIZE ->
  exists x', reaches o data (at_state x u s_header_value_discard_ws q c0)
    (at_state x' (ob_data o header_value (v :: vs) u) s_header_value_lws (q + zlen (v :: vs) + 3) LF) /\
    same_core (content_length x) (flags x) x x' /\
    nread x' = nread x + zlen (v :: vs) + 3 /\ header_state x' = h_transfer_encoding_chunked.
Proof.
  intros Hval Hlow Hh Hp Hx Hn1 Hn2. pose proof (zlen_nonneg vs). rewrite (zlen_cons v) in *.
  apply Forall_cons in Hval as [Hv Hvs]. pose proof Hlow as Hlow'. cbn [map] in Hlow. injection Hlow as Hlv Hlvs.
  cbn [app] in Hp. apply at_pos_cons in Hp as (Hq2 & Hc2 & Hp).
  pose proof Hp as Hp'. change (v :: vs ++ [CR; LF]) with ((v :: vs) ++ [CR; LF]) in Hp'.
  apply at_pos_app in Hp' as [Hp' _]. pose proof (at_pos_slice _ _ _ Hp') as Hslice. clear Hp'.
  change (vs ++ [CR; LF]) with (vs ++ [CR] ++ [LF]) in Hp.
  apply at_pos_cons in Hp as (Hq3 & Hc3 & Hp). rewrite app_assoc in Hp.
  destruct (at_pos_app _ _ _ _ Hp) as [Hp4 Hp5]. rewrite zlen_app in Hp5.
  change (zlen [CR]) with 1 in Hp5. apply at_pos_cons in Hp5 as (Hq6 & Hc6 & _).
  replace (q + 1 + 1 + (zlen vs + 1)) with (q + 1 + 1 + zlen vs + 1) in * by lia.
  assert (R2 := run_space o data x u q c0 Hq2 Hc2 Hx ltac:(lia)).
  set (x2 := set_nread (nread x + 1) x) in R2.
  assert (R3 := run_encoding_first v x2 u (q + 1) #" " Hq3 Hc3 Hx ltac:(simpl; lia) Hv Hlv Hh).
  match type of R3 with reaches _ _ _ (mk_exec ?y _ _ _ _ _ _ _ _ _) => set (x3 := y) in R3 end.
  assert (Hvl : 1 + zlen vs = zlen CHUNKED).
  { rewrite <- Hlow'. unfold zlen. simpl. rewrite length_map. lia. }
  set (x4 := set_nread (nread x3 + zlen vs + 1) (set_pstate s_header_almost_done
     (set_header_state h_transfer_encoding_chunked (set_index (zlen CHUNKED - 1) (set_nread (nread x3 + 1) x3))))).
  assert (R4 : reaches o data (mk_exec x3 u s_header_value (q + 1 + 1) v None (Some (q + 1)) None None None)
    (at_state x4 (ob_data o header_value (v :: vs) u) s_header_almost_done (q + 1 + 1 + zlen vs + 1) CR)).
  { apply (run_value_rest o data vs h_matching_transfer_encoding_chunked h_transfer_encoding_chunked x3 u (q + 1 + 1) v
      (q + 1) (set_index (zlen CHUNKED - 1)) (ob_data o header_value (v :: vs) u) Hp4 Hx eq_refl
      ltac:(simpl; lia) ltac:(simpl; lia)); [|done].
    clear R2 R3. intros z c Hz Hcl Hix. change (index x3) with 0 in Hix.
    pose proof (at_pos_len _ _ _ Hp4) as [_ Hlen]. rewrite zlen_app in Hlen. change (zlen [CR]) with 1 in Hlen.
    assert (Hne : vs <> []) by (intros ->; by vm_compute in Hvl).
    pose proof (loop_match o data CHUNKED h_matching_transfer_encoding_chunked h_general h_transfer_encoding_chunked vs
      (fun _ _ => eq_refl) ltac:(done) (Z.to_nat (zlen data - (q + 1 + 1))) (q + 1 + 1) (q + 1 + 1) z u c (q + 1)) as L.
    rewrite decide_False in L by done. eapply wp_mono; [apply L; try done| |done].
    - unfold zlen in *. lia.
    - lia.
    - lia.
    - lia.
    - rewrite Hix. exact Hlvs.
    - intros h e [-> ->]. split; [done|]. rewrite <- Hslice. do 4 f_equal. rewrite zlen_cons. lia. }
  assert (R5 := run_lf o data x4 (ob_data o header_value (v :: vs) u) _ CR Hq6 Hc6 Hx ltac:(simpl; lia)).
  exists (set_nread (nread x4 + 1) x4). split; [|split; [done|split; [simpl; lia|done]]].
  replace (q + (1 + zlen vs) + 3) with (q + 1 + 1 + zlen vs + 1 + 1) by lia.
  eapply reaches_trans; [exact R2|]. eapply reaches_trans; [exact R3|]. eapply reaches_trans; [exact R4|exact R5].
Qed.

Lemma run_encoding name value s x u q c0 :
  line_start s -> encoding_ok name value -> at_pos data q (header_line name value) -> perrno x = HPE_OK ->
  0 <= nread x -> nread x + zlen (header_line name value) <= HTTP_MAX_HEADER_SIZE ->
  exists x', reaches o data (at_state x u s q c0)
    (at_state x' (header_events o name value u) s_header_value_lws (q + zlen (header_line name value)) LF) /\
    same_core (content_length x) (line_flags s x) x x' /\
    nread x' = nread x + zlen (header_line name value) /\ header_state x' = h_transfer_encoding_chunked.
Proof.
  intros Hs (Hname & Htok & Hval & Hlow) Hp Hx Hn1 Hn2. rewrite zlen_header_line in *.
  destruct name as [|b l]; [done|]. destruct value as [|v vs]; [done|].
  unfold header_line in Hp. change ([ #":"; #" "] ++ ?r) with ([ #":"] ++ [ #" "] ++ r) in Hp.
  rewrite app_assoc in Hp. apply at_pos_app in Hp as [Hp1 Hp].
  rewrite zlen_app in Hp. change (zlen [ #":"]) with 1 in Hp.
  pose proof (zlen_nonneg (b :: l)). pose proof (zlen_nonneg (v :: vs)). set (n := zlen (b :: l)) in *.
  destruct (run_name o data b l s x u q c0 Hs Hp1 Hname Hx Hn1) as [i R1]; [fold n; lia|]. fold n in R1.
  match type of R1 with reaches _ _ _ (at_state ?y _ _ _ _) => set (x1 := y) in R1 end.
  replace (q + (n + 1)) with (q + n + 1) in * by lia.
  assert (Hh1 : header_state x1 = h_transfer_encoding).
  { change (header_state x1) with (name_state (map TOKEN (b :: l))). by rewrite Htok. }
  destruct (run_encoding_value v vs x1 (ob_data o header_field (b :: l) u) _ #":" Hval Hlow Hh1 Hp Hx)
    as (x' & R2 & Hcore & Hnr & Hh); [simpl nread; lia|simpl nread; lia|].
  exists x'. split; [|split; [exact Hcore|split; [rewrite Hnr; simpl nread; lia|exact Hh]]].
  replace (q + (n + zlen (v :: vs) + 4)) with (q + n + 1 + zlen (v :: vs) + 3) by lia.
  eapply reaches_trans; [exact R1|exact R2].
Qed.
End Encoding.

(** ** Requests with a chunked body *)

Record chunked := mk_chunked {
  cq_method : http_method; cq_target : bytes;
  cq_before : list header; cq_name : bytes; cq_value : bytes; cq_after : list header;
  cq_chunks : list chunk; cq_last : bytes; cq_ext : bytes; cq_trailers : list header }.

Definition cq_line (r : chunked) : bytes :=
  method_string (cq_method r) ++ [ #" "] ++ cq_target r ++ [ #" "] ++ version_line.

Definition cq_head (r : chunked) : bytes :=
  cq_line r ++ header_bytes (cq_before r) ++ header_line (cq_name r) (cq_value r) ++ header_bytes (cq_after r) ++ [CR; LF].

Definition cq_bytes (r : chunked) : bytes :=
  cq_head r ++ chunks_bytes (cq_chunks r) ++ last_bytes (cq_last r) (cq_ext r) (cq_trailers r).

(** The flags that the headers set; those of the trailers come on top. *)
Definition cq_flags (r : chunked) : Z :=
  headers_flags (cq_after r) (Z.lor (headers_flags (cq_before r) 0) F_CHUNKED).

Definition chunked_ok (r : chunked) : Prop :=
  cq_method r <> HTTP_CONNECT /\ target_ok (cq_target r) = true /\
  Forall header_ok (cq_before r) /\ encoding_ok (cq_name r) (cq_value r) /\ Forall header_ok (cq_after r) /\
  upgrades (cq_flags r) = false /\ zlen (cq_head r) <= HTTP_MAX_HEADER_SIZE /\
  Forall chunk_ok (cq_chunks r) /\ size_ok (cq_last r) (cq_ext r) 0 /\ trailers_ok (cq_trailers r).

Definition cq_head_events {U} (o : observer U) (r : chunked) (u : U) : U :=
  headers_events o (cq_after r) (header_events o (cq_name r) (cq_value r)
    (headers_events o (cq_before r) (ob_data o url (cq_target r) (ob_notify o message_begin u)))).

(** What the application sees: the headers as they are written, then each chunk,
    then the trailers, as headers. *)
Definition cq_events {U} (o : observer U) (r : chunked) (u : U) : U :=
  last_events o (cq_trailers r)
    (fold_left (chunk_events o) (cq_chunks r) (ob_headers o (cq_head_events o r u)).2).

Lemma cq_flags_body r : Z.land (cq_flags r) body_flags = F_CHUNKED.
Proof.
  unfold cq_flags. rewrite headers_flags_body, Z.land_lor_distr_l, headers_flags_body. reflexivity.
Qed.

Lemma chunked_flag fl f : Z.land fl body_flags = F_CHUNKED -> Z.land body_flags f = f -> has_flag fl f = has_flag F_CHUNKED f.
Proof. intros H E. unfold has_flag. rewrite <- E, !Z.land_assoc, H. by rewrite <- (Z.land_assoc F_CHUNKED), E. Qed.

Section Chunked.
Context {U : Type} (o : observer U) (data : bytes).

(** The LF of the empty line behind the headers. *)
Lemma run_blank_chunked x u q c0 :
  type x = HTTP_REQUEST -> perrno x = HPE_OK -> method x <> HTTP_CONNECT ->
  Z.land (flags x) body_flags = F_CHUNKED -> upgrades (flags x) = false -> (ob_headers o u).1 = 0 ->
  0 <= nread x < HTTP_MAX_HEADER_SIZE -> 0 <= q < zlen data -> znth data q 0 = LF ->
  reaches o data (at_state x u s_headers_almost_done q c0)
    (at_state (after_headers x) (ob_headers o u).2 s_chunk_size_start (q + 1) LF).
Proof.
  intros Ht He Hm Hf Hnu Ho Hn Hq Hc.
  assert (Hup : upgrade_of x = false) by (unfold upgrade_of; rewrite bool_decide_eq_false_2, orb_false_r by done; exact Hnu).
  match goal with |- reaches _ _ _ ?t => remember t as target eqn:Etarget end.
  header_byte LF. unfold case_s_headers_almost_done. change (negb (LF =? LF)) with false.
  repeat wp_obs. rewrite (chunked_flag _ F_TRAILING Hf eq_refl). change (has_flag F_CHUNKED F_TRAILING) with false. repeat wp_obs.
  change (on_headers_complete (observe o)) with
    (Some (fun x u => let '(r, u') := ob_headers o u in (r, x, u')) : option (http_cb U)).
  cbv iota. apply wp_bind, wp_headers_cb. norm. rewrite Ho. change (0 =? 0) with true.
  repeat wp_obs. rewrite decide_True by exact He. repeat wp_obs.
  apply wp_switch. unfold switch_state. do 4 wp_base. unfold case_s_headers_done.
  change (negb (LF =? LF)) with false. repeat wp_obs.
  change (upgrade_of (set_nread (nread x + 1) x)) with (upgrade_of x). rewrite Hup.
  cbn [andb]. rewrite (chunked_flag _ F_SKIPBODY Hf eq_refl), (chunked_flag _ F_CHUNKED Hf eq_refl).
  change (has_flag F_CHUNKED F_SKIPBODY) with false. change (has_flag F_CHUNKED F_CHUNKED) with true.
  repeat wp_obs. subst target. unfold after_headers. obs_done.
Qed.

(** The headers up to the empty line. *)
Lemma run_chunked_head r s x u q c0 :
  chunked_ok r -> ready s x -> (ob_headers o (cq_head_events o r u)).1 = 0 -> at_pos data q (cq_head r) ->
  exists x', reaches o data (at_state x u s q c0)
    (at_state x' (ob_headers o (cq_head_events o r u)).2 s_chunk_size_start (q + zlen (cq_head r)) LF) /\
    between x' /\ type x' = HTTP_REQUEST /\ http_major x' = 1 /\ http_minor x' = 1 /\ upgrade x' = false /\
    flags x' = cq_flags r.
Proof.
  intros (Hm & Htg & Hb & Henc & Ha & Hup & Hlen & _) Hx Ho Hp. unfold cq_head in *.
  apply at_pos_app in Hp as [Hp1 Hp]. apply at_pos_app in Hp as [Hp2 Hp]. apply at_pos_app in Hp as [Hp3 Hp].
  apply at_pos_app in Hp as [Hp4 Hp]. apply at_pos_cons in Hp as (Hq5 & Hc5 & Hp). apply at_pos_cons in Hp as (Hq6 & Hc6 & _).
  rewrite !zlen_app in *. change (zlen [CR; LF]) with 2 in *.
  pose proof (zlen_nonneg (cq_line r)). pose proof (zlen_nonneg (header_bytes (cq_before r))).
  pose proof (zlen_nonneg (header_line (cq_name r) (cq_value r))). pose proof (zlen_nonneg (header_bytes (cq_after r))).
  destruct (run_request_line o data (cq_method r) (cq_target r) s x u q c0 Hx Hm Htg Hp1 ltac:(unfold cq_line in *; lia))
    as (x1 & R1 & (B1 & B2 & B3 & B4 & B5 & B6) & B7 & B8). fold (cq_line r) in R1, B6.
  set (u1 := ob_data o url (cq_target r) (ob_notify o message_begin u)) in *.
  destruct (run_headers o data (cq_before r) s_header_field_start x1 u1 _ LF (or_introl eq_refl) Hb Hp2 B5 ltac:(lia) ltac:(lia))
    as (s2 & x2 & c2 & R2 & Hs2 & (Hf2 & C1 & C2 & C3 & C4 & C5 & C6 & C7 & C8) & Hn2).
  unfold line_flags at 2 in Hf2. rewrite B2 in Hf2.
  destruct (run_encoding o data (cq_name r) (cq_value r) s2 x2 (headers_events o (cq_before r) u1) _ c2 Hs2 Henc Hp3
    ltac:(by rewrite C7) ltac:(lia) ltac:(lia)) as (x3 & R3 & (D1 & D2 & D3 & D4 & D5 & D6 & D7 & D8) & Hn3 & Hh3).
  rewrite Hf2 in D2.
  destruct (run_headers o data (cq_after r) s_header_value_lws x3
    (header_events o (cq_name r) (cq_value r) (headers_events o (cq_before r) u1)) _ LF (or_intror eq_refl) Ha Hp4
    ltac:(by rewrite D7, C7) ltac:(lia) ltac:(lia))
    as (s4 & x4 & c4 & R4 & Hs4 & (Hf4 & E1 & E2 & E3 & E4 & E5 & E6 & E7 & E8) & Hn4).
  unfold line_flags at 2 in Hf4. rewrite D2, Hh3 in Hf4. change (value_flag h_transfer_encoding_chunked) with F_CHUNKED in Hf4.
  fold (cq_flags r) in Hf4.
  assert (R5 := run_blank_cr o data s4 x4 (cq_head_events o r u) _ c4 Hs4 Hq5 Hc5 ltac:(by rewrite E7, D7, C7) ltac:(lia)).
  set (x5 := set_flags _ _) in R5.
  assert (R6 := run_blank_chunked x5 (cq_head_events o r u) _ CR ltac:(simpl; by rewrite E1, D1, C1)
    ltac:(simpl; by rewrite E7, D7, C7) ltac:(simpl; by rewrite E6, D6, C6, B4)
    ltac:(simpl; rewrite Hf4; apply cq_flags_body) ltac:(simpl; by rewrite Hf4) Ho ltac:(simpl; lia) Hq6 Hc6).
  exists (after_headers x5). split; [|split; [split; [split|]|]].
  - rewrite !Z.add_assoc. replace (q + zlen (cq_line r) + zlen (header_bytes (cq_before r)) +
      zlen (header_line (cq_name r) (cq_value r)) + zlen (header_bytes (cq_after r)) + 2) with
      (q + zlen (cq_line r) + zlen (header_bytes (cq_before r)) +
      zlen (header_line (cq_name r) (cq_value r)) + zlen (header_bytes (cq_after r)) + 1 + 1) by lia.
    eapply reaches_trans; [exact R1|]. eapply reaches_trans; [exact R2|]. eapply reaches_trans; [exact R3|].
    eapply reaches_trans; [exact R4|]. eapply reaches_trans; [exact R5|exact R6].
  - simpl. by rewrite E7, D7, C7.
  - simpl. rewrite Hf4. by apply (chunked_flag _ F_CHUNKED (cq_flags_body r)).
  - done.
  - simpl. by rewrite E1, D1, C1, E4, D4, C4, E5, D5, C5, Hf4.
Qed.
End Chunked.

(** C4: a request with a chunked body is read back exactly. For every HTTP/1.1 request
    with [Transfer-Encoding: chunked] among its headers, in any letter case, its
    chunks with sizes in hexadecimal digits of either case, leading zeros and extensions,
    and trailers behind the last one, and an application that accepts its headers: one call
    consumes all the bytes, reports the headers, then each chunk with its header, its data
    unchanged and its end, in order, then the trailers as headers, the end of the last
    chunk and of the message, and leaves the parser waiting for the next request,
    or closed if a header or a trailer asked for it. A length among the
    headers does not matter. *)
Theorem chunked_request_parsed {U} (o : observer U) r (x : http_parser) (u : U) :
  chunked_ok r -> (ob_headers o (cq_head_events o r u)).1 = 0 -> waiting x ->
  exists x', http_parser_execute (observe o) (cq_bytes r) x u
      = Returned (zlen (cq_bytes r)) x' (cq_events o r u) /\
    perrno x' = HPE_OK /\ pstate x' = next_state (headers_flags (cq_trailers r) (cq_flags r)) /\
    nread x' = zlen (header_bytes (cq_trailers r)) + 2.
Proof.
  intros Hr Ho Hx. set (data := cq_bytes r).
  assert (Hp : at_pos data 0 (cq_bytes r)) by (exists [], []; by rewrite app_nil_r).
  unfold cq_bytes in Hp. apply at_pos_app in Hp as [Hp1 Hp]. apply at_pos_app in Hp as [Hp2 Hp3].
  destruct (run_chunked_head o data r (pstate x) x u 0 0 Hr Hx Ho Hp1) as (x1 & R1 & Hb & Ht & Hma & Hmi & Hup & Hfl).
  destruct Hr as (_ & _ & _ & _ & _ & _ & _ & Hks & Hlast & Htr).
  set (v := (ob_headers o (cq_head_events o r u)).2) in *.
  destruct (run_chunks o data (cq_chunks r) x1 v (0 + zlen (cq_head r)) LF Hb Hks Hp2) as (x2 & c2 & R2 & Hb2 & S1 & S2 & S3 & S4 & S5 & S6).
  destruct (run_last o data (cq_last r) (cq_ext r) (cq_trailers r) x2
    (fold_left (chunk_events o) (cq_chunks r) v) _ c2 Hb2 Hlast Htr
    ltac:(congruence) ltac:(congruence) ltac:(congruence) ltac:(congruence) Hp3) as (x3 & R3 & He3 & _ & Hn3).
  rewrite S2, Hfl in R3. fold (cq_events o r u) in R3.
  exists (set_pstate (next_state (headers_flags (cq_trailers r) (cq_flags r))) x3). split; [|done].
  assert (Hlen : 0 + zlen (cq_head r) + zlen (chunks_bytes (cq_chunks r)) +
    zlen (last_bytes (cq_last r) (cq_ext r) (cq_trailers r)) = zlen data).
  { unfold data, cq_bytes. rewrite !zlen_app. lia. }
  assert (Hpos : 0 < zlen data).
  { apply at_pos_len in Hp3 as [_ Hp3]. pose proof (zlen_nonneg (header_bytes (cq_trailers r))).
    unfold last_bytes in Hp3. rewrite !zlen_app in Hp3. change (zlen [CR; LF]) with 2 in Hp3.
    pose proof (zlen_nonneg (size_line (cq_last r) (cq_ext r))). pose proof (zlen_nonneg (cq_head r)).
    pose proof (zlen_nonneg (chunks_bytes (cq_chunks r))). lia. }
  eapply reaches_return; [exact Hpos|apply Hx|exact He3| |exact Hlen].
  replace (exec_init x u) with (at_state x u (pstate x) 0 0);
    [eapply reaches_trans; [exact R1|eapply reaches_trans; [exact R2|exact R3]]|].
  unfold exec_init. by destruct Hx as [[[-> _] | ->] _].
Qed.

(** Deciding the hypotheses on given requests. *)
Definition extensionb (l : bytes) : bool :=
  match l with
  | [] => true
  | b :: l => ((b =? #";") || (b =? #" ")) && forallb (fun b => negb (b =? CR)) l
  end.

Definition size_okb (size ext : bytes) (n : Z) : bool :=
  negb (bool_decide (size = [])) && forallb size_digitb size && (hex_value 0 size =? n) && (n <? ULLONG_MAX - 16) &&
  extensionb ext && (zlen (size_line size ext) <=? HTTP_MAX_HEADER_SIZE).

Lemma size_okb_ok size ext n : size_okb size ext n = true -> size_ok size ext n.
Proof.
  unfold size_okb, size_ok. rewrite !andb_true_iff, negb_true_iff, bool_decide_eq_false, Z.eqb_eq, Z.ltb_lt, Z.leb_le.
  intros (((((H1 & H2) & H3) & H4) & H5) & H6). split_and!; try done.
  - apply (forallb_Forall size_digit _ _) in H2; [exact H2|]. apply size_digitb_ok.
  - destruct ext as [|b l]; [done|]. cbn [extensionb] in H5. apply andb_true_iff in H5 as [Hb Hl]. split.
    + apply orb_true_iff in Hb as [Hb|Hb]; apply Z.eqb_eq in Hb; auto.
    + apply (forallb_Forall (fun b => b <> CR) _ _) in Hl; [exact Hl|]. intros b' Hb'. by apply Z.eqb_neq, negb_true_iff.
Qed.

Lemma chunk_okb_ok k : negb (bool_decide (ck_data k = [])) && size_okb (ck_size k) (ck_ext k) (zlen (ck_data k)) = true ->
  chunk_ok k.
Proof. rewrite andb_true_iff, negb_true_iff, bool_decide_eq_false. intros [H1 H2]. split; [exact H1|by apply size_okb_ok]. Qed.

(** Two chunks, a length that is not the body's, and a trailer that closes the connection. *)
Definition demo_chunked : chunked :=
  mk_chunked HTTP_POST (str "/up") [mk_header Length (str "Content-Length") (str "3")]
    (str "Transfer-ENCODING") (str "Chunked") [mk_header Plain (str "Host") (str "h")]
    [mk_chunk (str "00a") (str "; x=1") (str "0123456789"); mk_chunk (str "1") [] (str "!")]
    (str "000") [] [mk_header (Token Close) (str "Connection") (str "close")].

Lemma demo_chunked_ok : chunked_ok demo_chunked.
Proof.
  unfold chunked_ok. split_and!; try done.
  - apply (forallb_Forall header_ok headerb); [exact headerb_ok|vm_compute; reflexivity].
  - split_and!; [|done| |done].
    + apply (forallb_Forall name_byte name_byteb); [exact name_byteb_ok|vm_compute; reflexivity].
    + apply (forallb_Forall value_byte value_byteb); [exact value_byteb_ok|vm_compute; reflexivity].
  - apply (forallb_Forall header_ok headerb); [exact headerb_ok|vm_compute; reflexivity].
  - repeat (apply Forall_cons; split; [apply chunk_okb_ok; vm_compute; reflexivity|]). constructor.
  - apply size_okb_ok. vm_compute. reflexivity.
  - split; [|done]. apply (forallb_Forall header_ok headerb); [exact headerb_ok|vm_compute; reflexivity].
Qed.

Lemma chunked_request_parsed_witness : exists x',
  http_parser_execute (observe demo_log) (cq_bytes demo_chunked) (http_parser_init HTTP_BOTH) []
    = Returned (zlen (cq_bytes demo_chunked)) x'
        [str "/up"; str "Content-Length"; str "3"; str "Transfer-ENCODING"; str "Chunked"; str "Host"; str "h"; str ".";
         str "0123456789"; str "!"; str "Connection"; str "close"] /\ pstate x' = s_dead.
Proof.
  destruct (chunked_request_parsed demo_log demo_chunked (http_parser_init HTTP_BOTH) [] demo_chunked_ok eq_refl)
    as (x' & E & _ & Hs & _); [by split; [right|]|].
  exists x'. split; [exact E|]. rewrite Hs. reflexivity.
Defined.

(** The table of digits gives 128 values for an array of 256: the bytes above 127 are
    digits with the value 0. *)
Example high_byte_is_digit : exists x',
  http_parser_execute (observe demo_log)
    (str "POST / HTTP/1.1" ++ [CR; LF] ++ str "Transfer-Encoding: chunked" ++ [CR; LF; CR; LF] ++
     [200; #"1"; CR; LF; #"A"; CR; LF; 255; CR; LF; CR; LF]) (http_parser_init HTTP_BOTH) []
    = Returned 59 x' [str "/"; str "Transfer-Encoding"; str "chunked"; str "."; str "A"].
Proof. eexists. vm_compute. reflexivity. Qed.
