(* ===== verification/HttpResponse.v ===== *)
(** * Responses

    The bytes of HTTP/1.x responses, with the three ways in which a body ends (by its
    length, at once, or with the connection), and the theorem that
    [http_parser_execute] reads them back. *)

From S2P Require Import Prelude.
From S2P Require Import Words.
From S2P Require Import HttpChars.
From S2P Require Import HttpUrl.
From S2P Require Import HttpState.
From S2P Require Import HttpExec.
From S2P Require Import HttpWp.
From S2P Require Import HttpSafe.
From S2P Require Import HttpRun.
From S2P Require Import HttpMethod.
From S2P Require Import HttpHeaders.
From S2P Require Import HttpLines.
From S2P Require Import HttpRequest.

(** ** The status line *)

(** What follows the status code: nothing, or a space and the reason, which may be empty. *)
Definition status_line (minor : Z) (code : bytes) (reason : option bytes) : bytes :=
  str "HTTP/1." ++ [ #"0" + minor; #" "] ++ code ++ from_option (cons #" ") [] reason ++ [CR; LF].

Definition reason_byte (b : Z) : Prop := b <> CR /\ b <> LF.

Definition status_ok (minor : Z) (code : bytes) (reason : option bytes) : Prop :=
  0 <= minor <= 9 /\ code <> [] /\ Forall digit code /\ dec_value 0 code <= 999 /\
  Forall reason_byte (from_option id [] reason).

(** A parser that waits for a response in state [s]: it is for responses, or it is for
    requests and responses and has to find out. *)
Definition response_start (s : state) (x : http_parser) : Prop :=
  (s = s_start_res /\ type x = HTTP_RESPONSE \/ s = s_start_req_or_res) /\
  perrno x = HPE_OK /\ nread x = 0 /\ method x <> HTTP_CONNECT.

(** The parser at the end of the line. *)
Definition status_read (minor code n : Z) (x : http_parser) : Prop :=
  type x = HTTP_RESPONSE /\ flags x = 0 /\ content_length x = ULLONG_MAX /\ http_major x = 1 /\
  http_minor x = minor /\ status_code x = code /\ perrno x = HPE_OK /\ method x <> HTTP_CONNECT /\ nread x = n.

Definition response_step (s : state) : option (Z * state * (http_parser -> http_parser)) :=
  match s with
  | s_res_HT => Some (#"T", s_res_HTT, id)
  | s_res_HTT => Some (#"P", s_res_HTTP, id)
  | s_res_HTTP => Some (#"/", s_res_first_http_major, id)
  | s_res_first_http_major => Some (#"1", s_res_http_major, set_http_major 1)
  | s_res_http_major => Some (#".", s_res_first_http_minor, id)
  | s_res_http_minor => Some (#" ", s_res_first_status_code, id)
  | s_res_line_almost_done => Some (LF, s_header_field_start, id)
  | _ => None
  end.

Lemma IS_NUM_digit b : digit b -> IS_NUM b = true.
Proof. unfold digit, IS_NUM. intros H. apply andb_true_iff. rewrite !Z.leb_le. lia. Qed.

Section Line.
Context {U : Type} (o : observer U) (data : bytes).
(** What the application looks at when it gets the reason. *)
Context (report : Z -> bytes -> U -> U) (Hreport : forall x b u, ob_status o x b u = report (status_code x) b u).

Definition status_event (code : bytes) (reason : option bytes) (u : U) : U :=
  match reason with
  | Some (b :: l) => report (dec_value 0 code) (b :: l) u
  | _ => u
  end.

Lemma run_response_step s b s' f x u q c0 l :
  response_step s = Some (b, s', f) -> at_pos data q (b :: l) ->
  perrno x = HPE_OK -> 0 <= nread x < HTTP_MAX_HEADER_SIZE ->
  reaches o data (at_state x u s q c0)
    (at_state (f (set_nread (nread x + 1) x)) u s' (q + 1) b) /\ at_pos data (q + 1) l.
Proof.
  intros Hs Hp Hx Hn. apply at_pos_cons in Hp as (Hq & Hc & Hp). split; [|exact Hp].
  destruct s; try discriminate; injection Hs as <- <- <-;
    match goal with |- context [at_state _ _ _ (q + 1) ?b] => header_byte b end;
    unfold case_expect, case_s_res_first_http_major, case_s_res_http_major, case_s_res_http_minor;
    repeat (first [progress wp_obs
      |match goal with |- wp (if ?c then _ else _) _ _ _ =>
         let v := eval vm_compute in c in change c with v end]); obs_done.
Qed.

(** The first two letters, in either start state. *)
Lemma run_ht s x u q c0 l :
  response_start s x -> at_pos data q (#"H" :: #"T" :: l) ->
  exists y, reaches o data (at_state x u s q c0)
    (at_state y (ob_notify o message_begin u) s_res_HT (q + 2) #"T") /\
    at_pos data (q + 2) l /\ type y = HTTP_RESPONSE /\ flags y = 0 /\ content_length y = ULLONG_MAX /\
    perrno y = HPE_OK /\ method y <> HTTP_CONNECT /\ nread y = 2.
Proof.
  intros (Hs & Hx & Hn & Hm) Hp. apply at_pos_cons in Hp as (Hq & Hc & Hp).
  apply at_pos_cons in Hp as (Hq2 & Hc2 & Hp). replace (q + 1 + 1) with (q + 2) in Hp by lia.
  assert (Hn0 : 0 <= nread x < HTTP_MAX_HEADER_SIZE) by (rewrite Hn; done).
  set (x1 := fun s' => set_pstate s' (set_content_length ULLONG_MAX
    (set_flags 0 (set_nread (nread x + 1) x)))).
  assert (R : exists s' y, reaches o data (at_state x u s q c0)
      (at_state (x1 s') (ob_notify o message_begin u) s' (q + 1) #"H") /\
    reaches o data (at_state (x1 s') (ob_notify o message_begin u) s' (q + 1) #"H")
      (at_state y (ob_notify o message_begin u) s_res_HT (q + 1 + 1) #"T") /\
    type y = HTTP_RESPONSE /\ flags y = 0 /\ content_length y = ULLONG_MAX /\
    perrno y = HPE_OK /\ method y <> HTTP_CONNECT /\ nread y = 2).
  { destruct Hs as [[-> Ht] | ->].
    - exists s_res_H, (set_nread (nread (x1 s_res_H) + 1) (x1 s_res_H)). split; [|split].
      + unfold x1. header_byte #"H". unfold case_s_start_res. change (#"H" =? #"H") with true.
        repeat wp_obs. obs_done.
      + assert (He : perrno (x1 s_res_H) = HPE_OK) by exact Hx.
        assert (Hb : 0 <= nread (x1 s_res_H) < HTTP_MAX_HEADER_SIZE) by (simpl; rewrite Hn; done).
        generalize dependent (x1 s_res_H). intros y He Hb.
        header_byte #"T". unfold case_expect. change (negb (#"T" =? #"T")) with false.
        repeat wp_obs. obs_done.
      + simpl. by rewrite Hn.
    - exists s_res_or_resp_H, (set_type HTTP_RESPONSE (set_nread (nread (x1 s_res_or_resp_H) + 1) (x1 s_res_or_resp_H))).
      split; [|split].
      + unfold x1. header_byte #"H". unfold case_s_start_req_or_res.
        change ((#"H" =? CR) || (#"H" =? LF)) with false. change (#"H" =? #"H") with true.
        repeat wp_obs. obs_done.
      + assert (He : perrno (x1 s_res_or_resp_H) = HPE_OK) by exact Hx.
        assert (Hb : 0 <= nread (x1 s_res_or_resp_H) < HTTP_MAX_HEADER_SIZE) by (simpl; rewrite Hn; done).
        generalize dependent (x1 s_res_or_resp_H). intros y He Hb.
        header_byte #"T". unfold case_s_res_or_resp_H. change (#"T" =? #"T") with true.
        repeat wp_obs. obs_done.
      + simpl. by rewrite Hn. }
  destruct R as (s' & y & R1 & R2 & Hy). exists y. split; [|split; [exact Hp|exact Hy]].
  replace (q + 2) with (q + 1 + 1) by lia. eapply reaches_trans; [exact R1|exact R2].
Qed.

Lemma run_minor d x u q c0 :
  digit d -> 0 <= q < zlen data -> znth data q 0 = d -> perrno x = HPE_OK ->
  0 <= nread x < HTTP_MAX_HEADER_SIZE ->
  reaches o data (at_state x u s_res_first_http_minor q c0)
    (at_state (set_http_minor (d - #"0") (set_nread (nread x + 1) x)) u s_res_http_minor (q + 1) d).
Proof.
  intros Hd Hq Hc Hx Hn. header_byte d. unfold case_s_res_first_http_minor. rewrite (IS_NUM_digit d Hd).
  repeat wp_obs. obs_done.
Qed.

(** The digits of the code. *)
Lemma run_code_first d x u q c0 :
  digit d -> 0 <= q < zlen data -> znth data q 0 = d -> perrno x = HPE_OK ->
  0 <= nread x < HTTP_MAX_HEADER_SIZE ->
  reaches o data (at_state x u s_res_first_status_code q c0)
    (at_state (set_status_code (d - #"0") (set_nread (nread x + 1) x)) u s_res_status_code (q + 1) d).
Proof.
  intros Hd Hq Hc Hx Hn. header_byte d. unfold case_s_res_first_status_code. rewrite (IS_NUM_digit d Hd).
  repeat wp_obs. obs_done.
Qed.

Lemma run_code_digit d x u q c0 :
  digit d -> 0 <= q < zlen data -> znth data q 0 = d -> perrno x = HPE_OK ->
  0 <= nread x < HTTP_MAX_HEADER_SIZE -> 0 <= status_code x -> status_code x * 10 + (d - #"0") <= 999 ->
  reaches o data (at_state x u s_res_status_code q c0)
    (at_state (set_status_code (status_code x * 10 + (d - #"0")) (set_nread (nread x + 1) x)) u s_res_status_code (q + 1) d).
Proof.
  intros Hd Hq Hc Hx Hn Hs1 Hs2. assert (Hd' := Hd). unfold digit in Hd'.
  header_byte d. unfold case_s_res_status_code, push_digit. rewrite (IS_NUM_digit d Hd). cbn [negb]. cbv iota.
  do 5 wp_base. rewrite (wrap_small 16 (status_code x * 10)) by lia. rewrite wrap_small by lia.
  wp_base. rewrite (proj2 (Z.ltb_ge _ _) Hs2). repeat wp_obs. obs_done.
Qed.

Lemma run_code_rest l : forall x u q c0,
  at_pos data q l -> Forall digit l -> perrno x = HPE_OK -> 0 <= nread x ->
  nread x + zlen l <= HTTP_MAX_HEADER_SIZE -> 0 <= status_code x -> dec_value (status_code x) l <= 999 ->
  exists c, reaches o data (at_state x u s_res_status_code q c0)
    (at_state (set_status_code (dec_value (status_code x) l) (set_nread (nread x + zlen l) x)) u
       s_res_status_code (q + zlen l) c).
Proof.
  induction l as [|d l IH]; intros x u q c0 Hp Hl Hx Hn1 Hn2 Hs Hmax.
  - exists c0. change (zlen []) with 0. rewrite !Z.add_0_r. destruct x. apply reaches_refl.
  - apply at_pos_cons in Hp as (Hq & Hc & Hp). apply Forall_cons in Hl as [Hd Hl].
    change (dec_value (status_code x) (d :: l)) with (dec_value (status_code x * 10 + (d - #"0")) l) in *.
    rewrite zlen_cons in *. pose proof (zlen_nonneg l). assert (Hd' := Hd). unfold digit in Hd'.
    pose proof (dec_value_ge l (status_code x * 10 + (d - #"0")) ltac:(lia) Hl).
    assert (R1 := run_code_digit d x u q c0 Hd Hq Hc Hx ltac:(lia) Hs ltac:(lia)).
    match type of R1 with reaches _ _ _ (at_state ?y _ _ _ _) => set (x1 := y) in R1 end.
    destruct (IH x1 u (q + 1) d Hp Hl Hx) as [c R2]; [simpl; lia|simpl; lia|simpl; lia|exact Hmax|].
    exists c. eapply reaches_trans; [exact R1|].
    replace (q + (1 + zlen l)) with (q + 1 + zlen l) by lia.
    replace (nread x + (1 + zlen l)) with (nread x1 + zlen l) by (simpl; lia). exact R2.
Qed.

Lemma run_code code x u q c0 :
  code <> [] -> at_pos data q code -> Forall digit code -> perrno x = HPE_OK -> 0 <= nread x ->
  nread x + zlen code <= HTTP_MAX_HEADER_SIZE -> dec_value 0 code <= 999 ->
  exists c, reaches o data (at_state x u s_res_first_status_code q c0)
    (at_state (set_status_code (dec_value 0 code) (set_nread (nread x + zlen code) x)) u
       s_res_status_code (q + zlen code) c).
Proof.
  intros Hne Hp Hl Hx Hn1 Hn2 Hmax. destruct code as [|d l]; [done|].
  apply at_pos_cons in Hp as (Hq & Hc & Hp). apply Forall_cons in Hl as [Hd Hl].
  change (dec_value 0 (d :: l)) with (dec_value (d - #"0") l) in *.
  rewrite zlen_cons in *. pose proof (zlen_nonneg l). assert (Hd' := Hd). unfold digit in Hd'.
  assert (R1 := run_code_first d x u q c0 Hd Hq Hc Hx ltac:(lia)).
  match type of R1 with reaches _ _ _ (at_state ?y _ _ _ _) => set (x1 := y) in R1 end.
  destruct (run_code_rest l x1 u (q + 1) d Hp Hl Hx) as [c R2]; [simpl; lia|simpl; lia|simpl; lia|exact Hmax|].
  exists c. eapply reaches_trans; [exact R1|].
  replace (q + (1 + zlen l)) with (q + 1 + zlen l) by lia.
  replace (nread x + (1 + zlen l)) with (nread x1 + zlen l) by (simpl; lia). exact R2.
Qed.

(** The reason, up to the CR. *)
Lemma wp_status_obs len er Q X m (e : exec U) :
  perrno (prs e) = HPE_OK -> get_mark status e = Some m -> in_data data m (len m) = true ->
  Q tt (set_mark status None (set_usr (report (status_code (prs e)) (slice data m (len m)) (usr e))
                               (set_prs (set_pstate (p_state e) (prs e)) e))) ->
  wp (CALLBACK_DATA_ (observe o) data status len er) Q X e.
Proof.
  intros He Hm Hin HQ. destruct e as [[]]. simpl in *. subst.
  unfold wp, CALLBACK_DATA_, run_callback, assert_no_errno, assert, call, bind, gets, modify, ret. simpl.
  rewrite Hin. simpl. by rewrite Hreport.
Qed.

Lemma run_reason_char b x u q c0 m :
  reason_byte b -> 0 <= q < zlen data -> znth data q 0 = b -> perrno x = HPE_OK ->
  0 <= nread x < HTTP_MAX_HEADER_SIZE ->
  reaches o data (mk_exec x u s_res_status q c0 None None None None (Some m))
    (mk_exec (set_nread (nread x + 1) x) u s_res_status (q + 1) b None None None None (Some m)).
Proof.
  intros [Hcr Hlf] Hq Hc Hx Hn. header_byte b. unfold case_s_res_status.
  rewrite (proj2 (Z.eqb_neq _ _) Hcr), (proj2 (Z.eqb_neq _ _) Hlf). repeat wp_obs. obs_done.
Qed.

Lemma run_reason_rest l : forall x u q c0 m,
  at_pos data q (l ++ [CR]) -> Forall reason_byte l -> perrno x = HPE_OK -> 0 <= nread x ->
  nread x + zlen l + 1 <= HTTP_MAX_HEADER_SIZE -> 0 <= m <= q ->
  reaches o data (mk_exec x u s_res_status q c0 None None None None (Some m))
    (at_state (set_pstate s_res_line_almost_done (set_nread (nread x + zlen l + 1) x))
       (report (status_code x) (slice data m (q + zlen l - m)) u) s_res_line_almost_done (q + zlen l + 1) CR).
Proof.
  induction l as [|b l IH]; intros x u q c0 m Hp Hl Hx Hn1 Hn2 Hm; cbn [app] in Hp;
    apply at_pos_cons in Hp as (Hq & Hc & Hp).
  - change (zlen []) with 0 in *. rewrite !Z.add_0_r in *. header_byte CR. unfold case_s_res_status.
    change (CR =? CR) with true. cbv iota. repeat wp_obs. eapply wp_status_obs; [norm; assumption|reflexivity|apply in_data_true; norm; lia|].
    norm. obs_done.
  - apply Forall_cons in Hl as [Hb Hl]. rewrite zlen_cons in *. pose proof (zlen_nonneg l).
    eapply reaches_trans; [apply (run_reason_char b); try done; lia|].
    specialize (IH (set_nread (nread x + 1) x) u (q + 1) b m Hp Hl Hx ltac:(simpl; lia) ltac:(simpl; lia) ltac:(lia)).
    replace (nread x + (1 + zlen l) + 1) with (nread x + 1 + zlen l + 1) by lia.
    replace (q + (1 + zlen l)) with (q + 1 + zlen l) by lia. exact IH.
Qed.

(** What follows the code, up to the CR. *)
Definition line_part (x : http_parser) :=
  (type x, flags x, content_length x, http_major x, http_minor x, status_code x, perrno x, method x).

Lemma run_reason reason x u q c0 code :
  at_pos data q (from_option (cons #" ") [] reason ++ [CR]) -> Forall reason_byte (from_option id [] reason) ->
  perrno x = HPE_OK -> 0 <= nread x -> status_code x = dec_value 0 code ->
  let n := zlen (from_option (cons #" ") [] reason) in
  nread x + n + 1 <= HTTP_MAX_HEADER_SIZE ->
  exists y, reaches o data (at_state x u s_res_status_code q c0)
    (at_state y (status_event code reason u) s_res_line_almost_done (q + n + 1) CR) /\
    line_part y = line_part x /\ nread y = nread x + n + 1.
Proof.
  intros Hp Hl Hx Hn1 Hcode n Hn2. destruct reason as [l|]; cbn [from_option id] in *.
  2: { change n with 0. change (zlen []) with 0 in *. rewrite !Z.add_0_r.
    apply at_pos_cons in Hp as (Hq & Hc & _). exists (set_nread (nread x + 1) x). split; [|done].
    header_byte CR. unfold case_s_res_status_code.
    change (IS_NUM CR) with false. change (CR =? #" ") with false. change (CR =? CR) with true.
    cbn [negb]. cbv iota. repeat wp_obs. obs_done. }
  subst n. cbn [app] in Hp. apply at_pos_cons in Hp as (Hq & Hc & Hp). rewrite zlen_cons in *. pose proof (zlen_nonneg l).
  assert (R1 : reaches o data (at_state x u s_res_status_code q c0)
    (at_state (set_nread (nread x + 1) x) u s_res_status_start (q + 1) #" ")).
  { header_byte #" ". unfold case_s_res_status_code. change (IS_NUM #" ") with false.
    change (#" " =? #" ") with true. cbn [negb]. cbv iota. repeat wp_obs. obs_done. }
  set (x1 := set_nread (nread x + 1) x) in *.
  assert (He : perrno x1 = HPE_OK) by exact Hx. assert (Hb : 0 <= nread x1 < HTTP_MAX_HEADER_SIZE) by (simpl; lia).
  assert (Hn : nread x1 = nread x + 1) by done. assert (Hs : status_code x1 = dec_value 0 code) by exact Hcode.
  change (line_part x) with (line_part x1). clearbody x1.
  destruct l as [|b l].
  - exists (set_nread (nread x1 + 1) x1). change (zlen []) with 0. apply at_pos_cons in Hp as (Hq2 & Hc2 & _).
    split; [|split; [done|simpl; lia]]. eapply reaches_trans; [exact R1|]. cbn [status_event].
    replace (q + (1 + 0) + 1) with (q + 1 + 1) by lia.
    header_byte CR. unfold case_s_res_status_start. change (CR =? CR) with true.
    cbv iota. repeat wp_obs. obs_done.
  - destruct (at_pos_app _ _ _ _ Hp) as [Hps _]. apply at_pos_slice in Hps.
    cbn [app] in Hp. apply at_pos_cons in Hp as (Hq2 & Hc2 & Hp). apply Forall_cons in Hl as [[Hcr Hlf] Hl].
    rewrite zlen_cons in *. pose proof (zlen_nonneg l).
    assert (R2 : reaches o data (at_state x1 u s_res_status_start (q + 1) #" ")
      (mk_exec (set_index 0 (set_nread (nread x1 + 1) x1)) u s_res_status (q + 1 + 1) b None None None None (Some (q + 1)))).
    { header_byte b. unfold case_s_res_status_start.
      rewrite (proj2 (Z.eqb_neq _ _) Hcr), (proj2 (Z.eqb_neq _ _) Hlf). repeat wp_obs. obs_done. }
    set (x2 := set_index 0 (set_nread (nread x1 + 1) x1)) in *.
    assert (R3 := run_reason_rest l x2 u (q + 1 + 1) b (q + 1) Hp Hl He ltac:(simpl; lia) ltac:(simpl; lia) ltac:(lia)).
    replace (q + 1 + 1 + zlen l - (q + 1)) with (1 + zlen l) in R3 by lia. rewrite Hps in R3.
    change (status_code x2) with (status_code x1) in R3. rewrite Hs in R3. cbn [status_event].
    replace (q + (1 + (1 + zlen l)) + 1) with (q + 1 + 1 + zlen l + 1) by lia.
    exists (set_pstate s_res_line_almost_done (set_nread (nread x2 + zlen l + 1) x2)).
    split; [|split; [done|simpl; lia]].
    eapply reaches_trans; [exact R1|]. eapply reaches_trans; [exact R2|exact R3].
Qed.

(** The whole line. *)
Lemma zlen_status_line minor code reason :
  zlen (status_line minor code reason) = 9 + zlen code + zlen (from_option (cons #" ") [] reason) + 2.
Proof. unfold status_line. rewrite !zlen_app. change (zlen (str "HTTP/1.")) with 7. change (zlen [CR; LF]) with 2.
  change (zlen [ #"0" + minor; #" "]) with 2. lia. Qed.

Ltac response_byte Hp :=
  match goal with |- reaches _ _ (at_state ?y ?v ?s ?r ?c) _ =>
    match eval cbv in (response_step s) with
    | Some (?b, ?s', ?f) =>
      match type of Hp with at_pos _ _ (_ :: ?l) =>
        let R := fresh "R" in
        assert (R := run_response_step s b s' f y v r c l eq_refl Hp eq_refl ltac:(norm; lia));
        clear Hp; destruct R as [R Hp]; eapply reaches_trans; [exact R|clear R; norm]
      end
    end
  end.

(** The rest of the version, with the space behind it. *)
Lemma run_response_version minor x u q c0 :
  at_pos data q (str "TP/1." ++ [ #"0" + minor; #" "]) -> 0 <= minor <= 9 ->
  perrno x = HPE_OK -> 0 <= nread x -> nread x + 7 <= HTTP_MAX_HEADER_SIZE ->
  reaches o data (at_state x u s_res_HT q c0)
    (at_state (set_http_minor minor (set_http_major 1 (set_nread (nread x + 7) x))) u s_res_first_status_code (q + 7) #" ").
Proof.
  intros Hp Hm Hx Hn1 Hn2. cbn [str app] in Hp.
  destruct x as [ty fl ps hs ix nr cl ma mi sc me pe up]. norm. subst pe.
  do 5 response_byte Hp.
  assert (Hp' := Hp). apply at_pos_cons in Hp' as (Hq & Hc & Hp').
  eapply reaches_trans; [apply (run_minor (#"0" + minor)); [unfold digit; chars; lia|exact Hq|exact Hc|done|norm; lia]|].
  clear Hp Hq Hc. rename Hp' into Hp. norm. response_byte Hp.
  replace (#"0" + minor - #"0") with minor by lia.
  replace (nr + 7) with (nr + 1 + 1 + 1 + 1 + 1 + 1 + 1) by lia.
  replace (q + 7) with (q + 1 + 1 + 1 + 1 + 1 + 1 + 1) by lia.
  apply reaches_refl.
Qed.

Lemma run_status_line minor code reason s x u q c0 :
  response_start s x -> status_ok minor code reason -> at_pos data q (status_line minor code reason) ->
  let n := zlen (status_line minor code reason) in n <= HTTP_MAX_HEADER_SIZE ->
  exists y, reaches o data (at_state x u s q c0)
    (at_state y (status_event code reason (ob_notify o message_begin u)) s_header_field_start (q + n) LF) /\
    status_read minor (dec_value 0 code) n y.
Proof.
  intros Hs (Hmin & Hne & Hd & Hmax & Hr) Hp n Hn. unfold n in *. rewrite zlen_status_line in *. clear n.
  set (k := zlen (from_option (cons #" ") [] reason)) in *. pose proof (zlen_nonneg code).
  assert (0 <= k) by apply zlen_nonneg. set (u1 := ob_notify o message_begin u).
  unfold status_line in Hp. change (str "HTTP/1." ++ ?r) with (#"H" :: #"T" :: str "TP/1." ++ r) in Hp.
  destruct (run_ht s x u q c0 _ Hs Hp) as (y1 & R1 & Hp1 & B1 & B2 & B3 & B4 & B5 & B6).
  rewrite (app_assoc (str "TP/1.")) in Hp1. apply at_pos_app in Hp1 as [Hp1 Hp2].
  change (zlen (str "TP/1." ++ _)) with 7 in Hp2.
  apply at_pos_app in Hp2 as [Hp2 Hp3]. change [CR; LF] with ([CR] ++ [LF]) in Hp3.
  rewrite app_assoc in Hp3. apply at_pos_app in Hp3 as [Hp3 Hp4].
  rewrite zlen_app in Hp4. change (zlen [CR]) with 1 in Hp4. fold k in Hp4.
  assert (R2 := run_response_version minor y1 u1 (q + 2) #"T" Hp1 Hmin B4 ltac:(lia) ltac:(lia)).
  match type of R2 with reaches _ _ _ (at_state ?z _ _ _ _) => set (y2 := z) in R2 end.
  destruct (run_code code y2 u1 (q + 2 + 7) #" " Hne Hp2 Hd B4 ltac:(simpl; lia) ltac:(simpl; lia) Hmax) as [c3 R3].
  match type of R3 with reaches _ _ _ (at_state ?z _ _ _ _) => set (y3 := z) in R3 end.
  destruct (run_reason reason y3 u1 (q + 2 + 7 + zlen code) c3 code Hp3 Hr B4 ltac:(simpl; lia) eq_refl ltac:(fold k; simpl; lia))
    as (y4 & R4 & E4 & N4). fold k in R4, N4.
  injection E4 as F1 F2 F3 F4 F5 F6 F7 F8.
  replace (q + 2 + 7 + zlen code + (k + 1)) with (q + 2 + 7 + zlen code + k + 1) in Hp4 by lia.
  destruct (run_response_step s_res_line_almost_done LF _ id y4 (status_event code reason u1) _ CR [] eq_refl Hp4
    ltac:(by rewrite F7) ltac:(simpl in N4; lia)) as [R5 _].
  exists (set_nread (nread y4 + 1) y4). split.
  - replace (q + (9 + zlen code + k + 2)) with (q + 2 + 7 + zlen code + k + 1 + 1) by lia.
    eapply reaches_trans; [exact R1|]. eapply reaches_trans; [exact R2|]. eapply reaches_trans; [exact R3|].
    eapply reaches_trans; [exact R4|exact R5].
  - unfold status_read. simpl. simpl in N4. split_and!; try congruence. lia.
Qed.
End Line.

(** ** The end of the headers *)

(** [p_skip]: the response answers a HEAD, and the application says so. *)
Record response := mk_response {
  p_minor : Z; p_code : bytes; p_reason : option bytes; p_headers : list header; p_body : bytes; p_skip : bool }.

Definition code_of (r : response) : Z := dec_value 0 (p_code r).
Definition p_flags (r : response) : Z := headers_flags (p_headers r) 0.
Definition p_length (r : response) : Z := headers_length (p_headers r) ULLONG_MAX.

(** The codes of responses without a body. *)
Definition bodiless (code : Z) : bool := (code / 100 =? 1) || (code =? 204) || (code =? 304).

(** The message ends with its headers; the body ends with the connection. *)
Definition ends_here (r : response) : bool :=
  p_skip r || (p_length r =? 0) || ((p_length r =? ULLONG_MAX) && bodiless (code_of r)).
Definition until_close (r : response) : bool :=
  negb (p_skip r) && (p_length r =? ULLONG_MAX) && negb (bodiless (code_of r)).

(** The connection stays open: asked for with HTTP/1.0, not refused with a later one. *)
Definition persistent (r : response) : bool :=
  if 1 <=? p_minor r then negb (closes (p_flags r)) else has_flag (p_flags r) F_CONNECTION_KEEP_ALIVE.

Definition next_response (r : response) : state := if persistent r then s_start_res else s_dead.

(** The parser behind the headers. *)
Definition response_headers (r : response) (x : http_parser) : Prop :=
  type x = HTTP_RESPONSE /\ flags x = p_flags r /\ content_length x = p_length r /\
  http_major x = 1 /\ http_minor x = p_minor r /\ status_code x = code_of r /\ perrno x = HPE_OK /\
  method x <> HTTP_CONNECT.

Definition response_flags (r : response) (fl : Z) : Z := if p_skip r then Z.lor fl F_SKIPBODY else fl.

Lemma p_flags_body r : Z.land (p_flags r) body_flags = 0.
Proof. unfold p_flags. rewrite headers_flags_body. reflexivity. Qed.

Lemma has_flag_other fl g f : Z.land g f = 0 -> has_flag (Z.lor fl g) f = has_flag fl f.
Proof. intros H. unfold has_flag. by rewrite Z.land_lor_distr_l, H, Z.lor_0_r. Qed.

Lemma response_flags_has r f : Z.land F_SKIPBODY f = 0 -> has_flag (response_flags r (p_flags r)) f = has_flag (p_flags r) f.
Proof. intros H. unfold response_flags. destruct (p_skip r); [by apply has_flag_other|done]. Qed.

Lemma response_flags_skip r : has_flag (response_flags r (p_flags r)) F_SKIPBODY = p_skip r.
Proof.
  pose proof (no_body_flag _ F_SKIPBODY (p_flags_body r) eq_refl) as H. unfold response_flags.
  destruct (p_skip r); [|exact H]. unfold has_flag in *. rewrite Z.land_lor_distr_l.
  apply negb_false_iff, Z.eqb_eq in H. rewrite H. reflexivity.
Qed.

(** What the code decides of a response that is not read until the connection ends. *)
Lemma response_next r x :
  type x = HTTP_RESPONSE -> http_major x = 1 -> http_minor x = p_minor r -> 0 <= p_minor r ->
  flags x = response_flags r (p_flags r) -> http_message_needs_eof x = false -> NEW_MESSAGE x = next_response r.
Proof.
  intros Ht Hma Hmi Hm Hf He. unfold NEW_MESSAGE, http_should_keep_alive, start_state, next_response, persistent.
  rewrite Hma, Hmi, Hf, He, Ht, !response_flags_has by done. fold (closes (p_flags r)).
  change (0 <? 1) with true. cbn [andb negb]. rewrite decide_False by done.
  replace (0 <? p_minor r) with (1 <=? p_minor r) by lia.
  by destruct (1 <=? p_minor r), (closes (p_flags r)), (has_flag (p_flags r) F_CONNECTION_KEEP_ALIVE).
Qed.

Lemma response_needs_eof r x :
  type x = HTTP_RESPONSE -> status_code x = code_of r -> flags x = response_flags r (p_flags r) ->
  http_message_needs_eof x = negb (bodiless (code_of r)) && negb (p_skip r) && (content_length x =? ULLONG_MAX).
Proof.
  intros Ht Hs Hf. unfold http_message_needs_eof, bodiless. rewrite decide_False by (by rewrite Ht).
  rewrite Hs, Hf, response_flags_skip, response_flags_has by done.
  rewrite (no_body_flag _ F_CHUNKED (p_flags_body r) eq_refl).
  by destruct (code_of r / 100 =? 1), (code_of r =? 204), (code_of r =? 304), (p_skip r), (content_length x =? ULLONG_MAX).
Qed.

Section Headers.
Context {U : Type} (o : observer U) (data : bytes).

(** The parser when the application has seen the headers. *)
Definition headers_seen (r : response) (x : http_parser) : Prop :=
  type x = HTTP_RESPONSE /\ flags x = response_flags r (p_flags r) /\ content_length x = p_length r /\
  http_major x = 1 /\ http_minor x = p_minor r /\ status_code x = code_of r /\ perrno x = HPE_OK /\
  upgrade x = false /\ method x <> HTTP_CONNECT.

(** The decision on the body. *)
Definition decided (r : response) (x : http_parser) (v : U) (q : Z) : exec U :=
  if ends_here r
  then at_state (set_pstate (next_response r) (set_nread 0 x)) (ob_notify o message_complete v) (next_response r) q LF
  else at_state (set_nread 0 x) v (if until_close r then s_body_identity_eof else s_body_identity) q LF.

Lemma wp_headers_done n r x v q :
  headers_seen r x -> 0 <= p_minor r ->
  wp (run_switch (observe o) data (S n))
    (fun _ e => q <= p e /\ decided r x v (q + 1) = set_p (p e + 1) e) (fun _ _ => False)
    (at_state x v s_headers_done q LF).
Proof.
  intros (Ht & Hf & Hcl & Hma & Hmi & Hst & He & Hup & Hm) Hmin.
  pose proof (response_next r (set_nread 0 x) Ht Hma Hmi Hmin Hf) as Hnext.
  pose proof (response_needs_eof r (set_nread 0 x) Ht Hst Hf) as Heof.
  change (content_length (set_nread 0 x)) with (content_length x) in Heof. rewrite Hcl in Heof.
  unfold decided, ends_here, until_close. unfold at_state at 3.
  apply wp_switch. unfold switch_state. do 4 wp_base. unfold case_s_headers_done.
  change (negb (LF =? LF)) with false. repeat wp_obs. rewrite Hup, Hf, Hcl. cbn [andb].
  rewrite response_flags_skip, response_flags_has, (no_body_flag _ F_CHUNKED (p_flags_body r) eq_refl) by done.
  cbv iota. rewrite Heof. destruct (p_skip r); cbn [negb orb andb] in *; cbv iota.
  { repeat wp_obs. rewrite andb_false_r in Heof. rewrite (Hnext Heof). repeat wp_obs. obs_done. }
  destruct (p_length r =? 0) eqn:E0; cbn [negb orb andb]; cbv iota.
  { apply Z.eqb_eq in E0. rewrite E0, andb_false_r in Heof. repeat wp_obs. rewrite (Hnext Heof). repeat wp_obs. obs_done. }
  destruct (p_length r =? ULLONG_MAX) eqn:E1; cbn [negb orb andb]; cbv iota.
  2: { repeat wp_obs. obs_done. }
  destruct (bodiless (code_of r)); cbn [negb orb andb] in *; cbv iota.
  - repeat wp_obs. rewrite (Hnext Heof). repeat wp_obs. obs_done.
  - repeat wp_obs. obs_done.
Qed.

(** The LF of the empty line, up to the decision on the body. *)
Definition shown (r : response) (x : http_parser) : http_parser :=
  set_flags (response_flags r (flags x)) (set_upgrade false (set_nread (nread x + 1) x)).

Lemma run_response_lf r x u q c0 :
  response_headers r x -> 0 <= p_minor r -> upgrades (p_flags r) = false ->
  (ob_headers o u).1 = (if p_skip r then 1 else 0) -> 0 <= q < zlen data -> znth data q 0 = LF ->
  0 <= nread x < HTTP_MAX_HEADER_SIZE ->
  reaches o data (at_state x u s_headers_almost_done q c0) (decided r (shown r x) (ob_headers o u).2 (q + 1)) /\
  headers_seen r (shown r x).
Proof.
  intros (Ht & Hf & Hcl & Hma & Hmi & Hst & He & Hm) Hmin Hnu Ho Hq Hc Hn.
  assert (Hup : upgrade_of x = false)
    by (unfold upgrade_of; rewrite bool_decide_eq_false_2, orb_false_r, Hf by done; exact Hnu).
  assert (Hseen : headers_seen r (shown r x)) by (unfold headers_seen, shown; simpl; rewrite Hf; split_and!; done).
  split; [|exact Hseen]. pose proof (fun n => wp_headers_done n r (shown r x) (ob_headers o u).2 q Hseen Hmin) as Hd.
  unfold shown in *. unfold response_flags at 2 in Hd.
  match type of Hd with forall n, wp _ (fun _ e => _ /\ ?t = _) _ _ => remember t as target eqn:Etarget; clear Etarget end.
  header_byte LF. unfold case_s_headers_almost_done. change (negb (LF =? LF)) with false.
  repeat wp_obs. rewrite Hf, (no_body_flag _ F_TRAILING (p_flags_body r) eq_refl). repeat wp_obs.
  change (on_headers_complete (observe o)) with
    (Some (fun x u => let '(r, u') := ob_headers o u in (r, x, u')) : option (http_cb U)).
  cbv iota. apply wp_bind, wp_headers_cb. norm. rewrite Ho.
  change (upgrade_of (set_nread (nread x + 1) x)) with (upgrade_of x). rewrite Hup.
  destruct (p_skip r).
  - change (1 =? 0) with false. change (1 =? 1) with true. repeat wp_obs.
    rewrite decide_True by exact He. repeat wp_obs. apply Hd.
  - change (0 =? 0) with true. repeat wp_obs. rewrite decide_True by exact He. repeat wp_obs.
    specialize (Hd 6%nat). destruct x. apply Hd.
Qed.

(** ** The body *)

Definition body_event (b : bytes) (u : U) : U := match b with [] => u | _ => ob_data o body b u end.

(** A body that ends with the connection takes all the bytes that are there. *)
Lemma run_body_eof b x v q c0 :
  perrno x = HPE_OK -> at_pos data q b -> q + zlen b = zlen data ->
  exists e e', reaches o data (at_state x v s_body_identity_eof q c0) e /\ p e = zlen data /\
    exec_end (observe o) data e = Exit (XReturn (zlen data)) e' /\
    prs e' = set_pstate s_body_identity_eof x /\ usr e' = body_event b v.
Proof.
  intros He Hp Hend. destruct b as [|b0 l].
  { change (zlen []) with 0 in Hend. exists (at_state x v s_body_identity_eof q c0).
    eexists. split; [apply reaches_refl|]. split; [simpl; lia|]. split; [by apply exec_end_unmarked|done]. }
  set (b := b0 :: l) in *. pose proof (at_pos_slice _ _ _ Hp) as Hs. pose proof (at_pos_len _ _ _ Hp) as [Hq _].
  assert (0 < zlen b) by (unfold b; rewrite zlen_cons; pose proof (zlen_nonneg l); lia).
  set (e := mk_exec x v s_body_identity_eof (zlen data) (znth data q 0) None None None (Some q) None).
  set (e' := at_state (set_pstate s_body_identity_eof x) (ob_data o body b v) s_body_identity_eof (zlen data) (znth data q 0)).
  exists e, e'. split; [|split; [done|split; [|done]]].
  - assert (R : reaches o data (at_state x v s_body_identity_eof q c0) (set_p (zlen data - 1 + 1) e)).
    { unfold at_state. apply reaches_wp; [norm; lia|].
      apply (wp_byte_body _ _ (znth data q 0)); [reflexivity|reflexivity|].
      apply wp_switch. unfold switch_state. do 4 wp_base. norm. unfold case_s_body_identity_eof.
      repeat wp_obs. split; [lia|done]. }
    replace (zlen data - 1 + 1) with (zlen data) in R by lia. exact R.
  - enough (H' : wp (exec_end (observe o) data) (fun _ _ => False)
      (fun z e1 => z = XReturn (zlen data) /\ e1 = e') e).
    { unfold wp in H'. destruct (exec_end (observe o) data e); [done|]. by destruct H' as [-> ->]. }
    unfold exec_end, assert. do 3 wp_base.
    match goal with |- wp (if ?b then _ else _) _ _ _ => change b with true end. cbv iota. wp_base.
    do 3 (apply wp_bind; unfold CALLBACK_DATA_NOADVANCE; do 2 wp_base; apply wp_data_none; [done|done|]).
    apply wp_bind. unfold CALLBACK_DATA_NOADVANCE. do 2 wp_base.
    eapply wp_data_obs; [discriminate|exact He|reflexivity|apply in_data_true; unfold e; norm; lia|]. norm.
    unfold e. norm. replace (zlen data - q) with (zlen b) by lia. rewrite Hs.
    apply wp_bind. do 2 wp_base. apply wp_data_none; [exact He|done|]. by repeat wp_base.
Qed.

(** The end of the connection. *)
Lemma execute_eof x u :
  perrno x = HPE_OK -> pstate x = s_body_identity_eof ->
  http_parser_execute (observe o) [] x u = Returned 0 x (ob_notify o message_complete u).
Proof.
  intros He Hs. unfold http_parser_execute. rewrite bool_decide_eq_true_2 by done. cbn [negb].
  change (zlen [] =? 0) with true. cbv iota. unfold exec_init. rewrite Hs.
  destruct x as [ty fl ps hs ix nr cl ma mi sc me pe up]. norm. by subst.
Qed.
End Headers.

(** ** Responses *)

Definition line_of (r : response) : bytes := status_line (p_minor r) (p_code r) (p_reason r).
Definition response_head (r : response) : bytes := line_of r ++ header_bytes (p_headers r) ++ [CR; LF].
Definition response_bytes (r : response) : bytes := response_head r ++ p_body r.

(** Where the body ends is known from the code, the length and the application. A code
    without a body is not sent with a length (other than 0), unless the response answers a HEAD: the code of the
    parser would read a body ([not_modified_has_body]). *)
Definition response_ok (r : response) : Prop :=
  status_ok (p_minor r) (p_code r) (p_reason r) /\ Forall header_ok (p_headers r) /\
  upgrades (p_flags r) = false /\ zlen (response_head r) <= HTTP_MAX_HEADER_SIZE /\
  (bodiless (code_of r) = true -> ends_here r = true) /\
  (if ends_here r then p_body r = []
   else until_close r = true \/ zlen (p_body r) = p_length r /\ p_length r < ULLONG_MAX).

Section Responses.
Context {U : Type} (o : observer U) (data : bytes).
Context (report : Z -> bytes -> U -> U) (Hreport : forall x b u, ob_status o x b u = report (status_code x) b u).

(** What the application sees of a response up to its headers, and of all of it. *)
Definition response_head_events (r : response) (u : U) : U :=
  headers_events o (p_headers r) (status_event report (p_code r) (p_reason r) (ob_notify o message_begin u)).

Definition response_events (r : response) (u : U) : U :=
  let v := body_event o (p_body r) (ob_headers o (response_head_events r u)).2 in
  if until_close r then v else ob_notify o message_complete v.

(** The application says that there is no body exactly when there is none because of a HEAD. *)
Definition answers (r : response) (u : U) : Prop :=
  (ob_headers o (response_head_events r u)).1 = if p_skip r then 1 else 0.

(** From the first byte to the decision on the body. *)
Lemma run_response_head r s x u q c0 :
  response_ok r -> answers r u -> response_start s x -> at_pos data q (response_head r) ->
  exists y, reaches o data (at_state x u s q c0)
    (decided o r y (ob_headers o (response_head_events r u)).2 (q + zlen (response_head r))) /\ headers_seen r y.
Proof.
  intros (Hst & Hh & Hnu & Hlen & _ & _) Ho Hx Hp. unfold response_head in *.
  apply at_pos_app in Hp as [Hp1 Hp]. apply at_pos_app in Hp as [Hp2 Hp].
  apply at_pos_cons in Hp as (Hq3 & Hc3 & Hp). apply at_pos_cons in Hp as (Hq4 & Hc4 & _).
  rewrite !zlen_app in *. change (zlen [CR; LF]) with 2 in *.
  pose proof (zlen_nonneg (line_of r)). pose proof (zlen_nonneg (header_bytes (p_headers r))).
  destruct (run_status_line o data report Hreport (p_minor r) (p_code r) (p_reason r) s x u q c0 Hx Hst Hp1)
    as (x1 & R1 & B1 & B2 & B3 & B4 & B5 & B6 & B7 & B8 & B9); [fold (line_of r); lia|]. fold (line_of r) in R1, B9.
  set (u1 := status_event _ _ _ _) in R1.
  destruct (run_headers o data (p_headers r) s_header_field_start x1 u1 _ LF (or_introl eq_refl) Hh Hp2 B7 ltac:(lia) ltac:(lia))
    as (s2 & x2 & c2 & R2 & Hs2 & (Hf2 & C1 & C2 & C3 & C4 & C5 & C6 & C7 & C8 & C9) & Hn2).
  unfold line_flags at 2 in Hf2. rewrite B2 in Hf2. fold (p_flags r) in Hf2. rewrite B3 in C3. fold (p_length r) in C3.
  assert (R3 := run_blank_cr o data s2 x2 (response_head_events r u) _ c2 Hs2 Hq3 Hc3 ltac:(by rewrite C7) ltac:(lia)).
  set (x3 := set_flags _ _) in R3.
  assert (Hx3 : response_headers r x3) by (unfold response_headers, code_of, x3; simpl; split_and!; congruence).
  destruct (run_response_lf o data r x3 (response_head_events r u) _ CR Hx3 ltac:(apply Hst) Hnu Ho Hq4 Hc4 ltac:(simpl; lia))
    as [R4 Hseen].
  exists (shown r x3). split; [|exact Hseen].
  replace (q + (zlen (line_of r) + (zlen (header_bytes (p_headers r)) + 2))) with
    (q + zlen (line_of r) + zlen (header_bytes (p_headers r)) + 1 + 1) by lia.
  eapply reaches_trans; [exact R1|]. eapply reaches_trans; [exact R2|]. eapply reaches_trans; [exact R3|exact R4].
Qed.

(** A response that ends before the connection. *)
Lemma run_response r s x u q c0 :
  response_ok r -> until_close r = false -> answers r u -> response_start s x -> at_pos data q (response_bytes r) ->
  exists y c, reaches o data (at_state x u s q c0)
    (at_state y (response_events r u) (next_response r) (q + zlen (response_bytes r)) c) /\ response_start s_start_res y.
Proof.
  intros Hr Huc Ho Hx Hp. unfold response_bytes in *. apply at_pos_app in Hp as [Hp1 Hp2]. rewrite zlen_app.
  destruct (run_response_head r s x u q c0 Hr Ho Hx Hp1) as (y & R1 & Hseen).
  destruct Hr as ((Hmin & _) & _ & _ & _ & _ & Hb). unfold response_events. rewrite Huc in *.
  set (v := (ob_headers o (response_head_events r u)).2) in *. unfold decided in R1. rewrite Huc in R1.
  destruct Hseen as (Ht & Hf & Hcl & Hma & Hmi & Hst & He & Hup & Hm).
  destruct (ends_here r) eqn:Eh.
  - rewrite Hb. change (zlen []) with 0. rewrite Z.add_0_r. eexists _, _. split; [exact R1|].
    split; [by left|done].
  - destruct Hb as [|[Hlen Hmax]]; [done|]. unfold ends_here in Eh. rewrite !orb_false_iff in Eh. destruct Eh as [[Hk H0] _].
    assert (Hne : p_body r <> []) by (intros E; rewrite E in Hlen; rewrite <- Hlen in H0; done).
    assert (Hnext : NEW_MESSAGE (set_pstate s_message_done (set_content_length 0 (set_nread 0 y))) = next_response r).
    { apply response_next; try done; [lia|]. rewrite (response_needs_eof r) by done. simpl. by rewrite andb_false_r. }
    destruct (run_body_to o data (next_response r) (p_body r) (set_nread 0 y) v _ LF He Hup Hne Hp2
      ltac:(simpl; by rewrite Hcl) ltac:(lia) Hnext) as [c R2].
    eexists _, c. split; [|].
    + rewrite Z.add_assoc. eapply reaches_trans; [exact R1|]. unfold body_event. destruct (p_body r); [done|exact R2].
    + split; [by left|done].
Qed.

(** ** A connection *)

Definition responses_bytes (rs : list response) : bytes := concat (map response_bytes rs).
Definition responses_events (rs : list response) (u : U) : U := fold_left (fun u r => response_events r u) rs u.

Fixpoint answers_all (rs : list response) (u : U) : Prop :=
  match rs with
  | [] => True
  | r :: rs => answers r u /\ answers_all rs (response_events r u)
  end.

(** Another response may follow. *)
Definition goes_on (r : response) : Prop := until_close r = false /\ persistent r = true.

Lemma run_responses rs : forall s x u q c0,
  Forall response_ok rs -> Forall goes_on rs -> answers_all rs u -> response_start s x ->
  at_pos data q (responses_bytes rs) ->
  exists s' y c, reaches o data (at_state x u s q c0)
    (at_state y (responses_events rs u) s' (q + zlen (responses_bytes rs)) c) /\ response_start s' y.
Proof.
  induction rs as [|r rs IH]; intros s x u q c0 Hrs Hgo Ho Hx Hp.
  - exists s, x, c0. change (zlen (responses_bytes [])) with 0. rewrite Z.add_0_r. split; [apply reaches_refl|exact Hx].
  - apply Forall_cons in Hrs as [Hr Hrs]. apply Forall_cons in Hgo as [[Huc Hpe] Hgo]. destruct Ho as [Ho Hos].
    change (responses_bytes (r :: rs)) with (response_bytes r ++ responses_bytes rs) in *.
    rewrite zlen_app, Z.add_assoc. apply at_pos_app in Hp as [Hp1 Hp2].
    destruct (run_response r s x u q c0 Hr Huc Ho Hx Hp1) as (y & c & R1 & Hy).
    unfold next_response in R1. rewrite Hpe in R1.
    destruct (IH s_start_res y (response_events r u) _ c Hrs Hgo Hos Hy Hp2) as (s' & z & c' & R2 & Hz).
    exists s', z, c'. split; [eapply reaches_trans; [exact R1|exact R2]|exact Hz].
Qed.
End Responses.

Lemma response_not_empty r : 0 < zlen (response_bytes r).
Proof.
  unfold response_bytes, response_head, line_of. rewrite !zlen_app, zlen_status_line.
  pose proof (zlen_nonneg (p_code r)). pose proof (zlen_nonneg (from_option (cons #" ") [] (p_reason r))).
  pose proof (zlen_nonneg (header_bytes (p_headers r))). pose proof (zlen_nonneg (p_body r)).
  change (zlen [CR; LF]) with 2. lia.
Qed.

Lemma start_exec {U} x (u : U) : response_start (pstate x) x -> exec_init x u = at_state x u (pstate x) 0 0.
Proof. intros (H & _). unfold exec_init. by destruct H as [[-> _] | ->]. Qed.

(** C5: responses written one after the other on a connection are read back
    exactly. For every list of HTTP/1.x responses whose heads respect the size limit,
    which do not switch protocols and are not chunked, all but the last of which leave
    the connection open, of which those with the codes 1xx, 204 and 304 announce no body,
    and an application that of the parser looks only
    at the status code and says of the answers to HEAD, and of no others, that they have no body:
    one call consumes all the bytes and reports each response's reason with its code, its headers
    and its body, unchanged, complete and in order. The body ends at once for an answer to
    HEAD and for the codes 1xx, 204 and 304; by the length if there is one; otherwise
    with the connection, which the call on no bytes
    reports. The parser then waits for the next response if the connection is
    persistent, as the version and the headers say, and takes no other otherwise. *)
Theorem responses_parsed {U} (o : observer U) (report : Z -> bytes -> U -> U) (rs : list response) r (x : http_parser) (u : U) :
  (forall x b u, ob_status o x b u = report (status_code x) b u) ->
  Forall response_ok (rs ++ [r]) -> Forall goes_on rs -> answers_all o report (rs ++ [r]) u ->
  response_start (pstate x) x ->
  let v := responses_events o report (rs ++ [r]) u in
  exists y, http_parser_execute (observe o) (responses_bytes (rs ++ [r])) x u
      = Returned (zlen (responses_bytes (rs ++ [r]))) y v /\
    if until_close r then http_parser_execute (observe o) [] y v = Returned 0 y (ob_notify o message_complete v)
    else if persistent r then pstate y = s_start_res /\ response_start (pstate y) y else pstate y = s_dead.
Proof.
  intros Hreport Hok Hgo Ho Hx v. apply Forall_app in Hok as [Hrs Hr]. apply Forall_cons in Hr as [Hr _].
  set (data := responses_bytes (rs ++ [r])).
  assert (Hp : at_pos data 0 (responses_bytes rs ++ response_bytes r)).
  { exists [], []. split; [|done]. unfold data, responses_bytes. rewrite map_app, concat_app. cbn [map concat app]. by rewrite !app_nil_r. }
  assert (Hlen : zlen data = zlen (responses_bytes rs) + zlen (response_bytes r)).
  { unfold data, responses_bytes. rewrite map_app, concat_app, zlen_app. cbn [map concat]. by rewrite app_nil_r. }
  assert (Hv : v = response_events o report r (responses_events o report rs u))
    by (unfold v, responses_events; by rewrite fold_left_app).
  set (w := responses_events o report rs u) in *.
  assert (Hos : answers_all o report rs u /\ answers o report r w).
  { unfold w. clear -Ho. revert u Ho. induction rs as [|r0 rs IH]; intros u Ho; [split; [done|apply Ho]|].
    destruct Ho as [H0 Ho]. destruct (IH _ Ho) as [H1 H2]. split; [split; [exact H0|exact H1]|exact H2]. }
  destruct Hos as [Hos Hor]. apply at_pos_app in Hp as [Hp1 Hp2].
  destruct (run_responses o data report Hreport rs (pstate x) x u 0 0 Hrs Hgo Hos Hx Hp1) as (s1 & x1 & c1 & R1 & Hx1).
  fold w in R1. rewrite <- start_exec in R1 by exact Hx. pose proof (response_not_empty r). pose proof (zlen_nonneg (responses_bytes rs)).
  assert (Hxe : perrno x = HPE_OK) by apply Hx. rewrite Hv. destruct (until_close r) eqn:Huc.
  - assert (Hpos : 0 < zlen data) by lia. unfold response_bytes in Hp2, Hlen. apply at_pos_app in Hp2 as [Hp2 Hp3]. rewrite zlen_app in Hlen.
    destruct (run_response_head o data report Hreport r s1 x1 w _ c1 Hr Hor Hx1 Hp2) as (y & R2 & Hseen).
    unfold decided in R2. rewrite Huc in R2. assert (Hye : perrno (set_nread 0 y) = HPE_OK) by apply Hseen.
    assert (Eh : ends_here r = false).
    { unfold until_close, ends_here in *. rewrite !andb_true_iff, !negb_true_iff, Z.eqb_eq in Huc. destruct Huc as [[-> E] ->].
      by rewrite E. }
    rewrite Eh in R2.
    assert (Hq : 0 + zlen (responses_bytes rs) + zlen (response_head r) + zlen (p_body r) = zlen data) by lia.
    destruct (run_body_eof o data (p_body r) (set_nread 0 y) (ob_headers o (response_head_events o report r w)).2 _ LF Hye Hp3 Hq) as (e & e' & R3 & He & Hend & Hprs & Husr).
    exists (prs e'). rewrite (reaches_end o data x u e e'); [|exact Hpos|exact Hxe| |exact He|exact Hend].
    + rewrite Husr. unfold response_events. rewrite Huc. split; [done|]. by apply execute_eof; rewrite Hprs.
    + eapply reaches_trans; [exact R1|]. eapply reaches_trans; [exact R2|exact R3].
  - destruct (run_response o data report Hreport r s1 x1 w _ c1 Hr Huc Hor Hx1 Hp2) as (y & c & R2 & Hy).
    exists (set_pstate (next_response r) y). split.
    + eapply reaches_return; [lia|exact Hxe|apply Hy|eapply reaches_trans; [exact R1|exact R2]|lia].
    + unfold next_response. destruct (persistent r); [|done]. split; [done|exact Hy].
Qed.

(** Deciding the hypotheses on given responses. *)
Definition reason_byteb (b : Z) : bool := negb (b =? CR) && negb (b =? LF).

Definition status_okb (minor : Z) (code : bytes) (reason : option bytes) : bool :=
  (0 <=? minor) && (minor <=? 9) && negb (bool_decide (code = [])) && forallb digitb code &&
  (dec_value 0 code <=? 999) && forallb reason_byteb (from_option id [] reason).

Definition response_okb (r : response) : bool :=
  status_okb (p_minor r) (p_code r) (p_reason r) && forallb headerb (p_headers r) &&
  negb (upgrades (p_flags r)) && (zlen (response_head r) <=? HTTP_MAX_HEADER_SIZE) &&
  (negb (bodiless (code_of r)) || ends_here r) &&
  (if ends_here r then bool_decide (p_body r = [])
   else until_close r || ((zlen (p_body r) =? p_length r) && (p_length r <? ULLONG_MAX))).

Lemma status_okb_ok minor code reason : status_okb minor code reason = true -> status_ok minor code reason.
Proof.
  unfold status_okb, status_ok. rewrite !andb_true_iff, negb_true_iff, bool_decide_eq_false, !Z.leb_le.
  intros (((((H1 & H2) & H3) & H4) & H5) & H6). split_and!; try done.
  - by apply (forallb_Forall digit _ _ digitb_ok).
  - apply (forallb_Forall reason_byte _ _) in H6; [exact H6|]. intros b Hb. unfold reason_byteb in Hb.
    rewrite andb_true_iff, !negb_true_iff, !Z.eqb_neq in Hb. exact Hb.
Qed.

Lemma response_okb_ok r : response_okb r = true -> response_ok r.
Proof.
  unfold response_okb, response_ok. rewrite !andb_true_iff, negb_true_iff, Z.leb_le.
  intros (((((H1 & H2) & H3) & H4) & H6) & H5). split_and!; [by apply status_okb_ok| |done|done| |].
  - by apply (forallb_Forall header_ok _ _ headerb_ok).
  - intros Hb. by rewrite Hb in H6.
  - destruct (ends_here r); [by apply bool_decide_eq_true in H5|].
    rewrite orb_true_iff, andb_true_iff, Z.eqb_eq, Z.ltb_lt in H5. exact H5.
Qed.

(** An answer to HEAD (the application knows it by a header), one without a body by its code, one with a length, and
    one of HTTP/1.0 that ends with the connection. *)
Definition demo_responses : list response :=
  [mk_response 1 (str "200") (Some (str "OK"))
     [mk_header Length (str "Content-Length") (str "5"); mk_header Plain (str "X") (str "head")] [] true;
   mk_response 1 (str "304") (Some (str "Not Modified")) [] [] false;
   mk_response 1 (str "0404") None [mk_header Length (str "content-length") (str "2")] (str "no") false].
Definition demo_last : response :=
  mk_response 0 (str "200") (Some []) [mk_header Plain (str "X") (str "y")] (str "the rest") false.

Definition response_log : observer (list bytes) :=
  mk_observer (fun f u => match f with message_complete => u ++ [str "."] | _ => u end) (fun f b u => u ++ [b])
    (fun u => (if decide (last u = Some (str "head")) then 1 else 0, u))
    (fun x b u => u ++ [[status_code x]; b]).

Lemma responses_parsed_witness : exists y,
  http_parser_execute (observe response_log)
    (str "HTTP/1.1 200 OK" ++ [CR; LF] ++ str "Content-Length: 5" ++ [CR; LF] ++ str "X: head" ++ [CR; LF; CR; LF] ++
     str "HTTP/1.1 304 Not Modified" ++ [CR; LF; CR; LF] ++
     str "HTTP/1.1 0404" ++ [CR; LF] ++ str "content-length: 2" ++ [CR; LF; CR; LF] ++ str "no" ++
     str "HTTP/1.0 200 " ++ [CR; LF] ++ str "X: y" ++ [CR; LF; CR; LF] ++ str "the rest") (http_parser_init HTTP_BOTH) []
    = Returned 145 y
        [[200]; str "OK"; str "Content-Length"; str "5"; str "X"; str "head"; str ".";
         [304]; str "Not Modified"; str "."; str "content-length"; str "2"; str "no"; str "."; str "X"; str "y"; str "the rest"] /\
  http_parser_execute (observe response_log) [] y
    [[200]; str "OK"; str "Content-Length"; str "5"; str "X"; str "head"; str ".";
     [304]; str "Not Modified"; str "."; str "content-length"; str "2"; str "no"; str "."; str "X"; str "y"; str "the rest"]
    = Returned 0 y
        [[200]; str "OK"; str "Content-Length"; str "5"; str "X"; str "head"; str ".";
         [304]; str "Not Modified"; str "."; str "content-length"; str "2"; str "no"; str "."; str "X"; str "y"; str "the rest"; str "."].
Proof.
  destruct (responses_parsed response_log (fun c b u => u ++ [[c]; b]) demo_responses demo_last (http_parser_init HTTP_BOTH) [])
    as (y & E1 & E2).
  - done.
  - apply (forallb_Forall response_ok response_okb); [exact response_okb_ok|vm_compute; reflexivity].
  - repeat constructor.
  - vm_compute. split_and!; done.
  - split_and!; [by right|done|done|done].
  - exists y. split; [exact E1|exact E2].
Defined.

(** A response of code 304 with a length is read as one with a body, although the codes without a
    body end with their headers whatever these say: the next response is taken for the body. *)
Example not_modified_has_body : exists y,
  http_parser_execute (observe response_log)
    (str "HTTP/1.1 304 Not Modified" ++ [CR; LF] ++ str "Content-Length: 8" ++ [CR; LF; CR; LF] ++
     str "HTTP/1.1 200 OK" ++ [CR; LF; CR; LF]) (http_parser_init HTTP_RESPONSE) []
    = Returned 56 y [[304]; str "Not Modified"; str "Content-Length"; str "8"; str "HTTP/1.1"; str "."] /\
  perrno y = HPE_INVALID_CONSTANT.
Proof. eexists. vm_compute. split; reflexivity. Qed.

(** Each line end in front of a response begins a message. *)
Example line_end_begins_message : exists y,
  http_parser_execute
    (observe (mk_observer (fun f u => match f with message_begin => u + 1 | _ => u end) (fun f b u => u) (fun u => (0, u)) (fun x b u => u)))
    [CR; LF; CR; LF; #"H"] (http_parser_init HTTP_RESPONSE) 0 = Returned 5 y 5 /\ pstate y = s_res_H.
Proof. eexists. vm_compute. split; reflexivity. Qed.
