(* ===== verification/Base64.v ===== *)
(** * utils/base64.cpp

    The encoder and the decoder with their three- and four-byte buffers, and the
    theorem that the decoder inverts the encoder. *)

From S2P Require Import Prelude.
From S2P Require Import Words.
#[local] Open Scope Z_scope.
#[local] Open Scope brynet_scope.

Definition base64_chars : bytes :=
  str "ABCDEFGHIJKLMNOPQRSTUVWXYZabcdefghijklmnopqrstuvwxyz0123456789+/".

(** [isalnum] in the C locale. *)
Definition isalnum (c : Z) : bool :=
  ((#"0" <=? c) && (c <=? #"9")) || ((#"A" <=? c) && (c <=? #"Z")) || ((#"a" <=? c) && (c <=? #"z")).

Definition is_base64 (c : Z) : bool := isalnum c || (c =? #"+") || (c =? #"/").

(** [base64_chars.find(c)] stored in an [unsigned char]: [npos] becomes 255. *)
Fixpoint find64_from (l : bytes) (i c : Z) : Z :=
  match l with
  | [] => u8 (-1)
  | b :: l => if b =? c then i else find64_from l (i + 1) c
  end.
Definition find64 (c : Z) : Z := find64_from base64_chars 0 c.

(** ** base64_encode *)

(** [char_array_4] from [char_array_3]. *)
Definition encode_quad (a0 a1 a2 : Z) : bytes :=
  [ u8 (Z.shiftr (Z.land a0 0xfc) 2);
    u8 (Z.shiftl (Z.land a0 0x03) 4 + Z.shiftr (Z.land a1 0xf0) 4);
    u8 (Z.shiftl (Z.land a1 0x0f) 2 + Z.shiftr (Z.land a2 0xc0) 6);
    Z.land a2 0x3f ].

Definition char64 (v : Z) : Z := znth base64_chars v 0.

(** One turn of the loop: [arr] is the used part of [char_array_3]. *)
Definition encode_byte (b : Z) (arr ret : bytes) : bytes * bytes :=
  match arr ++ [b] with
  | [a0; a1; a2] => ([], ret ++ map char64 (encode_quad a0 a1 a2))
  | arr => (arr, ret)
  end.

(** The loop, with [in_len] the [unsigned int] that is counted down; [None]: a byte is read
    that is not in [p]. *)
Fixpoint encode_loop (p : bytes) (in_len : Z) (arr ret : bytes) : option (bytes * bytes) :=
  if in_len =? 0 then Some (arr, ret)
  else match p with
  | [] => None
  | b :: p => let '(arr, ret) := encode_byte b arr ret in encode_loop p (u32 (in_len - 1)) arr ret
  end.

(** What is left in [char_array_3] at the end. *)
Definition encode_rest (arr ret : bytes) : bytes :=
  let i := length arr in
  if decide (i = 0%nat) then ret
  else
    let quad := encode_quad (znth arr 0 0) (znth arr 1 0) (znth arr 2 0) in
    ret ++ map char64 (take (i + 1) quad) ++ replicate (3 - i) #"=".

Definition base64_encode (bytes_to_encode : bytes) (in_len : Z) : option bytes :=
  '(arr, ret) ← encode_loop bytes_to_encode in_len [] [];
  Some (encode_rest arr ret).

(** ** base64_decode *)

(** [char_array_3] from [char_array_4], already translated. *)
Definition decode_triple (a0 a1 a2 a3 : Z) : bytes :=
  [ u8 (Z.shiftl a0 2 + Z.shiftr (Z.land a1 0x30) 4);
    u8 (Z.shiftl (Z.land a1 0xf) 4 + Z.shiftr (Z.land a2 0x3c) 2);
    u8 (Z.shiftl (Z.land a2 0x3) 6 + a3) ].

Definition decode_byte (c : Z) (arr ret : bytes) : bytes * bytes :=
  match arr ++ [c] with
  | [a0; a1; a2; a3] => ([], ret ++ decode_triple (find64 a0) (find64 a1) (find64 a2) (find64 a3))
  | arr => (arr, ret)
  end.

Definition is_digit64 (c : Z) : bool := negb (c =? #"=") && is_base64 c.

(** The loop on what is left of the string from [in_] on: behind its end [operator[]] gives
    a null character, which is not a digit. [None]: one of the two [int] overflows. *)
Fixpoint decode_loop (s : bytes) (in_len in_ : Z) (arr ret : bytes) : option (bytes * bytes) :=
  if in_len =? 0 then Some (arr, ret)
  else
    in_len ← chk_int (in_len - 1);
    match s with
    | [] => Some (arr, ret)
    | c :: s =>
        if is_digit64 c then
          in_ ← chk_int (in_ + 1);
          let '(arr, ret) := decode_byte c arr ret in
          decode_loop s in_len in_ arr ret
        else Some (arr, ret)
    end.

(** The unused places of [char_array_4] are set to 0 and translated too. *)
Definition decode_rest (arr ret : bytes) : bytes :=
  let i := length arr in
  if decide (i = 0%nat) then ret
  else
    let a j := find64 (znth arr j 0) in
    ret ++ take (i - 1) (decode_triple (a 0) (a 1) (a 2) (a 3)).

Definition base64_decode (encoded_string : bytes) : option bytes :=
  '(arr, ret) ← decode_loop encoded_string (s32 (zlen encoded_string)) 0 [] [];
  Some (decode_rest arr ret).

Example encode_man : base64_encode (str "Man is") 6 = Some (str "TWFuIGlz").
Proof. reflexivity. Qed.
Example encode_tail : base64_encode (str "light w, and more") 7 = Some (str "bGlnaHQgdw==").
Proof. reflexivity. Qed.
Example encode_outside : base64_encode (str "light") 6 = None.
Proof. reflexivity. Qed.
Example decode_tail : base64_decode (str "bGlnaHQgdw==") = Some (str "light w").
Proof. reflexivity. Qed.

(** ** The loops without their counters *)

Fixpoint encode_list (l arr ret : bytes) : bytes * bytes :=
  match l with
  | [] => (arr, ret)
  | b :: l => let '(arr, ret) := encode_byte b arr ret in encode_list l arr ret
  end.

Definition encoded (l : bytes) : bytes := let '(arr, ret) := encode_list l [] [] in encode_rest arr ret.

Fixpoint decode_list (l arr ret : bytes) : bytes * bytes :=
  match l with
  | c :: l =>
      if is_digit64 c then let '(arr, ret) := decode_byte c arr ret in decode_list l arr ret
      else (arr, ret)
  | [] => (arr, ret)
  end.

Definition decoded (l : bytes) : bytes := let '(arr, ret) := decode_list l [] [] in decode_rest arr ret.

Lemma encode_loop_list l rest : zlen l < 2 ^ 32 -> forall arr ret,
  encode_loop (l ++ rest) (zlen l) arr ret = Some (encode_list l arr ret).
Proof.
  induction l as [|b l IH]; intros Hl arr ret; [by destruct rest|].
  rewrite zlen_cons in *. pose proof (zlen_nonneg l). cbn [app encode_loop encode_list].
  rewrite (proj2 (Z.eqb_neq _ 0)) by lia. replace (1 + zlen l - 1) with (zlen l) by lia.
  rewrite wrap_small by lia. destruct (encode_byte b arr ret). apply IH. lia.
Qed.

Lemma encode_spec l rest : zlen l < 2 ^ 32 -> base64_encode (l ++ rest) (zlen l) = Some (encoded l).
Proof.
  intros Hl. unfold base64_encode, encoded. rewrite encode_loop_list by done. cbn [mbind option_bind].
  by destruct (encode_list l [] []).
Qed.

Lemma decode_loop_list l : forall i arr ret, 0 <= i -> i + zlen l <= INT_MAX ->
  decode_loop l (zlen l) i arr ret = Some (decode_list l arr ret).
Proof.
  induction l as [|c l IH]; intros i arr ret Hi Hl; [done|].
  rewrite zlen_cons in *. pose proof (zlen_nonneg l). unfold INT_MAX in *. cbn [decode_loop decode_list].
  rewrite (proj2 (Z.eqb_neq _ 0)) by lia. rewrite !chk_int_ok by (unfold INT_MAX; lia). cbn [mbind option_bind].
  destruct (is_digit64 c); [|done]. destruct (decode_byte c arr ret). replace (1 + zlen l - 1) with (zlen l) by lia.
  apply IH; lia.
Qed.

Lemma decode_spec l : zlen l <= INT_MAX -> base64_decode l = Some (decoded l).
Proof.
  intros Hl. pose proof (zlen_nonneg l). unfold base64_decode, decoded.
  rewrite swrap_small by (unfold INT_MAX in *; lia). rewrite decode_loop_list by lia. cbn [mbind option_bind].
  by destruct (decode_list l [] []).
Qed.

(** ** RFC 4648

    Three bytes are a number of 24 bits, written with four digits in base 64; a
    shorter last group is filled up with zero bits and its missing digits are
    written as [=]. *)
Definition digit64 (n k : Z) : Z := char64 (n / 64 ^ k mod 64).

Fixpoint rfc4648 (l : bytes) : bytes :=
  match l with
  | [] => []
  | [b0] => let n := b0 * 65536 in [digit64 n 3; digit64 n 2; #"="; #"="]
  | [b0; b1] => let n := b0 * 65536 + b1 * 256 in [digit64 n 3; digit64 n 2; digit64 n 1; #"="]
  | b0 :: b1 :: b2 :: l =>
      let n := b0 * 65536 + b1 * 256 + b2 in
      [digit64 n 3; digit64 n 2; digit64 n 1; digit64 n 0] ++ rfc4648 l
  end.

Lemma triple_ind (P : bytes -> Prop) :
  P [] -> (forall a, P [a]) -> (forall a b, P [a; b]) ->
  (forall a b c l, P l -> P (a :: b :: c :: l)) -> forall l, P l.
Proof.
  intros H0 H1 H2 H3. fix IH 1. intros [|a [|b [|c l]]]; [apply H0|apply H1|apply H2|].
  apply H3, IH.
Qed.

(** The bit operations on one byte as divisions. *)
Definition byte_bits (a : Z) : bool :=
  (Z.shiftr (Z.land a 0xfc) 2 =? a / 4) && (Z.shiftl (Z.land a 0x03) 4 =? (a mod 4) * 16) &&
  (Z.shiftr (Z.land a 0xf0) 4 =? a / 16) && (Z.shiftl (Z.land a 0x0f) 2 =? (a mod 16) * 4) &&
  (Z.shiftr (Z.land a 0xc0) 6 =? a / 64) && (Z.land a 0x3f =? a mod 64) &&
  (Z.shiftr (Z.land a 0x30) 4 =? a / 16 mod 4) && (Z.shiftl (Z.land a 0xf) 4 =? (a mod 16) * 16) &&
  (Z.shiftr (Z.land a 0x3c) 2 =? a / 4 mod 16) && (Z.shiftl (Z.land a 0x3) 6 =? (a mod 4) * 64) &&
  (Z.shiftl a 2 =? a * 4).

Lemma byte_bits_ok a : is_byte a -> byte_bits a = true.
Proof. apply byte_forall. by vm_compute. Qed.

Lemma quad_digits a0 a1 a2 :
  is_byte a0 -> is_byte a1 -> is_byte a2 ->
  let n := a0 * 65536 + a1 * 256 + a2 in
  map char64 (encode_quad a0 a1 a2) = [digit64 n 3; digit64 n 2; digit64 n 1; digit64 n 0].
Proof.
  intros H0 H1 H2 n. pose proof (byte_bits_ok a0 H0) as B0. pose proof (byte_bits_ok a1 H1) as B1.
  pose proof (byte_bits_ok a2 H2) as B2. unfold byte_bits in *.
  rewrite !andb_true_iff, !Z.eqb_eq in *. unfold encode_quad, digit64, is_byte in *.
  destruct_and?. cbn [map]. repeat match goal with H : Z.shiftl _ _ = _ |- _ => rewrite ?H; clear H
    | H : Z.shiftr _ _ = _ |- _ => rewrite ?H; clear H | H : Z.land _ _ = _ |- _ => rewrite ?H; clear H end.
  subst n. change (64 ^ 3) with 262144. change (64 ^ 2) with 4096. change (64 ^ 1) with 64.
  change (64 ^ 0) with 1. unfold wrap. change (2 ^ 8) with 256.
  repeat (apply f_equal2; [apply f_equal; dlia|]). reflexivity.
Qed.

Lemma encode_list_acc l : forall arr ret,
  encode_list l arr ret =
    (fst (encode_list l arr []), ret ++ snd (encode_list l arr [])).
Proof.
  induction l as [|b l IH]; intros arr ret; cbn [encode_list]; [by rewrite app_nil_r|]. unfold encode_byte.
  destruct (arr ++ [b]) as [|x0 [|x1 [|x2 [|x3 r]]]]; try (rewrite IH; done).
  rewrite app_nil_l, IH, (IH [] (map _ _)). cbn [fst snd]. by rewrite app_assoc.
Qed.

Lemma encode_group a b c l :
  encoded (a :: b :: c :: l) = map char64 (encode_quad a b c) ++ encoded l.
Proof.
  unfold encoded, encode_rest. cbn [encode_list encode_byte app]. rewrite encode_list_acc.
  destruct (encode_list l [] []) as [arr ret]. cbn [fst snd].
  case_decide; [done|]. by rewrite <- app_assoc.
Qed.

Lemma encode_rfc4648 l : Forall is_byte l -> encoded l = rfc4648 l.
Proof.
  induction l as [|a|a b|a b c l IH] using triple_ind; intros Hl;
    rewrite ?Forall_cons in Hl; destruct_and?.
  - done.
  - change (encoded [a]) with (take 2 (map char64 (encode_quad a 0 0)) ++ [ #"="; #"="]).
    rewrite quad_digits by done. by rewrite Z.mul_0_l, !Z.add_0_r.
  - change (encoded [a; b]) with (take 3 (map char64 (encode_quad a b 0)) ++ [ #"="]).
    rewrite quad_digits by done. by rewrite Z.add_0_r.
  - rewrite encode_group, quad_digits by done. rewrite IH by done. done.
Qed.

(** ** The decoder *)

Lemma decode_list_acc l : forall arr ret,
  decode_list l arr ret =
    (fst (decode_list l arr []), ret ++ snd (decode_list l arr [])).
Proof.
  induction l as [|b l IH]; intros arr ret; cbn [decode_list]; [by rewrite app_nil_r|].
  destruct (is_digit64 b); [|by rewrite app_nil_r]. unfold decode_byte.
  destruct (arr ++ [b]) as [|x0 [|x1 [|x2 [|x3 [|x4 r]]]]]; try (rewrite IH; done).
  rewrite app_nil_l, IH, (IH [] (decode_triple _ _ _ _)). cbn [fst snd]. by rewrite app_assoc.
Qed.

(** Every digit is a character that the decoder accepts and finds again. *)
Lemma char64_found v : 0 <= v < 64 ->
  is_digit64 (char64 v) = true /\ find64 (char64 v) = v.
Proof.
  intros Hv.
  assert (H : forallb (fun v => negb (v <? 64) ||
    (is_digit64 (char64 v) && (find64 (char64 v) =? v))) all_bytes = true)
    by (by vm_compute).
  pose proof (byte_forall _ H v ltac:(unfold is_byte; lia)) as E. cbn beta in E.
  rewrite (proj2 (Z.ltb_lt v 64)) in E by lia. cbn [negb orb] in E.
  apply andb_true_iff in E as [E1 E2]. split; [done|]. by apply Z.eqb_eq.
Qed.

Lemma digit64_found n k :
  is_digit64 (digit64 n k) = true /\ find64 (digit64 n k) = n / 64 ^ k mod 64.
Proof. apply char64_found. apply Z.mod_pos_bound. lia. Qed.

Lemma decode_group n l :
  decoded ([digit64 n 3; digit64 n 2; digit64 n 1; digit64 n 0] ++ l)
  = decode_triple (n / 64 ^ 3 mod 64) (n / 64 ^ 2 mod 64) (n / 64 ^ 1 mod 64) (n / 64 ^ 0 mod 64)
    ++ decoded l.
Proof.
  unfold decoded, decode_rest. cbn [decode_list decode_byte app].
  destruct (digit64_found n 3) as [-> E3], (digit64_found n 2) as [-> E2],
    (digit64_found n 1) as [-> E1], (digit64_found n 0) as [-> E0].
  rewrite E3, E2, E1, E0, decode_list_acc. destruct (decode_list l [] []) as [arr ret].
  cbn [fst snd]. case_decide; [done|]. by rewrite <- app_assoc.
Qed.

Lemma triple_bytes b0 b1 b2 :
  is_byte b0 -> is_byte b1 -> is_byte b2 ->
  let n := b0 * 65536 + b1 * 256 + b2 in
  decode_triple (n / 64 ^ 3 mod 64) (n / 64 ^ 2 mod 64) (n / 64 ^ 1 mod 64) (n / 64 ^ 0 mod 64)
  = [b0; b1; b2].
Proof.
  intros H0 H1 H2 n. unfold is_byte in *. subst n.
  change (64 ^ 3) with 262144. change (64 ^ 2) with 4096. change (64 ^ 1) with 64.
  change (64 ^ 0) with 1. set (n := b0 * 65536 + b1 * 256 + b2).
  assert (B : forall v, byte_bits (v mod 64) = true).
  { intros v. apply byte_bits_ok. unfold is_byte. pose proof (Z.mod_pos_bound v 64 ltac:(lia)). lia. }
  pose proof (B (n / 262144)) as C3. pose proof (B (n / 4096)) as C2. pose proof (B (n / 64)) as C1.
  unfold byte_bits in *. rewrite !andb_true_iff, !Z.eqb_eq in *. destruct_and?.
  unfold decode_triple. repeat match goal with H : Z.shiftl _ _ = _ |- _ => rewrite ?H; clear H
    | H : Z.shiftr _ _ = _ |- _ => rewrite ?H; clear H | H : Z.land _ _ = _ |- _ => clear H end.
  unfold wrap. change (2 ^ 8) with 256. subst n.
  apply f_equal2; [|apply f_equal2; [|apply f_equal2; [|reflexivity]]]; dlia.
Qed.

(** The groups filled up with [=]. *)
Lemma decode_one a : is_byte a -> decoded (rfc4648 [a]) = [a].
Proof.
  intros Ha. cbn [rfc4648]. set (n := a * 65536).
  assert (E : decoded [digit64 n 3; digit64 n 2; #"="; #"="]
    = take 1 (decode_triple (find64 (digit64 n 3)) (find64 (digit64 n 2)) 0 0)).
  { unfold decoded, decode_rest. cbn [decode_list decode_byte app].
    destruct (digit64_found n 3) as [-> _], (digit64_found n 2) as [-> _]. reflexivity. }
  rewrite E. destruct (digit64_found n 3) as [_ ->], (digit64_found n 2) as [_ ->].
  pose proof (triple_bytes a 0 0 Ha ltac:(done) ltac:(done)) as T. cbv zeta in T.
  rewrite Z.mul_0_l, !Z.add_0_r in T. fold n in T. apply (f_equal (take 1)) in T. exact T.
Qed.

Lemma decode_two a b : is_byte a -> is_byte b -> decoded (rfc4648 [a; b]) = [a; b].
Proof.
  intros Ha Hb. cbn [rfc4648]. set (n := a * 65536 + b * 256).
  assert (E : decoded [digit64 n 3; digit64 n 2; digit64 n 1; #"="]
    = take 2 (decode_triple (find64 (digit64 n 3)) (find64 (digit64 n 2)) (find64 (digit64 n 1)) 0)).
  { unfold decoded, decode_rest. cbn [decode_list decode_byte app].
    destruct (digit64_found n 3) as [-> _], (digit64_found n 2) as [-> _],
      (digit64_found n 1) as [-> _]. reflexivity. }
  rewrite E. destruct (digit64_found n 3) as [_ ->], (digit64_found n 2) as [_ ->],
    (digit64_found n 1) as [_ ->].
  pose proof (triple_bytes a b 0 Ha Hb ltac:(done)) as T. cbv zeta in T.
  rewrite Z.add_0_r in T. fold n in T. apply (f_equal (take 2)) in T. exact T.
Qed.

Lemma decoded_rfc4648 l : Forall is_byte l -> decoded (rfc4648 l) = l.
Proof.
  induction l as [|a|a b|a b c l IH] using triple_ind; intros Hl; rewrite ?Forall_cons in Hl; destruct_and?.
  - done.
  - by apply decode_one.
  - by apply decode_two.
  - cbn [rfc4648]. rewrite decode_group, triple_bytes, IH by done. done.
Qed.

(** Four characters for every three bytes begun. *)
Lemma rfc4648_length l : 3 * zlen (rfc4648 l) <= 4 * zlen l + 8 /\ zlen (rfc4648 l) mod 4 = 0.
Proof.
  induction l as [|a|a b|a b c l [IH1 IH2]] using triple_ind; [done|split; done|split; done|].
  cbn [rfc4648 app]. rewrite !zlen_cons. split; dlia.
Qed.

Lemma base64_encodes l rest : Forall is_byte l -> zlen l < 2 ^ 32 ->
  base64_encode (l ++ rest) (zlen l) = Some (rfc4648 l) /\
  (zlen l <= 3 * (2 ^ 29 - 1) -> base64_decode (rfc4648 l) = Some l).
Proof.
  intros Hl Hn. split; [by rewrite encode_spec, encode_rfc4648|]. intros Hm.
  destruct (rfc4648_length l) as [H1 H2]. rewrite decode_spec by (unfold INT_MAX; dlia). by rewrite decoded_rfc4648.
Qed.

(** C37: the encoder is the base64 encoding of RFC 4648, with its padding, of the first
    [in_len] of the bytes it is given, for every length of an [unsigned int], and the decoder
    inverts it as long as the length of the text is that of an [int], that is, up to
    3 * (2^29 - 1) bytes: they are read back unchanged. *)
Theorem base64_roundtrip l rest :
  Forall is_byte l -> zlen l < 2 ^ 32 ->
  base64_encode (l ++ rest) (zlen l) = Some (rfc4648 l) /\
  (zlen l <= 3 * (2 ^ 29 - 1) -> base64_decode (rfc4648 l) = Some l).
Proof. apply base64_encodes. Qed.

Lemma base64_roundtrip_witness :
  base64_encode (str "any carnal pleasure") 16 = Some (str "YW55IGNhcm5hbCBwbGVhcw==") /\
  base64_decode (str "YW55IGNhcm5hbCBwbGVhcw==") = Some (str "any carnal pleas").
Proof.
  destruct (base64_roundtrip (str "any carnal pleas") (str "ure")) as [E D].
  - repeat constructor; vm_compute; congruence.
  - reflexivity.
  - split; [exact E|]. exact (D ltac:(vm_compute; congruence)).
Defined.
