(* ===== verification/Digest.v ===== *)
(** * What the digests have in common

    Words of 32 bits and their rotation, and the chain of a compression function
    over the blocks of a padded message; utils/SHA1.cpp and utils/md5calc.cpp
    both are instances. *)

From S2P Require Import Prelude.
From S2P Require Import Words.

(** ** Words *)

Definition is_word (x : Z) : Prop := 0 <= x < 2 ^ 32.

Definition rotl (n x : Z) : Z := (x * 2 ^ n) mod 2 ^ 32 + x / 2 ^ (32 - n).

Lemma u32_word x : is_word (u32 x).
Proof. by apply wrap_range. Qed.

(** The rotation as C programs write it. *)
Lemma rotate_rotl v n : is_word v -> 0 < n < 32 ->
  Z.lor (u32 (Z.shiftl v n)) (Z.shiftr v (32 - n)) = rotl n v.
Proof.
  intros Hv Hn. unfold rotl, wrap. rewrite Z.shiftl_mul_pow2, Z.shiftr_div_pow2 by lia.
  assert (E : 2 ^ 32 = 2 ^ n * 2 ^ (32 - n)) by (rewrite <- Z.pow_add_r by lia; f_equal; lia).
  pose proof (Z.pow_pos_nonneg 2 n). pose proof (Z.pow_pos_nonneg 2 (32 - n)).
  rewrite E, (Z.mul_comm v), Z.mul_mod_distr_l by lia.
  rewrite (Z.mul_comm (2 ^ n)), <- Z.shiftl_mul_pow2, Z.lor_comm by lia.
  assert (0 <= v / 2 ^ (32 - n) < 2 ^ n).
  { unfold is_word in Hv. split; [apply Z.div_pos; lia|apply Z.div_lt_upper_bound; lia]. }
  rewrite lor_shiftl_add, Z.shiftl_mul_pow2 by lia. lia.
Qed.

Lemma rotl_word n v : is_word v -> 0 < n < 32 -> is_word (rotl n v).
Proof.
  intros Hv Hn. rewrite <- rotate_rotl by done. unfold is_word in *. apply lor_bound; [lia|apply u32_word|].
  rewrite Z.shiftr_div_pow2 by lia. pose proof (Z.pow_pos_nonneg 2 (32 - n)).
  split; [apply Z.div_pos; lia|]. eapply Z.le_lt_trans; [|apply Hv]. apply Z.div_le_upper_bound; nia.
Qed.

Lemma lxor_word x y : is_word x -> is_word y -> is_word (Z.lxor x y).
Proof.
  intros Hx Hy. split; [apply Z.lxor_nonneg; unfold is_word in *; lia|].
  assert (E : Z.lxor x y = Z.lxor x y mod 2 ^ 32); [|rewrite E; apply Z.mod_pos_bound; lia].
  apply Z.bits_inj'. intros k Hk. destruct (Z.lt_ge_cases k 32).
  - by rewrite Z.mod_pow2_bits_low by lia.
  - rewrite Z.mod_pow2_bits_high, Z.lxor_spec, (testbit_high x 32), (testbit_high y 32) by (try done; lia). done.
Qed.

(** An equation between words, bit by bit. *)
Ltac by_bits :=
  apply Z.bits_inj'; intros k Hk; autorewrite with zbits; rewrite ?Z.lnot_spec by done;
  repeat match goal with |- context [Z.testbit ?x ?k] => destruct (Z.testbit x k) end; reflexivity.

Lemma div_at x q n r : x = q * n + r -> 0 <= r < n -> x / n = q.
Proof. intros -> H. symmetry. apply (Z.div_unique _ _ _ r); [by left|lia]. Qed.

Lemma mod_at x q n r : x = q * n + r -> 0 <= r < n -> x mod n = r.
Proof. intros -> H. symmetry. apply (Z.mod_unique _ _ q); [by left|lia]. Qed.

Lemma le_bytes_mod n z : le_bytes n (z mod 256 ^ Z.of_nat n) = le_bytes n z.
Proof.
  revert z. induction n as [|n IH]; intros z; [done|].
  rewrite Nat2Z.inj_succ, Z.pow_succ_r, Z.rem_mul_r by lia. cbn [le_bytes].
  rewrite (Z.mul_comm 256), Z_mod_plus_full, Zmod_mod, Z.div_add by lia.
  rewrite Z.div_small, Z.add_0_l, IH by (apply Z.mod_pos_bound; lia). done.
Qed.

Lemma le_bytes_8 z : le_bytes 8 z = le_bytes 4 z ++ le_bytes 4 (z / 2 ^ 32).
Proof.
  change (le_bytes 8 z) with (le_bytes 4 z ++ le_bytes 4 (z / 256 / 256 / 256 / 256)).
  by rewrite !Z.div_div by lia.
Qed.

(** A copy over the part [b] of a block. *)
Lemma memcpy_mid (a b c src : bytes) :
  zlen b = zlen src -> memcpy (a ++ b ++ c) (zlen a) src = Some (a ++ src ++ c).
Proof.
  intros Hl. pose proof (zlen_nonneg a). pose proof (zlen_nonneg src). pose proof (zlen_nonneg c).
  rewrite memcpy_spec by (rewrite ?zlen_app; lia). destruct (Z.eqb_spec (zlen src) 0) as [E|E].
  - rewrite (zlen_zero src E), (zlen_zero b) by lia. done.
  - unfold splice, zlen in *. rewrite Nat2Z.id, take_app_length. do 3 f_equal.
    rewrite drop_app_ge by lia. replace (length a + length src - length a)%nat with (length b) by lia.
    by rewrite drop_app_length.
Qed.

(** ** Blocks of 64 bytes *)

Fixpoint blocks (n : nat) (l : bytes) : list bytes :=
  match n with O => [] | S n => take 64 l :: blocks n (drop 64 l) end.

Lemma zlen_take64 (l : bytes) : 64 <= zlen l -> zlen (take 64 l) = 64.
Proof. unfold zlen. rewrite length_take. lia. Qed.

Lemma blocks_app k n (l1 l2 : bytes) : zlen l1 = 64 * Z.of_nat k ->
  blocks (k + n) (l1 ++ l2) = blocks k l1 ++ blocks n l2.
Proof.
  revert l1. induction k as [|k IH]; intros l1 Hl.
  { rewrite (zlen_zero l1) by lia. done. }
  cbn [blocks Nat.add app]. unfold zlen in Hl.
  rewrite take_app_le, drop_app_le by lia. rewrite IH; [done|]. unfold zlen. rewrite length_drop. lia.
Qed.

Lemma forall_slice (P : Z -> Prop) (l : bytes) i n : Forall P l -> Forall P (slice l i n).
Proof. intros. unfold slice. by apply Forall_take, Forall_drop. Qed.

Section Chain.
Context {S : Type} (compress : S -> bytes -> S).

Definition chain (H : S) (l : bytes) : S := fold_left compress (blocks (Z.to_nat (zlen l / 64)) l) H.

Lemma chain_app H (l1 l2 : bytes) : zlen l1 mod 64 = 0 -> chain H (l1 ++ l2) = chain (chain H l1) l2.
Proof.
  intros Hm. unfold chain. pose proof (zlen_nonneg l1). pose proof (zlen_nonneg l2).
  assert (El : zlen l1 = 64 * (zlen l1 / 64)) by (apply Z_div_exact_full_2; [lia|exact Hm]).
  set (k := zlen l1 / 64) in *. rewrite zlen_app, El, (Z.mul_comm 64), Z.div_add_l by lia.
  assert (0 <= zlen l2 / 64) by (apply Z.div_pos; lia).
  rewrite <- fold_left_app, Z2Nat.inj_add, blocks_app by lia. done.
Qed.

Lemma chain_short H (l : bytes) : zlen l < 64 -> chain H l = H.
Proof. intros Hl. unfold chain. rewrite Z.div_small; [done|]. pose proof (zlen_nonneg l). lia. Qed.

Lemma chain_block H (l : bytes) : zlen l = 64 -> chain H l = compress H l.
Proof.
  intros Hl. unfold chain. rewrite Hl. change (Z.to_nat (64 / 64)) with 1%nat.
  cbn [blocks fold_left]. rewrite take_ge; [done|]. unfold zlen in Hl. lia.
Qed.
End Chain.

Arguments chain_app {S compress} H l1 l2.
Arguments chain_short {S compress} H l.
Arguments chain_block {S compress} H l.
