(* ===== verification/Sha1.v ===== *)
(** * utils/SHA1.cpp

    The SHA-1 class: its rounds on the circular schedule of 16 words, [Update] with
    the bytes in any pieces, [Final]; against the definition of FIPS 180-4. *)

From S2P Require Import Prelude.
From S2P Require Import Words.
From S2P Require Import Digest.

Module SHA1.

(** ** Words of 32 bits *)

Definition ROL32 (v n : Z) : Z := Z.lor (u32 (Z.shiftl v n)) (Z.shiftr v (32 - n)).

(** ** Transform

    The working variables [a] to [e]; the rounds name them in turn. *)
Inductive var := va | vb | vc | vd | ve.

Record vars := mk_vars { a : Z; b : Z; c : Z; d : Z; e : Z }.

Definition get (x : var) (r : vars) : Z :=
  match x with va => a r | vb => b r | vc => c r | vd => d r | ve => e r end.

Definition set (x : var) (n : Z) (r : vars) : vars :=
  let '(mk_vars a b c d e) := r in
  match x with
  | va => mk_vars n b c d e
  | vb => mk_vars a n c d e
  | vc => mk_vars a b n d e
  | vd => mk_vars a b c n e
  | ve => mk_vars a b c d n
  end.

(** The block as 16 words of the (little-endian) machine, replaced in place by the
    words of the schedule. *)
Definition SHABLK0 (l : list Z) (i : Z) : Z * list Z :=
  let w := znth l i 0 in
  let w := Z.lor (Z.land (ROL32 w 24) 0xFF00FF00) (Z.land (ROL32 w 8) 0x00FF00FF) in
  (w, <[Z.to_nat i := w]> l).

Definition SHABLK (l : list Z) (i : Z) : Z * list Z :=
  let at_ k := znth l (Z.land k 15) 0 in
  let w := ROL32 (Z.lxor (Z.lxor (Z.lxor (at_ (i + 13)) (at_ (i + 8))) (at_ (i + 2))) (at_ i)) 1 in
  (w, <[Z.to_nat (Z.land i 15) := w]> l).

Definition f_choose (w x y : Z) : Z := Z.lxor (Z.land w (Z.lxor x y)) y.
Definition f_parity (w x y : Z) : Z := Z.lxor (Z.lxor w x) y.
Definition f_major (w x y : Z) : Z := Z.lor (Z.land (Z.lor w x) y) (Z.land w x).

Definition round (f : Z -> Z -> Z -> Z) (blk : list Z -> Z -> Z * list Z) (K : Z)
    (v w x y z : var) (i : Z) (s : vars * list Z) : vars * list Z :=
  let '(r, l) := s in
  let '(wi, l) := blk l i in
  let r := set z (u32 (get z r + (f (get w r) (get x r) (get y r) + wi + K + ROL32 (get v r) 5))) r in
  (set w (ROL32 (get w r) 30) r, l).

Definition R0 := round f_choose SHABLK0 0x5A827999.
Definition R1 := round f_choose SHABLK 0x5A827999.
Definition R2 := round f_parity SHABLK 0x6ED9EBA1.
Definition R3 := round f_major SHABLK 0x8F1BBCDC.
Definition R4 := round f_parity SHABLK 0xCA62C1D6.

(** The [i]-th of the 80 calls: the names rotate with period 5. *)
Definition call (i : Z) : vars * list Z -> vars * list Z :=
  let R := if i <? 16 then R0 else if i <? 20 then R1 else if i <? 40 then R2
    else if i <? 60 then R3 else R4 in
  match Z.to_nat (i mod 5) with
  | 0%nat => R va vb vc vd ve i
  | 1%nat => R ve va vb vc vd i
  | 2%nat => R vd ve va vb vc i
  | 3%nat => R vc vd ve va vb i
  | _ => R vb vc vd ve va i
  end.

Fixpoint rounds (n : nat) (i : Z) (s : vars * list Z) : vars * list Z :=
  match n with O => s | S n => rounds n (i + 1) (call i s) end.

(** [memcpy(m_block, buffer, 64)] *)
Definition workspace (buffer : bytes) : list Z :=
  map (fun i => of_le_bytes (slice buffer (4 * i) 4)) (seqZ 0 16).

Definition Transform (state : list Z) (buffer : bytes) : list Z :=
  let at_ k := znth state k 0 in
  let '(r, _) := rounds 80 0 (mk_vars (at_ 0) (at_ 1) (at_ 2) (at_ 3) (at_ 4), workspace buffer) in
  [u32 (at_ 0 + a r); u32 (at_ 1 + b r); u32 (at_ 2 + c r); u32 (at_ 3 + d r); u32 (at_ 4 + e r)].

(** ** The object *)

Record CSHA1 := mk_sha1 {
  m_state : list Z;
  m_count : Z * Z;
  m_buffer : bytes;
  m_digest : bytes }.

Definition initial_state : list Z := [0x67452301; 0xEFCDAB89; 0x98BADCFE; 0x10325476; 0xC3D2E1F0].

(** The constructor: the buffers have any contents. *)
Definition Reset (s : CSHA1) : CSHA1 := mk_sha1 initial_state (0, 0) (m_buffer s) (m_digest s).
Definition CSHA1_new (buffer digest : bytes) : CSHA1 := Reset (mk_sha1 [] (0, 0) buffer digest).

(** [for(; i + 63 < len; i += 64) Transform(m_state, &data[i])] *)
Fixpoint transform_loop (fuel : nat) (data : bytes) (len i : Z) (state : list Z) : option (Z * list Z) :=
  match fuel with
  | O => None
  | S fuel =>
      if u32 (i + 63) <? len
      then block ← load data i 64; transform_loop fuel data len (u32 (i + 64)) (Transform state block)
      else Some (i, state)
  end.

(** [None]: an access outside [data] or [m_buffer]. *)
Definition Update (data : bytes) (len : Z) (s : CSHA1) : option CSHA1 :=
  let j := Z.land (Z.shiftr (m_count s).1 3) 63 in
  let add := u32 (Z.shiftl len 3) in
  let count0 := u32 ((m_count s).1 + add) in
  let count1 := if count0 <? add then u32 ((m_count s).2 + 1) else (m_count s).2 in
  let count1 := u32 (count1 + Z.shiftr len 29) in
  '(i, j, state, buffer) ←
    (if u32 (j + len) >? 63
     then
       let i := 64 - j in
       src ← load data 0 i;
       buffer ← memcpy (m_buffer s) j src;
       '(i, state) ← transform_loop (Z.to_nat len + 1) data len i (Transform (m_state s) buffer);
       Some (i, 0, state, buffer)
     else Some (0, j, m_state s, m_buffer s));
  src ← load data i (u32 (len - i));
  buffer ← memcpy buffer j src;
  Some (mk_sha1 state (count0, count1) buffer (m_digest s)).

(** The loop that pads with zeros. *)
Fixpoint pad_loop (fuel : nat) (s : CSHA1) : option CSHA1 :=
  match fuel with
  | O => None
  | S fuel =>
      if negb (Z.land (m_count s).1 504 =? 448) then s ← Update [0] 1 s; pad_loop fuel s else Some s
  end.

Definition nth_byte (word i : Z) : Z := Z.land (Z.shiftr word ((3 - Z.land i 3) * 8)) 255.

Definition Final (s : CSHA1) : option CSHA1 :=
  let finalcount := map (fun i => nth_byte (if i >=? 4 then (m_count s).1 else (m_count s).2) i) (seqZ 0 8) in
  s ← Update [128] 1 s;
  s ← pad_loop 64 s;
  s ← Update finalcount 8 s;
  let digest := map (fun i => nth_byte (znth (m_state s) (Z.shiftr i 2) 0) i) (seqZ 0 20) in
  let wiped := replicate 64 0 in
  Some (mk_sha1 (Transform (replicate 5 0) wiped) (0, 0) wiped digest).

Definition GetHash (s : CSHA1) : bytes := m_digest s.

(** ** FIPS 180-4 *)

Module FIPS.
Definition f (t x y z : Z) : Z :=
  if t <? 20 then Z.lxor (Z.land x y) (Z.land (Z.lnot x) z)
  else if t <? 40 then Z.lxor (Z.lxor x y) z
  else if t <? 60 then Z.lxor (Z.lxor (Z.land x y) (Z.land x z)) (Z.land y z)
  else Z.lxor (Z.lxor x y) z.

Definition K (t : Z) : Z :=
  if t <? 20 then 0x5a827999 else if t <? 40 then 0x6ed9eba1 else if t <? 60 then 0x8f1bbcdc else 0xca62c1d6.

Definition be_word (l : bytes) : Z := fold_left (fun n b => n * 256 + b) l 0.

(** The words of a block, and the schedule of 16 + n words that continues them. *)
Definition block_words (block : bytes) : list Z := map (fun i => be_word (slice block (4 * i) 4)) (seqZ 0 16).

Fixpoint schedule (n : nat) (block : bytes) : list Z :=
  match n with
  | O => block_words block
  | S n =>
      let W := schedule n block in
      let t := 16 + Z.of_nat n in
      let at_ k := znth W (t - k) 0 in
      W ++ [rotl 1 (Z.lxor (Z.lxor (Z.lxor (at_ 3) (at_ 8)) (at_ 14)) (at_ 16))]
  end.

Definition step (W : list Z) (r : vars) (t : Z) : vars :=
  let '(mk_vars a b c d e) := r in
  mk_vars ((rotl 5 a + f t b c d + e + K t + znth W t 0) mod 2 ^ 32) a (rotl 30 b) c d.

Definition compress (H : vars) (block : bytes) : vars :=
  let r := fold_left (step (schedule 64 block)) (seqZ 0 80) H in
  mk_vars ((a r + a H) mod 2 ^ 32) ((b r + b H) mod 2 ^ 32) ((c r + c H) mod 2 ^ 32)
    ((d r + d H) mod 2 ^ 32) ((e r + e H) mod 2 ^ 32).

Definition H0 : vars := mk_vars 0x67452301 0xefcdab89 0x98badcfe 0x10325476 0xc3d2e1f0.

Definition be_bytes (n : nat) (z : Z) : bytes := rev (le_bytes n z).

Definition pad (m : bytes) : bytes :=
  m ++ [0x80] ++ replicate (Z.to_nat ((55 - zlen m) mod 64)) 0 ++ be_bytes 8 (8 * zlen m).

Abbreviation chain := (chain compress).

Definition sha1 (m : bytes) : bytes :=
  let H := chain H0 (pad m) in
  be_bytes 4 (a H) ++ be_bytes 4 (b H) ++ be_bytes 4 (c H) ++ be_bytes 4 (d H) ++ be_bytes 4 (e H).
End FIPS.


(** ** The rounds compute the functions of the standard *)

Lemma ROL32_rotl v n : is_word v -> 0 < n < 32 -> ROL32 v n = rotl n v.
Proof. exact (rotate_rotl v n). Qed.

Lemma choose_fips x y z : f_choose x y z = Z.lxor (Z.land x y) (Z.land (Z.lnot x) z).
Proof. unfold f_choose. by_bits. Qed.

Lemma major_fips x y z : f_major x y z = Z.lxor (Z.lxor (Z.land x y) (Z.land x z)) (Z.land y z).
Proof. unfold f_major. by_bits. Qed.

(** The little-endian word, its bytes swapped, is the big-endian word. *)
Lemma land_byte_at x n : 0 <= n -> Z.land x (Z.shiftl 255 n) = Z.shiftl (x / 2 ^ n mod 256) n.
Proof.
  intros Hn. change 255 with (Z.ones 8). change 256 with (2 ^ 8).
  rewrite <- Z.land_ones, <- Z.shiftr_div_pow2 by lia. apply Z.bits_inj'. intros k Hk.
  autorewrite with zbits. destruct (Z.lt_ge_cases k n).
  - rewrite (Z.testbit_neg_r _ (k - n)), andb_false_r by lia. by rewrite (Z.testbit_neg_r _ (k - n)) by lia.
  - rewrite Z.shiftr_spec by lia. f_equal. f_equal. lia.
Qed.

Lemma lor_bytes p q r s : is_byte p -> is_byte q -> is_byte r -> is_byte s ->
  Z.lor (Z.lor (Z.shiftl p 8) (Z.shiftl q 24)) (Z.lor (Z.shiftl r 0) (Z.shiftl s 16)) =
  r + p * 2 ^ 8 + s * 2 ^ 16 + q * 2 ^ 24.
Proof.
  unfold is_byte. intros Hp Hq Hr Hs.
  transitivity (Z.lor (Z.lor (Z.lor r (Z.shiftl p 8)) (Z.shiftl s 16)) (Z.shiftl q 24)).
  - rewrite Z.shiftl_0_r. by_bits.
  - rewrite (lor_shiftl_add r p 8), (lor_shiftl_add _ s 16), (lor_shiftl_add _ q 24) by lia. done.
Qed.

Lemma byte_swap w b0 b1 b2 b3 :
  is_byte b0 -> is_byte b1 -> is_byte b2 -> is_byte b3 ->
  w = b0 + 256 * (b1 + 256 * (b2 + 256 * b3)) ->
  Z.lor (Z.land (ROL32 w 24) 0xFF00FF00) (Z.land (ROL32 w 8) 0x00FF00FF) =
  b3 + 256 * (b2 + 256 * (b1 + 256 * b0)).
Proof.
  unfold is_byte. intros H0 H1 H2 H3 Hw.
  rewrite !ROL32_rotl by (unfold is_word; lia). unfold rotl.
  change (32 - 24) with 8. change (32 - 8) with 24.
  change 0xFF00FF00 with (Z.lor (Z.shiftl 255 8) (Z.shiftl 255 24)).
  change 0x00FF00FF with (Z.lor (Z.shiftl 255 0) (Z.shiftl 255 16)).
  rewrite !Z.land_lor_distr_r, !land_byte_at by lia.
  rewrite (mod_at (w * 2 ^ 24) (b1 + 256 * (b2 + 256 * b3)) _ (b0 * 2 ^ 24)) by lia.
  rewrite (div_at w (b1 + 256 * (b2 + 256 * b3)) (2 ^ 8) b0) by lia.
  rewrite (mod_at (w * 2 ^ 8) b3 _ (b0 * 2 ^ 8 + b1 * 2 ^ 16 + b2 * 2 ^ 24)) by lia.
  rewrite (div_at w b3 (2 ^ 24) (b0 + 256 * (b1 + 256 * b2))) by lia. clear Hw w.
  rewrite (div_at _ (b2 + 256 * (b3 + 256 * b0)) (2 ^ 8) b1), (mod_at _ (b3 + 256 * b0) 256 b2) by lia.
  rewrite (div_at _ b0 (2 ^ 24) (b1 + 256 * (b2 + 256 * b3))), (mod_at b0 0 256 b0) by lia.
  rewrite Z.pow_0_r, Z.div_1_r, (mod_at _ (b0 + b1 * 2 ^ 8 + b2 * 2 ^ 16) 256 b3) by lia.
  rewrite (div_at _ (b1 + 256 * b2) (2 ^ 16) (b3 + b0 * 2 ^ 8)), (mod_at _ b2 256 b1) by lia.
  rewrite lor_bytes by (unfold is_byte; lia). ring.
Qed.

(** ** The circular schedule *)

Section Block.
Context (block : bytes) (Hlen : zlen block = 64) (Hbytes : Forall is_byte block).

Definition W (t : Z) : Z := znth (FIPS.schedule 64 block) t 0.

Lemma length_schedule n : length (FIPS.schedule n block) = (16 + n)%nat.
Proof. induction n; [done|]. cbn [FIPS.schedule]. rewrite length_app, IHn. simpl. lia. Qed.

Lemma schedule_prefix n m t : (n <= m)%nat -> t < 16 + Z.of_nat n ->
  znth (FIPS.schedule m block) t 0 = znth (FIPS.schedule n block) t 0.
Proof.
  intros Hnm Ht. induction Hnm as [|m Hnm IH]; [done|]. cbn [FIPS.schedule].
  rewrite znth_app_l; [done|]. unfold zlen. rewrite length_schedule. lia.
Qed.

Lemma W_prefix n t : (n <= 64)%nat -> t < 16 + Z.of_nat n -> W t = znth (FIPS.schedule n block) t 0.
Proof. apply schedule_prefix. Qed.

#[local] Opaque W.

Lemma W_next t : 16 <= t < 80 ->
  W t = rotl 1 (Z.lxor (Z.lxor (Z.lxor (W (t - 3)) (W (t - 8))) (W (t - 14))) (W (t - 16))).
Proof.
  intros Ht. set (n := Z.to_nat (t - 16)). assert (Hn : 16 + Z.of_nat n = t) by lia.
  rewrite (W_prefix (S n) t) by lia. cbn [FIPS.schedule].
  rewrite !(W_prefix n) by lia.
  assert (El : zlen (FIPS.schedule n block) = t) by (unfold zlen; rewrite length_schedule; lia).
  rewrite znth_app_r by lia. rewrite El, Z.sub_diag, Hn. done.
Qed.

Lemma W_block t : 0 <= t < 16 -> W t = FIPS.be_word (slice block (4 * t) 4).
Proof.
  intros Ht. rewrite (W_prefix 0) by lia. cbn [FIPS.schedule]. unfold FIPS.block_words.
  apply znth_lookup; [lia|]. rewrite list_lookup_fmap, lookup_seqZ_lt by lia. simpl. do 3 f_equal. lia.
Qed.

(** *** The circular block *)

Definition circular (i : Z) (l : list Z) : Prop :=
  length l = 16%nat /\
  (forall t, 0 <= t < i -> i - 16 <= t -> znth l (t mod 16) 0 = W t) /\
  (forall t, i <= t < 16 -> znth l t 0 = of_le_bytes (slice block (4 * t) 4)).

Lemma four_bytes t : 0 <= t < 16 -> exists b0 b1 b2 b3,
  slice block (4 * t) 4 = [b0; b1; b2; b3] /\ is_byte b0 /\ is_byte b1 /\ is_byte b2 /\ is_byte b3.
Proof.
  intros Ht. pose proof (zlen_slice block (4 * t) 4 ltac:(lia) ltac:(lia) ltac:(lia)) as Hl.
  assert (Hb : Forall is_byte (slice block (4 * t) 4)) by (unfold slice; by apply Forall_take, Forall_drop).
  destruct (slice block (4 * t) 4) as [|b0 [|b1 [|b2 [|b3 [|? l]]]]]; try (unfold zlen in Hl; simpl in Hl; lia).
  exists b0, b1, b2, b3. rewrite !Forall_cons in Hb. tauto.
Qed.

Lemma word_bytes b0 b1 b2 b3 : is_byte b0 -> is_byte b1 -> is_byte b2 -> is_byte b3 ->
  is_word (b3 + 256 * (b2 + 256 * (b1 + 256 * b0))).
Proof. unfold is_byte, is_word. lia. Qed.

Lemma W_word t : 0 <= t < 80 -> is_word (W t).
Proof.
  intros [H0 H1]. revert H1. pattern t. apply Zlt_0_ind; [|done]. clear t H0. intros t IH H0 H1.
  destruct (Z.lt_ge_cases t 16) as [H|H].
  - rewrite W_block by lia. destruct (four_bytes t) as (b0 & b1 & b2 & b3 & -> & B0 & B1 & B2 & B3); [lia|].
    pose proof (word_bytes b0 b1 b2 b3 B0 B1 B2 B3). unfold FIPS.be_word, is_word in *. simpl. lia.
  - rewrite W_next by lia. apply rotl_word; [|lia]. repeat apply lxor_word; apply IH; lia.
Qed.

Lemma znth_insert_eq (l : list Z) i v : 0 <= i < zlen l -> znth (<[Z.to_nat i := v]> l) i 0 = v.
Proof.
  intros Hi. apply znth_lookup; [lia|]. apply list_lookup_insert_eq. unfold zlen in Hi. lia.
Qed.

Lemma znth_insert_ne (l : list Z) i k v : 0 <= i -> 0 <= k -> i <> k -> znth (<[Z.to_nat i := v]> l) k 0 = znth l k 0.
Proof.
  intros Hi Hk Hne. unfold znth. rewrite (proj2 (Z.ltb_ge k 0)) by lia.
  rewrite !nth_lookup, list_lookup_insert_ne by lia. done.
Qed.

Lemma shablk0_step i l : 0 <= i < 16 -> circular i l ->
  exists l', SHABLK0 l i = (W i, l') /\ circular (i + 1) l'.
Proof.
  intros Hi (Hl & H1 & H2). eexists. unfold SHABLK0. rewrite H2 by lia.
  destruct (four_bytes i) as (b0 & b1 & b2 & b3 & E & B0 & B1 & B2 & B3); [lia|]. rewrite E.
  rewrite (byte_swap _ b0 b1 b2 b3) by (try done; simpl; lia).
  assert (EW : b3 + 256 * (b2 + 256 * (b1 + 256 * b0)) = W i).
  { rewrite W_block, E by lia. unfold FIPS.be_word. simpl. lia. }
  rewrite EW. split; [done|]. split; [by rewrite length_insert|]. split.
  - intros t Ht1 Ht2. rewrite Z.mod_small by lia. destruct (Z.eq_dec i t) as [->|Hne].
    + apply znth_insert_eq. unfold zlen. lia.
    + rewrite znth_insert_ne by lia. rewrite <- (H1 t), Z.mod_small by lia. done.
  - intros t Ht. rewrite znth_insert_ne by lia. apply H2. lia.
Qed.

Lemma land15 k : Z.land k 15 = k mod 16.
Proof. change 15 with (Z.ones 4). by rewrite Z.land_ones. Qed.

Lemma shablk_step i l : 16 <= i < 80 -> circular i l ->
  exists l', SHABLK l i = (W i, l') /\ circular (i + 1) l'.
Proof.
  intros Hi (Hl & H1 & H2). eexists. unfold SHABLK. rewrite !land15.
  replace ((i + 13) mod 16) with ((i - 3) mod 16) by dlia.
  replace ((i + 8) mod 16) with ((i - 8) mod 16) by dlia.
  replace ((i + 2) mod 16) with ((i - 14) mod 16) by dlia.
  assert (E0 : znth l (i mod 16) 0 = W (i - 16)).
  { replace (i mod 16) with ((i - 16) mod 16) by dlia. apply H1; lia. }
  rewrite E0, !H1 by lia.
  rewrite ROL32_rotl by (try lia; repeat apply lxor_word; apply W_word; lia). rewrite <- W_next by lia.
  split; [done|]. split; [by rewrite length_insert|]. split; [|lia].
  intros t Ht1 Ht2. destruct (Z.eq_dec i t) as [->|Hne].
  - apply znth_insert_eq. unfold zlen. dlia.
  - rewrite znth_insert_ne by dlia. apply H1; lia.
Qed.

Lemma workspace_circular : circular 0 (workspace block).
Proof.
  unfold workspace. split; [by rewrite length_map, length_seqZ|]. split; [lia|]. intros t Ht.
  apply znth_lookup; [lia|]. rewrite list_lookup_fmap, lookup_seqZ_lt by lia. simpl. do 3 f_equal. lia.
Qed.

(** *** The rounds *)

(** The working variables in the roles that they have in round [i]. *)
Definition view (i : Z) (r : vars) : vars :=
  match Z.to_nat (i mod 5) with
  | 0%nat => r
  | 1%nat => mk_vars (e r) (a r) (b r) (c r) (d r)
  | 2%nat => mk_vars (d r) (e r) (a r) (b r) (c r)
  | 3%nat => mk_vars (c r) (d r) (e r) (a r) (b r)
  | _ => mk_vars (b r) (c r) (d r) (e r) (a r)
  end.

Definition vars_ok (r : vars) : Prop :=
  is_word (a r) /\ is_word (b r) /\ is_word (c r) /\ is_word (d r) /\ is_word (e r).

(** The macro of round [i], on any names. *)
Definition R_of (i : Z) := if i <? 16 then R0 else if i <? 20 then R1 else if i <? 40 then R2
  else if i <? 60 then R3 else R4.

Lemma R_of_fips i v w x y z r l : 0 <= i < 80 -> circular i l ->
  is_word (get v r) -> is_word (get w (set z 0 r)) -> (w <> z) ->
  exists l', circular (i + 1) l' /\
    R_of i v w x y z i (r, l) =
      (let r' := set z ((rotl 5 (get v r) + FIPS.f i (get w r) (get x r) (get y r) + get z r +
         FIPS.K i + W i) mod 2 ^ 32) r in set w (rotl 30 (get w r)) r', l').
Proof.
  intros Hi Hc Hv Hw Hne.
  assert (E : exists f blk l', R_of i = round f blk (FIPS.K i) /\ circular (i + 1) l' /\ blk l i = (W i, l') /\
    forall w x y, f w x y = FIPS.f i w x y).
  { unfold R_of, FIPS.K, FIPS.f, R0, R1, R2, R3, R4. destruct (Z.ltb_spec i 16).
    - destruct (shablk0_step i l) as (l' & E & Hc'); [lia|done|]. rewrite (proj2 (Z.ltb_lt i 20)) by lia.
      exists f_choose, SHABLK0, l'. split_and!; try done. apply choose_fips.
    - destruct (shablk_step i l) as (l' & E & Hc'); [lia|done|].
      zbool; eexists _, SHABLK, l'; split_and!; try done; [apply choose_fips|apply major_fips]. }
  destruct E as (f & blk & l' & -> & Hc' & Eb & Ef). exists l'. split; [done|].
  unfold round. rewrite Eb, Ef, (ROL32_rotl (get v r) 5) by (done || lia). f_equal.
  assert (Eg : forall n m, get w (set z n r) = get w (set z m r)) by (intros; by destruct r, w, z).
  assert (Ew : get w (set z 0 r) = get w r) by (destruct r, w, z; done).
  rewrite (Eg _ 0), ROL32_rotl, Ew by (done || lia). do 2 f_equal. unfold wrap. f_equal. lia.
Qed.

Lemma call_fips i r l : 0 <= i < 80 -> circular i l -> vars_ok r ->
  exists r' l', call i (r, l) = (r', l') /\ circular (i + 1) l' /\ vars_ok r' /\
    view (i + 1) r' = FIPS.step (FIPS.schedule 64 block) (view i r) i.
Proof.
  intros Hi Hc (Ha & Hb & Hcc & Hd & He). destruct r as [ra rb rc rd re]. cbn [a b c d e] in *.
  assert (Hm : 0 <= i mod 5 < 5) by (apply Z.mod_pos_bound; lia).
  assert (Hs : (i + 1) mod 5 = (i mod 5 + 1) mod 5) by dlia.
  unfold call, view. fold (R_of i). rewrite Hs. change (znth (FIPS.schedule 64 block) i 0) with (W i).
  assert (i mod 5 = 0 \/ i mod 5 = 1 \/ i mod 5 = 2 \/ i mod 5 = 3 \/ i mod 5 = 4) as Hcases by lia.
  assert (Hw : forall n, is_word (n mod 2 ^ 32)) by (intros; by apply Z.mod_pos_bound).
  assert (Hr : forall n, is_word n -> is_word (rotl 30 n)) by (intros; by apply rotl_word).
  destruct Hcases as [E|[E|[E|[E|E]]]]; rewrite E;
    match goal with |- context [Z.to_nat ?k] => let n := eval vm_compute in (Z.to_nat k) in change (Z.to_nat k) with n end;
    match goal with |- context [Z.to_nat ?k] => let n := eval vm_compute in (Z.to_nat k) in change (Z.to_nat k) with n end;
    cbv iota;
    match goal with |- exists r' l', R_of _ ?v ?w ?x ?y ?z _ (?r, _) = _ /\ _ =>
      destruct (R_of_fips i v w x y z r l Hi Hc) as (l' & Hc' & ->); [done..|];
      eexists _, l'; split; [reflexivity|]; split; [done|]
    end;
    cbn [get set a b c d e FIPS.step]; (split; [unfold vars_ok; cbn [a b c d e]; split_and!; auto|done]).
Qed.

Lemma rounds_fips n : forall i r l, 0 <= i -> i + Z.of_nat n <= 80 -> circular i l -> vars_ok r ->
  exists r' l', rounds n i (r, l) = (r', l') /\ vars_ok r' /\
    view (i + Z.of_nat n) r' = fold_left (FIPS.step (FIPS.schedule 64 block)) (seqZ i (Z.of_nat n)) (view i r).
Proof.
  induction n as [|n IH]; intros i r l Hi Hn Hc Hr.
  { exists r, l. split; [done|]. split; [done|]. by rewrite Z.add_0_r. }
  destruct (call_fips i r l) as (r1 & l1 & E & Hc1 & Hr1 & Ev); [lia|done|done|].
  destruct (IH (i + 1) r1 l1) as (r2 & l2 & E2 & Hr2 & Ev2); [lia|lia|done|done|].
  exists r2, l2. cbn [rounds]. rewrite E. split; [done|]. split; [done|].
  rewrite seqZ_cons by lia. cbn [fold_left]. rewrite <- Ev.
  replace (i + Z.of_nat (S n)) with (i + 1 + Z.of_nat n) by lia.
  replace (Z.pred (Z.of_nat (S n))) with (Z.of_nat n) by lia. exact Ev2.
Qed.
End Block.

(** [Transform] is the compression function. *)
Definition of_vars (r : vars) : list Z := [a r; b r; c r; d r; e r].

Lemma transform_fips H block : vars_ok H -> zlen block = 64 -> Forall is_byte block ->
  Transform (of_vars H) block = of_vars (FIPS.compress H block) /\ vars_ok (FIPS.compress H block).
Proof.
  intros Hok Hlen Hb. unfold Transform, of_vars, FIPS.compress.
  destruct (rounds_fips block Hlen Hb 80 0 H (workspace block)) as (r & l & E & _ & Ev);
    [lia|done|by apply workspace_circular|done|].
  change (Z.of_nat 80) with 80 in Ev. change (view (0 + 80) r) with r in Ev. change (view 0 H) with H in Ev.
  destruct H as [h0 h1 h2 h3 h4]. cbn [a b c d e] in *.
  change (znth [h0; h1; h2; h3; h4] 0 0) with h0. change (znth [h0; h1; h2; h3; h4] 1 0) with h1.
  change (znth [h0; h1; h2; h3; h4] 2 0) with h2. change (znth [h0; h1; h2; h3; h4] 3 0) with h3.
  change (znth [h0; h1; h2; h3; h4] 4 0) with h4. rewrite E, <- Ev. split.
  - unfold wrap. rewrite (Z.add_comm h0), (Z.add_comm h1), (Z.add_comm h2), (Z.add_comm h3), (Z.add_comm h4). done.
  - unfold vars_ok, is_word. cbn [a b c d e]. split_and!; by apply Z.mod_pos_bound.
Qed.

#[local] Opaque FIPS.compress Transform.

(** ** Update *)

Lemma transform_loop_fips fuel (data : bytes) : forall len i H,
  Forall is_byte data -> zlen data = len -> 0 <= i <= len -> len <= 2 ^ 32 - 128 -> len - i < 64 * Z.of_nat fuel ->
  vars_ok H ->
  exists i', transform_loop fuel data len i (of_vars H) = Some (i', of_vars (FIPS.chain H (slice data i (i' - i)))) /\
    i <= i' <= len /\ len < i' + 64 /\ (i' - i) mod 64 = 0 /\ vars_ok (FIPS.chain H (slice data i (i' - i))).
Proof.
  induction fuel as [|fuel IH]; intros len i H Hb Hl Hi Hmax Hfuel Hok; [lia|]. cbn [transform_loop].
  rewrite (wrap_small 32 (i + 63)), (wrap_small 32 (i + 64)) by lia.
  destruct (Z.ltb_spec (i + 63) len) as [Hlt|Hge].
  - rewrite load_ok by lia. cbn [mbind option_bind].
    set (blk := slice data i 64). assert (Lb : zlen blk = 64) by (apply zlen_slice; lia).
    destruct (transform_fips H blk) as [E Hok']; [done|done|by apply forall_slice|]. rewrite E.
    destruct (IH len (i + 64) (FIPS.compress H blk)) as (i' & E' & H1 & H2 & H3 & H4);
      [done|done|lia|done|lia|done|].
    assert (Es : slice data i (i' - i) = blk ++ slice data (i + 64) (i' - (i + 64))).
    { unfold blk. rewrite <- slice_add by lia. f_equal. lia. }
    assert (Ec : FIPS.chain H (slice data i (i' - i)) =
      FIPS.chain (FIPS.compress H blk) (slice data (i + 64) (i' - (i + 64)))).
    { rewrite Es, chain_app, (chain_block H blk); [reflexivity|exact Lb|by rewrite Lb]. }
    exists i'. rewrite Ec. split; [exact E'|]. split_and!; [lia|lia|lia| |done].
    replace (i' - i) with (i' - (i + 64) + 1 * 64) by lia. by rewrite Z_mod_plus_full.
  - exists i. rewrite Z.sub_diag, slice_nil, chain_short by (done || lia). split_and!; try done; lia.
Qed.

(** The object after the bytes [m]: whole blocks are hashed, the rest is in the buffer. *)
Record absorbed (m : bytes) (s : CSHA1) : Prop := mk_absorbed {
  ab_bytes : Forall is_byte m;
  ab_count : m_count s = ((8 * zlen m) mod 2 ^ 32, (8 * zlen m) / 2 ^ 32);
  ab_split : exists full rest, m = full ++ rest /\ zlen full mod 64 = 0 /\ zlen rest < 64 /\
    m_state s = of_vars (FIPS.chain FIPS.H0 full) /\ vars_ok (FIPS.chain FIPS.H0 full) /\
    slice (m_buffer s) 0 (zlen rest) = rest;
  ab_buffer : zlen (m_buffer s) = 64 }.

Lemma absorbed_new buffer digest : zlen buffer = 64 -> absorbed [] (CSHA1_new buffer digest).
Proof.
  intros Hb. constructor; [done|done| |done]. exists [], []. split_and!; try done.
Qed.

Lemma count_add n len : 0 <= n -> 0 <= len < 2 ^ 32 -> n + len < 2 ^ 61 ->
  let c0 := (8 * n) mod 2 ^ 32 in
  let add := u32 (Z.shiftl len 3) in
  let count0 := u32 (c0 + add) in
  count0 = (8 * (n + len)) mod 2 ^ 32 /\
  u32 ((if count0 <? add then u32 (8 * n / 2 ^ 32 + 1) else 8 * n / 2 ^ 32) + Z.shiftr len 29) =
    8 * (n + len) / 2 ^ 32.
Proof.
  intros Hn Hl Hs c0 add count0. rewrite Z.shiftr_div_pow2 by lia.
  assert (Ea : add = (8 * len) mod 2 ^ 32).
  { unfold add, wrap. rewrite Z.shiftl_mul_pow2 by lia. f_equal. lia. }
  assert (El : len / 2 ^ 29 = 8 * len / 2 ^ 32).
  { change (2 ^ 32) with (8 * 2 ^ 29). rewrite Z.div_mul_cancel_l by lia. done. }
  pose proof (Z.div_mod (8 * n) (2 ^ 32) ltac:(lia)) as E1. pose proof (Z.div_mod (8 * len) (2 ^ 32) ltac:(lia)) as E2.
  pose proof (Z.mod_pos_bound (8 * n) (2 ^ 32) ltac:(lia)). pose proof (Z.mod_pos_bound (8 * len) (2 ^ 32) ltac:(lia)).
  fold c0 in E1, H. rewrite <- Ea in E2, H0. rewrite El.
  set (q1 := 8 * n / 2 ^ 32) in *. set (q2 := 8 * len / 2 ^ 32) in *.
  assert (0 <= q1) by (apply Z.div_pos; lia). assert (0 <= q2) by (apply Z.div_pos; lia).
  clearbody q1 q2 add. clear Ea El. clearbody c0. unfold count0, wrap.
  destruct (Z.lt_ge_cases (c0 + add) (2 ^ 32)) as [Hc|Hc].
  - rewrite (Z.mod_small (c0 + add)) by lia. rewrite (proj2 (Z.ltb_ge _ _)) by lia.
    rewrite (mod_at (8 * (n + len)) (q1 + q2) _ (c0 + add)), (div_at (8 * (n + len)) (q1 + q2) _ (c0 + add)) by lia.
    split; [done|]. rewrite Z.mod_small; lia.
  - rewrite (mod_at (c0 + add) 1 _ (c0 + add - 2 ^ 32)) by lia. rewrite (proj2 (Z.ltb_lt _ _)) by lia.
    rewrite (mod_at (8 * (n + len)) (q1 + q2 + 1) _ (c0 + add - 2 ^ 32)),
      (div_at (8 * (n + len)) (q1 + q2 + 1) _ (c0 + add - 2 ^ 32)) by lia.
    split; [done|]. rewrite (Z.mod_small (q1 + 1)) by lia. rewrite Z.mod_small; lia.
Qed.
Lemma buffered n : 0 <= n -> Z.land (Z.shiftr ((8 * n) mod 2 ^ 32) 3) 63 = n mod 64.
Proof.
  intros Hn. change 63 with (Z.ones 6). rewrite Z.land_ones, Z.shiftr_div_pow2 by lia.
  assert (E : (8 * n) mod 2 ^ 32 = 8 * (n mod 2 ^ 29)) by (by rewrite <- Z.mul_mod_distr_l by lia).
  rewrite E. change (2 ^ 3) with 8. rewrite (Z.mul_comm 8), Z.div_mul by lia. change (2 ^ 6) with 64.
  change (2 ^ 29) with (64 * 2 ^ 23). rewrite Z.rem_mul_r, (Z.mul_comm 64), Z_mod_plus_full by lia.
  apply Zmod_mod.
Qed.

Lemma mod64_rest (full rest : bytes) : zlen full mod 64 = 0 -> zlen rest < 64 -> zlen (full ++ rest) mod 64 = zlen rest.
Proof.
  intros Hf Hr. rewrite zlen_app, Zplus_mod, Hf, Z.add_0_l, Zmod_mod. apply Z.mod_small.
  pose proof (zlen_nonneg rest). lia.
Qed.

Lemma memcpy_prefix (dst src : bytes) j : 0 <= j -> j + zlen src <= zlen dst ->
  exists dst', memcpy dst j src = Some dst' /\ zlen dst' = zlen dst /\ slice dst' 0 (j + zlen src) = slice dst 0 j ++ src.
Proof.
  intros Hj Hl. rewrite memcpy_spec by done. eexists. split; [done|]. pose proof (zlen_nonneg src).
  destruct (Z.eqb_spec (zlen src) 0) as [E|E].
  - split; [done|]. apply zlen_zero in E as ->. rewrite app_nil_r. f_equal. unfold zlen. simpl. lia.
  - split; [by apply zlen_splice|].
    rewrite slice_add, slice_splice_before, Z.add_0_l, slice_splice_same by lia. done.
Qed.

Lemma update_absorbs m s data len :
  absorbed m s -> Forall is_byte data -> zlen data = len -> len <= 2 ^ 32 - 128 -> zlen m + len < 2 ^ 61 ->
  exists s', Update data len s = Some s' /\ absorbed (m ++ data) s' /\ m_digest s' = m_digest s.
Proof.
  intros [Hb Hc (full & rest & -> & Hf & Hr & Hs & Hok & Hbuf) Hlen] Hd Hl Hmax Htot.
  pose proof (zlen_nonneg data) as Hl0. pose proof (zlen_nonneg rest) as Hr0. set (m := full ++ rest) in *.
  destruct (count_add (zlen m) len) as [C1 C2]; [apply zlen_nonneg|lia|lia|]. cbv zeta in C1, C2.
  pose proof (mod64_rest full rest Hf Hr) as Em. fold m in Em.
  unfold Update. rewrite Hc. cbn [fst snd]. rewrite C1 in *. rewrite C2, buffered, Em by apply zlen_nonneg.
  clear C1 C2 Em.
  assert (Hc' : forall st buf dig, m_count (mk_sha1 st ((8 * (zlen m + len)) mod 2 ^ 32, 8 * (zlen m + len) / 2 ^ 32) buf dig) =
    ((8 * zlen (m ++ data)) mod 2 ^ 32, 8 * zlen (m ++ data) / 2 ^ 32)) by (intros; by rewrite zlen_app, Hl).
  assert (Hb' : Forall is_byte (m ++ data)) by (by apply Forall_app).
  rewrite wrap_small by lia. rewrite Z.gtb_ltb. destruct (Z.ltb_spec 63 (zlen rest + len)) as [Hge|Hlt].
  - (* the buffer becomes full *)
    set (j := zlen rest) in *. set (i := 64 - j).
    rewrite (load_ok data 0 i) by lia. cbn [mbind option_bind].
    assert (Li : zlen (slice data 0 i) = i) by (apply zlen_slice; lia).
    destruct (memcpy_prefix (m_buffer s) (slice data 0 i) j) as (buf & -> & Lbuf & Ebuf); [lia|lia|].
    cbn [mbind option_bind]. rewrite Li, Hbuf in Ebuf. replace (j + i) with 64 in Ebuf by lia.
    rewrite Hlen in Lbuf. rewrite <- Lbuf, slice_all in Ebuf.
    assert (Hbb : Forall is_byte buf).
    { rewrite Ebuf. apply Forall_app. split; [by apply Forall_app in Hb as [_ Hb]|by apply forall_slice]. }
    rewrite Hs. destruct (transform_fips _ buf Hok Lbuf Hbb) as [-> Hok1].
    destruct (transform_loop_fips (Z.to_nat len + 1) data len i _ Hd Hl ltac:(lia) Hmax ltac:(lia) Hok1)
      as (i' & -> & H1 & H2 & H3 & Hok2). cbn [mbind option_bind].
    rewrite wrap_small by lia. rewrite load_ok by lia. cbn [mbind option_bind].
    assert (Lt : zlen (slice data i' (len - i')) = len - i') by (apply zlen_slice; lia).
    destruct (memcpy_prefix buf (slice data i' (len - i')) 0) as (buf' & -> & Lbuf' & Ebuf'); [lia|lia|].
    cbn [mbind option_bind]. eexists. split; [done|]. split; [|done]. constructor; [done|apply Hc'| |cbn [m_buffer]; lia].
    exists (full ++ buf ++ slice data i (i' - i)), (slice data i' (len - i')).
    assert (Lm : zlen (slice data i (i' - i)) = i' - i) by (apply zlen_slice; lia).
    assert (Ec : FIPS.chain FIPS.H0 (full ++ buf ++ slice data i (i' - i)) =
      FIPS.chain (FIPS.compress (FIPS.chain FIPS.H0 full) buf) (slice data i (i' - i))).
    { rewrite chain_app, chain_app, (chain_block _ buf) by (done || by rewrite Lbuf). done. }
    rewrite Ec. split_and!; [| |lia|done|done|].
    + rewrite Ebuf. unfold m. rewrite <- !app_assoc. do 2 f_equal.
      rewrite <- (slice_all data) at 1. rewrite Hl. replace len with (i + ((i' - i) + (len - i'))) at 1 by lia.
      rewrite !slice_add by lia. do 3 f_equal; lia.
    + rewrite !zlen_app, Lbuf, Lm. rewrite Zplus_mod, Hf, Z.add_0_l, Zmod_mod.
      rewrite Zplus_mod, H3. done.
    + rewrite Lt. rewrite Lt in Ebuf'. rewrite Z.add_0_l in Ebuf'. exact Ebuf'.
  - cbn [mbind option_bind]. rewrite wrap_small by lia. rewrite load_ok by lia. cbn [mbind option_bind].
    rewrite Z.sub_0_r, <- Hl, slice_all.
    destruct (memcpy_prefix (m_buffer s) data (zlen rest)) as (buf & -> & Lbuf & Ebuf); [lia|lia|].
    cbn [mbind option_bind]. eexists. split; [done|]. rewrite Hl. split; [|done].
    constructor; [done|apply Hc'| |by rewrite <- Hlen].
    exists full, (rest ++ data). unfold m. rewrite <- app_assoc. cbn [m_state m_buffer].
    split_and!; try done; [rewrite zlen_app; lia|]. by rewrite zlen_app, Ebuf, Hbuf.
Qed.
(** ** Final *)

Lemma nth_byte_div w i k : Z.land i 3 = 3 - k -> 0 <= k -> nth_byte w i = w / 256 ^ k mod 256.
Proof.
  intros E Hk. unfold nth_byte. rewrite E. replace ((3 - (3 - k)) * 8) with (8 * k) by lia.
  change 255 with (Z.ones 8). rewrite Z.land_ones, Z.shiftr_div_pow2 by lia. by rewrite Z.pow_mul_r by lia.
Qed.

Lemma be_bytes_4 w : FIPS.be_bytes 4 w = [nth_byte w 0; nth_byte w 1; nth_byte w 2; nth_byte w 3].
Proof.
  rewrite (nth_byte_div w 0 3), (nth_byte_div w 1 2), (nth_byte_div w 2 1), (nth_byte_div w 3 0) by (done || lia).
  unfold FIPS.be_bytes. cbn [le_bytes rev app]. rewrite !Z.div_div by lia. rewrite Z.pow_0_r, Z.div_1_r. done.
Qed.

Lemma be_bytes_8 z : FIPS.be_bytes 8 z = FIPS.be_bytes 4 (z / 2 ^ 32) ++ FIPS.be_bytes 4 (z mod 2 ^ 32).
Proof.
  unfold FIPS.be_bytes. rewrite <- rev_app_distr. f_equal.
  change (le_bytes 8 z) with (le_bytes 4 z ++ le_bytes 4 (z / 256 / 256 / 256 / 256)).
  rewrite !Z.div_div by lia. change (256 * (256 * (256 * 256))) with (2 ^ 32). f_equal.
  symmetry. exact (le_bytes_mod 4 z).
Qed.

Lemma pad_test n : 0 <= n -> (Z.land ((8 * n) mod 2 ^ 32) 504 =? 448) = (n mod 64 =? 56).
Proof.
  intros Hn. assert (E : Z.land ((8 * n) mod 2 ^ 32) 504 = 8 * (n mod 64)).
  { rewrite <- buffered by done. change 504 with (Z.shiftl 63 3).
    set (c0 := (8 * n) mod 2 ^ 32). transitivity (Z.shiftl (Z.land (Z.shiftr c0 3) 63) 3).
    - apply Z.bits_inj'. intros k Hk. rewrite Z.land_spec, !Z.shiftl_spec by lia.
      destruct (Z.lt_ge_cases k 3).
      + rewrite !(Z.testbit_neg_r _ (k - 3)), andb_false_r by lia. done.
      + rewrite Z.land_spec, Z.shiftr_spec by lia. do 2 f_equal. lia.
    - rewrite Z.shiftl_mul_pow2 by lia. lia. }
  rewrite E. destruct (Z.eqb_spec (n mod 64) 56) as [->|H]; [done|]. apply Z.eqb_neq. lia.
Qed.

Lemma pad_loop_absorbs fuel : forall m s,
  absorbed m s -> (56 - zlen m) mod 64 < Z.of_nat fuel -> zlen m + (56 - zlen m) mod 64 < 2 ^ 61 ->
  exists s', pad_loop fuel s = Some s' /\ absorbed (m ++ replicate (Z.to_nat ((56 - zlen m) mod 64)) 0) s'.
Proof.
  induction fuel as [|fuel IH]; intros m s Ha Hf Ht.
  { pose proof (Z.mod_pos_bound (56 - zlen m) 64 ltac:(lia)). lia. }
  cbn [pad_loop]. rewrite (ab_count m s Ha). cbn [fst]. rewrite pad_test by apply zlen_nonneg.
  pose proof (zlen_nonneg m) as Hm. destruct (Z.eqb_spec (zlen m mod 64) 56) as [E|E]; cbn [negb].
  - assert (E0 : (56 - zlen m) mod 64 = 0) by (rewrite Zminus_mod, E; done). rewrite E0.
    exists s. split; [done|]. by rewrite app_nil_r.
  - set (k := (56 - zlen m) mod 64) in *. assert (Hk : 0 <= k < 64) by (apply Z.mod_pos_bound; lia).
    assert (Hk0 : k <> 0).
    { intros E0. apply E. apply Z_div_exact_full_2 in E0 as E1; [|lia].
      symmetry. apply (Z.mod_unique _ _ (- ((56 - zlen m) / 64))); [by left; lia|lia]. }
    assert (Hk1 : (56 - (zlen m + 1)) mod 64 = k - 1).
    { symmetry. apply (Z.mod_unique _ _ ((56 - zlen m) / 64)); [by left; lia|].
      pose proof (Z.div_mod (56 - zlen m) 64 ltac:(lia)) as E1. fold k in E1. lia. }
    destruct (update_absorbs m s [0] 1 Ha) as (s1 & -> & Ha1 & _); [by repeat constructor|done|lia|lia|].
    cbn [mbind option_bind].
    destruct (IH (m ++ [0]) s1 Ha1) as (s2 & -> & Ha2); rewrite ?zlen_app, ?Hk1; change (zlen [0]) with 1 in *;
      rewrite ?Hk1; [lia|lia|].
    exists s2. split; [done|]. rewrite zlen_app in Ha2. change (zlen [0]) with 1 in Ha2. rewrite Hk1 in Ha2.
    rewrite <- app_assoc in Ha2. replace (Z.to_nat k) with (S (Z.to_nat (k - 1))) by lia. exact Ha2.
Qed.

Lemma be_bytes_byte n z : Forall is_byte (FIPS.be_bytes n z).
Proof. unfold FIPS.be_bytes. apply List.Forall_rev, le_bytes_are_bytes. Qed.

Lemma final_fips m s : absorbed m s -> zlen m < 2 ^ 61 - 128 ->
  exists s', Final s = Some s' /\ m_digest s' = FIPS.sha1 m.
Proof.
  intros Ha Hm. pose proof (zlen_nonneg m) as Hm0. unfold Final. rewrite (ab_count m s Ha). cbn [fst snd].
  destruct (update_absorbs m s [128] 1 Ha) as (s1 & -> & Ha1 & _); [by repeat constructor|done|lia|lia|].
  cbn [mbind option_bind]. pose proof (Z.mod_pos_bound (56 - zlen (m ++ [128])) 64 ltac:(lia)) as Hk.
  assert (Lm1 : zlen (m ++ [128]) = zlen m + 1) by (by rewrite zlen_app).
  destruct (pad_loop_absorbs 64 _ _ Ha1) as (s2 & -> & Ha2); [lia|lia|].
  cbn [mbind option_bind].
  set (fc := map _ (seqZ 0 8)).
  assert (Efc : fc = FIPS.be_bytes 8 (8 * zlen m)) by (rewrite be_bytes_8, !be_bytes_4; done).
  clearbody fc. subst fc. rewrite Lm1 in *.
  replace (56 - (zlen m + 1)) with (55 - zlen m) in * by lia. set (k := (55 - zlen m) mod 64) in *.
  set (m2 := (m ++ [128]) ++ replicate (Z.to_nat k) 0) in *.
  assert (Lm2 : zlen m2 = zlen m + 1 + k).
  { unfold m2. rewrite !zlen_app, zlen_replicate. change (zlen [128]) with 1. lia. }
  destruct (update_absorbs m2 s2 (FIPS.be_bytes 8 (8 * zlen m)) 8 Ha2) as (s3 & -> & Ha3 & _);
    [apply be_bytes_byte|done|lia|lia|]. cbn [mbind option_bind].
  assert (Ep : m2 ++ FIPS.be_bytes 8 (8 * zlen m) = FIPS.pad m).
  { unfold FIPS.pad, m2. fold k. by rewrite <- !app_assoc. }
  assert (Hlen : zlen (FIPS.pad m) mod 64 = 0).
  { rewrite <- Ep, zlen_app, Lm2. change (zlen (FIPS.be_bytes 8 (8 * zlen m))) with 8. symmetry.
    apply (Z.mod_unique _ _ (- ((55 - zlen m) / 64) + 1)); [by left; lia|].
    pose proof (Z.div_mod (55 - zlen m) 64 ltac:(lia)) as E. fold k in E. lia. }
  rewrite Ep in Ha3. destruct Ha3 as [_ _ (full & rest & E & Hf & Hr & Hs & Hok & _) _].
  assert (rest = []) as ->.
  { apply zlen_zero. rewrite <- (mod64_rest full rest Hf Hr), <- E. exact Hlen. }
  rewrite app_nil_r in E. subst full. eexists. split; [done|]. cbn [m_digest]. rewrite Hs.
  unfold FIPS.sha1. set (H := FIPS.chain FIPS.H0 (FIPS.pad m)). rewrite !be_bytes_4. done.
Qed.

(** ** The theorem *)

Definition update_all (chunks : list bytes) (s : CSHA1) : option CSHA1 :=
  fold_left (fun s data => s ← s; Update data (zlen data) s) chunks (Some s).

Definition hash (buffer digest : bytes) (chunks : list bytes) : option bytes :=
  s ← update_all chunks (CSHA1_new buffer digest); s ← Final s; Some (GetHash s).

Lemma update_all_absorbs chunks : forall m s,
  absorbed m s -> Forall (fun data => Forall is_byte data /\ zlen data <= 2 ^ 32 - 128) chunks ->
  zlen m + zlen (concat chunks) < 2 ^ 61 ->
  exists s', update_all chunks s = Some s' /\ absorbed (m ++ concat chunks) s'.
Proof.
  induction chunks as [|data chunks IH]; intros m s Ha Hc Ht.
  { exists s. split; [done|]. simpl. by rewrite app_nil_r. }
  apply Forall_cons in Hc as [[Hb Hl] Hc]. cbn [concat] in *. rewrite zlen_app in Ht.
  pose proof (zlen_nonneg (concat chunks)).
  destruct (update_absorbs m s data (zlen data) Ha) as (s1 & E & Ha1 & _); [done|done|done|lia|].
  destruct (IH (m ++ data) s1 Ha1 Hc) as (s2 & E2 & Ha2); [rewrite zlen_app; lia|].
  exists s2. split; [|by rewrite app_assoc]. unfold update_all in *. cbn [fold_left mbind option_bind].
  by rewrite E.
Qed.

(** C25: whatever the pieces, of at most 2^32 - 128 bytes each, in which a message of less than
    2^61 - 128 bytes is given to [Update], the hash is the one that FIPS 180-4 defines, and no
    access leaves the buffers. Larger pieces are excluded because [Update] computes
    [j + len] and [i + 63] in 32 bits. *)
Theorem sha1_fips chunks buffer digest :
  zlen buffer = 64 -> Forall (fun data => Forall is_byte data /\ zlen data <= 2 ^ 32 - 128) chunks ->
  zlen (concat chunks) < 2 ^ 61 - 128 ->
  hash buffer digest chunks = Some (FIPS.sha1 (concat chunks)).
Proof.
  intros Hb Hc Hl. unfold hash.
  destruct (update_all_absorbs chunks [] _ (absorbed_new buffer digest Hb) Hc) as (s & -> & Ha); [rewrite zlen_nil; lia|].
  cbn [mbind option_bind]. destruct (final_fips _ s Ha Hl) as (s' & -> & E). cbn [mbind option_bind].
  unfold GetHash. by rewrite E.
Qed.

(** The first example of FIPS 180, in two pieces. *)
Lemma sha1_fips_witness :
  hash (replicate 64 7) [] [str "a"; str "bc"] =
  Some [0xa9; 0x99; 0x3e; 0x36; 0x47; 0x06; 0x81; 0x6a; 0xba; 0x3e;
        0x25; 0x71; 0x78; 0x50; 0xc2; 0x6c; 0x9c; 0xd0; 0xd8; 0x9d].
Proof.
  rewrite (sha1_fips [str "a"; str "bc"] (replicate 64 7) []); [vm_compute; reflexivity|done| |done].
  repeat constructor; done.
Defined.
End SHA1.
