(* ===== verification/Md5.v ===== *)
(** * utils/md5calc.cpp

    The MD5 digest of a C string, against RFC 1321: the 64 rounds as they are
    written, the padding with its two cases, the length field; and what the
    source writes there for strings of 512 MB and more. *)

From S2P Require Import Prelude.
From S2P Require Import Words.
From S2P Require Import Digest.

Module MD5.

(** [String Table] *)
Definition T : list Z :=
  [
   0xd76aa478; 0xe8c7b756; 0x242070db; 0xc1bdceee;
   0xf57c0faf; 0x4787c62a; 0xa8304613; 0xfd469501;
   0x698098d8; 0x8b44f7af; 0xffff5bb1; 0x895cd7be;
   0x6b901122; 0xfd987193; 0xa679438e; 0x49b40821;
   0xf61e2562; 0xc040b340; 0x265e5a51; 0xe9b6c7aa;
   0xd62f105d; 0x2441453; 0xd8a1e681; 0xe7d3fbc8;
   0x21e1cde6; 0xc33707d6; 0xf4d50d87; 0x455a14ed;
   0xa9e3e905; 0xfcefa3f8; 0x676f02d9; 0x8d2a4c8a;
   0xfffa3942; 0x8771f681; 0x6d9d6122; 0xfde5380c;
   0xa4beea44; 0x4bdecfa9; 0xf6bb4b60; 0xbebfbc70;
   0x289b7ec6; 0xeaa127fa; 0xd4ef3085; 0x4881d05;
   0xd9d4d039; 0xe6db99e5; 0x1fa27cf8; 0xc4ac5665;
   0xf4292244; 0x432aff97; 0xab9423a7; 0xfc93a039;
   0x655b59c3; 0x8f0ccc92; 0xffeff47d; 0x85845dd1;
   0x6fa87e4f; 0xfe2ce6e0; 0xa3014314; 0x4e0811a1;
   0xf7537e82; 0xbd3af235; 0x2ad7d2bb; 0xeb86d391
  ].

Definition ROTATE_LEFT (x n : Z) : Z := Z.lor (u32 (Z.shiftl x n)) (Z.shiftr x (32 - n)).

(** [~x] on [unsigned int] *)
Definition not32 (x : Z) : Z := u32 (Z.lnot x).

Definition F (x y z : Z) : Z := Z.lor (Z.land x y) (Z.land (not32 x) z).
Definition G (x y z : Z) : Z := Z.lor (Z.land x z) (Z.land y (not32 z)).
Definition H (x y z : Z) : Z := Z.lxor (Z.lxor x y) z.
Definition I (x y z : Z) : Z := Z.lxor y (Z.lor x (not32 z)).

(** The four local variables that the rounds name in turn. *)
Inductive var := vA | vB | vC | vD.

Record vars := mk_vars { A : Z; B : Z; C : Z; D : Z }.

Definition get (x : var) (r : vars) : Z :=
  match x with vA => A r | vB => B r | vC => C r | vD => D r end.

Definition set (x : var) (n : Z) (r : vars) : vars :=
  let '(mk_vars a b c d) := r in
  match x with
  | vA => mk_vars n b c d
  | vB => mk_vars a n c d
  | vC => mk_vars a b n d
  | vD => mk_vars a b c n
  end.

(** [pX] points to the 16 words [X] of the block. *)
Definition Round (X : list Z) (a b FGHI k s i : Z) : Z :=
  u32 (b + ROTATE_LEFT (u32 (a + FGHI + znth X k 0 + znth T i 0)) s).

Definition RoundN (f : Z -> Z -> Z -> Z) (a b c d : var) (k s i : Z) (X : list Z) (r : vars) : vars :=
  set a (Round X (get a r) (get b r) (f (get b r) (get c r) (get d r)) k s i) r.
Definition Round1 := RoundN F.
Definition Round2 := RoundN G.
Definition Round3 := RoundN H.
Definition Round4 := RoundN I.

Definition calls : list (list Z -> vars -> vars) :=
  [
   Round1 vA vB vC vD 0 7 0; Round1 vD vA vB vC 1 12 1;
   Round1 vC vD vA vB 2 17 2; Round1 vB vC vD vA 3 22 3;
   Round1 vA vB vC vD 4 7 4; Round1 vD vA vB vC 5 12 5;
   Round1 vC vD vA vB 6 17 6; Round1 vB vC vD vA 7 22 7;
   Round1 vA vB vC vD 8 7 8; Round1 vD vA vB vC 9 12 9;
   Round1 vC vD vA vB 10 17 10; Round1 vB vC vD vA 11 22 11;
   Round1 vA vB vC vD 12 7 12; Round1 vD vA vB vC 13 12 13;
   Round1 vC vD vA vB 14 17 14; Round1 vB vC vD vA 15 22 15;
   Round2 vA vB vC vD 1 5 16; Round2 vD vA vB vC 6 9 17;
   Round2 vC vD vA vB 11 14 18; Round2 vB vC vD vA 0 20 19;
   Round2 vA vB vC vD 5 5 20; Round2 vD vA vB vC 10 9 21;
   Round2 vC vD vA vB 15 14 22; Round2 vB vC vD vA 4 20 23;
   Round2 vA vB vC vD 9 5 24; Round2 vD vA vB vC 14 9 25;
   Round2 vC vD vA vB 3 14 26; Round2 vB vC vD vA 8 20 27;
   Round2 vA vB vC vD 13 5 28; Round2 vD vA vB vC 2 9 29;
   Round2 vC vD vA vB 7 14 30; Round2 vB vC vD vA 12 20 31;
   Round3 vA vB vC vD 5 4 32; Round3 vD vA vB vC 8 11 33;
   Round3 vC vD vA vB 11 16 34; Round3 vB vC vD vA 14 23 35;
   Round3 vA vB vC vD 1 4 36; Round3 vD vA vB vC 4 11 37;
   Round3 vC vD vA vB 7 16 38; Round3 vB vC vD vA 10 23 39;
   Round3 vA vB vC vD 13 4 40; Round3 vD vA vB vC 0 11 41;
   Round3 vC vD vA vB 3 16 42; Round3 vB vC vD vA 6 23 43;
   Round3 vA vB vC vD 9 4 44; Round3 vD vA vB vC 12 11 45;
   Round3 vC vD vA vB 15 16 46; Round3 vB vC vD vA 2 23 47;
   Round4 vA vB vC vD 0 6 48; Round4 vD vA vB vC 7 10 49;
   Round4 vC vD vA vB 14 15 50; Round4 vB vC vD vA 5 21 51;
   Round4 vA vB vC vD 12 6 52; Round4 vD vA vB vC 3 10 53;
   Round4 vC vD vA vB 10 15 54; Round4 vB vC vD vA 1 21 55;
   Round4 vA vB vC vD 8 6 56; Round4 vD vA vB vC 15 10 57;
   Round4 vC vD vA vB 6 15 58; Round4 vB vC vD vA 13 21 59;
   Round4 vA vB vC vD 4 6 60; Round4 vD vA vB vC 11 10 61;
   Round4 vC vD vA vB 2 15 62; Round4 vB vC vD vA 9 21 63
  ].

(** [X]: the words of the block, least significant byte first. *)
Definition Decode (block : bytes) : list Z :=
  let at_ j := znth block j 0 in
  map (fun k =>
    let j := 4 * k in
    Z.lor (Z.lor (Z.lor (at_ j) (u32 (Z.shiftl (at_ (j + 1)) 8))) (u32 (Z.shiftl (at_ (j + 2)) 16)))
      (u32 (Z.shiftl (at_ (j + 3)) 24))) (seqZ 0 16).

Definition MD5_Round_Calculate (block : bytes) (m : vars) : vars :=
  let X := Decode block in
  let r := fold_left (fun r call => call X r) calls m in
  mk_vars (u32 (A r + A m)) (u32 (B r + B m)) (u32 (C r + C m)) (u32 (D r + D m)).

Definition UINT_MAX : Z := 4294967295.

(** [for (i=string_byte_len; 64<=i; i-=64,pstring+=64)] on the memory of the
    string; [None]: a read behind it. *)
Fixpoint block_loop (fuel : nat) (mem : bytes) (i pstring : Z) (m : vars) : option (Z * vars) :=
  match fuel with
  | O => None
  | S fuel =>
      if 64 <=? i then
        block ← load mem pstring 64;
        block_loop fuel mem (i - 64) (pstring + 64) (MD5_Round_Calculate block m)
      else Some (pstring, m)
  end.

(** The two words of the length field. *)
Definition string_bit_len (string_byte_len : Z) : Z := u32 (string_byte_len * 8).
Definition high_word (string_byte_len : Z) : Z :=
  if UINT_MAX / 8 <? string_byte_len then u32 ((string_byte_len - UINT_MAX / 8) * 8) else 0.

(** [memcpy(output,msg_digest,16)] *)
Definition msg_digest (m : vars) : bytes :=
  le_bytes 4 (A m) ++ le_bytes 4 (B m) ++ le_bytes 4 (C m) ++ le_bytes 4 (D m).

(** [string] is followed by its NUL in memory and holds no other;
    [padding_message] is not initialised. *)
Definition MD5_String2binary (string padding_message : bytes) : option bytes :=
  let m := mk_vars 0x67452301 0xefcdab89 0x98badcfe 0x10325476 in
  let string_byte_len := u32 (zlen string) in
  '(pstring, m) ← block_loop (Z.to_nat (zlen string) + 1) (string ++ [0]) (s32 string_byte_len) 0 m;
  let copy_len := string_byte_len mod 64 in
  src ← load (string ++ [0]) pstring copy_len;
  p ← memcpy padding_message 0 src;
  p ← memcpy p copy_len (replicate (Z.to_nat (64 - copy_len)) 0);
  let p := <[Z.to_nat copy_len := Z.lor (znth p copy_len 0) 0x80]> p in
  '(p, m) ← (if 56 <=? copy_len
             then let m := MD5_Round_Calculate p m in
                  p ← memcpy p 0 (replicate 56 0); Some (p, m)
             else Some (p, m));
  p ← memcpy p 56 (le_bytes 4 (string_bit_len string_byte_len));
  p ← memcpy p 60 (le_bytes 4 (high_word string_byte_len));
  Some (msg_digest (MD5_Round_Calculate p m)).

Definition MD5_Binary := MD5_String2binary.

(** ["%02x"] *)
Definition hex_digit (n : Z) : Z := if n <? 10 then #"0" + n else #"a" + (n - 10).
Definition hex (b : Z) : bytes := [hex_digit (b / 16); hex_digit (b mod 16)].

Definition MD5_String (string padding_message : bytes) : option bytes :=
  digest ← MD5_String2binary string padding_message; Some (concat (map hex digest)).

(** [rand] gives the results of the successive calls. *)
Definition MD5_Salt (rand : nat -> Z) (len : nat) : bytes :=
  map (fun i => u8 (1 + Z.rem (rand i) 255)) (seq 0 len).

(** ** RFC 1321 *)

Module RFC.
(** [T[i]] is the integer part of 4294967296 times abs(sin(i + 1)), the angle in
    radians. The sine is taken from its power series, in units of 2^-160; the
    terms are below one unit before the 128th. *)
Fixpoint sine_terms (n : nat) (x2 k term sum : Z) : Z :=
  match n with
  | O => sum
  | S n =>
      if term =? 0 then sum
      else sine_terms n x2 (k + 2) (Z.quot (x2 * (- term)) ((k + 1) * (k + 2))) (sum + term)
  end.
Definition sine (x : Z) : Z := sine_terms 128 (x * x) 1 (Z.shiftl x 160) 0.
Definition T (i : Z) : Z := Z.shiftr (Z.abs (sine (i + 1))) 128.

Definition not (x : Z) : Z := 2 ^ 32 - 1 - x.
Definition F (x y z : Z) : Z := Z.lor (Z.land x y) (Z.land (not x) z).
Definition G (x y z : Z) : Z := Z.lor (Z.land x z) (Z.land y (not z)).
Definition H (x y z : Z) : Z := Z.lxor (Z.lxor x y) z.
Definition I (x y z : Z) : Z := Z.lxor y (Z.lor x (not z)).

(** In step [i]: the function, the word and the shift. *)
Definition f (i : Z) : Z -> Z -> Z -> Z :=
  if i <? 16 then F else if i <? 32 then G else if i <? 48 then H else I.
Definition k (i : Z) : Z :=
  if i <? 16 then i else if i <? 32 then (1 + 5 * i) mod 16
  else if i <? 48 then (5 + 3 * i) mod 16 else (7 * i) mod 16.
Definition s (i : Z) : Z :=
  znth (if i <? 16 then [7; 12; 17; 22] else if i <? 32 then [5; 9; 14; 20]
        else if i <? 48 then [4; 11; 16; 23] else [6; 10; 15; 21]) (i mod 4) 0.

(** [a = b + ((a + f(b,c,d) + X[k] + T[i]) <<< s)], then the names move on. *)
Definition step (X : list Z) (r : vars) (i : Z) : vars :=
  let '(mk_vars a b c d) := r in
  mk_vars d ((b + rotl (s i) ((a + f i b c d + znth X (k i) 0 + T i) mod 2 ^ 32)) mod 2 ^ 32) b c.

Definition words (block : bytes) : list Z := map (fun i => of_le_bytes (slice block (4 * i) 4)) (seqZ 0 16).

Definition compress (m : vars) (block : bytes) : vars :=
  let r := fold_left (step (words block)) (seqZ 0 64) m in
  mk_vars ((A r + A m) mod 2 ^ 32) ((B r + B m) mod 2 ^ 32) ((C r + C m) mod 2 ^ 32) ((D r + D m) mod 2 ^ 32).

Definition init : vars := mk_vars 0x67452301 0xefcdab89 0x98badcfe 0x10325476.

Definition pad (m : bytes) : bytes :=
  m ++ [0x80] ++ replicate (Z.to_nat ((55 - zlen m) mod 64)) 0 ++ le_bytes 8 (8 * zlen m).

Definition md5 (m : bytes) : bytes :=
  let '(mk_vars a b c d) := chain compress init (pad m) in
  le_bytes 4 a ++ le_bytes 4 b ++ le_bytes 4 c ++ le_bytes 4 d.
End RFC.

(** ** The rounds are the steps of the RFC *)

Lemma table : map RFC.T (seqZ 0 64) = T.
Proof. vm_compute. reflexivity. Qed.

Lemma T_table i : 0 <= i < 64 -> znth T i 0 = RFC.T i.
Proof.
  intros Hi. rewrite <- table. apply znth_lookup; [lia|].
  rewrite list_lookup_fmap, lookup_seqZ_lt by lia.
  change (Some (RFC.T (0 + Z.of_nat (Z.to_nat i))) = Some (RFC.T i)).
  by replace (0 + Z.of_nat (Z.to_nat i)) with i by lia.
Qed.

Lemma not32_not x : is_word x -> not32 x = RFC.not x.
Proof.
  unfold is_word. intros Hx. unfold not32, RFC.not, wrap, Z.lnot. apply (mod_at _ (-1)); lia.
Qed.

(** The function of round [i] in the source. *)
Definition fn (i : Z) : Z -> Z -> Z -> Z :=
  if i <? 16 then F else if i <? 32 then G else if i <? 48 then H else I.

Lemma fn_rfc i b c d : is_word b -> is_word d -> fn i b c d = RFC.f i b c d.
Proof.
  intros Hb Hd. unfold fn, RFC.f.
  repeat match goal with |- context [if ?t then _ else _] => destruct t end;
    unfold F, G, H, I, RFC.F, RFC.G, RFC.I; rewrite ?not32_not by done; done.
Qed.

(** The names move on by one from call to call. *)
Definition name (i : Z) : var :=
  match Z.to_nat (i mod 4) with 0%nat => vA | 1%nat => vD | 2%nat => vC | _ => vB end.
Definition call (i : Z) : list Z -> vars -> vars :=
  RoundN (fn i) (name i) (name (i + 3)) (name (i + 2)) (name (i + 1)) (RFC.k i) (RFC.s i) i.

Ltac compute_in_goal f :=
  repeat match goal with |- context [f ?i] => let n := eval vm_compute in (f i) in change (f i) with n end.

Lemma calls_eq : calls = map call (seqZ 0 64).
Proof.
  unfold calls, Round1, Round2, Round3, Round4.
  let l := eval vm_compute in (seqZ 0 64) in change (seqZ 0 64) with l. cbn [map].
  unfold call, fn. compute_in_goal RFC.k. compute_in_goal RFC.s. reflexivity.
Qed.

Definition vars_ok (r : vars) : Prop := is_word (A r) /\ is_word (B r) /\ is_word (C r) /\ is_word (D r).

(** The variables in the roles that they have in step [i]. *)
Definition view (i : Z) (r : vars) : vars :=
  mk_vars (get (name i) r) (get (name (i + 3)) r) (get (name (i + 2)) r) (get (name (i + 1)) r).

Lemma shift_range i : 0 <= i < 64 -> 0 < RFC.s i < 32.
Proof.
  intros Hi. unfold RFC.s. assert (Hm : 0 <= i mod 4 < 4) by (apply Z.mod_pos_bound; lia).
  assert (i mod 4 = 0 \/ i mod 4 = 1 \/ i mod 4 = 2 \/ i mod 4 = 3) as [E|[E|[E|E]]] by lia; rewrite E;
    repeat match goal with |- context [if ?t then _ else _] => destruct t end; split; vm_compute; reflexivity.
Qed.

Lemma round_rfc X a b f k s i : 0 < s < 32 -> 0 <= i < 64 ->
  Round X a b f k s i = (b + rotl s ((a + f + znth X k 0 + RFC.T i) mod 2 ^ 32)) mod 2 ^ 32.
Proof.
  intros Hs Hi. unfold Round, ROTATE_LEFT. rewrite rotate_rotl by (done || apply u32_word).
  by rewrite T_table by done.
Qed.

Lemma call_rfc X i r : 0 <= i < 64 -> vars_ok r ->
  vars_ok (call i X r) /\ view (i + 1) (call i X r) = RFC.step X (view i r) i.
Proof.
  intros Hi (Ha & Hb & Hc & Hd). pose proof (shift_range i Hi) as Hs. unfold call, RoundN.
  rewrite round_rfc by done.
  assert (Hm : 0 <= i mod 4 < 4) by (apply Z.mod_pos_bound; lia).
  assert (E1 : (i + 1) mod 4 = (i mod 4 + 1) mod 4) by dlia.
  assert (E2 : (i + 2) mod 4 = (i mod 4 + 2) mod 4) by dlia.
  assert (E3 : (i + 3) mod 4 = (i mod 4 + 3) mod 4) by dlia.
  assert (E4 : (i + 1 + 3) mod 4 = i mod 4) by dlia.
  assert (E5 : (i + 1 + 2) mod 4 = (i mod 4 + 3) mod 4) by dlia.
  assert (E6 : (i + 1 + 1) mod 4 = (i mod 4 + 2) mod 4) by dlia.
  unfold view, RFC.step, name. rewrite ?E4, ?E5, ?E6, ?E1, ?E2, ?E3. clear E1 E2 E3 E4 E5 E6.
  destruct r as [ra rb rc rd]. cbn [A B C D] in *.
  assert (i mod 4 = 0 \/ i mod 4 = 1 \/ i mod 4 = 2 \/ i mod 4 = 3) as [E|[E|[E|E]]] by lia; rewrite !E;
    compute_in_goal Z.to_nat; cbv iota; cbn [get set A B C D];
    (split; [unfold vars_ok; cbn [A B C D]; refine (conj _ (conj _ (conj _ _)));
               first [assumption|by apply Z.mod_pos_bound]
            |rewrite fn_rfc by done; reflexivity]).
Qed.

Lemma calls_rfc X n : forall i r, 0 <= i -> i + Z.of_nat n <= 64 -> vars_ok r ->
  let r' := fold_left (fun r call => call X r) (map call (seqZ i (Z.of_nat n))) r in
  vars_ok r' /\ view (i + Z.of_nat n) r' = fold_left (RFC.step X) (seqZ i (Z.of_nat n)) (view i r).
Proof.
  induction n as [|n IH]; intros i r Hi Hn Hr; cbv zeta; [by rewrite Z.add_0_r|].
  rewrite seqZ_cons by lia. cbn [map fold_left].
  destruct (call_rfc X i r) as [Hr1 Ev]; [lia|done|].
  replace (Z.pred (Z.of_nat (S n))) with (Z.of_nat n) by lia. rewrite <- Ev.
  replace (i + Z.of_nat (S n)) with (Z.succ i + Z.of_nat n) by lia. by apply IH; [lia|lia|].
Qed.

(** ** Blocks *)

Lemma decode_words block : zlen block = 64 -> Forall is_byte block -> Decode block = RFC.words block.
Proof.
  intros Hl Hb. unfold Decode, RFC.words. apply map_ext_in. intros k Hk.
  apply list_elem_of_In, elem_of_seqZ in Hk.
  pose proof (zlen_slice block (4 * k) 4 ltac:(lia) ltac:(lia) ltac:(lia)) as Hz.
  assert (Hf : Forall is_byte (slice block (4 * k) 4)) by (by apply forall_slice).
  assert (Hat : forall j, 0 <= j < 4 -> znth block (4 * k + j) 0 = znth (slice block (4 * k) 4) j 0).
  { intros j Hj. unfold slice. rewrite <- (take_drop (Z.to_nat (4 * k)) block) at 1.
    assert (zlen (take (Z.to_nat (4 * k)) block) = 4 * k)
      by (unfold zlen in *; rewrite length_take; lia).
    rewrite znth_app_r by lia. replace (4 * k + j - zlen (take (Z.to_nat (4 * k)) block)) with j by lia.
    rewrite <- (take_drop (Z.to_nat 4) (drop (Z.to_nat (4 * k)) block)) at 1.
    rewrite znth_app_l; [done|]. unfold slice in Hz. lia. }
  cbv beta zeta. rewrite <- (Z.add_0_r (4 * k)) at 1. rewrite !Hat by lia.
  destruct (slice block (4 * k) 4) as [|b0 [|b1 [|b2 [|b3 [|? l]]]]]; try (unfold zlen in Hz; simpl in Hz; lia).
  rewrite !Forall_cons in Hf. unfold is_byte in Hf. destruct Hf as (H0 & H1 & H2 & H3 & _).
  cbn [znth Z.ltb Z.compare Z.to_nat Pos.to_nat nth of_le_bytes].
  change (znth [b0; b1; b2; b3] 0 0) with b0. change (znth [b0; b1; b2; b3] 1 0) with b1.
  change (znth [b0; b1; b2; b3] 2 0) with b2. change (znth [b0; b1; b2; b3] 3 0) with b3.
  rewrite !wrap_small by (rewrite Z.shiftl_mul_pow2 by lia; lia).
  rewrite (lor_shiftl_add b0 b1 8), (lor_shiftl_add _ b2 16), (lor_shiftl_add _ b3 24) by lia. lia.
Qed.

Lemma round_calculate_rfc block m : zlen block = 64 -> Forall is_byte block -> vars_ok m ->
  MD5_Round_Calculate block m = RFC.compress m block /\ vars_ok (RFC.compress m block).
Proof.
  intros Hl Hb Hm. unfold MD5_Round_Calculate, RFC.compress. rewrite calls_eq, decode_words by done.
  destruct (calls_rfc (RFC.words block) 64 0 m) as [Hok Ev]; [lia|done|done|]. cbv zeta in Ev.
  change (Z.of_nat 64) with 64 in *. change (view (0 + 64)) with (view 0) in Ev.
  assert (Hv : forall r, view 0 r = r) by (by intros []). rewrite !Hv in Ev. rewrite Ev.
  split; [done|]. unfold vars_ok, is_word. cbn [A B C D]. split_and!; by apply Z.mod_pos_bound.
Qed.
#[local] Opaque RFC.compress MD5_Round_Calculate.

Lemma block_loop_rfc fuel (m : bytes) : forall i q r,
  Forall is_byte m -> 0 <= q -> 0 <= i -> q + i = zlen m -> i < 64 * Z.of_nat fuel -> vars_ok r ->
  exists q', let r' := chain RFC.compress r (slice m q (q' - q)) in
    block_loop fuel (m ++ [0]) i q r = Some (q', r') /\ vars_ok r' /\
    q <= q' <= zlen m /\ zlen m < q' + 64 /\ (q' - q) mod 64 = 0.
Proof.
  induction fuel as [|fuel IH]; intros i q r Hb Hq Hi Hl Hf Hr; [lia|]. cbn [block_loop].
  destruct (Z.leb_spec 64 i) as [Hge|Hlt].
  - rewrite load_ok by (rewrite ?zlen_app; change (zlen [0]) with 1; lia). cbn [mbind option_bind].
    rewrite slice_app_l by lia. set (blk := slice m q 64).
    assert (Lb : zlen blk = 64) by (apply zlen_slice; lia).
    destruct (round_calculate_rfc blk r) as [E Hok]; [done|by apply forall_slice|done|]. rewrite E.
    destruct (IH (i - 64) (q + 64) (RFC.compress r blk)) as (q' & E' & Hok' & H1 & H2 & H3);
      [done|lia|lia|lia|lia|done|].
    assert (Es : slice m q (q' - q) = blk ++ slice m (q + 64) (q' - (q + 64))).
    { unfold blk. rewrite <- slice_add by lia. f_equal. lia. }
    assert (Ec : chain RFC.compress r (slice m q (q' - q)) =
      chain RFC.compress (RFC.compress r blk) (slice m (q + 64) (q' - (q + 64)))).
    { rewrite Es, chain_app, (chain_block r blk); [reflexivity|exact Lb|by rewrite Lb]. }
    exists q'. cbv zeta. rewrite Ec. split; [exact E'|]. split; [exact Hok'|]. split_and!; [lia|lia|lia|].
    replace (q' - q) with (q' - (q + 64) + 1 * 64) by lia. by rewrite Z_mod_plus_full.
  - exists q. cbv zeta. rewrite Z.sub_diag, slice_nil, chain_short by (done || lia). split_and!; try done; lia.
Qed.

Lemma high_word_ok n : 0 <= n <= UINT_MAX / 8 -> high_word n = 8 * n / 2 ^ 32.
Proof.
  change (UINT_MAX / 8) with 536870911. intros Hn. unfold high_word. change (UINT_MAX / 8) with 536870911.
  rewrite (proj2 (Z.ltb_ge _ _)) by lia. symmetry. apply Z.div_small. lia.
Qed.

(** For longer strings the upper word of the length is never right. *)
Lemma high_word_wrong n : UINT_MAX / 8 < n < 2 ^ 32 -> high_word n <> 8 * n / 2 ^ 32.
Proof.
  change (UINT_MAX / 8) with 536870911. intros Hn. unfold high_word. change (UINT_MAX / 8) with 536870911.
  rewrite (proj2 (Z.ltb_lt _ _)) by lia. unfold wrap.
  assert (1 <= 8 * n / 2 ^ 32 < 8) by (split; [apply Z.div_le_lower_bound|apply Z.div_lt_upper_bound]; lia).
  change (2 ^ 32) with (8 * 2 ^ 29) at 1. rewrite (Z.mul_comm _ 8), Z.mul_mod_distr_l by lia. lia.
Qed.

(** The message after its last whole block, as it is padded. *)
Lemma padded_tail (p rest : bytes) : zlen p = 64 -> zlen rest < 64 ->
  exists p1 p2, memcpy p 0 rest = Some p1 /\
    memcpy p1 (zlen rest) (replicate (Z.to_nat (64 - zlen rest)) 0) = Some p2 /\
    <[Z.to_nat (zlen rest) := Z.lor (znth p2 (zlen rest) 0) 0x80]> p2 =
      rest ++ [0x80] ++ replicate (Z.to_nat (63 - zlen rest)) 0.
Proof.
  intros Hp Hr. pose proof (zlen_nonneg rest) as Hr0. set (c := zlen rest) in *.
  exists (rest ++ drop (Z.to_nat c) p), (rest ++ replicate (Z.to_nat (64 - c)) 0). split_and!.
  - assert (Ht : zlen (take (Z.to_nat c) p) = c) by (unfold zlen in *; rewrite length_take; lia).
    rewrite <- (take_drop (Z.to_nat c) p) at 1.
    exact (memcpy_mid [] (take (Z.to_nat c) p) (drop (Z.to_nat c) p) rest Ht).
  - pose proof (memcpy_mid rest (drop (Z.to_nat c) p) [] (replicate (Z.to_nat (64 - c)) 0)) as E.
    rewrite !app_nil_r in E. apply E. rewrite zlen_replicate. unfold zlen in *. rewrite length_drop. lia.
  - rewrite znth_app_r, Z.sub_diag by (unfold c; lia).
    replace (Z.to_nat (64 - c)) with (S (Z.to_nat (63 - c))) by lia.
    unfold c, zlen. rewrite Nat2Z.id. simpl replicate.
    rewrite insert_app_r_alt, Nat.sub_diag by lia. done.
Qed.

Lemma zlen_le4 z : zlen (le_bytes 4 z) = 4.
Proof. apply (zlen_le_bytes 4). Qed.

(** The length field is written over the last 8 bytes of a block. *)
Lemma length_field (a e : bytes) w0 w1 : zlen a = 56 -> zlen e = 8 ->
  (p ← memcpy (a ++ e) 56 (le_bytes 4 w0); memcpy p 60 (le_bytes 4 w1)) =
  Some (a ++ le_bytes 4 w0 ++ le_bytes 4 w1).
Proof.
  intros Ha He. rewrite <- (take_drop 4 e).
  assert (L1 : zlen (take 4 e) = 4) by (unfold zlen in *; rewrite length_take; lia).
  assert (L2 : zlen (drop 4 e) = 4) by (unfold zlen in *; rewrite length_drop; lia).
  pose proof (memcpy_mid a (take 4 e) (drop 4 e) (le_bytes 4 w0)) as E1.
  rewrite Ha in E1. rewrite E1 by (by rewrite zlen_le4). cbn [mbind option_bind].
  pose proof (memcpy_mid (a ++ le_bytes 4 w0) (drop 4 e) [] (le_bytes 4 w1)) as E2.
  rewrite zlen_app, Ha, !zlen_le4, !app_nil_r, <- !app_assoc in E2. by apply E2.
Qed.

(** The end of the function: the length, the last round and the output. *)
Definition with_length (n : Z) (p : bytes) (m : vars) : option bytes :=
  p ← memcpy p 56 (le_bytes 4 (string_bit_len n));
  p ← memcpy p 60 (le_bytes 4 (high_word n));
  Some (msg_digest (MD5_Round_Calculate p m)).

Lemma last_block r (a e : bytes) n :
  vars_ok r -> zlen a = 56 -> zlen e = 8 -> Forall is_byte a -> 0 <= n <= UINT_MAX / 8 ->
  with_length n (a ++ e) r = Some (msg_digest (chain RFC.compress r (a ++ le_bytes 8 (8 * n)))).
Proof.
  intros Hr Ha He Hb Hn. pose proof (length_field a e (string_bit_len n) (high_word n) Ha He) as El.
  assert (E8 : le_bytes 8 (8 * n) = le_bytes 4 (string_bit_len n) ++ le_bytes 4 (high_word n)).
  { rewrite high_word_ok, le_bytes_8 by done. f_equal. unfold string_bit_len. rewrite (Z.mul_comm _ 8).
    symmetry. exact (le_bytes_mod 4 _). }
  rewrite <- E8 in El. unfold with_length. destruct (memcpy (a ++ e) 56 _) as [p|]; [|discriminate].
  cbn [mbind option_bind] in El |- *. rewrite El. cbn [mbind option_bind].
  assert (Lb : zlen (a ++ le_bytes 8 (8 * n)) = 64) by (rewrite zlen_app, (zlen_le_bytes 8); lia).
  rewrite chain_block by exact Lb.
  destruct (round_calculate_rfc (a ++ le_bytes 8 (8 * n)) r Lb) as [-> _]; [|exact Hr|done].
  apply Forall_app. split; [done|apply le_bytes_are_bytes].
Qed.

Lemma bytes_padded (rest : bytes) k : Forall is_byte rest -> Forall is_byte (rest ++ [0x80] ++ replicate k 0).
Proof. intros Hb. repeat apply Forall_app_2; [done|by repeat constructor|by apply Forall_replicate]. Qed.

Lemma zlen_padded (rest : bytes) k : zlen (rest ++ [0x80] ++ replicate k 0) = zlen rest + 1 + Z.of_nat k.
Proof. rewrite !zlen_app, zlen_replicate. change (zlen [128]) with 1. lia. Qed.

(** With 56 bytes and more left the padding takes a block of its own. *)
Lemma last_blocks r (rest : bytes) n :
  vars_ok r -> Forall is_byte rest -> 0 <= n <= UINT_MAX / 8 -> zlen rest = n mod 64 ->
  ('(p, m) ← (let p := rest ++ [0x80] ++ replicate (Z.to_nat (63 - zlen rest)) 0 in
              if 56 <=? zlen rest
              then let m := MD5_Round_Calculate p r in p ← memcpy p 0 (replicate 56 0); Some (p, m)
              else Some (p, r));
   with_length n p m) =
  Some (msg_digest (chain RFC.compress r
    (rest ++ [0x80] ++ replicate (Z.to_nat ((55 - n) mod 64)) 0 ++ le_bytes 8 (8 * n)))).
Proof.
  intros Hr Hb Hn Hl. set (c := zlen rest) in *. pose proof (Z.div_mod n 64 ltac:(lia)) as En.
  pose proof (Z.mod_pos_bound n 64 ltac:(lia)) as Hc. rewrite <- Hl in En, Hc. cbv zeta.
  destruct (Z.leb_spec 56 c) as [Hge|Hlt].
  - set (b1 := rest ++ [0x80] ++ replicate (Z.to_nat (63 - c)) 0).
    assert (Lb : zlen b1 = 64) by (unfold b1; rewrite zlen_padded; lia).
    destruct (round_calculate_rfc b1 r Lb) as [-> Hok1]; [by apply bytes_padded|exact Hr|].
    pose proof (memcpy_mid [] (take 56 b1) (drop 56 b1) (replicate 56 0)) as Em.
    change (zlen []) with 0 in Em. cbn [app] in Em. rewrite take_drop in Em.
    rewrite Em by (unfold zlen in *; rewrite length_take; change (length (replicate 56 0)) with 56%nat; lia).
    cbn [mbind option_bind].
    rewrite last_block; [|exact Hok1|done|unfold zlen in *; rewrite length_drop; lia|by apply Forall_replicate|done].
    assert (Ek : (55 - n) mod 64 = (63 - c) + 56).
    { symmetry. apply (Z.mod_unique _ _ (- (n / 64) - 1)); [by left; lia|lia]. }
    rewrite Ek, Z2Nat.inj_add, replicate_add by lia. change (Z.to_nat 56) with 56%nat.
    replace (rest ++ [128] ++ (replicate (Z.to_nat (63 - c)) 0 ++ replicate 56 0) ++ le_bytes 8 (8 * n))
      with (b1 ++ replicate 56 0 ++ le_bytes 8 (8 * n)) by (unfold b1; by rewrite <- !app_assoc).
    by rewrite (chain_app r b1), (chain_block r b1) by (exact Lb || by rewrite Lb).
  - cbn [mbind option_bind]. set (a := rest ++ [0x80] ++ replicate (Z.to_nat (55 - c)) 0).
    assert (Ea : rest ++ [0x80] ++ replicate (Z.to_nat (63 - c)) 0 = a ++ replicate 8 0).
    { unfold a. rewrite <- !app_assoc. do 2 f_equal. rewrite <- replicate_add. f_equal. lia. }
    rewrite Ea, last_block;
      [|exact Hr|unfold a; rewrite zlen_padded; unfold c in *; lia|done|by apply bytes_padded|done].
    assert (Ek : (55 - n) mod 64 = 55 - c).
    { symmetry. apply (Z.mod_unique _ _ (- (n / 64))); [by left; lia|lia]. }
    rewrite Ek. unfold a. by rewrite <- !app_assoc.
Qed.

(** C26: for every string of less than 512 MB, whatever the buffer for the last block
    holds before, MD5_Binary gives the digest that RFC 1321 defines, and
    MD5_String its text in hexadecimal; no access leaves the string or the
    buffer. *)
Theorem md5_rfc (string padding_message : bytes) :
  Forall is_byte string -> zlen string <= UINT_MAX / 8 -> zlen padding_message = 64 ->
  MD5_Binary string padding_message = Some (RFC.md5 string) /\
  MD5_String string padding_message = Some (concat (map hex (RFC.md5 string))).
Proof.
  intros Hb Hl Hp. pose proof (zlen_nonneg string) as Hl0.
  assert (Hl' : zlen string <= 536870911) by exact Hl.
  enough (E : MD5_String2binary string padding_message = Some (RFC.md5 string))
    by (split; [exact E|unfold MD5_String; by rewrite E]).
  unfold MD5_String2binary.
  rewrite (wrap_small 32 (zlen string)) by lia. rewrite (swrap_small 32 (zlen string)) by lia.
  destruct (block_loop_rfc (Z.to_nat (zlen string) + 1) string (zlen string) 0 RFC.init Hb)
    as (q & E & Hok & Hq & Hq' & Hm); [lia|lia|lia|lia|by vm_compute|].
  fold RFC.init. cbv zeta in E, Hok. rewrite E. cbn [mbind option_bind]. clear E.
  rewrite Z.sub_0_r in *. set (full := slice string 0 q) in *. set (c := zlen string mod 64).
  assert (Hc : c = zlen string - q).
  { symmetry. apply (Z.mod_unique _ _ (q / 64)); [by left; lia|].
    pose proof (Z.div_mod q 64 ltac:(lia)). lia. }
  rewrite load_ok by (rewrite ?zlen_app; change (zlen [0]) with 1; lia). cbn [mbind option_bind].
  rewrite slice_app_l by lia. set (rest := slice string q c).
  assert (Lr : zlen rest = c) by (apply zlen_slice; lia).
  destruct (padded_tail padding_message rest Hp ltac:(lia)) as (p1 & p2 & E1 & E2 & E3).
  rewrite E1. cbn [mbind option_bind]. rewrite <- Lr, E2. cbn [mbind option_bind]. rewrite E3.
  fold (with_length (zlen string)).
  pose proof (last_blocks _ rest (zlen string) Hok ltac:(by apply forall_slice) ltac:(done) Lr) as E.
  cbv zeta in E. etransitivity; [exact E|]. f_equal.
  unfold RFC.md5. replace (chain RFC.compress RFC.init (RFC.pad string)) with (chain RFC.compress
    (chain RFC.compress RFC.init full) (rest ++ [0x80] ++ replicate (Z.to_nat ((55 - zlen string) mod 64)) 0 ++
      le_bytes 8 (8 * zlen string))); 
    [match goal with |- msg_digest ?z = _ => by destruct z end|].
  assert (Es : full ++ rest = string).
  { unfold full, rest. transitivity (slice string 0 (q + c)); [by rewrite slice_add by lia|].
    replace (q + c) with (zlen string) by lia. apply slice_all. }
  rewrite <- chain_app by (unfold full; rewrite zlen_slice by lia; exact Hm).
  unfold RFC.pad. by rewrite app_assoc, Es.
Qed.

(** The suite of RFC 1321 has the digest of "abc". *)
Lemma md5_rfc_witness :
  MD5_Binary (str "abc") (replicate 64 7) =
    Some [0x90; 0x01; 0x50; 0x98; 0x3c; 0xd2; 0x4f; 0xb0; 0xd6; 0x96; 0x3f; 0x7d; 0x28; 0xe1; 0x7f; 0x72] /\
  MD5_String (str "abc") (replicate 64 7) = Some (str "900150983cd24fb0d6963f7d28e17f72").
Proof.
  destruct (md5_rfc (str "abc") (replicate 64 7)) as [E1 E2]; [by repeat constructor|done|done|].
  rewrite E1, E2. split; vm_compute; reflexivity.
Defined.

(** A salt holds no NUL, so it can be used as a C string. *)
Lemma salt_has_no_nul rand len : (forall i, 0 <= rand i) -> Forall (fun b => 0 < b < 256) (MD5_Salt rand len).
Proof.
  intros Hr. apply Forall_forall. intros b Hb. apply list_elem_of_In, in_map_iff in Hb as (i & <- & _).
  pose proof (Z.rem_bound_pos (rand i) 255 (Hr i) ltac:(lia)). rewrite wrap_small by lia. lia.
Qed.
End MD5.
