(* ===== verification/WebSocket.v ===== *)
(** * net/http/WebSocketFormat.h: frames

    Building and extracting WebSocket frames. [rand()] is a parameter: the values
    of four successive calls. *)

From S2P Require Import Prelude.
From S2P Require Import Words.

(** [WebSocketFrameType] is an [enum class] that the code casts from any four
    bits, so it is its underlying number. *)
Definition ERROR_FRAME : Z := 0xff.
Definition CONTINUATION_FRAME : Z := 0x00.
Definition TEXT_FRAME : Z := 0x01.
Definition BINARY_FRAME : Z := 0x02.
Definition CLOSE_FRAME : Z := 0x08.
Definition PING_FRAME : Z := 0x09.
Definition PONG_FRAME : Z := 0x0A.

(** ** wsFrameBuild *)

(** The bytes of the length; [payloadLen] is a [size_t]. *)
Definition length_bytes (n : Z) : bytes :=
  if n <=? 125 then [u8 n]
  else if n <=? 0xFFFF then [126; Z.shiftr (Z.land n 0xFF00) 8; Z.land n 0x00FF]
  else [127; 0; 0; 0; 0;
        u8 (Z.shiftr (Z.land n 0xFF000000) 24); u8 (Z.shiftr (Z.land n 0x00FF0000) 16);
        u8 (Z.shiftr (Z.land n 0x0000FF00) 8); u8 (Z.land n 0x000000FF)].

(** [frame[1] |= 0x80] on the bytes of the length. *)
Definition set_mask_bit (l : bytes) : bytes :=
  match l with b :: l => Z.lor b 0x80 :: l | [] => [] end.

(** [payload[i] ^ mask[i % 4]] from index [i] on. *)
Fixpoint xor_mask (mask l : bytes) (i : Z) : bytes :=
  match l with
  | b :: l => Z.lxor b (znth mask (i mod 4) 0) :: xor_mask mask l (i + 1)
  | [] => []
  end.

Definition wsFrameBuild (rand : Z * Z * Z * Z) (payload : bytes) (frame_type : Z)
    (isFin masking : bool) : bytes :=
  let head := u8 (Z.lor frame_type (if isFin then 0x80 else 0x00)) in
  let len := length_bytes (zlen payload) in
  if masking then
    let '(r0, r1, r2, r3) := rand in
    let mask := [u8 r0; u8 r1; u8 r2; u8 r3] in
    [head] ++ set_mask_bit len ++ mask ++ xor_mask mask payload 0
  else [head] ++ len ++ payload.

(** ** wsFrameExtractBuffer

    A result is the payload string, which is appended to, the opcode, the size
    of the frame and the FIN bit. The outer [option] is an access outside the
    buffer, the inner one the result [false], with what was stored by then. *)
Record extracted := mk_extracted {
  x_ok : bool; x_payload : bytes; x_opcode : Z; x_size : Z; x_fin : bool }.

Definition byte_at (l : bytes) (i : Z) : option Z := head (default [] (load l i 1)).

(** The payload length and the position behind it; [None] inside is [false]. *)
Definition extract_length (buffer : bytes) (b1 : Z) : option (option (Z * Z)) :=
  let payloadlen := Z.land b1 0x7F in
  if payloadlen =? 126 then
    if zlen buffer <? 4 then Some None
    else
      b2 ← byte_at buffer 2; b3 ← byte_at buffer 3;
      Some (Some (u32 (Z.shiftl b2 8 + b3), 4))
  else if payloadlen =? 127 then
    if zlen buffer <? 10 then Some None
    else
      b2 ← byte_at buffer 2; b3 ← byte_at buffer 3; b4 ← byte_at buffer 4;
      b5 ← byte_at buffer 5; b6 ← byte_at buffer 6; b7 ← byte_at buffer 7;
      b8 ← byte_at buffer 8; b9 ← byte_at buffer 9;
      if negb (b2 =? 0) || negb (b3 =? 0) || negb (b4 =? 0) || negb (b5 =? 0) then Some None
      else if negb (Z.land b6 0x80 =? 0) then Some None
      else Some (Some (u32 (Z.shiftl b6 24 + Z.shiftl b7 16 + Z.shiftl b8 8 + b9), 10))
  else Some (Some (payloadlen, 2)).

Definition wsFrameExtractBuffer (buffer payload : bytes) (opcode frameSize : Z) (fin : bool)
    : option extracted :=
  if zlen buffer <? 2 then Some (mk_extracted false payload opcode frameSize fin)
  else
    b0 ← byte_at buffer 0; b1 ← byte_at buffer 1;
    let outfin := negb (Z.land b0 0x80 =? 0) in
    let outopcode := Z.land b0 0x0F in
    let isMasking := negb (Z.land b1 0x80 =? 0) in
    let no := Some (mk_extracted false payload outopcode frameSize outfin) in
    r ← extract_length buffer b1;
    match r with
    | None => no
    | Some (payloadlen, pos) =>
        if isMasking && (zlen buffer <? u32 (pos + 4)) then no
        else
          mask ← (if isMasking then load buffer pos 4 else Some []);
          let pos := if isMasking then u32 (pos + 4) else pos in
          if zlen buffer <? u32 (pos + payloadlen) then no
          else
            data ← load buffer pos payloadlen;
            let data := if isMasking then xor_mask mask data 0 else data in
            Some (mk_extracted true (payload ++ data) outopcode (u32 (payloadlen + pos)) outfin)
    end.

Example frame_example :
  wsFrameExtractBuffer (wsFrameBuild (1, 2, 3, 4) (str "hello") TEXT_FRAME true true ++ str "next")
    [] ERROR_FRAME 0 false = Some (mk_extracted true (str "hello") TEXT_FRAME 11 true).
Proof. reflexivity. Qed.

(** ** Bytes of a buffer that starts with a frame *)

Lemma byte_at_take (l : bytes) k i x :
  0 <= i < k -> l !! Z.to_nat i = Some x -> byte_at (take (Z.to_nat k) l) i = Some x.
Proof.
  intros Hi Hx. unfold byte_at. pose proof (lookup_lt_Some _ _ _ Hx).
  rewrite load_ok by (unfold zlen; rewrite ?length_take; lia).
  rewrite (slice_cons _ _ _ x) by (try lia; by rewrite lookup_take_lt by lia). done.
Qed.

Lemma slice_take (l : bytes) k off n :
  0 <= off -> 0 <= n -> off + n <= k -> slice (take (Z.to_nat k) l) off n = slice l off n.
Proof.
  intros. apply list_eq. intros i. rewrite !lookup_slice. case_decide; [|done].
  apply lookup_take_lt. lia.
Qed.

Lemma zlen_take (l : bytes) k : 0 <= k <= zlen l -> zlen (take (Z.to_nat k) l) = k.
Proof. unfold zlen. intros. rewrite length_take. lia. Qed.

(** The bytes of the length as numbers. *)
Lemma land_byte n k : 0 <= n -> 0 <= k -> Z.shiftr (Z.land n (Z.shiftl 255 k)) k = (n / 2 ^ k) mod 256.
Proof.
  intros. rewrite Z.shiftr_land, Z.shiftr_shiftl_l, Z.sub_diag by lia. rewrite Z.shiftr_div_pow2 by lia.
  change (Z.shiftl 255 0) with (Z.ones 8). by rewrite Z.land_ones by lia.
Qed.

(** What the first length byte [b1] and the bytes [ext] behind it say. *)
Definition says (b1 : Z) (ext : bytes) (n : Z) : Prop :=
  Z.land b1 0x7F = n /\ n <= 125 /\ ext = [] \/
  Z.land b1 0x7F = 126 /\ ext = [n / 256; n mod 256] /\ n < 65536 \/
  Z.land b1 0x7F = 127 /\ 
    ext = [0; 0; 0; 0; n / 16777216; n / 65536 mod 256; n / 256 mod 256; n mod 256].

Lemma length_says n :
  0 <= n < 2 ^ 31 -> exists b ext, length_bytes n = b :: ext /\ 0 <= b < 128 /\ says b ext n.
Proof.
  intros Hn. unfold length_bytes, says. destruct (Z.leb_spec n 125); [|destruct (Z.leb_spec n 0xFFFF)].
  - exists n, []. unfold wrap. rewrite Z.mod_small by lia. split; [done|]. split; [lia|]. left.
    split_and!; [|lia|done]. change 127 with (Z.ones 7). rewrite Z.land_ones by lia. apply Z.mod_small. lia.
  - exists 126, [n / 256; n mod 256]. split; [|split; [lia|right; left; split_and!; [done|done|lia]]].
    change 0xFF00 with (Z.shiftl 255 8).
    rewrite (land_byte n 8) by lia. change 255 with (Z.ones 8). rewrite Z.land_ones by lia.
    change (2 ^ 8) with 256. rewrite (Z.mod_small (n / 256)) by dlia. done.
  - exists 127, [0; 0; 0; 0; n / 16777216; n / 65536 mod 256; n / 256 mod 256; n mod 256].
    split; [|split; [lia|right; right; done]].
    change 0xFF000000 with (Z.shiftl 255 24). change 0x00FF0000 with (Z.shiftl 255 16).
    change 0x0000FF00 with (Z.shiftl 255 8).
    rewrite (land_byte n 24), (land_byte n 16), (land_byte n 8) by lia.
    change 255 with (Z.ones 8). rewrite Z.land_ones by lia.
    change (2 ^ 24) with 16777216. change (2 ^ 16) with 65536. change (2 ^ 8) with 256.
    unfold wrap. change (2 ^ 8) with 256. rewrite !Zmod_mod.
    rewrite (Z.mod_small (n / 16777216)) by dlia. done.
Qed.

Lemma mask_bit b : 0 <= b < 128 ->
  Z.land b 0x80 = 0 /\ Z.land (Z.lor b 0x80) 0x80 <> 0 /\ Z.land (Z.lor b 0x80) 0x7F = Z.land b 0x7F.
Proof.
  intros Hb.
  assert (H : forallb (fun b => negb (b <? 128) || ((Z.land b 0x80 =? 0) &&
    negb (Z.land (Z.lor b 0x80) 0x80 =? 0) && (Z.land (Z.lor b 0x80) 0x7F =? Z.land b 0x7F)))
    all_bytes = true) by (by vm_compute).
  pose proof (byte_forall _ H b ltac:(unfold is_byte; lia)) as E. cbn beta in E.
  rewrite (proj2 (Z.ltb_lt b 128)) in E by lia. cbn [negb orb] in E. zprop. tauto.
Qed.

(** The length is found, once its bytes have arrived. *)
Lemma extract_length_take k h b1 ext tail n :
  says b1 ext n -> 0 <= n < 2 ^ 31 -> 2 <= k <= zlen (h :: b1 :: ext ++ tail) ->
  extract_length (take (Z.to_nat k) (h :: b1 :: ext ++ tail)) b1
  = Some (if k <? 2 + zlen ext then None else Some (n, 2 + zlen ext)).
Proof.
  intros Hs Hn Hk. unfold extract_length. rewrite zlen_take by lia.
  assert (Hat : forall i x, 0 <= i < k -> (h :: b1 :: ext ++ tail) !! Z.to_nat i = Some x ->
    byte_at (take (Z.to_nat k) (h :: b1 :: ext ++ tail)) i = Some x) by (intros; by apply byte_at_take).
  destruct Hs as [(-> & H1 & ->)|[(-> & -> & H1)|(-> & ->)]].
  - rewrite (proj2 (Z.eqb_neq n 126)), (proj2 (Z.eqb_neq n 127)) by lia.
    change (2 + zlen []) with 2. by rewrite (proj2 (Z.ltb_ge k 2)) by lia.
  - change (126 =? 126) with true. cbv iota. change (2 + zlen [n / 256; n mod 256]) with 4.
    destruct (Z.ltb_spec k 4); [done|].
    rewrite (Hat 2 (n / 256)), (Hat 3 (n mod 256)) by (lia || reflexivity). cbn.
    do 3 f_equal. unfold wrap. rewrite Z.shiftl_mul_pow2 by lia. change (2 ^ 8) with 256.
    rewrite Z.mod_small; dlia.
  - change (127 =? 126) with false. change (127 =? 127) with true. cbv iota.
    change (2 + zlen [_; _; _; _; _; _; _; _]) with 10. destruct (Z.ltb_spec k 10); [done|].
    rewrite (Hat 2 0), (Hat 3 0), (Hat 4 0), (Hat 5 0), (Hat 6 (n / 16777216)),
      (Hat 7 (n / 65536 mod 256)), (Hat 8 (n / 256 mod 256)), (Hat 9 (n mod 256)) by (lia || reflexivity).
    cbn [mbind option_bind]. change (0 =? 0) with true. cbn [negb orb].
    destruct (mask_bit (n / 16777216)) as [-> _]; [dlia|]. change (0 =? 0) with true. cbn [negb].
    do 3 f_equal. rewrite !Z.shiftl_mul_pow2 by lia. change (2 ^ 24) with 16777216.
    change (2 ^ 16) with 65536. change (2 ^ 8) with 256. unfold wrap. rewrite Z.mod_small; dlia.
Qed.

Lemma xor_mask_twice mask l : forall i, xor_mask mask (xor_mask mask l i) i = l.
Proof.
  induction l as [|b l IH]; intros i; simpl; [done|]. by rewrite IH, Z.lxor_assoc, Z.lxor_nilpotent, Z.lxor_0_r.
Qed.

Lemma zlen_xor_mask mask l : forall i, zlen (xor_mask mask l i) = zlen l.
Proof. induction l as [|b l IH]; intros i; simpl; [done|]. by rewrite !zlen_cons, IH. Qed.

(** The result on the first [k] bytes of a frame that is followed by anything. *)
Lemma extract_frame k h b1 ext mask data rest n (masking : bool) p0 op0 sz0 fin0 :
  says b1 ext n -> zlen data = n -> n < 2 ^ 31 ->
  negb (Z.land b1 0x80 =? 0) = masking -> zlen mask = (if masking then 4 else 0) ->
  let F := h :: b1 :: ext ++ mask ++ data ++ rest in
  let size := 2 + zlen ext + zlen mask + n in
  0 <= k <= zlen F ->
  exists x, wsFrameExtractBuffer (take (Z.to_nat k) F) p0 op0 sz0 fin0 = Some x /\
    if k <? size then x_ok x = false /\ x_payload x = p0
    else x = mk_extracted true (p0 ++ if masking then xor_mask mask data 0 else data)
           (Z.land h 0x0F) size (negb (Z.land h 0x80 =? 0)).
Proof.
  intros Hs Hd Hn Hb Hm F size Hk. pose proof (zlen_take F k Hk) as HT.
  unfold wsFrameExtractBuffer. rewrite HT.
  pose proof (zlen_nonneg ext). pose proof (zlen_nonneg data). pose proof (zlen_nonneg mask).
  assert (Hext : zlen ext <= 8) by (destruct Hs as [(_ & _ & ->)|[(_ & -> & _)|(_ & ->)]]; done).
  destruct (Z.ltb_spec k 2).
  { rewrite (proj2 (Z.ltb_lt k size)) by lia. by eexists. }
  assert (B0 : byte_at (take (Z.to_nat k) F) 0 = Some h) by (apply byte_at_take; [lia|done]).
  assert (B1 : byte_at (take (Z.to_nat k) F) 1 = Some b1) by (apply byte_at_take; [lia|done]).
  assert (HL := extract_length_take k h b1 ext (mask ++ data ++ rest) n Hs ltac:(lia) ltac:(split; [lia|apply Hk])).
  fold F in HL. rewrite B0, B1. cbn [mbind option_bind]. rewrite HL. clear HL. cbn [mbind option_bind].
  rewrite Hb. destruct (Z.ltb_spec k (2 + zlen ext)).
  { rewrite (proj2 (Z.ltb_lt k size)) by lia. by eexists. }
  assert (Hu : forall v, 0 <= v < 2 ^ 32 -> u32 v = v) by (intros; by apply wrap_small).
  assert (Hpos : zlen mask + (2 + zlen ext) <= k ->
    slice F (2 + zlen ext) (zlen mask) = mask /\
    (size <= k -> slice F (2 + zlen ext + zlen mask) n = data)).
  { intros _. subst F. change (h :: b1 :: ext ++ ?r) with ([h; b1] ++ ext ++ r).
    assert (E2 : zlen ([h; b1] ++ ext) = 2 + zlen ext) by (rewrite zlen_app; reflexivity).
    split.
    - rewrite app_assoc, slice_app_r, E2, Z.sub_diag, slice_app_l by lia. apply slice_all.
    - intros _. rewrite app_assoc, app_assoc. subst n.
      rewrite slice_app_r by (rewrite zlen_app; lia). rewrite zlen_app, E2, Z.sub_diag, slice_app_l by lia.
      apply slice_all. }
  destruct masking; cbn [andb].
  - rewrite Hu by lia. destruct (Z.ltb_spec k (2 + zlen ext + 4)).
    { rewrite (proj2 (Z.ltb_lt k size)) by lia. by eexists. }
    destruct Hpos as [P1 P2]; [lia|].
    rewrite (load_ok _ (2 + zlen ext) 4) by (rewrite ?HT; lia). cbn [mbind option_bind]. rewrite Hu by lia.
    destruct (Z.ltb_spec k (2 + zlen ext + 4 + n)).
    { rewrite (proj2 (Z.ltb_lt k size)) by lia. by eexists. }
    rewrite (proj2 (Z.ltb_ge k size)) by lia.
    rewrite load_ok by (rewrite ?HT; lia). cbn [mbind option_bind].
    eexists. split; [done|]. rewrite !slice_take by lia. rewrite Hm in P1, P2. rewrite P1, P2 by lia.
    rewrite Hu by lia. f_equal. lia.
  - rewrite Hu by lia. destruct (Z.ltb_spec k (2 + zlen ext + n)).
    { rewrite (proj2 (Z.ltb_lt k size)) by lia. by eexists. }
    destruct Hpos as [P1 P2]; [lia|]. rewrite (proj2 (Z.ltb_ge k size)) by lia.
    rewrite load_ok by (rewrite ?HT; lia). cbn [mbind option_bind].
    eexists. split; [done|]. rewrite !slice_take by lia. rewrite Hm, Z.add_0_r in P2. rewrite P2 by lia.
    rewrite Hu by lia. f_equal. lia.
Qed.

(** The shape of what [wsFrameBuild] makes. *)
Lemma build_shape rand payload t fin (masking : bool) :
  0 <= t < 16 -> zlen payload < 2 ^ 31 ->
  exists h b1 ext mask data,
    wsFrameBuild rand payload t fin masking = h :: b1 :: ext ++ mask ++ data /\
    says b1 ext (zlen payload) /\ zlen data = zlen payload /\
    negb (Z.land b1 0x80 =? 0) = masking /\ zlen mask = (if masking then 4 else 0) /\
    Z.land h 0x0F = t /\ negb (Z.land h 0x80 =? 0) = fin /\
    (if masking then xor_mask mask data 0 else data) = payload.
Proof.
  intros Ht Hn. pose proof (zlen_nonneg payload).
  destruct (length_says (zlen payload)) as (b & ext & El & Hb & Hs); [lia|].
  destruct (mask_bit b Hb) as (M1 & M2 & M3).
  set (h := u8 (Z.lor t (if fin then 0x80 else 0x00))).
  assert (Hh : Z.land h 0x0F = t /\ negb (Z.land h 0x80 =? 0) = fin).
  { assert (T : forallb (fun t => negb (t <? 16) ||
      ((Z.land (u8 (Z.lor t 0x80)) 0x0F =? t) && negb (Z.land (u8 (Z.lor t 0x80)) 0x80 =? 0) &&
       (Z.land (u8 (Z.lor t 0)) 0x0F =? t) && (Z.land (u8 (Z.lor t 0)) 0x80 =? 0))) all_bytes = true)
      by (by vm_compute).
    pose proof (byte_forall _ T t ltac:(unfold is_byte; lia)) as E. cbn beta in E.
    rewrite (proj2 (Z.ltb_lt t 16)) in E by lia. cbn [negb orb] in E. zprop. unfold h.
    destruct fin; (split; [done|]); [by apply negb_true_iff, Z.eqb_neq|].
    by apply negb_false_iff, Z.eqb_eq. }
  destruct Hh as [Hh1 Hh2]. unfold wsFrameBuild. fold h. rewrite El. destruct masking.
  - destruct rand as [[[r0 r1] r2] r3].
    exists h, (Z.lor b 0x80), ext, [u8 r0; u8 r1; u8 r2; u8 r3], (xor_mask [u8 r0; u8 r1; u8 r2; u8 r3] payload 0).
    split; [done|]. unfold says in *. rewrite M3. split_and!; try done.
    + apply zlen_xor_mask.
    + by apply negb_true_iff, Z.eqb_neq.
    + apply xor_mask_twice.
  - exists h, b, ext, [], payload. split_and!; try done. apply negb_false_iff. by rewrite M1.
Qed.

Lemma extract_built rand payload t fin masking rest p0 op0 sz0 fin0 :
  0 <= t < 16 -> zlen payload < 2 ^ 31 ->
  let frame := wsFrameBuild rand payload t fin masking in
  wsFrameExtractBuffer (frame ++ rest) p0 op0 sz0 fin0
  = Some (mk_extracted true (p0 ++ payload) t (zlen frame) fin).
Proof.
  intros Ht Hn frame.
  destruct (build_shape rand payload t fin masking Ht Hn)
    as (h & b1 & ext & mask & data & E & Hs & Hd & Hb & Hm & H1 & H2 & H3).
  unfold frame. rewrite E. clear frame E.
  set (F := h :: b1 :: ext ++ mask ++ data ++ rest).
  assert (Eapp : (h :: b1 :: ext ++ mask ++ data) ++ rest = F)
    by (unfold F; simpl; by rewrite <- !app_assoc).
  pose proof (zlen_nonneg F). pose proof (zlen_nonneg rest).
  destruct (extract_frame (zlen F) h b1 ext mask data rest (zlen payload) masking p0 op0 sz0 fin0)
    as (x & E & Hx); try done.
  rewrite Eapp. unfold zlen in E at 1. rewrite Nat2Z.id in E. fold F in E. rewrite take_ge in E by done.
  rewrite E. f_equal. revert Hx.
  assert (Hlen : zlen (h :: b1 :: ext ++ mask ++ data) = 2 + zlen ext + zlen mask + zlen payload)
    by (rewrite !zlen_cons, !zlen_app; lia).
  rewrite (proj2 (Z.ltb_ge _ _)); [|rewrite <- Hlen, <- Eapp, zlen_app; lia].
  intros ->. by rewrite H3, H1, H2, Hlen.
Qed.

(** C34: what one side builds the other side extracts: for a payload of less than 2^31
    bytes (the extraction refuses longer ones), whatever follows the frame
    in the buffer, the payload is appended unmasked to the result, and its type,
    its FIN bit and its size, at which the next frame starts, are recovered. *)
Theorem ws_frame_roundtrip rand payload t fin masking rest p0 op0 sz0 fin0 :
  0 <= t < 16 -> zlen payload < 2 ^ 31 ->
  let frame := wsFrameBuild rand payload t fin masking in
  wsFrameExtractBuffer (frame ++ rest) p0 op0 sz0 fin0
  = Some (mk_extracted true (p0 ++ payload) t (zlen frame) fin).
Proof. exact (extract_built rand payload t fin masking rest p0 op0 sz0 fin0). Qed.

Lemma ws_frame_roundtrip_witness :
  wsFrameExtractBuffer (wsFrameBuild (17, 400, 3, -1) (str "payload") BINARY_FRAME false true ++ [129])
    (str "p") ERROR_FRAME 0 true = Some (mk_extracted true (str "ppayload") BINARY_FRAME 13 false).
Proof. by apply (ws_frame_roundtrip (17, 400, 3, -1) (str "payload") BINARY_FRAME false true [129]). Defined.

Lemma extract_prefix rand payload t fin masking k p0 op0 sz0 fin0 :
  0 <= t < 16 -> zlen payload < 2 ^ 31 ->
  let frame := wsFrameBuild rand payload t fin masking in
  0 <= k < zlen frame ->
  exists x, wsFrameExtractBuffer (take (Z.to_nat k) frame) p0 op0 sz0 fin0 = Some x /\
    x_ok x = false /\ x_payload x = p0.
Proof.
  intros Ht Hn frame Hk.
  destruct (build_shape rand payload t fin masking Ht Hn)
    as (h & b1 & ext & mask & data & E & Hs & Hd & Hb & Hm & H1 & H2 & H3).
  unfold frame in *. rewrite E in *. clear frame E.
  assert (Hlen : zlen (h :: b1 :: ext ++ mask ++ data) = 2 + zlen ext + zlen mask + zlen payload)
    by (rewrite !zlen_cons, !zlen_app; lia).
  destruct (extract_frame k h b1 ext mask data [] (zlen payload) masking p0 op0 sz0 fin0)
    as (x & E & Hx); try done; [rewrite app_nil_r; lia|].
  rewrite app_nil_r in E. exists x. split; [done|].
  by rewrite (proj2 (Z.ltb_lt _ _)) in Hx by lia.
Qed.

(** A frame of which only a part has arrived is never taken for a frame:
    every proper prefix is refused and the result string stays as it was, so the
    caller can wait for more bytes. *)
Theorem ws_frame_incomplete rand payload t fin masking k p0 op0 sz0 fin0 :
  0 <= t < 16 -> zlen payload < 2 ^ 31 ->
  let frame := wsFrameBuild rand payload t fin masking in
  0 <= k < zlen frame ->
  exists x, wsFrameExtractBuffer (take (Z.to_nat k) frame) p0 op0 sz0 fin0 = Some x /\
    x_ok x = false /\ x_payload x = p0.
Proof. exact (extract_prefix rand payload t fin masking k p0 op0 sz0 fin0). Qed.

Lemma ws_frame_incomplete_witness :
  exists x, wsFrameExtractBuffer (take 12 (wsFrameBuild (17, 400, 3, -1) (str "payload") BINARY_FRAME false true))
    [] ERROR_FRAME 0 true = Some x /\ x_ok x = false.
Proof.
  destruct (ws_frame_incomplete (17, 400, 3, -1) (str "payload") BINARY_FRAME false true 12 [] ERROR_FRAME 0 true)
    as (x & E & Hx & _); [done|done|by vm_compute|]. exists x. split; [exact E|exact Hx].
Defined.

(** ** Arbitrary buffers *)

Lemma byte_at_inside l i :
  Forall is_byte l -> 0 <= i < zlen l -> exists x, byte_at l i = Some x /\ is_byte x.
Proof.
  intros Hl Hi. unfold byte_at, zlen in *. destruct (lookup_lt_is_Some_2 l (Z.to_nat i)) as [x Hx]; [lia|].
  exists x. rewrite load_ok by (unfold zlen; lia). rewrite (slice_cons _ _ _ x) by (done || lia).
  split; [done|]. by apply (Forall_lookup_1 _ _ _ _ Hl Hx).
Qed.

Lemma extract_length_safe l b1 :
  Forall is_byte l -> is_byte b1 -> 2 <= zlen l ->
  exists r, extract_length l b1 = Some r /\
    match r with Some (n, pos) => 0 <= n < 2 ^ 31 /\ 2 <= pos <= 10 /\ pos <= zlen l | None => True end.
Proof.
  intros Hl Hb Hlen. unfold extract_length.
  assert (Hc : 0 <= Z.land b1 0x7F < 128).
  { change 127 with (Z.ones 7). rewrite Z.land_ones by lia. apply Z.mod_pos_bound. lia. }
  assert (Hat : forall i, 0 <= i < zlen l -> exists x, byte_at l i = Some x /\ 0 <= x < 256)
    by (intros; by apply byte_at_inside).
  destruct (Z.eqb_spec (Z.land b1 127) 126); [|destruct (Z.eqb_spec (Z.land b1 127) 127)].
  - destruct (Z.ltb_spec (zlen l) 4); [by eexists|].
    destruct (Hat 2) as (x2 & -> & ?); [lia|]. destruct (Hat 3) as (x3 & -> & ?); [lia|].
    eexists. split; [done|]. cbn beta iota. rewrite Z.shiftl_mul_pow2 by lia. change (2 ^ 8) with 256.
    unfold wrap. rewrite Z.mod_small; lia.
  - destruct (Z.ltb_spec (zlen l) 10); [by eexists|].
    destruct (Hat 2) as (x2 & -> & ?); [lia|]. destruct (Hat 3) as (x3 & -> & ?); [lia|].
    destruct (Hat 4) as (x4 & -> & ?); [lia|]. destruct (Hat 5) as (x5 & -> & ?); [lia|].
    destruct (Hat 6) as (x6 & -> & ?); [lia|]. destruct (Hat 7) as (x7 & -> & ?); [lia|].
    destruct (Hat 8) as (x8 & -> & ?); [lia|]. destruct (Hat 9) as (x9 & -> & ?); [lia|].
    cbn [mbind option_bind]. destruct (_ || _); [by eexists|].
    destruct (Z.eqb_spec (Z.land x6 128) 0) as [E|E]; cbn [negb]; [|by eexists].
    assert (x6 < 128).
    { apply Z.nle_gt. intros Hge.
      assert (T : forallb (fun b => (b <? 128) || negb (Z.land b 128 =? 0)) all_bytes = true) by (by vm_compute).
      pose proof (byte_forall _ T x6 ltac:(done)) as C. cbn beta in C.
      rewrite (proj2 (Z.ltb_ge _ _)) in C by lia. cbn [orb] in C. by rewrite E in C. }
    eexists. split; [done|]. cbn beta iota. rewrite !Z.shiftl_mul_pow2 by lia.
    change (2 ^ 24) with 16777216. change (2 ^ 16) with 65536. change (2 ^ 8) with 256.
    unfold wrap. rewrite Z.mod_small; lia.
  - eexists. split; [done|]. cbn beta iota. lia.
Qed.

Lemma extract_inside buffer p0 op0 sz0 fin0 :
  Forall is_byte buffer ->
  exists x, wsFrameExtractBuffer buffer p0 op0 sz0 fin0 = Some x /\
    (x_ok x = false -> x_payload x = p0) /\
    (x_ok x = true -> 2 <= x_size x <= zlen buffer /\ 0 <= x_opcode x < 16 /\
       zlen (x_payload x) <= zlen p0 + x_size x - 2).
Proof.
  intros Hl. unfold wsFrameExtractBuffer. destruct (Z.ltb_spec (zlen buffer) 2); [by eexists|].
  destruct (byte_at_inside buffer 0 Hl) as (b0 & -> & H0); [lia|].
  destruct (byte_at_inside buffer 1 Hl) as (b1 & -> & H1); [lia|]. cbn [mbind option_bind].
  destruct (extract_length_safe buffer b1 Hl H1) as (r & -> & Hr); [done|]. cbn [mbind option_bind].
  destruct r as [[n pos]|]; [|by eexists]. destruct Hr as (Hn & Hpos & Hin).
  assert (Hu : forall v, 0 <= v < 2 ^ 32 -> u32 v = v) by (intros; by apply wrap_small).
  assert (Hop : 0 <= Z.land b0 0x0F < 16).
  { change 15 with (Z.ones 4). rewrite Z.land_ones by lia. apply Z.mod_pos_bound. lia. }
  rewrite !Hu by lia. destruct (negb (Z.land b1 128 =? 0)); cbn [andb].
  - destruct (Z.ltb_spec (zlen buffer) (pos + 4)); [by eexists|].
    rewrite (load_ok _ pos 4) by lia. cbn [mbind option_bind]. rewrite Hu by lia.
    destruct (Z.ltb_spec (zlen buffer) (pos + 4 + n)); [by eexists|].
    rewrite load_ok by lia. cbn [mbind option_bind]. eexists. split; [done|].
    cbn [x_ok x_payload x_size x_opcode]. rewrite Hu by lia. split; [done|]. intros _.
    rewrite zlen_app, zlen_xor_mask, zlen_slice by lia. lia.
  - cbn [mbind option_bind]. rewrite Hu by lia.
    destruct (Z.ltb_spec (zlen buffer) (pos + n)); [by eexists|].
    rewrite load_ok by lia. cbn [mbind option_bind]. eexists. split; [done|].
    cbn [x_ok x_payload x_size x_opcode]. rewrite Hu by lia. split; [done|]. intros _.
    rewrite zlen_app, zlen_slice by lia. lia.
Qed.

(** On whatever bytes arrive, the extraction reads only inside the buffer; a
    frame that it accepts lies inside the buffer, has at least its two header
    bytes, so the caller makes progress, and adds at most the bytes of the frame
    to the result. *)
Theorem ws_extract_safe buffer p0 op0 sz0 fin0 :
  Forall is_byte buffer ->
  exists x, wsFrameExtractBuffer buffer p0 op0 sz0 fin0 = Some x /\
    (x_ok x = false -> x_payload x = p0) /\
    (x_ok x = true -> 2 <= x_size x <= zlen buffer /\ 0 <= x_opcode x < 16 /\
       zlen (x_payload x) <= zlen p0 + x_size x - 2).
Proof. exact (extract_inside buffer p0 op0 sz0 fin0). Qed.

Lemma ws_extract_safe_witness :
  exists x, wsFrameExtractBuffer [130; 254; 0; 1; 9; 9; 9; 9; 8; 7] [] ERROR_FRAME 0 false = Some x /\
    x_ok x = true /\ x_size x <= 10.
Proof.
  destruct (ws_extract_safe [130; 254; 0; 1; 9; 9; 9; 9; 8; 7] [] ERROR_FRAME 0 false) as (x & E & _ & Hx).
  - repeat constructor; vm_compute; congruence.
  - exists x. split; [exact E|]. assert (Hok : x_ok x = true) by (vm_compute in E; by injection E as <-).
    split; [exact Hok|]. by destruct (Hx Hok) as [[_ H] _].
Defined.

(** An accepted frame is accepted as well when more bytes have arrived. *)
Lemma byte_at_app (b m : bytes) i x : byte_at b i = Some x -> byte_at (b ++ m) i = Some x.
Proof.
  unfold byte_at, load. rewrite zlen_app. pose proof (zlen_nonneg m).
  destruct (Z.leb_spec 0 i); [|done]. destruct (Z.leb_spec (i + 1) (zlen b)); [|done].
  rewrite (proj2 (Z.leb_le (i + 1) (zlen b + zlen m))) by lia. simpl. by rewrite slice_app_l.
Qed.

Lemma load_app (b m : bytes) i n x : load b i n = Some x -> load (b ++ m) i n = Some x.
Proof.
  unfold load. rewrite zlen_app. pose proof (zlen_nonneg m).
  destruct (Z.leb_spec 0 i); [|done]. destruct (Z.leb_spec 0 n); [|done].
  destruct (Z.leb_spec (i + n) (zlen b)); [|done].
  rewrite (proj2 (Z.leb_le (i + n) (zlen b + zlen m))) by lia. simpl. by rewrite slice_app_l.
Qed.

(** In a hypothesis, the next byte that is read; the goal reads it as well. *)
Ltac read_byte :=
  match goal with
  | H : (byte_at ?b ?i ≫= _) = _ |- context [byte_at (?b ++ ?m) ?i] =>
      let E := fresh in let x := fresh "x" in
      destruct (byte_at b i) as [x|] eqn:E; [|done]; apply (byte_at_app b m) in E; rewrite E;
      cbn [mbind option_bind] in *
  end.

Lemma extract_length_app (b m : bytes) b1 r :
  extract_length b b1 = Some (Some r) -> extract_length (b ++ m) b1 = Some (Some r).
Proof.
  unfold extract_length. rewrite zlen_app. pose proof (zlen_nonneg m). destruct (_ =? 126); [|destruct (_ =? 127)].
  - destruct (Z.ltb_spec (zlen b) 4); [done|]. rewrite (proj2 (Z.ltb_ge _ 4)) by lia. intros E.
    repeat read_byte. done.
  - destruct (Z.ltb_spec (zlen b) 10); [done|]. rewrite (proj2 (Z.ltb_ge _ 10)) by lia. intros E.
    repeat read_byte. done.
  - done.
Qed.

Lemma extract_more (b m p0 : bytes) op0 sz0 fin0 x :
  wsFrameExtractBuffer b p0 op0 sz0 fin0 = Some x -> x_ok x = true ->
  wsFrameExtractBuffer (b ++ m) p0 op0 sz0 fin0 = Some x.
Proof.
  unfold wsFrameExtractBuffer. rewrite zlen_app. pose proof (zlen_nonneg m).
  destruct (Z.ltb_spec (zlen b) 2); [by intros [= <-]|]. rewrite (proj2 (Z.ltb_ge _ 2)) by lia. intros E Hok.
  repeat read_byte. destruct (extract_length b _) as [[[n pos]|]|] eqn:El; [|by injection E as <-|done].
  rewrite (extract_length_app b m _ _ El). cbn [mbind option_bind] in *.
  destruct (negb (Z.land _ 128 =? 0)); cbn [andb mbind option_bind] in *.
  - destruct (Z.ltb_spec (zlen b) (u32 (pos + 4))); [by injection E as <-|]. rewrite (proj2 (Z.ltb_ge _ _)) by lia.
    destruct (load b pos 4) as [mask|] eqn:E4; [|done]. rewrite (load_app b m _ _ _ E4). cbn [mbind option_bind] in *.
    destruct (Z.ltb_spec (zlen b) (u32 (u32 (pos + 4) + n))); [by injection E as <-|].
    rewrite (proj2 (Z.ltb_ge _ _)) by lia.
    destruct (load b _ n) as [data|] eqn:E5; [|done]. by rewrite (load_app b m _ _ _ E5).
  - destruct (Z.ltb_spec (zlen b) (u32 (pos + n))); [by injection E as <-|].
    rewrite (proj2 (Z.ltb_ge _ _)) by lia.
    destruct (load b _ n) as [data|] eqn:E5; [|done]. by rewrite (load_app b m _ _ _ E5).
Qed.

(** The builder writes lengths up to 2^32 - 1, but the extraction refuses the
    lengths from 2^31 on, in the same way as an incomplete frame: such a frame
    is never taken, however many bytes arrive. *)
Theorem ws_large_frame_refused rand payload t fin masking rest p0 op0 sz0 fin0 :
  0 <= t < 16 -> 2 ^ 31 <= zlen payload < 2 ^ 32 ->
  exists x, wsFrameExtractBuffer (wsFrameBuild rand payload t fin masking ++ rest) p0 op0 sz0 fin0 = Some x /\
    x_ok x = false /\ x_payload x = p0.
Proof.
  intros Ht Hn. set (n := zlen payload) in *.
  assert (El : exists tl, length_bytes n = 127 :: 0 :: 0 :: 0 :: 0 :: n / 16777216 :: tl /\ length tl = 3%nat).
  { unfold length_bytes. rewrite (proj2 (Z.leb_gt n 125)), (proj2 (Z.leb_gt n 0xFFFF)) by lia.
    eexists. change 0xFF000000 with (Z.shiftl 255 24). rewrite land_byte by lia.
    change (2 ^ 24) with 16777216. unfold wrap. rewrite (Z.mod_small (n / 16777216)) by dlia.
    rewrite (Z.mod_small (n / 16777216) (2 ^ 8)) by dlia. split; reflexivity. }
  destruct El as (tl & El & Htl). destruct tl as [|t0 [|t1 [|t2 [|]]]]; try discriminate.
  assert (Hb : Z.land (n / 16777216) 0x80 <> 0).
  { assert (T : forallb (fun b => (b <? 128) || negb (Z.land b 128 =? 0)) all_bytes = true) by (by vm_compute).
    pose proof (byte_forall _ T (n / 16777216) ltac:(unfold is_byte; dlia)) as C. cbn beta in C.
    rewrite (proj2 (Z.ltb_ge _ _)) in C by dlia. cbn [orb] in C. by apply negb_true_iff, Z.eqb_neq in C. }
  assert (Hsh : exists h b1 tail, wsFrameBuild rand payload t fin masking ++ rest
    = h :: b1 :: 0 :: 0 :: 0 :: 0 :: n / 16777216 :: t0 :: t1 :: t2 :: tail /\ Z.land b1 0x7F = 127).
  { unfold wsFrameBuild. fold n. rewrite El. destruct masking.
    - destruct rand as [[[r0 r1] r2] r3]. do 3 eexists. split; reflexivity.
    - do 3 eexists. split; reflexivity. }
  destruct Hsh as (h & b1 & tail & -> & Hb1). set (F := h :: _).
  assert (HF : 10 <= zlen F) by (unfold F; rewrite !zlen_cons; pose proof (zlen_nonneg tail); lia).
  assert (Hat : forall i x, 0 <= i < zlen F -> F !! Z.to_nat i = Some x -> byte_at F i = Some x).
  { intros i x Hi Hx. unfold byte_at. rewrite load_ok by lia. by rewrite (slice_cons _ _ _ x) by (done || lia). }
  unfold wsFrameExtractBuffer. rewrite (proj2 (Z.ltb_ge (zlen F) 2)) by lia.
  rewrite (Hat 0 h), (Hat 1 b1) by (lia || reflexivity). cbn [mbind option_bind].
  unfold extract_length. rewrite Hb1. change (127 =? 126) with false. change (127 =? 127) with true.
  cbv iota. rewrite (proj2 (Z.ltb_ge (zlen F) 10)) by lia.
  rewrite (Hat 2 0), (Hat 3 0), (Hat 4 0), (Hat 5 0), (Hat 6 (n / 16777216)), (Hat 7 t0), (Hat 8 t1),
    (Hat 9 t2) by (lia || reflexivity).
  cbn [mbind option_bind]. change (0 =? 0) with true. cbn [negb orb].
  rewrite (proj2 (Z.eqb_neq _ _) Hb). cbn [negb mbind option_bind]. by eexists.
Qed.

Lemma long_payload : exists payload : bytes, zlen payload = 2 ^ 31.
Proof. exists (replicate (Z.to_nat (2 ^ 31)) 0). rewrite zlen_replicate. apply Z2Nat.id. lia. Qed.

Lemma ws_large_frame_refused_witness :
  exists payload x, zlen payload = 2 ^ 31 /\
    wsFrameExtractBuffer (wsFrameBuild (0, 0, 0, 0) payload TEXT_FRAME true false ++ [])
      [] ERROR_FRAME 0 false = Some x /\ x_ok x = false.
Proof.
  destruct long_payload as [payload Hz].
  destruct (ws_large_frame_refused (0, 0, 0, 0) payload TEXT_FRAME true false
    [] [] ERROR_FRAME 0 false) as (x & E & Hx & _).
  - unfold TEXT_FRAME. lia.
  - rewrite Hz. lia.
  - exists payload, x. split; [exact Hz|]. split; [exact E|exact Hx].
Defined.
