(* ===== verification/HTTPParser.v ===== *)
(** * net/http/HttpParser.cpp: class HTTPParser

    The callbacks of the HTTP parser as an observer: the fields of the object
    that [hp->data] points to are the application's state of
    [http_parser_execute]. *)

From S2P Require Import Prelude.
From S2P Require Import Words.
From S2P Require Import HttpChars.
From S2P Require Import HttpUrl.
From S2P Require Import HttpState.
From S2P Require Import HttpExec.
From S2P Require Import HttpRun.
From S2P Require Import WebSocket.
From stdpp Require Export gmap.
#[local] Open Scope Z_scope.
#[local] Open Scope brynet_scope.

(** The fields besides [mParserType], [mParser] and the constant [mSettings].
    [std::map<std::string, std::string>] is a finite map. *)
Record fields := mk_fields {
  mIsWebSocket : bool;
  mIsKeepAlive : bool;
  mISCompleted : bool;
  mLastWasValue : bool;
  mCurrentField : bytes;
  mCurrentValue : bytes;
  mPath : bytes;
  mQuery : bytes;
  mStatus : bytes;
  mHeadValues : gmap bytes bytes;
  mStatusCode : Z;
  mUrl : bytes;
  mBody : bytes;
  mWSCacheFrame : bytes;
  mWSParsePayload : bytes;
  mWSFrameType : Z }.

Definition set_mIsWebSocket v f := mk_fields v (mIsKeepAlive f) (mISCompleted f) (mLastWasValue f)
  (mCurrentField f) (mCurrentValue f) (mPath f) (mQuery f) (mStatus f) (mHeadValues f)
  (mStatusCode f) (mUrl f) (mBody f) (mWSCacheFrame f) (mWSParsePayload f) (mWSFrameType f).
Definition set_mIsKeepAlive v f := mk_fields (mIsWebSocket f) v (mISCompleted f) (mLastWasValue f)
  (mCurrentField f) (mCurrentValue f) (mPath f) (mQuery f) (mStatus f) (mHeadValues f)
  (mStatusCode f) (mUrl f) (mBody f) (mWSCacheFrame f) (mWSParsePayload f) (mWSFrameType f).
Definition set_mISCompleted v f := mk_fields (mIsWebSocket f) (mIsKeepAlive f) v (mLastWasValue f)
  (mCurrentField f) (mCurrentValue f) (mPath f) (mQuery f) (mStatus f) (mHeadValues f)
  (mStatusCode f) (mUrl f) (mBody f) (mWSCacheFrame f) (mWSParsePayload f) (mWSFrameType f).
Definition set_header lv cf cv f := mk_fields (mIsWebSocket f) (mIsKeepAlive f) (mISCompleted f) lv
  cf cv (mPath f) (mQuery f) (mStatus f) (mHeadValues f)
  (mStatusCode f) (mUrl f) (mBody f) (mWSCacheFrame f) (mWSParsePayload f) (mWSFrameType f).
Definition set_mPath v f := mk_fields (mIsWebSocket f) (mIsKeepAlive f) (mISCompleted f) (mLastWasValue f)
  (mCurrentField f) (mCurrentValue f) v (mQuery f) (mStatus f) (mHeadValues f)
  (mStatusCode f) (mUrl f) (mBody f) (mWSCacheFrame f) (mWSParsePayload f) (mWSFrameType f).
Definition set_mQuery v f := mk_fields (mIsWebSocket f) (mIsKeepAlive f) (mISCompleted f) (mLastWasValue f)
  (mCurrentField f) (mCurrentValue f) (mPath f) v (mStatus f) (mHeadValues f)
  (mStatusCode f) (mUrl f) (mBody f) (mWSCacheFrame f) (mWSParsePayload f) (mWSFrameType f).
Definition set_mStatus v code f := mk_fields (mIsWebSocket f) (mIsKeepAlive f) (mISCompleted f) (mLastWasValue f)
  (mCurrentField f) (mCurrentValue f) (mPath f) (mQuery f) v (mHeadValues f)
  code (mUrl f) (mBody f) (mWSCacheFrame f) (mWSParsePayload f) (mWSFrameType f).
Definition set_mHeadValues v f := mk_fields (mIsWebSocket f) (mIsKeepAlive f) (mISCompleted f) (mLastWasValue f)
  (mCurrentField f) (mCurrentValue f) (mPath f) (mQuery f) (mStatus f) v
  (mStatusCode f) (mUrl f) (mBody f) (mWSCacheFrame f) (mWSParsePayload f) (mWSFrameType f).
Definition set_mUrl v f := mk_fields (mIsWebSocket f) (mIsKeepAlive f) (mISCompleted f) (mLastWasValue f)
  (mCurrentField f) (mCurrentValue f) (mPath f) (mQuery f) (mStatus f) (mHeadValues f)
  (mStatusCode f) v (mBody f) (mWSCacheFrame f) (mWSParsePayload f) (mWSFrameType f).
Definition set_mBody v f := mk_fields (mIsWebSocket f) (mIsKeepAlive f) (mISCompleted f) (mLastWasValue f)
  (mCurrentField f) (mCurrentValue f) (mPath f) (mQuery f) (mStatus f) (mHeadValues f)
  (mStatusCode f) (mUrl f) v (mWSCacheFrame f) (mWSParsePayload f) (mWSFrameType f).
Definition set_mWSCacheFrame v f := mk_fields (mIsWebSocket f) (mIsKeepAlive f) (mISCompleted f) (mLastWasValue f)
  (mCurrentField f) (mCurrentValue f) (mPath f) (mQuery f) (mStatus f) (mHeadValues f)
  (mStatusCode f) (mUrl f) (mBody f) v (mWSParsePayload f) (mWSFrameType f).
Definition set_mWSParsePayload v f := mk_fields (mIsWebSocket f) (mIsKeepAlive f) (mISCompleted f) (mLastWasValue f)
  (mCurrentField f) (mCurrentValue f) (mPath f) (mQuery f) (mStatus f) (mHeadValues f)
  (mStatusCode f) (mUrl f) (mBody f) (mWSCacheFrame f) v (mWSFrameType f).
Definition cacheWSFrameType v f := mk_fields (mIsWebSocket f) (mIsKeepAlive f) (mISCompleted f) (mLastWasValue f)
  (mCurrentField f) (mCurrentValue f) (mPath f) (mQuery f) (mStatus f) (mHeadValues f)
  (mStatusCode f) (mUrl f) (mBody f) (mWSCacheFrame f) (mWSParsePayload f) v.

Record HTTPParser := mk_HTTPParser {
  mParserType : http_parser_type;
  mParser : http_parser;
  mFields : fields }.

(** The constructor; it leaves [mStatusCode] and [mWSFrameType] uninitialised,
    with the values [status] and [frame]. *)
Definition new_fields (status frame : Z) : fields :=
  mk_fields false false false true [] [] [] [] [] ∅ status [] [] [] [] frame.
Definition HTTPParser_new (t : http_parser_type) (status frame : Z) : HTTPParser :=
  mk_HTTPParser t (http_parser_init t) (new_fields status frame).

Definition clear_fields (f : fields) : fields :=
  set_mQuery [] (set_mPath [] (set_mHeadValues ∅ (set_mISCompleted false f))).
Definition clearParse (h : HTTPParser) : HTTPParser :=
  mk_HTTPParser (mParserType h) (mParser h) (clear_fields (mFields h)).

(** ** Queries *)

Definition hasEntry (key value : bytes) (f : fields) : bool :=
  match mHeadValues f !! key with Some v => bool_decide (value = v) | None => false end.
Definition hasKey (key : bytes) (f : fields) : bool := bool_decide (is_Some (mHeadValues f !! key)).
Definition getValue (key : bytes) (f : fields) : bytes := default [] (mHeadValues f !! key).

(** ** Callbacks

    [uninit] is what the local [struct http_parser_url] holds before the call of
    [http_parser_parse_url]; the string that is parsed ends with a NUL. *)
Section Callbacks.
Context (uninit : http_parser_url).

Definition sMessageBegin (f : fields) : fields := set_header true [] [] f.
Definition sMessageEnd (f : fields) : fields := set_mISCompleted true f.

(** [mPath] and [mQuery] from the URL; the result -1 stops the parser. The
    assertion in the URL parser is never reached ([url_fields_inside]). *)
Definition parse_target (f : fields) : Z * fields :=
  match http_parser_parse_url (mUrl f) [0] false uninit with
  | Some (result, u) =>
      if negb (result =? 0) then (-1, f)
      else if negb (has_field u UF_PATH) then (-1, f)
      else
        let f := set_mPath (slice (mUrl f) (field_off u UF_PATH) (field_len u UF_PATH)) f in
        if has_field u UF_QUERY
        then (0, set_mQuery (slice (mUrl f) (field_off u UF_QUERY) (field_len u UF_QUERY)) f)
        else (0, f)
  | None => (-1, f)
  end.

Definition sHeadComplete (f : fields) : Z * fields :=
  let f := if decide (mCurrentField f = []) then f
           else set_mHeadValues (<[mCurrentField f := mCurrentValue f]> (mHeadValues f)) f in
  if decide (mUrl f = []) then (0, f) else parse_target f.

Definition sUrlHandle (url : bytes) (f : fields) : fields := set_mUrl (mUrl f ++ url) f.

Definition sHeadValue (at_ : bytes) (f : fields) : fields :=
  set_header true (mCurrentField f) (mCurrentValue f ++ at_) f.

(** The header before this one is complete; the result of [sHeadComplete] is
    not looked at. *)
Definition sHeadField (at_ : bytes) (f : fields) : fields :=
  let f :=
    if mLastWasValue f then
      let f := if decide (mCurrentField f = []) then f else (sHeadComplete f).2 in
      set_header (mLastWasValue f) [] [] f
    else f in
  set_header false (mCurrentField f ++ at_) (mCurrentValue f) f.

Definition sStatusHandle (hp : http_parser) (at_ : bytes) (f : fields) : fields :=
  set_mStatus (mStatus f ++ at_) (status_code hp) f.
Definition sBodyHandle (at_ : bytes) (f : fields) : fields := set_mBody (mBody f ++ at_) f.

(** [mSettings]. [sChunkHeader] and [sChunkComplete] do nothing. *)
Definition http_observer : observer fields := mk_observer
  (fun n f => match n with
              | message_begin => sMessageBegin f
              | message_complete => sMessageEnd f
              | chunk_header | chunk_complete => f
              end)
  (fun m b f => match m with
                | url => sUrlHandle b f
                | header_field => sHeadField b f
                | header_value => sHeadValue b f
                | body => sBodyHandle b f
                | status => f
                end)
  sHeadComplete sStatusHandle.

(** [tryParse]: the number of bytes parsed; nothing when an assertion of the
    parser fails. *)
Definition tryParse (buffer : bytes) (h : HTTPParser) : option (Z * HTTPParser) :=
  match http_parser_execute (observe http_observer) buffer (mParser h) (mFields h) with
  | Returned nparsed x f =>
      if mISCompleted f then
        let f := set_mIsWebSocket (upgrade x) f in
        let f := set_mIsKeepAlive (negb (hasEntry (str "Connection") (str "close") f)) f in
        Some (nparsed, mk_HTTPParser (mParserType h) (http_parser_init (mParserType h)) f)
      else Some (nparsed, mk_HTTPParser (mParserType h) x f)
  | _ => None
  end.
End Callbacks.

Example tryParse_example :
  match tryParse url0 (str "GET /p?q=1 HTTP/1.1" ++ [CR; LF] ++ str "Host: h" ++ [CR; LF] ++
                       str "A: b" ++ [CR; LF; CR; LF]) (HTTPParser_new HTTP_BOTH 0 0) with
  | Some (n, h) => n = 38 /\ mPath (mFields h) = str "/p" /\ mQuery (mFields h) = str "q=1" /\
      getValue (str "A") (mFields h) = str "b" /\ mIsKeepAlive (mFields h) = true
  | None => False
  end.
Proof. vm_compute. auto. Qed.
