(* ===== verification/HttpReceive.v ===== *)
(** * A request through HTTPParser

    What the object of net/http/HttpParser.cpp holds after the bytes of a
    request, for a new connection and for one that is kept alive. *)

From S2P Require Import Prelude.
From S2P Require Import Words.
From S2P Require Import HttpChars.
From S2P Require Import HttpUrl.
From S2P Require Import HttpUrlFields.
From S2P Require Import HttpState.
From S2P Require Import HttpExec.
From S2P Require Import HttpRun.
From S2P Require Import HttpLines.
From S2P Require Import HttpRequest.
From S2P Require Import HTTPParser.
#[local] Open Scope Z_scope.
#[local] Open Scope brynet_scope.

(** ** What is to be received *)

(** The headers as the map that the object keeps: of two headers with one name
    the later. *)
Definition add_headers (hs : list header) (m : gmap bytes bytes) : gmap bytes bytes :=
  fold_left (fun m h => <[h_name h := h_value h]> m) hs m.

Definition last_header (hs : list header) (d : bytes * bytes) : bytes * bytes :=
  fold_left (fun _ h => (h_name h, h_value h)) hs d.

Section Receive.
Context (uninit : http_parser_url).

(** The path and the query of a URL, as [sHeadComplete] finds them. *)
Definition split_target (t : bytes) : option (bytes * option bytes) :=
  match http_parser_parse_url t [0] false uninit with
  | Some (0, u) =>
      if has_field u UF_PATH
      then Some (url_text t u UF_PATH, if has_field u UF_QUERY then Some (url_text t u UF_QUERY) else None)
      else None
  | _ => None
  end.

(** The fields of [f] when the headers [hs] have followed and the URL has the
    path [pq.1] and the query [pq.2]. *)
Definition with_head (pq : bytes * option bytes) (hs : list header) (f : fields) : fields :=
  let pending := (mCurrentField f, mCurrentValue f) in
  let m := if decide (mCurrentField f = []) then mHeadValues f
           else <[mCurrentField f := mCurrentValue f]> (mHeadValues f) in
  let '(cf, cv) := last_header hs pending in
  set_mPath pq.1 (set_mQuery (default (mQuery f) pq.2)
    (set_mHeadValues (add_headers hs m) (set_header true cf cv f))).

(** The object after one more request whose URL, appended to the one already
    there, has the path [pq.1] and the query [pq.2]. *)
Definition with_request (pq : bytes * option bytes) (r : request) (f : fields) : fields :=
  let f := with_head pq (r_headers r) (set_mUrl (mUrl f ++ r_target r) (set_header true [] [] f)) in
  set_mISCompleted true (set_mBody (mBody f ++ r_body r) f).

Definition finished (f : fields) : fields :=
  set_mIsKeepAlive (negb (hasEntry (str "Connection") (str "close") f)) (set_mIsWebSocket false f).

(** ** The callbacks over a whole request *)

Lemma parse_target_split f : parse_target uninit f =
  match split_target (mUrl f) with
  | Some (p, q) => (0, set_mPath p (set_mQuery (default (mQuery f) q) f))
  | None => (-1, f)
  end.
Proof.
  unfold parse_target, split_target. destruct (http_parser_parse_url _ _ _ _) as [[[|z|z] u]|]; try done.
  change (negb (0 =? 0)) with false. cbv iota. destruct (has_field u UF_PATH); [|done].
  cbn [negb]. cbv iota. destruct (has_field u UF_QUERY); by destruct f.
Qed.

Lemma sHeadComplete_split f pq :
  mUrl f <> [] -> split_target (mUrl f) = Some pq -> mLastWasValue f = true ->
  sHeadComplete uninit f = (0, with_head pq [] f).
Proof.
  intros Hu E Hl. unfold sHeadComplete. destruct pq as [p q].
  assert (Hg : forall g, mUrl g = mUrl f -> (if decide (mUrl g = []) then (0, g) else parse_target uninit g)
    = (0, set_mPath p (set_mQuery (default (mQuery g) q) g))).
  { intros g Eg. rewrite decide_False by congruence. by rewrite parse_target_split, Eg, E. }
  destruct (decide (mCurrentField f = [])) as [Ec|Ec].
  - rewrite Hg by done. unfold with_head. rewrite decide_True by done. cbn [last_header fold_left].
    destruct f; simpl in *; by subst.
  - rewrite Hg by done. unfold with_head. rewrite decide_False by done.
    cbn [last_header fold_left]. destruct f; simpl in *; by subst.
Qed.

Lemma header_event_fields h f pq :
  mUrl f <> [] -> split_target (mUrl f) = Some pq -> mLastWasValue f = true ->
  exists f', header_events (http_observer uninit) (h_name h) (h_value h) f = f' /\
    mUrl f' = mUrl f /\ mLastWasValue f' = true /\
    mCurrentField f' = h_name h /\ mCurrentValue f' = h_value h /\
    (h_name h <> [] -> forall hs, with_head pq hs f' = with_head pq (h :: hs) f).
Proof.
  intros Hu E Hl. eexists. split; [reflexivity|]. unfold header_events, http_observer.
  cbn [ob_data]. unfold sHeadField. rewrite Hl.
  assert (Hc := sHeadComplete_split f pq Hu E Hl).
  destruct (decide (mCurrentField f = [])) as [Ec|Ec].
  - split_and!; try done. intros Hn hs. unfold with_head. simpl.
    rewrite (decide_True (P := mCurrentField f = [])), decide_False by done.
    by destruct f, (last_header hs _).
  - rewrite Hc. cbn [snd]. unfold with_head at 1 2 3 4. cbn [last_header fold_left].
    split_and!; try done. intros Hn hs. unfold with_head. simpl.
    rewrite !(decide_False (P := mCurrentField f = [])), decide_False by done.
    destruct f, (last_header hs _), pq as [p []]; done.
Qed.

Lemma headers_complete hs : forall f pq,
  Forall (fun h => h_name h <> []) hs ->
  mUrl f <> [] -> split_target (mUrl f) = Some pq -> mLastWasValue f = true ->
  sHeadComplete uninit (headers_events (http_observer uninit) hs f) = (0, with_head pq hs f).
Proof.
  induction hs as [|h hs IH]; intros f pq Hn Hu E Hl; [by apply sHeadComplete_split|].
  apply Forall_cons in Hn as [Hh Hn].
  destruct (header_event_fields h f pq Hu E Hl) as (f' & Ef & H1 & H2 & _ & _ & H).
  change (headers_events (http_observer uninit) (h :: hs) f) with
    (headers_events (http_observer uninit) hs (header_events (http_observer uninit) (h_name h) (h_value h) f)).
  rewrite Ef. rewrite <- H by done. apply IH; congruence.
Qed.

Lemma header_name_not_empty h : header_ok h -> h_name h <> [].
Proof.
  intros H. destruct (line_ok_facts _ _ _ H) as (b & l & v & vs & -> & _). discriminate.
Qed.

Lemma head_complete r f pq :
  well_formed r -> split_target (mUrl f ++ r_target r) = Some pq ->
  ob_headers (http_observer uninit) (head_events (http_observer uninit) r f) =
    (0, with_head pq (r_headers r) (set_mUrl (mUrl f ++ r_target r) (set_header true [] [] f))).
Proof.
  intros (_ & Ht & Hh & _) E. unfold head_events. cbn [ob_headers http_observer].
  apply headers_complete; [|..].
  - eapply Forall_impl; [exact Hh|]. apply header_name_not_empty.
  - cbn. destruct (r_target r); [done|]. by destruct (mUrl f).
  - exact E.
  - done.
Qed.

Lemma request_received r f pq :
  well_formed r -> split_target (mUrl f ++ r_target r) = Some pq ->
  accepts (http_observer uninit) r f /\
  request_events (http_observer uninit) r f = with_request pq r f.
Proof.
  intros Hr E. unfold accepts, request_events, with_request. rewrite (head_complete r f pq Hr E).
  split; [done|]. cbn [snd fst]. destruct (r_body r); [|done].
  simpl. unfold with_head. destruct (last_header _ _), f; simpl. by rewrite app_nil_r.
Qed.
End Receive.

(** ** One call of tryParse *)

Lemma tryParse_requests uninit rs r t x f g pq :
  request_ok r -> Forall request_ok rs -> Forall stays_open rs ->
  accepts_all (http_observer uninit) rs f -> waiting x ->
  stream_events (http_observer uninit) rs f = g -> split_target uninit (mUrl g ++ r_target r) = Some pq ->
  tryParse uninit (stream_bytes (rs ++ [r])) (mk_HTTPParser t x f) =
    Some (zlen (stream_bytes (rs ++ [r])),
      mk_HTTPParser t (http_parser_init t) (finished (with_request pq r g))).
Proof.
  intros Hr Hrs Hopen Ha Hx Eg Hs. destruct (request_received uninit r g pq (proj1 Hr) Hs) as [Ho Er].
  assert (Hall : forall rs u, accepts_all (http_observer uninit) rs u ->
    accepts (http_observer uninit) r (stream_events (http_observer uninit) rs u) ->
    accepts_all (http_observer uninit) (rs ++ [r]) u).
  { clear. induction rs as [|r' rs IH]; intros u Hu Hr; [by split|].
    destruct Hu as [H1 H2]. split; [exact H1|]. apply IH; [exact H2|exact Hr]. }
  destruct (execute_requests (http_observer uninit) rs r x f) as (x' & E & _ & _ & Hup); try done.
  - apply Hall; [done|]. by rewrite Eg.
  - unfold tryParse. cbn [mParser mFields mParserType]. rewrite E. unfold stream_events.
    rewrite fold_left_app. fold (stream_events (http_observer uninit) rs f). rewrite Eg.
    cbn [fold_left]. rewrite Er.
    change (mISCompleted (with_request pq r g)) with true. cbv iota. by rewrite Hup.
Qed.

Lemma tryParse_request uninit r t x f pq :
  request_ok r -> waiting x -> split_target uninit (mUrl f ++ r_target r) = Some pq ->
  tryParse uninit (request_bytes r) (mk_HTTPParser t x f) =
    Some (zlen (request_bytes r), mk_HTTPParser t (http_parser_init t) (finished (with_request pq r f))).
Proof.
  intros Hr Hx E. pose proof (tryParse_requests uninit [] r t x f f pq Hr) as H.
  unfold stream_bytes in H. simpl app in H. cbn [map concat] in H. rewrite app_nil_r in H. by apply H.
Qed.

(** A request to upgrade: the bytes behind its empty line are left. *)
Definition upgraded (f : fields) : fields :=
  set_mIsKeepAlive (negb (hasEntry (str "Connection") (str "close") f)) (set_mIsWebSocket true f).

Lemma tryParse_upgrade uninit r rest t x f pq :
  upgrade_ok r -> waiting x -> split_target uninit (mUrl f ++ r_target r) = Some pq ->
  tryParse uninit (head_bytes r ++ rest) (mk_HTTPParser t x f) =
    Some (zlen (head_bytes r), mk_HTTPParser t (http_parser_init t) (upgraded (with_request pq r f))).
Proof.
  intros Hr Hx Hs. destruct (request_received uninit r f pq (proj1 Hr) Hs) as [Ho Er].
  destruct (execute_upgrade (http_observer uninit) r rest x f Hr Ho Hx) as (x' & E & Hup).
  unfold tryParse. cbn [mParser mFields mParserType]. rewrite E, Er.
  change (mISCompleted (with_request pq r f)) with true. cbv iota. by rewrite Hup.
Qed.

(** The path and the query of a URL made of parts. *)
Lemma split_target_parts uninit w :
  parts_ok w -> zlen (url_bytes w) < 65536 -> w_path w <> [] ->
  split_target uninit (url_bytes w) = Some (w_path w, w_query w).
Proof.
  intros Hw Hlen Hp. destruct (url_parsed w [0] uninit Hw Hlen) as (u & E & F & _).
  - repeat constructor; done.
  - unfold port_value, spill. destruct Hw as (Ho & _). unfold port_of.
    destruct (w_origin w) as [[s a]|]; [|done]. destruct Ho as (_ & _ & _ & Ho).
    destruct (a_port a); [|done]. change (digits [0]) with (@nil Z).
    destruct (decide _); rewrite app_nil_r; apply Ho.
  - unfold split_target. rewrite E. pose proof (F UF_PATH) as Hpath. pose proof (F UF_QUERY) as Hq.
    unfold part in Hpath, Hq. destruct (w_path w) as [|c p]; [done|]. destruct Hpath as [-> ->].
    destruct (w_query w); [destruct Hq as [-> ->]|rewrite Hq]; done.
Qed.

Lemma path_ok_app p1 p2 : path_ok p1 -> path_ok p2 -> path_ok (p1 ++ p2).
Proof.
  destruct p1 as [|c p1]; [done|]. intros [-> H1] H2. split; [done|]. apply Forall_app. split; [done|].
  destruct p2 as [|c p2]; [constructor|]. destruct H2 as [-> H2]. constructor; [|done].
  split; [done|by vm_compute].
Qed.

(** The URL that is only a path. *)
Definition just_path (p : bytes) : url_parts := mk_parts None p None None.

Lemma just_path_ok p : path_ok p -> p <> [] -> parts_ok (just_path p).
Proof. by intros. Qed.

Lemma just_path_bytes p : url_bytes (just_path p) = p.
Proof. unfold url_bytes, tail_bytes. simpl. by rewrite app_nil_r. Qed.

Lemma split_target_path uninit p :
  path_ok p -> p <> [] -> zlen p < 65536 -> split_target uninit p = Some (p, None).
Proof.
  intros Hp Hne Hlen. rewrite <- (just_path_bytes p) at 1.
  apply (split_target_parts uninit (just_path p)); [by apply just_path_ok|by rewrite just_path_bytes|done].
Qed.

(** The value of the last of the headers with the name [k]; [v] if there is none. *)
Definition header_value_of (hs : list header) (k v : bytes) : bytes :=
  fold_left (fun v h => if decide (h_name h = k) then h_value h else v) hs v.

Lemma add_headers_lookup k hs : forall m,
  default [] (add_headers hs m !! k) = header_value_of hs k (default [] (m !! k)).
Proof.
  induction hs as [|h hs IH]; intros m; [done|]. simpl. rewrite IH. f_equal.
  destruct (decide (h_name h = k)) as [<-|Hne]; [by rewrite lookup_insert_eq|].
  by rewrite lookup_insert_ne.
Qed.

Lemma with_head_headers pq hs f k :
  mCurrentField f = [] -> getValue k (with_head pq hs f) = header_value_of hs k (getValue k f).
Proof.
  intros E. unfold getValue, with_head. rewrite decide_True by done.
  destruct (last_header hs _) as [cf cv]. simpl. apply add_headers_lookup.
Qed.

Lemma with_request_facts pq r f :
  let g := with_request pq r f in
  mISCompleted g = true /\ mUrl g = mUrl f ++ r_target r /\ mBody g = mBody f ++ r_body r /\
  mPath g = pq.1 /\ mQuery g = default (mQuery f) pq.2 /\
  forall k, getValue k g = header_value_of (r_headers r) k (getValue k f).
Proof.
  cbv zeta. assert (Hq := with_head_headers pq (r_headers r)
    (set_mUrl (mUrl f ++ r_target r) (set_header true [] [] f))).
  unfold with_request. revert Hq. unfold with_head. destruct (last_header (r_headers r) _).
  intros Hq. split_and!; [done..|]. intros k. etransitivity; [by apply Hq|done].
Qed.

Lemma new_is_waiting t status frame :
  t <> HTTP_RESPONSE -> waiting (mParser (HTTPParser_new t status frame)).
Proof. destruct t; [|done|]; intros _; by split; [vm_compute; auto|]. Qed.

(** C7: a request is delivered as it was sent. On a new HTTPParser for requests
    or for both kinds of messages, whatever its uninitialised memory holds, the
    bytes of a well-formed request whose URL is put together from parts are all
    parsed, and then the request is complete, getPath and getQuery are the
    URL's path and query, getValue gives for every name the value of the last
    header with that name (nothing for a name that was not sent), getBody is the
    body, it is no WebSocket, it is to be kept alive unless it says Connection:
    close, and the parser is ready for the next message. *)
Theorem request_delivered uninit t status frame r w :
  t <> HTTP_RESPONSE -> request_ok r -> parts_ok w -> w_path w <> [] -> zlen (url_bytes w) < 65536 ->
  r_target r = url_bytes w ->
  exists h, tryParse uninit (request_bytes r) (HTTPParser_new t status frame) =
      Some (zlen (request_bytes r), h) /\
    let f := mFields h in
    mISCompleted f = true /\ mPath f = w_path w /\ mQuery f = default [] (w_query w) /\
    (forall k, getValue k f = header_value_of (r_headers r) k []) /\ mBody f = r_body r /\
    mIsWebSocket f = false /\
    mIsKeepAlive f = negb (hasEntry (str "Connection") (str "close") f) /\
    mParser h = http_parser_init t.
Proof.
  intros Ht Hr Hw Hp Hlen E.
  pose proof (split_target_parts uninit w Hw Hlen Hp) as Hs. rewrite <- E in Hs.
  assert (Hx := new_is_waiting t status frame Ht). unfold HTTPParser_new in *. cbn [mParser] in Hx.
  rewrite (tryParse_request uninit r t _ (new_fields status frame) _ Hr Hx Hs).
  eexists. split; [reflexivity|]. cbn [mFields mParser].
  destruct (with_request_facts (w_path w, w_query w) r (new_fields status frame))
    as (_ & _ & H2 & H3 & H4 & H5).
  by split_and!.
Qed.

(** When a connection is kept alive, the URL of the request before is kept
    as well: clearParse empties neither the URL nor the body. After a request
    for the path p1, the path of a second request for p2 is reported as p1
    followed by p2, and its body as the first body followed by the second. *)
Theorem keep_alive_concatenates uninit t status frame r1 r2 :
  t <> HTTP_RESPONSE -> request_ok r1 -> request_ok r2 ->
  path_ok (r_target r1) -> path_ok (r_target r2) -> zlen (r_target r1 ++ r_target r2) < 65536 ->
  exists h1 h2, tryParse uninit (request_bytes r1) (HTTPParser_new t status frame) =
      Some (zlen (request_bytes r1), h1) /\
    tryParse uninit (request_bytes r2) (clearParse h1) = Some (zlen (request_bytes r2), h2) /\
    mPath (mFields h1) = r_target r1 /\ mPath (mFields h2) = r_target r1 ++ r_target r2 /\
    mBody (mFields h2) = r_body r1 ++ r_body r2.
Proof.
  intros Ht Hr1 Hr2 Hp1 Hp2 Hlen.
  assert (Hne1 : r_target r1 <> []) by (destruct Hr1 as ((_ & H & _) & _); by destruct (r_target r1)).
  assert (Hlen1 : zlen (r_target r1) < 65536).
  { rewrite zlen_app in Hlen. pose proof (zlen_nonneg (r_target r2)). lia. }
  pose proof (split_target_path uninit _ Hp1 Hne1 Hlen1) as Hs1.
  assert (Hx := new_is_waiting t status frame Ht). unfold HTTPParser_new in *. cbn [mParser] in Hx.
  set (f0 := new_fields status frame) in *.
  rewrite (tryParse_request uninit r1 t _ f0 _ Hr1 Hx Hs1). unfold clearParse.
  cbn [mFields mParser mParserType].
  destruct (with_request_facts (r_target r1, None) r1 f0) as (_ & Eu & Eb & Ep & _).
  set (f1 := finished _). change (mUrl f1 = r_target r1) in Eu. change (mBody f1 = r_body r1) in Eb.
  assert (Hs2 : split_target uninit (mUrl (clear_fields f1) ++ r_target r2) =
    Some (r_target r1 ++ r_target r2, None)).
  { change (mUrl (clear_fields f1)) with (mUrl f1). rewrite Eu.
    apply split_target_path; [by apply path_ok_app|by destruct (r_target r1)|done]. }
  eexists; eexists. split; [reflexivity|]. cbn [mFields mParser mParserType].
  rewrite (tryParse_request uninit r2 t _ (clear_fields f1) _ Hr2 Hx Hs2).
  split; [reflexivity|]. cbn [mFields].
  destruct (with_request_facts (r_target r1 ++ r_target r2, None) r2 (clear_fields f1))
    as (_ & _ & Eb2 & Ep2 & _).
  split_and!; [exact Ep|exact Ep2|]. etransitivity; [exact Eb2|]. f_equal. exact Eb.
Qed.

(** Two requests that arrive in one piece, the first of which does not ask to
    close the connection, are reported as one. A single call
    takes the bytes of both, completes once, and then the path is the first path
    followed by the second, the body the first body followed by the second, and
    the headers are those of both. *)
Theorem pipelined_requests_merge uninit t status frame r1 r2 :
  t <> HTTP_RESPONSE -> request_ok r1 -> request_ok r2 -> stays_open r1 ->
  path_ok (r_target r1) -> path_ok (r_target r2) -> zlen (r_target r1 ++ r_target r2) < 65536 ->
  exists h, tryParse uninit (request_bytes r1 ++ request_bytes r2) (HTTPParser_new t status frame) =
      Some (zlen (request_bytes r1 ++ request_bytes r2), h) /\
    mISCompleted (mFields h) = true /\ mPath (mFields h) = r_target r1 ++ r_target r2 /\
    mBody (mFields h) = r_body r1 ++ r_body r2 /\
    (forall k, getValue k (mFields h) = header_value_of (r_headers r1 ++ r_headers r2) k []).
Proof.
  intros Ht Hr1 Hr2 Hopen Hp1 Hp2 Hlen.
  assert (Hne1 : r_target r1 <> []) by (destruct Hr1 as ((_ & H & _) & _); by destruct (r_target r1)).
  assert (Hlen1 : zlen (r_target r1) < 65536).
  { rewrite zlen_app in Hlen. pose proof (zlen_nonneg (r_target r2)). lia. }
  pose proof (split_target_path uninit _ Hp1 Hne1 Hlen1) as Hs1.
  assert (Hx := new_is_waiting t status frame Ht). unfold HTTPParser_new in *. cbn [mParser] in Hx.
  set (f0 := new_fields status frame) in *.
  destruct (request_received uninit r1 f0 _ (proj1 Hr1) Hs1) as [Ho1 Er1].
  destruct (with_request_facts (r_target r1, None) r1 f0) as (_ & Eu & Eb & _ & _ & Eh).
  set (g := with_request (r_target r1, None) r1 f0) in *.
  assert (Hs2 : split_target uninit (mUrl g ++ r_target r2) = Some (r_target r1 ++ r_target r2, None)).
  { rewrite Eu. apply split_target_path; [by apply path_ok_app|by destruct (r_target r1)|done]. }
  clearbody g.
  assert (H : tryParse uninit (stream_bytes [r1; r2]) (mk_HTTPParser t (http_parser_init t) f0) =
    Some (zlen (stream_bytes [r1; r2]), mk_HTTPParser t (http_parser_init t)
      (finished (with_request (r_target r1 ++ r_target r2, None) r2 g)))).
  { apply (tryParse_requests uninit [r1]).
    all: first [done|by constructor|by split|exact Er1]. }
  unfold stream_bytes in H. cbn [map concat] in H. rewrite app_nil_r in H. rewrite H. clear H.
  eexists. split; [reflexivity|]. cbn [mFields].
  pose proof (with_request_facts (r_target r1 ++ r_target r2, None) r2 g) as F.
  cbv zeta in F. revert F. generalize (with_request (r_target r1 ++ r_target r2, None) r2 g).
  intros f2 (Ec & _ & Eb2 & Ep2 & _ & Eh2).
  split_and!; [exact Ec|exact Ep2|etransitivity; [exact Eb2|by rewrite Eb]|].
  intros k. etransitivity; [apply Eh2|]. unfold header_value_of at 2. rewrite fold_left_app.
  unfold header_value_of at 1. f_equal. apply Eh.
Qed.

Definition demo_post : request :=
  mk_request HTTP_POST (url_bytes demo_parts)
    [mk_header Length (str "Content-Length") (str "2"); mk_header Plain (str "A") (str "b")] (str "hi").

Lemma request_delivered_witness :
  exists h, tryParse url0 (request_bytes demo_post) (HTTPParser_new HTTP_BOTH 7 9) =
      Some (zlen (request_bytes demo_post), h) /\
    mPath (mFields h) = str "/a%20b" /\ mQuery (mFields h) = str "q=1&r=?" /\
    getValue (str "A") (mFields h) = str "b" /\ getValue (str "B") (mFields h) = [] /\
    mBody (mFields h) = str "hi".
Proof.
  destruct (request_delivered url0 HTTP_BOTH 7 9 demo_post demo_parts)
    as (h & E & _ & Hp & Hq & Hv & Hb & _).
  - congruence.
  - apply requestb_ok. by vm_compute.
  - repeat split; try done; repeat constructor; vm_compute; congruence.
  - vm_compute. congruence.
  - by vm_compute.
  - reflexivity.
  - exists h. split; [exact E|]. rewrite Hp, Hq, !Hv, Hb. split_and!; reflexivity.
Defined.

Definition demo_get (path : bytes) : request :=
  mk_request HTTP_GET path [mk_header Plain (str "Host") path] [].

Lemma keep_alive_concatenates_witness :
  exists h1 h2, tryParse url0 (request_bytes (demo_get (str "/a"))) (HTTPParser_new HTTP_BOTH 7 9) =
      Some (29, h1) /\
    tryParse url0 (request_bytes (demo_get (str "/b"))) (clearParse h1) = Some (29, h2) /\
    mPath (mFields h1) = str "/a" /\ mPath (mFields h2) = str "/a/b".
Proof.
  destruct (keep_alive_concatenates url0 HTTP_BOTH 7 9 (demo_get (str "/a")) (demo_get (str "/b")))
    as (h1 & h2 & E1 & E2 & P1 & P2 & _).
  - congruence.
  - apply requestb_ok. by vm_compute.
  - apply requestb_ok. by vm_compute.
  - split; [reflexivity|]. repeat constructor; vm_compute; congruence.
  - split; [reflexivity|]. repeat constructor; vm_compute; congruence.
  - by vm_compute.
  - exists h1, h2. split_and!; [exact E1|exact E2|exact P1|exact P2].
Defined.

Lemma pipelined_requests_merge_witness :
  exists h, tryParse url0 (request_bytes (demo_get (str "/a")) ++ request_bytes (demo_get (str "/b")))
      (HTTPParser_new HTTP_BOTH 7 9) = Some (58, h) /\
    mPath (mFields h) = str "/a/b" /\ getValue (str "Host") (mFields h) = str "/b".
Proof.
  destruct (pipelined_requests_merge url0 HTTP_BOTH 7 9 (demo_get (str "/a")) (demo_get (str "/b")))
    as (h & E & _ & P & _ & Hv).
  - congruence.
  - apply requestb_ok. by vm_compute.
  - apply requestb_ok. by vm_compute.
  - reflexivity.
  - split; [reflexivity|]. repeat constructor; vm_compute; congruence.
  - split; [reflexivity|]. repeat constructor; vm_compute; congruence.
  - by vm_compute.
  - exists h. split_and!; [exact E|exact P|]. rewrite Hv. reflexivity.
Defined.
