(* ===== verification/HttpStream.v ===== *)
(** * Feeding the HTTP parser piece by piece: the simulation

    What an application does with a stream: one call of [http_parser_execute]
    for each piece that arrives, until the parser fails or a message asks for an
    upgrade ([feed]). This file relates a call on any data with the calls on its
    bytes one by one, for the states whose case looks at one byte only. *)

From S2P Require Import Prelude.
From S2P Require Import Words.
From S2P Require Import HttpChars.
From S2P Require Import HttpUrl.
From S2P Require Import HttpState.
From S2P Require Import HttpExec.
From S2P Require Import HttpWp.
From S2P Require Import HttpSafe.
From S2P Require Import HttpRun.

(** ** Observers of a stream

    The data callbacks of a stream may be called once with some bytes or several
    times with pieces of them; [on_status] looks only at the status code. *)
Definition cb_data {U} (o : observer U) (f : mark) (x : http_parser) (b : bytes) (u : U) : U :=
  match f with status => ob_status o x b u | _ => ob_data o f b u end.

Record stream_observer {U} (o : observer U) : Prop := mk_stream_observer {
  so_data : forall f x a b u, a <> [] -> cb_data o f x (a ++ b) u = cb_data o f x b (cb_data o f x a u);
  so_status : forall x y, status_code x = status_code y -> ob_status o x = ob_status o y }.

(** A message that asked for an upgrade is complete. *)
Definition start_of (s : state) : bool :=
  match s with
  | s_dead | s_start_req | s_start_res | s_start_req_or_res => true
  | _ => false
  end.
Definition upgraded (s : state) (x : http_parser) : bool := upgrade x && start_of s.

(** The parser takes more data. *)
Definition more (x : http_parser) : bool :=
  bool_decide (perrno x = HPE_OK) && negb (upgraded (pstate x) x).

Fixpoint feed {U} (o : observer U) (ds : list bytes) (n : Z) (x : http_parser) (u : U)
  : @outcome U :=
  match ds with
  | [] => Returned n x u
  | d :: ds' =>
      match http_parser_execute (observe o) d x u with
      | Returned k x' u' => if more x' then feed o ds' (n + k) x' u' else Returned (n + k) x' u'
      | r => r
      end
  end.

Section Stream.
Context {U : Type} (o : observer U) (Ho : stream_observer o).
#[local] Abbreviation st := (observe o).

(** A data callback for bytes that may be missing. *)
Definition deliver (f : mark) (x : http_parser) (a : bytes) (u : U) : U :=
  match a with [] => u | _ => cb_data o f x a u end.

Lemma deliver_cb f x a b u : cb_data o f x b (deliver f x a u) = cb_data o f x (a ++ b) u.
Proof. destruct a; [done|]. symmetry. by apply (so_data o Ho). Qed.

Lemma deliver_end f x a u : cb_data o f x [] (deliver f x a u) = cb_data o f x a u.
Proof. by rewrite deliver_cb, app_nil_r. Qed.

Lemma cb_data_status f x y a u :
  status_code x = status_code y -> cb_data o f x a u = cb_data o f y a u.
Proof. intros H. destruct f; try done. simpl. by rewrite (so_status o Ho x y H). Qed.

Lemma deliver_status f x y a u :
  status_code x = status_code y -> deliver f x a u = deliver f y a u.
Proof. destruct a; [done|]. apply cb_data_status. Qed.

Lemma cb_deliver f x y z a u : status_code x = status_code y -> status_code z = status_code y ->
  cb_data o f x [] (deliver f y a u) = cb_data o f z a u.
Proof.
  intros Hx Hz. rewrite (cb_data_status f x y), deliver_end by done. by apply cb_data_status.
Qed.

Lemma deliver_some f x a u : a <> [] -> deliver f x a u = cb_data o f x a u.
Proof. by destruct a. Qed.

Lemma slice_some (data : bytes) m q : 0 <= m -> m < q -> q <= zlen data -> slice data m (q - m) <> [].
Proof.
  intros Hm Hq Hd E. apply (f_equal zlen) in E. rewrite zlen_slice in E by lia.
  change (zlen []) with 0 in E. lia.
Qed.

(** ** The relation

    [e] is in the middle of a byte of [data], at offset [q]; [e1] is in the
    middle of the same byte [b] as the only one of its call. The parsers differ
    in [nread], counted once per byte and again per piece in a header, and in the
    stored state; what [e] has still to deliver has been delivered in [e1]. *)
Definition like (x x1 : http_parser) : Prop :=
  exists s n, x1 = set_pstate s (set_nread n x) /\ nread x <= n.

Definition owed (data : bytes) (q : Z) (e : exec U) (u : U) : U :=
  let d f u := match get_mark f e with
               | Some m => deliver f (prs e) (slice data m (q - m)) u
               | None => u
               end in
  d status (d body (d url (d header_value (d header_field u)))).

Definition marked (e : exec U) : Prop :=
  match initial_mark (p_state e) with
  | Some f => get_mark f e <> None
  | None => True
  end.

(** The same marks are set. The mark of the body is not set again at the start
    of a call. *)
Definition mark_like (q : Z) (f : mark) (o1 o2 : option Z) : Prop :=
  match o1, o2 with
  | None, None => True
  | Some _, Some m => m = 0
  | Some m, None => f = body /\ m < q
  | None, Some _ => False
  end.
Definition marks_like (q : Z) (e e1 : exec U) : Prop :=
  mark_like q header_field (header_field_mark e) (header_field_mark e1) /\
  mark_like q header_value (header_value_mark e) (header_value_mark e1) /\
  mark_like q url (url_mark e) (url_mark e1) /\
  mark_like q body (body_mark e) (body_mark e1) /\
  mark_like q status (status_mark e) (status_mark e1).

Definition quiet (e : exec U) : Prop := upgraded (p_state e) (prs e) = false.

Definition mid (data : bytes) (q : Z) (e e1 : exec U) : Prop :=
  like (prs e) (prs e1) /\ p_state e1 = p_state e /\ p e = q /\ p e1 = 0 /\
  marks_like q e e1 /\ usr e1 = owed data q e (usr e) /\ quiet e.

(** The byte itself, which [s_message_done] does not look at. *)
Definition same_ch (s : state) (e e1 : exec U) : Prop :=
  match s with s_message_done => True | _ => ch e1 = ch e end.

(** After the byte. *)
Definition sim_val (data : bytes) (q : Z) (e e1 : exec U) : Prop :=
  mid data q e e1 /\ marked e /\ (body_mark e1 = None -> body_mark e = None).

(** The states that look at one byte only. *)
Definition simple (s : state) : bool :=
  match s with
  | s_header_field | s_header_value | s_chunk_data | s_body_identity | s_body_identity_eof => false
  | _ => true
  end.

(** At a jump. *)
Definition sim_exit (data : bytes) (q : Z) (x x1 : exit) (e e1 : exec U) : Prop :=
  match x, x1 with
  | XReexecute, XReexecute => mid data q e e1 /\ marked e /\ simple (p_state e) = true /\
      same_ch (p_state e) e e1
  | XError, XError =>
      like (prs e) (prs e1) /\ p_state e1 = p_state e /\ p e = q + p e1 /\ perrno (prs e) <> HPE_OK
  | XReturn n, XReturn n1 =>
      n = q + n1 /\ (exists k, prs e1 = set_nread k (prs e) /\ nread (prs e) <= k) /\
      usr e1 = usr e /\ more (prs e) = false
  | XAssert, XAssert => True
  | _, _ => False
  end.

(** Run both. *)
Definition both (m m1 : M U unit) (Q : exec U -> exec U -> Prop)
  (X : exit -> exit -> exec U -> exec U -> Prop) (e e1 : exec U) : Prop :=
  wp m (fun _ e' => wp m1 (fun _ e1' => Q e' e1') (fun _ _ => False) e1)
    (fun x e' => wp m1 (fun _ _ => False) (fun x1 e1' => X x x1 e' e1') e1) e.

Definition sim_case (data : bytes) (s : state) (m m1 : M U unit) : Prop := forall q e e1,
  0 <= q < zlen data -> inv 1 e -> state_inv 1 s (prs e1) -> marked e -> p_state e = s ->
  same_ch s e e1 -> mid data q e e1 -> both m m1 (sim_val data q) (sim_exit data q) e e1.

(** ** Callbacks of an observer *)

Lemma wp_data_all data f m len er Q X (e : exec U) :
  perrno (prs e) = HPE_OK -> get_mark f e = Some m -> in_data data m (len m) = true ->
  Q tt (set_mark f None (set_usr (cb_data o f (set_pstate (p_state e) (prs e))
                                    (slice data m (len m)) (usr e))
                           (set_prs (set_pstate (p_state e) (prs e)) e))) ->
  wp (CALLBACK_DATA_ st data f len er) Q X e.
Proof.
  intros He Hm Hin HQ. destruct e as [[]]. simpl in *. subst.
  unfold wp, CALLBACK_DATA_, run_callback, assert_no_errno, assert, call, bind, gets, modify, ret.
  by destruct f; simpl in *; subst; rewrite Hin.
Qed.

Lemma wp_headers Q X (e : exec U) :
  Q (ob_headers o (usr e)).1 (set_usr (ob_headers o (usr e)).2 e) ->
  wp (call (fun x u => let '(r, u') := ob_headers o u in (r, x, u'))) Q X e.
Proof.
  intros HQ. unfold wp, call. destruct e as [x u]. simpl in *. by destruct (ob_headers o u).
Qed.

End Stream.

(** ** Running a case on both sides

    [open_sim] takes the two execution states apart, [sim_step] runs one
    operation, using on the second run the tests of the first, [sim_goal] proves
    the parts of the relation. *)
Ltac open_sim :=
  let Hs := fresh "Hs" in let c := fresh "c" in let s := fresh "s" in
  let er := fresh "er" in let s1 := fresh "s" in let c1 := fresh "c" in let Hc := fresh "Hc" in
  let He := fresh "He" in let M1 := fresh "M" in let M2 := fresh "M" in let M3 := fresh "M" in
  let M4 := fresh "M" in let M5 := fresh "M" in let Hk := fresh "Hk" in let Hm := fresh "Hm" in
  intros q [[ty fl ps hs ix nr cl ma mi sc me er up] u s q0 c m1 m2 m3 m4 m5]
    [x1 u1 s1 q1 c1 k1 k2 k3 k4 k5] Hpos (He & _ & Hinv & M1 & M2 & M3 & M4 & M5) Hk Hm Hs Hc Hmid;
  norm; subst s; subst er;
  destruct Hmid as ((ps1 & n1 & Hx & Hn) & Hs1 & Hp & Hp1 & (L1 & L2 & L3 & L4 & L5) & Hu & Hq);
  norm; subst s1 q0 q1 x1; norm;
  repeat match goal with
  | H : mark_ok _ _ _ ?m |- _ => apply mark_none in H; [|first [reflexivity|solve [auto]]]; subst m
  end;
  unfold marked in Hm; cbn [initial_mark p_state] in Hm; norm;
  repeat match goal with
  | H : ?m <> None |- _ => is_var m; destruct m; [clear H|done]
  | H : mark_like _ _ None ?m |- _ => destruct m; [destruct H|clear H]
  | H : mark_like _ _ (Some _) ?m |- _ =>
      let k := fresh "k" in
      destruct m as [k|]; simpl in H; [subst k|destruct H as [H ?]; try discriminate H]
  end;
  unfold owed in Hu; norm; subst u1.

Ltac mark_in_data :=
  apply in_data_true; norm; repeat match goal with |- context [zlen [?x]] => change (zlen [x]) with 1 end;
  repeat match goal with M : mark_ok _ _ _ (Some _) |- _ => destruct M as [M _] end; lia.

Ltac sim_step :=
  first
  [ lazymatch goal with
    | |- wp (MARK _) _ _ _ => unfold MARK
    | |- wp (CALLBACK_NOTIFY_ _ _ _) _ _ _ => apply wp_notify_obs; [norm; reflexivity|]
    | |- wp (CALLBACK_DATA_ _ _ _ _ _) _ _ _ =>
        first [eapply wp_data_all; [norm; reflexivity|reflexivity|mark_in_data|]
              |apply wp_data_none; [norm; reflexivity|reflexivity|]]
    | |- wp (call _) _ _ _ => apply wp_headers
    | |- wp (if true then _ else _) _ _ _ => cbv iota
    | |- wp (if false then _ else _) _ _ _ => cbv iota
    | |- wp (if negb (http_message_needs_eof ?x) then _ else _) _ _ _ =>
        match goal with E : negb (http_message_needs_eof ?y) = _ |- _ =>
          change (http_message_needs_eof x) with (http_message_needs_eof y); rewrite E end
    | |- wp (if ?c then _ else _) _ _ _ =>
        match goal with E : c = _ |- _ => rewrite E end
    | |- wp (match ?c with _ => _ end) _ _ _ =>
        match goal with E : c = _ |- _ => rewrite E end
    end; norm
  | wp_base ].


Lemma initial_url s : mark_state url s = true -> initial_mark s = Some url.
Proof. by destruct s. Qed.
Lemma start_url s : mark_state url s = true -> start_of s = false.
Proof. by destruct s. Qed.
Lemma url_char_next s c : parse_url_char s c <> s_dead ->
  initial_mark (parse_url_char s c) = Some url /\ start_of (parse_url_char s c) = false.
Proof.
  intros H%parse_url_char_class. auto using initial_url, start_url.
Qed.

Ltac sim_url :=
  repeat match goal with
  | H : parse_url_char ?s ?c <> s_dead |- context [initial_mark (parse_url_char ?s ?c)] =>
      rewrite (proj1 (url_char_next s c H)); norm
  | H : parse_url_char ?s ?c <> s_dead |- context [start_of (parse_url_char ?s ?c)] =>
      rewrite (proj2 (url_char_next s c H))
  end.

Lemma new_message_start x : start_of (NEW_MESSAGE x) = true /\ initial_mark (NEW_MESSAGE x) = None.
Proof. unfold NEW_MESSAGE, start_state. by repeat case_match. Qed.

Lemma new_message_like s n x : NEW_MESSAGE (set_pstate s (set_nread n x)) = NEW_MESSAGE x.
Proof. done. Qed.

Ltac sim_usr :=
  rewrite ?Z.sub_diag, ?(slice_nil _ _ 0) by lia; cbn [deliver];
  try reflexivity; try (apply cb_deliver; [assumption|reflexivity|reflexivity]);
  try (apply cb_data_status; [assumption|reflexivity]);
  try (apply deliver_status; [assumption|reflexivity]).

Ltac sim_goal :=
  try contradiction;
  lazymatch goal with
  | |- exists s n, _ = set_pstate s (set_nread n _) /\ _ =>
      eexists _, _; split; [reflexivity|norm; lia]
  | |- exists k, _ = set_nread k _ /\ _ => eexists _; split; [reflexivity|norm; lia]
  | |- mark_like _ _ _ _ => first [exact I|reflexivity]
  | |- more _ = false => unfold more, upgraded; norm; cbn [start_of]; zprop; subst; 
      first [reflexivity|rewrite (proj1 (new_message_start _)); reflexivity|by rewrite andb_false_r|idtac]
  | H : same_ch _ _ _ |- same_ch _ _ _ => first [exact I|exact H]
  | |- upgraded _ _ = false =>
      unfold quiet, upgraded in *; norm; sim_url; cbn [start_of] in *;
      rewrite ?andb_false_r, ?andb_true_r in *; first [reflexivity|assumption|idtac]
  | |- match initial_mark _ with _ => _ end =>
      first [exact I|discriminate|rewrite (proj2 (new_message_start _)); exact I|idtac]
  | |- _ -> _ => first [discriminate|by intros|idtac]
  | |- @eq Z _ _ => lia
  | |- @eq state _ _ => reflexivity
  | |- @eq bool _ _ => first [reflexivity|idtac]
  | |- _ = _ => sim_usr
  | |- _ => first [done|idtac]
  end.

Ltac sim_finish :=
  unfold sim_val, sim_exit, mid, marks_like, marked, quiet, like, owed; norm; try split_and!; sim_url; sim_goal.
Ltac run_sim := open_sim; unfold both; repeat sim_step; sim_finish.

Section Cases.
Context {U : Type} (o : observer U) (Ho : stream_observer o) (data : bytes) (b : Z).
#[local] Abbreviation st := (observe o).
#[local] Abbreviation sim_case := (sim_case o).
#[local] Abbreviation sim_val := (sim_val o).
#[local] Abbreviation sim_exit := (sim_exit o).

Lemma sim_s_dead c : sim_case data s_dead (case_s_dead c) (case_s_dead c).
Proof. unfold case_s_dead. run_sim. Qed.

Lemma sim_s_start_req_or_res c :
  sim_case data s_start_req_or_res (case_s_start_req_or_res st c) (case_s_start_req_or_res st c).
Proof. unfold case_s_start_req_or_res. run_sim. Qed.
Lemma sim_expect s c want next : plain s = true ->
  (forall f, mark_state f s = false) -> initial_mark next = None -> start_of next = false ->
  sim_case data s (case_expect c want next) (case_expect c want next).
Proof. intros Hpl Hf Hnx Hst. unfold case_expect. open_sim.
  unfold both; repeat sim_step; sim_finish.
  - by rewrite Hst, andb_false_r.
  - by rewrite Hnx.
Qed.

Lemma sim_s_res_or_resp_H c :
  sim_case data s_res_or_resp_H (case_s_res_or_resp_H c) (case_s_res_or_resp_H c).
Proof. unfold case_s_res_or_resp_H. run_sim. Qed.

Lemma sim_s_start_res c :
  sim_case data s_start_res (case_s_start_res st c) (case_s_start_res st c).
Proof. unfold case_s_start_res. run_sim. Qed.

Lemma sim_s_res_first_http_major c :
  sim_case data s_res_first_http_major (case_s_res_first_http_major c) (case_s_res_first_http_major c).
Proof. unfold case_s_res_first_http_major. run_sim. Qed.

Lemma sim_s_res_first_http_minor c :
  sim_case data s_res_first_http_minor (case_s_res_first_http_minor c) (case_s_res_first_http_minor c).
Proof. unfold case_s_res_first_http_minor. run_sim. Qed.

Lemma sim_s_res_first_status_code c :
  sim_case data s_res_first_status_code (case_s_res_first_status_code c) (case_s_res_first_status_code c).
Proof. unfold case_s_res_first_status_code. run_sim. Qed.

Lemma sim_s_res_status_start c :
  sim_case data s_res_status_start (case_s_res_status_start c) (case_s_res_status_start c).
Proof. unfold case_s_res_status_start. run_sim. Qed.

Lemma sim_s_res_http_major c :
  sim_case data s_res_http_major (case_s_res_http_major c) (case_s_res_http_major c).
Proof. unfold case_s_res_http_major, push_digit. run_sim. Qed.

Lemma sim_s_res_http_minor c :
  sim_case data s_res_http_minor (case_s_res_http_minor c) (case_s_res_http_minor c).
Proof. unfold case_s_res_http_minor, push_digit. run_sim. Qed.

Lemma sim_s_res_status_code c :
  sim_case data s_res_status_code (case_s_res_status_code c) (case_s_res_status_code c).
Proof. unfold case_s_res_status_code, push_digit. run_sim. Qed.

Lemma sim_s_res_status c :
  sim_case data s_res_status (case_s_res_status st data c) (case_s_res_status st [b] c).
Proof. unfold case_s_res_status. run_sim. Qed.

Lemma sim_s_start_req c :
  sim_case data s_start_req (case_s_start_req st c) (case_s_start_req st c).
Proof. unfold case_s_start_req. run_sim. Qed.

Lemma sim_s_req_method c :
  sim_case data s_req_method (case_s_req_method c) (case_s_req_method c).
Proof. unfold case_s_req_method. run_sim. Qed.

Lemma sim_s_req_spaces_before_url c :
  sim_case data s_req_spaces_before_url (case_s_req_spaces_before_url c) (case_s_req_spaces_before_url c).
Proof. unfold case_s_req_spaces_before_url, url_char. run_sim. Qed.

Lemma sim_req_schema s c : mark_state url s = true ->
  sim_case data s (case_s_req_schema c) (case_s_req_schema c).
Proof.
  intros Hs. unfold case_s_req_schema, url_char. destruct s; try discriminate; run_sim.
Qed.

Lemma sim_req_server s c : mark_state url s = true ->
  sim_case data s (case_s_req_server st data c) (case_s_req_server st [b] c).
Proof.
  intros Hs. unfold case_s_req_server, url_char.
  destruct (c =? CR), s; try discriminate; run_sim.
Qed.

Lemma sim_s_req_http_start c :
  sim_case data s_req_http_start (case_s_req_http_start c) (case_s_req_http_start c).
Proof. unfold case_s_req_http_start. run_sim. Qed.

Lemma sim_s_req_first_http_major c :
  sim_case data s_req_first_http_major (case_s_req_first_http_major c) (case_s_req_first_http_major c).
Proof. unfold case_s_req_first_http_major. run_sim. Qed.

Lemma sim_s_req_first_http_minor c :
  sim_case data s_req_first_http_minor (case_s_req_first_http_minor c) (case_s_req_first_http_minor c).
Proof. unfold case_s_req_first_http_minor. run_sim. Qed.

Lemma sim_s_req_line_almost_done c :
  sim_case data s_req_line_almost_done (case_s_req_line_almost_done c) (case_s_req_line_almost_done c).
Proof. unfold case_s_req_line_almost_done. run_sim. Qed.

Lemma sim_s_header_field_start c :
  sim_case data s_header_field_start (case_s_header_field_start c) (case_s_header_field_start c).
Proof. unfold case_s_header_field_start. run_sim. Qed.

Lemma sim_s_header_value_start c :
  sim_case data s_header_value_start (case_s_header_value_start c) (case_s_header_value_start c).
Proof. unfold case_s_header_value_start. run_sim. Qed.

Lemma sim_s_req_http_major c :
  sim_case data s_req_http_major (case_s_req_http_major c) (case_s_req_http_major c).
Proof. unfold case_s_req_http_major, push_digit. run_sim. Qed.

Lemma sim_s_req_http_minor c :
  sim_case data s_req_http_minor (case_s_req_http_minor c) (case_s_req_http_minor c).
Proof. unfold case_s_req_http_minor, push_digit. run_sim. Qed.

Lemma sim_s_header_value_discard_ws c :
  sim_case data s_header_value_discard_ws (case_s_header_value_discard_ws c) (case_s_header_value_discard_ws c).
Proof. unfold case_s_header_value_discard_ws, case_s_header_value_start. run_sim. Qed.

Lemma sim_s_header_value_lws c :
  sim_case data s_header_value_lws (case_s_header_value_lws c) (case_s_header_value_lws c).
Proof. unfold case_s_header_value_lws, set_value_flag. run_sim. Qed.

Lemma sim_s_header_value_discard_lws c :
  sim_case data s_header_value_discard_lws (case_s_header_value_discard_lws st data c) (case_s_header_value_discard_lws st [b] c).
Proof. unfold case_s_header_value_discard_lws, set_value_flag. run_sim. Qed.

Lemma sim_s_headers_almost_done c :
  sim_case data s_headers_almost_done (case_s_headers_almost_done st c) (case_s_headers_almost_done st c).
Proof.
  unfold case_s_headers_almost_done. cbn [on_headers_complete observe]. run_sim. Qed.

Lemma sim_s_headers_done c :
  sim_case data s_headers_done (case_s_headers_done st c) (case_s_headers_done st c).
Proof.
  unfold case_s_headers_done. open_sim. unfold both.
  destruct up, (has_flag fl F_SKIPBODY) eqn:A1, (has_flag fl F_CHUNKED) eqn:A2,
    (cl =? ULLONG_MAX) eqn:A4;
  repeat first [progress (rewrite ?A1, ?A2, ?A4; cbn [andb orb negb])|sim_step]; sim_finish;
  exfalso; destruct (bool_decide (me = HTTP_CONNECT)), (Z.ltb_spec 0 cl); simpl in *; zprop;
  first [discriminate|lia].
Qed.

Lemma sim_s_message_done :
  sim_case data s_message_done (case_s_message_done st) (case_s_message_done st).
Proof. unfold case_s_message_done. run_sim. Qed.

Lemma sim_s_chunk_size_start c :
  sim_case data s_chunk_size_start (case_s_chunk_size_start c) (case_s_chunk_size_start c).
Proof.
  unfold case_s_chunk_size_start, assert_chunked. open_sim.
  cbn [state_inv] in Hk, Hinv. norm. destruct Hk as [Hk _], Hinv as [Hi _]. norm. subst n1 nr.
  unfold both. repeat sim_step; sim_finish.
Qed.

Lemma sim_s_chunk_size c :
  sim_case data s_chunk_size (case_s_chunk_size c) (case_s_chunk_size c).
Proof. unfold case_s_chunk_size, assert_chunked. run_sim. Qed.

Lemma sim_s_chunk_parameters c :
  sim_case data s_chunk_parameters (case_s_chunk_parameters c) (case_s_chunk_parameters c).
Proof. unfold case_s_chunk_parameters, assert_chunked. run_sim. Qed.

Lemma sim_s_chunk_size_almost_done c :
  sim_case data s_chunk_size_almost_done (case_s_chunk_size_almost_done st c) (case_s_chunk_size_almost_done st c).
Proof. unfold case_s_chunk_size_almost_done, assert_chunked. run_sim. Qed.

Lemma sim_s_chunk_data_done c :
  sim_case data s_chunk_data_done (case_s_chunk_data_done st c) (case_s_chunk_data_done st c).
Proof. unfold case_s_chunk_data_done, assert_chunked. run_sim. Qed.

Lemma sim_s_chunk_data_almost_done c :
  sim_case data s_chunk_data_almost_done (case_s_chunk_data_almost_done st data c) (case_s_chunk_data_almost_done st [b] c).
Proof.
  unfold case_s_chunk_data_almost_done, assert_chunked. open_sim.
  all: destruct m4 as [m4|], k4 as [k4|]; simpl in L4; try contradiction; try subst k4; norm.
  all: unfold both; repeat sim_step; sim_finish.
  match goal with H : mark_ok _ _ body (Some _) |- _ => destruct H as [H _] end.
  rewrite deliver_some by (apply slice_some; lia). by apply (cb_data_status o Ho).
Qed.

(** ** The switch on the states that look at one byte *)

Lemma sim_switch s q e e1 :
  simple s = true -> 0 <= q < zlen data -> inv 1 e -> state_inv 1 s (prs e1) -> marked e ->
  p_state e = s -> same_ch s e e1 -> mid o data q e e1 ->
  both (switch_state st data) (switch_state st [b]) (sim_val data q) (sim_exit data q) e e1.
Proof.
  intros Hs Hq Hi Hi1 Hm He Hc Hmid.
  assert (H : forall m m1, sim_case data s m m1 ->
    both m m1 (sim_val data q) (sim_exit data q) e e1) by (intros m m1 Hsim; by apply Hsim).
  destruct Hmid as (_ & Hs1 & _). clear Hi Hi1 Hm.
  unfold both, wp, switch_state, bind, gets in *. rewrite Hs1, He. clear Hs1 He.
  destruct s; try discriminate; cbn [same_ch] in Hc; try rewrite Hc; clear Hc;
    first
    [ refine (H _ _ (sim_req_schema _ _ _)); reflexivity
    | refine (H _ _ (sim_req_server _ _ _)); reflexivity
    | refine (H _ _ (sim_expect _ _ _ _ _ _ _ _)); first [reflexivity|by intros []]
    | refine (H _ _ _); auto using sim_s_dead, sim_s_start_req_or_res, sim_s_res_or_resp_H, sim_s_start_res,
    sim_s_res_first_http_major, sim_s_res_http_major, sim_s_res_first_http_minor,
    sim_s_res_http_minor, sim_s_res_first_status_code, sim_s_res_status_code,
    sim_s_res_status_start, sim_s_res_status, sim_s_start_req, sim_s_req_method,
    sim_s_req_spaces_before_url, sim_s_req_http_start, sim_s_req_first_http_major,
    sim_s_req_http_major, sim_s_req_first_http_minor, sim_s_req_http_minor,
    sim_s_req_line_almost_done, sim_s_header_field_start, sim_s_header_value_start,
    sim_s_header_value_discard_ws, sim_s_header_value_lws, sim_s_header_value_discard_lws,
    sim_s_headers_almost_done, sim_s_headers_done, sim_s_message_done, sim_s_chunk_size_start,
    sim_s_chunk_size, sim_s_chunk_parameters, sim_s_chunk_size_almost_done,
    sim_s_chunk_data_almost_done, sim_s_chunk_data_done ].
Qed.
End Cases.
