(* ===== verification/HttpCut.v ===== *)
(** * Feeding the HTTP parser byte by byte

    Simulation between one call of http_parser_execute on a piece and calls on
    its bytes one at a time: one round of the byte loop ([byte_sim]), the end
    of a call ([sim_end], [sim_next], [sim_stop]) and the body states, which
    take many bytes in one round ([goes_body]). The states that span the
    bytes of a header are in [HttpFeed], the theorem in [HttpPieces]. *)

From S2P Require Import Prelude.
From S2P Require Import Words.
From S2P Require Import HttpChars.
From S2P Require Import HttpUrl.
From S2P Require Import HttpState.
From S2P Require Import HttpExec.
From S2P Require Import HttpWp.
From S2P Require Import HttpSafe.
From S2P Require Import HttpRun.
From S2P Require Import HttpStream.

(** An observer leaves the parser alone, so its calls are safe. *)
Lemma observe_ok {U} (o : observer U) : settings_ok (observe o).
Proof.
  constructor.
  - intros [] cb; simpl; intros [= <-]; intros x u; eexists _, _; by left.
  - intros [] cb d; simpl; intros [= <-]; intros x u; eexists _, _; by left.
  - intros cb; simpl; intros [= <-]; intros x u.
    destruct (ob_headers o u) as [r u']. eexists _, _; by left.
Qed.

Section Cut.
Context {U : Type} (o : observer U) (Ho : stream_observer o).
#[local] Abbreviation st := (observe o).

(** ** The end of a call *)

(** The callbacks for the marks left at the end of [data]. *)
Definition flushed (data : bytes) (e : exec U) : U :=
  let d f u := match get_mark f e with
               | Some m => cb_data o f (prs e) (slice data m (zlen data - m)) u
               | None => u
               end in
  d status (d body (d url (d header_value (d header_field (usr e))))).

Lemma exec_end_val data (e : exec U) : inv 0 e -> p e = zlen data ->
  exists e', exec_end st data e = Exit (XReturn (zlen data)) e' /\
    prs e' = set_pstate (p_state e) (prs e) /\ usr e' = flushed data e.
Proof.
  intros Hi Hp.
  enough (H : wp (exec_end st data) (fun _ _ => False) (fun x e' => x = XReturn (zlen data) /\
    prs e' = set_pstate (p_state e) (prs e) /\ usr e' = flushed data e) e).
  { unfold wp in H. destruct (exec_end st data e) as [|x e']; [done|].
    destruct H as (-> & ? & ?). eauto. }
  unfold exec_end. do 3 wp_base. rewrite (one_mark e Hi).
  destruct Hi as (He & _ & _ & M1 & M2 & M3 & M4 & M5).
  destruct e as [[ty fl ps hs ix nr cl ma mi sc me er up] u s q c m1 m2 m3 m4 m5].
  norm. subst er q. unfold assert, flushed. norm.
  destruct m1, m2, m3, m4, m5; try (exfalso;
    match goal with H1 : mark_ok _ _ ?f (Some _), H2 : mark_ok _ _ ?g (Some _) |- _ =>
      assert (f = g) by (eapply mark_state_unique; [apply H1|apply H2]); discriminate end).
  all: repeat sim_step; split_and!; try reflexivity; by apply (cb_data_status o Ho).
Qed.

(** ** A call with one byte *)

Lemma call_val b x u e1 : perrno x = HPE_OK -> parser_ok x ->
  exec_byte st [b] (exec_init x u) = Val tt e1 ->
  http_parser_execute st [b] x u =
    Returned 1 (set_pstate (p_state e1) (prs e1)) (flushed [b] e1) /\ inv 0 e1 /\ p e1 = 0.
Proof.
  intros Hx Hok E.
  assert (Hz : zlen [b] = 1) by done.
  pose proof (exec_byte_ok st [b] (observe_ok o) (exec_init x u)) as Hb.
  rewrite exec_init_p in Hb. specialize (Hb (exec_init_ok x u Hx Hok) ltac:(lia)).
  unfold wp in Hb. rewrite E in Hb. destruct Hb as [Hi Hp]. rewrite Hz in Hp.
  split_and!; [|done|lia].
  unfold http_parser_execute. rewrite bool_decide_eq_true_2 by done. cbn [negb].
  rewrite (proj2 (Z.eqb_neq _ _)) by lia. change (length [b]) with 1%nat.
  cbn [exec_loop]. unfold bind, gets, modify. rewrite exec_init_p.
  change (0 =? zlen [b]) with false. cbv iota beta. rewrite E. cbn [p set_p].
  replace (p e1 + 1 =? zlen [b]) with true by (symmetry; apply Z.eqb_eq; lia).
  unfold ret. destruct (exec_end_val [b] (set_p (p e1 + 1) e1)) as (e' & -> & Hprs & Hu).
  - destruct Hi as (? & ? & ? & M1 & M2 & M3 & M4 & M5). unfold inv. norm.
    split_and!; try done; (eapply mark_ok_le; [eassumption|lia]).
  - norm. lia.
  - cbn [finish]. rewrite Hprs, Hu. by destruct e1.
Qed.

Lemma call_exit b x u r e1 : perrno x = HPE_OK ->
  exec_byte st [b] (exec_init x u) = Exit r e1 ->
  http_parser_execute st [b] x u = finish (Exit (A := unit) r e1).
Proof.
  intros Hx E. unfold http_parser_execute. rewrite bool_decide_eq_true_2 by done. cbn [negb].
  change (zlen [b] =? 0) with false. cbv iota. change (length [b]) with 1%nat.
  cbn [exec_loop]. unfold bind, gets. rewrite exec_init_p.
  change (0 =? zlen [b]) with false. cbv iota beta. by rewrite E.
Qed.

(** ** Feeding the bytes one by one *)

Definition singles (l : bytes) : list bytes := map (fun b => [b]) l.

Definition overflowed (r : @outcome U) : Prop :=
  exists n x u, r = Returned n x u /\ perrno x = HPE_HEADER_OVERFLOW.

(** The byte-by-byte run [r1] found the header too large, or both end alike. *)
Definition agree (r r1 : @outcome U) : Prop :=
  overflowed r1 \/
  exists n x u k u1, r = Returned n x u /\ r1 = Returned n (set_nread k x) u1 /\ nread x <= k /\
    (perrno x = HPE_OK -> u1 = u).

Lemma feed_more d ds n x u k x' u' :
  http_parser_execute st d x u = Returned k x' u' -> more x' = true ->
  feed o (d :: ds) n x u = feed o ds (n + k) x' u'.
Proof. intros E Hm. cbn [feed]. by rewrite E, Hm. Qed.

Lemma feed_stop d ds n x u k x' u' :
  http_parser_execute st d x u = Returned k x' u' -> more x' = false ->
  feed o (d :: ds) n x u = Returned (n + k) x' u'.
Proof. intros E Hm. cbn [feed]. by rewrite E, Hm. Qed.

Lemma feed_overflow d ds n x u :
  overflowed (http_parser_execute st d x u) -> overflowed (feed o (d :: ds) n x u).
Proof.
  intros (k & x' & u' & E & Hx). erewrite feed_stop; [|exact E|].
  - eexists _, _, _. by split.
  - unfold more. by rewrite Hx.
Qed.

(** ** Between two bytes *)

Lemma slice_znth (l : bytes) q : 0 <= q < zlen l -> slice l q 1 = [znth l q 0].
Proof.
  unfold zlen. intros. destruct (lookup_lt_is_Some_2 l (Z.to_nat q)) as [b Hb]; [lia|].
  rewrite (slice_cons l q 1 b), (znth_lookup l q 0 b), slice_nil by (done || lia). done.
Qed.

Record head (data : bytes) (q : Z) (e : exec U) (x1 : http_parser) (u1 : U) : Prop := mk_head {
  h_pos : 0 <= q <= zlen data;
  h_p : p e = q;
  h_inv : inv 0 e;
  h_quiet : quiet e;
  h_marked : marked e;
  h_ok : parser_ok x1;
  h_state : pstate x1 = p_state e;
  h_like : like (prs e) x1;
  h_usr : u1 = owed o data q e (usr e);
  h_marks : forall f m, get_mark f e = Some m -> m < q \/ q = 0 /\ f <> body }.

Lemma like_perrno x x1 : like x x1 -> perrno x1 = perrno x.
Proof. by intros (s & n & -> & _). Qed.

Lemma head_more data q e x1 u1 : head data q e x1 u1 -> more x1 = true.
Proof.
  intros [_ _ (He & _) Hq _ _ Hs Hl _ _]. unfold more, quiet, upgraded in *.
  rewrite (like_perrno _ _ Hl), He, Hs. destruct Hl as (s & n & -> & _). simpl.
  by rewrite Hq.
Qed.

Lemma inv_parser_ok (e : exec U) : inv 0 e -> parser_ok (set_pstate (p_state e) (prs e)).
Proof.
  intros (_ & Hf & Hs & _) _. split; [|by destruct (p_state e)]. by destruct Hf.
Qed.

(** A byte that both runs have handled. *)
Lemma val_head data q b (e e1 : exec U) :
  0 <= q < zlen data -> b = znth data q 0 -> sim_val o data q e e1 -> inv 0 e -> inv 0 e1 ->
  head data (q + 1) (set_p (q + 1) e) (set_pstate (p_state e1) (prs e1)) (flushed [b] e1).
Proof.
  intros Hq Hb ((Hl & Hs & Hp & _ & Hm & Hu & Hqu) & Hmk & Hbd) Hi Hi1.
  pose proof (inv_parser_ok e1 Hi1) as Hok.
  destruct Hi as (He & Hf & Hst & M1 & M2 & M3 & M4 & M5).
  assert (Hsl : forall m, 0 <= m <= q -> slice data m (q + 1 - m) = slice data m (q - m) ++ [b]).
  { intros m ?. replace (q + 1 - m) with (q - m + 1) by lia. rewrite slice_add by lia. f_equal.
    replace (m + (q - m)) with q by lia. rewrite slice_znth by lia. by rewrite Hb. }
  constructor; norm; try done; try lia.
  - unfold inv. norm. split_and!; try done; (eapply mark_ok_le; [eassumption|lia]).
  - destruct Hl as (s & n & -> & Hn). exists (p_state e1), n. by destruct (prs e).
  - destruct Hm as (L1 & L2 & L3 & L4 & L5). unfold flushed. rewrite Hu. unfold owed.
    destruct e as [x u s q0 c m1 m2 m3 m4 m5], e1 as [x1 u1 s1 q1 c1 k1 k2 k3 k4 k5]. norm.
    assert (Hsc : status_code x1 = status_code x) by (destruct Hl as (? & ? & -> & _); done).
    destruct m1, m2, m3, m4, m5; try (exfalso;
      match goal with H1 : mark_ok _ _ ?f (Some _), H2 : mark_ok _ _ ?g (Some _) |- _ =>
        assert (f = g) by (eapply mark_state_unique; [apply H1|apply H2]); discriminate end).
    all: destruct k1, k2, k3, k4, k5; cbn [mark_like] in *; norm; try tauto; subst; try reflexivity;
      try (by specialize (Hbd eq_refl)); try (match goal with L : _ = body /\ _ |- _ => destruct L; discriminate end).
    all: try match goal with H : mark_ok _ _ _ (Some ?m) |- _ => destruct H as [H _]; rewrite (Hsl m H) end.
    all: match goal with |- context [slice [?b] 0 (zlen [?b] - 0)] =>
           change (slice [b] 0 (zlen [b] - 0)) with [b] end.
    all: rewrite (cb_data_status o Ho _ x1 x), (deliver_cb o Ho), deliver_some; try done.
    all: by destruct (slice _ _ _).
  - intros g m Hg.
    assert (mark_ok (p_state e) (p e) g (Some m)) as [? _] by (rewrite <- Hg; by destruct g). lia.
Qed.

(** ** One byte in a state that looks at one byte *)

(** How both runs leave a byte together. *)
Definition stop_exit (data : bytes) (q : Z) (x x1 : exit) (e e1 : exec U) : Prop :=
  sim_exit o data q x x1 e e1 /\ match x with XError | XReturn _ => True | _ => False end.

Lemma run_sim fuel data q b (e e1 : exec U) :
  0 <= q < zlen data -> simple (p_state e) = true -> inv 1 e -> inv 1 e1 -> marked e ->
  same_ch (p_state e) e e1 -> mid o data q e e1 -> (rank (p_state e) < fuel)%nat ->
  both (run_switch st data fuel) (run_switch st [b] fuel)
    (sim_val o data q) (stop_exit data q) e e1.
Proof.
  revert e e1. induction fuel as [|fuel IH]; intros e e1 Hq Hs Hi Hi1 Hm Hc Hmid Hr; [lia|].
  assert (Hs1 : state_inv 1 (p_state e) (prs e1)).
  { destruct Hmid as (_ & <- & _). apply Hi1. }
  pose proof (sim_switch o Ho data b (p_state e) q e e1 Hs Hq Hi Hs1 Hm eq_refl Hc Hmid) as Hsim.
  pose proof (switch_ok st data (observe_ok o) e Hi ltac:(destruct Hmid as (_ & _ & -> & _); lia)) as Hw.
  pose proof (switch_ok st [b] (observe_ok o) e1 Hi1
    ltac:(destruct Hmid as (_ & _ & _ & -> & _); done)) as Hw1.
  unfold both, wp in *. cbn [run_switch].
  destruct (switch_state st data e) as [[] e'|x e'], (switch_state st [b] e1) as [[] e1'|x1 e1'];
    try done; destruct x, x1; try done.
  simpl in Hsim. destruct Hsim as (Hmid' & Hm' & Hs' & Hc'), Hw as (Hi' & _ & Hr'), Hw1 as (Hi1' & _ & _).
  apply IH; try done. lia.
Qed.

Lemma mid_start data q e x1 u1 c : head data q e x1 u1 -> q < zlen data ->
  forall n n1 k1, nread (set_nread n (prs e)) <= n1 -> k1 = set_nread n1 x1 ->
  mid o data q (set_prs (set_nread n (prs e)) (set_ch c e))
    (set_prs k1 (set_ch c (exec_init x1 u1))).
Proof.
  intros [Hp Hq (He & _ & _ & M1 & M2 & M3 & M4 & M5) Hqu Hmk _ Hs (s1 & m1 & Hl & Hn) Hu Hm]
    Hlt n n1 k1 Hnn ->.
  destruct e as [[ty fl ps hs ix nr cl ma mi sc me er up] u s q0 c0 n1' n2 n3 n4 n5].
  norm. subst x1 q0 u1 er. unfold marked in Hmk.
  assert (Hbody : forall m, n4 = Some m -> m < q).
  { intros m ->. destruct (Hm body m eq_refl) as [|[_ ?]]; done. }
  unfold exec_init, mid, marks_like, like, quiet, upgraded in *. norm. subst s1.
  destruct s; cbn [initial_mark set_mark p_state] in *; norm;
    repeat match goal with
    | H : mark_ok _ _ _ ?m |- _ => apply mark_none in H; [|reflexivity]; subst m
    | H : ?m <> None |- _ => is_var m; destruct m; [clear H|done]
    end; try (destruct n4; [specialize (Hbody _ eq_refl)|]);
    split_and!; try done; try (eexists _, _; split; [reflexivity|norm; lia]).
  unfold owed. norm. by apply (deliver_status o Ho).
Qed.

(** The byte is counted if it belongs to the header part. *)
Definition counted (c : Z) (e : exec U) : exec U :=
  set_prs (if PARSING_HEADER (p_state e) then set_nread (nread (prs e) + 1) (prs e) else prs e)
    (set_ch c e).

Definition too_large (e : exec U) : bool :=
  PARSING_HEADER (p_state e) && (HTTP_MAX_HEADER_SIZE <? nread (prs e) + 1).

Lemma exec_byte_eq data (e : exec U) : 0 <= nread (prs e) <= HTTP_MAX_HEADER_SIZE ->
  exec_byte st data e =
    let e' := counted (znth data (p e) 0) e in
    if too_large e then Exit XError (set_prs (set_perrno HPE_HEADER_OVERFLOW (prs e')) e')
    else run_switch st data reexecute_fuel e'.
Proof.
  intros Hn. unfold exec_byte, counted, too_large, bind, gets, modify. norm.
  destruct (PARSING_HEADER (p_state e)); [|by destruct e].
  unfold COUNT_HEADER_SIZE, upd, bind, gets, modify, fail, SET_ERRNO, upd, modify, goto_error,
    jump, ret. norm.
  rewrite wrap_small by (unfold HTTP_MAX_HEADER_SIZE in *; lia).
  unfold bind, modify. norm. destruct (HTTP_MAX_HEADER_SIZE <? nread (prs e) + 1); by destruct e.
Qed.

Lemma counted_inv c (e : exec U) : inv 0 e -> too_large e = false -> inv 1 (counted c e).
Proof.
  intros (He & Hf & Hs & Hm) Ht. unfold counted, too_large in *.
  destruct (PARSING_HEADER (p_state e)) eqn:Eh; unfold inv; norm.
  - zprop. split; [done|]. split; [|split; [by apply inv_count|done]].
    destruct Hf. constructor; norm; simpl in Ht; zprop; lia.
  - split; [done|]. split; [done|]. split; [by apply inv_no_count|done].
Qed.

Lemma nread_eta x : set_nread (nread x) x = x.
Proof. by destruct x. Qed.

Lemma mid_counted data q e x1 u1 c : head data q e x1 u1 -> q < zlen data ->
  mid o data q (counted c e) (counted c (exec_init x1 u1)).
Proof.
  intros Hh Hq. pose proof (h_state _ _ _ _ _ Hh) as Hs.
  assert (nread (prs e) <= nread x1) by (destruct (h_like _ _ _ _ _ Hh) as (? & ? & -> & ?); done).
  assert (Hi : p_state (exec_init x1 u1) = p_state e /\ prs (exec_init x1 u1) = x1).
  { rewrite <- Hs. unfold exec_init. by destruct (initial_mark (pstate x1)) as [[]|]. }
  destruct Hi as [Hi1 Hi2]. unfold counted. rewrite Hi1, Hi2.
  destruct (PARSING_HEADER (p_state e)).
  - eapply mid_start; [done|done| |done]. simpl. lia.
  - rewrite <- (nread_eta (prs e)) at 1. rewrite <- (nread_eta x1) at 1.
    eapply mid_start; [done|done| |done]. simpl. lia.
Qed.

(** Either the byte makes the header too large when it comes alone, or both
    runs enter the switch. *)
Lemma head_byte data q e x1 u1 b : head data q e x1 u1 -> q < zlen data -> b = znth data q 0 ->
  overflowed (http_parser_execute st [b] x1 u1) \/
  exec_byte st data e = run_switch st data reexecute_fuel (counted b e) /\
  exec_byte st [b] (exec_init x1 u1) =
    run_switch st [b] reexecute_fuel (counted b (exec_init x1 u1)) /\
  inv 1 (counted b e) /\ inv 1 (counted b (exec_init x1 u1)) /\
  mid o data q (counted b e) (counted b (exec_init x1 u1)).
Proof.
  intros Hh Hq Hb. pose proof Hh as [Hpos Hp Hi _ _ Hok Hs Hl _ _].
  assert (Hx : perrno x1 = HPE_OK) by (rewrite (like_perrno _ _ Hl); apply Hi).
  pose proof (exec_init_ok x1 u1 Hx Hok) as Hi1.
  assert (Hinit : p_state (exec_init x1 u1) = p_state e /\ prs (exec_init x1 u1) = x1).
  { rewrite <- Hs. unfold exec_init. by destruct (initial_mark (pstate x1)) as [[]|]. }
  assert (Hn : 0 <= nread (prs e) <= nread x1).
  { destruct Hl as (? & ? & -> & ?). split; [apply Hi|done]. }
  assert (Hn1 : nread x1 <= HTTP_MAX_HEADER_SIZE).
  { destruct Hi1 as (_ & Hf & _). rewrite (proj2 Hinit) in Hf. apply Hf. }
  assert (E : exec_byte st [b] (exec_init x1 u1) =
    let e' := counted b (exec_init x1 u1) in
    if too_large (exec_init x1 u1)
    then Exit XError (set_prs (set_perrno HPE_HEADER_OVERFLOW (prs e')) e')
    else run_switch st [b] reexecute_fuel e').
  { rewrite exec_byte_eq by (rewrite (proj2 Hinit); lia). by rewrite exec_init_p. }
  rewrite exec_byte_eq by lia. rewrite E. cbv zeta.
  destruct (too_large (exec_init x1 u1)) eqn:Et.
  { left. rewrite (call_exit b x1 u1 _ _ Hx E). eexists _, _, _. split; [reflexivity|done]. }
  right.
  assert (Et0 : too_large e = false).
  { revert Et. unfold too_large. destruct Hinit as [-> ->].
    destruct (PARSING_HEADER (p_state e)); [|done]. simpl. intros Et. zprop. apply Z.ltb_ge. lia. }
  rewrite Et0, Hp, <- Hb. split_and!; auto using counted_inv, mid_counted.
Qed.

(** The two runs handle a byte alike. *)
Lemma byte_sim data q e x1 u1 b : head data q e x1 u1 -> q < zlen data -> b = znth data q 0 ->
  simple (p_state e) = true ->
  overflowed (http_parser_execute st [b] x1 u1) \/
  both (exec_byte st data) (exec_byte st [b]) (sim_val o data q) (stop_exit data q)
    e (exec_init x1 u1).
Proof.
  intros Hh Hq Hb Hs. pose proof Hh as [Hpos _ _ _ Hm _ _ _ _ _].
  destruct (head_byte data q e x1 u1 b Hh Hq Hb) as [|(E & E1 & Hi & Hi1 & Hmid)]; [by left|].
  right. unfold both, wp. rewrite E, E1.
  apply (run_sim reexecute_fuel data q b (counted b e) (counted b (exec_init x1 u1))); try done; [lia| |].
  { unfold same_ch. assert (Hc : forall d, ch (counted b d) = b) by done. rewrite !Hc.
    by destruct (p_state _). }
  pose proof (rank_le (p_state e)). unfold reexecute_fuel. change (p_state (counted b e)) with (p_state e). lia.
Qed.

(** ** Runs over several bytes *)

Definition goes (t : bytes) (x : http_parser) (u : U) (x' : http_parser) (u' : U) : Prop :=
  forall l n, feed o (singles (t ++ l)) n x u = feed o (singles l) (n + zlen t) x' u'.
Definition runs_over (t : bytes) (x : http_parser) (u : U) : Prop :=
  forall l n, overflowed (feed o (singles (t ++ l)) n x u).

Lemma goes_nil x u : goes [] x u x u.
Proof. intros l n. simpl. f_equal. rewrite zlen_nil. lia. Qed.

Lemma goes_cons b t x u x' u' x'' u'' :
  http_parser_execute st [b] x u = Returned 1 x' u' -> more x' = true ->
  goes t x' u' x'' u'' -> goes (b :: t) x u x'' u''.
Proof.
  intros E Hm Hg l n. change (singles ((b :: t) ++ l)) with ([b] :: singles (t ++ l)).
  rewrite (feed_more _ _ _ _ _ _ _ _ E Hm), Hg. f_equal. rewrite zlen_cons. lia.
Qed.

Lemma runs_over_here b t x u : overflowed (http_parser_execute st [b] x u) -> runs_over (b :: t) x u.
Proof. intros H l n. by apply (feed_overflow [b]). Qed.

Lemma runs_over_cons b t x u x' u' :
  http_parser_execute st [b] x u = Returned 1 x' u' -> more x' = true ->
  runs_over t x' u' -> runs_over (b :: t) x u.
Proof.
  intros E Hm Hg l n. change (singles ((b :: t) ++ l)) with ([b] :: singles (t ++ l)).
  rewrite (feed_more _ _ _ _ _ _ _ _ E Hm). apply Hg.
Qed.

(** The rest of the call agrees with the rest of the bytes. *)
Definition sim_from (data : bytes) (q : Z) (e : exec U) (x1 : http_parser) (u1 : U) : Prop :=
  forall fuel, (Z.to_nat (zlen data - q) <= fuel)%nat ->
    agree (finish ((exec_loop st data fuel ;;; exec_end st data) e))
      (feed o (singles (drop (Z.to_nat q) data)) q x1 u1).

Lemma sim_end data e x1 u1 : 0 < zlen data -> head data (zlen data) e x1 u1 ->
  sim_from data (zlen data) e x1 u1.
Proof.
  intros Hd [_ Hp Hi _ _ _ Hs Hl Hu Hm] fuel _.
  assert (E : exec_loop st data fuel e = Val tt e).
  { destruct fuel; cbn [exec_loop]; unfold bind, gets; by rewrite Hp, Z.eqb_refl. }
  unfold bind. rewrite E. destruct (exec_end_val data e Hi Hp) as (e' & -> & Hprs & Husr).
  rewrite drop_ge by (unfold zlen; lia). cbn [singles map feed finish]. right.
  destruct Hl as (s & n & -> & Hn).
  eexists _, _, _, n, _. split_and!; [reflexivity| | |].
  - f_equal. rewrite Hprs. simpl in Hs. subst s. by destruct (prs e).
  - by rewrite Hprs.
  - intros _. rewrite Hu, Husr. unfold owed, flushed.
    assert (Hg : forall f m u, get_mark f e = Some m ->
      deliver o f (prs e) (slice data m (zlen data - m)) u =
      cb_data o f (prs e) (slice data m (zlen data - m)) u).
    { intros f m u Hf. rewrite (deliver_some o); [done|].
      assert (mark_ok (p_state e) (p e) f (Some m)) as [? _]
        by (rewrite <- Hf; destruct f; apply Hi).
      apply slice_some; [lia| |lia]. destruct (Hm f m Hf); lia. }
    repeat match goal with
    | |- context [match get_mark ?f e with _ => _ end] => destruct (get_mark f e) eqn:?
    end; repeat match goal with
    | |- context [deliver o ?f _ (slice data ?m _) ?u] => rewrite (Hg f m u) by assumption
    end; reflexivity.
Qed.

(** [exec_byte] ends normally, the bytes up to there have been fed. *)
Lemma sim_next data q e e' t x1 u1 x1' u1' :
  0 <= q -> p e = q -> exec_byte st data e = Val tt e' -> p e' + 1 = q + zlen t -> t <> [] ->
  drop (Z.to_nat q) data = t ++ drop (Z.to_nat (q + zlen t)) data ->
  goes t x1 u1 x1' u1' ->
  sim_from data (q + zlen t) (set_p (q + zlen t) e') x1' u1' -> q + zlen t <= zlen data ->
  sim_from data q e x1 u1.
Proof.
  intros Hq Hp E Hp' Ht Hd Hg IH Hle fuel Hf. rewrite Hd, Hg.
  assert (0 < zlen t) by (destruct t; [done|rewrite zlen_cons; pose proof (zlen_nonneg t); lia]).
  destruct fuel as [|fuel]; [lia|].
  specialize (IH fuel ltac:(lia)). unfold bind in *. cbn [exec_loop].
  unfold bind, gets. rewrite Hp, (proj2 (Z.eqb_neq _ _)) by lia. rewrite E. unfold modify.
  by rewrite Hp'.
Qed.

(** Both leave at the byte [b], after [t]. *)
Lemma sim_stop data q e t b x1 u1 x1' u1' x y e' e1' :
  0 <= q -> p e = q -> q < zlen data -> exec_byte st data e = Exit x e' ->
  drop (Z.to_nat q) data = t ++ b :: drop (Z.to_nat (q + zlen t + 1)) data ->
  goes t x1 u1 x1' u1' -> http_parser_execute st [b] x1' u1' = finish (Exit (A := unit) y e1') ->
  stop_exit data (q + zlen t) x y e' e1' -> sim_from data q e x1 u1.
Proof.
  intros Hq Hp Hlt E Hd Hg E1 [Hs Hx] fuel Hf. rewrite Hd, Hg.
  destruct fuel as [|fuel]; [lia|]. unfold bind. cbn [exec_loop].
  unfold bind, gets. rewrite Hp, (proj2 (Z.eqb_neq _ _)) by lia. rewrite E. right.
  destruct x, y; try done; simpl in Hs.
  - destruct Hs as ((s & k & Hk & Hle) & Hs & Hpe & Her). cbn [finish] in *.
    unfold at_error in *. rewrite Hk in E1. simpl in E1. rewrite decide_False in * by done.
    change (singles (b :: ?l)) with ([b] :: singles l).
    erewrite feed_stop; [|exact E1|]; [|unfold more; simpl; by rewrite bool_decide_eq_false_2].
    eexists _, _, _, k, (usr e1'). split_and!; [reflexivity| |exact Hle|done].
    f_equal; [lia|]. rewrite Hs. by destruct (prs e').
  - destruct Hs as (-> & (k & Hk & Hle) & Hu & Hm). cbn [finish] in *.
    change (singles (b :: ?l)) with ([b] :: singles l).
    erewrite feed_stop; [|exact E1|rewrite Hk; exact Hm].
    eexists _, _, _, k, (usr e1'). split_and!; [reflexivity| |exact Hle|done]. by rewrite Hk.
Qed.

(** The rest of the run, from the end of a byte on. *)
Definition rest_ok (data : bytes) (q : Z) : Prop :=
  forall e x1 u1, head data q e x1 u1 -> sim_from data q e x1 u1.

(** Both runs handle the byte [b] that comes after [t]; the run on [data] took
    [t] in the same step. *)
Lemma after_byte data q t b e x1 u1 x1' u1' :
  p e = q -> 0 <= q -> q + zlen t < zlen data -> inv 0 e ->
  drop (Z.to_nat q) data = t ++ b :: drop (Z.to_nat (q + zlen t + 1)) data ->
  goes t x1 u1 x1' u1' -> perrno x1' = HPE_OK -> parser_ok x1' ->
  both (exec_byte st data) (exec_byte st [b]) (sim_val o data (q + zlen t))
    (stop_exit data (q + zlen t)) e (exec_init x1' u1') ->
  rest_ok data (q + zlen t + 1) -> sim_from data q e x1 u1.
Proof.
  intros Hp Hq Hlt Hi Hd Hg Hx Hok Hb IH. pose proof (zlen_nonneg t).
  assert (Hby : b = znth data (q + zlen t) 0).
  { rewrite <- (take_drop (Z.to_nat q) data), Hd.
    assert (zlen (take (Z.to_nat q) data) = q)
      by (unfold zlen in *; rewrite length_take; lia).
    rewrite app_assoc, znth_app_r by (rewrite zlen_app; lia). rewrite zlen_app.
    by replace (q + zlen t - _) with 0 by lia. }
  pose proof (exec_byte_ok st data (observe_ok o) e Hi ltac:(lia)) as Hw.
  unfold both, wp in Hb, Hw. destruct (exec_byte st data e) as [[] e'|x e'] eqn:E.
  - destruct (exec_byte st [b] (exec_init x1' u1')) as [[] e1'|y e1'] eqn:E1; [|done].
    destruct (call_val b x1' u1' e1' Hx Hok E1) as (Ecall & Hi1 & Hp1).
    destruct Hw as [Hi' _].
    pose proof (val_head data (q + zlen t) b e' e1' ltac:(lia) Hby Hb Hi' Hi1) as Hh.
    assert (Hpe : p e' = q + zlen t) by apply Hb.
    assert (Hb1 : zlen (t ++ [b]) = zlen t + 1) by (rewrite zlen_app; done).
    replace (q + zlen t + 1) with (q + zlen (t ++ [b])) in * by lia.
    eapply (sim_next data q e e' (t ++ [b])); try done.
    + lia.
    + by destruct t.
    + by rewrite <- app_assoc.
    + intros l n. rewrite <- app_assoc, Hg. change (singles ([b] ++ l)) with ([b] :: singles l).
      rewrite (feed_more _ _ _ _ _ _ _ _ Ecall (head_more _ _ _ _ _ Hh)). f_equal. lia.
    + by apply IH.
    + lia.
  - destruct (exec_byte st [b] (exec_init x1' u1')) as [[] e1'|y e1'] eqn:E1; [done|].
    eapply (sim_stop data q e t b); try done; [lia|]. by apply call_exit.
Qed.

Lemma drop_byte (data : bytes) q : 0 <= q < zlen data ->
  drop (Z.to_nat q) data = znth data q 0 :: drop (Z.to_nat (q + 1)) data.
Proof.
  unfold zlen. intros. destruct (lookup_lt_is_Some_2 data (Z.to_nat q)) as [b Hb]; [lia|].
  rewrite (drop_S _ _ _ Hb), (znth_lookup _ _ 0 _ (proj1 H) Hb). do 2 f_equal. lia.
Qed.

Lemma agree_over data q e x1 u1 t :
  drop (Z.to_nat q) data = t ++ drop (Z.to_nat (q + zlen t)) data ->
  runs_over t x1 u1 -> sim_from data q e x1 u1.
Proof. intros Hd Ho' fuel _. left. rewrite Hd. apply Ho'. Qed.

Lemma head_perrno data q e x1 u1 : head data q e x1 u1 -> perrno x1 = HPE_OK.
Proof. intros Hh. rewrite (like_perrno _ _ (h_like _ _ _ _ _ Hh)). apply Hh. Qed.

Lemma simple_step data q e x1 u1 :
  head data q e x1 u1 -> q < zlen data -> simple (p_state e) = true ->
  rest_ok data (q + 1) -> sim_from data q e x1 u1.
Proof.
  intros Hh Hq Hs IH. pose proof (h_pos _ _ _ _ _ Hh).
  destruct (byte_sim data q e x1 u1 _ Hh Hq eq_refl Hs) as [Hov|Hb].
  - apply (agree_over data q e x1 u1 [znth data q 0]); [apply drop_byte; lia|].
    by apply runs_over_here.
  - assert (E0 : q + zlen (@nil Z) = q) by (rewrite zlen_nil; lia).
    eapply (after_byte data q [] (znth data q 0) e x1 u1 x1 u1); rewrite ?E0; try done.
    + by apply (h_p _ _ _ _ _ Hh).
    + lia.
    + apply Hh.
    + apply drop_byte. lia.
    + apply goes_nil.
    + by apply (head_perrno data q e x1 u1).
    + apply Hh.
Qed.

(** ** Bodies *)

Definition body_state (s : state) : bool :=
  match s with s_body_identity | s_body_identity_eof | s_chunk_data => true | _ => false end.

(** What [n] bytes take from [content_length]. *)
Definition used (s : state) (n : Z) : Z := if decide (s = s_body_identity_eof) then 0 else n.

Definition take_body (s : state) (n : Z) (x : http_parser) : http_parser :=
  set_content_length (content_length x - used s n) x.

Definition mark_body (e : exec U) : exec U :=
  match body_mark e with None => set_mark body (Some (p e)) e | Some _ => e end.

Lemma take_body_0 s x : take_body s 0 x = x.
Proof.
  unfold take_body, used. replace (if decide _ then 0 else 0) with 0 by (by case_decide).
  rewrite Z.sub_0_r. by destruct x.
Qed.

Lemma body_no_count s : body_state s = true -> PARSING_HEADER s = false /\ start_of s = false /\
  initial_mark s = None.
Proof. by destruct s. Qed.

Lemma consume_body_eq data (e : exec U) n :
  n = Z.min (content_length (prs e)) (zlen data - p e) ->
  content_length (prs e) <> 0 -> content_length (prs e) <> ULLONG_MAX ->
  consume_body data e = Val tt
    (set_p (p e + (n - 1))
      (set_prs (set_content_length (content_length (prs e) - n) (prs e)) (mark_body e))).
Proof.
  intros -> H0 H1. unfold consume_body, assert_content_length, assert, MARK, mark_body, bind, gets,
    upd, modify, ret. rewrite (proj2 (Z.eqb_neq _ _) H0), (proj2 (Z.eqb_neq _ _) H1). cbn [negb andb].
  destruct e as [x u s q c m1 m2 m3 m4 m5]. norm. by destruct m4.
Qed.

Lemma wp_consume data n Q X (e : exec U) :
  n = Z.min (content_length (prs e)) (zlen data - p e) ->
  0 < content_length (prs e) < ULLONG_MAX ->
  Q tt (set_p (p e + (n - 1))
      (set_prs (set_content_length (content_length (prs e) - n) (prs e)) (mark_body e))) ->
  wp (consume_body data) Q X e.
Proof. intros Hn Hc HQ. unfold wp. by rewrite (consume_body_eq data e n) by (done || lia). Qed.

(** One byte of a body that does not end with it. *)
Lemma call_body b x u : perrno x = HPE_OK -> parser_ok x -> body_state (pstate x) = true ->
  (pstate x <> s_body_identity_eof -> 1 < content_length x) ->
  http_parser_execute st [b] x u = Returned 1 (take_body (pstate x) 1 x) (cb_data o body x [b] u) /\
  more (take_body (pstate x) 1 x) = true /\ parser_ok (take_body (pstate x) 1 x).
Proof.
  intros Hx Hok Hs Hcl.
  destruct (Hok (or_introl Hx)) as [Hf Hi].
  assert (Hm : more (take_body (pstate x) 1 x) = true).
  { unfold more, take_body, upgraded. simpl. rewrite Hx. simpl.
    rewrite (proj1 (proj2 (body_no_count _ Hs))), andb_false_r. done. }
  enough (H : exists e1, exec_byte st [b] (exec_init x u) = Val tt e1 /\ p_state e1 = pstate x /\
    prs e1 = take_body (pstate x) 1 x /\ flushed [b] e1 = cb_data o body x [b] u).
  { destruct H as (e1 & E & Hse & Hpe & Hfe). destruct (call_val b x u e1 Hx Hok E) as (E1 & Hi1 & _).
    pose proof (inv_parser_ok e1 Hi1) as Hok1. rewrite Hse, Hpe in *.
    replace (set_pstate (pstate x) (take_body (pstate x) 1 x)) with (take_body (pstate x) 1 x) in *
      by (by destruct x; unfold take_body). by rewrite <- Hfe. }
  assert (Hn : 0 <= nread (prs (exec_init x u)) <= HTTP_MAX_HEADER_SIZE).
  { unfold exec_init. rewrite (proj2 (proj2 (body_no_count _ Hs))). apply Hf. }
  rewrite exec_byte_eq by done. unfold exec_init, too_large, counted.
  destruct (body_no_count _ Hs) as (Hph & _ & ->). norm. rewrite Hph. cbv zeta. norm.
  destruct x as [ty fl ps hs ix nr cl ma mi sc me er up]. norm. subst er.
  enough (H : wp (run_switch st [b] reexecute_fuel) (fun _ e1 => p_state e1 = ps /\
     prs e1 = take_body ps 1 (mk_parser ty fl ps hs ix nr cl ma mi sc me HPE_OK up) /\
     flushed [b] e1 = cb_data o body (mk_parser ty fl ps hs ix nr cl ma mi sc me HPE_OK up) [b] u)
     (fun _ _ => False)
     (mk_exec (mk_parser ty fl ps hs ix nr cl ma mi sc me HPE_OK up) u ps 0 b None None None None None)).
  { unfold wp in H. destruct (run_switch st [b] reexecute_fuel _) as [[] e1|]; [|done]. eauto. }
  apply wp_switch. unfold switch_state. do 4 wp_base. norm.
  unfold take_body, used. destruct ps; try discriminate; norm; cbn [state_inv] in Hi; norm;
    unfold case_s_chunk_data, case_s_body_identity, case_s_body_identity_eof, assert_chunked;
    try (assert (1 < cl) by (by apply Hcl));
    repeat first
    [ lazymatch goal with |- wp (consume_body _) _ _ _ =>
        apply (wp_consume _ 1); [norm; change (zlen [b]) with 1; lia|norm; lia|norm] end
    | sim_step ]; zprop; try lia; try congruence; split_and!; try done.
  by rewrite Z.sub_0_r.
Qed.

Lemma take_body_add s n m x : take_body s m (take_body s n x) = take_body s (n + m) x.
Proof. unfold take_body, used, set_content_length. destruct x. simpl. case_decide; f_equal; lia. Qed.

Lemma used_pos s n : s <> s_body_identity_eof -> used s n = n.
Proof. intros. unfold used. by rewrite decide_False. Qed.

(** Bytes of a body one by one, short of its end. *)
Lemma goes_body t x u : perrno x = HPE_OK -> parser_ok x -> body_state (pstate x) = true ->
  (pstate x <> s_body_identity_eof -> zlen t < content_length x) ->
  goes t x u (take_body (pstate x) (zlen t) x) (deliver o body x t u) /\ parser_ok (take_body (pstate x) (zlen t) x).
Proof.
  revert x u. induction t as [|b t IH]; intros x u Hx Hok Hs Hcl.
  - rewrite zlen_nil, take_body_0. split; [apply goes_nil|done].
  - rewrite zlen_cons in *. pose proof (zlen_nonneg t).
    destruct (call_body b x u Hx Hok Hs) as (E & Hm & Hok1);
      [intros Hne; specialize (Hcl Hne); lia|].
    destruct (IH (take_body (pstate x) 1 x) (cb_data o body x [b] u)) as [Hg Hok2]; try done.
    { simpl. intros Hne. rewrite used_pos by done. specialize (Hcl Hne). lia. }
    rewrite take_body_add in *. split; [|done].
    eapply goes_cons; [exact E|exact Hm|].
    replace (deliver o body x (b :: t) u)
      with (deliver o body (take_body (pstate x) 1 x) t (cb_data o body x [b] u)); [done|].
    destruct t as [|b' t]; [done|]. cbn [deliver].
    rewrite (cb_data_status o Ho body (take_body (pstate x) 1 x) x) by done.
    by rewrite <- (so_data o Ho).
Qed.

(** What the run on the data has marked by then. *)
Lemma body_owed data q e x1 u1 n y :
  head data q e x1 u1 -> body_state (p_state e) = true -> 0 <= n -> q + n <= zlen data ->
  status_code y = status_code (prs e) ->
  deliver o body x1 (slice data q n) u1 = owed o data (q + n) (set_prs y (mark_body e)) (usr e) /\
  get_mark body (mark_body e) <> None /\
  (forall f, f <> body -> get_mark f (mark_body e) = None).
Proof.
  intros [Hq Hp (_ & _ & _ & M1 & M2 & M3 & M4 & M5) _ _ _ _ Hl Hu Hm] Hs Hn Hle Hy.
  destruct e as [x u s q0 c m1 m2 m3 m4 m5]. norm. subst u1 q0.
  apply mark_none in M1, M2, M3, M5; [|by destruct s..]. subst m1 m2 m3 m5.
  assert (Hsc : status_code x1 = status_code y) by (destruct Hl as (? & ? & -> & _); by rewrite Hy).
  unfold owed, mark_body. destruct m4 as [m|]; norm.
  - destruct M4 as [Hm4 _]. destruct (Hm body m eq_refl) as [|[_ ?]]; [|done].
    split_and!; [|done|by intros []].
    replace (q + n - m) with ((q - m) + n) by lia. rewrite slice_add by lia.
    replace (m + (q - m)) with q by lia.
    rewrite (deliver_status o Ho body x1 y), (deliver_status o Ho body x y) by done.
    destruct (slice data q n) as [|b l] eqn:E; [by rewrite app_nil_r|].
    cbn [deliver]. rewrite (deliver_cb o Ho), (deliver_some o); [done|]. by destruct (slice data m (q - m)).
  - split_and!; [|done|by intros []]. replace (q + n - q) with n by lia.
    by apply (deliver_status o Ho).
Qed.

(** The switch on the last bytes of a body, and on bytes short of its end. *)
Definition body_taken (n : Z) (e : exec U) : exec U :=
  set_p (p e + (n - 1)) (set_prs (take_body (p_state e) n (prs e)) (mark_body e)).

Lemma switch_body_part data (e : exec U) n :
  body_state (p_state e) = true -> state_inv 0 (p_state e) (prs e) ->
  n = zlen data - p e -> (p_state e <> s_body_identity_eof -> n < content_length (prs e)) ->
  0 < n -> switch_state st data e = Val tt (body_taken n e).
Proof.
  intros Hs Hi Hn Hcl Hpos.
  enough (H : wp (switch_state st data) (fun _ e' => e' = body_taken n e) (fun _ _ => False) e).
  { unfold wp in H. destruct (switch_state st data e) as [[] e'|]; [|done]. by rewrite H. }
  unfold switch_state. do 4 wp_base. unfold body_taken, take_body, used.
  destruct e as [x u s q c m1 m2 m3 m4 m5]. norm.
  destruct s; try discriminate; norm; cbn [state_inv] in Hi; norm;
    unfold case_s_chunk_data, case_s_body_identity, case_s_body_identity_eof, assert_chunked;
    try (assert (n < content_length x) by (by apply Hcl)).
  - destruct Hi as [Hc ?].
    repeat first
    [ lazymatch goal with |- wp (consume_body _) _ _ _ =>
        apply (wp_consume _ n); [norm; lia|norm; lia|norm] end
    | sim_step ]; zprop; try lia; try congruence.
    by rewrite decide_False.
  - repeat first
    [ lazymatch goal with |- wp (consume_body _) _ _ _ =>
        apply (wp_consume _ n); [norm; lia|norm; lia|norm] end
    | sim_step ]; zprop; try lia; try congruence.
    by rewrite decide_False.
  - repeat sim_step. rewrite decide_True, Z.sub_0_r by done. unfold mark_body. norm.
    replace (q + (n - 1)) with (zlen data - 1) by lia. by destruct m4, x.
Qed.

Lemma switch_chunk_last data (e : exec U) n :
  p_state e = s_chunk_data -> state_inv 0 s_chunk_data (prs e) ->
  n = content_length (prs e) -> n <= zlen data - p e ->
  switch_state st data e = Val tt (set_p_state s_chunk_data_almost_done (body_taken n e)).
Proof.
  intros Hs Hi Hn Hle.
  enough (H : wp (switch_state st data)
    (fun _ e' => e' = set_p_state s_chunk_data_almost_done (body_taken n e)) (fun _ _ => False) e).
  { unfold wp in H. destruct (switch_state st data e) as [[] e'|]; [|done]. by rewrite H. }
  unfold switch_state. do 4 wp_base. rewrite Hs. unfold body_taken, take_body.
  rewrite Hs, used_pos by done. destruct Hi as [Hc ?].
  unfold case_s_chunk_data, assert_chunked. do 4 wp_base. wp_base; [|congruence]. do 2 wp_base.
  apply (wp_consume _ n); [norm; lia|norm; lia|].
  do 2 wp_base. wp_base; zprop; [by repeat wp_base|lia].
Qed.

(** The callback at the end of a body. *)
Definition body_called (data : bytes) (n m : Z) (e : exec U) : exec U :=
  let e' := set_p_state s_message_done (body_taken n e) in
  let y := set_pstate s_message_done (prs e') in
  set_mark body None (set_usr (cb_data o body y (slice data m (p e' - m + 1)) (usr e))
    (set_prs y e')).

Lemma switch_body_last data (e : exec U) n m :
  p_state e = s_body_identity -> state_inv 0 s_body_identity (prs e) -> perrno (prs e) = HPE_OK ->
  n = content_length (prs e) -> n <= zlen data - p e -> get_mark body (mark_body e) = Some m -> 0 <= m <= p e ->
  switch_state st data e = Exit XReexecute (body_called data n m e).
Proof.
  intros Hs Hi He Hn Hle Hm Hmp.
  enough (H : wp (switch_state st data) (fun _ _ => False) 
    (fun x e2 => x = XReexecute /\ e2 = body_called data n m e) e).
  { unfold wp in H. destruct (switch_state st data e) as [|x e']; [done|]. by destruct H as [-> ->]. }
  unfold switch_state. do 4 wp_base. rewrite Hs. unfold body_called, body_taken, take_body.
  rewrite Hs, used_pos by done. cbn [state_inv] in Hi.
  unfold case_s_body_identity. wp_base.
  apply (wp_consume _ n); [lia|lia|]. do 2 wp_base. wp_base; zprop; [|lia].
  do 5 wp_base. wp_base. eapply wp_data_all; [done|exact Hm|apply in_data_true; unfold mark_body, get_mark in *; destruct e; norm; lia|]. wp_base. wp_base. split; [done|].
  unfold mark_body. destruct e as [x u s q c m1 m2 m3 m4 m5]. norm. by destruct m4.
Qed.

Lemma run_val data f (e e' : exec U) :
  switch_state st data e = Val tt e' -> run_switch st data (S f) e = Val tt e'.
Proof. intros E. cbn [run_switch]. by rewrite E. Qed.

Lemma both_val data b f Q X (e e1 e' e1' : exec U) :
  switch_state st data e = Val tt e' -> switch_state st [b] e1 = Val tt e1' -> Q e' e1' ->
  both (run_switch st data (S f)) (run_switch st [b] (S f)) Q X e e1.
Proof. intros E E1 HQ. unfold both, wp. cbn [run_switch]. by rewrite E, E1. Qed.

Lemma both_again data b f Q X (e e1 e' e1' : exec U) :
  switch_state st data e = Exit XReexecute e' -> switch_state st [b] e1 = Exit XReexecute e1' ->
  both (run_switch st data f) (run_switch st [b] f) Q X e' e1' ->
  both (run_switch st data (S f)) (run_switch st [b] (S f)) Q X e e1.
Proof. intros E E1 HQ. unfold both, wp in *. cbn [run_switch]. by rewrite E, E1. Qed.

(** A byte of a body is not counted. *)
Lemma exec_byte_body data (e : exec U) : body_state (p_state e) = true ->
  0 <= nread (prs e) <= HTTP_MAX_HEADER_SIZE ->
  exec_byte st data e = run_switch st data reexecute_fuel (set_ch (znth data (p e) 0) e).
Proof.
  intros Hs Hn. rewrite exec_byte_eq by done. unfold too_large, counted.
  destruct (body_no_count _ Hs) as [Hc _]. cbv zeta. norm. rewrite Hc. by destruct e.
Qed.

(** The run on the data has taken the [n] bytes that end a body, the other one
    the last of them. *)
Lemma mid_taken data q n c b e x1 u1 :
  head data q e x1 u1 -> body_state (p_state e) = true -> p_state e <> s_body_identity_eof ->
  n = content_length (prs e) -> 0 < n -> q + n <= zlen data ->
  mid o data (q + (n - 1)) (body_taken n (set_ch c e))
    (body_taken 1 (set_ch b (exec_init (take_body (p_state e) (n - 1) x1)
                               (deliver o body x1 (slice data q (n - 1)) u1)))) /\
  body_mark (body_taken 1 (set_ch b (exec_init (take_body (p_state e) (n - 1) x1)
                               (deliver o body x1 (slice data q (n - 1)) u1)))) = Some 0.
Proof.
  intros Hh Hs Hne Hn Hpos Hle.
  destruct (body_owed data q e x1 u1 (n - 1) (take_body (p_state e) n (prs e)) Hh Hs)
    as (Ho1 & Hb & _); [lia|lia|done|].
  destruct Hh as [Hq Hp (_ & _ & _ & M1 & M2 & M3 & M4 & M5) Hqu _ _ Hps (s1 & k & -> & Hk) _ _].
  destruct (body_no_count _ Hs) as (_ & _ & Hin).
  destruct e as [x u s q0 c0 m1 m2 m3 m4 m5]. norm. subst q0 s1.
  apply mark_none in M1, M2, M3, M5; [|by destruct s..]. subst m1 m2 m3 m5.
  unfold exec_init, take_body in *. norm. rewrite Hin. rewrite !(used_pos s) in * by done. rewrite Ho1.
  clear Ho1. unfold body_taken, take_body, mark_body in *. norm. rewrite !used_pos by done. clear Hb.
  replace (content_length x - n) with 0 by lia.
  replace (content_length x - (n - 1) - 1) with 0 by lia.
  split; [|done].
  destruct m4 as [m|]; unfold mid, marks_like, quiet, like, owed in *; norm; split_and!; try done; try lia.
  all: try (eexists _, _; split; [|exact Hk]; by destruct x).
Qed.

Lemma both_body data b Q X (e e1 : exec U) :
  body_state (p_state e) = true -> body_state (p_state e1) = true -> inv 0 e -> inv 0 e1 ->
  p e1 = 0 ->
  both (run_switch st data reexecute_fuel) (run_switch st [b] reexecute_fuel) Q X
    (set_ch (znth data (p e) 0) e) (set_ch b e1) ->
  both (exec_byte st data) (exec_byte st [b]) Q X e e1.
Proof.
  intros Hs Hs1 Hi Hi1 Hp1 HQ. unfold both, wp in *.
  rewrite (exec_byte_body data e Hs), (exec_byte_body [b] e1 Hs1) by apply Hi || apply Hi1.
  by rewrite Hp1.
Qed.

Lemma inv_body c (e : exec U) : inv 0 e -> body_state (p_state e) = true -> inv 1 (set_ch c e).
Proof.
  intros (He & Hf & Hst & HM) Hs. unfold inv. norm. destruct (body_no_count _ Hs) as [Hc _].
  split_and!; try apply HM; auto using inv_no_count.
Qed.

(** The callback at the end of a body in both runs. *)
Lemma mid_body_end data q n b m (e e1 : exec U) :
  p e = q -> 0 <= q -> 0 < n -> q + n <= zlen data -> b = znth data (q + (n - 1)) 0 ->
  inv 1 e -> body_state (p_state e) = true ->
  mid o data (q + (n - 1)) (body_taken n e) (body_taken 1 e1) ->
  get_mark body (mark_body e) = Some m -> body_mark (body_taken 1 e1) = Some 0 ->
  mid o data (q + (n - 1)) (body_called data n m e) (body_called [b] 1 0 e1).
Proof.
  intros Hp Hq Hn Hle Hb (He & _ & _ & M1 & M2 & M3 & M4 & M5) Hs
    ((s1 & k & A1 & A1') & A2 & A3 & A4 & (L1 & L2 & L3 & L4 & L5) & A6 & A7) Hm Hm1.
  destruct e as [x u s q0 c m1 m2 m3 m4 m5], e1 as [x1 u1 s2 q1 c1 k1 k2 k3 k4 k5]. norm. subst q0.
  apply mark_none in M1, M2, M3, M5; [|by destruct s..]. subst m1 m2 m3 m5.
  unfold body_called. unfold body_taken, mark_body in *. norm.
  destruct m4 as [m4|]; norm; destruct k4 as [k4|]; norm; simplify_eq;
    unfold mid, marks_like, quiet, upgraded, like, owed in *; norm;
    (split_and!; [|done|lia|lia|done..| |by rewrite andb_false_r]).
  all: rewrite A1; try (eexists _, k; split; [reflexivity|exact A1']).
  all: try match goal with H : mark_ok _ _ _ (Some _) |- _ => destruct H as [? _] end.
  all: rewrite (slice_all_ge [_]) by (simpl; change (zlen [_]) with 1; lia).
  all: rewrite (slice_add _ _ (_ - m) 1), Zplus_minus, slice_znth by lia.
  all: rewrite (cb_data_status o Ho body (set_pstate _ (set_pstate _ _)) (take_body s n x)) by done.
  all: by rewrite (deliver_cb o Ho), (cb_data_status o Ho body (set_pstate _ _) (take_body s n x)).
Qed.

(** The run on the data and the run on the last byte [b] of a body end it
    alike. *)
Lemma body_end data q n b e x1 u1 :
  head data q e x1 u1 -> body_state (p_state e) = true -> p_state e <> s_body_identity_eof ->
  n = content_length (prs e) -> q + n <= zlen data -> b = znth data (q + (n - 1)) 0 ->
  let y1 := take_body (p_state e) (n - 1) x1 in
  let v1 := deliver o body x1 (slice data q (n - 1)) u1 in
  parser_ok y1 ->
  both (exec_byte st data) (exec_byte st [b]) (sim_val o data (q + (n - 1)))
    (stop_exit data (q + (n - 1))) e (exec_init y1 v1).
Proof.
  intros Hh Hs Hne Hn Hle Hb y1 v1 Hok1. pose proof Hh as [Hq Hp Hi _ _ _ Hps Hl _ _].
  pose proof Hi as (He & Hf & Hst & _).
  assert (Hcl : 0 < n < ULLONG_MAX) by (destruct (p_state e); try done; destruct Hst; lia).
  assert (Hx1 : perrno y1 = HPE_OK) by (simpl; by rewrite (like_perrno _ _ Hl)).
  pose proof (exec_init_ok y1 v1 Hx1 Hok1) as Hi1.
  assert (Hs1 : p_state (exec_init y1 v1) = p_state e).
  { unfold exec_init. destruct (body_no_count _ Hs) as (_ & _ & E). rewrite <- Hps in E |- *.
    change (pstate y1) with (pstate x1). by rewrite E. }
  assert (Hcl1 : content_length (prs (exec_init y1 v1)) = 1).
  { unfold exec_init. destruct (body_no_count _ Hs) as (_ & _ & E). rewrite <- Hps in E.
    change (pstate y1) with (pstate x1). rewrite E. simpl.
    rewrite (used_pos (p_state e)) by done. destruct Hl as (? & ? & -> & _). simpl. lia. }
  apply both_body; [by rewrite Hs|by rewrite Hs1|done|done|apply exec_init_p|].
  rewrite Hp. set (c := znth data q 0).
  change reexecute_fuel with (S 7).
  destruct (mid_taken data q n c b e x1 u1 Hh Hs Hne Hn ltac:(lia) Hle) as [Hmid Hbm].
  fold y1 v1 in Hmid, Hbm.
  destruct (p_state e) eqn:Es; try done.
  - destruct Hi1 as (_ & _ & Hst1 & _). rewrite Hs1 in Hst1.
    eapply both_val;
      [exact (switch_chunk_last data (set_ch c e) n Es Hst Hn ltac:(simpl; lia))
      |exact (switch_chunk_last [b] (set_ch b (exec_init y1 v1)) 1
         Hs1 Hst1 (eq_sym Hcl1) ltac:(simpl; rewrite exec_init_p; done))|].
    destruct Hmid as (A1 & A2 & A3 & A4 & A5 & A6 & A7).
    split; [|split; [done|]]; [|intros A;
      change (body_mark (body_taken 1 (set_ch b (exec_init y1 v1))) = None) in A; congruence].
    split_and!; try done. unfold quiet, upgraded. simpl. apply andb_false_r.
  - assert (Hi2 : inv 1 (set_ch c e)) by (apply inv_body; [done|by rewrite Es]).
    assert (Hi3 : inv 1 (set_ch b (exec_init y1 v1))) by (apply inv_body; [done|by rewrite Hs1]).
    destruct (get_mark body (mark_body (set_ch c e))) as [m|] eqn:Em; [|].
    2:{ exfalso. revert Em. unfold mark_body. simpl. by destruct (body_mark e) eqn:Ebm; simpl; rewrite ?Ebm. }
    assert (Hm : 0 <= m <= p (set_ch c e)).
    { destruct Hi2 as (_ & _ & _ & _ & _ & _ & M4 & _). revert Em M4. unfold mark_body. simpl.
      destruct (body_mark e) as [k|] eqn:Ebm; simpl; rewrite ?Ebm; intros [= <-]; [intros [? _]; simpl in *; lia|lia]. }
    pose proof (switch_body_last data (set_ch c e) n m Es Hst He Hn ltac:(simpl; lia) Em Hm) as EL.
    pose proof (proj1 (proj2 (proj2 Hi1))) as Hst1. rewrite Hs1 in Hst1.
    pose proof (switch_body_last [b] (set_ch b (exec_init y1 v1)) 1 0 Hs1
      Hst1 (proj1 Hi1) (eq_sym Hcl1) ltac:(simpl; rewrite exec_init_p; done) Hbm ltac:(simpl; rewrite exec_init_p; lia)) as ER.
    apply (both_again data b 7 _ _ _ _ _ _ EL ER).
    pose proof (switch_ok st data (observe_ok o) _ Hi2 ltac:(simpl; lia)) as W2.
    pose proof (switch_ok st [b] (observe_ok o) _ Hi3 ltac:(simpl; rewrite exec_init_p; done)) as W3.
    unfold wp in W2, W3. rewrite EL in W2. rewrite ER in W3.
    destruct W2 as [W2 _], W3 as [W3 _].
    apply (run_sim 7 data (q + (n - 1)) b (body_called data n m (set_ch c e))
      (body_called [b] 1 0 (set_ch b (exec_init y1 v1))));
      [lia|reflexivity|exact W2|exact W3|exact I|exact I| |simpl; lia].
    apply (mid_body_end data q n b m);
      [exact Hp|lia|lia|exact Hle|exact Hb|exact Hi2|simpl; by rewrite Es|exact Hmid|exact Em|exact Hbm].
Qed.
Lemma drop_slice (data : bytes) q k : 0 <= q -> 0 <= k ->
  drop (Z.to_nat q) data = slice data q k ++ drop (Z.to_nat (q + k)) data.
Proof.
  intros. unfold slice. rewrite Z2Nat.inj_add, <- drop_drop by lia. symmetry. apply take_drop.
Qed.

(** The whole data belongs to the body. *)
Lemma body_head data q r c e x1 u1 :
  head data q e x1 u1 -> body_state (p_state e) = true -> 0 < r -> q + r = zlen data ->
  inv 0 (body_taken r (set_ch c e)) -> parser_ok (take_body (p_state e) r x1) ->
  head data (q + r) (set_p (q + r) (body_taken r (set_ch c e))) (take_body (p_state e) r x1)
    (deliver o body x1 (slice data q r) u1).
Proof.
  intros Hh Hs Hr Hle Hi' Hok.
  destruct (body_owed data q e x1 u1 r (take_body (p_state e) r (prs e)) Hh Hs)
    as (Ho1 & Hb & Hf); [lia|lia|done|].
  destruct Hh as [Hq Hp _ Hqu _ _ Hps (s1 & k & -> & Hk) _ Hm].
  destruct (body_no_count _ Hs) as (_ & Hst & Hin).
  assert (Hm' : forall f m, get_mark f (mark_body e) = Some m -> m < q + r).
  { intros f m Hfm. assert (f = body \/ f <> body) as [->|Hne] by (destruct f; by (left + right));
      [|by rewrite Hf in Hfm].
    revert Hfm. unfold mark_body. destruct (body_mark e) as [m'|] eqn:E.
    - simpl. rewrite E. intros [= ->]. destruct (Hm body m E) as [|[_ ?]]; [lia|done].
    - simpl. intros [= <-]. lia. }
  assert (E : body_taken r (set_ch c e) = set_p (q + (r - 1)) (set_prs (take_body (p_state e) r (prs e))
    (set_ch c (mark_body e)))).
  { unfold body_taken, mark_body. destruct e as [x u s q0 c0 m1 m2 m3 m4 m5]. simpl in *. subst q0.
    by destruct m4. }
  rewrite E in *. constructor; try done; try lia.
  - destruct Hi' as (? & ? & ? & M1 & M2 & M3 & M4 & M5). unfold inv. norm.
    split_and!; try done; (eapply mark_ok_le; [eassumption|lia]).
  - unfold quiet, upgraded. simpl.
    replace (p_state (mark_body e)) with (p_state e) by (unfold mark_body; by destruct (body_mark e)).
    by rewrite Hst, andb_false_r.
  - unfold marked. simpl.
    replace (p_state (mark_body e)) with (p_state e) by (unfold mark_body; by destruct (body_mark e)).
    by rewrite Hin.
  - simpl in *. rewrite Hps. unfold mark_body. by destruct (body_mark e).
  - exists s1, k. split; [done|exact Hk].
  - rewrite Ho1. unfold mark_body. by destruct (body_mark e).
  - intros f m Hfm. left. apply (Hm' f m). by destruct f.
Qed.

Lemma body_step data q e x1 u1 :
  head data q e x1 u1 -> q < zlen data -> body_state (p_state e) = true ->
  (forall q', q < q' <= zlen data -> rest_ok data q') -> sim_from data q e x1 u1.
Proof.
  intros Hh Hlt Hs IH. pose proof Hh as [Hq Hp Hi Hqu _ Hok Hps Hl _ _].
  pose proof (head_perrno _ _ _ _ _ Hh) as Hx1. pose proof Hi as (He & Hf & Hst & _).
  assert (Hcl : content_length x1 = content_length (prs e)) by (destruct Hl as (? & ? & -> & _); done).
  assert (Hs1 : body_state (pstate x1) = true) by (by rewrite Hps).
  set (r := zlen data - q).
  assert (Hd : drop (Z.to_nat q) data = slice data q r).
  { unfold slice, r. rewrite take_ge; [done|]. rewrite length_drop. unfold zlen. lia. }
  assert (Hzr : zlen (slice data q r) = r) by (apply zlen_slice; unfold r; lia).
  destruct (decide (p_state e <> s_body_identity_eof /\ content_length (prs e) <= r))
    as [[Hne Hle]|Hpart].
  - set (n := content_length (prs e)). fold n in Hle.
    assert (Hn : 0 < n) by (destruct (p_state e); try done; destruct Hst; lia).
    assert (Hz : zlen (slice data q (n - 1)) = n - 1) by (apply zlen_slice; lia).
    destruct (goes_body (slice data q (n - 1)) x1 u1 Hx1 Hok Hs1) as [Hg Hok1];
      [intros _; rewrite Hz, Hcl; lia|].
    rewrite Hz, Hps in Hg, Hok1.
    eapply (after_byte data q (slice data q (n - 1)) (znth data (q + (n - 1)) 0) e);
      rewrite ?Hz; try exact Hg; try done; try lia.
    + replace (q + (n - 1) + 1) with (q + (n - 1 + 1)) by lia.
      rewrite (drop_slice data q (n - 1)) at 1 by lia. f_equal.
      rewrite drop_byte by lia. do 2 f_equal. lia.
    + apply body_end; try done. unfold r in Hle. lia.
    + apply IH. unfold r in *. lia.
  - assert (Hpart' : p_state e <> s_body_identity_eof -> r < content_length (prs e)).
    { intros Hne. destruct (Z.lt_ge_cases r (content_length (prs e))); [done|tauto]. }
    destruct (goes_body (slice data q r) x1 u1 Hx1 Hok Hs1) as [Hg Hok1];
      [rewrite Hps, Hzr, Hcl; done|].
    rewrite Hzr, Hps in Hg, Hok1.
    pose proof (exec_byte_body data e Hs (ok_nread _ Hf)) as E. rewrite Hp in E.
    set (c := znth data q 0) in E. change reexecute_fuel with (S 7) in E.
    rewrite (run_val data 7 (set_ch c e) (body_taken r (set_ch c e))) in E
      by (apply switch_body_part; try done; simpl; unfold r; lia).
    pose proof (exec_byte_ok st data (observe_ok o) e Hi ltac:(lia)) as Hw.
    unfold wp in Hw. rewrite E in Hw. destruct Hw as [Hi' _].
    assert (Hzq : q + r = zlen data) by (unfold r; lia).
    eapply (sim_next data q e _ (slice data q r)); rewrite ?Hzr; try exact E; try exact Hg; try done;
      try lia.
    + simpl. lia.
    + intros Hnil. rewrite Hnil in Hzr. change (zlen []) with 0 in Hzr. unfold r in Hzr. lia.
    + apply drop_slice; lia.
    + apply IH; [lia|]. apply body_head; try done. unfold r. lia.
Qed.
End Cut.
