(* ===== verification/HttpFeed.v ===== *)
(** * Feeding the HTTP parser piece by piece: headers, and the streams

    The two states whose case runs over many bytes of a header, a byte at a time
    and in one call; then a call against the calls with its bytes one by one
    ([execute_agrees]), and a stream in pieces against its bytes
    ([feed_agrees]). *)

From S2P Require Import Prelude.
From S2P Require Import Words.
From S2P Require Import HttpChars.
From S2P Require Import HttpUrl.
From S2P Require Import HttpState.
From S2P Require Import HttpExec.
From S2P Require Import HttpWp.
From S2P Require Import HttpSafe.
From S2P Require Import HttpRun.
From S2P Require Import HttpStream.
From S2P Require Import HttpCut.

Section Headers.
Context {U : Type} (o : observer U) (Ho : stream_observer o).
#[local] Abbreviation st := (observe o).
#[local] Abbreviation goes := (goes o).
#[local] Abbreviation runs_over := (runs_over o).
#[local] Abbreviation deliver := (deliver o).

(** ** Header fields *)

Lemma field_step_like s n x b c :
  header_field_step (set_pstate s (set_nread n x)) b c =
  option_map (fun y => set_pstate s (set_nread n y)) (header_field_step x b c).
Proof.
  destruct x as [ty fl ps hs ix nr cl ma mi sc me er up]. unfold header_field_step. norm.
  destruct hs; try reflexivity; cbv zeta beta;
    try (destruct (match_const _ _ _ _ _ _); reflexivity); by destruct (b =? #" ").
Qed.

Lemma header_step_state x b c y : header_field_step x b c = Some y ->
  exists h i, y = set_header_state h (set_index i x).
Proof.
  destruct x as [ty fl ps hs ix nr cl ma mi sc me er up]. unfold header_field_step. norm.
  intros H. destruct hs; try discriminate; cbv zeta beta in H;
    repeat match type of H with
    | context [match_const ?s ?i ?c ?a ?d ?e] => destruct (match_const s i c a d e); [|discriminate]
    | context [if ?t then _ else _] => destruct t
    end; simplify_eq; eexists _, _; reflexivity.
Qed.

(** The switch in [s_header_field], the inner loop done. *)
Definition field_after (n : Z) (c : Z) (x : http_parser) (e : exec U) : exec U :=
  set_ch c (set_p (p e + n) (set_prs (set_nread (nread x + n) x) e)).

Lemma switch_field data (e : exec U) n x c :
  p_state e = s_header_field -> 0 <= n -> 0 <= nread x -> nread x + n < 2 ^ 32 ->
  header_field_loop (drop (Z.to_nat (p e)) data) e =
    Val tt (set_ch c (set_p (p e + n) (set_prs x e))) ->
  switch_state st data e =
    let e' := field_after n c x e in
    if HTTP_MAX_HEADER_SIZE <? nread x + n
    then Exit XError (set_prs (set_perrno HPE_HEADER_OVERFLOW (prs e')) e')
    else if p e + n =? zlen data then Val tt (set_p (p e + n - 1) e')
    else if c =? #":" then
      (UPDATE_STATE s_header_value_discard_ws ;;; CALLBACK_DATA st data header_field) e'
    else fail HPE_INVALID_HEADER_TOKEN e'.
Proof.
  intros Hs Hn Hx Hle E. unfold switch_state, case_s_header_field, bind at 1 2 3 4, gets. rewrite Hs.
  rewrite E. unfold COUNT_HEADER_SIZE, upd, bind, gets, modify, ret. norm.
  replace (p e + n - p e) with n by lia. rewrite wrap_small by lia.
  cbv zeta. unfold field_after. norm.
  destruct (HTTP_MAX_HEADER_SIZE <? nread x + n); [done|].
  destruct (p e + n =? zlen data); [done|].
  cbn [ch set_prs set_ch]. by destruct (c =? #":").
Qed.

(** One byte of a name, alone: it is counted twice. *)
Lemma call_field b x y u :
  perrno x = HPE_OK -> parser_ok x -> pstate x = s_header_field -> TOKEN b <> 0 ->
  header_field_step x b (TOKEN b) = Some y -> 
  overflowed (http_parser_execute st [b] x u) \/
  http_parser_execute st [b] x u =
    Returned 1 (set_pstate s_header_field (set_nread (nread x + 2) y)) (cb_data o header_field x [b] u) /\
  parser_ok (set_pstate s_header_field (set_nread (nread x + 2) y)).
Proof.
  intros Hx Hok Hs Ht Hstep. destruct (Hok (or_introl Hx)) as [Hf _].
  pose proof (ok_nread _ Hf) as Hnr.
  set (e1 := mk_exec (set_nread (nread x + 1) x) u s_header_field 0 b (Some 0) None None None None).
  assert (Ei : exec_init x u = mk_exec x u s_header_field 0 0 (Some 0) None None None None)
    by (unfold exec_init; by rewrite Hs).
  assert (E : exec_byte st [b] (exec_init x u) =
    if HTTP_MAX_HEADER_SIZE <? nread x + 1
    then Exit XError (set_prs (set_perrno HPE_HEADER_OVERFLOW (prs e1)) e1)
    else run_switch st [b] reexecute_fuel e1).
  { rewrite Ei, exec_byte_eq by apply Hf. done. }
  destruct (Z.ltb_spec HTTP_MAX_HEADER_SIZE (nread x + 1)) as [Hov|Hle].
  { left. rewrite (call_exit o b x u _ _ Hx E). by eexists _, _, _. }
  assert (Hloop : header_field_loop (drop (Z.to_nat (p e1)) [b]) e1 =
    Val tt (set_ch b (set_p (p e1 + 1) (set_prs (set_nread (nread x + 1) y) e1)))).
  { simpl. unfold bind, modify, gets. norm. rewrite (proj2 (Z.eqb_neq _ _) Ht).
    pose proof (field_step_like (pstate x) (nread x + 1) x b (TOKEN b)) as Hl.
    replace (set_pstate (pstate x) (set_nread (nread x + 1) x)) with (set_nread (nread x + 1) x)
      in Hl by (by destruct x).
    change (prs (set_ch b e1)) with (set_nread (nread x + 1) x). rewrite Hl, Hstep. simpl.
    destruct (header_step_state _ _ _ _ Hstep) as (h & i & ->). by destruct x. }
  assert (Hy1 : nread (set_nread (nread x + 1) y) = nread x + 1) by done.
  pose proof (switch_field [b] e1 1 (set_nread (nread x + 1) y) b eq_refl ltac:(lia)
    ltac:(simpl; lia) ltac:(simpl; unfold HTTP_MAX_HEADER_SIZE in *; lia) Hloop) as Esw.
  cbv zeta in Esw. rewrite Hy1 in Esw. replace (nread x + 1 + 1) with (nread x + 2) in Esw by lia.
  change reexecute_fuel with (S 7) in E.
  destruct (Z.ltb_spec HTTP_MAX_HEADER_SIZE (nread x + 2)) as [Hov|Hle2].
  { left. assert (E2 : run_switch st [b] 8 e1 = Exit XError
      (set_prs (set_perrno HPE_HEADER_OVERFLOW (prs (field_after 1 b (set_nread (nread x + 1) y) e1)))
        (field_after 1 b (set_nread (nread x + 1) y) e1))) by (cbn [run_switch]; by rewrite Esw).
    rewrite E2 in E. rewrite (call_exit o b x u _ _ Hx E). by eexists _, _, _. }
  right. change (p e1 + 1 =? zlen [b]) with true in Esw. cbv iota in Esw.
  rewrite (run_val o [b] 7 _ _ Esw) in E.
  destruct (call_val o Ho b x u _ Hx Hok E) as (Ec & Hi & _).
  pose proof (inv_parser_ok _ Hi) as Hok1.
  assert (Hfin : set_pstate s_header_field (set_nread (nread x + 2) y) =
    set_pstate (p_state (set_p (p e1 + 1 - 1) (field_after 1 b (set_nread (nread x + 1) y) e1)))
      (prs (set_p (p e1 + 1 - 1) (field_after 1 b (set_nread (nread x + 1) y) e1)))).
  { unfold field_after. simpl. by replace (nread x + 1 + 1) with (nread x + 2) by lia. }
  rewrite Hfin. split; [|exact Hok1]. by rewrite Ec.
Qed.
(** The inner loop takes the longest run [t] of name characters, and so do the
    calls with one byte, unless the header gets too large for them. *)
Definition field_update (x : http_parser) (h : header_states) (i : Z) : http_parser :=
  set_header_state h (set_index i x).

Lemma field_sim l : forall (e : exec U) n u1 k,
  let x1 := set_pstate s_header_field (set_nread n (prs e)) in
  0 <= k -> nread (prs e) - 1 + 2 * k <= n -> parser_ok x1 -> perrno x1 = HPE_OK ->
  (exists t r, l = t ++ r /\ runs_over t x1 u1) \/
  exists t r h i c n', l = t ++ r /\
    header_field_loop l e = Val tt (set_ch c (set_p (p e + zlen t)
      (set_prs (field_update (prs e) h i) e))) /\
    let x1' := set_pstate s_header_field (set_nread n' (field_update (prs e) h i)) in
    goes t x1 u1 x1' (deliver header_field x1 t u1) /\ parser_ok x1' /\
    nread (prs e) - 1 + 2 * (k + zlen t) <= n' /\
    (r = [] \/ exists b r', r = b :: r' /\ TOKEN b = 0 /\ c = b).
Proof.
  induction l as [|b l IH]; intros e n u1 k x1 Hk Hn Hok He.
  - right. exists [], [], (header_state (prs e)), (index (prs e)), (ch e), n.
    assert (Hu : field_update (prs e) (header_state (prs e)) (index (prs e)) = prs e)
      by (unfold field_update; by destruct (prs e)).
    change (zlen (@nil Z)) with 0. rewrite !Z.add_0_r, Hu.
    split; [done|]. split; [by destruct e|].
    split; [apply goes_nil|]. split; [done|]. split; [lia|by left].
  - destruct (decide (TOKEN b = 0)) as [Ht|Ht].
    { right. exists [], (b :: l), (header_state (prs e)), (index (prs e)), b, n.
      assert (Hu : field_update (prs e) (header_state (prs e)) (index (prs e)) = prs e)
        by (unfold field_update; by destruct (prs e)).
      change (zlen (@nil Z)) with 0. rewrite !Z.add_0_r, Hu. split; [done|].
      split; [cbn [header_field_loop]; unfold bind, modify, ret; rewrite Ht; by destruct e|].
      split; [apply goes_nil|]. split; [done|]. split; [lia|]. right. by exists b, l. }
    destruct (Hok (or_introl He)) as [Hf Hst].
    destruct (field_step_ok (prs e) b (TOKEN b)) as (h & i & Estep & _ & _).
    { exact Hst. } { exact (ok_index _ Hf). }
    fold (field_update (prs e) h i) in Estep.
    assert (Estep1 : header_field_step x1 b (TOKEN b) =
      Some (set_pstate s_header_field (set_nread n (field_update (prs e) h i))))
      by (unfold x1; by rewrite field_step_like, Estep).
    destruct (call_field b x1 _ u1 He Hok eq_refl Ht Estep1) as [Hov|[Ec Hok1]].
    { left. exists [b], l. split; [done|]. by apply runs_over_here. }
    set (e2 := set_p (p e + 1) (set_prs (field_update (prs e) h i) (set_ch b e))).
    assert (Eloop : header_field_loop (b :: l) e = header_field_loop l e2).
    { cbn [header_field_loop]. unfold bind, modify, gets. rewrite (proj2 (Z.eqb_neq _ _) Ht).
      unfold bind, gets. change (prs (set_ch b e)) with (prs e). by rewrite Estep. }
    assert (Hm : more (set_pstate s_header_field (set_nread (nread x1 + 2)
      (set_pstate s_header_field (set_nread n (field_update (prs e) h i))))) = true).
    { unfold more, upgraded. simpl. simpl in He. by rewrite He, andb_false_r. }
    destruct (IH e2 (n + 2) (cb_data o header_field x1 [b] u1) (k + 1)) as
      [(t & r & -> & Hov)|(t & r & h2 & i2 & c & n' & -> & E & Hg & Hok2 & Hn' & Hr)]; try done.
    { lia. } { simpl. lia. }
    + left. exists (b :: t), r. split; [done|]. eapply runs_over_cons; [exact Ec|exact Hm|exact Hov].
    + right. exists (b :: t), r, h2, i2, c, n'. split; [done|].
      rewrite zlen_cons. cbv zeta. split_and!.
      * rewrite Eloop, E. simpl. by replace (p e + (1 + zlen t)) with (p e + 1 + zlen t) by lia.
      * eapply goes_cons; [exact Ec|exact Hm|].
        replace (deliver header_field x1 (b :: t) u1) with
          (deliver header_field (set_pstate s_header_field (set_nread (n + 2) (prs e2))) t
             (cb_data o header_field x1 [b] u1)); [exact Hg|].
        destruct t as [|b' t]; [done|].
        cbn [deliver]. rewrite (cb_data_status o Ho header_field _ x1) by done.
        by rewrite <- (so_data o Ho).
      * exact Hok2.
      * simpl in Hn'. lia.
      * exact Hr.
Qed.
Lemma deliver_app f x a b u : deliver f x b (deliver f x a u) = deliver f x (a ++ b) u.
Proof.
  destruct b as [|c b]; [by rewrite app_nil_r|]. 
  rewrite !(deliver_some o f x (_ ++ _)), (deliver_some o f x (c :: b)), (deliver_cb o Ho); try done.
  by destruct a.
Qed.

Lemma drop_rest (data t r : bytes) q : 0 <= q -> drop (Z.to_nat q) data = t ++ r ->
  r = drop (Z.to_nat (q + zlen t)) data.
Proof.
  intros Hq E. pose proof (zlen_nonneg t). rewrite Z2Nat.inj_add, <- drop_drop, E by lia.
  unfold zlen. by rewrite Nat2Z.id, drop_app_length.
Qed.

Lemma both_once data b f Q X (e e1 : exec U) :
  both (switch_state st data) (switch_state st [b]) Q X e e1 ->
  (forall x x1 a a1, X x x1 a a1 -> x <> XReexecute /\ x1 <> XReexecute) ->
  both (run_switch st data (S f)) (run_switch st [b] (S f)) Q X e e1.
Proof.
  intros H HX. unfold both, wp in *. cbn [run_switch].
  destruct (switch_state st data e) as [[] e'|x e'], (switch_state st [b] e1) as [[] e1'|x1 e1'];
    try done; try (by destruct x1); try (by destruct x).
  destruct (HX _ _ _ _ H). by destruct x, x1.
Qed.

(** The name is over: both runs look at the character after it. *)
Lemma both_field_end data q b (e e1 : exec U) n c x x1 :
  0 <= q < zlen data ->
  p e + n = q -> p e1 = 0 -> like x x1 -> perrno x = HPE_OK -> c = b ->
  header_value_mark e = None -> url_mark e = None -> body_mark e = None -> status_mark e = None ->
  header_value_mark e1 = None -> url_mark e1 = None -> body_mark e1 = None -> status_mark e1 = None ->
  (exists m, header_field_mark e = Some m /\ 0 <= m <= q) -> header_field_mark e1 = Some 0 ->
  p_state e1 = p_state e ->
  usr e1 = owed o data q (field_after n c x e) (usr e) ->
  nread x + n <= nread x1 ->
  both (if c =? #":" then UPDATE_STATE s_header_value_discard_ws ;;; CALLBACK_DATA st data header_field
        else fail HPE_INVALID_HEADER_TOKEN)
       (if b =? #":" then UPDATE_STATE s_header_value_discard_ws ;;; CALLBACK_DATA st [b] header_field
        else fail HPE_INVALID_HEADER_TOKEN)
    (sim_val o data q) (stop_exit o data q) (field_after n c x e) (field_after 0 b x1 e1).
Proof.
  intros Hq Hp Hp1 (s & k & Hx & Hk) He -> A1 A2 A3 A4 B1 B2 B3 B4 (m & A5 & Hm) B5 Hs Hu Hn.
  destruct e as [y u s0 q0 c0 m1 m2 m3 m4 m5], e1 as [y1 u1 s1 q1 c1 k1 k2 k3 k4 k5]. norm. subst.
  unfold field_after, owed in *. norm.
  destruct x as [ty fl ps hs ix nr cl ma mi sc me er up]. norm. subst er.
  unfold both. destruct (b =? #":") eqn:Eb; repeat sim_step;
    unfold stop_exit, sim_val, sim_exit, mid, marks_like, marked, quiet, like, owed; norm; try split_and!; sim_url.
  all: try sim_goal.
  all: eexists _, (k + 0); split; [reflexivity|lia].
Qed.
Lemma mark_eq_dec (f g : mark) : f = g \/ f <> g.
Proof. destruct f, g; first [left; reflexivity | right; discriminate]. Qed.

(** At the end of the data in the middle of a name or a value. *)
Lemma head_marked data f m (e : exec U) x1 u1 :
  initial_mark (p_state e) = Some f -> start_of (p_state e) = false -> inv 0 e ->
  p e <= zlen data -> parser_ok x1 -> pstate x1 = p_state e -> like (prs e) x1 ->
  get_mark f e = Some m -> m < zlen data -> (forall g, g <> f -> get_mark g e = None) ->
  u1 = deliver f (prs e) (slice data m (zlen data - m)) (usr e) ->
  head o data (zlen data) (set_p (zlen data) e) x1 u1.
Proof.
  intros Hf Hst Hi Hp Hok Hs Hl Hm Hlt Hno Hu. pose proof (zlen_nonneg data).
  constructor; try done.
  - destruct Hi as (? & ? & ? & M1 & M2 & M3 & M4 & M5). unfold inv. norm.
    split_and!; try done; (eapply mark_ok_le; [eassumption|lia]).
  - unfold quiet, upgraded. norm. rewrite Hst. apply andb_false_r.
  - unfold marked. norm. rewrite Hf. change (get_mark f e <> None). by rewrite Hm.
  - subst u1. change (deliver f (prs e) (slice data m (zlen data - m)) (usr e) =
      owed o data (zlen data) e (usr e)).
    unfold owed. destruct f; rewrite Hm; try rewrite (Hno header_field) by discriminate;
      try rewrite (Hno header_value) by discriminate; try rewrite (Hno url) by discriminate;
      try rewrite (Hno body) by discriminate; try rewrite (Hno status) by discriminate; reflexivity.
  - intros g k Hk. left. change (get_mark g e = Some k) in Hk.
    destruct (mark_eq_dec g f) as [->|Hne].
    + rewrite Hm in Hk. by injection Hk as <-.
    + by rewrite Hno in Hk.
Qed.

Lemma field_step data q (e : exec U) x1 u1 :
  head o data q e x1 u1 -> q < zlen data -> p_state e = s_header_field ->
  (forall q', q < q' <= zlen data -> rest_ok o data q') -> sim_from o data q e x1 u1.
Proof.
  intros Hh Hlt Hs IH. pose proof Hh as [Hq Hp Hi Hqu Hmk Hok Hps Hl Hu Hm].
  pose proof (head_perrno o data q e x1 u1 Hh) as Hx1.
  destruct (head_byte o Ho data q e x1 u1 _ Hh Hlt eq_refl) as [Hov|(E & _ & Hi0 & _ & _)].
  { apply (agree_over o data q e x1 u1 [znth data q 0]); [apply drop_byte; lia|].
    by apply runs_over_here. }
  set (e0 := counted (znth data q 0) e) in *.
  assert (He0 : prs e0 = set_nread (nread (prs e) + 1) (prs e) /\ p e0 = q /\
    p_state e0 = s_header_field /\ usr e0 = usr e /\ forall f, get_mark f e0 = get_mark f e)
    by (unfold e0, counted; rewrite Hs; done).
  destruct He0 as (He0 & Hp0 & Hs0 & Hu0 & Hm0). clearbody e0.
  destruct Hl as (s & n & Hx & Hn). rewrite Hs in Hps.
  assert (Ex1 : x1 = set_pstate s_header_field (set_nread n (prs e0))).
  { rewrite He0, Hx. rewrite Hx in Hps. simpl in Hps. rewrite Hps. by destruct (prs e). }
  destruct (field_sim (drop (Z.to_nat q) data) e0 n u1 0) as
    [(t & r & Hd & Hov)|(t & r & h & i & c & n' & Hd & Eloop & Hg & Hok1 & Hn' & Hr)];
    try (rewrite <- Ex1; done); [lia|rewrite He0; simpl; lia| |].
  { apply (agree_over o data q e x1 u1 t); [|by rewrite Ex1].
    by rewrite <- (drop_rest data t r q) by (done || lia). }
  rewrite <- Ex1 in Hg. set (x1' := set_pstate s_header_field (set_nread n' (field_update (prs e0) h i))) in *.
  pose proof (zlen_nonneg t) as Ht.
  assert (Hnr : 0 <= nread (prs e0) <= HTTP_MAX_HEADER_SIZE) by apply Hi0.
  assert (Hn2 : 0 <= n' <= HTTP_MAX_HEADER_SIZE).
  { assert (running x1') as Hrun by (left; change (perrno (prs e0) = HPE_OK); rewrite He0; apply Hi).
    exact (ok_nread _ (proj1 (Hok1 Hrun))). }
  rewrite <- Hp0 in Eloop.
  pose proof (switch_field data e0 (zlen t) (field_update (prs e0) h i) c Hs0 Ht ltac:(simpl; lia)
    ltac:(simpl; unfold HTTP_MAX_HEADER_SIZE in *; lia) Eloop) as Esw. cbv zeta in Esw.
  rewrite Hp0 in Esw. simpl nread in Esw.
  assert (Hle : nread (prs e0) + zlen t <= HTTP_MAX_HEADER_SIZE) by lia.
  rewrite (proj2 (Z.ltb_ge _ _) Hle) in Esw.
  assert (Hmf : exists m, header_field_mark e = Some m /\ m <= q /\ (m < q \/ q = 0)).
  { unfold marked in Hmk. rewrite Hs in Hmk. simpl in Hmk.
    destruct (header_field_mark e) as [m|] eqn:Em; [|done]. exists m. split; [done|].
    destruct (Hm header_field m Em) as [|[-> _]]; [lia|].
    destruct Hi as (_ & _ & _ & M1 & _). rewrite Em, Hp in M1. destruct M1. lia. }
  destruct Hmf as (m & Em & Hmq & Hmq').
  assert (Hnone : header_value_mark e = None /\ url_mark e = None /\ body_mark e = None /\
    status_mark e = None).
  { destruct Hi as (_ & _ & _ & _ & M2 & M3 & M4 & M5). rewrite Hs in *.
    split_and!; eapply mark_none; eauto. }
  destruct Hnone as (N2 & N3 & N4 & N5).
  assert (Hm0' : 0 <= m).
  { destruct Hi as (_ & _ & _ & M1 & _). rewrite Em in M1. destruct M1. lia. }
  assert (Hou : deliver header_field x1 t u1 =
    deliver header_field (prs e0) (slice data m (q + zlen t - m)) (usr e)).
  { rewrite Hu. unfold owed. simpl. rewrite Em, N2, N3, N4, N5.
    rewrite (deliver_status o Ho header_field x1 (prs e)) by (by rewrite Hx).
    rewrite deliver_app. rewrite (deliver_status o Ho header_field (prs e) (prs e0)) by (by rewrite He0).
    f_equal. replace (q + zlen t - m) with ((q - m) + zlen t) by lia. rewrite slice_add by lia.
    f_equal. replace (m + (q - m)) with q by lia. unfold slice. rewrite Hd.
    unfold zlen. by rewrite Nat2Z.id, take_app_length. }
  destruct Hr as [->|(b & r' & -> & Hb & ->)].
  - rewrite app_nil_r in Hd.
    assert (Hz : q + zlen t = zlen data).
    { rewrite <- Hd. unfold zlen. rewrite length_drop. unfold zlen in *. lia. }
    assert (Ht0 : t <> []).
    { intros ->. rewrite zlen_nil in Hz. lia. }
    assert (Ht1 : 1 <= zlen t) by (destruct t; [done|rewrite zlen_cons; pose proof (zlen_nonneg t); lia]).
    rewrite (proj2 (Z.eqb_eq _ _) Hz) in Esw. change reexecute_fuel with (S 7) in E.
    rewrite (run_val o data 7 _ _ Esw) in E.
    pose proof (exec_byte_ok st data (observe_ok o) e Hi ltac:(lia)) as Hw.
    unfold wp in Hw. rewrite E in Hw. destruct Hw as [Hi' _].
    eapply (sim_next o data q e _ t); try exact E; try exact Hg; try done; try lia.
    + simpl. lia.
    + rewrite Hz. rewrite (drop_ge data (Z.to_nat (zlen data))) by (unfold zlen; lia).
      by rewrite app_nil_r.
    + apply IH; [lia|]. clear IH E Esw Hg. rewrite Hz in *.
      apply (head_marked data header_field m); try done; try (simpl; lia).
      * simpl; try rewrite Hs0; reflexivity.
      * simpl; try rewrite Hs0; reflexivity.
      * exists s_header_field, n'. split; [by destruct (prs e0)|simpl; lia].
      * change (get_mark header_field e0 = Some m). by rewrite Hm0.
      * intros g Hg. change (get_mark g e0 = None). rewrite Hm0. by destruct g.
      * rewrite Hou. simpl. rewrite Hu0. by apply (deliver_status o Ho).
  - assert (Hb' : q + zlen t < zlen data).
    { apply (f_equal zlen) in Hd. rewrite zlen_app, zlen_cons in Hd.
      assert (zlen (drop (Z.to_nat q) data) = zlen data - q)
        by (unfold zlen in *; rewrite length_drop; lia). pose proof (zlen_nonneg r'). lia. }
    set (u1' := deliver header_field x1 t u1) in *.
    set (R1 := mk_exec (set_nread (n' + 1) x1') u1' s_header_field 0 b (Some 0) None None None None).
    assert (Hx1' : perrno x1' = HPE_OK) by (change (perrno (prs e0) = HPE_OK); rewrite He0; apply Hi).
    assert (E1 : exec_byte st [b] (exec_init x1' u1') =
      if HTTP_MAX_HEADER_SIZE <? n' + 1
      then Exit XError (set_prs (set_perrno HPE_HEADER_OVERFLOW (prs R1)) R1)
      else run_switch st [b] reexecute_fuel R1).
    { rewrite exec_byte_eq; [done|]. change (0 <= n' <= HTTP_MAX_HEADER_SIZE). lia. }
    assert (Hdb : drop (Z.to_nat q) data = t ++ b :: drop (Z.to_nat (q + zlen t + 1)) data).
    { rewrite Hd. do 2 f_equal. pose proof (drop_rest data (t ++ [b]) r' q (proj1 Hq)) as A.
      rewrite <- app_assoc, zlen_app in A. change (zlen [b]) with 1 in A.
      rewrite Z.add_assoc in A. by apply A. }
    destruct (Z.ltb_spec HTTP_MAX_HEADER_SIZE (n' + 1)) as [Hov|Hle2].
    { apply (agree_over o data q e x1 u1 (t ++ [b])).
      - rewrite zlen_app. change (zlen [b]) with 1. rewrite Z.add_assoc, <- app_assoc. exact Hdb.
      - intros l k. rewrite <- app_assoc, Hg. apply (feed_overflow o [b]).
        rewrite (call_exit o b x1' u1' _ _ Hx1' E1). by eexists _, _, _. }
    assert (Eloop1 : header_field_loop (drop (Z.to_nat (p R1)) [b]) R1 =
      Val tt (set_ch b (set_p (p R1 + 0) (set_prs (prs R1) R1)))).
    { simpl. unfold bind, modify, ret. by rewrite Hb. }
    pose proof (switch_field [b] R1 0 (prs R1) b eq_refl ltac:(lia) ltac:(unfold R1; simpl; lia)
      ltac:(unfold R1, HTTP_MAX_HEADER_SIZE in *; simpl; lia) Eloop1) as Esw1. cbv zeta in Esw1.
    change (nread (prs R1) + 0) with (n' + 1 + 0) in Esw1.
    rewrite (proj2 (Z.ltb_ge HTTP_MAX_HEADER_SIZE (n' + 1 + 0)) ltac:(lia)) in Esw1.
    change (p R1 + 0 =? zlen [b]) with false in Esw1. cbv iota in Esw1.
    rewrite (proj2 (Z.eqb_neq (q + zlen t) (zlen data)) ltac:(lia)) in Esw.
    apply (after_byte o Ho data q t b e x1 u1 x1' u1');
      [exact Hp|lia|exact Hb'|exact Hi|exact Hdb|exact Hg|exact Hx1'|exact Hok1| |apply IH; lia].
    unfold both, wp. rewrite E, E1.
    apply (both_once data b 7 (sim_val o data (q + zlen t)) (stop_exit o data (q + zlen t)) e0 R1).
    2:{ intros x y a a1 [Hsim Hx2]. destruct x, y; done. }
    unfold both, wp. rewrite Esw, Esw1. clear E E1 Esw Esw1 Hg.
    pose proof (both_field_end data (q + zlen t) b e0 R1 (zlen t) b (field_update (prs e0) h i) (prs R1)) as Hbe.
    pose proof (Hm0 header_field) as A1. pose proof (Hm0 header_value) as A2.
    pose proof (Hm0 url) as A3. pose proof (Hm0 body) as A4. pose proof (Hm0 status) as A5.
    simpl in A1, A2, A3, A4, A5.
    unfold both, wp in Hbe.
    destruct (b =? #":"); apply Hbe; clear Hbe; rewrite ?A1, ?A2, ?A3, ?A4, ?Em, ?N2;
      try (exists m; split; [done|lia]); try done; try lia; try congruence.
    all: try (exists s_header_field, (n' + 1); split; [by destruct (prs e0)|simpl; lia]).
    all: try (simpl; lia).
    all: unfold owed; simpl; rewrite A1, A2, A3, A4, A5, Em, N2, N3, N4, N5, Hu0.
    all: change (u1' = deliver header_field
           (set_nread (nread (prs e0) + zlen t) (field_update (prs e0) h i))
           (slice data m (q + zlen t - m)) (usr e)); rewrite Hou; by apply (deliver_status o Ho).
Qed.

(** ** Header values *)

Definition value_update (x : http_parser) (g ix cl : Z) : http_parser :=
  set_flags (Z.lor (flags x) g) (set_index ix (set_content_length cl x)).

(** One character of a value does the same in any data: a new header state, more
    flags, a new index and content length, or an error. *)
Definition step_to (h : header_states) (b ix cl : Z) (h' : header_states) (g ix' cl' : Z) : Prop :=
  forall d (e : exec U), index (prs e) = ix -> content_length (prs e) = cl ->
    p_state e = s_header_value ->
    header_value_step d h b (LOWER b) e = Val h' (set_prs (value_update (prs e) g ix' cl') e).
Definition step_fails (h : header_states) (b ix cl : Z) : Prop :=
  forall d (e : exec U), index (prs e) = ix -> content_length (prs e) = cl ->
    p_state e = s_header_value ->
    header_value_step d h b (LOWER b) e =
      Exit XError (set_prs (set_header_state h (set_perrno HPE_INVALID_CONTENT_LENGTH (prs e))) e).

Lemma value_update_same x : value_update x 0 (index x) (content_length x) = x.
Proof. unfold value_update. rewrite Z.lor_0_r. by destruct x. Qed.

Lemma match_value_eq s c cur bad fin (e : exec U) : 0 <= index (prs e) ->
  exists h, match_value s c cur bad fin e =
    Val h (set_prs (set_index (wrap 8 (index (prs e) + 1)) (prs e)) e) /\
  match_const s (wrap 8 (index (prs e) + 1)) c cur bad fin = Some h.
Proof.
  intros Hi. unfold match_value, bind, upd, modify, gets. norm.
  pose proof (u8_range (index (prs e) + 1)).
  destruct (match_const_ok s (wrap 8 (index (prs e) + 1)) c cur bad fin) as (h & E & _); [lia|].
  exists h. by rewrite E.
Qed.

Lemma step_matches s h b ix cl bad fin : 0 <= ix ->
  (forall d (e : exec U), header_value_step d h b (LOWER b) e = match_value s (LOWER b) h bad fin e) ->
  exists h' g ix' cl', step_to h b ix cl h' g ix' cl'.
Proof.
  intros Hix H. destruct (match_const_ok s (wrap 8 (ix + 1)) (LOWER b) h bad fin) as (h' & Eh & _).
  { pose proof (u8_range (ix + 1)). lia. }
  exists h', 0, (wrap 8 (ix + 1)), cl. intros d e <- <- _. rewrite H.
  destruct (match_value_eq s (LOWER b) h bad fin e Hix) as (h2 & -> & E2). rewrite Eh in E2.
  injection E2 as <-. unfold value_update. rewrite Z.lor_0_r. by destruct (prs e).
Qed.

Lemma step_same h b ix cl h' :
  (forall d (e : exec U), p_state e = s_header_value -> header_value_step d h b (LOWER b) e = Val h' e) ->
  step_to h b ix cl h' 0 ix cl.
Proof.
  intros H d e <- <- Hs. rewrite H by done. rewrite value_update_same. by destruct e.
Qed.

Lemma step_flags h b ix cl :
  match h with
  | h_connection_keep_alive | h_connection_close | h_connection_upgrade => true
  | _ => false
  end = true -> (b =? #",") = true ->
  exists h' g ix' cl', step_to h b ix cl h' g ix' cl'.
Proof.
  intros Hh Eb. exists h_matching_connection_token_start, (connection_flag h), 0, cl.
  intros d e <- <- Hs. unfold header_value_step. rewrite Eb.
  destruct h; try discriminate; unfold bind, upd, modify, ret, value_update; by destruct (prs e).
Qed.

Lemma step_pure h b ix cl : value_hs h = true -> h <> h_general -> 0 <= ix ->
  (exists h' g ix' cl', step_to h b ix cl h' g ix' cl') \/ step_fails h b ix cl.
Proof.
  intros Hh Hg Hix. destruct h; try discriminate; try done.
  all: try (left; eapply step_matches; [done|reflexivity]).
  all: try (left; eexists _, 0, ix, cl; apply step_same; intros d e Hs; destruct e; simpl in *; subst; reflexivity).
  all: try (left; destruct (b =? #",") eqn:Eb;
    [|eexists _, 0, ix, cl; apply step_same; intros d e Hs; unfold header_value_step; by rewrite Eb]).
  - destruct (b =? #" ") eqn:Eb.
    { left. eexists _, 0, ix, cl. apply step_same. intros d e Hs. unfold header_value_step. by rewrite Eb. }
    destruct (IS_NUM b) eqn:En.
    2:{ right. intros d e <- <- Hs. unfold header_value_step. rewrite Eb, En. cbn [negb].
        unfold bind, SET_ERRNO, upd, modify, goto_error, jump. by destruct e. }
    destruct ((ULLONG_MAX - 10) / 10 <? cl) eqn:Ec.
    + right. intros d e <- <- Hs. unfold header_value_step. rewrite Eb, En. cbn [negb].
      unfold bind, gets. rewrite Ec. unfold SET_ERRNO, upd, modify, goto_error, jump. by destruct e.
    + left. exists h_content_length, 0, ix, (u64 (u64 (cl * 10) + (b - #"0"))).
      intros d e <- <- Hs. unfold header_value_step. rewrite Eb, En. cbn [negb].
      unfold bind, gets. rewrite Ec. unfold upd, modify, ret, value_update. rewrite Z.lor_0_r.
      by destruct (prs e).
  - exists h_matching_connection_token_start, 0, 0, cl. intros d e <- <- Hs.
    unfold header_value_step. rewrite Eb. unfold bind, upd, modify, ret, value_update.
    rewrite Z.lor_0_r. by destruct (prs e).
  - eapply step_flags; [reflexivity|done].
  - eapply step_flags; [reflexivity|done].
  - eapply step_flags; [reflexivity|done].
Qed.

(** *** The jump over a value that means nothing to the parser *)

Definition line_byte (b : Z) : Prop := b <> CR /\ b <> LF.

Lemma memchr_none_before l c n r : memchr l c n = r ->
  forall i b, l !! i = Some b -> (i < n)%nat ->
    match r with Some k => Z.of_nat i < k | None => True end -> b <> c.
Proof.
  revert n r. induction l as [|a l IH]; intros [|n] r E i b Hi Hn Hr; simpl in *; try done; [lia|].
  destruct (Z.eqb_spec a c) as [->|Hac].
  { subst r. lia. }
  destruct i as [|i]; [by injection Hi as <-|].
  eapply (IH n (memchr l c n) eq_refl i b); [done|lia|].
  destruct (memchr l c n) as [k|]; subst r; simpl in Hr; [lia|done].
Qed.

(** From [q] on there is no end of line up to the end of the jump, or in the
    first [HTTP_MAX_HEADER_SIZE] bytes. *)
Lemma skip_general_spec data q : 0 <= q < zlen data -> line_byte (znth data q 0) ->
  q <= skip_general data q < zlen data /\
  ((forall i, q <= i <= skip_general data q -> line_byte (znth data i 0)) \/
   q + HTTP_MAX_HEADER_SIZE <= zlen data /\
   forall i, q <= i < q + HTTP_MAX_HEADER_SIZE -> line_byte (znth data i 0)).
Proof.
  intros Hq [Hcr Hlf]. pose proof (skip_general_range data q Hq Hcr Hlf) as Hr. split; [done|].
  set (limit := Z.to_nat (Z.min (zlen data - q) HTTP_MAX_HEADER_SIZE)).
  set (l := drop (Z.to_nat q) data).
  assert (Hl : forall i, q <= i < zlen data -> l !! Z.to_nat (i - q) = Some (znth data i 0)).
  { intros i Hi. unfold l. rewrite lookup_drop. unfold zlen in Hi.
    destruct (lookup_lt_is_Some_2 data (Z.to_nat i)) as [b Hb]; [lia|].
    rewrite (znth_lookup data i 0 b ltac:(lia) Hb), <- Hb. f_equal. lia. }
  assert (Hlim : forall i, q <= i < zlen data -> i < q + HTTP_MAX_HEADER_SIZE -> (Z.to_nat (i - q) < limit)%nat)
    by (unfold limit; lia).
  assert (Hno : forall i c, q <= i < zlen data -> i < q + HTTP_MAX_HEADER_SIZE ->
    match memchr l c limit with Some k => i - q < k | None => True end -> znth data i 0 <> c).
  { intros i c Hi Hm Hk. eapply (memchr_none_before l c limit _ eq_refl); [by apply Hl|auto|].
    destruct (memchr l c limit); [lia|done]. }
  assert (Hran : forall c k, memchr l c limit = Some k -> k < HTTP_MAX_HEADER_SIZE)
    by (intros c k E; apply memchr_range in E; unfold limit in E; lia).
  unfold skip_general in *. fold limit l in Hr |- *.
  destruct (memchr l CR limit) as [cr|] eqn:E1, (memchr l LF limit) as [lf|] eqn:E2.
  - left. pose proof (Hran _ _ E1). pose proof (Hran _ _ E2). intros i Hi. split; apply Hno;
      rewrite ?E1, ?E2; destruct (Z.leb_spec lf cr); lia.
  - left. pose proof (Hran _ _ E1). intros i Hi. split; apply Hno; rewrite ?E1, ?E2; lia || done.
  - left. pose proof (Hran _ _ E2). intros i Hi. split; apply Hno; rewrite ?E1, ?E2; lia || done.
  - destruct (Z.le_gt_cases (q + HTTP_MAX_HEADER_SIZE) (zlen data)) as [Hle|Hgt].
    + right. split; [done|]. intros i Hi. split; apply Hno; rewrite ?E1, ?E2; lia || done.
    + left. intros i Hi. split; apply Hno; rewrite ?E1, ?E2; lia || done.
Qed.

(** *** The switch in [s_header_value], the inner loop done *)

Definition value_after (n : Z) (h : header_states) (e : exec U) : exec U :=
  set_prs (set_nread (nread (prs e) + n) (set_header_state h (prs e))) e.

Lemma switch_value data (e : exec U) h e' :
  p_state e = s_header_value -> p e <= p e' ->
  header_value_loop st data (Z.to_nat (zlen data - p e)) (p e) (header_state (prs e)) e = Val h e' ->
  0 <= nread (prs e') -> nread (prs e') + (p e' - p e) < 2 ^ 32 ->
  switch_state st data e =
    let e2 := value_after (p e' - p e) h e' in
    if HTTP_MAX_HEADER_SIZE <? nread (prs e') + (p e' - p e)
    then Exit XError (set_prs (set_perrno HPE_HEADER_OVERFLOW (prs e2)) e2)
    else if p e' =? zlen data then Val tt (set_p (p e' - 1) e2) else Val tt e2.
Proof.
  intros Hs Hp E Hn Hlt. unfold switch_state, case_s_header_value, bind at 1 2 3 4 5, gets. rewrite Hs, E.
  unfold COUNT_HEADER_SIZE, upd, bind, gets, modify, ret, value_after. norm.
  rewrite wrap_small by lia.
  destruct (HTTP_MAX_HEADER_SIZE <? nread (prs e') + (p e' - p e)); [done|].
  by destruct (p e' =? zlen data).
Qed.

Lemma switch_value_exit data (e : exec U) x e' :
  p_state e = s_header_value ->
  header_value_loop st data (Z.to_nat (zlen data - p e)) (p e) (header_state (prs e)) e = Exit x e' ->
  switch_state st data e = Exit x e'.
Proof.
  intros Hs E. unfold switch_state, case_s_header_value, bind at 1 2 3 4 5, gets. by rewrite Hs, E.
Qed.

(** One round of the inner loop. *)
Lemma value_loop_step data f start h (e : exec U) h' e' :
  p e <> zlen data -> line_byte (znth data (p e) 0) ->
  header_value_step data h (znth data (p e) 0) (LOWER (znth data (p e) 0))
    (set_ch (znth data (p e) 0) e) = Val h' e' ->
  header_value_loop st data (S f) start h e = header_value_loop st data f start h' (set_p (p e' + 1) e').
Proof.
  intros Hp [Hcr Hlf] E. cbn [header_value_loop]. unfold bind at 1, gets.
  rewrite (proj2 (Z.eqb_neq _ _) Hp). unfold bind at 1, modify.
  rewrite (proj2 (Z.eqb_neq _ _) Hcr), (proj2 (Z.eqb_neq _ _) Hlf). unfold bind at 1.
  rewrite E. done.
Qed.

Lemma value_loop_end data f start h (e : exec U) : p e = zlen data ->
  header_value_loop st data f start h e = Val h e.
Proof. intros Hp. destruct f; cbn [header_value_loop]; unfold bind, gets; by rewrite Hp, Z.eqb_refl. Qed.

(** One byte of a value, alone. *)
Lemma call_value b x u h' g ix cl :
  perrno x = HPE_OK -> parser_ok x -> pstate x = s_header_value -> line_byte b ->
  (forall e : exec U, p e = 0 -> p_state e = s_header_value ->
    prs e = set_nread (nread x + 1) x ->
    header_value_step [b] (header_state x) b (LOWER b) e =
      Val h' (set_prs (value_update (prs e) g ix cl) e)) ->
  let y := set_pstate s_header_value
    (set_nread (nread x + 2) (set_header_state h' (value_update x g ix cl))) in
  overflowed (http_parser_execute st [b] x u) \/
  http_parser_execute st [b] x u = Returned 1 y (cb_data o header_value x [b] u) /\ parser_ok y.
Proof.
  intros Hx Hok Hs Hb Hstep y. destruct (Hok (or_introl Hx)) as [Hf _].
  pose proof (ok_nread _ Hf) as Hnr.
  set (e1 := mk_exec (set_nread (nread x + 1) x) u s_header_value 0 b None (Some 0) None None None).
  assert (Ei : exec_init x u = mk_exec x u s_header_value 0 0 None (Some 0) None None None)
    by (unfold exec_init; by rewrite Hs).
  assert (E : exec_byte st [b] (exec_init x u) =
    if HTTP_MAX_HEADER_SIZE <? nread x + 1
    then Exit XError (set_prs (set_perrno HPE_HEADER_OVERFLOW (prs e1)) e1)
    else run_switch st [b] reexecute_fuel e1).
  { rewrite Ei, exec_byte_eq by apply Hf. done. }
  destruct (Z.ltb_spec HTTP_MAX_HEADER_SIZE (nread x + 1)) as [Hov|Hle].
  { left. rewrite (call_exit o b x u _ _ Hx E). by eexists _, _, _. }
  set (e2 := set_p 1 (set_prs (value_update (set_nread (nread x + 1) x) g ix cl) e1)).
  assert (Hloop : header_value_loop st [b] (Z.to_nat (zlen [b] - p e1)) (p e1)
    (header_state (prs e1)) e1 = Val h' e2).
  { change (Z.to_nat (zlen [b] - p e1)) with 1%nat.
    rewrite (value_loop_step [b] 0 (p e1) _ e1 h' (set_prs (value_update (prs e1) g ix cl) e1)).
    - by apply value_loop_end.
    - done.
    - done.
    - change (znth [b] (p e1) 0) with b. change (header_state (prs e1)) with (header_state x).
      by rewrite Hstep. }
  pose proof (switch_value [b] e1 h' e2 eq_refl ltac:(unfold e1, e2; simpl; lia) Hloop
    ltac:(unfold e2; simpl; lia) ltac:(unfold e1, e2, HTTP_MAX_HEADER_SIZE in *; simpl; lia)) as Esw.
  cbv zeta in Esw. change (nread (prs e2) + (p e2 - p e1)) with (nread x + 1 + 1) in Esw.
  replace (nread x + 1 + 1) with (nread x + 2) in Esw by lia.
  change reexecute_fuel with (S 7) in E.
  destruct (Z.ltb_spec HTTP_MAX_HEADER_SIZE (nread x + 2)) as [Hov|Hle2].
  { left. cbn [run_switch] in E. rewrite Esw in E.
    rewrite (call_exit o b x u _ _ Hx E). by eexists _, _, _. }
  right. change (p e2 =? zlen [b]) with true in Esw. cbv iota in Esw.
  rewrite (run_val o [b] 7 _ _ Esw) in E.
  destruct (call_val o Ho b x u _ Hx Hok E) as (Ec & Hi & _).
  pose proof (inv_parser_ok _ Hi) as Hok1.
  assert (Hfin : y = set_pstate (p_state (set_p (p e2 - 1) (value_after (p e2 - p e1) h' e2)))
      (prs (set_p (p e2 - 1) (value_after (p e2 - p e1) h' e2)))).
  { unfold y, value_after. simpl. replace (nread x + 1 + (1 - 0)) with (nread x + 2) by lia.
    by destruct x. }
  rewrite Hfin. split; [|exact Hok1]. by rewrite Ec.
Qed.

Lemma goes_app t t' x u x' u' x'' u'' :
  goes t x u x' u' -> goes t' x' u' x'' u'' -> goes (t ++ t') x u x'' u''.
Proof.
  intros H1 H2 l n. rewrite <- app_assoc, H1, H2. f_equal. rewrite zlen_app. lia.
Qed.

Lemma runs_over_after t t' x u x' u' :
  goes t x u x' u' -> runs_over t' x' u' -> runs_over (t ++ t') x u.
Proof. intros H1 H2 l n. rewrite <- app_assoc, H1. apply H2. Qed.

Lemma deliver_cons f x x' b t u : status_code x' = status_code x ->
  deliver f x' t (cb_data o f x [b] u) = deliver f x (b :: t) u.
Proof.
  intros H. destruct t as [|c t]; [done|]. rewrite !(deliver_some o) by done.
  rewrite (cb_data_status o Ho f x' x) by done. by rewrite <- (so_data o Ho).
Qed.

Lemma skip_one b : line_byte b -> skip_general [b] 0 = 0.
Proof.
  intros [Hcr Hlf]. unfold skip_general. change (zlen [b]) with 1.
  assert (HTTP_MAX_HEADER_SIZE = 81920) as -> by done. simpl.
  by rewrite (proj2 (Z.eqb_neq _ _) Hcr), (proj2 (Z.eqb_neq _ _) Hlf).
Qed.

(** Bytes that mean nothing, one by one. *)
Lemma general_goes t : forall x u, Forall line_byte t -> perrno x = HPE_OK -> parser_ok x ->
  pstate x = s_header_value -> header_state x = h_general ->
  runs_over t x u \/
  goes t x u (set_nread (nread x + 2 * zlen t) x) (deliver header_value x t u) /\
  parser_ok (set_nread (nread x + 2 * zlen t) x).
Proof.
  induction t as [|b t IH]; intros x u Ht Hx Hok Hs Hh.
  { right. change (zlen (@nil Z)) with 0. replace (nread x + 2 * 0) with (nread x) by lia. rewrite nread_eta.
    split; [apply goes_nil|done]. }
  apply Forall_cons in Ht as [Hb Ht].
  destruct (call_value b x u h_general 0 (index x) (content_length x) Hx Hok Hs Hb) as [Hov|[Ec Hok1]].
  { intros e Hp Hse Hpe. rewrite Hh. unfold header_value_step, bind, modify, ret.
    rewrite Hp, skip_one by done.
    assert (Hsame : value_update (prs e) 0 (index x) (content_length x) = prs e)
      by (rewrite Hpe; unfold value_update; rewrite Z.lor_0_r; by destruct x).
    rewrite Hsame. destruct e; simpl in *; by subst. }
  { left. by apply runs_over_here. }
  assert (Ey : set_pstate s_header_value (set_nread (nread x + 2)
      (set_header_state h_general (value_update x 0 (index x) (content_length x)))) =
    set_nread (nread x + 2) x).
  { rewrite value_update_same, <- Hs, <- Hh. by destruct x. }
  rewrite Ey in Ec, Hok1.
  assert (Hm : more (set_nread (nread x + 2) x) = true).
  { unfold more, upgraded. simpl. rewrite Hx, Hs. by rewrite andb_false_r. }
  destruct (IH (set_nread (nread x + 2) x) (cb_data o header_value x [b] u)) as [Hov|[Hg Hok2]];
    try done.
  - left. eapply runs_over_cons; [exact Ec|exact Hm|exact Hov].
  - right. rewrite zlen_cons. simpl nread in Hg, Hok2.
    replace (nread x + 2 + 2 * zlen t) with (nread x + 2 * (1 + zlen t)) in * by lia.
    split; [|by destruct x].
    eapply goes_cons; [exact Ec|exact Hm|]. rewrite deliver_cons in Hg by done. by destruct x.
Qed.

Lemma value_update_add x g ix cl g' ix' cl' :
  value_update (value_update x g ix cl) g' ix' cl' = value_update x (Z.lor g g') ix' cl'.
Proof. unfold value_update. simpl. by rewrite Z.lor_assoc. Qed.

(** *** The inner loop against the calls with one byte *)

(** The parser that has been given the value up to here byte by byte: [n] is its
    count, the run on the data holds the header state [h] in a local variable. *)
Definition fed_value (n : Z) (h : header_states) (x : http_parser) : http_parser :=
  set_pstate s_header_value (set_nread n (set_header_state h x)).

(** The inner loop has reached a byte at which it leaves. *)
Definition leaves (h : header_states) (b ix cl : Z) : Prop :=
  b = CR \/ b = LF \/ line_byte b /\ value_hs h = true /\ step_fails h b ix cl.

Definition value_goes (data : bytes) (f : nat) (start : Z) (h : header_states) (e : exec U)
  (n : Z) (u1 : U) (k : Z) : Prop :=
  let x1 := fed_value n h (prs e) in
  exists t r h' g ix cl n' c f', drop (Z.to_nat (p e)) data = t ++ r /\
    let e' := set_ch c (set_p (p e + zlen t) (set_prs (value_update (prs e) g ix cl) e)) in
    let x1' := fed_value n' h' (value_update (prs e) g ix cl) in
    header_value_loop st data f start h e = header_value_loop st data f' start h' e' /\
    (Z.to_nat (zlen data - p e') <= f')%nat /\
    goes t x1 u1 x1' (deliver header_value x1 t u1) /\ parser_ok x1' /\
    nread (prs e) - 1 + 2 * (k + zlen t) <= n' /\
    (r = [] \/ exists b r', r = b :: r' /\ leaves h' b ix cl).

Lemma fed_value_hs n h x : perrno x = HPE_OK -> parser_ok (fed_value n h x) -> value_hs h = true.
Proof. intros Hx Hok. apply (Hok (or_introl Hx)). Qed.

(** Nothing is taken. *)
Lemma value_goes_none data f start h e n u1 k :
  (Z.to_nat (zlen data - p e) <= f)%nat -> parser_ok (fed_value n h (prs e)) ->
  nread (prs e) - 1 + 2 * k <= n ->
  (drop (Z.to_nat (p e)) data = [] \/
   exists b r', drop (Z.to_nat (p e)) data = b :: r' /\
     leaves h b (index (prs e)) (content_length (prs e))) ->
  value_goes data f start h e n u1 k.
Proof.
  intros Hf Hok Hn Hr. exists [], (drop (Z.to_nat (p e)) data), h, 0, (index (prs e)),
    (content_length (prs e)), n, (ch e), f.
  cbv zeta. rewrite value_update_same. change (zlen (@nil Z)) with 0. rewrite !Z.add_0_r.
  split_and!; try done.
  - by destruct e.
  - apply goes_nil.
Qed.

(** Some bytes are taken, then the rest. *)
Lemma value_goes_more data f f2 start h h2 e n n2 u1 k t g ix cl c :
  0 <= p e ->
  drop (Z.to_nat (p e)) data = t ++ drop (Z.to_nat (p e + zlen t)) data ->
  let e2 := set_ch c (set_p (p e + zlen t) (set_prs (value_update (prs e) g ix cl) e)) in
  header_value_loop st data f start h e = header_value_loop st data f2 start h2 e2 ->
  goes t (fed_value n h (prs e)) u1 (fed_value n2 h2 (prs e2))
    (deliver header_value (fed_value n h (prs e)) t u1) ->
  value_goes data f2 start h2 e2 n2 (deliver header_value (fed_value n h (prs e)) t u1) (k + zlen t) ->
  value_goes data f start h e n u1 k.
Proof.
  intros Hp Hd e2 E Hg (t' & r & h' & g' & ix' & cl' & n' & c' & f' & Hd' & H).
  cbv zeta in H. destruct H as (E' & Hf' & Hg' & Hok & Hn & Hr).
  assert (Hpr : prs e2 = value_update (prs e) g ix cl) by done. rewrite Hpr, value_update_add in *.
  exists (t ++ t'), r, h', (Z.lor g g'), ix', cl', n', c', f'. cbv zeta. split_and!; try done.
  - rewrite Hd. change (p e2) with (p e + zlen t) in Hd'. by rewrite Hd', app_assoc.
  - rewrite E, E'. rewrite zlen_app, Z.add_assoc. done.
  - simpl in Hf' |- *. by rewrite zlen_app, Z.add_assoc.
  - rewrite (deliver_status o Ho header_value (fed_value n2 h2 (value_update (prs e) g ix cl))
      (fed_value n h (prs e))) in Hg' by done.
    rewrite deliver_app in Hg'. by eapply goes_app.
  - simpl in Hn. rewrite zlen_app. lia.
Qed.

Lemma Forall_slice (P : Z -> Prop) data q n : 0 <= q -> q + n <= zlen data ->
  (forall i, q <= i < q + n -> P (znth data i 0)) -> Forall P (slice data q n).
Proof.
  intros Hq Hn H. apply Forall_lookup. intros i b Hb.
  assert (Hi : Z.of_nat i < n).
  { apply lookup_lt_Some in Hb. unfold slice in Hb. rewrite length_take in Hb. lia. }
  rewrite lookup_slice in Hb. rewrite decide_True in Hb by lia.
  rewrite <- (znth_lookup data (q + Z.of_nat i) 0 b); [apply H; lia|lia|].
  rewrite <- Hb. f_equal. lia.
Qed.

Lemma line_byte_dec b : b = CR \/ b = LF \/ line_byte b.
Proof.
  unfold line_byte. destruct (Z.eq_dec b CR); [by left|]. destruct (Z.eq_dec b LF); tauto.
Qed.

Lemma value_sim data f : forall start h e n u1 k,
  0 <= p e <= zlen data -> (Z.to_nat (zlen data - p e) <= f)%nat ->
  p_state e = s_header_value -> perrno (prs e) = HPE_OK -> parser_ok (fed_value n h (prs e)) ->
  0 <= k -> nread (prs e) - 1 + 2 * k <= n ->
  (exists t, drop (Z.to_nat (p e)) data = t ++ drop (Z.to_nat (p e + zlen t)) data /\
     runs_over t (fed_value n h (prs e)) u1) \/
  value_goes data f start h e n u1 k.
Proof.
  induction f as [|f IH]; intros start h e n u1 k Hp Hf Hs He Hok Hk Hn.
  { right. apply value_goes_none; try done. left. apply drop_ge. unfold zlen in *. lia. }
  destruct (decide (p e = zlen data)) as [Hend|Hlt].
  { right. apply value_goes_none; try done. left. apply drop_ge. unfold zlen in *. lia. }
  pose proof (fed_value_hs n h (prs e) He Hok) as Hh.
  assert (Hfx : perrno (fed_value n h (prs e)) = HPE_OK) by done.
  destruct (Hok (or_introl Hfx)) as [Hfo _].
  set (b := znth data (p e) 0).
  assert (Hd : drop (Z.to_nat (p e)) data = b :: drop (Z.to_nat (p e + 1)) data)
    by (apply drop_byte; lia).
  assert (Hleave : leaves h b (index (prs e)) (content_length (prs e)) ->
    value_goes data (S f) start h e n u1 k).
  { intros Hl. apply value_goes_none; try done. right. eexists _, _. split; [exact Hd|exact Hl]. }
  destruct (line_byte_dec b) as [Hb|[Hb|Hb]]; [right; apply Hleave; by left|right; apply Hleave; right; by left|].
  destruct (decide (h = h_general)) as [->|Hg].
  - (* the jump *)
    destruct (skip_general_spec data (p e) ltac:(lia) Hb) as [Hr Hl].
    set (s := skip_general data (p e)) in *.
    destruct Hl as [Hl|[Hle Hl]].
    + set (t := slice data (p e) (s + 1 - p e)).
      assert (Hz : zlen t = s + 1 - p e) by (apply zlen_slice; lia).
      assert (Hdt : drop (Z.to_nat (p e)) data = t ++ drop (Z.to_nat (p e + zlen t)) data)
        by (rewrite Hz; apply drop_slice; lia).
      destruct (general_goes t (fed_value n h_general (prs e)) u1) as [Hov|[Hgo Hok2]]; try done.
      { apply Forall_slice; [lia|lia|]. intros i Hi. apply Hl. lia. }
      { left. by exists t. }
      set (e2 := set_ch b (set_p (p e + zlen t) (set_prs
        (value_update (prs e) 0 (index (prs e)) (content_length (prs e))) e))).
      assert (Hpr : prs e2 = prs e) by (unfold e2; apply value_update_same).
      assert (E : header_value_loop st data (S f) start h_general e =
        header_value_loop st data f start h_general e2).
      { rewrite (value_loop_step data f start h_general e h_general (set_p s (set_ch b e))).
        - f_equal. unfold e2. rewrite value_update_same. rewrite Hz. simpl.
          replace (p e + (s + 1 - p e)) with (s + 1) by lia. by destruct e.
        - done.
        - exact Hb.
        - reflexivity. }
      assert (Hok3 : parser_ok (fed_value (n + 2 * zlen t) h_general (prs e2)))
        by (rewrite Hpr; exact Hok2).
      assert (Hgo' : goes t (fed_value n h_general (prs e)) u1 (fed_value (n + 2 * zlen t) h_general (prs e2))
        (deliver header_value (fed_value n h_general (prs e)) t u1)) by (rewrite Hpr; exact Hgo).
      destruct (IH start h_general e2 (n + 2 * zlen t)
        (deliver header_value (fed_value n h_general (prs e)) t u1) (k + zlen t)) as [(t' & Hd' & Hov)|Hv];
        try done; try (rewrite Hpr; done); try (rewrite Hpr; lia); try (simpl; lia).
      * left. exists (t ++ t'). split.
        -- rewrite Hdt at 1. simpl in Hd'. rewrite Hd' at 1. rewrite zlen_app, Z.add_assoc. by rewrite app_assoc.
        -- by eapply runs_over_after.
      * right. eapply (value_goes_more data (S f) f start h_general h_general e n _ u1 k t 0 (index (prs e))
          (content_length (prs e)) b); try done. lia.
    + set (t := slice data (p e) HTTP_MAX_HEADER_SIZE).
      assert (Hm : HTTP_MAX_HEADER_SIZE = 81920) by done.
      assert (Hz : zlen t = HTTP_MAX_HEADER_SIZE) by (apply zlen_slice; lia).
      left. exists t. split; [rewrite Hz; apply drop_slice; lia|].
      destruct (general_goes t (fed_value n h_general (prs e)) u1) as [Hov|[_ Hok2]]; try done.
      { apply Forall_slice; [lia|lia|]. intros i Hi. apply Hl. lia. }
      exfalso. pose proof (ok_nread _ (proj1 (Hok2 (or_introl He)))) as A.
      pose proof (ok_nread _ Hfo) as B. simpl in A, B. lia.
  - (* one character *)
    destruct (step_pure h b (index (prs e)) (content_length (prs e)) Hh Hg) as
      [(h' & g & ix & cl & Hst)|Hfail]; [apply (ok_index _ Hfo)| |].
    2:{ right. apply Hleave. right. right. done. }
    destruct (call_value b (fed_value n h (prs e)) u1 h' g ix cl Hfx Hok eq_refl Hb) as [Hov|[Ec Hok1]].
    { intros e1 _ Hs1 Hp1. apply Hst; rewrite ?Hp1; done. }
    { left. exists [b]. split; [exact Hd|]. by apply runs_over_here. }
    set (e2 := set_ch b (set_p (p e + zlen [b]) (set_prs (value_update (prs e) g ix cl) e))).
    assert (Ey : set_pstate s_header_value (set_nread (nread (fed_value n h (prs e)) + 2)
      (set_header_state h' (value_update (fed_value n h (prs e)) g ix cl))) =
      fed_value (n + 2) h' (prs e2)) by (unfold fed_value; simpl; by destruct (prs e)).
    rewrite Ey in Ec, Hok1.
    assert (Hm : more (fed_value (n + 2) h' (prs e2)) = true).
    { unfold more, upgraded. simpl. rewrite He, andb_false_r. done. }
    assert (E : header_value_loop st data (S f) start h e =
      header_value_loop st data f start h' e2).
    { rewrite (value_loop_step data f start h e h'
        (set_prs (value_update (prs (set_ch b e)) g ix cl) (set_ch b e)) Hlt Hb); [done|].
      by apply Hst. }
    assert (Hgo : goes [b] (fed_value n h (prs e)) u1 (fed_value (n + 2) h' (prs e2))
      (deliver header_value (fed_value n h (prs e)) [b] u1)).
    { eapply goes_cons; [exact Ec|exact Hm|apply goes_nil]. }
    destruct (IH start h' e2 (n + 2) (deliver header_value (fed_value n h (prs e)) [b] u1) (k + 1))
      as [(t' & Hd' & Hov)|Hv]; try done;
      try (change (p e2) with (p e + 1)); try (simpl; lia).
    + left. exists (b :: t'). split.
      * change (p e2) with (p e + 1) in Hd'. rewrite Hd. cbn [app]. f_equal. rewrite zlen_cons.
        rewrite Hd' at 1. by rewrite Z.add_assoc.
      * change (b :: t') with ([b] ++ t'). by eapply runs_over_after.
    + right. eapply (value_goes_more data (S f) f start h h' e n (n + 2) u1 k [b] g ix cl b); try done. lia.
Qed.

(** *** The byte at which the inner loop leaves *)

(** The value is complete: its state is left and the callback is called. *)
Definition value_closed (data : bytes) (c m : Z) (y : http_parser) (e : exec U) : exec U :=
  let y := set_pstate s_header_almost_done y in
  set_mark header_value None (set_usr (cb_data o header_value y (slice data m (p e - m)) (usr e))
    (set_prs y (set_p_state s_header_almost_done (set_ch c e)))).

Lemma value_cr data f start h m (e : exec U) :
  p e <> zlen data -> znth data (p e) 0 = CR -> perrno (prs e) = HPE_OK ->
  header_value_mark e = Some m -> 0 <= m <= p e -> p e <= zlen data ->
  header_value_loop st data (S f) start h e =
    Val h (value_closed data CR m (set_header_state h (prs e)) e).
Proof.
  intros Hp Hb He Hm Hmp Hpl.
  enough (H : wp (header_value_loop st data (S f) start h) (fun h' e' => h' = h /\
    e' = value_closed data CR m (set_header_state h (prs e)) e) (fun _ _ => False) e).
  { unfold wp in H. destruct (header_value_loop st data (S f) start h e) as [h' e'|]; [|done].
    by destruct H as [-> ->]. }
  cbn [header_value_loop]. do 2 wp_base. rewrite (proj2 (Z.eqb_neq _ _) Hp), Hb. do 2 wp_base.
  change (CR =? CR) with true. cbv iota. do 5 wp_base. wp_base. wp_base. wp_base.
  eapply wp_data_all; [exact He|exact Hm|apply in_data_true; norm; lia|]. wp_base. split; [done|].
  unfold value_closed. by destruct e.
Qed.

Lemma value_lf data f start h m (e : exec U) :
  p e <> zlen data -> znth data (p e) 0 = LF -> perrno (prs e) = HPE_OK ->
  header_value_mark e = Some m -> 0 <= m <= p e -> p e <= zlen data -> 0 <= nread (prs e) + (p e - start) <= HTTP_MAX_HEADER_SIZE ->
  header_value_loop st data (S f) start h e =
    Exit XReexecute (value_closed data LF m
      (set_header_state h (set_nread (nread (prs e) + (p e - start)) (prs e))) e).
Proof.
  intros Hp Hb He Hm Hmp Hpl Hn.
  enough (H : wp (header_value_loop st data (S f) start h) (fun _ _ => False)
    (fun x e' => x = XReexecute /\ e' = value_closed data LF m
      (set_header_state h (set_nread (nread (prs e) + (p e - start)) (prs e))) e) e).
  { unfold wp in H. destruct (header_value_loop st data (S f) start h e) as [|x e']; [done|].
    by destruct H as [-> ->]. }
  cbn [header_value_loop]. do 2 wp_base. rewrite (proj2 (Z.eqb_neq _ _) Hp), Hb. do 2 wp_base.
  change (LF =? CR) with false. change (LF =? LF) with true. cbv iota. do 3 wp_base.
  do 6 wp_base. rewrite wrap_small by (unfold HTTP_MAX_HEADER_SIZE in *; lia).
  rewrite (proj2 (Z.ltb_ge _ _)) by lia. do 4 wp_base. do 2 wp_base.
  eapply wp_data_all; [exact He|exact Hm|apply in_data_true; norm; lia|]. wp_base. wp_base. split; [done|].
  unfold value_closed. by destruct e.
Qed.

Lemma value_fail data f start h b (e : exec U) :
  p e <> zlen data -> znth data (p e) 0 = b -> line_byte b ->
  step_fails h b (index (prs e)) (content_length (prs e)) -> p_state e = s_header_value ->
  header_value_loop st data (S f) start h e =
    Exit XError (set_prs (set_header_state h (set_perrno HPE_INVALID_CONTENT_LENGTH (prs e)))
      (set_ch b e)).
Proof.
  intros Hp Hb [Hcr Hlf] Hst Hs. cbn [header_value_loop]. unfold bind at 1, gets.
  rewrite (proj2 (Z.eqb_neq _ _) Hp), Hb. unfold bind at 1, modify.
  rewrite (proj2 (Z.eqb_neq _ _) Hcr), (proj2 (Z.eqb_neq _ _) Hlf). unfold bind at 1.
  by rewrite Hst.
Qed.

Definition only_value (e : exec U) : Prop :=
  header_field_mark e = None /\ url_mark e = None /\ body_mark e = None /\ status_mark e = None.

Lemma mid_closed data q b c m y y1 z z1 (e e1 : exec U) :
  like z z1 -> status_code y1 = status_code y -> p e = q -> p e1 = 0 ->
  only_value e -> only_value e1 ->
  usr e1 = deliver header_value y (slice data m (q - m)) (usr e) ->
  mid o data q (set_prs z (value_closed data c m y e)) (set_prs z1 (value_closed [b] c 0 y1 e1)).
Proof.
  intros Hz Hy <- Hp1 (A1 & A2 & A3 & A4) (B1 & B2 & B3 & B4) Hu.
  destruct e as [x u s0 q0 c0 m1 m2 m3 m4 m5], e1 as [x1 u1 s1 q1 c1 k1 k2 k3 k4 k5]. norm. subst.
  unfold value_closed, mid, marks_like, quiet, upgraded, owed. norm.
  split_and!; try done.
  - rewrite (slice_nil [b]) by lia. by apply (cb_deliver o Ho).
  - apply andb_false_r.
Qed.

(** Both runs are past the bytes [t] of a value, at the byte [b]. *)
Record at_value (data : bytes) (q : Z) (b n m : Z) (h : header_states) (e e1 : exec U) : Prop := mk_at_value {
  av_q : 0 <= q < zlen data;
  av_b : znth data q 0 = b;
  av_p : p e = q;
  av_p1 : p e1 = 0;
  av_s : p_state e = s_header_value;
  av_s1 : p_state e1 = s_header_value;
  av_m : header_value_mark e = Some m;
  av_m1 : header_value_mark e1 = Some 0;
  av_mq : 0 <= m <= q;
  av_only : only_value e;
  av_only1 : only_value e1;
  av_usr : usr e1 = deliver header_value (prs e) (slice data m (q - m)) (usr e);
  av_ok : perrno (prs e) = HPE_OK;
  av_like : prs e1 = fed_value n h (prs e);
  av_n : 0 <= nread (prs e) }.

(** The rest of the case after the inner loop. *)
Definition value_tail (start : Z) (data : bytes) (h : header_states) : M U unit :=
  upd (set_header_state h) ;;;
  let* q := gets p in
  COUNT_HEADER_SIZE (q - start) ;;;
  if q =? zlen data then modify (set_p (q - 1)) else ret tt.

Lemma value_tail_eq start data h (e : exec U) :
  0 <= nread (prs e) + (p e - start) <= HTTP_MAX_HEADER_SIZE -> p e <> zlen data ->
  value_tail start data h e = Val tt (value_after (p e - start) h e).
Proof.
  intros Hn Hp. unfold value_tail, COUNT_HEADER_SIZE, upd, bind, gets, modify, ret, value_after. norm.
  rewrite wrap_small by (unfold HTTP_MAX_HEADER_SIZE in *; lia).
  rewrite (proj2 (Z.ltb_ge _ _)) by lia. by rewrite (proj2 (Z.eqb_neq _ _) Hp).
Qed.

Lemma both_value data q b n m h f f1 start (e e1 : exec U) :
  at_value data q b n m h e e1 -> leaves h b (index (prs e)) (content_length (prs e)) ->
  0 <= q - start -> nread (prs e) + (q - start) <= n -> n <= HTTP_MAX_HEADER_SIZE ->
  both (bind (header_value_loop st data (S f) start h) (value_tail start data))
       (bind (header_value_loop st [b] (S f1) 0 h) (value_tail 0 [b]))
    (sim_val o data q) (sim_exit o data q) e e1.
Proof.
  intros [Hq Hb Hp Hp1 Hs Hs1 Hm Hm1 Hmq Ho1 Ho2 Hu Hok Hl Hn0] Hlv Hst Hn Hmax.
  assert (Hok1 : perrno (prs e1) = HPE_OK) by (by rewrite Hl).
  assert (Hlike : like (set_header_state h (prs e)) (prs e1)).
  { exists s_header_value, n. split; [by rewrite Hl|simpl; lia]. }
  assert (Hlike1 : forall k k1, 0 <= k -> nread (prs e) + k <= n + k1 -> like
    (set_nread (nread (prs e) + k) (set_header_state h (prs e)))
    (set_nread (n + k1) (set_header_state h (prs e1)))).
  { intros k k1 ? ?. exists s_header_value, (n + k1). split; [|simpl; lia]. rewrite Hl.
    by destruct (prs e). }
  assert (Hn1 : nread (prs e1) = n) by (by rewrite Hl).
  assert (Hpz : p e <> zlen data) by lia.
  assert (Hpz1 : p e1 <> zlen [b]) by (rewrite Hp1; done).
  assert (Hb1 : znth [b] (p e1) 0 = b) by (by rewrite Hp1).
  assert (Hbd : znth data (p e) 0 = b) by (by rewrite Hp).
  assert (Hmp : 0 <= m <= p e) by lia. assert (Hpl : p e <= zlen data) by lia.
  assert (Hmp1 : 0 <= 0 <= p e1) by lia. assert (Hpl1 : p e1 <= zlen [b]) by (rewrite Hp1; done).
  unfold both, wp, bind. destruct Hlv as [->|[->|(Hlb & Hh & Hf)]].
  - rewrite (value_cr data f start h m e Hpz Hbd Hok Hm Hmp Hpl), (value_cr [CR] f1 0 h 0 e1 Hpz1 Hb1 Hok1 Hm1 Hmp1 Hpl1).
    rewrite (value_tail_eq start data), (value_tail_eq 0 [CR]);
      [|simpl; rewrite ?Hp1, ?Hn1; lia|exact Hpz1|simpl; rewrite Hp; lia|exact Hpz].
    change (p (value_closed data CR m (set_header_state h (prs e)) e)) with (p e).
    change (p (value_closed [CR] CR 0 (set_header_state h (prs e1)) e1)) with (p e1).
    rewrite Hp, Hp1. split; [|split; [exact I|intros _; apply Ho1]].
    apply (mid_closed data q CR CR m (set_header_state h (prs e)) (set_header_state h (prs e1))
      (set_nread (nread (prs e) + (q - start)) (set_header_state h (set_pstate s_header_almost_done (set_header_state h (prs e)))))
      (set_nread (nread (prs e1) + (0 - 0)) (set_header_state h (set_pstate s_header_almost_done (set_header_state h (prs e1)))))); try done.
    + exists s_header_almost_done, (n + 0). rewrite Hn1. split; [|simpl; lia].
      rewrite Hl. by destruct (prs e).
    + by rewrite Hl.
  - rewrite (value_lf data f start h m e), (value_lf [LF] f1 0 h 0 e1); try done; try lia.
    split; [|split; [exact I|done]]. rewrite Hp, Hp1.
    apply (mid_closed data q LF LF m (set_header_state h (set_nread (nread (prs e) + (q - start)) (prs e)))
       (set_header_state h (set_nread (nread (prs e1) + (0 - 0)) (prs e1)))
       (set_pstate s_header_almost_done (set_header_state h (set_nread (nread (prs e) + (q - start)) (prs e))))
       (set_pstate s_header_almost_done (set_header_state h (set_nread (nread (prs e1) + (0 - 0)) (prs e1))))); try done.
    + exists s_header_almost_done, (n + 0). rewrite Hn1. split; [|simpl; lia].
      rewrite Hl. by destruct (prs e).
    + by rewrite Hl.
  - rewrite (value_fail data f start h b e), (value_fail [b] f1 0 h b e1); try done.
    2: by rewrite Hl.
    simpl. split_and!; try done; try lia.
    + exists s_header_value, n. split; [|simpl; lia]. rewrite Hl. by destruct (prs e).
    + by rewrite Hs, Hs1.
Qed.

Lemma switch_value_bind data (e : exec U) : p_state e = s_header_value ->
  switch_state st data e =
  bind (header_value_loop st data (Z.to_nat (zlen data - p e)) (p e) (header_state (prs e)))
    (value_tail (p e) data) e.
Proof. intros Hs. unfold switch_state, bind at 1 2, gets at 1 2. by rewrite Hs. Qed.

(** A byte of a header alone, in terms of the switch. *)
Lemma call_counted b x u : perrno x = HPE_OK -> parser_ok x -> PARSING_HEADER (pstate x) = true ->
  overflowed (http_parser_execute st [b] x u) \/
  exec_byte st [b] (exec_init x u) =
    run_switch st [b] reexecute_fuel (counted b (exec_init x u)) /\
  inv 1 (counted b (exec_init x u)) /\ nread x + 1 <= HTTP_MAX_HEADER_SIZE.
Proof.
  intros Hx Hok Hph. pose proof (exec_init_ok x u Hx Hok) as Hi.
  assert (Hinit : p_state (exec_init x u) = pstate x /\ prs (exec_init x u) = x)
    by (unfold exec_init; by destruct (initial_mark (pstate x)) as [[]|]).
  destruct Hinit as [Hi1 Hi2].
  assert (E : exec_byte st [b] (exec_init x u) =
    let e' := counted b (exec_init x u) in
    if too_large (exec_init x u)
    then Exit XError (set_prs (set_perrno HPE_HEADER_OVERFLOW (prs e')) e')
    else run_switch st [b] reexecute_fuel e').
  { rewrite exec_byte_eq by apply Hi. by rewrite exec_init_p. }
  destruct (too_large (exec_init x u)) eqn:Et.
  - left. rewrite (call_exit o b x u _ _ Hx E). by eexists _, _, _.
  - right. split_and!; [exact E|by apply counted_inv|].
    unfold too_large in Et. rewrite Hi1, Hi2, Hph in Et. simpl in Et. by apply Z.ltb_ge in Et.
Qed.

(** From the switch to all its rounds on the byte. *)
Lemma both_run f data q b (e e1 : exec U) :
  0 <= q < zlen data -> inv 1 e -> inv 1 e1 -> 0 <= p e < zlen data -> p e1 = 0 ->
  (rank (p_state e) <= f)%nat ->
  both (switch_state st data) (switch_state st [b]) (sim_val o data q) (sim_exit o data q) e e1 ->
  both (run_switch st data (S f)) (run_switch st [b] (S f))
    (sim_val o data q) (stop_exit o data q) e e1.
Proof.
  intros Hq Hi Hi1 Hp Hp1 Hr H.
  pose proof (switch_ok st data (observe_ok o) e Hi Hp) as Hw.
  pose proof (switch_ok st [b] (observe_ok o) e1 Hi1 ltac:(rewrite Hp1; done)) as Hw1.
  unfold both, wp in *. cbn [run_switch].
  destruct (switch_state st data e) as [[] e'|x e'], (switch_state st [b] e1) as [[] e1'|x1 e1'];
    try done; destruct x, x1; try done.
  destruct H as (Hmid & Hmk & Hs & Hc), Hw as (Hi' & _ & Hr'), Hw1 as (Hi1' & _ & _).
  apply (run_sim o Ho f data q b e' e1'); try done. lia.
Qed.

Lemma value_tail_end start data h (e : exec U) :
  0 <= nread (prs e) + (p e - start) <= HTTP_MAX_HEADER_SIZE -> p e = zlen data ->
  value_tail start data h e = Val tt (set_p (p e - 1) (value_after (p e - start) h e)).
Proof.
  intros Hn Hp. unfold value_tail, COUNT_HEADER_SIZE, upd, bind, gets, modify, ret, value_after. norm.
  rewrite wrap_small by (unfold HTTP_MAX_HEADER_SIZE in *; lia).
  rewrite (proj2 (Z.ltb_ge _ _)) by lia. by rewrite (proj2 (Z.eqb_eq _ _) Hp).
Qed.

Lemma value_step data q (e : exec U) x1 u1 :
  head o data q e x1 u1 -> q < zlen data -> p_state e = s_header_value ->
  (forall q', q < q' <= zlen data -> rest_ok o data q') -> sim_from o data q e x1 u1.
Proof.
  intros Hh Hlt Hs IH. pose proof Hh as [Hq Hp Hi Hqu Hmk Hok Hps Hl Hu Hm].
  pose proof (head_perrno o data q e x1 u1 Hh) as Hx1.
  destruct (head_byte o Ho data q e x1 u1 _ Hh Hlt eq_refl) as [Hov|(E & _ & Hi0 & _ & _)].
  { apply (agree_over o data q e x1 u1 [znth data q 0]); [apply drop_byte; lia|].
    by apply runs_over_here. }
  set (e0 := counted (znth data q 0) e) in *.
  assert (He0 : prs e0 = set_nread (nread (prs e) + 1) (prs e) /\ p e0 = q /\
    p_state e0 = s_header_value /\ usr e0 = usr e /\ forall f, get_mark f e0 = get_mark f e)
    by (unfold e0, counted; rewrite Hs; done).
  destruct He0 as (He0 & Hp0 & Hs0 & Hu0 & Hm0). clearbody e0.
  destruct Hl as (s & n & Hx & Hn). rewrite Hs in Hps.
  assert (Ex1 : x1 = fed_value n (header_state (prs e0)) (prs e0)).
  { rewrite He0, Hx. rewrite Hx in Hps. simpl in Hps. rewrite Hps. by destruct (prs e). }
  set (h := header_state (prs e0)) in *.
  assert (Hok0 : perrno (prs e0) = HPE_OK) by apply Hi0.
  assert (Hmf : exists m, header_value_mark e = Some m /\ 0 <= m <= q /\ (m < q \/ q = 0)).
  { unfold marked in Hmk. rewrite Hs in Hmk. simpl in Hmk.
    destruct (header_value_mark e) as [m|] eqn:Em; [|done]. exists m. split; [done|].
    destruct Hi as (_ & _ & _ & _ & M1 & _). rewrite Em, Hp in M1. destruct M1.
    destruct (Hm header_value m Em) as [|[-> _]]; lia. }
  destruct Hmf as (m & Em & Hmq & Hmq').
  assert (Hnone : only_value e).
  { destruct Hi as (_ & _ & _ & M1 & _ & M3 & M4 & M5). rewrite Hs in *.
    unfold only_value. split_and!; eapply mark_none; eauto. }
  destruct (value_sim data (Z.to_nat (zlen data - q)) q h e0 n u1 0) as
    [(t & Hd & Hov)|(t & r & h' & g & ix & cl & n' & c & f' & Hd & H)];
    try (rewrite <- Ex1; done); try done; try lia.
  { rewrite He0. simpl. lia. }
  { apply (agree_over o data q e x1 u1 t); [by rewrite <- Hp0 at 1 2|by rewrite Ex1]. }
  cbv zeta in H. rewrite Hp0 in *. rewrite <- Ex1 in H.
  destruct H as (Eloop & Hf' & Hg & Hok1 & Hn' & Hr).
  set (x1' := fed_value n' h' (value_update (prs e0) g ix cl)) in *.
  set (e2 := set_ch c (set_p (q + zlen t) (set_prs (value_update (prs e0) g ix cl) e0))) in *.
  set (u1' := deliver header_value x1 t u1) in *.
  pose proof (zlen_nonneg t) as Ht.
  assert (Hn2 : 0 <= n' <= HTTP_MAX_HEADER_SIZE) by exact (ok_nread _ (proj1 (Hok1 (or_introl Hok0)))).
  assert (Hnr : 1 <= nread (prs e0) <= HTTP_MAX_HEADER_SIZE).
  { split; [rewrite He0; simpl; destruct Hi as (_ & Hfi & _); pose proof (ok_nread _ Hfi); lia|apply Hi0]. }
  assert (Hle : nread (prs e0) + zlen t <= HTTP_MAX_HEADER_SIZE) by lia.
  assert (Hou : u1' = deliver header_value (prs e2) (slice data m (q + zlen t - m)) (usr e)).
  { destruct Hnone as (N1 & N3 & N4 & N5). unfold u1'. rewrite Hu. unfold owed. simpl.
    rewrite Em, N1, N3, N4, N5.
    rewrite (deliver_status o Ho header_value x1 (prs e)) by (by rewrite Hx).
    rewrite deliver_app.
    rewrite (deliver_status o Ho header_value (prs e) (prs e2)) by (simpl; by rewrite He0).
    f_equal. replace (q + zlen t - m) with ((q - m) + zlen t) by lia. rewrite slice_add by lia.
    f_equal. replace (m + (q - m)) with q by lia. unfold slice. rewrite Hd.
    unfold zlen. by rewrite Nat2Z.id, take_app_length. }
  assert (Esw : switch_state st data e0 =
    bind (header_value_loop st data f' q h') (value_tail q data) e2).
  { rewrite switch_value_bind by done. rewrite Hp0. unfold bind. fold h. by rewrite Eloop. }
  assert (Hm2 : forall f, get_mark f e2 = get_mark f e) by (intros f; rewrite <- Hm0; by destruct f).
  destruct Hr as [->|(b & r' & -> & Hlv)].
  - rewrite app_nil_r in Hd.
    assert (Hz : q + zlen t = zlen data).
    { rewrite <- Hd. unfold zlen. rewrite length_drop. unfold zlen in *. lia. }
    assert (Ht0 : t <> []) by (intros ->; change (zlen (@nil Z)) with 0 in Hz; lia).
    assert (Ht1 : 1 <= zlen t) by (destruct t; [done|rewrite zlen_cons; pose proof (zlen_nonneg t); lia]).
    unfold bind in Esw. rewrite value_loop_end in Esw by exact Hz.
    rewrite value_tail_end in Esw; [|simpl; lia|exact Hz].
    change (p e2) with (q + zlen t) in Esw. replace (q + zlen t - q) with (zlen t) in Esw by lia.
    change reexecute_fuel with (S 7) in E. rewrite (run_val o data 7 _ _ Esw) in E.
    pose proof (exec_byte_ok st data (observe_ok o) e Hi ltac:(lia)) as Hw.
    unfold wp in Hw. rewrite E in Hw. destruct Hw as [Hi' _].
    apply (sim_next o data q e _ t x1 u1 x1' u1' (proj1 Hq) Hp E).
    + simpl. lia.
    + exact Ht0.
    + rewrite Hz. rewrite (drop_ge data (Z.to_nat (zlen data))) by (unfold zlen; lia).
      by rewrite app_nil_r.
    + exact Hg.
    + apply IH; [lia|]. clear IH E Esw Hg Eloop. rewrite Hz in *.
      apply (head_marked data header_value m); try done; try (simpl; lia).
      * simpl; try rewrite Hs0; reflexivity.
      * simpl; try rewrite Hs0; reflexivity.
      * exists s_header_value, n'. split; [by destruct (prs e0)|simpl; lia].
      * change (get_mark header_value e2 = Some m). by rewrite Hm2.
      * intros g' Hg. change (get_mark g' e2 = None). rewrite Hm2. by destruct g', Hnone as (? & ? & ? & ?).
      * rewrite Hou. simpl. rewrite Hu0. by apply (deliver_status o Ho).
    + lia.
  - assert (Hb' : q + zlen t < zlen data).
    { apply (f_equal zlen) in Hd. rewrite zlen_app, zlen_cons in Hd.
      assert (zlen (drop (Z.to_nat q) data) = zlen data - q)
        by (unfold zlen in *; rewrite length_drop; lia). pose proof (zlen_nonneg r'). lia. }
    assert (Hdb : drop (Z.to_nat q) data = t ++ b :: drop (Z.to_nat (q + zlen t + 1)) data).
    { rewrite Hd. do 2 f_equal. pose proof (drop_rest data (t ++ [b]) r' q (proj1 Hq)) as A.
      rewrite <- app_assoc, zlen_app in A. change (zlen [b]) with 1 in A.
      rewrite Z.add_assoc in A. by apply A. }
    assert (Hbz : znth data (q + zlen t) 0 = b).
    { pose proof (drop_byte data (q + zlen t) ltac:(lia)) as A.
      rewrite <- (drop_rest data t (b :: r') q (proj1 Hq) Hd) in A. by injection A. }
    assert (Hx1' : perrno x1' = HPE_OK) by exact Hok0.
    destruct (call_counted b x1' u1' Hx1' Hok1 eq_refl) as [Hov|(E1 & HiR & Hn3)].
    { apply (agree_over o data q e x1 u1 (t ++ [b])).
      - rewrite zlen_app. change (zlen [b]) with 1. rewrite Z.add_assoc, <- app_assoc. exact Hdb.
      - intros l k. rewrite <- app_assoc, Hg. by apply (feed_overflow o [b]). }
    set (R1 := counted b (exec_init x1' u1')) in *.
    assert (Hf2 : exists f2, f' = S f2) by (destruct f' as [|f2]; [simpl in Hf'; lia|by exists f2]).
    destruct Hf2 as [f2 ->].
    assert (Hav : at_value data (q + zlen t) b (n' + 1) m h' e2 R1).
    { constructor; try done; try (simpl; lia).
      - change (get_mark header_value e2 = Some m). by rewrite Hm2.
      - destruct Hnone as (N1 & N3 & N4 & N5). unfold only_value.
        change (get_mark header_field e2 = None /\ get_mark url e2 = None /\
          get_mark body e2 = None /\ get_mark status e2 = None). by rewrite !Hm2.
      - change (usr R1) with u1'. rewrite Hou. change (usr e2) with (usr e0). by rewrite Hu0. }
    pose proof (both_value data (q + zlen t) b (n' + 1) m h' f2 0 q e2 R1 Hav Hlv ltac:(lia)
      ltac:(simpl; lia) ltac:(change (nread x1') with n' in Hn3; lia)) as Hbv.
    apply (after_byte o Ho data q t b e x1 u1 x1' u1');
      [exact Hp|lia|exact Hb'|exact Hi|exact Hdb|exact Hg|exact Hx1'|exact Hok1| |apply IH; lia].
    unfold both, wp. rewrite E, E1. change reexecute_fuel with (S 7).
    apply (both_run 7 data (q + zlen t) b e0 R1); try done; try lia.
    { rewrite Hs0. vm_compute. lia. }
    unfold both, wp. rewrite Esw, (switch_value_bind [b] R1) by done. exact Hbv.
Qed.

(** ** A call and the calls with its bytes *)

Lemma state_cases (s : state) :
  simple s = true \/ s = s_header_field \/ s = s_header_value \/ body_state s = true.
Proof. destruct s; first [by left|by right; left|by right; right; left|by right; right; right]. Qed.

Lemma all_rest_ok data : 0 < zlen data -> forall q, 0 <= q <= zlen data -> rest_ok o data q.
Proof.
  intros Hd q Hq. remember (Z.to_nat (zlen data - q)) as n eqn:En.
  revert q Hq En. induction n as [n IHn] using lt_wf_ind. intros q Hq -> e x1 u1 Hh.
  destruct (decide (q = zlen data)) as [->|Hne]; [by apply (sim_end o Ho)|].
  assert (IH : forall q', q < q' <= zlen data -> rest_ok o data q').
  { intros q' Hq'. apply (IHn (Z.to_nat (zlen data - q'))); lia. }
  destruct (state_cases (p_state e)) as [Hs|[Hs|[Hs|Hs]]].
  - apply (simple_step o Ho); auto; [lia|]. apply IH. lia.
  - apply field_step; auto. lia.
  - apply value_step; auto. lia.
  - apply (body_step o Ho); auto. lia.
Qed.

Lemma init_head d x k u : d <> [] -> more x = true -> nread x <= k ->
  parser_ok x -> parser_ok (set_nread k x) ->
  head o d 0 (exec_init x u) (set_nread k x) u.
Proof.
  intros Hd Hm Hk Hok Hok1. unfold more in Hm. apply andb_prop in Hm as [Hx Hup].
  apply bool_decide_eq_true_1 in Hx. apply negb_true_iff in Hup.
  pose proof (zlen_nonneg d).
  assert (Hin : p_state (exec_init x u) = pstate x /\ prs (exec_init x u) = x /\
    usr (exec_init x u) = u /\ (forall f, initial_mark (pstate x) = Some f ->
      get_mark f (exec_init x u) = Some 0) /\ forall f m, get_mark f (exec_init x u) = Some m ->
      m = 0 /\ f <> body).
  { unfold exec_init. split_and!; try by destruct (initial_mark (pstate x)) as [[]|].
    - intros f ->. by destruct f.
    - intros f m. destruct (pstate x), f; try discriminate; intros [= <-]; split; done. }
  destruct Hin as (Es & Ep & Eu & Em & Em0).
  constructor; try done.
  - by rewrite exec_init_p.
  - by apply exec_init_ok.
  - unfold quiet. by rewrite Es, Ep.
  - unfold marked. rewrite Es. destruct (initial_mark (pstate x)) as [f|] eqn:E; [|done].
    rewrite (Em f eq_refl). discriminate.
  - exists (pstate x), k. rewrite Ep. split; [by destruct x|done].
  - rewrite Eu. unfold owed. repeat match goal with
    | |- context [match get_mark ?f ?e with _ => _ end] =>
        destruct (get_mark f e) eqn:?
    end; repeat match goal with
    | H : get_mark ?f _ = Some ?m |- _ => destruct (Em0 f m H) as [-> _]; clear H
    end; rewrite ?(slice_nil d) by lia; reflexivity.
  - intros f m Hf. right. split; [done|apply (Em0 f m Hf)].
Qed.

Lemma execute_agrees d x k u : d <> [] -> more x = true -> nread x <= k ->
  parser_ok x -> parser_ok (set_nread k x) ->
  agree (http_parser_execute st d x u) (feed o (singles d) 0 (set_nread k x) u).
Proof.
  intros Hd Hm Hk Hok Hok1.
  assert (Hz : 0 < zlen d) by (destruct d; [done|rewrite zlen_cons; pose proof (zlen_nonneg d); lia]).
  pose proof (all_rest_ok d Hz 0 ltac:(lia) _ _ _ (init_head d x k u Hd Hm Hk Hok Hok1)) as H.
  specialize (H (length d) ltac:(unfold zlen; lia)).
  assert (Hx : perrno x = HPE_OK).
  { unfold more in Hm. apply andb_prop in Hm as [Hx _]. by apply bool_decide_eq_true_1 in Hx. }
  unfold http_parser_execute. rewrite bool_decide_eq_true_2 by done. cbn [negb].
  rewrite (proj2 (Z.eqb_neq _ _)) by lia. exact H.
Qed.

(** ** Streams *)

Lemma feed_shift ds : forall n k x u,
  feed o ds (k + n) x u =
  match feed o ds n x u with Returned m y v => Returned (k + m) y v | r => r end.
Proof.
  induction ds as [|d ds IH]; intros n k x u; [done|]. cbn [feed].
  destruct (http_parser_execute st d x u) as [m y v| |]; try done.
  rewrite <- Z.add_assoc, IH. by destruct (more y).
Qed.

Lemma feed_app ds1 ds2 : forall n x u, more x = true ->
  feed o (ds1 ++ ds2) n x u =
  match feed o ds1 n x u with
  | Returned m y v => if more y then feed o ds2 m y v else Returned m y v
  | r => r
  end.
Proof.
  induction ds1 as [|d ds IH]; intros n x u Hm; cbn [app feed]; [by rewrite Hm|].
  destruct (http_parser_execute st d x u) as [m y v| |]; try done.
  destruct (more y) eqn:Hy; [by apply IH|]. by rewrite Hy.
Qed.

Lemma feed_ok ds : forall n x u, parser_ok x ->
  exists m y v, feed o ds n x u = Returned m y v /\ parser_ok y.
Proof.
  induction ds as [|d ds IH]; intros n x u Hok; [by eexists _, _, _|]. cbn [feed].
  destruct (execute_ok st d (observe_ok o) x u Hok) as (m & y & v & -> & _ & Hy & _).
  destruct (more y); [by apply IH|by eexists _, _, _].
Qed.

Lemma more_nread k x : more (set_nread k x) = more x.
Proof. done. Qed.

(** The pieces of a stream against its bytes. *)
Lemma feed_agrees ds : forall n x k u,
  Forall (fun d => d <> []) ds -> more x = true -> nread x <= k ->
  parser_ok x -> parser_ok (set_nread k x) ->
  agree (feed o ds n x u) (feed o (singles (concat ds)) n (set_nread k x) u).
Proof.
  induction ds as [|d ds IH]; intros n x k u Hne Hm Hk Hok Hok1.
  { right. exists n, x, u, k, u. by split_and!. }
  apply Forall_cons in Hne as [Hd Hne]. cbn [concat]. unfold singles. rewrite map_app.
  fold (singles d) (singles (concat ds)). rewrite feed_app by (by rewrite more_nread).
  pose proof (execute_agrees d x k u Hd Hm Hk Hok Hok1) as H. cbn [feed].
  pose proof (feed_shift (singles d) 0 n (set_nread k x) u) as Esh. rewrite Z.add_0_r in Esh.
  rewrite Esh. clear Esh.
  destruct (execute_ok st d (observe_ok o) x u Hok) as (m & y & v & E & _ & Hy & _).
  destruct (feed_ok (singles d) 0 (set_nread k x) u Hok1) as (m1 & y1 & v1 & E1 & Hy1).
  rewrite E, E1 in *.
  destruct H as [(m2 & y2 & v2 & [= <- <- <-] & Hov)|(m2 & y2 & v2 & k2 & w & [= <- <- <-] & [= -> -> ->] & Hle & Hu)].
  - left. assert (Hf : more y1 = false) by (unfold more; by rewrite Hov). rewrite Hf.
    by eexists _, _, _.
  - rewrite more_nread. destruct (more y) eqn:Hmy.
    + assert (Hx : perrno y = HPE_OK).
      { unfold more in Hmy. apply andb_prop in Hmy as [Hx _]. by apply bool_decide_eq_true_1 in Hx. }
      rewrite (Hu Hx). by apply IH.
    + right. by exists (n + m), y, v, k2, w.
Qed.
End Headers.
