(* ===== verification/HttpPieces.v ===== *)
(** * Feeding the HTTP parser piece by piece: the theorems

    The result of a stream does not depend on how it is cut into pieces; requests
    are read back however they arrive; the callbacks of HTTPParser are such that
    this holds for them. *)

From S2P Require Import Prelude.
From S2P Require Import Words.
From S2P Require Import HttpChars.
From S2P Require Import HttpUrl.
From S2P Require Import HttpState.
From S2P Require Import HttpExec.
From S2P Require Import HttpWp.
From S2P Require Import HttpSafe.
From S2P Require Import HttpRun.
From S2P Require Import HttpMethod.
From S2P Require Import HttpHeaders.
From S2P Require Import HttpLines.
From S2P Require Import HttpRequest.
From S2P Require Import HTTPParser.
From S2P Require Import HttpStream.
From S2P Require Import HttpCut.
From S2P Require Import HttpFeed.
#[local] Open Scope Z_scope.
#[local] Open Scope brynet_scope.

Lemma set_nread_like k y k' y' : set_nread k y = set_nread k' y' -> y = set_nread (nread y) y'.
Proof. destruct y, y'. unfold set_nread. simpl. intros E. injection E as. by subst. Qed.

Lemma returned_inj {U} n n' x x' (u u' : U) :
  Returned n x u = Returned n' x' u' -> n = n' /\ x = x' /\ u = u'.
Proof. intros [=]. done. Qed.

(** C3: how a stream is cut into pieces makes no difference. An application that
    hands the pieces of a stream to http_parser_execute one after the other,
    until the parser fails or a message asks for an upgrade, ends with the same
    number of bytes parsed, the same parser up to its count of header bytes, and,
    unless the parser failed, the same data collected by its callbacks, for any
    two ways to cut the same bytes into pieces that are not empty; provided its
    callbacks do not mind to get a text in several parts, the parser satisfies the
    invariant of [execute_safe] and has neither failed nor been left for an upgrade, and the
    bytes given one by one do not exceed the limit on the size of a header (each call counts
    the bytes of its header again, so that near the limit the cut does matter). *)
Theorem cut_independent {U} (o : observer U) (ds ds' : list bytes) (x : http_parser) (u : U) :
  stream_observer o -> parser_ok x -> more x = true ->
  Forall (fun d => d <> []) ds -> Forall (fun d => d <> []) ds' -> concat ds = concat ds' ->
  ~ overflowed (feed o (singles (concat ds)) 0 x u) ->
  exists n y v k v', feed o ds 0 x u = Returned n y v /\
    feed o ds' 0 x u = Returned n (set_nread k y) v' /\ (perrno y = HPE_OK -> v' = v).
Proof.
  intros Ho Hok Hm Hd Hd' E Hov. assert (Hk : set_nread (nread x) x = x) by by destruct x.
  pose proof (feed_agrees o Ho ds 0 x (nread x) u Hd Hm (Z.le_refl _) Hok ltac:(by rewrite Hk)) as H.
  pose proof (feed_agrees o Ho ds' 0 x (nread x) u Hd' Hm (Z.le_refl _) Hok ltac:(by rewrite Hk)) as H'.
  rewrite Hk in H, H'. rewrite <- E in H'.
  destruct H as [|(n & y & v & k & w & -> & E1 & _ & Hu)]; [done|].
  destruct H' as [|(n' & y' & v' & k' & w' & -> & E2 & _ & Hu')]; [done|].
  rewrite E1 in E2. apply returned_inj in E2 as (-> & Ey & ->).
  pose proof (set_nread_like _ _ _ _ (eq_sym Ey)) as Hy.
  exists n', y, v, (nread y'), v'. split_and!; [done|by rewrite <- Hy|].
  intros Hp. rewrite <- (Hu Hp). symmetry. apply Hu'. by rewrite Hy.
Qed.

(** C2: requests are read back from a connection however they arrive. For
    requests as in [requests_parsed], written one after the other and cut into
    any pieces that are not empty, the application is told of each request's
    target, headers, end of headers, body and end, complete and in order, when it
    hands the pieces one after the other to http_parser_execute, and all bytes
    are parsed; provided the bytes given one by one do not exceed the limit on
    the size of a header. *)
Theorem requests_in_pieces {U} (o : observer U) (rs : list request) r (ds : list bytes)
    (x : http_parser) (u : U) :
  stream_observer o -> Forall request_ok (rs ++ [r]) -> Forall stays_open rs ->
  accepts_all o (rs ++ [r]) u -> waiting x -> parser_ok x -> more x = true ->
  Forall (fun d => d <> []) ds -> concat ds = stream_bytes (rs ++ [r]) ->
  ~ overflowed (feed o (singles (concat ds)) 0 x u) ->
  exists y, feed o ds 0 x u = Returned (zlen (concat ds)) y (stream_events o (rs ++ [r]) u) /\
    if closes (request_flags r) then pstate y = s_dead else pstate y = s_start_req.
Proof.
  intros Ho Hrs Hopen Ha Hx Hok Hm Hd E Hov.
  apply Forall_app in Hrs as [Hrs Hr]. apply Forall_cons in Hr as [Hr _].
  destruct (execute_requests o rs r x u Hrs Hopen Hr Ha Hx) as (x' & Ex & Hs & Hended & Hup).
  set (w := stream_bytes (rs ++ [r])) in *. rewrite E in *.
  assert (Hw : w <> []).
  { intros Hw. assert (0 < zlen w) by (unfold w; destruct rs; apply stream_not_empty).
    rewrite Hw in *. done. }
  assert (Hk : set_nread (nread x) x = x) by by destruct x.
  pose proof (feed_agrees o Ho ds 0 x (nread x) u Hd Hm (Z.le_refl _) Hok ltac:(by rewrite Hk)) as H.
  pose proof (feed_agrees o Ho [w] 0 x (nread x) u ltac:(by constructor) Hm (Z.le_refl _) Hok
    ltac:(by rewrite Hk)) as H'.
  rewrite Hk, E in H. rewrite Hk in H'. cbn [concat] in H'. rewrite app_nil_r in H'.
  destruct H as [|(n & y & v & k & v1 & E0 & E1 & _ & Hu)]; [done|].
  destruct H' as [|(n' & y' & v' & k' & w' & E0' & E2 & _ & Hu')]; [done|].
  cbn [feed] in E0'. rewrite Ex in E0'.
  assert (Hn : Returned (zlen w) x' (stream_events o (rs ++ [r]) u) = Returned n' y' v')
    by (by destruct (more x')).
  apply returned_inj in Hn as (<- & <- & <-). rewrite E1 in E2. apply returned_inj in E2 as (-> & Ey & ->).
  assert (Hy : y = set_nread (nread y) x').
  { apply (f_equal (set_nread (nread y))) in Ey. by destruct y, x'. }
  assert (Hpx : perrno x' = HPE_OK) by apply Hended.
  exists y. split.
  - rewrite E0. f_equal. rewrite <- Hu, Hu'; [done|done|by rewrite Hy].
  - rewrite Hy. unfold next_state in Hs. by destruct (closes _).
Qed.

(** ** The callbacks of HTTPParser *)

(** A name, a value, a URL or a body may come in several parts. *)
Lemma http_stream_observer uninit : stream_observer (http_observer uninit).
Proof.
  constructor.
  - intros f x a b u _. destruct f; unfold cb_data, http_observer, ob_data, ob_status.
    + unfold sHeadField. destruct (mLastWasValue u); cbn [mLastWasValue set_header mCurrentField];
        rewrite app_assoc; by destruct u.
    + unfold sHeadValue. rewrite app_assoc. by destruct u.
    + unfold sUrlHandle. rewrite app_assoc. by destruct u.
    + unfold sBodyHandle. rewrite app_assoc. by destruct u.
    + unfold sStatusHandle. rewrite app_assoc. by destruct u.
  - intros x y E. unfold http_observer, ob_status, sStatusHandle. by rewrite E.
Qed.

Definition demo_pieces : list bytes :=
  [str "GE"; str "T /a?q HTTP/1.1" ++ [CR]; [LF] ++ str "Con"; str "tent-Len"; str "gth: ";
   str "2" ++ [CR; LF; CR]; [LF] ++ str "h"; str "i"].

Lemma demo_pieces_fit :
  ~ overflowed (feed (http_observer url0) (singles (concat demo_pieces)) 0
      (http_parser_init HTTP_BOTH) (new_fields 0 0)).
Proof.
  intros (n & x & u & E & Hx). revert Hx. replace (perrno x) with HPE_OK; [discriminate|].
  transitivity (match feed (http_observer url0) (singles (concat demo_pieces)) 0
      (http_parser_init HTTP_BOTH) (new_fields 0 0) with Returned _ y _ => perrno y | _ => HPE_OK end);
    [vm_compute; reflexivity|by rewrite E].
Qed.

Lemma cut_independent_witness : exists y v k v',
  feed (http_observer url0) [concat demo_pieces] 0 (http_parser_init HTTP_BOTH) (new_fields 0 0)
    = Returned 42 y v /\
  feed (http_observer url0) demo_pieces 0 (http_parser_init HTTP_BOTH) (new_fields 0 0)
    = Returned 42 (set_nread k y) v' /\ v' = v /\ mBody v = str "hi".
Proof.
  destruct (cut_independent (http_observer url0) [concat demo_pieces] demo_pieces
    (http_parser_init HTTP_BOTH) (new_fields 0 0)) as (n & y & v & k & v' & E & E' & Hv).
  - apply http_stream_observer.
  - apply http_parser_init_ok.
  - reflexivity.
  - by constructor.
  - by repeat constructor.
  - reflexivity.
  - exact demo_pieces_fit.
  - assert (F : n = 42 /\ perrno y = HPE_OK /\ mBody v = str "hi").
    { clear E' Hv. revert E. vm_compute. intros [= <- <- <-]. repeat split. }
    destruct F as (-> & Hy & Hb). exists y, v, k, v'. exact (conj E (conj E' (conj (Hv Hy) Hb))).
Defined.

(** What the application is told of, texts joined: a letter before each. *)
Definition joined_log : observer bytes :=
  mk_observer (fun f u => match f with message_complete => u ++ str "!" | _ => u end)
    (fun f b u => u ++ b) (fun u => (0, u ++ str "."))
    (fun _ b u => u ++ b).

Lemma joined_log_ok : stream_observer joined_log.
Proof. constructor; [|done]. intros f x a b u _. by destruct f; cbn; rewrite app_assoc. Qed.

Definition demo_first : request := mk_request HTTP_GET (str "/a") [mk_header Plain (str "Host") (str "h")] [].
Definition demo_last : request :=
  mk_request HTTP_POST (str "/b") [mk_header Length (str "Content-Length") (str "2")] (str "hi").
Definition demo_cut : list bytes :=
  [str "GE"; str "T /a HTTP/1.1" ++ [CR]; [LF] ++ str "Ho"; str "st: h" ++ [CR; LF; CR; LF] ++ str "P";
   str "OST /b HTTP/1.1" ++ [CR; LF] ++ str "Content-Length: "; str "2" ++ [CR; LF; CR]; [LF] ++ str "h"; str "i"].

Lemma demo_cut_fits :
  ~ overflowed (feed joined_log (singles (concat demo_cut)) 0 (http_parser_init HTTP_REQUEST) []).
Proof.
  intros (n & x & u & E & Hx). revert Hx. replace (perrno x) with HPE_OK; [discriminate|].
  transitivity (match feed joined_log (singles (concat demo_cut)) 0
      (http_parser_init HTTP_REQUEST) [] with Returned _ y _ => perrno y | _ => HPE_OK end);
    [vm_compute; reflexivity|by rewrite E].
Qed.

Lemma requests_in_pieces_witness : exists y,
  feed joined_log demo_cut 0 (http_parser_init HTTP_REQUEST) [] =
    Returned 69 y (str "/aHosth.!/bContent-Length2.hi!") /\ pstate y = s_start_req.
Proof.
  destruct (requests_in_pieces joined_log [demo_first] demo_last demo_cut
    (http_parser_init HTTP_REQUEST) []) as (y & E & Hs).
  - exact joined_log_ok.
  - apply (forallb_Forall request_ok requestb); [exact requestb_ok|vm_compute; reflexivity].
  - by repeat constructor.
  - done.
  - by split; [left|].
  - apply http_parser_init_ok.
  - reflexivity.
  - by repeat constructor.
  - reflexivity.
  - exact demo_cut_fits.
  - exists y. split; [exact E|exact Hs].
Defined.
