(* ===== verification/HttpService.v ===== *)
(** * net/http/HttpService.cpp and the WebSocket handshake

    The data callback that HttpService gives to a connection: HTTP messages until
    one asks for a WebSocket, then frames. What the callbacks of the application
    are called with is collected in order; [has] tells which of them are set. *)

From S2P Require Import Prelude.
From S2P Require Import Words.
From S2P Require Import HttpChars.
From S2P Require Import HttpUrl.
From S2P Require Import HttpState.
From S2P Require Import HttpExec.
From S2P Require Import HttpRun.
From S2P Require Import HttpUrlFields.
From S2P Require Import HttpLines.
From S2P Require Import HttpRequest.
From S2P Require Import Base64.
From S2P Require Import Sha1.
From S2P Require Import WebSocket.
From S2P Require Import HTTPParser.
From S2P Require Import HttpReceive.
#[local] Open Scope Z_scope.
#[local] Open Scope brynet_scope.

Definition CRLF : bytes := [CR; LF].

(** ** wsHandshake

    [buffer] and [digest]: what the uninitialised arrays of the local [CSHA1] hold. *)
Definition wsHandshake (buffer digest : bytes) (secKey : bytes) : option bytes :=
  let secKey := secKey ++ str "258EAFA5-E914-47DA-95CA-C5AB0DC85B11" in
  s1 ← SHA1.Update secKey (u32 (zlen secKey)) (SHA1.CSHA1_new buffer digest);
  s1 ← SHA1.Final s1;
  base64Str ← base64_encode (SHA1.GetHash s1) 20;
  Some (str "HTTP/1.1 101 Switching Protocols" ++ CRLF ++ str "Upgrade: websocket" ++ CRLF ++
        str "Connection: Upgrade" ++ CRLF ++ str "Sec-WebSocket-Accept: " ++ base64Str ++ CRLF ++ CRLF).

(** ** HttpService *)

Record callbacks := mk_callbacks {
  hasHttpCallback : bool;
  hasWSCallback : bool;
  hasWSConnectedCallback : bool }.

(** What happens to the session, in order. *)
Inductive call :=
  | SendPacket (b : bytes)               (* httpSession->send *)
  | HttpCallback (f : fields)            (* with the parser as it is then *)
  | WSCallback (opcode : Z) (payload : bytes)
  | WSConnectedCallback (f : fields).

Section Service.
Context (uninit : http_parser_url) (sha_buffer sha_digest : bytes) (has : callbacks).

(** The body of the loop of [ProcessWebSocket] after a frame was extracted: the
    string [parseString] is [mWSParsePayload] of the parser. *)
Definition ws_frame (opcode : Z) (isFin : bool) (f : fields) : fields * list call :=
  let f := if negb isFin || (opcode =? CONTINUATION_FRAME)
           then set_mWSCacheFrame (mWSCacheFrame f ++ mWSParsePayload f) f else f in
  let f := if negb isFin && negb (opcode =? CONTINUATION_FRAME) then cacheWSFrameType opcode f else f in
  if isFin then
    let '(opcode, f) :=
      if opcode =? CONTINUATION_FRAME then
        let f := if negb (bool_decide (mWSCacheFrame f = []))
                 then set_mWSCacheFrame [] (set_mWSParsePayload (mWSCacheFrame f) f) else f in
        (mWSFrameType f, f)
      else (opcode, f) in
    (f, if hasWSCallback has then [WSCallback opcode (mWSParsePayload f)] else [])
  else (f, []).

(** The loop of [ProcessWebSocket]; the result starts with the bytes taken. *)
Fixpoint ws_loop (fuel : nat) (parse_str : bytes) (f : fields) : option (Z * fields * list call) :=
  match fuel with
  | O => None
  | S fuel =>
      if 0 <? zlen parse_str then
        let f := set_mWSParsePayload [] f in
        x ← wsFrameExtractBuffer parse_str (mWSParsePayload f) ERROR_FRAME 0 false;
        let f := set_mWSParsePayload (x_payload x) f in
        if negb (x_ok x) then Some (0, f, [])
        else
          let '(f, c) := ws_frame (x_opcode x) (x_fin x) f in
          '(n, f, cs) ← ws_loop fuel (drop (Z.to_nat (x_size x)) parse_str) f;
          Some (x_size x + n, f, c ++ cs)
      else Some (0, f, [])
  end.

Definition ProcessWebSocket (buffer : bytes) (f : fields) : option (Z * fields * list call) :=
  ws_loop (S (length buffer)) buffer f.

(** What [ProcessHttp] does with a complete message. *)
Definition http_complete (h : HTTPParser) : option (HTTPParser * list call) :=
  let f := mFields h in
  if mIsWebSocket f then
    response ← (if hasKey (str "Sec-WebSocket-Key") f
                then b ← wsHandshake sha_buffer sha_digest (getValue (str "Sec-WebSocket-Key") f); Some [SendPacket b]
                else Some []);
    Some (h, response ++ if hasWSConnectedCallback has then [WSConnectedCallback f] else [])
  else
    Some (if mIsKeepAlive f then clearParse h else h, if hasHttpCallback has then [HttpCallback f] else []).

Definition ProcessHttp (buffer : bytes) (h : HTTPParser) : option (Z * HTTPParser * list call) :=
  if negb (mISCompleted (mFields h)) then
    '(retlen, h) ← tryParse uninit buffer h;
    if negb (mISCompleted (mFields h)) then Some (retlen, h, [])
    else '(h, c) ← http_complete h; Some (retlen, h, c)
  else '(h, c) ← http_complete h; Some (zlen buffer, h, c).

(** The data callback of [handle]. *)
Definition data_callback (buffer : bytes) (h : HTTPParser) : option (Z * HTTPParser * list call) :=
  if mIsWebSocket (mFields h) then
    '(retlen, f, c) ← ProcessWebSocket buffer (mFields h);
    Some (retlen, mk_HTTPParser (mParserType h) (mParser h) f, c)
  else ProcessHttp buffer h.

(** [handle]: the parser of a new session. *)
Definition session_parser (status frame : Z) : HTTPParser := HTTPParser_new HTTP_BOTH status frame.

(** The bytes of the connection in pieces, as DataSocket delivers them: what is
    not taken is delivered again, with what has arrived since. *)
Fixpoint feed (chunks : list bytes) (pending : bytes) (h : HTTPParser) : option (bytes * HTTPParser * list call) :=
  match chunks with
  | [] => Some (pending, h, [])
  | b :: chunks =>
      let buffer := pending ++ b in
      '(n, h, c) ← data_callback buffer h;
      '(pending, h, cs) ← feed chunks (drop (Z.to_nat n) buffer) h;
      Some (pending, h, c ++ cs)
  end.
End Service.

(** ** The frames of a buffer

    The runs of the loop, without its fuel. *)
Section Frames.
Context (has : callbacks).

Inductive runs : bytes -> fields -> Z -> fields -> list call -> Prop :=
  | runs_empty f : runs [] f 0 f []
  | runs_wait b f x :
      b <> [] -> wsFrameExtractBuffer b [] ERROR_FRAME 0 false = Some x -> x_ok x = false ->
      runs b f 0 (set_mWSParsePayload [] f) []
  | runs_frame b f x f1 c n f2 cs :
      wsFrameExtractBuffer b [] ERROR_FRAME 0 false = Some x -> x_ok x = true ->
      ws_frame has (x_opcode x) (x_fin x) (set_mWSParsePayload (x_payload x) f) = (f1, c) ->
      runs (drop (Z.to_nat (x_size x)) b) f1 n f2 cs ->
      runs b f (x_size x + n) f2 (c ++ cs).

Lemma drop_bytes n (b : bytes) : Forall is_byte b -> Forall is_byte (drop n b).
Proof. by apply Forall_drop. Qed.

(** The loop ends on every buffer, inside it, and its result is a run. *)
Lemma loop_runs fuel : forall b f, Forall is_byte b -> (length b < fuel)%nat ->
  exists n f' cs, ws_loop has fuel b f = Some (n, f', cs) /\ runs b f n f' cs /\ 0 <= n <= zlen b.
Proof.
  induction fuel as [|fuel IH]; intros b f Hb Hf; [lia|]. cbn [ws_loop].
  destruct (Z.ltb_spec 0 (zlen b)) as [Hne|He].
  - destruct (extract_inside b [] ERROR_FRAME 0 false Hb) as (x & E & Hno & Hyes).
    change (mWSParsePayload (set_mWSParsePayload [] f)) with (@nil Z). rewrite E. cbn [mbind option_bind].
    destruct (x_ok x) eqn:Ex; cbn [negb].
    + destruct (Hyes eq_refl) as (Hs & _ & _).
      change (set_mWSParsePayload (x_payload x) (set_mWSParsePayload [] f)) with (set_mWSParsePayload (x_payload x) f).
      destruct (ws_frame has _ _ _) as [f1 c] eqn:Ew.
      destruct (IH (drop (Z.to_nat (x_size x)) b) f1) as (n & f2 & cs & El & Hr & Hn);
        [by apply drop_bytes|rewrite length_drop; unfold zlen in *; lia|].
      rewrite El. cbn [mbind option_bind]. eexists _, _, _. split; [done|]. split; [by eapply runs_frame|].
      unfold zlen in *. rewrite length_drop in Hn. lia.
    + rewrite (Hno eq_refl). exists 0, (set_mWSParsePayload [] f), []. split; [done|]. split; [|lia].
      eapply runs_wait; [by intros ->|done|done].
  - assert (b = []) as ->; [apply zlen_zero; pose proof (zlen_nonneg b); lia|].
    exists 0, f, []. split; [done|]. split; [constructor|done].
Qed.

Lemma process_runs b f : Forall is_byte b ->
  exists n f' cs, ProcessWebSocket has b f = Some (n, f', cs) /\ runs b f n f' cs /\ 0 <= n <= zlen b.
Proof. intros Hb. unfold ProcessWebSocket. apply loop_runs; [done|lia]. Qed.

Lemma extract_nil x : wsFrameExtractBuffer [] [] ERROR_FRAME 0 false = Some x -> x_ok x = false.
Proof. by intros [= <-]. Qed.

Lemma runs_det b f n f' cs : runs b f n f' cs -> forall n2 f2 cs2, runs b f n2 f2 cs2 ->
  n = n2 /\ f' = f2 /\ cs = cs2.
Proof.
  induction 1 as [f|b f x Hb E Ex|b f x f1 c n f2 cs E Ex Ew Hr IH]; intros n3 f3 cs3; inversion 1; subst;
    repeat match goal with
    | H : wsFrameExtractBuffer [] _ _ _ _ = Some _ |- _ => apply extract_nil in H
    | H1 : wsFrameExtractBuffer ?b _ _ _ _ = Some ?x, H2 : wsFrameExtractBuffer ?b _ _ _ _ = Some ?y |- _ =>
        rewrite H1 in H2; injection H2 as ->
    | H1 : ws_frame _ _ _ _ = _, H2 : ws_frame _ _ _ _ = _ |- _ => rewrite H1 in H2; injection H2 as -> ->
    | H : runs (drop _ _) _ _ _ _ |- _ => apply IH in H; destruct H as (-> & -> & ->)
    end; (done || congruence).
Qed.

(** The scratch string does not matter. *)
Lemma runs_scratch b f p n f' cs : runs b f n f' cs ->
  exists f2, runs b (set_mWSParsePayload p f) n f2 cs /\
    set_mWSParsePayload [] f2 = set_mWSParsePayload [] f'.
Proof.
  destruct 1 as [f|b f x Hb E Ex|b f x f1 c n f2 cs E Ex Ew Hr].
  - eexists. split; [constructor|done].
  - eexists. split; [by eapply runs_wait|done].
  - exists f2. split; [|done]. by eapply runs_frame.
Qed.

(** More bytes: what was taken is taken again, and the loop goes on behind it. *)
Lemma runs_more b f n f' cs : runs b f n f' cs -> Forall is_byte b ->
  forall m n2 f2 cs2, runs (drop (Z.to_nat n) b ++ m) f' n2 f2 cs2 ->
  exists f3, runs (b ++ m) f (n + n2) f3 (cs ++ cs2) /\
    set_mWSParsePayload [] f3 = set_mWSParsePayload [] f2.
Proof.
  induction 1 as [f|b f x Hb E Ex|b f x f1 c n f2 cs E Ex Ew Hr IH]; intros Hbytes m n2 f3 cs2 H2.
  - exists f3. done.
  - apply (runs_scratch _ _ (mWSParsePayload f)) in H2 as (f4 & H4 & E4).
    exists f4. split; [|done]. change (drop (Z.to_nat 0) b) with b in H4. cbn [app Z.add].
    by destruct f.
  - destruct (extract_inside b [] ERROR_FRAME 0 false Hbytes) as (x' & E' & _ & Hyes). rewrite E in E'.
    injection E' as <-. destruct (Hyes Ex) as (Hs & _ & _).
    assert (Hn : 0 <= n).
    { destruct (process_runs _ f1 (drop_bytes (Z.to_nat (x_size x)) b Hbytes)) as (n' & ? & ? & _ & Hr' & Hn').
      destruct (runs_det _ _ _ _ _ Hr _ _ _ Hr') as (-> & _). lia. }
    destruct (IH (drop_bytes _ _ Hbytes) m n2 f3 cs2) as (f4 & H4 & E4).
    { rewrite drop_drop. by rewrite <- Z2Nat.inj_add by lia. }
    exists f4. split; [|done]. rewrite <- Z.add_assoc, <- app_assoc. eapply runs_frame; [by apply extract_more|done|done|].
    rewrite drop_app_le; [done|]. unfold zlen in Hs. lia.
Qed.
End Frames.

(** ** Any cut of the stream *)

Section Stream.
Context (uninit : http_parser_url) (sha_buffer sha_digest : bytes) (has : callbacks).

(** All fields but the scratch string. *)
Definition ws_state (f : fields) : fields := set_mWSParsePayload [] f.

Lemma frame_upgraded t fin f : mIsWebSocket (ws_frame has t fin f).1 = mIsWebSocket f.
Proof.
  unfold ws_frame. destruct fin, (t =? CONTINUATION_FRAME); simpl; try done.
  by destruct (bool_decide _).
Qed.

Lemma runs_upgraded b f n f' cs : runs has b f n f' cs -> mIsWebSocket f' = mIsWebSocket f.
Proof.
  induction 1 as [f|b f x Hb E Ex|b f x f1 c n f2 cs E Ex Ew Hr IH]; [done..|].
  rewrite IH. etransitivity; [|exact (frame_upgraded (x_opcode x) (x_fin x) (set_mWSParsePayload (x_payload x) f))].
  by rewrite Ew.
Qed.

Lemma feed_runs chunks : forall b0 f n f1 cs h,
  Forall is_byte b0 -> Forall (Forall is_byte) chunks -> mIsWebSocket (mFields h) = true ->
  runs has b0 f n f1 cs -> 0 <= n <= zlen b0 -> ws_state f1 = ws_state (mFields h) ->
  exists pending h' n' f' cs',
    feed uninit sha_buffer sha_digest has chunks (drop (Z.to_nat n) b0) h = Some (pending, h', cs') /\
    runs has (b0 ++ concat chunks) f n' f' (cs ++ cs') /\ 0 <= n' <= zlen (b0 ++ concat chunks) /\
    pending = drop (Z.to_nat n') (b0 ++ concat chunks) /\ ws_state f' = ws_state (mFields h').
Proof.
  induction chunks as [|m chunks IH]; intros b0 f n f1 cs h Hb Hc Hw Hr Hn Hs.
  { exists (drop (Z.to_nat n) b0), h, n, f1, []. simpl. rewrite !app_nil_r. done. }
  apply Forall_cons in Hc as [Hm Hc]. cbn [feed concat]. unfold data_callback. rewrite Hw.
  assert (Hpm : Forall is_byte (drop (Z.to_nat n) b0 ++ m)) by (apply Forall_app; split; [by apply drop_bytes|done]).
  destruct (process_runs has _ (mFields h) Hpm) as (n2 & f2 & c2 & E & Hr2 & Hn2).
  rewrite E. cbn [mbind option_bind].
  destruct (runs_scratch has _ _ (mWSParsePayload f1) _ _ _ Hr2) as (f2' & Hr2' & Es).
  assert (Ef : set_mWSParsePayload (mWSParsePayload f1) (mFields h) = f1).
  { transitivity (set_mWSParsePayload (mWSParsePayload f1) (ws_state (mFields h))); [done|].
    rewrite <- Hs. by destruct f1. }
  rewrite Ef in Hr2'.
  destruct (runs_more has _ _ _ _ _ Hr Hb m n2 f2' c2 Hr2') as (f3 & Hr3 & Es3).
  rewrite zlen_app in Hn2. assert (Ld : zlen (drop (Z.to_nat n) b0) = zlen b0 - n).
  { unfold zlen in *. rewrite length_drop. lia. }
  set (h2 := mk_HTTPParser (mParserType h) (mParser h) f2).
  destruct (IH (b0 ++ m) f (n + n2) f3 (cs ++ c2) h2) as (pending & h' & n' & f' & cs' & E' & Hr' & Hn' & Hp & Hs');
    [by apply Forall_app|done| |done|rewrite zlen_app; lia|exact (eq_trans Es3 Es)|].
  { unfold h2. cbn [mFields]. by rewrite (runs_upgraded _ _ _ _ _ Hr2). }
  assert (Ed : drop (Z.to_nat n2) (drop (Z.to_nat n) b0 ++ m) = drop (Z.to_nat (n + n2)) (b0 ++ m)).
  { rewrite <- drop_app_le by (unfold zlen in *; lia). rewrite drop_drop. f_equal. lia. }
  rewrite Ed, E'. cbn [mbind option_bind]. exists pending, h', n', f', (c2 ++ cs'). rewrite !app_assoc in *.
  split; [done|]. split; [done|]. split; [done|]. by split.
Qed.

(** C24: what a WebSocket delivers does not depend on how TCP cuts the bytes. Whatever
    bytes arrive, well-formed or not, in whatever pieces: handling them piece by
    piece, with the rest of each kept for the next, ends, stays inside the
    buffers, calls the application with the same messages in the same order as
    handling them in one piece, and leaves the same bytes waiting and the same
    state. *)
Theorem ws_cut_independent chunks h :
  Forall (Forall is_byte) chunks -> mIsWebSocket (mFields h) = true ->
  exists n f' h' cs,
    ProcessWebSocket has (concat chunks) (mFields h) = Some (n, f', cs) /\ 0 <= n <= zlen (concat chunks) /\
    feed uninit sha_buffer sha_digest has chunks [] h = Some (drop (Z.to_nat n) (concat chunks), h', cs) /\
    ws_state (mFields h') = ws_state f'.
Proof.
  intros Hc Hw.
  destruct (feed_runs chunks [] (mFields h) 0 (mFields h) [] h) as (pending & h' & n' & f' & cs' & E & Hr & Hn & -> & Hs);
    [done..|constructor|done|done|].
  assert (Hb : Forall is_byte (concat chunks)).
  { clear -Hc. induction Hc; simpl; [done|]. by apply Forall_app. }
  destruct (process_runs has _ (mFields h) Hb) as (n2 & f2 & cs2 & E2 & Hr2 & Hn2).
  cbn [app] in *. destruct (runs_det _ _ _ _ _ _ Hr _ _ _ Hr2) as (-> & -> & ->).
  exists n2, f2, h', cs2. split; [exact E2|]. split; [exact Hn2|]. split; [exact E|exact (eq_sym Hs)].
Qed.
End Stream.

(** ** Messages

    A message as RFC 6455 sends it: one frame, or a first fragment and further
    ones, each with the control frames that come before it. *)
Definition frame : Type := Z * bool * bytes.

Inductive message :=
  | Whole (opcode : Z) (payload : bytes)
  | Parts (opcode : Z) (first : bytes) (more : list (list (Z * bytes) * bytes)).

Definition control (c : Z * bytes) : frame := (c.1, true, c.2).

Fixpoint more_frames (more : list (list (Z * bytes) * bytes)) : list frame :=
  match more with
  | [] => []
  | (controls, p) :: more =>
      map control controls ++ (CONTINUATION_FRAME, bool_decide (more = []), p) :: more_frames more
  end.

Definition frames_of (m : message) : list frame :=
  match m with
  | Whole t p => [(t, true, p)]
  | Parts t p more => (t, false, p) :: more_frames more
  end.

(** What the application is to receive: control frames at once, the message when
    it is complete. *)
Definition deliveries (m : message) : list (Z * bytes) :=
  match m with
  | Whole t p => [(t, p)]
  | Parts t p more => concat (map fst more) ++ [(t, p ++ concat (map snd more))]
  end.

Definition frame_ok (x : frame) : Prop := 0 <= x.1.1 < 16 /\ zlen x.2 < 2 ^ 31.

Definition message_ok (m : message) : Prop :=
  Forall frame_ok (frames_of m) /\
  match m with
  | Whole t _ => t <> CONTINUATION_FRAME
  | Parts t _ more => t <> CONTINUATION_FRAME /\ more <> [] /\
      Forall (fun c => c.1 <> CONTINUATION_FRAME) (concat (map fst more))
  end.

(** Each frame is built with any mask or none. *)
Definition sent_frame : Type := Z * Z * Z * Z * bool * frame.
Definition frame_bytes (x : sent_frame) : bytes :=
  let '(rand, masking, (t, fin, p)) := x in wsFrameBuild rand p t fin masking.

Section Messages.
Context (has : callbacks) (Hcb : hasWSCallback has = true).

(** The frames as [ws_frame] takes them one by one. *)
Fixpoint take_frames (l : list frame) (f : fields) : fields * list call :=
  match l with
  | [] => (f, [])
  | (t, fin, p) :: l =>
      let '(f, c) := ws_frame has t fin (set_mWSParsePayload p f) in
      let '(f, cs) := take_frames l f in (f, c ++ cs)
  end.

Lemma take_frames_app l1 l2 f :
  take_frames (l1 ++ l2) f =
  let '(f1, c1) := take_frames l1 f in let '(f2, c2) := take_frames l2 f1 in (f2, c1 ++ c2).
Proof.
  revert f. induction l1 as [|[[t fin] p] l1 IH]; intros f; simpl.
  - by destruct (take_frames l2 f).
  - destruct (ws_frame has t fin _) as [f1 c]. rewrite IH. destruct (take_frames l1 f1) as [f2 c2].
    destruct (take_frames l2 f2) as [f3 c3]. by rewrite app_assoc.
Qed.

Lemma built_runs (l : list sent_frame) : forall f,
  Forall (fun x => frame_ok x.2) l ->
  let r := take_frames (map snd l) f in
  runs has (concat (map frame_bytes l)) f (zlen (concat (map frame_bytes l))) r.1 r.2.
Proof.
  induction l as [|[[rand masking] [[t fin] p]] l IH]; intros f Hl; [constructor|].
  apply Forall_cons in Hl as [[Ht Hp] Hl]. cbn [map concat take_frames snd frame_bytes] in *. rewrite zlen_app.
  cbn [fst snd] in *. destruct (ws_frame has t fin _) as [f1 c] eqn:Ew. specialize (IH f1 Hl). cbv zeta in IH.
  destruct (take_frames (map snd l) f1) as [f2 cs]. cbn [fst snd] in *.
  pose proof (extract_built rand p t fin masking (concat (map frame_bytes l)) [] ERROR_FRAME 0 false Ht Hp) as E.
  cbv zeta in E. eapply (runs_frame has _ f _ _ _ _ _ _ E); [done|exact Ew|].
  cbn [x_size]. unfold zlen at 1. rewrite Nat2Z.id, drop_app_length. exact IH.
Qed.

(** *** One message *)

Definition ws_calls (l : list (Z * bytes)) : list call := map (fun d => WSCallback d.1 d.2) l.

Lemma take_controls controls : forall f, Forall (fun c => c.1 <> CONTINUATION_FRAME) controls ->
  exists f', take_frames (map control controls) f = (f', ws_calls controls) /\
    mWSCacheFrame f' = mWSCacheFrame f /\ mWSFrameType f' = mWSFrameType f.
Proof.
  induction controls as [|[t p] l IH]; intros f Hc; [by exists f|]. apply Forall_cons in Hc as [Ht Hc].
  cbn [map control take_frames fst snd]. unfold ws_frame. rewrite (proj2 (Z.eqb_neq t _)) by done.
  cbn [negb orb andb]. rewrite Hcb. destruct (IH (set_mWSParsePayload p f) Hc) as (f' & -> & E1 & E2).
  by exists f'.
Qed.

Lemma take_more more : forall f, more <> [] -> Forall (fun c => c.1 <> CONTINUATION_FRAME) (concat (map fst more)) ->
  exists f', take_frames (more_frames more) f =
      (f', ws_calls (concat (map fst more) ++ [(mWSFrameType f, mWSCacheFrame f ++ concat (map snd more))])) /\
    mWSCacheFrame f' = [].
Proof.
  induction more as [|[controls p] more IH]; intros f Hne Hc; [done|]. cbn [map fst concat more_frames snd] in *.
  apply Forall_app in Hc as [Hc1 Hc2]. rewrite take_frames_app.
  destruct (take_controls controls f Hc1) as (f1 & -> & E1 & E2). cbn [take_frames].
  unfold ws_frame. change (CONTINUATION_FRAME =? CONTINUATION_FRAME) with true. rewrite orb_true_r.
  set (f2 := set_mWSCacheFrame _ _).
  assert (E3 : mWSCacheFrame f2 = mWSCacheFrame f ++ p) by (unfold f2; simpl; by rewrite E1).
  assert (E4 : mWSFrameType f2 = mWSFrameType f) by done.
  assert (E5 : mWSParsePayload f2 = p) by done. clearbody f2.
  destruct more as [|x more].
  - rewrite bool_decide_eq_true_2 by done. cbn [negb andb take_frames]. rewrite Hcb, app_nil_r. cbn [concat map].
    rewrite !app_nil_r. unfold ws_calls. rewrite map_app.
    destruct (bool_decide (mWSCacheFrame f2 = [])) eqn:E; cbn [negb].
    + apply bool_decide_eq_true in E. exists f2. split; [|done]. rewrite E4, E5, E3 in *.
      apply app_eq_nil in E as [-> ->]. done.
    + eexists. split; [simpl; by rewrite E3, E4|done].
  - rewrite bool_decide_eq_false_2 by done. cbn [negb andb].
    destruct (IH f2 ltac:(done) Hc2) as (f' & -> & Ec). exists f'. split; [|done]. cbn [app].
    rewrite E3, E4. unfold ws_calls. by rewrite !map_app, <- !app_assoc.
Qed.

Lemma take_message m f : message_ok m -> mWSCacheFrame f = [] ->
  exists f', take_frames (frames_of m) f = (f', ws_calls (deliveries m)) /\ mWSCacheFrame f' = [].
Proof.
  intros [Hf Hm] Hc. destruct m as [t p|t p more]; cbn [frames_of deliveries take_frames]; unfold ws_frame.
  - rewrite (proj2 (Z.eqb_neq t _)) by done. cbn [negb orb andb]. rewrite Hcb. by eexists.
  - destruct Hm as (Ht & Hne & Hcc). rewrite (proj2 (Z.eqb_neq t _)) by done. cbn [negb orb andb].
    set (f1 := cacheWSFrameType _ _). destruct (take_more more f1 Hne Hcc) as (f' & -> & E).
    exists f'. split; [|done]. cbn [app]. do 4 f_equal. unfold f1. simpl. by rewrite Hc.
Qed.

Lemma take_messages ms : forall f, Forall message_ok ms -> mWSCacheFrame f = [] ->
  exists f', take_frames (concat (map frames_of ms)) f = (f', ws_calls (concat (map deliveries ms))) /\
    mWSCacheFrame f' = [].
Proof.
  induction ms as [|m ms IH]; intros f Hms Hc; [by exists f|]. apply Forall_cons in Hms as [Hm Hms].
  cbn [map concat]. rewrite take_frames_app. destruct (take_message m f Hm Hc) as (f1 & -> & Hc1).
  destruct (IH f1 Hms Hc1) as (f2 & -> & Hc2). exists f2. split; [|done]. unfold ws_calls. by rewrite map_app.
Qed.
End Messages.

(** Messages arrive as they were sent. However the sender splits messages into
    frames, masks them and puts control frames between the fragments, and however
    TCP cuts the bytes: the application is called with every control frame when it
    is there, and with every message once, whole, in order and with the type of
    its first fragment; all bytes are taken. *)
Lemma messages_delivered uninit sha_buffer sha_digest has ms (wire : list sent_frame) chunks h :
  hasWSCallback has = true -> mIsWebSocket (mFields h) = true -> mWSCacheFrame (mFields h) = [] ->
  Forall message_ok ms -> map snd wire = concat (map frames_of ms) ->
  Forall (Forall is_byte) chunks -> concat chunks = concat (map frame_bytes wire) ->
  exists h', feed uninit sha_buffer sha_digest has chunks [] h =
      Some ([], h', ws_calls (concat (map deliveries ms))) /\
    mWSCacheFrame (mFields h') = [].
Proof.
  intros Hcb Hw Hc Hms Hwire Hb Hcut.
  destruct (feed_runs uninit sha_buffer sha_digest has chunks [] (mFields h) 0 (mFields h) [] h)
    as (pending & h' & n' & f' & cs' & E & Hr & Hn & Hp & Hs); [done..|constructor|done|done|].
  cbn [app] in Hr, Hp. rewrite Hcut in Hr, Hp.
  assert (Hok : Forall (fun x => frame_ok x.2) wire).
  { apply (List.Forall_map snd frame_ok). rewrite Hwire. clear -Hms.
    induction Hms as [|m ms [Hm _] _ IH]; simpl; [done|]. by apply Forall_app. }
  pose proof (built_runs has wire (mFields h) Hok) as Hr2. cbv zeta in Hr2.
  destruct (take_messages has Hcb ms (mFields h) Hms Hc) as (f2 & Et & Hc2). rewrite Hwire, Et in Hr2. cbn [fst snd] in Hr2.
  destruct (runs_det _ _ _ _ _ _ Hr _ _ _ Hr2) as (-> & -> & ->).
  exists h'. split.
  - change (drop (Z.to_nat 0) []) with (@nil Z) in E. rewrite E, Hp. do 3 f_equal. unfold zlen. by rewrite Nat2Z.id, drop_all.
  - apply (f_equal mWSCacheFrame) in Hs. cbn in Hs. by rewrite <- Hs.
Qed.

(** The answer of RFC 6455 to a key. *)
Definition handshake_answer (key : bytes) : bytes :=
  str "HTTP/1.1 101 Switching Protocols" ++ CRLF ++ str "Upgrade: websocket" ++ CRLF ++
  str "Connection: Upgrade" ++ CRLF ++ str "Sec-WebSocket-Accept: " ++
  rfc4648 (SHA1.FIPS.sha1 (key ++ str "258EAFA5-E914-47DA-95CA-C5AB0DC85B11")) ++ CRLF ++ CRLF.

Lemma handshake_accept sha_buffer sha_digest key :
  zlen sha_buffer = 64 -> Forall is_byte key -> zlen key < 2 ^ 32 - 200 ->
  wsHandshake sha_buffer sha_digest key = Some (handshake_answer key).
Proof.
  intros Hbuf Hkey Hlen. unfold wsHandshake, handshake_answer. set (guid := str "258EAFA5-E914-47DA-95CA-C5AB0DC85B11").
  set (m := key ++ guid). assert (Lm : zlen m = zlen key + 36) by (unfold m; by rewrite zlen_app).
  assert (Hm : Forall is_byte m).
  { apply Forall_app. split; [done|]. unfold guid. repeat constructor; vm_compute; congruence. }
  pose proof (zlen_nonneg key). rewrite wrap_small by lia.
  destruct (SHA1.update_absorbs [] _ m (zlen m) (SHA1.absorbed_new sha_buffer sha_digest Hbuf) Hm)
    as (s1 & -> & Ha & _); [done|lia|rewrite zlen_nil; lia|].
  cbn [mbind option_bind app] in *. destruct (SHA1.final_fips m s1 Ha) as (s2 & -> & E); [lia|].
  cbn [mbind option_bind]. unfold SHA1.GetHash. rewrite E. set (digest := SHA1.FIPS.sha1 m).
  assert (Hd : Forall is_byte digest).
  { unfold digest, SHA1.FIPS.sha1. rewrite !Forall_app. split_and!; apply SHA1.be_bytes_byte. }
  assert (Ld : zlen digest = 20) by (unfold digest, SHA1.FIPS.sha1; rewrite !zlen_app; reflexivity).
  destruct (base64_encodes digest [] Hd ltac:(lia)) as [Eb _]. rewrite app_nil_r, Ld in Eb. by rewrite Eb.
Qed.

(** The parser of a new session after the upgrade request. *)
Lemma upgrade_served uninit sha_buffer sha_digest has status frame r w early key :
  hasWSConnectedCallback has = true -> zlen sha_buffer = 64 ->
  upgrade_ok r -> parts_ok w -> w_path w <> [] -> zlen (url_bytes w) < 65536 -> r_target r = url_bytes w ->
  header_value_of (r_headers r) (str "Sec-WebSocket-Key") [] = key -> key <> [] -> Forall is_byte key ->
  zlen key < 2 ^ 32 - 200 ->
  exists h, data_callback uninit sha_buffer sha_digest has (head_bytes r ++ early) (session_parser status frame) =
      Some (zlen (head_bytes r), h, [SendPacket (handshake_answer key); WSConnectedCallback (mFields h)]) /\
    mIsWebSocket (mFields h) = true /\ mWSCacheFrame (mFields h) = [] /\
    mPath (mFields h) = w_path w /\ mQuery (mFields h) = default [] (w_query w).
Proof.
  intros Hcb Hbuf Hr Hw Hp Hlen E Ek Hne Hkey Hkl.
  pose proof (split_target_parts uninit w Hw Hlen Hp) as Hs. rewrite <- E in Hs.
  assert (Hx := new_is_waiting HTTP_BOTH status frame ltac:(done)).
  unfold session_parser, HTTPParser_new in *. cbn [mParser] in Hx. set (f0 := new_fields status frame) in *.
  destruct (with_request_facts (w_path w, w_query w) r f0) as (Hc & _ & _ & H3 & H4 & H5).
  assert (Hcache : mWSCacheFrame (with_request (w_path w, w_query w) r f0) = []).
  { unfold with_request, with_head. by destruct (last_header _ _). }
  set (f := upgraded (with_request (w_path w, w_query w) r f0)).
  assert (Hc' : mISCompleted f = true) by exact Hc. assert (Hws : mIsWebSocket f = true) by done.
  assert (Hv : getValue (str "Sec-WebSocket-Key") f = key).
  { rewrite <- Ek. exact (H5 (str "Sec-WebSocket-Key")). }
  assert (Hk : hasKey (str "Sec-WebSocket-Key") f = true).
  { unfold hasKey. apply bool_decide_eq_true. unfold getValue in Hv.
    destruct (mHeadValues f !! _); [done|]. by subst key. }
  set (h1 := mk_HTTPParser HTTP_BOTH (http_parser_init HTTP_BOTH) f).
  exists h1. split; [|by split_and!].
  unfold data_callback, ProcessHttp. cbn [mFields]. change (mIsWebSocket f0) with false.
  change (mISCompleted f0) with false. cbn [negb].
  rewrite (tryParse_upgrade uninit r early HTTP_BOTH _ f0 _ Hr Hx Hs). fold f h1. cbn [mbind option_bind].
  change (mISCompleted (mFields h1)) with (mISCompleted f). rewrite Hc'. cbn [negb].
  unfold http_complete. cbn [mFields h1]. rewrite Hws, Hk, Hv, (handshake_accept sha_buffer sha_digest key) by done.
  cbn [mbind option_bind]. by rewrite Hcb.
Qed.

Lemma feed_cons uninit sha_buffer sha_digest has b l pending h n h1 c :
  data_callback uninit sha_buffer sha_digest has (pending ++ b) h = Some (n, h1, c) ->
  feed uninit sha_buffer sha_digest has (b :: l) pending h =
    ('(rest, h2, cs) ← feed uninit sha_buffer sha_digest has l (drop (Z.to_nat n) (pending ++ b)) h1;
     Some (rest, h2, c ++ cs)).
Proof. intros E. cbn [feed]. by rewrite E. Qed.

(** C23: a WebSocket session from its first byte. For every request to upgrade that
    carries a key, sent as any bytes that contain it whole with the beginning of
    the frames behind it, then the rest of the frames in any pieces: the service
    sends the answer that RFC 6455 demands for the key, tells the application that
    the WebSocket is connected, and then calls it with exactly the messages that
    were sent, in order; every byte is taken. *)
Theorem ws_session uninit sha_buffer sha_digest has status frame r w key early ms (wire : list sent_frame) chunks :
  hasWSConnectedCallback has = true -> hasWSCallback has = true -> zlen sha_buffer = 64 ->
  upgrade_ok r -> parts_ok w -> w_path w <> [] -> zlen (url_bytes w) < 65536 -> r_target r = url_bytes w ->
  header_value_of (r_headers r) (str "Sec-WebSocket-Key") [] = key -> key <> [] -> Forall is_byte key ->
  zlen key < 2 ^ 32 - 200 ->
  Forall message_ok ms -> map snd wire = concat (map frames_of ms) ->
  chunks <> [] -> Forall (Forall is_byte) (early :: chunks) ->
  concat (early :: chunks) = concat (map frame_bytes wire) ->
  exists h f, feed uninit sha_buffer sha_digest has ((head_bytes r ++ early) :: chunks) [] (session_parser status frame) =
      Some ([], h, [SendPacket (handshake_answer key); WSConnectedCallback f] ++ ws_calls (concat (map deliveries ms))) /\
    mPath f = w_path w /\ mQuery f = default [] (w_query w).
Proof.
  intros Hcc Hcb Hbuf Hr Hw Hp Hlen E Ek Hne Hkey Hkl Hms Hwire Hch Hb Hcut.
  destruct (upgrade_served uninit sha_buffer sha_digest has status frame r w early key)
    as (h & Eh & Hws & Hc & H1 & H2); try done.
  destruct chunks as [|b chunks]; [done|].
  apply Forall_cons in Hb as [He Hb]. apply Forall_cons in Hb as [Hb Hbs].
  destruct (messages_delivered uninit sha_buffer sha_digest has ms wire ((early ++ b) :: chunks) h)
    as (h' & Ef & _); try done.
  { constructor; [by apply Forall_app|done]. }
  { cbn [concat] in *. by rewrite <- app_assoc. }
  exists h', (mFields h). split; [|done]. rewrite (feed_cons uninit sha_buffer sha_digest has (head_bytes r ++ early) _ [] _ _ _ _ Eh). cbn [app].
  unfold zlen at 1. rewrite Nat2Z.id, drop_app_length.
  change (feed uninit sha_buffer sha_digest has ((early ++ b) :: chunks) [] h) with
    (feed uninit sha_buffer sha_digest has (b :: chunks) early h) in Ef.
  by rewrite Ef.
Qed.

Lemma hasEntry_value k v f : v <> [] -> hasEntry k v f = bool_decide (getValue k f = v).
Proof.
  intros Hv. unfold hasEntry, getValue. destruct (mHeadValues f !! k); cbn [default from_option].
  - apply bool_decide_ext. by split.
  - rewrite bool_decide_eq_false_2; [done|]. congruence.
Qed.

(** A request is served, and one with Connection: close is served again and again:
    a new session calls the application once with the request as it was sent. If
    the connection is kept alive the parser is ready for the next request. If not,
    it is left complete, and whatever bytes follow, the application is called with
    the same request once more for each piece, and the bytes are dropped. *)
Theorem closed_request_redelivered uninit sha_buffer sha_digest has status frame r w :
  hasHttpCallback has = true ->
  request_ok r -> parts_ok w -> w_path w <> [] -> zlen (url_bytes w) < 65536 -> r_target r = url_bytes w ->
  exists h f, data_callback uninit sha_buffer sha_digest has (request_bytes r) (session_parser status frame) =
      Some (zlen (request_bytes r), h, [HttpCallback f]) /\
    mPath f = w_path w /\ mQuery f = default [] (w_query w) /\ mBody f = r_body r /\
    (forall k, getValue k f = header_value_of (r_headers r) k []) /\
    if negb (bool_decide (header_value_of (r_headers r) (str "Connection") [] = str "close")) then mISCompleted (mFields h) = false /\ mParser h = http_parser_init HTTP_BOTH
    else forall b, data_callback uninit sha_buffer sha_digest has b h = Some (zlen b, h, [HttpCallback f]).
Proof.
  intros Hcb Hr Hw Hp Hlen E. pose proof (split_target_parts uninit w Hw Hlen Hp) as Hs. rewrite <- E in Hs.
  assert (Hx := new_is_waiting HTTP_BOTH status frame ltac:(done)).
  unfold session_parser, HTTPParser_new in *. cbn [mParser] in Hx. set (f0 := new_fields status frame) in *.
  destruct (with_request_facts (w_path w, w_query w) r f0) as (Hc & _ & H2 & H3 & H4 & H5).
  set (f := finished (with_request (w_path w, w_query w) r f0)).
  assert (Hc' : mISCompleted f = true) by exact Hc. assert (Hws : mIsWebSocket f = false) by done.
  set (h1 := mk_HTTPParser HTTP_BOTH (http_parser_init HTTP_BOTH) f).
  assert (Ek : mIsKeepAlive f = negb (bool_decide (header_value_of (r_headers r) (str "Connection") [] = str "close"))).
  { etransitivity; [exact (f_equal negb (hasEntry_value (str "Connection") (str "close") _ ltac:(discriminate)))|].
    do 2 f_equal. apply bool_decide_ext. by rewrite H5. }
  rewrite <- Ek. exists (if mIsKeepAlive f then clearParse h1 else h1), f.
  assert (Ecomp : http_complete sha_buffer sha_digest has h1 =
    Some (if mIsKeepAlive f then clearParse h1 else h1, [HttpCallback f])).
  { unfold http_complete. cbn [mFields h1]. by rewrite Hws, Hcb. }
  split_and!; [|done|done|done|exact H5|].
  - unfold data_callback, ProcessHttp. cbn [mFields]. change (mIsWebSocket f0) with false. change (mISCompleted f0) with false.
    cbn [negb]. rewrite (tryParse_request uninit r HTTP_BOTH _ f0 _ Hr Hx Hs). fold f h1.
    cbn [mbind option_bind]. change (mISCompleted (mFields h1)) with (mISCompleted f). rewrite Hc'. cbn [negb].
    by rewrite Ecomp.
  - destruct (mIsKeepAlive f); [done|]. intros b. unfold data_callback, ProcessHttp.
    change (mFields h1) with f. rewrite Hws, Hc'. cbn [negb]. by rewrite Ecomp.
Qed.

(** ** Concrete sessions *)

Definition is_byteb (b : Z) : bool := (0 <=? b) && (b <? 256).

Lemma bytes_decided l : forallb is_byteb l = true -> Forall is_byte l.
Proof. apply forallb_Forall. unfold is_byteb, is_byte. intros b. lia. Qed.

(** The request and the messages of the examples of RFC 6455: a text in three
    fragments with a ping between them, and a masked binary message. *)
Definition demo_upgrade : request :=
  mk_request HTTP_GET (str "/chat?room=1")
    [mk_header Plain (str "Host") (str "server.example.com");
     mk_header Upgrade (str "Upgrade") (str "websocket");
     mk_header (Token ToUpgrade) (str "Connection") (str "Upgrade");
     mk_header Plain (str "Sec-WebSocket-Key") (str "dGhlIHNhbXBsZSBub25jZQ==")] [].

Definition demo_chat : url_parts := mk_parts None (str "/chat") (Some (str "room=1")) None.

Definition demo_messages : list message :=
  [Parts TEXT_FRAME (str "He") [([], str "l"); ([(PING_FRAME, str "now")], str "lo")];
   Whole BINARY_FRAME [1; 2; 3]].

Definition demo_wire : list sent_frame :=
  [(0, 0, 0, 0, false, (TEXT_FRAME, false, str "He"));
   (9, 8, 7, 6, true, (CONTINUATION_FRAME, false, str "l"));
   (0, 0, 0, 0, false, (PING_FRAME, true, str "now"));
   (1, 2, 3, 4, true, (CONTINUATION_FRAME, true, str "lo"));
   (17, 400, 3, -1, true, (BINARY_FRAME, true, [1; 2; 3]))].

Definition demo_bytes : bytes := Eval vm_compute in concat (map frame_bytes demo_wire).
Definition demo_chunks : list bytes :=
  Eval vm_compute in [take 9 (drop 5 demo_bytes); drop 14 demo_bytes].

Definition all_callbacks : callbacks := mk_callbacks true true true.

(** A parser in the WebSocket state. *)
Definition demo_socket : HTTPParser :=
  mk_HTTPParser HTTP_BOTH (http_parser_init HTTP_BOTH) (set_mIsWebSocket true (new_fields 0 0)).

Lemma demo_messages_ok : Forall message_ok demo_messages.
Proof. repeat constructor; vm_compute; congruence. Qed.

Lemma ws_cut_independent_witness :
  exists h', feed url0 [] [] all_callbacks [take 3 demo_bytes; take 15 (drop 3 demo_bytes)] [] demo_socket =
    Some (take 2 (drop 16 demo_bytes), h', [WSCallback PING_FRAME (str "now")]).
Proof.
  destruct (ws_cut_independent url0 [] [] all_callbacks
    [take 3 demo_bytes; take 15 (drop 3 demo_bytes)] demo_socket) as (n & f' & h' & cs & E & _ & Ef & _).
  - repeat (constructor; [apply bytes_decided; vm_compute; reflexivity|]). constructor.
  - reflexivity.
  - exists h'. vm_compute in E. injection E as <- <- <-. exact Ef.
Defined.

(** The key and the answer of RFC 6455, section 1.3. *)
Lemma ws_session_witness :
  exists h f, feed url0 (replicate 64 7) [] all_callbacks
      ((head_bytes demo_upgrade ++ take 5 demo_bytes) :: demo_chunks) [] (session_parser 0 0) =
    Some ([], h, [SendPacket (str "HTTP/1.1 101 Switching Protocols" ++ CRLF ++ str "Upgrade: websocket" ++ CRLF ++
        str "Connection: Upgrade" ++ CRLF ++
        str "Sec-WebSocket-Accept: s3pPLMBiTxaQ9kYGzzhZRbK+xOo=" ++ CRLF ++ CRLF); WSConnectedCallback f; WSCallback PING_FRAME (str "now");
      WSCallback TEXT_FRAME (str "Hello"); WSCallback BINARY_FRAME [1; 2; 3]]) /\
    mPath f = str "/chat" /\ mQuery f = str "room=1".
Proof.
  destruct (ws_session url0 (replicate 64 7) [] all_callbacks 0 0 demo_upgrade demo_chat
    (str "dGhlIHNhbXBsZSBub25jZQ==") (take 5 demo_bytes) demo_messages demo_wire demo_chunks)
    as (h & f & E & Hp & Hq).
  - reflexivity.
  - reflexivity.
  - reflexivity.
  - split; [apply well_formedb_ok; vm_compute; reflexivity|]. by split.
  - repeat split; try done; repeat constructor; vm_compute; congruence.
  - discriminate.
  - reflexivity.
  - reflexivity.
  - reflexivity.
  - discriminate.
  - apply bytes_decided. vm_compute. reflexivity.
  - reflexivity.
  - exact demo_messages_ok.
  - reflexivity.
  - discriminate.
  - repeat (constructor; [apply bytes_decided; vm_compute; reflexivity|]). constructor.
  - reflexivity.
  - assert (Ea : handshake_answer (str "dGhlIHNhbXBsZSBub25jZQ==") =
      str "HTTP/1.1 101 Switching Protocols" ++ CRLF ++ str "Upgrade: websocket" ++ CRLF ++
      str "Connection: Upgrade" ++ CRLF ++
      str "Sec-WebSocket-Accept: s3pPLMBiTxaQ9kYGzzhZRbK+xOo=" ++ CRLF ++ CRLF) by (vm_compute; reflexivity).
    rewrite Ea in E. exists h, f. split; [exact E|by split].
Defined.

Definition demo_close : request :=
  mk_request HTTP_GET (str "/bye") [mk_header (Token Close) (str "Connection") (str "close")] [].

Lemma closed_request_redelivered_witness :
  exists h f, data_callback url0 [] [] all_callbacks (request_bytes demo_close) (session_parser 0 0) =
      Some (40, h, [HttpCallback f]) /\ mPath f = str "/bye" /\
    data_callback url0 [] [] all_callbacks (str "anything") h = Some (8, h, [HttpCallback f]).
Proof.
  destruct (closed_request_redelivered url0 [] [] all_callbacks 0 0 demo_close (just_path (str "/bye")))
    as (h & f & E & Hp & _ & _ & Hv & Hk).
  - reflexivity.
  - apply requestb_ok. vm_compute. reflexivity.
  - repeat split; try done; repeat constructor; vm_compute; congruence.
  - discriminate.
  - reflexivity.
  - reflexivity.
  - exists h, f. split; [exact E|]. split; [exact Hp|]. exact (Hk (str "anything")).
Defined.
