(* ===== verification/Packet.v ===== *)
(** * utils/packet.h

    The writer and the reader of binary messages: byte order, growth of the buffer,
    and what is written is read back. *)

From S2P Require Import Prelude.
From S2P Require Import Words.


(** ** Byte order: [htonl], [htobe16] and the others of a little-endian machine *)

Definition bswap (n : nat) (v : Z) : Z := of_le_bytes (rev (le_bytes n v)).

Definition htonl (host : Z) : Z := bswap 4 host.

Definition hl64ton (host : Z) : Z :=
  let low := Z.land host 0xFFFFFFFF in
  let high := Z.land (Z.shiftr host 32) 0xFFFFFFFF in
  let low := htonl low in
  let high := htonl high in
  let ret := low in
  let ret := u64 (Z.shiftl ret 32) in
  Z.lor ret high.

Definition hostToNetwork64 (host64 : Z) (convert : bool) : Z := if convert then bswap 8 host64 else host64.
Definition hostToNetwork32 (host32 : Z) (convert : bool) : Z := if convert then bswap 4 host32 else host32.
Definition hostToNetwork16 (host16 : Z) (convert : bool) : Z := if convert then bswap 2 host16 else host16.
Definition networkToHost64 (net64 : Z) (convert : bool) : Z := if convert then bswap 8 net64 else net64.
Definition networkToHost32 (net32 : Z) (convert : bool) : Z := if convert then bswap 4 net32 else net32.
Definition networkToHost16 (net16 : Z) (convert : bool) : Z := if convert then bswap 2 net16 else net16.

(** ** BasePacketWriter *)

Record BasePacketWriter := mk_writer {
  mBigEndian : bool;
  mPos : Z;
  mMaxLen : Z;
  mBuffer : bytes;          (* the block that [mBuffer] points to *)
  mIsAutoMalloc : bool;
  mMallocBuffer : bool }.   (* it is one that was allocated *)

Definition BasePacketWriter_new (buffer : bytes) (len : Z) (useBigEndian isAutoMalloc : bool) : BasePacketWriter :=
  mk_writer useBigEndian 0 len buffer isAutoMalloc false.

Definition init (w : BasePacketWriter) : BasePacketWriter :=
  mk_writer (mBigEndian w) 0 (mMaxLen w) (mBuffer w) (mIsAutoMalloc w) (mMallocBuffer w).

Section Writer.
(** [malloc n]: a block of [n] bytes of any contents, or nothing. *)
Context (malloc : Z -> option bytes).

(** [None]: an access outside a block. *)
Definition growBuffer (len : Z) (w : BasePacketWriter) : option BasePacketWriter :=
  if negb (mIsAutoMalloc w) || (u64 (mPos w + len) <=? mMaxLen w) then Some w
  else match malloc (u64 (mMaxLen w + len)) with
  | None => Some w
  | Some newBuffer =>
      src ← load (mBuffer w) 0 (mPos w);
      newBuffer ← memcpy newBuffer 0 src;
      Some (mk_writer (mBigEndian w) (mPos w) (u64 (mMaxLen w + len)) newBuffer (mIsAutoMalloc w) true)
  end.

Definition writeBuffer (buffer : bytes) (w : BasePacketWriter) : option (bool * BasePacketWriter) :=
  let len := zlen buffer in
  w ← growBuffer len w;
  if mMaxLen w <? u64 (mPos w + len) then Some (false, w)
  else
    block ← memcpy (mBuffer w) (mPos w) buffer;
    Some (true, mk_writer (mBigEndian w) (u64 (mPos w + len)) (mMaxLen w) block (mIsAutoMalloc w) (mMallocBuffer w)).

(** The bytes of an object of [n] bytes in memory, as their address gives them. *)
Definition writeBool (value : bool) (w : BasePacketWriter) := writeBuffer (le_bytes 1 (if value then 1 else 0)) w.
Definition writeINT8 (value : Z) (w : BasePacketWriter) := writeBuffer (le_bytes 1 value) w.
Definition writeUINT8 (value : Z) (w : BasePacketWriter) := writeBuffer (le_bytes 1 value) w.
Definition writeINT16 (value : Z) (w : BasePacketWriter) :=
  writeBuffer (le_bytes 2 (swrap 16 (hostToNetwork16 (u16 value) (mBigEndian w)))) w.
Definition writeUINT16 (value : Z) (w : BasePacketWriter) :=
  writeBuffer (le_bytes 2 (hostToNetwork16 value (mBigEndian w))) w.
Definition writeINT32 (value : Z) (w : BasePacketWriter) :=
  writeBuffer (le_bytes 4 (swrap 32 (hostToNetwork32 (u32 value) (mBigEndian w)))) w.
Definition writeUINT32 (value : Z) (w : BasePacketWriter) :=
  writeBuffer (le_bytes 4 (hostToNetwork32 value (mBigEndian w))) w.
Definition writeINT64 (value : Z) (w : BasePacketWriter) :=
  writeBuffer (le_bytes 8 (swrap 64 (hostToNetwork64 (u64 value) (mBigEndian w)))) w.
Definition writeUINT64 (value : Z) (w : BasePacketWriter) :=
  writeBuffer (le_bytes 8 (hostToNetwork64 value (mBigEndian w))) w.
Definition writeBinary (binary : bytes) (w : BasePacketWriter) := writeBuffer binary w.
End Writer.

(** ** BasePacketReader *)

Record BasePacketReader := mk_reader {
  rBigEndian : bool;
  rPos : Z;
  rMaxLen : Z;
  rBuffer : bytes }.

Definition BasePacketReader_new (buffer : bytes) (len : Z) (useBigEndian : bool) : BasePacketReader :=
  mk_reader useBigEndian 0 len buffer.

Definition getLeft (r : BasePacketReader) : Z := u64 (rMaxLen r - rPos r).
Definition skipAll (r : BasePacketReader) : BasePacketReader :=
  mk_reader (rBigEndian r) (rMaxLen r) (rMaxLen r) (rBuffer r).
Definition addPos (value : Z) (r : BasePacketReader) : BasePacketReader :=
  let tmp := u64 (rPos r + value) in
  if (0 <=? tmp) && (tmp <=? rMaxLen r) then mk_reader (rBigEndian r) tmp (rMaxLen r) (rBuffer r) else r.

(** [read] of an object of [n] bytes, as an unsigned integer; [None]: the assertion
    fails, or an access outside the block. *)
Definition read (n : nat) (r : BasePacketReader) : option (Z * BasePacketReader) :=
  if u64 (rPos r + Z.of_nat n) <=? rMaxLen r then
    b ← load (rBuffer r) (rPos r) (Z.of_nat n);
    Some (of_le_bytes b, mk_reader (rBigEndian r) (u64 (rPos r + Z.of_nat n)) (rMaxLen r) (rBuffer r))
  else None.

Definition readBool (r : BasePacketReader) : option (bool * BasePacketReader) :=
  '(value, r) ← read 1 r; Some (negb (value =? 0), r).
Definition readINT8 (r : BasePacketReader) : option (Z * BasePacketReader) :=
  '(value, r) ← read 1 r; Some (swrap 8 value, r).
Definition readUINT8 (r : BasePacketReader) : option (Z * BasePacketReader) := read 1 r.
Definition readINT16 (r : BasePacketReader) : option (Z * BasePacketReader) :=
  '(value, r) ← read 2 r; Some (swrap 16 (networkToHost16 (u16 (swrap 16 value)) (rBigEndian r)), r).
Definition readUINT16 (r : BasePacketReader) : option (Z * BasePacketReader) :=
  '(value, r) ← read 2 r; Some (networkToHost16 value (rBigEndian r), r).
Definition readINT32 (r : BasePacketReader) : option (Z * BasePacketReader) :=
  '(value, r) ← read 4 r; Some (swrap 32 (networkToHost32 (u32 (swrap 32 value)) (rBigEndian r)), r).
Definition readUINT32 (r : BasePacketReader) : option (Z * BasePacketReader) :=
  '(value, r) ← read 4 r; Some (networkToHost32 value (rBigEndian r), r).
Definition readINT64 (r : BasePacketReader) : option (Z * BasePacketReader) :=
  '(value, r) ← read 8 r; Some (swrap 64 (networkToHost64 (u64 (swrap 64 value)) (rBigEndian r)), r).
Definition readUINT64 (r : BasePacketReader) : option (Z * BasePacketReader) :=
  '(value, r) ← read 8 r; Some (networkToHost64 value (rBigEndian r), r).

(** ** Values

    What [operator <<] takes; binary data is read back through [getBuffer] and
    [addPos]. *)
Inductive value :=
  | Bool (v : bool)
  | Int8 (v : Z) | UInt8 (v : Z)
  | Int16 (v : Z) | UInt16 (v : Z)
  | Int32 (v : Z) | UInt32 (v : Z)
  | Int64 (v : Z) | UInt64 (v : Z)
  | Binary (v : bytes).

Definition put (malloc : Z -> option bytes) (v : value) (w : BasePacketWriter) : option (bool * BasePacketWriter) :=
  match v with
  | Bool v => writeBool malloc v w
  | Int8 v => writeINT8 malloc v w
  | UInt8 v => writeUINT8 malloc v w
  | Int16 v => writeINT16 malloc v w
  | UInt16 v => writeUINT16 malloc v w
  | Int32 v => writeINT32 malloc v w
  | UInt32 v => writeUINT32 malloc v w
  | Int64 v => writeINT64 malloc v w
  | UInt64 v => writeUINT64 malloc v w
  | Binary v => writeBinary malloc v w
  end.

(** [writev]; the results of the writes. *)
Fixpoint writev (malloc : Z -> option bytes) (vs : list value) (w : BasePacketWriter) :
    option (list bool * BasePacketWriter) :=
  match vs with
  | [] => Some ([], w)
  | v :: vs => '(b, w) ← put malloc v w; '(bs, w) ← writev malloc vs w; Some (b :: bs, w)
  end.

(** Reading a value of the type of [v]. *)
Definition take_value (v : value) (r : BasePacketReader) : option (value * BasePacketReader) :=
  match v with
  | Bool _ => '(x, r) ← readBool r; Some (Bool x, r)
  | Int8 _ => '(x, r) ← readINT8 r; Some (Int8 x, r)
  | UInt8 _ => '(x, r) ← readUINT8 r; Some (UInt8 x, r)
  | Int16 _ => '(x, r) ← readINT16 r; Some (Int16 x, r)
  | UInt16 _ => '(x, r) ← readUINT16 r; Some (UInt16 x, r)
  | Int32 _ => '(x, r) ← readINT32 r; Some (Int32 x, r)
  | UInt32 _ => '(x, r) ← readUINT32 r; Some (UInt32 x, r)
  | Int64 _ => '(x, r) ← readINT64 r; Some (Int64 x, r)
  | UInt64 _ => '(x, r) ← readUINT64 r; Some (UInt64 x, r)
  | Binary v => x ← load (rBuffer r) (rPos r) (zlen v); Some (Binary x, addPos (zlen v) r)
  end.

Fixpoint take_values (vs : list value) (r : BasePacketReader) : option (list value * BasePacketReader) :=
  match vs with
  | [] => Some ([], r)
  | v :: vs => '(x, r) ← take_value v r; '(xs, r) ← take_values vs r; Some (x :: xs, r)
  end.

(** The type of a value: its range. *)
Definition typed (v : value) : Prop :=
  match v with
  | Bool _ => True
  | Int8 v => - 2 ^ 7 <= v < 2 ^ 7
  | UInt8 v => 0 <= v < 2 ^ 8
  | Int16 v => - 2 ^ 15 <= v < 2 ^ 15
  | UInt16 v => 0 <= v < 2 ^ 16
  | Int32 v => - 2 ^ 31 <= v < 2 ^ 31
  | UInt32 v => 0 <= v < 2 ^ 32
  | Int64 v => - 2 ^ 63 <= v < 2 ^ 63
  | UInt64 v => 0 <= v < 2 ^ 64
  | Binary v => zlen v <= INT_MAX
  end.

(** The bytes of a message: integers with their most significant byte first, or
    least significant first. *)
Definition ordered (be : bool) (n : nat) (v : Z) : bytes := if be then rev (le_bytes n v) else le_bytes n v.

Definition wire (be : bool) (v : value) : bytes :=
  match v with
  | Bool v => [if v then 1 else 0]
  | Int8 v | UInt8 v => ordered be 1 v
  | Int16 v | UInt16 v => ordered be 2 v
  | Int32 v | UInt32 v => ordered be 4 v
  | Int64 v | UInt64 v => ordered be 8 v
  | Binary v => v
  end.

Definition message (be : bool) (vs : list value) : bytes := concat (map (wire be) vs).

(** ** Byte order *)

Lemma le_bytes_congr n a b : a mod 256 ^ Z.of_nat n = b mod 256 ^ Z.of_nat n -> le_bytes n a = le_bytes n b.
Proof.
  intros E. assert (H : forall v, le_bytes n v = le_bytes n (v mod 256 ^ Z.of_nat n)).
  { intros v. rewrite <- of_le_bytes_le_bytes. pose proof (le_bytes_of_le_bytes _ (le_bytes_are_bytes n v)) as H.
    by rewrite length_le_bytes in H. }
  by rewrite (H a), (H b), E.
Qed.

Lemma swrap_mod w v : 0 < w -> swrap w v mod 2 ^ w = v mod 2 ^ w.
Proof.
  intros Hw. unfold swrap. rewrite Zminus_mod_idemp_l. f_equal. lia.
Qed.

Lemma bswap_bytes n v : le_bytes n (bswap n v) = rev (le_bytes n v).
Proof.
  unfold bswap. assert (Hb : Forall is_byte (rev (le_bytes n v))).
  { apply List.Forall_rev, le_bytes_are_bytes. }
  pose proof (le_bytes_of_le_bytes _ Hb) as H. by rewrite length_rev, length_le_bytes in H.
Qed.

Lemma bswap_range n v : 0 <= bswap n v < 256 ^ Z.of_nat n.
Proof.
  unfold bswap. assert (Hb : Forall is_byte (rev (le_bytes n v))).
  { apply List.Forall_rev, le_bytes_are_bytes. }
  apply of_le_bytes_range in Hb. unfold zlen in Hb. by rewrite length_rev, length_le_bytes in Hb.
Qed.

Lemma bswap_bswap n v : bswap n (bswap n v) = v mod 256 ^ Z.of_nat n.
Proof. unfold bswap at 1. by rewrite bswap_bytes, rev_involutive, of_le_bytes_le_bytes. Qed.

Lemma bswap_mod n v : bswap n (v mod 256 ^ Z.of_nat n) = bswap n v.
Proof. unfold bswap. do 2 f_equal. apply le_bytes_congr. by rewrite Zmod_mod. Qed.

Lemma of_le_bytes_app l1 l2 : of_le_bytes (l1 ++ l2) = of_le_bytes l1 + 256 ^ zlen l1 * of_le_bytes l2.
Proof.
  induction l1 as [|b l1 IH]; [change (zlen []) with 0; simpl; lia|].
  cbn [app of_le_bytes]. rewrite IH, zlen_cons, Z.pow_add_r by (done || apply zlen_nonneg). lia.
Qed.

Lemma le_bytes_app n m v : le_bytes (n + m) v = le_bytes n v ++ le_bytes m (v / 256 ^ Z.of_nat n).
Proof.
  revert v. induction n as [|n IH]; intros v; [by rewrite Z.div_1_r|].
  cbn [le_bytes Nat.add app]. rewrite IH, Nat2Z.inj_succ, Z.pow_succ_r, Z.div_div by lia. done.
Qed.

(** The version for systems without [htobe64] is the same function. *)
Lemma hl64ton_bswap host : hl64ton host = bswap 8 host.
Proof.
  unfold hl64ton, htonl. change 0xFFFFFFFF with (Z.ones 32). rewrite !Z.land_ones by lia.
  change (2 ^ 32) with (256 ^ Z.of_nat 4). rewrite !bswap_mod.
  pose proof (bswap_range 4 host) as R1. pose proof (bswap_range 4 (Z.shiftr host 32)) as R2.
  change (256 ^ Z.of_nat 4) with (2 ^ 32) in *.
  rewrite wrap_small by (rewrite Z.shiftl_mul_pow2 by lia; lia).
  rewrite Z.lor_comm, lor_shiftl_add by (done || lia). rewrite Z.shiftr_div_pow2 by lia.
  unfold bswap. change (le_bytes 8 host) with (le_bytes (4 + 4) host).
  rewrite le_bytes_app, rev_app_distr, of_le_bytes_app. unfold zlen. rewrite length_rev, length_le_bytes.
  change (256 ^ Z.of_nat 4) with (2 ^ 32). lia.
Qed.

(** What is written of an integer, and what is read of it. *)
Lemma written_bytes n (be : bool) (s : Z -> Z) (v : Z) :
  (forall z : Z, s z mod 256 ^ Z.of_nat n = z mod 256 ^ Z.of_nat n) ->
  le_bytes n (s (if be then bswap n v else v)) = ordered be n v.
Proof.
  intros Hs. rewrite (le_bytes_congr n _ _ (Hs _)). unfold ordered. destruct be; [apply bswap_bytes|done].
Qed.

Lemma bswap_u n w v : 2 ^ w = 256 ^ Z.of_nat n -> bswap n (wrap w v) = bswap n v.
Proof. intros E. unfold wrap. rewrite E. apply bswap_mod. Qed.

(** Every write is the write of the value's bytes. *)
Lemma put_bytes malloc v w : put malloc v w = writeBuffer malloc (wire (mBigEndian w) v) w.
Proof.
  destruct v as [b|v|v|v|v|v|v|v|v|v]; cbn [put wire].
  - unfold writeBool. by destruct b.
  - unfold writeINT8, ordered. by destruct (mBigEndian w).
  - unfold writeUINT8, ordered. by destruct (mBigEndian w).
  - unfold writeINT16, hostToNetwork16. rewrite bswap_u by done. f_equal.
    rewrite <- (written_bytes 2 (mBigEndian w) (swrap 16)) by (intros; by apply (swrap_mod 16)).
    destruct (mBigEndian w); [done|]. apply le_bytes_congr. change (256 ^ Z.of_nat 2) with (2 ^ 16).
    rewrite !swrap_mod by lia. unfold wrap. by rewrite Zmod_mod.
  - unfold writeUINT16, hostToNetwork16. f_equal. by rewrite <- (written_bytes 2 (mBigEndian w) (fun z => z)).
  - unfold writeINT32, hostToNetwork32. rewrite bswap_u by done. f_equal.
    rewrite <- (written_bytes 4 (mBigEndian w) (swrap 32)) by (intros; by apply (swrap_mod 32)).
    destruct (mBigEndian w); [done|]. apply le_bytes_congr. change (256 ^ Z.of_nat 4) with (2 ^ 32).
    rewrite !swrap_mod by lia. unfold wrap. by rewrite Zmod_mod.
  - unfold writeUINT32, hostToNetwork32. f_equal. by rewrite <- (written_bytes 4 (mBigEndian w) (fun z => z)).
  - unfold writeINT64, hostToNetwork64. rewrite bswap_u by done. f_equal.
    rewrite <- (written_bytes 8 (mBigEndian w) (swrap 64)) by (intros; by apply (swrap_mod 64)).
    destruct (mBigEndian w); [done|]. apply le_bytes_congr. change (256 ^ Z.of_nat 8) with (2 ^ 64).
    rewrite !swrap_mod by lia. unfold wrap. by rewrite Zmod_mod.
  - unfold writeUINT64, hostToNetwork64. f_equal. by rewrite <- (written_bytes 8 (mBigEndian w) (fun z => z)).
  - done.
Qed.

(** ** The writer *)

Definition wf (w : BasePacketWriter) : Prop := 0 <= mPos w <= mMaxLen w /\ mMaxLen w <= zlen (mBuffer w).

Definition contents (w : BasePacketWriter) : bytes := slice (mBuffer w) 0 (mPos w).

(** The blocks of the allocator have the length asked for. *)
Definition allocator (malloc : Z -> option bytes) : Prop :=
  forall n b, malloc n = Some b -> zlen b = n.

(** Whether [len] more bytes fit or can be made to fit. *)
Definition fits (malloc : Z -> option bytes) (len : Z) (w : BasePacketWriter) : bool :=
  (mPos w + len <=? mMaxLen w) || (mIsAutoMalloc w && bool_decide (is_Some (malloc (mMaxLen w + len)))).

Section Writing.
Context (malloc : Z -> option bytes) (Hmalloc : allocator malloc).

Lemma grow_spec len w : wf w -> 0 <= len -> mMaxLen w + len < 2 ^ 64 ->
  exists w', growBuffer malloc len w = Some w' /\ wf w' /\ contents w' = contents w /\ mPos w' = mPos w /\
    mBigEndian w' = mBigEndian w /\ mIsAutoMalloc w' = mIsAutoMalloc w /\
    mMaxLen w <= mMaxLen w' <= mMaxLen w + len /\ (mPos w + len <=? mMaxLen w') = fits malloc len w.
Proof.
  intros [Hp Hm] Hl Hmax. unfold growBuffer, fits. rewrite !wrap_small by lia.
  destruct (mIsAutoMalloc w) eqn:Ea; cbn [negb orb andb].
  - destruct (Z.leb_spec (mPos w + len) (mMaxLen w)) as [H|H]; cbn [orb].
    + exists w. split_and!; try done; try lia; by apply Z.leb_le.
    + destruct (malloc (mMaxLen w + len)) as [b|] eqn:Eb.
      * pose proof (Hmalloc _ _ Eb) as Lb. rewrite load_ok by lia. cbn [mbind option_bind].
        set (src := slice (mBuffer w) 0 (mPos w)). assert (Ls : zlen src = mPos w) by (apply zlen_slice; lia).
        rewrite memcpy_spec by lia. cbn [mbind option_bind].
        set (b' := if zlen src =? 0 then b else splice b 0 src).
        assert (Lb' : zlen b' = zlen b).
        { unfold b'. destruct (zlen src =? 0); [done|]. apply zlen_splice; lia. }
        eexists. split; [done|]. unfold wf, contents. cbn [mPos mMaxLen mBuffer mBigEndian mIsAutoMalloc].
        split; [lia|]. split.
        { unfold b'. destruct (Z.eqb_spec (zlen src) 0) as [E0|].
          - rewrite !slice_nil by lia. done.
          - rewrite <- Ls at 1. rewrite slice_splice_same by lia. done. }
        split_and!; try done; try lia; rewrite bool_decide_eq_true_2 by done. apply Z.leb_le. lia.
      * exists w. split_and!; try done; try lia; rewrite bool_decide_eq_false_2 by (by intros []).
        apply Z.leb_gt. lia.
  - exists w. split_and!; try done; try lia; by rewrite orb_false_r.
Qed.

(** A write that fits appends the bytes; one that does not changes nothing. *)
Lemma writeBuffer_spec b w : wf w -> mMaxLen w + zlen b < 2 ^ 64 ->
  exists w', writeBuffer malloc b w = Some (fits malloc (zlen b) w, w') /\ wf w' /\
    contents w' = contents w ++ (if fits malloc (zlen b) w then b else []) /\
    mPos w' = mPos w + (if fits malloc (zlen b) w then zlen b else 0) /\
    mBigEndian w' = mBigEndian w /\ mIsAutoMalloc w' = mIsAutoMalloc w /\
    mMaxLen w <= mMaxLen w' <= mMaxLen w + zlen b.
Proof.
  intros Hw Hmax. pose proof (zlen_nonneg b) as Hb. pose proof Hw as [Hp Hm]. unfold writeBuffer.
  destruct (grow_spec (zlen b) w Hw Hb Hmax) as (w1 & -> & [Hp1 Hm1] & Hc & Ep & Ebe & Ea & Hl & <-).
  cbn [mbind option_bind]. rewrite Ep. rewrite wrap_small by lia.
  destruct (Z.leb_spec (mPos w + zlen b) (mMaxLen w1)) as [H|H].
  - rewrite (proj2 (Z.ltb_ge _ _)) by lia. rewrite memcpy_spec by lia. cbn [mbind option_bind].
    eexists. split; [done|]. unfold wf, contents in *. cbn [mPos mMaxLen mBuffer mBigEndian mIsAutoMalloc].
    destruct (Z.eqb_spec (zlen b) 0) as [E0|E0].
    + apply zlen_zero in E0 as ->. change (zlen []) with 0 in *. rewrite app_nil_r, Z.add_0_r in *.
      rewrite <- Hc, Ep. split_and!; try done; lia.
    + rewrite zlen_splice by lia. split; [lia|]. split; [|split_and!; try done; lia].
      rewrite slice_add by lia. rewrite Z.add_0_l, slice_splice_same by lia.
      rewrite slice_splice_before by lia. by rewrite <- Hc, Ep.
  - rewrite (proj2 (Z.ltb_lt _ _)) by lia. exists w1. split; [done|]. rewrite app_nil_r, Z.add_0_r.
    split_and!; try done; lia.
Qed.

(** The values of which the write succeeds. *)
Fixpoint accepted (bs : list bool) (vs : list value) : list value :=
  match bs, vs with
  | b :: bs, v :: vs => if b then v :: accepted bs vs else accepted bs vs
  | _, _ => []
  end.

Lemma writev_spec vs : forall w, wf w -> mMaxLen w + zlen (message (mBigEndian w) vs) < 2 ^ 64 ->
  exists bs w', writev malloc vs w = Some (bs, w') /\ wf w' /\ length bs = length vs /\
    contents w' = contents w ++ message (mBigEndian w) (accepted bs vs) /\
    (mPos w + zlen (message (mBigEndian w) vs) <= mMaxLen w \/
       (mIsAutoMalloc w = true /\ (forall n, 0 <= n -> is_Some (malloc n))) -> bs = map (fun _ => true) vs).
Proof.
  induction vs as [|v vs IH]; intros w Hw Hmax.
  - exists [], w. cbn. unfold message. cbn. by rewrite app_nil_r.
  - unfold message in *. cbn [map concat] in *. rewrite zlen_app in *. cbn [writev]. rewrite put_bytes.
    pose proof (zlen_nonneg (concat (map (wire (mBigEndian w)) vs))).
    pose proof (zlen_nonneg (wire (mBigEndian w) v)).
    destruct (writeBuffer_spec (wire (mBigEndian w) v) w Hw ltac:(lia)) as (w1 & -> & Hw1 & Hc1 & Ep & Ebe & Ea & Hl).
    cbn [mbind option_bind]. rewrite <- Ebe in *. destruct (IH w1 Hw1 ltac:(lia)) as (bs & w2 & -> & Hw2 & Hn & Hc2 & Hall).
    cbn [mbind option_bind]. eexists _, w2. split; [done|]. split; [done|]. split; [by cbn; rewrite Hn|]. split.
    + rewrite Hc2, Hc1. cbn [accepted]. destruct (fits malloc _ w); cbn [map concat]; by rewrite <- app_assoc.
    + intros Hfit. assert (Hf : fits malloc (zlen (wire (mBigEndian w1) v)) w = true).
      { unfold fits. destruct Hfit as [Hfit|[Haut Hmem]].
        - apply orb_true_iff. left. apply Z.leb_le. lia.
        - rewrite Haut, bool_decide_eq_true_2; [apply orb_true_r|]. apply Hmem. destruct Hw. lia. }
      rewrite Hf in *. cbn [map]. f_equal. apply Hall. destruct Hfit as [Hfit|[Haut Hmem]].
      * left. lia.
      * right. by rewrite Ea.
Qed.
End Writing.

(** ** The reader *)

(** [l] is what is left to read. *)
Definition left (r : BasePacketReader) (l : bytes) : Prop :=
  0 <= rPos r /\ rMaxLen r = rPos r + zlen l /\ rMaxLen r <= zlen (rBuffer r) /\ rMaxLen r < 2 ^ 64 /\
  slice (rBuffer r) (rPos r) (zlen l) = l.

Definition moved (r : BasePacketReader) (n : Z) : BasePacketReader :=
  mk_reader (rBigEndian r) (rPos r + n) (rMaxLen r) (rBuffer r).

Lemma left_app r l1 l2 : left r (l1 ++ l2) ->
  load (rBuffer r) (rPos r) (zlen l1) = Some l1 /\ left (moved r (zlen l1)) l2 /\
  u64 (rPos r + zlen l1) = rPos r + zlen l1 /\ rPos r + zlen l1 <= rMaxLen r.
Proof.
  intros (Hp & Hm & Hb & Hmax & Hs). rewrite zlen_app in *.
  pose proof (zlen_nonneg l1). pose proof (zlen_nonneg l2).
  rewrite slice_add in Hs by lia. pose proof (zlen_slice (rBuffer r) (rPos r) (zlen l1) ltac:(lia) ltac:(lia) ltac:(lia)) as L.
  apply app_inj_1 in Hs as [H1 H2]; [|by apply Nat2Z.inj].
  rewrite load_ok, H1 by lia. split; [done|]. split; [|split; [apply wrap_small; lia|lia]].
  unfold left. cbn [moved rPos rMaxLen rBuffer]. split_and!; try lia. exact H2.
Qed.

Lemma read_spec n r l1 l2 : left r (l1 ++ l2) -> length l1 = n ->
  read n r = Some (of_le_bytes l1, moved r (Z.of_nat n)) /\ left (moved r (Z.of_nat n)) l2.
Proof.
  intros Hl <-. destruct (left_app r l1 l2 Hl) as (E & Hl' & Eu & Hle). unfold zlen in *. unfold read.
  rewrite Eu, E, (proj2 (Z.leb_le _ _)) by lia. done.
Qed.

Lemma ordered_length be n v : length (ordered be n v) = n.
Proof. unfold ordered. destruct be; rewrite ?length_rev; apply length_le_bytes. Qed.

(** The value that is read from the bytes of [v], in either order. *)
Lemma read_value n (be : bool) v :
  (if be then bswap n (of_le_bytes (ordered be n v)) else of_le_bytes (ordered be n v)) = v mod 256 ^ Z.of_nat n.
Proof.
  unfold ordered. destruct be; [|apply of_le_bytes_le_bytes].
  fold (bswap n v). apply bswap_bswap.
Qed.

Lemma swrap_signed w v : 0 < w -> - 2 ^ (w - 1) <= v < 2 ^ (w - 1) -> swrap w (v mod 2 ^ w) = v.
Proof.
  intros Hw Hv. rewrite <- (swrap_small w v) at 2 by done. unfold swrap. by rewrite Zplus_mod_idemp_l.
Qed.

Lemma u_swrap w v : 0 < w -> wrap w (swrap w v) = v mod 2 ^ w.
Proof. intros. by apply swrap_mod. Qed.

Lemma swrap_congr w a b : a mod 2 ^ w = b mod 2 ^ w -> swrap w a = swrap w b.
Proof. intros E. unfold swrap. by rewrite <- (Zplus_mod_idemp_l a), E, Zplus_mod_idemp_l. Qed.

(** Signed and unsigned values of [n] bytes. *)
Lemma signed_value n w (be : bool) v : 2 ^ w = 256 ^ Z.of_nat n -> 0 < w -> - 2 ^ (w - 1) <= v < 2 ^ (w - 1) ->
  let x := wrap w (swrap w (of_le_bytes (ordered be n v))) in
  swrap w (if be then bswap n x else x) = v.
Proof.
  intros Hn Hw Hv x. rewrite <- (swrap_signed w v Hw Hv). apply swrap_congr. rewrite Zmod_mod.
  unfold x. rewrite u_swrap by done. rewrite Hn, <- (read_value n be v).
  destruct be; rewrite ?bswap_mod; [apply Z.mod_small, bswap_range|]. rewrite Zmod_mod. apply Z.mod_small.
  unfold ordered. rewrite of_le_bytes_le_bytes. apply Z.mod_pos_bound. lia.
Qed.

Lemma unsigned_value n w (be : bool) v : 2 ^ w = 256 ^ Z.of_nat n -> 0 <= v < 2 ^ w ->
  (if be then bswap n (of_le_bytes (ordered be n v)) else of_le_bytes (ordered be n v)) = v.
Proof. intros Hn Hv. rewrite read_value, <- Hn. by apply Z.mod_small. Qed.

Lemma byte_value be v : of_le_bytes (ordered be 1 v) = v mod 2 ^ 8.
Proof.
  transitivity (of_le_bytes (le_bytes 1 v)); [by destruct be|]. rewrite of_le_bytes_le_bytes. done.
Qed.

Lemma take_spec v r l : typed v -> left r (wire (rBigEndian r) v ++ l) ->
  take_value v r = Some (v, moved r (zlen (wire (rBigEndian r) v))) /\
  left (moved r (zlen (wire (rBigEndian r) v))) l.
Proof.
  intros Ht Hl. destruct v as [b|v|v|v|v|v|v|v|v|v]; cbn [take_value wire typed] in *;
    unfold readBool, readINT8, readUINT8, readINT16, readUINT16, readINT32, readUINT32, readINT64, readUINT64,
      networkToHost16, networkToHost32, networkToHost64;
    try (destruct (read_spec _ r _ l Hl (ordered_length _ _ _)) as [-> Hl']; cbn [mbind option_bind];
         unfold zlen; rewrite ordered_length; split; [|exact Hl']; do 3 f_equal).
  - destruct (read_spec 1 r _ l Hl eq_refl) as [-> Hl']. cbn [mbind option_bind]. by destruct b.
  - rewrite byte_value. by apply (swrap_signed 8).
  - rewrite byte_value. by apply Z.mod_small.
  - by apply (signed_value 2 16).
  - by apply (unsigned_value 2 16).
  - by apply (signed_value 4 32).
  - by apply (unsigned_value 4 32).
  - by apply (signed_value 8 64).
  - by apply (unsigned_value 8 64).
  - destruct (left_app r v l Hl) as (-> & Hl' & Eu & Hle). cbn [mbind option_bind]. split; [|exact Hl'].
    unfold addPos. rewrite Eu, (proj2 (Z.leb_le (rPos r + zlen v) _)) by done.
    destruct Hl as (Hp & _). rewrite (proj2 (Z.leb_le 0 _)); [done|]. pose proof (zlen_nonneg v). lia.
Qed.

Lemma take_values_spec vs : forall r l, Forall typed vs -> left r (message (rBigEndian r) vs ++ l) ->
  exists r', take_values vs r = Some (vs, r') /\ left r' l /\ rBigEndian r' = rBigEndian r.
Proof.
  unfold message. induction vs as [|v vs IH]; intros r l Ht Hl; [by exists r|].
  apply Forall_cons in Ht as [Hv Ht]. cbn [map concat take_values] in *. rewrite <- app_assoc in Hl.
  destruct (take_spec v r _ Hv Hl) as [-> Hl']. cbn [mbind option_bind].
  destruct (IH _ l Ht Hl') as (r' & -> & H1 & H2). by exists r'.
Qed.

(** C38: a message is read back as it was written. For any values of any of the types,
    in either byte order, when the buffer has room for them or may grow and memory
    is available: every write succeeds, the bytes are those of the values in the
    order asked for, one after the other, and a reader of them returns the same
    values and has nothing left. *)
Theorem packet_roundtrip malloc buffer vs (be auto : bool) :
  allocator malloc -> Forall typed vs -> zlen buffer + zlen (message be vs) < 2 ^ 64 ->
  zlen (message be vs) <= zlen buffer \/ (auto = true /\ forall n, 0 <= n -> is_Some (malloc n)) ->
  exists w r, writev malloc vs (BasePacketWriter_new buffer (zlen buffer) be auto) = Some (map (fun _ => true) vs, w) /\
    slice (mBuffer w) 0 (mPos w) = message be vs /\
    take_values vs (BasePacketReader_new (mBuffer w) (mPos w) be) = Some (vs, r) /\ getLeft r = 0.
Proof.
  intros Hm Ht Hmax Hroom. set (w0 := BasePacketWriter_new _ _ _ _).
  assert (Hw0 : wf w0) by (unfold wf; cbn; pose proof (zlen_nonneg buffer); lia).
  destruct (writev_spec malloc Hm vs w0 Hw0 Hmax) as (bs & w & E & [Hp Hl] & _ & Hc & Hall).
  assert (bs = map (fun _ => true) vs) as ->.
  { apply Hall. destruct Hroom as [H|H]; [left|by right]. cbn. lia. }
  assert (Hacc : forall l, accepted (map (fun _ => true) l) l = l).
  { induction l as [|x l IH]; [done|]. cbn. by rewrite IH. }
  rewrite Hacc in Hc. change (contents w0) with (slice buffer 0 0) in Hc. rewrite (slice_nil buffer) in Hc by lia.
  cbn [app] in Hc. unfold contents in Hc. change (mBigEndian w0) with be in Hc.
  assert (Ep : mPos w = zlen (message be vs)) by (rewrite <- Hc; symmetry; apply zlen_slice; lia).
  destruct (take_values_spec vs (BasePacketReader_new (mBuffer w) (mPos w) be) [] Ht) as (r & Er & Hl' & _).
  { rewrite app_nil_r. unfold left. cbn [BasePacketReader_new rPos rMaxLen rBuffer rBigEndian].
    pose proof (zlen_nonneg buffer). rewrite <- Ep. split_and!; try lia. exact Hc. }
  exists w, r. split; [exact E|]. split; [exact Hc|]. split; [exact Er|].
  destruct Hl' as (_ & Hm' & _). unfold getLeft. rewrite Hm'. change (zlen []) with 0.
  by replace (rPos r + 0 - rPos r) with 0 by lia.
Qed.

Definition demo_values : list value :=
  [Bool true; Int16 (-2); UInt32 0xDEADBEEF; Binary (str "key"); Int64 (- 2 ^ 63); Int8 (-128); UInt64 7].

Definition zeroed (n : Z) : option bytes := if 0 <=? n then Some (replicate (Z.to_nat n) 0) else None.

Lemma packet_roundtrip_witness :
  exists w r, writev zeroed demo_values (BasePacketWriter_new [9; 9; 9] 3 true true) =
      Some (map (fun _ => true) demo_values, w) /\
    slice (mBuffer w) 0 (mPos w) = [1; 255; 254; 0xDE; 0xAD; 0xBE; 0xEF; 107; 101; 121; 128; 0; 0; 0; 0; 0; 0; 0; 128;
      0; 0; 0; 0; 0; 0; 0; 7] /\
    take_values demo_values (BasePacketReader_new (mBuffer w) (mPos w) true) = Some (demo_values, r).
Proof.
  destruct (packet_roundtrip zeroed [9; 9; 9] demo_values true true) as (w & r & E & Hs & Er & _).
  - intros n b. unfold zeroed. destruct (Z.leb_spec 0 n); [|done]. intros [= <-]. rewrite zlen_replicate. lia.
  - repeat constructor; vm_compute; congruence.
  - by vm_compute.
  - right. split; [done|]. intros n Hn. unfold zeroed. rewrite (proj2 (Z.leb_le 0 n)) by done. by eexists.
  - exists w, r. split; [exact E|]. split; [exact Hs|exact Er].
Defined.
