(* ===== verification/HttpFormat.v ===== *)
(** * net/http/HttpFormat.h: building requests and responses

    The builders [HttpQueryParameter], [HttpRequest] and [HttpResponse], and the
    round trip: what [HttpRequest] builds, [HTTPParser] takes apart again.
    [std::unordered_map] fixes no order of iteration: the order is a function
    of the map, any that lists its entries. *)

From S2P Require Import Prelude.
From S2P Require Import Words.
From S2P Require Import HttpChars.
From S2P Require Import HttpUrl.
From S2P Require Import HttpUrlFields.
From S2P Require Import HttpState.
From S2P Require Import HttpExec.
From S2P Require Import HttpHeaders.
From S2P Require Import HttpRun.
From S2P Require Import HttpLines.
From S2P Require Import HttpRequest.
From S2P Require Import HTTPParser.
From S2P Require Import HttpReceive.
#[local] Open Scope Z_scope.
#[local] Open Scope brynet_scope.

(** [std::to_string] of a number that is not negative. *)
Fixpoint to_digits (fuel : nat) (n : Z) : bytes :=
  match fuel with
  | O => []
  | S fuel => (if n <? 10 then [] else to_digits fuel (n / 10)) ++ [ #"0" + n mod 10]
  end.
Definition to_string (n : Z) : bytes := to_digits (S (Z.to_nat (Z.log2 n))) n.

(** The header lines of either builder. *)
Definition head_lines (l : list (bytes * bytes)) : bytes :=
  concat (map (fun '(k, v) => k ++ str ": " ++ v ++ [CR; LF]) l).

(** ** HttpQueryParameter *)

Definition query_add_text (v mParameter : bytes) : bytes := mParameter ++ v.
Definition query_add (k v mParameter : bytes) : bytes :=
  (if 0 <? zlen mParameter then mParameter ++ str "&" else mParameter) ++ k ++ str "=" ++ v.

(** ** HttpRequest *)

Inductive HTTP_METHOD :=
  | HTTP_METHOD_HEAD | HTTP_METHOD_GET | HTTP_METHOD_POST | HTTP_METHOD_PUT | HTTP_METHOD_DELETE
  | HTTP_METHOD_MAX.

Definition method_num (m : HTTP_METHOD) : Z :=
  match m with
  | HTTP_METHOD_HEAD => 0 | HTTP_METHOD_GET => 1 | HTTP_METHOD_POST => 2 | HTTP_METHOD_PUT => 3
  | HTTP_METHOD_DELETE => 4 | HTTP_METHOD_MAX => 5
  end.

Definition HttpMethodString : list bytes :=
  [str "HEAD"; str "GET"; str "POST"; str "PUT"; str "DELETE"].

Module Request.

Record t := mk {
  mUrl : bytes; mQuery : bytes; mBody : bytes; mMethod : HTTP_METHOD; mHeadField : gmap bytes bytes }.

(** [None]: the assertion fails. *)
Definition setMethod (protocol : HTTP_METHOD) (q : t) : option t :=
  if (method_num HTTP_METHOD_HEAD <? method_num protocol) &&
     (method_num protocol <? method_num HTTP_METHOD_MAX)
  then Some (mk (mUrl q) (mQuery q) (mBody q) protocol (mHeadField q)) else None.

Definition addHeadValue (field value : bytes) (q : t) : t :=
  mk (mUrl q) (mQuery q) (mBody q) (mMethod q) (<[field := value]> (mHeadField q)).
Definition setHost (host : bytes) (q : t) : t := addHeadValue (str "Host") host q.
Definition setUrl (url : bytes) (q : t) : t := mk url (mQuery q) (mBody q) (mMethod q) (mHeadField q).
Definition setCookie (v : bytes) (q : t) : t := addHeadValue (str "Cookie") v q.
Definition setContentType (v : bytes) (q : t) : t := addHeadValue (str "Content-Type") v q.
Definition setQuery (query : bytes) (q : t) : t := mk (mUrl q) query (mBody q) (mMethod q) (mHeadField q).
Definition setBody (body : bytes) (q : t) : t :=
  addHeadValue (str "Content-Length") (to_string (zlen body))
    (mk (mUrl q) (mQuery q) body (mMethod q) (mHeadField q)).

(** The constructor. *)
Definition new : t := mk [] [] [] HTTP_METHOD_GET ∅.

Definition getResult (order : gmap bytes bytes -> list (bytes * bytes)) (q : t) : bytes :=
  (if (method_num HTTP_METHOD_HEAD <=? method_num (mMethod q)) &&
      (method_num (mMethod q) <? method_num HTTP_METHOD_MAX)
   then nth (Z.to_nat (method_num (mMethod q))) HttpMethodString [] else []) ++
  str " " ++ mUrl q ++
  (if decide (mQuery q = []) then [] else str "?" ++ mQuery q) ++
  str " HTTP/1.1" ++ [CR; LF] ++ head_lines (order (mHeadField q)) ++ [CR; LF] ++
  (if decide (mBody q = []) then [] else mBody q).

(** The setters, as data. *)
Inductive op :=
  | SetMethod (m : HTTP_METHOD) | SetHost (v : bytes) | SetUrl (v : bytes) | SetCookie (v : bytes)
  | SetContentType (v : bytes) | SetQuery (v : bytes) | SetBody (v : bytes)
  | AddHeadValue (k v : bytes).

Definition step (q : t) (o : op) : option t :=
  match o with
  | SetMethod m => setMethod m q
  | SetHost v => Some (setHost v q)
  | SetUrl v => Some (setUrl v q)
  | SetCookie v => Some (setCookie v q)
  | SetContentType v => Some (setContentType v q)
  | SetQuery v => Some (setQuery v q)
  | SetBody v => Some (setBody v q)
  | AddHeadValue k v => Some (addHeadValue k v q)
  end.

Fixpoint build (ops : list op) (q : t) : option t :=
  match ops with
  | [] => Some q
  | o :: ops => match step q o with Some q' => build ops q' | None => None end
  end.
End Request.

(** ** HttpResponse *)

Module Response.

Inductive HTTP_RESPONSE_STATUS := NONE | OK.
Definition status_num (s : HTTP_RESPONSE_STATUS) : Z := match s with NONE => 0 | OK => 200 end.

Record t := mk { mStatus : HTTP_RESPONSE_STATUS; mHeadField : gmap bytes bytes; mBody : bytes }.

Definition new : t := mk OK ∅ [].
Definition setStatus (status : HTTP_RESPONSE_STATUS) (r : t) : t := mk status (mHeadField r) (mBody r).
Definition addHeadValue (field value : bytes) (r : t) : t :=
  mk (mStatus r) (<[field := value]> (mHeadField r)) (mBody r).
Definition setContentType (v : bytes) (r : t) : t := addHeadValue (str "Content-Type") v r.
Definition setBody (body : bytes) (r : t) : t :=
  addHeadValue (str "Content-Length") (to_string (zlen body)) (mk (mStatus r) (mHeadField r) body).

(** The case of [OK] has no break. *)
Definition status_text (status : HTTP_RESPONSE_STATUS) : bytes :=
  match status with OK => str " OK" | NONE => [] end ++ str "UNKNOWN".

Definition getResult (order : gmap bytes bytes -> list (bytes * bytes)) (r : t) : bytes :=
  str "HTTP/1.1 " ++ to_string (status_num (mStatus r)) ++ status_text (mStatus r) ++ [CR; LF] ++
  head_lines (order (mHeadField r)) ++ [CR; LF] ++
  (if decide (mBody r = []) then [] else mBody r).
End Response.

(** ** Decimal numbers *)

Lemma to_digits_ok fuel : forall n, 0 <= n -> n < 2 ^ Z.of_nat fuel ->
  Forall digit (to_digits fuel n) /\ dec_value 0 (to_digits fuel n) = n.
Proof.
  induction fuel as [|fuel IH]; intros n Hn Hf.
  - simpl in *. split; [constructor|]. change (0 = n). lia.
  - rewrite Nat2Z.inj_succ, Z.pow_succ_r in Hf by lia. cbn [to_digits].
    assert (Hd : digit (#"0" + n mod 10)).
    { unfold digit. pose proof (Z.mod_pos_bound n 10 ltac:(lia)). chars. lia. }
    assert (H : Forall digit (if n <? 10 then [] else to_digits fuel (n / 10)) /\
      dec_value 0 (if n <? 10 then [] else to_digits fuel (n / 10)) = n / 10).
    { destruct (Z.ltb_spec n 10).
      - split; [constructor|]. rewrite Z.div_small by lia. done.
      - apply IH; [apply Z.div_pos; lia|].
        apply Z.le_lt_trans with (n / 2); [apply Z.div_le_compat_l; lia|].
        apply Z.div_lt_upper_bound; lia. }
    destruct H as [H1 H2]. split; [apply Forall_app; by split; [|constructor]|].
    unfold dec_value in *. rewrite fold_left_app, H2. cbn [fold_left].
    rewrite (Z.div_mod n 10) at 3 by lia. lia.
Qed.

Lemma to_string_ok n : 0 <= n -> Forall digit (to_string n) /\ dec_value 0 (to_string n) = n.
Proof.
  intros Hn. apply to_digits_ok; [done|]. rewrite Nat2Z.inj_succ, Z2Nat.id by apply Z.log2_nonneg.
  destruct (Z.eq_dec n 0) as [->|]; [done|]. apply Z.log2_spec. lia.
Qed.

Lemma to_string_not_empty n : to_string n <> [].
Proof. unfold to_string. cbn [to_digits]. intros H%app_eq_nil. by destruct H. Qed.

(** ** What the request builder keeps *)

Definition CL : bytes := str "Content-Length".

Definition field_ok (body k v : bytes) : Prop :=
  if decide (k = CL) then v = to_string (zlen body) else plain_name k /\ value_ok v.

Definition query_ok (q : bytes) : Prop := q = [] \/ word IS_QUERY_CHAR q.

Definition builder_ok (q : Request.t) : Prop :=
  Request.mMethod q <> HTTP_METHOD_HEAD /\ Request.mMethod q <> HTTP_METHOD_MAX /\
  path_ok (Request.mUrl q) /\ query_ok (Request.mQuery q) /\
  map_Forall (field_ok (Request.mBody q)) (Request.mHeadField q) /\
  (Request.mHeadField q !! CL = None -> Request.mBody q = []).

(** The arguments with which the setters are meant to be called. *)
Definition op_ok (o : Request.op) : Prop :=
  match o with
  | Request.SetMethod m => m <> HTTP_METHOD_HEAD /\ m <> HTTP_METHOD_MAX
  | Request.SetHost v | Request.SetCookie v | Request.SetContentType v => value_ok v
  | Request.SetUrl v => path_ok v
  | Request.SetQuery v => query_ok v
  | Request.SetBody v => True
  | Request.AddHeadValue k v => plain_name k /\ value_ok v
  end.

Lemma plain_not_CL k : plain_name k -> k <> CL.
Proof. intros (_ & _ & H) ->. apply H. right. right. by left. Qed.

Lemma plain_nameb k :
  negb (bool_decide (k = [])) && forallb name_byteb k && negb (bool_decide (map TOKEN k ∈ known_names)) = true ->
  plain_name k.
Proof.
  rewrite !andb_true_iff, !negb_true_iff, !bool_decide_eq_false. intros ((H1 & H2) & H3). split; [done|].
  split; [by apply (forallb_Forall name_byte _ _ name_byteb_ok)|]. by rewrite <- list_elem_of_In.
Qed.

Lemma add_head_ok q k v :
  builder_ok q -> plain_name k -> value_ok v -> builder_ok (Request.addHeadValue k v q).
Proof.
  intros (H1 & H2 & H3 & H4 & H5 & H6) Hk Hv. pose proof (plain_not_CL k Hk) as Hne.
  split_and!; try done; simpl.
  - apply map_Forall_insert_2; [|done]. unfold field_ok. by rewrite decide_False.
  - by rewrite lookup_insert_ne.
Qed.

Lemma set_body_ok b q : builder_ok q -> builder_ok (Request.setBody b q).
Proof.
  intros (H1 & H2 & H3 & H4 & H5 & H6). split_and!; try done; simpl; fold CL.
  - intros k v Hl. unfold field_ok. destruct (decide (k = CL)) as [->|Hne].
    + rewrite lookup_insert_eq in Hl. congruence.
    + rewrite lookup_insert_ne in Hl by done. specialize (H5 k v Hl). unfold field_ok in H5.
      by rewrite decide_False in H5.
  - by rewrite lookup_insert_eq.
Qed.

Lemma step_keeps o q : op_ok o -> builder_ok q -> exists q', Request.step q o = Some q' /\ builder_ok q'.
Proof.
  intros Ho Hq. destruct o; cbn [Request.step op_ok] in *;
    try (eexists; split; [reflexivity|]).
  - destruct Hq as (H1 & H2 & H3). unfold Request.setMethod.
    destruct m; try (by destruct Ho); simpl; eexists; (split; [reflexivity|split_and!; apply H3 || done]).
  - apply add_head_ok; [done| |done]. apply plain_nameb. by vm_compute.
  - by destruct Hq as (? & ? & ? & ?).
  - apply add_head_ok; [done| |done]. apply plain_nameb. by vm_compute.
  - apply add_head_ok; [done| |done]. apply plain_nameb. by vm_compute.
  - by destruct Hq as (? & ? & ? & ? & ?).
  - by apply set_body_ok.
  - destruct Ho. by apply add_head_ok.
Qed.

Lemma build_keeps ops : forall q, Forall op_ok ops -> builder_ok q ->
  exists q', Request.build ops q = Some q' /\ builder_ok q'.
Proof.
  induction ops as [|o ops IH]; intros q Ho Hq; [by exists q|].
  apply Forall_cons in Ho as [Ho Hos]. destruct (step_keeps o q Ho Hq) as (q1 & E & H1).
  simpl. rewrite E. by apply IH.
Qed.

Lemma new_ok : builder_ok Request.new.
Proof. split_and!; try done. all: first [by left|apply map_Forall_empty]. Qed.

(** ** What is built, as a request *)

Definition parser_method (m : HTTP_METHOD) : http_method :=
  match m with
  | HTTP_METHOD_HEAD => HTTP_HEAD
  | HTTP_METHOD_POST => HTTP_POST
  | HTTP_METHOD_PUT => HTTP_PUT
  | HTTP_METHOD_DELETE => HTTP_DELETE
  | _ => HTTP_GET
  end.

Definition built_parts (q : Request.t) : url_parts :=
  mk_parts None (Request.mUrl q)
    (if decide (Request.mQuery q = []) then None else Some (Request.mQuery q)) None.

Definition built_header (kv : bytes * bytes) : header :=
  mk_header (if decide (kv.1 = CL) then Length else Plain) kv.1 kv.2.

Definition built_request (l : list (bytes * bytes)) (q : Request.t) : request :=
  mk_request (parser_method (Request.mMethod q)) (url_bytes (built_parts q)) (map built_header l)
    (Request.mBody q).

Lemma head_lines_bytes l : head_lines l = header_bytes (map built_header l).
Proof.
  unfold head_lines, header_bytes. rewrite map_map. f_equal. apply map_ext. by intros [k v].
Qed.

Lemma built_bytes order q :
  builder_ok q -> Request.getResult order q = request_bytes (built_request (order (Request.mHeadField q)) q).
Proof.
  intros (H1 & H2 & _). unfold Request.getResult, request_bytes, head_bytes, request_line, version_line.
  cbn [r_method r_target r_headers r_body built_request]. rewrite <- head_lines_bytes.
  assert (E : (if (method_num HTTP_METHOD_HEAD <=? method_num (Request.mMethod q)) &&
      (method_num (Request.mMethod q) <? method_num HTTP_METHOD_MAX)
     then nth (Z.to_nat (method_num (Request.mMethod q))) HttpMethodString [] else [])
     = method_string (parser_method (Request.mMethod q))) by (by destruct (Request.mMethod q)).
  rewrite E. clear E. rewrite <- !app_assoc. f_equal.
  unfold url_bytes, tail_bytes, built_parts. cbn [w_origin w_path w_query w_fragment opt].
  rewrite !app_nil_r, app_nil_l.
  assert (Eb : (if decide (Request.mBody q = []) then [] else Request.mBody q) = Request.mBody q)
    by (case_decide; congruence).
  rewrite Eb. destruct (decide (Request.mQuery q = [])); cbn [opt]; by rewrite <- ?app_assoc.
Qed.

(** ** It is well-formed *)

Lemma url_run_dead l : url_run s_dead l = s_dead.
Proof.
  induction l as [|c l IH]; [done|]. unfold url_run in *. cbn [fold_left].
  enough (E : parse_url_char s_dead c = s_dead) by (by rewrite E).
  unfold parse_url_char. by repeat case_match.
Qed.

Lemma url_accepts_run l : forall s, url_final (url_run s l) = true -> url_accepts s l = true.
Proof.
  induction l as [|c l IH]; intros s H; [exact H|]. cbn [url_accepts].
  rewrite (IH (parse_url_char s c)) by exact H.
  rewrite bool_decide_eq_false_2; [done|]. intros E. unfold url_run in H. cbn [fold_left] in H.
  rewrite E in H. fold (url_run s_dead l) in H. by rewrite url_run_dead in H.
Qed.

Lemma built_parts_ok q : builder_ok q -> Request.mUrl q <> [] -> parts_ok (built_parts q).
Proof.
  intros (_ & _ & Hp & Hq & _) Hu. unfold parts_ok, built_parts.
  cbn [w_origin w_path w_query w_fragment opt_ok]. split_and!; try done.
  case_decide; [done|]. by destruct Hq.
Qed.

Lemma built_target_ok q :
  builder_ok q -> Request.mUrl q <> [] -> target_ok (url_bytes (built_parts q)) = true.
Proof.
  intros (_ & _ & Hp & Hq & _) Hu. unfold url_bytes, tail_bytes, built_parts.
  cbn [w_origin w_path w_query w_fragment opt]. rewrite app_nil_l, app_nil_r. unfold target_ok.
  destruct (Request.mUrl q) as [|c l]; [done|]. destruct Hp as [-> Hl]. cbn [app].
  apply url_accepts_run. change (#"/" :: l ++ ?x) with ((#"/" :: l) ++ x). rewrite url_run_app.
  destruct (run_enters IS_URL_CHAR s_req_spaces_before_url s_req_path #"/" l UF_PATH)
    as (_ & -> & _); try done.
  destruct (decide (Request.mQuery q = [])) as [|Hne]; [done|]. cbn [opt].
  destruct Hq as [|[_ Hq]]; [done|].
  destruct (Request.mQuery q) as [|d k]; [done|]. apply Forall_cons in Hq as [Hd Hk].
  change (url_final (url_run s_req_query_string_start (d :: k)) = true).
  destruct (run_enters IS_QUERY_CHAR s_req_query_string_start s_req_query_string d k UF_QUERY)
    as (_ & -> & _); try done.
  revert Hd. apply class_state. by vm_compute.
Qed.

Lemma headers_length_built n l : forall cl,
  Forall (fun kv => kv.1 = CL -> dec_value 0 kv.2 = n) l ->
  headers_length (map built_header l) cl =
    if bool_decide (CL ∈ l.*1) then n else cl.
Proof.
  induction l as [|[k v] l IH]; intros cl Hl; [done|]. apply Forall_cons in Hl as [Hk Hl].
  unfold headers_length in *. cbn [map fold_left]. rewrite IH by done. cbn [fmap list_fmap fst].
  destruct (decide (k = CL)) as [->|Hne].
  - unfold line_length, built_header. cbn [h_kind h_value fst snd]. rewrite decide_True by done.
    rewrite (bool_decide_eq_true_2 (CL ∈ CL :: _)) by (by left). cbn [fst snd] in Hk. rewrite Hk by done.
    by case_bool_decide.
  - unfold line_length, built_header. cbn [h_kind h_value fst snd]. rewrite decide_False by done.
    rewrite (bool_decide_ext (CL ∈ k :: l.*1) (CL ∈ l.*1)); [done|].
    rewrite elem_of_cons. intuition congruence.
Qed.

Lemma built_header_ok body k v :
  zlen body < ULLONG_MAX - 10 -> field_ok body k v -> header_ok (built_header (k, v)).
Proof.
  intros Hb. unfold field_ok, header_ok, built_header. cbn [fst snd h_kind h_name h_value].
  case_decide as E; [|done]. intros ->. subst. pose proof (zlen_nonneg body).
  destruct (to_string_ok (zlen body)) as [H1 H2]; [done|].
  split; [by apply (forallb_Forall name_byte _ _ name_byteb_ok)|]. split; [done|].
  split; [apply to_string_not_empty|]. split; [done|]. lia.
Qed.

(** Neither kind of built header sets a flag that matters here. *)
Lemma built_flags l : forall fl, upgrades (headers_flags (map built_header l) fl) = upgrades fl.
Proof.
  induction l as [|[k v] l IH]; intros fl; [done|]. unfold headers_flags in *. cbn [map fold_left].
  rewrite IH. unfold built_header. cbn [h_kind fst]. unfold upgrades.
  case_decide; unfold line_sets; cbn -[Z.land Z.lor]; [|by rewrite Z.lor_0_r].
  by rewrite Z.land_lor_distr_l, Z.lor_0_r.
Qed.

(** An enumeration of the entries of a map. *)
Definition enumerates (order : gmap bytes bytes -> list (bytes * bytes)) : Prop :=
  forall m, order m ≡ₚ map_to_list m.

Lemma order_elem order m k v : enumerates order -> (k, v) ∈ order m <-> m !! k = Some v.
Proof. intros H. by rewrite (H m), elem_of_map_to_list. Qed.

Lemma built_request_ok order q :
  enumerates order -> builder_ok q -> Request.mUrl q <> [] -> zlen (Request.mBody q) < ULLONG_MAX - 10 ->
  zlen (head_bytes (built_request (order (Request.mHeadField q)) q)) <= HTTP_MAX_HEADER_SIZE ->
  request_ok (built_request (order (Request.mHeadField q)) q).
Proof.
  intros Ho Hq Hu Hb Hlen. pose proof (built_target_ok q Hq Hu) as Ht.
  destruct Hq as (H1 & H2 & _ & _ & Hf & Hn). split; [|exact (built_flags _ 0)].
  split_and!; try done.
  - cbn. by destruct (Request.mMethod q).
  - cbn. apply Forall_map, Forall_forall. intros [k v] Hin. apply order_elem in Hin; [|done].
    by apply (built_header_ok (Request.mBody q)), Hf.
  - unfold body_ok. cbn [r_headers r_body built_request].
    rewrite (headers_length_built (zlen (Request.mBody q))).
    + cbv zeta. pose proof (zlen_nonneg (Request.mBody q)).
      destruct (decide (CL ∈ (order (Request.mHeadField q)).*1)) as [Hin|Hin].
      * rewrite (bool_decide_eq_true_2 (CL ∈ _)), bool_decide_eq_false_2; try done.
        unfold ULLONG_MAX in *. lia.
      * rewrite (bool_decide_eq_false_2 (CL ∈ _)), bool_decide_eq_true_2 by done. apply Hn.
        apply eq_None_not_Some. intros [v Hv]. apply Hin, list_elem_of_fmap. exists (CL, v).
        split; [done|]. by apply order_elem.
    + apply Forall_forall. intros [k v] Hin E. apply order_elem in Hin; [|done].
      specialize (Hf k v Hin). unfold field_ok in Hf. cbn in E. rewrite decide_True in Hf by done.
      cbn. rewrite Hf. apply to_string_ok, zlen_nonneg.
  - cbn. lia.
Qed.

(** ** The headers of the map *)

Lemma header_value_absent hs k v : ~ k ∈ map h_name hs -> header_value_of hs k v = v.
Proof.
  revert v. induction hs as [|h hs IH]; intros v Hk; [done|]. cbn [map] in Hk.
  apply not_elem_of_cons in Hk as [Hne Hk]. unfold header_value_of in *. cbn [fold_left].
  rewrite decide_False by congruence. by apply IH.
Qed.

Lemma header_value_present hs h v :
  NoDup (map h_name hs) -> h ∈ hs -> header_value_of hs (h_name h) v = h_value h.
Proof.
  revert v. induction hs as [|h' hs IH]; intros v Hnd Hh; [by apply elem_of_nil in Hh|].
  cbn [map] in Hnd. apply NoDup_cons in Hnd as [Hni Hnd]. unfold header_value_of. cbn [fold_left].
  apply elem_of_cons in Hh as [<-|Hh].
  - rewrite decide_True by done. by apply header_value_absent.
  - rewrite decide_False; [by apply IH|]. intros E. apply Hni. rewrite E.
    apply list_elem_of_fmap. by exists h.
Qed.

Lemma built_names l : map h_name (map built_header l) = l.*1.
Proof. rewrite map_map. by apply map_ext. Qed.

Lemma order_keys order m : enumerates order -> NoDup (order m).*1.
Proof. intros H. rewrite (H m). apply NoDup_fst_map_to_list. Qed.

Lemma built_value order m k :
  enumerates order -> header_value_of (map built_header (order m)) k [] = default [] (m !! k).
Proof.
  intros H. destruct (m !! k) as [v|] eqn:E; cbn [default from_option].
  - apply (header_value_present _ (built_header (k, v))).
    + rewrite built_names. by apply order_keys.
    + apply list_elem_of_fmap. exists (k, v). split; [done|]. by apply order_elem.
  - apply header_value_absent. rewrite built_names. intros ([k' v] & -> & Hin)%list_elem_of_fmap.
    apply order_elem in Hin; [|done]. cbn in *. congruence.
Qed.

(** C8: a request that is built is received as it was meant. Whatever sequence
    of setters is applied to a new HttpRequest with suitable arguments (a path as
    URL, a query without blanks, header names and values that are no line breaks
    and not reserved to the protocol, any body), none fails, and the text that
    getResult makes of it, in whatever order the headers are enumerated, is
    taken entirely by a new HTTPParser and gives back the URL as the path, the
    query, the value of every header and nothing for the others, and the body. *)
Theorem built_request_received uninit t status frame order ops :
  t <> HTTP_RESPONSE -> enumerates order -> Forall op_ok ops ->
  exists q, Request.build ops Request.new = Some q /\
    let text := Request.getResult order q in
    (Request.mUrl q <> [] -> zlen (url_bytes (built_parts q)) < 65536 ->
     zlen (Request.mBody q) < ULLONG_MAX - 10 ->
     zlen text - zlen (Request.mBody q) <= HTTP_MAX_HEADER_SIZE ->
     exists h, tryParse uninit text (HTTPParser_new t status frame) = Some (zlen text, h) /\
       let f := mFields h in
       mISCompleted f = true /\ mPath f = Request.mUrl q /\ mQuery f = Request.mQuery q /\
       mBody f = Request.mBody q /\ forall k, getValue k f = default [] (Request.mHeadField q !! k)).
Proof.
  intros Ht Ho Hops. destruct (build_keeps ops Request.new Hops new_ok) as (q & E & Hq).
  exists q. split; [exact E|]. cbv zeta. intros Hu Hl Hb Hsize.
  rewrite (built_bytes order q Hq) in *. set (r := built_request _ q) in *.
  assert (Hr : request_ok r).
  { apply built_request_ok; try done. unfold request_bytes in Hsize. rewrite zlen_app in Hsize.
    change (r_body r) with (Request.mBody q) in Hsize. fold r. lia. }
  pose proof (new_is_waiting t status frame Ht) as Hx. unfold HTTPParser_new in *. cbn [mParser] in Hx.
  pose proof (split_target_parts uninit _ (built_parts_ok q Hq Hu) Hl Hu) as Hs.
  rewrite (tryParse_request uninit r t _ (new_fields status frame) _ Hr Hx Hs).
  eexists. split; [reflexivity|]. cbn [mFields].
  destruct (with_request_facts (Request.mUrl q, w_query (built_parts q)) r (new_fields status frame))
    as (H1 & _ & H2 & H3 & H4 & H5).
  split_and!; [exact H1|exact H3| |exact H2|].
  - etransitivity; [exact H4|]. unfold built_parts. cbn [w_query snd].
    destruct (decide (Request.mQuery q = [])) as [-> |]; reflexivity.
  - intros k. etransitivity; [apply H5|]. apply built_value, Ho.
Qed.

Lemma value_okb v :
  forallb value_byteb v && negb (bool_decide (v = [])) && negb (znth v 0 0 =? #" ") &&
  negb (znth v 0 0 =? 9) = true -> value_ok v.
Proof.
  rewrite !andb_true_iff, !negb_true_iff, bool_decide_eq_false, !Z.eqb_neq.
  intros (((H1 & H2) & H3) & H4). split; [by apply (forallb_Forall value_byte _ _ value_byteb_ok)|].
  by destruct v.
Qed.

Definition demo_ops : list Request.op :=
  [Request.SetMethod HTTP_METHOD_POST; Request.SetUrl (str "/f"); Request.SetHost (str "h");
   Request.SetBody (str "first"); Request.SetQuery (str "a=1"); Request.AddHeadValue (str "X") (str "y z");
   Request.SetBody (str "hello world")].

Lemma built_request_received_witness :
  exists q, Request.build demo_ops Request.new = Some q /\
    exists h, tryParse url0 (Request.getResult map_to_list q) (HTTPParser_new HTTP_REQUEST 0 0)
        = Some (zlen (Request.getResult map_to_list q), h) /\
      mPath (mFields h) = str "/f" /\ mQuery (mFields h) = str "a=1" /\
      mBody (mFields h) = str "hello world" /\ getValue CL (mFields h) = str "11" /\
      getValue (str "X") (mFields h) = str "y z".
Proof.
  destruct (built_request_received url0 HTTP_REQUEST 0 0 map_to_list demo_ops) as (q & E & H).
  - congruence.
  - intros m. reflexivity.
  - repeat apply Forall_cons_2; cbn [op_ok]; first
      [ apply plain_nameb; reflexivity
      | apply value_okb; reflexivity
      | split; [apply plain_nameb; reflexivity|apply value_okb; reflexivity]
      | split; [reflexivity|repeat constructor; vm_compute; congruence]
      | right; split; [discriminate|repeat constructor; vm_compute; congruence]
      | split; discriminate
      | exact I
      | constructor ].
  - exists q. split; [exact E|]. vm_compute in E. injection E as <-.
    destruct H as (h & E & _ & H1 & H2 & H3 & H4).
    + done.
    + by vm_compute.
    + by vm_compute.
    + vm_compute. congruence.
    + exists h. split; [exact E|]. split_and!; [exact H1|exact H2|exact H3|exact (H4 CL)|exact (H4 (str "X"))].
Defined.
