(* ===== verification/Typeids.v ===== *)
(** * utils/Typeids.h

    The allocator of small identifiers with a value for each: [claimID],
    [reclaimID], [set] and [get], against an abstract allocator; and the order in
    which it hands identifiers out. *)

From S2P Require Import Prelude.
From stdpp Require Import gmap.
#[local] Open Scope Z_scope.
#[local] Open Scope brynet_scope.

Module TypeIDS.
Section TypeIDS.
(** A value is a pointer: [None] is [nullptr]. *)
Context {T : Type}.

(** [mIds] from its back. *)
Record t := mk { mValues : list (option T); mIds : list Z }.

Definition new : t := mk [] [].

Definition _NUM : Z := 100.

Definition increase (s : t) : t :=
  let oldsize := zlen (mValues s) in
  mk (mValues s ++ replicate (Z.to_nat _NUM) None) (reverse (seqZ oldsize _NUM) ++ mIds s).

(** [None]: no identifier, an exception; then a failed assertion. *)
Definition claimID (s : t) : option (Z * t) :=
  let s := match mIds s with [] => increase s | _ => s end in
  match mIds s with
  | [] => None
  | ret :: ids => Some (ret, mk (mValues s) ids)
  end.

Definition reclaimID (id : Z) (s : t) : option t :=
  if (0 <=? id) && (id <? zlen (mValues s)) && negb (bool_decide (id ∈ mIds s))
  then Some (mk (mValues s) (id :: mIds s)) else None.

Definition set (v : option T) (id : Z) (s : t) : option t :=
  if (0 <=? id) && (id <? zlen (mValues s))
  then Some (mk (<[Z.to_nat id := v]> (mValues s)) (mIds s)) else None.

Definition get (id : Z) (s : t) : option (option T) :=
  if (0 <=? id) && (id <? zlen (mValues s)) then Some (znth (mValues s) id None) else None.

(** ** Well-formed allocators *)

Definition inside (s : t) (id : Z) : Prop := 0 <= id < zlen (mValues s).

Definition wf (s : t) : Prop := NoDup (mIds s) /\ Forall (inside s) (mIds s).

(** Handed out and not returned. *)
Definition claimed (s : t) (id : Z) : Prop := inside s id /\ ~ id ∈ mIds s.

#[global] Instance inside_dec s id : Decision (inside s id).
Proof. unfold inside. apply _. Defined.
#[global] Instance claimed_dec s id : Decision (claimed s id).
Proof. unfold claimed. apply _. Defined.

Lemma inside_test s id : inside s id -> (0 <=? id) && (id <? zlen (mValues s)) = true.
Proof. unfold inside. intros. zbool. Qed.

Lemma wf_new : wf new.
Proof. split; constructor. Qed.

Lemma wf_increase s : wf s -> wf (increase s).
Proof.
  intros [Hn Hf]. unfold wf, increase, inside in *. cbn [mIds mValues].
  rewrite zlen_app, zlen_replicate. split.
  - apply NoDup_app. split; [rewrite reverse_Permutation; apply NoDup_seqZ|]. split; [|done].
    intros id Hid Hin. apply elem_of_reverse, elem_of_seqZ in Hid.
    rewrite Forall_forall in Hf. apply Hf in Hin. lia.
  - apply Forall_app. split.
    + apply Forall_forall. intros id Hid. apply elem_of_reverse, elem_of_seqZ in Hid.
      unfold _NUM in *. pose proof (zlen_nonneg (mValues s)). lia.
    + eapply Forall_impl; [exact Hf|]. simpl. lia.
Qed.

Lemma increase_claimed s id : claimed (increase s) id <-> claimed s id.
Proof.
  unfold claimed, inside, increase. cbn [mIds mValues]. rewrite zlen_app, zlen_replicate, elem_of_app.
  rewrite elem_of_reverse, elem_of_seqZ. unfold _NUM. pose proof (zlen_nonneg (mValues s)).
  split; [intros [? Hn]; split; [|intros ?; apply Hn; by right]|intros [? Hn]; split; [|intros [? | ?]]]; try done; try lia.
Qed.

Lemma znth_replicate_None n i : znth (replicate n (@None T)) i None = None.
Proof.
  unfold znth. destruct (i <? 0); [done|].
  destruct (decide (Z.to_nat i < n)%nat).
  - by apply nth_lookup_Some, lookup_replicate_2.
  - rewrite nth_overflow; [done|]. rewrite length_replicate. lia.
Qed.

Lemma increase_values s id : znth (mValues (increase s)) id None = znth (mValues s) id None.
Proof.
  cbn [increase mValues]. destruct (Z.lt_ge_cases id (zlen (mValues s))).
  - by apply znth_app_l.
  - rewrite znth_app_r, znth_replicate_None by done. unfold znth. destruct (id <? 0); [done|].
    rewrite nth_overflow; [done|]. unfold zlen in *. lia.
Qed.

(** What a claim does, whether the allocator grows or not. *)
Lemma claim_spec s : wf s ->
  exists id s', claimID s = Some (id, s') /\ wf s' /\ ~ claimed s id /\ 0 <= id /\
    (forall i, claimed s' i <-> i = id \/ claimed s i) /\
    (forall i, znth (mValues s') i None = znth (mValues s) i None) /\
    zlen (mValues s') = zlen (mValues s) + (if decide (mIds s = []) then _NUM else 0).
Proof.
  intros Hs.
  assert (H : forall s0, wf s0 -> mIds s0 <> [] ->
    exists id s', match mIds s0 with [] => None | ret :: ids => Some (ret, mk (mValues s0) ids) end = Some (id, s') /\
      wf s' /\ ~ claimed s0 id /\ 0 <= id /\ (forall i, claimed s' i <-> i = id \/ claimed s0 i) /\
      mValues s' = mValues s0).
  { intros s0 [Hn Hf] Hne. destruct (mIds s0) as [|id ids] eqn:E; [done|].
    apply NoDup_cons in Hn as [Hni Hn]. apply Forall_cons in Hf as [Hi Hf].
    exists id, (mk (mValues s0) ids). split; [done|]. split; [by split|]. unfold claimed, inside in *.
    rewrite E. cbn [mIds mValues]. split; [intros [_ H]; apply H; by left|]. split; [lia|]. split; [|done].
    intros i. rewrite elem_of_cons. split.
    - intros [? ?]. destruct (decide (i = id)); [by left|right]. intuition.
    - intros [-> | [? ?]]; [done|]. intuition. }
  unfold claimID. destruct (mIds s) as [|id ids] eqn:E.
  - destruct (H (increase s)) as (id & s' & -> & Hwf & Hid & H0 & Hcl & Hv).
    + by apply wf_increase.
    + cbn. rewrite E. intros Hnil. apply (f_equal length) in Hnil.
      rewrite length_app, length_reverse, length_seqZ in Hnil. unfold _NUM in Hnil. simpl in Hnil. lia.
    + exists id, s'. rewrite increase_claimed in Hid. split_and!; try done.
      * intros i. by rewrite Hcl, increase_claimed.
      * intros i. rewrite Hv. apply increase_values.
      * rewrite decide_True, Hv by done. cbn [increase mValues]. by rewrite zlen_app, zlen_replicate.
  - destruct (H s Hs) as (id' & s' & E' & Hwf & Hid & H0 & Hcl & Hv); [by rewrite E|].
    rewrite E in *. exists id', s'. split_and!; try done.
    + intros i. by rewrite Hv.
    + rewrite decide_False, Hv by done. lia.
Qed.

Lemma reclaim_spec s id : wf s -> claimed s id ->
  exists s', reclaimID id s = Some s' /\ wf s' /\ (forall i, claimed s' i <-> i <> id /\ claimed s i) /\
    mValues s' = mValues s.
Proof.
  intros [Hn Hf] [Hi Hni]. unfold reclaimID. rewrite inside_test by done.
  rewrite bool_decide_eq_false_2 by done. eexists. split; [done|]. split; [split|split; [|done]].
  { by constructor. }
  { constructor; [exact Hi|exact Hf]. }
  intros i. unfold claimed, inside. cbn [mIds mValues]. rewrite elem_of_cons. intuition.
Qed.

Lemma set_spec s v id : wf s -> claimed s id ->
  exists s', set v id s = Some s' /\ wf s' /\ (forall i, claimed s' i <-> claimed s i) /\
    (forall i, 0 <= i -> znth (mValues s') i None = if decide (i = id) then v else znth (mValues s) i None) /\
    zlen (mValues s') = zlen (mValues s).
Proof.
  intros [Hn Hf] [Hi Hni]. unfold set. rewrite inside_test by done. eexists. split; [done|].
  assert (L : zlen (<[Z.to_nat id:=v]> (mValues s)) = zlen (mValues s)).
  { unfold zlen. by rewrite length_insert. }
  unfold wf, claimed, inside in *. cbn [mIds mValues]. rewrite L. split; [done|]. split; [done|]. split; [|done].
  intros i H0. unfold znth. rewrite (proj2 (Z.ltb_ge i 0)) by done.
  unfold zlen in Hi. case_decide as E.
  - subst. apply nth_lookup_Some, list_lookup_insert_eq. lia.
  - rewrite !nth_lookup, list_lookup_insert_ne by lia. done.
Qed.

Lemma get_spec s id : inside s id -> get id s = Some (znth (mValues s) id None).
Proof. intros Hi. unfold get. by rewrite inside_test. Qed.

(** ** The abstract allocator

    The identifiers in use, with the value of each; [None]: not set yet, the value
    is any. *)
Inductive op := Claim | Reclaim (id : Z) | Set_ (v : option T) (id : Z) | Get (id : Z).
Inductive result := Id (id : Z) | Done | Value (v : option T).

Definition apply (o : op) (s : t) : option (result * t) :=
  match o with
  | Claim => '(id, s) ← claimID s; Some (Id id, s)
  | Reclaim id => s ← reclaimID id s; Some (Done, s)
  | Set_ v id => s ← set v id s; Some (Done, s)
  | Get id => v ← get id s; Some (Value v, s)
  end.

#[local] Abbreviation in_use := (gmap Z (option (option T))).

Definition allowed (A : in_use) (o : op) : Prop :=
  match o with Claim => True | Reclaim id | Set_ _ id | Get id => is_Some (A !! id) end.

Definition spec (A : in_use) (o : op) (r : result) (A' : in_use) : Prop :=
  match o, r with
  | Claim, Id id => A !! id = None /\ 0 <= id /\ A' = <[id := None]> A
  | Reclaim id, Done => A' = delete id A
  | Set_ v id, Done => A' = <[id := Some v]> A
  | Get id, Value v => A' = A /\ forall w, A !! id = Some (Some w) -> v = w
  | _, _ => False
  end.

Definition represents (s : t) (A : in_use) : Prop :=
  wf s /\ (forall id, is_Some (A !! id) <-> claimed s id) /\
  forall id v, A !! id = Some (Some v) -> znth (mValues s) id None = v.

Lemma represents_new : represents new ∅.
Proof.
  split; [apply wf_new|]. split.
  - intros id. rewrite lookup_empty. unfold claimed, inside. cbn. change (zlen []) with 0.
    split; [by intros [? ?]|lia].
  - intros id v. by rewrite lookup_empty.
Qed.

Lemma apply_spec s A o : represents s A -> allowed A o ->
  exists r s' A', apply o s = Some (r, s') /\ spec A o r A' /\ represents s' A'.
Proof.
  intros (Hwf & Hc & Hv) Ha. destruct o as [|id|v id|id]; cbn [apply allowed spec] in *.
  - destruct (claim_spec s Hwf) as (id & s' & -> & Hwf' & Hid & H0 & Hcl & Hval & _). cbn [mbind option_bind].
    exists (Id id), s', (<[id := None]> A). split; [done|].
    assert (Hn : A !! id = None) by (apply eq_None_not_Some; by rewrite Hc). split; [done|].
    split; [done|]. split.
    + intros i. rewrite lookup_insert_is_Some', Hc, Hcl. intuition.
    + intros i w. destruct (decide (i = id)) as [->|Hne]; [by rewrite lookup_insert_eq|].
      rewrite lookup_insert_ne by done. intros E. rewrite Hval. by apply Hv.
  - apply Hc in Ha. destruct (reclaim_spec s id Hwf Ha) as (s' & -> & Hwf' & Hcl & Hval). cbn [mbind option_bind].
    exists Done, s', (delete id A). split; [done|]. split; [done|]. split; [done|]. split.
    + intros i. rewrite lookup_delete_is_Some, Hc, Hcl. intuition.
    + intros i w. rewrite lookup_delete_Some, Hval. intros [_ E]. by apply Hv.
  - apply Hc in Ha. destruct (set_spec s v id Hwf Ha) as (s' & -> & Hwf' & Hcl & Hval & _). cbn [mbind option_bind].
    exists Done, s', (<[id := Some v]> A). split; [done|]. split; [done|]. split; [done|]. split.
    + intros i. rewrite lookup_insert_is_Some', Hc, Hcl. split; [intros [<-|]; done|by right].
    + intros i w E. assert (Hi : claimed s i).
      { apply Hcl. destruct (decide (i = id)) as [->|]; [by apply Hcl|]. rewrite lookup_insert_ne in E by done.
        apply Hcl, Hc. by eexists. }
      rewrite Hval by apply Hi. destruct (decide (i = id)) as [->|Hne].
      * rewrite lookup_insert_eq in E. congruence.
      * rewrite lookup_insert_ne in E by done. by apply Hv.
  - apply Hc in Ha. rewrite (get_spec s id) by apply Ha. cbn [mbind option_bind].
    eexists _, s, A. split; [done|]. split; [|done]. split; [done|]. intros w E. by apply Hv.
Qed.

(** A client chooses each operation from the results so far. *)
Fixpoint serve (n : nat) (client : list (op * result) -> op) (past : list (op * result)) (s : t) :
    option (list (op * result) * t) :=
  match n with
  | O => Some (past, s)
  | S n => '(r, s) ← apply (client past) s; serve n client (past ++ [(client past, r)]) s
  end.

(** The abstract allocator that has answered these operations. *)
Inductive answers : list (op * result) -> in_use -> Prop :=
  | answers_nil : answers [] ∅
  | answers_snoc past A o r A' : answers past A -> spec A o r A' -> answers (past ++ [(o, r)]) A'.

(** Any client that uses only identifiers it has: nothing fails, and every answer is
    one of the abstract allocator. *)
Lemma serve_answers n client : (forall past A, answers past A -> allowed A (client past)) ->
  forall past s A, answers past A -> represents s A ->
  exists past' s' A', serve n client past s = Some (past', s') /\ answers past' A' /\ represents s' A' /\
    length past' = (length past + n)%nat.
Proof.
  intros Hcl. induction n as [|n IH]; intros past s A Hp Hs.
  - exists past, s, A. cbn. by rewrite Nat.add_0_r.
  - destruct (apply_spec s A (client past) Hs (Hcl past A Hp)) as (r & s' & A' & E & Hsp & Hs').
    cbn [serve]. rewrite E. cbn [mbind option_bind].
    destruct (IH _ s' A' (answers_snoc _ _ _ _ _ Hp Hsp) Hs') as (p' & s2 & A2 & E2 & H2 & H3 & H4).
    exists p', s2, A2. split_and!; try done. rewrite H4, length_app. simpl. lia.
Qed.

(** ** The order of the identifiers

    As long as none is returned, identifiers come in blocks of 100, each backwards. *)
Definition nth_id (k : Z) : Z := 100 * (k / 100) + 99 - k mod 100.

(** After [k] claims. *)
Definition in_order (k : Z) (s : t) : Prop :=
  exists r, 0 <= r < 100 /\ zlen (mValues s) = k + r /\ (k + r) mod 100 = 0 /\
    mIds s = reverse (seqZ (k + r - 100) r).

Lemma in_order_new : in_order 0 new.
Proof. exists 0. split; [lia|]. split; [done|]. split; [done|]. reflexivity. Qed.

Lemma reverse_seqZ m r : 0 <= r -> reverse (seqZ m (r + 1)) = (m + r) :: reverse (seqZ m r).
Proof.
  intros Hr. replace r with (Z.of_nat (Z.to_nat r)) by lia.
  replace (Z.of_nat (Z.to_nat r) + 1) with (Z.of_nat (S (Z.to_nat r))) by lia.
  by rewrite seqZ_S, reverse_app.
Qed.

Lemma claim_in_order k s : 0 <= k -> in_order k s ->
  exists s', claimID s = Some (nth_id k, s') /\ in_order (k + 1) s'.
Proof.
  intros Hk (r & Hr & Hv & Hm & Hi). unfold claimID. destruct (decide (r = 0)) as [->|Hne].
  - cbn in Hi. rewrite Hi. unfold increase. cbn [mIds mValues]. rewrite Hi, app_nil_r.
    change _NUM with (99 + 1). rewrite reverse_seqZ by lia.
    exists (mk (mValues s ++ replicate (Z.to_nat (99 + 1)) None) (reverse (seqZ (zlen (mValues s)) 99))).
    split; [|exists 99; cbn [mIds mValues]; rewrite zlen_app, zlen_replicate; split_and!].
    + do 2 f_equal. unfold nth_id. rewrite Hv. dlia.
    + lia.
    + lia.
    + lia.
    + dlia.
    + f_equal. rewrite Hv. f_equal. lia.
  - assert (E : mIds s = (k + r - 100 + (r - 1)) :: reverse (seqZ (k + r - 100) (r - 1))).
    { rewrite Hi. rewrite <- reverse_seqZ by lia. do 2 f_equal. lia. }
    rewrite E, E. exists (mk (mValues s) (reverse (seqZ (k + r - 100) (r - 1)))).
    split; [|exists (r - 1); cbn [mIds mValues]; split_and!].
    + do 2 f_equal. unfold nth_id. dlia.
    + lia.
    + lia.
    + lia.
    + replace (k + 1 + (r - 1)) with (k + r) by lia. done.
    + do 2 f_equal. lia.
Qed.

Lemma set_in_order k v id s s' : in_order k s -> set v id s = Some s' -> in_order k s'.
Proof.
  intros (r & Hr & Hv & Hm & Hi). unfold set. destruct (_ && _); [|done]. intros [= <-].
  exists r. cbn [mIds mValues]. split_and!; try lia; [|done]. unfold zlen in *. by rewrite length_insert.
Qed.
End TypeIDS.
Arguments t : clear implicits.
Arguments op : clear implicits.
Arguments result : clear implicits.
End TypeIDS.

(** Identifiers are unique while in use and keep their values. Any number of
    operations, each chosen from the answers so far, that use only identifiers in
    use: no assertion fails, and every answer is one of the abstract allocator: a
    claimed identifier is not in use, [get] gives the value that was last set. *)
Theorem identifiers_unique {T} n (client : list (TypeIDS.op T * TypeIDS.result T) -> TypeIDS.op T) :
  (forall past A, TypeIDS.answers past A -> TypeIDS.allowed A (client past)) ->
  exists past s A, TypeIDS.serve n client [] TypeIDS.new = Some (past, s) /\ length past = n /\
    TypeIDS.answers past A.
Proof.
  intros Hc. destruct (TypeIDS.serve_answers n client Hc [] TypeIDS.new ∅) as (past & s & A & E & Ha & _ & Hl).
  - constructor.
  - apply TypeIDS.represents_new.
  - by exists past, s, A.
Qed.

(** A client that claims two identifiers, sets and gets the first, returns the second. *)
Definition demo_client (past : list (TypeIDS.op nat * TypeIDS.result nat)) : TypeIDS.op nat :=
  match past with
  | [(TypeIDS.Claim, TypeIDS.Id i)] => TypeIDS.Set_ (Some 5%nat) i
  | [(TypeIDS.Claim, TypeIDS.Id i); (TypeIDS.Set_ _ j, TypeIDS.Done)] =>
      if decide (i = j) then TypeIDS.Get i else TypeIDS.Claim
  | [(TypeIDS.Claim, TypeIDS.Id i); (TypeIDS.Set_ _ j, TypeIDS.Done); (TypeIDS.Get k, TypeIDS.Value _)] =>
      if decide (i = j) then TypeIDS.Reclaim i else TypeIDS.Claim
  | _ => TypeIDS.Claim
  end.

Lemma answers_last {T} past o r A' : TypeIDS.answers (T := T) (past ++ [(o, r)]) A' ->
  exists A, TypeIDS.answers past A /\ TypeIDS.spec A o r A'.
Proof.
  intros H. inversion H as [E|past0 A o0 r0 A0 H1 H2 E]; [by destruct past|].
  apply app_inj_tail in E as [-> [= -> ->]]. by exists A.
Qed.

Lemma demo_client_allowed past A : TypeIDS.answers past A -> TypeIDS.allowed A (demo_client past).
Proof.
  assert (H1 : forall i A1, TypeIDS.answers (T := nat) [(TypeIDS.Claim, TypeIDS.Id i)] A1 -> is_Some (A1 !! i)).
  { intros i A1 H. apply (answers_last [] _ _ A1) in H as (A0 & _ & _ & _ & ->).
    rewrite lookup_insert_eq. by eexists. }
  assert (H2 : forall i v j A2, TypeIDS.answers (T := nat)
    [(TypeIDS.Claim, TypeIDS.Id i); (TypeIDS.Set_ v j, TypeIDS.Done)] A2 -> is_Some (A2 !! i)).
  { intros i v j A2 H. apply (answers_last [_] _ _ A2) in H as (A1 & H & ->).
    apply lookup_insert_is_Some'. right. by apply (H1 i A1). }
  intros H. unfold demo_client. repeat case_match; try exact I; subst; cbn [TypeIDS.allowed].
  - match goal with H : TypeIDS.answers _ _ |- _ => exact (H1 _ _ H) end.
  - match goal with H : TypeIDS.answers _ _ |- _ => exact (H2 _ _ _ _ H) end.
  - apply (answers_last [_; _] _ _ A) in H as (A2 & H & -> & _). by eapply H2.
Qed.

Lemma identifiers_unique_witness :
  exists past s A, TypeIDS.serve 5 demo_client [] TypeIDS.new = Some (past, s) /\ length past = 5%nat /\
    TypeIDS.answers past A /\
    map snd past = [TypeIDS.Id 99; TypeIDS.Done; TypeIDS.Value (Some 5%nat); TypeIDS.Done; TypeIDS.Id 99].
Proof.
  destruct (identifiers_unique 5 demo_client demo_client_allowed) as (past & s & A & E & Hl & Ha).
  exists past, s, A. split; [exact E|]. split; [exact Hl|]. split; [exact Ha|].
  vm_compute in E. injection E as <- <-. reflexivity.
Defined.
