(* ===== verification/Timer.v ===== *)
(** * timer/Timer.cpp

    Timers with a deadline: a priority queue that [schedule] empties of what is due,
    while callbacks add and cancel timers and the clock goes on. *)

From S2P Require Import Prelude.
From S2P Require Import Words.
From stdpp Require Import gmap sorting.
#[local] Open Scope Z_scope.
#[local] Open Scope brynet_scope.

(** What a callback does to the manager: [Callback] is the type of the functions that are
    called, [run f] what [f] does, in order. *)
Inductive timer_action (Callback : Type) :=
  | AddTimer (timeout : Z) (callback : Callback)
  | Cancel (name : nat).
Arguments AddTimer {Callback}.
Arguments Cancel {Callback}.

Section Timers.
Context {Callback : Type} (run : Callback -> list (timer_action Callback)).

(** Times are in nanoseconds, integers of 64 bits. A timer is known by its [name]: the shared pointer. *)
Record Timer := mk_timer { name : nat; mStartTime : Z; mLastTime : Z; mCallback : Callback }.

Definition s64 : Z -> Z := swrap 64.

(** [mActive] of the timers is false for those in [inactive]; [reads] counts the readings
    of the clock, [fired] the calls of callbacks with the time of each. *)
Record TimerMgr := mk_mgr {
  mTimers : list Timer;
  inactive : gset nat;
  next_name : nat;
  reads : nat;
  fired : list (Timer * Z) }.

Definition TimerMgr_new : TimerMgr := mk_mgr [] ∅ 0 0 [].

(** [steady_clock::now()], at its n-th reading. *)
Context (now : nat -> Z).

Definition read_clock (s : TimerMgr) : Z * TimerMgr :=
  (now (reads s), mk_mgr (mTimers s) (inactive s) (next_name s) (S (reads s)) (fired s)).

Definition CompareTimer (left right : Timer) : bool :=
  let startDiff := s64 (mStartTime left - mStartTime right) in
  let lastDiff := s64 (mLastTime left - mLastTime right) in
  0 <? s64 (startDiff + lastDiff).

Definition getLeftTime (t : Timer) (s : TimerMgr) : Z * TimerMgr :=
  let '(n, s) := read_clock s in (s64 (mLastTime t - s64 (n - mStartTime t)), s).

(** [std::priority_queue]: the timer at the top, of which [pop] takes the one
    reference. *)
Context (top : list Timer -> option Timer).

Definition pop (t : Timer) (l : list Timer) : list Timer :=
  filter (fun t' => name t' <> name t) l.

Definition addTimer (timeout : Z) (callback : Callback) (s : TimerMgr) : TimerMgr :=
  let '(n, s) := read_clock s in
  mk_mgr (mk_timer (next_name s) n timeout callback :: mTimers s) (inactive s) (S (next_name s)) (reads s) (fired s).

Definition cancel (t : nat) (s : TimerMgr) : TimerMgr :=
  mk_mgr (mTimers s) ({[t]} ∪ inactive s) (next_name s) (reads s) (fired s).

Definition act (s : TimerMgr) (a : timer_action Callback) : TimerMgr :=
  match a with AddTimer timeout f => addTimer timeout f s | Cancel t => cancel t s end.

(** [Timer::operator()]; [n]: the time. *)
Definition call_timer (t : Timer) (n : Z) (s : TimerMgr) : TimerMgr :=
  if bool_decide (name t ∈ inactive s) then s
  else fold_left act (run (mCallback t))
    (mk_mgr (mTimers s) (inactive s) (next_name s) (reads s) (fired s ++ [(t, n)])).

Fixpoint schedule (fuel : nat) (s : TimerMgr) : option TimerMgr :=
  match top (mTimers s) with
  | None => Some s
  | Some tmp =>
      match fuel with
      | O => None
      | S fuel =>
          let n := now (reads s) in
          let '(left_time, s) := getLeftTime tmp s in
          if 0 <? left_time then Some s
          else schedule fuel (call_timer tmp n
            (mk_mgr (pop tmp (mTimers s)) (inactive s) (next_name s) (reads s) (fired s)))
      end
  end.

Definition isEmpty (s : TimerMgr) : bool := bool_decide (mTimers s = []).

Definition nearLeftTime (s : TimerMgr) : Z * TimerMgr :=
  match top (mTimers s) with
  | None => (0, s)
  | Some t =>
      let '(result, s) := getLeftTime t s in
      if result <? 0 then (0, s) else (result, s)
  end.

Definition clear (s : TimerMgr) : TimerMgr :=
  mk_mgr [] (inactive s) (next_name s) (reads s) (fired s).

(** ** What holds of every manager *)

(** When a timer is due, and that this is a time of 64 bits. *)
Definition deadline (t : Timer) : Z := mStartTime t + mLastTime t.

Definition timer_ok (t : Timer) : Prop := 0 <= mStartTime t /\ 0 <= mLastTime t /\ deadline t < 2 ^ 63.

(** The clock does not go back, and stays below [horizon]; the top of a queue is one of its
    timers, and no other comes before it; it is missing only in the empty queue. *)
Context (horizon : Z).

Definition monotone : Prop := (forall i, 0 <= now i <= horizon /\ horizon < 2 ^ 63) /\ forall i j, (i <= j)%nat -> now i <= now j.

Definition timeout_ok (timeout : Z) : Prop := 0 <= timeout /\ horizon + timeout < 2 ^ 63.

Definition action_ok (a : timer_action Callback) : Prop :=
  match a with AddTimer timeout _ => timeout_ok timeout | Cancel _ => True end.

Definition priority_queue : Prop := forall l, Forall timer_ok l ->
  match top l with
  | None => l = []
  | Some t => t ∈ l /\ Forall (fun t' => CompareTimer t t' = false) l
  end.

Context (Hnow : monotone) (Htop : priority_queue)
  (Hrun : forall f, Forall action_ok (run f)).

Lemma now_mono i j : (i <= j)%nat -> now i <= now j.
Proof. apply Hnow. Qed.

(** Then no difference of times overflows. *)
Lemma left_time t s : timer_ok t -> (getLeftTime t s).1 = deadline t - now (reads s).
Proof.
  intros (H1 & H2 & H3). pose proof (proj1 Hnow (reads s)) as Hn.
  unfold getLeftTime, deadline, s64 in *. cbn [read_clock fst].
  rewrite (swrap_small 64 (now (reads s) - _)) by lia. rewrite swrap_small by lia. lia.
Qed.

Definition names (s : TimerMgr) : list nat := map name (mTimers s) ++ map (fun x => name x.1) (fired s).

(** Each timer is in the queue or has fired, once; what has fired was due, and came in the
    order of the deadlines, which are all past those that wait. *)
Record mgr_ok (s : TimerMgr) : Prop := {
  ok_names : NoDup (names s);
  ok_fresh : Forall (fun n => (n < next_name s)%nat) (names s);
  ok_past : Forall (fun t => mStartTime t <= now (reads s) /\ timer_ok t) (mTimers s);
  ok_due : Forall (fun x => deadline x.1 <= x.2 <= now (reads s)) (fired s);
  ok_sorted : StronglySorted Z.le (map (fun x => deadline x.1) (fired s));
  ok_before : Forall (fun x => Forall (fun t => deadline x.1 <= deadline t) (mTimers s)) (fired s) }.

Lemma mgr_new_ok : mgr_ok TimerMgr_new.
Proof. split; constructor. Qed.

(** The clock is read, a timer is cancelled: later is fine. *)
Lemma later_ok s inact (r : nat) : mgr_ok s -> (reads s <= r)%nat ->
  mgr_ok (mk_mgr (mTimers s) inact (next_name s) r (fired s)).
Proof.
  intros [H1 H2 H3 H4 H5 H6] Hr. pose proof (now_mono _ _ Hr). split; try done; cbn [mTimers fired reads].
  - eapply Forall_impl; [exact H3|]. intros t Ht. cbv beta in *. split; [lia|apply Ht].
  - eapply Forall_impl; [exact H4|]. intros x Hx. cbv beta in *. lia.
Qed.

Lemma add_ok timeout f s : mgr_ok s -> timeout_ok timeout -> mgr_ok (addTimer timeout f s).
Proof.
  intros Hs Ht. apply (later_ok s (inactive s) (S (reads s))) in Hs as Hs'; [|lia].
  destruct Hs as [H1 H2 H3 H4 H5 H6], Hs' as [_ _ H3' H4' _ _]. cbn [mTimers fired reads] in *.
  split; unfold names in *; cbn [addTimer read_clock mTimers fired reads next_name map name app].
  - constructor; [|exact H1]. intros Hin. rewrite Forall_forall in H2. specialize (H2 _ Hin). lia.
  - constructor; [lia|]. eapply Forall_impl; [exact H2|]. simpl. lia.
  - constructor; [|exact H3']. pose proof (now_mono (reads s) (S (reads s))). pose proof (proj1 Hnow (reads s)).
    unfold timer_ok, timeout_ok, deadline in *. cbn [mStartTime mLastTime]. lia.
  - exact H4'.
  - exact H5.
  - rewrite Forall_forall in H4, H6 |- *. intros x Hx. constructor; [|by apply H6].
    specialize (H4 x Hx). unfold timeout_ok in Ht. unfold deadline at 2. cbn. lia.
Qed.

Lemma act_ok s a : mgr_ok s -> action_ok a -> mgr_ok (act s a).
Proof. intros Hs Ha. destruct a; [by apply add_ok|by apply later_ok]. Qed.

Lemma acts_ok l : forall s, mgr_ok s ->
  Forall action_ok l ->
  mgr_ok (fold_left act l s).
Proof.
  induction l as [|a l IH]; intros s Hs Hl; [done|]. apply Forall_cons in Hl as [Ha Hl].
  apply IH; [|done]. by apply act_ok.
Qed.

(** What the actions keep: the timers that wait, those cancelled, those that have fired. *)
Definition extends (s s' : TimerMgr) : Prop :=
  (forall t, t ∈ mTimers s -> t ∈ mTimers s') /\ inactive s ⊆ inactive s' /\ fired s' = fired s /\
  (reads s <= reads s')%nat.

Lemma act_extends s a : extends s (act s a).
Proof.
  destruct a; unfold extends; cbn; split_and!; try done; try set_solver; try lia.
Qed.

Lemma acts_extend l : forall s, extends s (fold_left act l s).
Proof.
  induction l as [|a l IH]; intros s; [by split_and!|]. cbn [fold_left].
  destruct (act_extends s a) as (A1 & A2 & A3 & A4), (IH (act s a)) as (B1 & B2 & B3 & B4).
  split_and!; [auto|set_solver|congruence|lia].
Qed.

(** The timer at the top, when it is due, is taken and called. *)
Definition popped (t : Timer) (s : TimerMgr) : TimerMgr :=
  mk_mgr (pop t (mTimers s)) (inactive s) (next_name s) (S (reads s)) (fired s).

Lemma compare_deadline t t' : timer_ok t -> timer_ok t' -> CompareTimer t t' = false <-> deadline t <= deadline t'.
Proof.
  unfold CompareTimer, timer_ok, deadline, s64. intros.
  rewrite (swrap_small 64 (mStartTime t - _)), (swrap_small 64 (mLastTime t - _)) by lia. rewrite swrap_small by lia.
  rewrite Z.ltb_ge. lia.
Qed.

Lemma all_timers_ok s : mgr_ok s -> Forall timer_ok (mTimers s).
Proof. intros Hs. eapply Forall_impl; [apply (ok_past s Hs)|]. by intros t [_ H]. Qed.

Lemma timer_in_ok s t : mgr_ok s -> t ∈ mTimers s -> timer_ok t.
Proof. intros Hs. apply (proj1 (Forall_forall _ _) (all_timers_ok s Hs)). Qed.

(** The first timer of the queue is the one that is due first. *)
Lemma top_first s t : mgr_ok s -> top (mTimers s) = Some t ->
  t ∈ mTimers s /\ Forall (fun t' => deadline t <= deadline t') (mTimers s).
Proof.
  intros Hs Et. pose proof (Htop (mTimers s) (all_timers_ok s Hs)) as Hq. rewrite Et in Hq. destruct Hq as [Ht Hmin].
  split; [exact Ht|]. rewrite Forall_forall in Hmin |- *. intros y Hy.
  apply compare_deadline; [by apply (timer_in_ok s)..|by apply Hmin].
Qed.

Lemma top_none s : mgr_ok s -> top (mTimers s) = None -> mTimers s = [].
Proof. intros Hs Et. pose proof (Htop (mTimers s) (all_timers_ok s Hs)) as Hq. by rewrite Et in Hq. Qed.

Lemma same_name s t t' : mgr_ok s -> t ∈ mTimers s -> t' ∈ mTimers s -> name t = name t' -> t = t'.
Proof.
  intros [H1 _ _ _ _ _] Ht Ht' E. unfold names in H1. apply NoDup_app in H1 as [H1 _].
  apply list_elem_of_lookup in Ht as [i Hi], Ht' as [j Hj].
  assert (i = j) as ->; [|congruence].
  eapply NoDup_lookup; [exact H1| |]; rewrite list_lookup_fmap.
  - by rewrite Hi.
  - rewrite Hj. cbn. by rewrite E.
Qed.

Lemma pop_elem t t' l : t' ∈ pop t l <-> t' ∈ l /\ name t' <> name t.
Proof. unfold pop. rewrite list_elem_of_filter. intuition. Qed.

Lemma pop_names t s : mgr_ok s -> t ∈ mTimers s -> NoDup (map name (pop t (mTimers s))) /\
  ~ name t ∈ map name (pop t (mTimers s)).
Proof.
  intros [H1 _ _ _ _ _] Ht. unfold names in H1. apply NoDup_app in H1 as [H1 _]. split.
  - unfold pop. clear Ht. induction (mTimers s) as [|x l IH]; [constructor|].
    cbn [map] in H1. apply NoDup_cons in H1 as [Hn H1]. rewrite filter_cons. case_decide; [|by apply IH].
    cbn [map]. constructor; [|by apply IH]. intros Hin. apply Hn.
    apply list_elem_of_fmap in Hin as (y & E & Hy). apply list_elem_of_filter in Hy as [_ Hy].
    rewrite E. apply list_elem_of_fmap. by exists y.
  - intros Hin. apply list_elem_of_fmap in Hin as (y & E & Hy). apply pop_elem in Hy as [_ Hy]. congruence.
Qed.

Lemma popped_ok s t : mgr_ok s -> t ∈ mTimers s -> mgr_ok (popped t s).
Proof.
  intros Hs Ht. destruct (pop_names t s Hs Ht) as [Hn _].
  apply (later_ok s (inactive s) (S (reads s))) in Hs as Hs'; [|lia].
  destruct Hs as [H1 H2 H3 H4 H5 H6], Hs' as [_ _ H3' H4' _ _]. cbn [mTimers fired reads] in *.
  assert (Hsub : forall n, n ∈ names (popped t s) -> n ∈ names s).
  { intros n. unfold names. cbn [popped mTimers fired]. rewrite !elem_of_app. intros [Hin|Hin]; [left|by right].
    apply list_elem_of_fmap in Hin as (y & -> & Hy). apply pop_elem in Hy as [Hy _].
    apply list_elem_of_fmap. by exists y. }
  split; cbn [popped mTimers fired reads next_name].
  - unfold names in *. cbn [popped mTimers fired]. apply NoDup_app in H1 as (Hn1 & Hd & Hf).
    apply NoDup_app. split; [exact Hn|]. split; [|exact Hf]. intros n Hin. apply Hd.
    apply list_elem_of_fmap in Hin as (y & -> & Hy). apply pop_elem in Hy as [Hy _].
    apply list_elem_of_fmap. by exists y.
  - rewrite Forall_forall in H2 |- *. intros n Hin. by apply H2, Hsub.
  - rewrite Forall_forall in H3' |- *. intros y Hy. apply pop_elem in Hy as [Hy _]. by apply H3'.
  - exact H4'.
  - exact H5.
  - rewrite Forall_forall in H6 |- *. intros x Hx. specialize (H6 x Hx). rewrite Forall_forall in H6 |- *.
    intros y Hy. apply pop_elem in Hy as [Hy _]. by apply H6.
Qed.

Lemma call_ok s t : mgr_ok s -> top (mTimers s) = Some t -> deadline t <= now (reads s) ->
  mgr_ok (call_timer t (now (reads s)) (popped t s)).
Proof.
  intros Hs Et Hd. destruct (top_first s t Hs Et) as [Ht Hmin].
  pose proof (popped_ok s t Hs Ht) as Hp. unfold call_timer. cbn [popped inactive mTimers next_name reads fired].
  case_bool_decide; [exact Hp|]. apply acts_ok; [|apply Hrun].
  destruct (pop_names t s Hs Ht) as [_ Hnt]. pose proof (now_mono (reads s) (S (reads s)) ltac:(lia)) as Hclock.
  destruct Hs as [H1 H2 H3 H4 H5 H6], Hp as [P1 P2 P3 P4 P5 P6].
  cbn [popped mTimers fired reads next_name] in *. unfold names in *. cbn [popped mTimers fired] in *.
  rewrite !Forall_app in *.
  split; cbn [mTimers fired reads next_name]; unfold names; cbn [mTimers fired]; rewrite ?map_app.
  - rewrite app_assoc. apply NoDup_app. split; [exact P1|]. split; [|apply NoDup_singleton].
    intros n Hin ->%list_elem_of_singleton. cbn in Hin. apply elem_of_app in Hin as [Hin|Hin]; [done|].
    apply NoDup_app in H1 as (_ & Hdis & _). apply (Hdis (name t)); [|exact Hin].
    apply list_elem_of_fmap. by exists t.
  - destruct P2 as [P2 P2']. rewrite !Forall_app. split; [exact P2|]. split; [exact P2'|]. constructor; [|done].
    destruct H2 as [H2 _]. rewrite Forall_forall in H2. apply H2. apply list_elem_of_fmap. by exists t.
  - exact P3.
  - apply Forall_app. split; [exact P4|]. constructor; [|done]. cbn. lia.
  - apply StronglySorted_app_2; [|exact H5|repeat constructor].
    intros x1 x2 Hx1 ->%list_elem_of_singleton. apply list_elem_of_fmap in Hx1 as (x & -> & Hx).
    rewrite Forall_forall in H6. specialize (H6 x Hx). rewrite Forall_forall in H6. by apply H6.
  - apply Forall_app. split; [exact P6|]. constructor; [|done]. rewrite Forall_forall in Hmin |- *.
    intros y Hy. apply pop_elem in Hy as [Hy _]. by apply Hmin.
Qed.

Lemma call_keeps s t : mgr_ok s -> t ∈ mTimers s ->
  let s' := call_timer t (now (reads s)) (popped t s) in
  (forall t', t' ∈ mTimers s -> t' = t \/ t' ∈ mTimers s') /\ inactive s ⊆ inactive s' /\ (reads s < reads s')%nat /\
  fired s' = fired s ++ (if bool_decide (name t ∈ inactive s) then [] else [(t, now (reads s))]).
Proof.
  intros Hs Ht s'.
  assert (Hpop : forall t', t' ∈ mTimers s -> t' = t \/ t' ∈ pop t (mTimers s)).
  { intros t' Ht'. destruct (decide (name t' = name t)) as [E|Hne].
    - left. by apply (same_name s).
    - right. by apply pop_elem. }
  unfold s', call_timer. cbn [popped inactive mTimers next_name reads fired]. case_bool_decide.
  - cbn. rewrite app_nil_r. split_and!; try done. lia.
  - match goal with |- context [fold_left act ?l ?s0] => destruct (acts_extend l s0) as (A1 & A2 & A3 & A4) end.
    cbn [mTimers inactive fired reads] in *. split; [|split; [exact A2|split; [lia|exact A3]]].
    intros t' Ht'. destruct (Hpop t' Ht'); [by left|right; by apply A1].
Qed.

(** *** The end of the loop

    Callbacks that add themselves for ever are excluded: each has a weight that is more
    than that of the callbacks it adds. *)
Context (weight : Callback -> nat).

Definition added (l : list (timer_action Callback)) : nat :=
  sum_list_with (fun a => match a with AddTimer _ f => weight f | Cancel _ => 0%nat end) l.

Definition load_of (s : TimerMgr) : nat := sum_list_with (fun t => weight (mCallback t)) (mTimers s).

Context (Hweight : forall f, (added (run f) < weight f)%nat).

Lemma acts_load l : forall s, load_of (fold_left act l s) = (load_of s + added l)%nat.
Proof.
  induction l as [|a l IH]; intros s; [cbn; lia|]. cbn [fold_left]. rewrite IH.
  unfold added. cbn [sum_list_with]. destruct a; unfold load_of; cbn; lia.
Qed.

Lemma pop_load t l : t ∈ l ->
  (sum_list_with (fun t => weight (mCallback t)) (pop t l) + weight (mCallback t) <=
   sum_list_with (fun t => weight (mCallback t)) l)%nat.
Proof.
  unfold pop. induction l as [|x l IH]; intros Ht; [by apply elem_of_nil in Ht|].
  rewrite filter_cons. apply elem_of_cons in Ht as [<-|Ht].
  - rewrite decide_False by auto. cbn [sum_list_with].
    assert (H : forall l, (sum_list_with (fun t => weight (mCallback t)) (filter (fun t' => name t' <> name t) l) <=
      sum_list_with (fun t => weight (mCallback t)) l)%nat).
    { clear. induction l as [|x l IH]; [done|]. rewrite filter_cons. case_decide; cbn [sum_list_with]; lia. }
    specialize (H l). lia.
  - specialize (IH Ht). case_decide; cbn [sum_list_with]; lia.
Qed.

Lemma call_load s t : t ∈ mTimers s -> (load_of (call_timer t (now (reads s)) (popped t s)) < load_of s)%nat.
Proof.
  intros Ht. pose proof (pop_load t (mTimers s) Ht) as Hp. pose proof (Hweight (mCallback t)).
  unfold call_timer. case_bool_decide; [unfold load_of; cbn [popped mTimers]; lia|].
  rewrite acts_load. unfold load_of. cbn [popped mTimers]. lia.
Qed.

(** What one call of [schedule] does, from any manager. *)
Definition scheduled (s s' : TimerMgr) (calls : list (Timer * Z)) : Prop :=
  mgr_ok s' /\ fired s' = fired s ++ calls /\
  Forall (fun x => ~ name x.1 ∈ inactive s) calls /\ inactive s ⊆ inactive s' /\ (reads s <= reads s')%nat /\
  Forall (fun t => now (pred (reads s')) < deadline t) (mTimers s') /\
  forall t, t ∈ mTimers s -> t ∈ mTimers s' \/ t ∈ map fst calls \/ name t ∈ inactive s'.

Lemma schedule_empty s : mgr_ok s -> mTimers s = [] ->
  exists s' calls, Some s = Some s' /\ scheduled s s' calls.
Proof.
  intros Hs Hq. exists s, []. split; [done|]. split; [done|]. rewrite Hq, app_nil_r. split; [done|].
  split; [constructor|]. split; [done|]. split; [done|]. split; [constructor|].
  intros t Ht. by apply elem_of_nil in Ht.
Qed.

Lemma schedule_spec fuel : forall s, mgr_ok s -> (load_of s <= fuel)%nat ->
  exists s' calls, schedule fuel s = Some s' /\ scheduled s s' calls.
Proof.
  induction fuel as [|fuel IH]; intros s Hs Hl; cbn [schedule];
    destruct (top (mTimers s)) as [t|] eqn:Et.
  - destruct (top_first s t Hs Et) as [Ht _]. pose proof (pop_load t (mTimers s) Ht). pose proof (Hweight (mCallback t)).
    unfold load_of in Hl. lia.
  - by apply schedule_empty, top_none.
  - destruct (top_first s t Hs Et) as [Ht Hmin]. pose proof (left_time t s (timer_in_ok s t Hs Ht)) as Hleft.
    destruct (getLeftTime t s) as [left_time s0] eqn:El. unfold getLeftTime, read_clock in El. injection El as El Es0.
    subst s0. cbn [fst] in Hleft. cbn [mTimers inactive next_name fired reads].
    destruct (Z.ltb_spec 0 left_time) as [Hlate|Hdue].
    + eexists _, []. split; [done|]. split; [apply (later_ok s); [done|lia]|]. cbn [mTimers inactive fired reads].
      rewrite app_nil_r. split; [done|]. split; [constructor|]. split; [done|]. split; [lia|]. split; [|intros; by left].
      cbn [pred]. rewrite Forall_forall in Hmin |- *. intros y Hy. specialize (Hmin y Hy). lia.
    + fold (popped t s). assert (Hok : mgr_ok (call_timer t (now (reads s)) (popped t s))).
      { apply call_ok; try done. lia. }
      pose proof (call_load s t Ht) as Hload. destruct (call_keeps s t Hs Ht) as (K1 & K2 & K3 & K4).
      set (s1 := call_timer t (now (reads s)) (popped t s)) in *.
      destruct (IH s1 Hok ltac:(lia)) as (s' & calls & E & Hs' & Hf & Hc & Hi & Hr & Hrest & Hall).
      rewrite E. eexists s', _. split; [done|]. split; [exact Hs'|]. rewrite K4, <- app_assoc in Hf.
      split; [exact Hf|]. split.
      { apply Forall_app. split.
        - case_bool_decide; by repeat constructor.
        - eapply Forall_impl; [exact Hc|]. intros x Hx Hin. apply Hx. by apply K2. }
      split; [set_solver|]. split; [lia|]. split; [exact Hrest|]. intros y Hy. rewrite map_app.
      destruct (K1 y Hy) as [-> | Hy1].
      * right. case_bool_decide as Ei; [right; by apply Hi, K2|left; by left].
      * destruct (Hall y Hy1) as [|[|]]; [by left|right; left|by right; right].
        apply elem_of_app. by right.
  - by apply schedule_empty, top_none.
Qed.

(** A manager in use. *)
Inductive reachable : TimerMgr -> Prop :=
  | reach_new : reachable TimerMgr_new
  | reach_add s timeout f : reachable s -> timeout_ok timeout -> reachable (addTimer timeout f s)
  | reach_cancel s t : reachable s -> reachable (cancel t s)
  | reach_left s : reachable s -> reachable (nearLeftTime s).2
  | reach_schedule s fuel s' : reachable s -> schedule fuel s = Some s' -> reachable s'
  | reach_clear s : reachable s -> reachable (clear s).

Lemma schedule_fuel fuel1 : forall fuel2 s s', schedule fuel1 s = Some s' -> (fuel1 <= fuel2)%nat ->
  schedule fuel2 s = Some s'.
Proof.
  induction fuel1 as [|fuel1 IH]; intros [|fuel2] s s' E Hle; cbn [schedule] in *; try lia; try done.
  - by destruct (top (mTimers s)).
  - destruct (top (mTimers s)) as [t|]; [|done]. destruct (getLeftTime t s) as [left_time s1].
    destruct (0 <? left_time); [done|]. apply (IH fuel2) in E; [done|lia].
Qed.

Lemma reachable_ok s : reachable s -> mgr_ok s.
Proof.
  induction 1 as [|s timeout f _ IH Ht|s t _ IH|s _ IH|s fuel s' _ IH E|s _ IH].
  - apply mgr_new_ok.
  - by apply add_ok.
  - by apply later_ok.
  - unfold nearLeftTime, getLeftTime, read_clock. destruct (top (mTimers s)); [|done].
    destruct (_ <? 0); apply (later_ok s); (done || cbn; lia).
  - destruct (schedule_spec (load_of s) s IH ltac:(lia)) as (s2 & calls & E2 & Hs2 & _).
    assert (s' = s2) as ->; [|done].
    apply (schedule_fuel _ (fuel + load_of s)) in E, E2; try lia. congruence.
  - destruct IH as [H1 H2 H3 H4 H5 H6]. unfold names in *. apply NoDup_app in H1 as (_ & _ & H1).
    apply Forall_app in H2 as [_ H2]. split; cbn; try done.
    eapply Forall_impl; [exact H6|]. constructor.
Qed.
End Timers.

(** ** A queue *)

(** The timer with the earliest deadline, searched in the whole list. *)
Fixpoint earliest {C} (l : list (Timer (Callback := C))) : option Timer :=
  match l with
  | [] => None
  | t :: l => match earliest l with
      | Some t' => if CompareTimer t t' then Some t' else Some t
      | None => Some t
      end
  end.

Lemma earliest_queue {C} : priority_queue (@earliest C).
Proof.
  intros l. induction l as [|t l IH]; intros Hl; [done|]. apply Forall_cons in Hl as [Ht Hl]. specialize (IH Hl).
  cbn [earliest]. rewrite Forall_forall in Hl. destruct (earliest l) as [t'|].
  - destruct IH as [Hin Hmin]. pose proof (compare_deadline t t' Ht (Hl t' Hin)) as Hc.
    assert (Hrest : forall x, timer_ok x -> deadline x <= deadline t' -> Forall (fun y => CompareTimer x y = false) l).
    { intros x Hx Hd. rewrite Forall_forall in Hmin |- *. intros y Hy. specialize (Hmin y Hy).
      apply compare_deadline in Hmin; [|by apply Hl..]. apply compare_deadline; [done|by apply Hl|lia]. }
    destruct (CompareTimer t t') eqn:E.
    + split; [by right|]. destruct (Z_le_gt_dec (deadline t) (deadline t')) as [Hle|Hgt]; [by apply Hc in Hle|].
      constructor; [apply compare_deadline; [by apply Hl|done|lia]|]. apply Hrest; [by apply Hl|lia].
    + split; [by left|]. constructor; [by apply compare_deadline|]. apply Hrest; [done|by apply Hc].
  - subst l. split; [by left|]. constructor; [|constructor]. by apply compare_deadline.
Qed.

(** C22: timers fire when they are due, in the order of their deadlines. Whatever was done
    to the manager, whatever the callbacks add and cancel, as long as each has a weight that is
    more than the sum of those that it adds (so that none adds itself again: see
    [zero_timeout_never_ends]), no timeout is negative, and the clock goes on, by any steps, to a
    horizon from which no timeout reaches 2^63 nanoseconds: [schedule] ends; over the life
    of the manager every timer is called at most once, none before its deadline and
    they are called in the order of their deadlines; none that was cancelled is called;
    a timer that was in the queue is still there, was called, or was cancelled; and of
    those that are there, none was due when the clock was last read. *)
Theorem timers_fire {C} (run : C -> list (timer_action C)) now top horizon (weight : C -> nat) s :
  monotone now horizon -> priority_queue top ->
  (forall f, Forall (action_ok horizon) (run f)) ->
  (forall f, (added weight (run f) < weight f)%nat) ->
  reachable run now top horizon s ->
  exists s' calls, schedule run now top (load_of weight s) s = Some s' /\ fired s' = fired s ++ calls /\
    NoDup (map (fun x => name x.1) (fired s')) /\
    Forall (fun x => deadline x.1 <= x.2) (fired s') /\
    StronglySorted Z.le (map (fun x => deadline x.1) (fired s')) /\
    Forall (fun x => ~ name x.1 ∈ inactive s) calls /\
    (forall t, t ∈ mTimers s -> t ∈ mTimers s' \/ t ∈ map fst calls \/ name t ∈ inactive s') /\
    Forall (fun t => now (pred (reads s')) < deadline t) (mTimers s').
Proof.
  intros Hnow Htop Hrun Hw Hr. pose proof (reachable_ok run now top horizon Hnow Htop Hrun weight Hw s Hr) as Hs.
  destruct (schedule_spec run now top horizon Hnow Htop Hrun weight Hw _ s Hs (le_n _))
    as (s' & calls & E & [H1 _ _ H4 H5 _] & Hf & Hc & _ & _ & Hrest & Hall).
  exists s', calls. split; [exact E|]. split; [exact Hf|]. unfold names in H1. apply NoDup_app in H1 as (_ & _ & H1).
  split; [exact H1|]. split; [|by split_and!]. eapply Forall_impl; [exact H4|]. intros x Hx. apply Hx.
Qed.

(** A callback that adds itself again at once is called for ever, however the clock goes on. *)
Lemma zero_timeout_never_ends now horizon fuel : monotone now horizon -> forall s t,
  mTimers s = [t] -> mLastTime t = 0 -> 0 <= mStartTime t <= now (reads s) ->
  inactive s = ∅ -> name t = pred (next_name s) -> (0 < next_name s)%nat ->
  schedule (fun _ : unit => [AddTimer 0 tt]) now earliest fuel s = None.
Proof.
  intros Hnow. induction fuel as [|fuel IH]; intros s t Et El Ec Ei En Hn; cbn [schedule]; rewrite Et; [done|].
  pose proof (proj1 Hnow (reads s)) as Hr. pose proof (proj1 Hnow (S (reads s))) as Hr'.
  assert (Ht : timer_ok t) by (unfold timer_ok, deadline; lia).
  pose proof (left_time now horizon Hnow t s Ht) as Hleft. cbn [earliest getLeftTime read_clock] in *. cbn [fst] in Hleft.
  unfold deadline in Hleft. rewrite (proj2 (Z.ltb_ge _ _)) by lia.
  cbn [mTimers inactive next_name fired reads]. rewrite Et.
  set (s1 := call_timer _ _ _ _ _).
  assert (E1 : s1 = mk_mgr [mk_timer (next_name s) (now (S (reads s))) 0 tt] ∅ (S (next_name s)) (S (S (reads s)))
    (fired s ++ [(t, now (reads s))])).
  { unfold s1, call_timer. cbn [inactive mTimers]. rewrite Ei, bool_decide_eq_false_2 by apply not_elem_of_empty.
    unfold pop. rewrite filter_cons, decide_False by auto. done. }
  rewrite E1. pose proof (proj2 Hnow (S (reads s)) (S (S (reads s)))).
  eapply IH; [reflexivity|reflexivity|..]; cbn [mStartTime reads name next_name inactive]; (done || lia).
Qed.

(** A timer that starts another one and cancels a third. *)
Inductive demo_callback := Say | Chain.

Definition demo_calls (f : demo_callback) : list (timer_action demo_callback) :=
  match f with Say => [] | Chain => [AddTimer 5 Say; Cancel 1] end.

Definition demo_weight (f : demo_callback) : nat := match f with Say => 1 | Chain => 2 end.

Definition demo_clock (n : nat) : Z := 10 * Z.min (Z.of_nat n) 1000.

(** Three timers: [Chain] after 15, then one after 40 that is cancelled, one after 25. *)
Definition demo_mgr : TimerMgr (Callback := demo_callback) :=
  addTimer demo_clock 25 Say (addTimer demo_clock 40 Say (addTimer demo_clock 15 Chain TimerMgr_new)).

Lemma timers_fire_witness :
  exists s', schedule demo_calls demo_clock earliest 4 demo_mgr = Some s' /\
    map (fun x => (name x.1, deadline x.1, x.2)) (fired s') = [(0%nat, 15, 30); (3%nat, 45, 50); (2%nat, 45, 60)] /\
    Forall (fun x => deadline x.1 <= x.2) (fired s') /\ mTimers s' = [].
Proof.
  destruct (timers_fire demo_calls demo_clock earliest 10000 demo_weight demo_mgr)
    as (s' & calls & E & _ & _ & Hd & _).
  - unfold demo_clock. split; [intros i|intros i j Hij]; lia.
  - apply earliest_queue.
  - intros []; repeat constructor; unfold timeout_ok; lia.
  - intros []; cbn; lia.
  - repeat (apply reach_add; [|unfold timeout_ok; lia]). apply reach_new.
  - exists s'. split; [exact E|]. split; [|split; [exact Hd|]]; clear Hd; vm_compute in E; injection E as <-; reflexivity.
Defined.
