(* ===== verification/EventLoop.v ===== *)
(** * net/EventLoop.cpp: the event loop and the procedures posted to it

    One thread runs [loop]; any number of other threads call [pushAsyncProc].
    The model is a step relation in which every access to a shared variable is
    a step of its own: the section under [mAsyncProcsMutex], the accesses to the
    two atomics, the write to the eventfd and its epoll notification. The
    platform is the one with epoll. *)

From S2P Require Import Prelude.
From stdpp Require Import functions relations.
#[local] Open Scope Z_scope.

(** ** epoll events *)

(** The bits of [epoll_event.events] that the loop looks at. *)
Record events := mk_events { EPOLLIN : bool; EPOLLOUT : bool; EPOLLRDHUP : bool }.

Inductive call := canRecv | canSend | onClose.

(** The calls that the loop makes on the channel of one event. *)
Definition dispatch (event_data : events) : list call :=
  if EPOLLRDHUP event_data then [canRecv; onClose]
  else (if EPOLLIN event_data then [canRecv] else []) ++
       (if EPOLLOUT event_data then [canSend] else []).

Section Loop.
(** Posted procedures; [posts p]: what running [p] on the loop's thread posts
    with [pushAfterLoopProc]. Channels other than the loop's own wakeup channel;
    [handle ch c]: what a call on one of them posts. *)
Context {proc channel : Type}.
Context (posts : proc -> list proc) (handle : channel -> call -> list proc).

(** ** Program counters *)

(** A thread that is not the loop's, inside [pushAsyncProc] and [wakeup]. *)
Inductive push_pc :=
  | Idle                   (* outside *)
  | PushLock (f : proc)    (* before the critical section *)
  | WakeupTest             (* in wakeup: before mIsInBlock is read *)
  | WakeupExchange         (* before mIsAlreadyPostWakeup.exchange(true) *)
  | WakeupWrite.           (* before mWakeupChannel->wakeup() *)

(** The loop's thread, inside [loop]; a channel [None] is the wakeup channel. *)
Inductive loop_pc :=
  | LoopStart                                           (* before the test of mAfterLoopProcs *)
  | LoopWait (milliseconds : Z)                         (* in epoll_wait *)
  | LoopWoken (es : list (option channel * events))     (* before mIsInBlock = false *)
  | LoopEvents (cs : list (option channel * call)) (es : list (option channel * events))
  | LoopResetWakeup                                     (* before mIsAlreadyPostWakeup = false *)
  | LoopResetBlock                                      (* before mIsInBlock = true *)
  | AsyncSwap                                           (* processAsyncProcs, before the swap *)
  | AsyncRun                                            (* its for loop *)
  | AfterSwap                                           (* processAfterLoopProcs, before the swap *)
  | AfterRun                                            (* its for loop *)
  | LoopTimer.                                          (* mTimer->schedule() *)

(** The fields of [EventLoop]; the two copies hold what their for loop has still
    to run. [fd_readable]: the count of the eventfd is not zero; [fd_edge]: epoll has
    yet to report its last write. [entered] is the order in which procedures came
    through the mutex and [executed] the order in which posted ones ran. *)
Record state := mk_state {
  mAsyncProcs : list proc; mCopyAsyncProcs : list proc;
  mAfterLoopProcs : list proc; mCopyAfterLoopProcs : list proc;
  mIsInBlock : bool; mIsAlreadyPostWakeup : bool;
  fd_readable : bool; fd_edge : bool;
  mEventEntriesNum : Z;
  pc : loop_pc; threads : nat -> push_pc;
  entered : list proc; executed : list proc }.

Definition set_pc l s := mk_state (mAsyncProcs s) (mCopyAsyncProcs s) (mAfterLoopProcs s)
  (mCopyAfterLoopProcs s) (mIsInBlock s) (mIsAlreadyPostWakeup s) (fd_readable s) (fd_edge s)
  (mEventEntriesNum s) l (threads s) (entered s) (executed s).
Definition set_thread t p s := mk_state (mAsyncProcs s) (mCopyAsyncProcs s) (mAfterLoopProcs s)
  (mCopyAfterLoopProcs s) (mIsInBlock s) (mIsAlreadyPostWakeup s) (fd_readable s) (fd_edge s)
  (mEventEntriesNum s) (pc s) (<[t := p]> (threads s)) (entered s) (executed s).
Definition set_flags b w s := mk_state (mAsyncProcs s) (mCopyAsyncProcs s) (mAfterLoopProcs s)
  (mCopyAfterLoopProcs s) b w (fd_readable s) (fd_edge s)
  (mEventEntriesNum s) (pc s) (threads s) (entered s) (executed s).
Definition set_fd r e s := mk_state (mAsyncProcs s) (mCopyAsyncProcs s) (mAfterLoopProcs s)
  (mCopyAfterLoopProcs s) (mIsInBlock s) (mIsAlreadyPostWakeup s) r e
  (mEventEntriesNum s) (pc s) (threads s) (entered s) (executed s).
Definition set_async a c s := mk_state a c (mAfterLoopProcs s)
  (mCopyAfterLoopProcs s) (mIsInBlock s) (mIsAlreadyPostWakeup s) (fd_readable s) (fd_edge s)
  (mEventEntriesNum s) (pc s) (threads s) (entered s) (executed s).
Definition set_after a c s := mk_state (mAsyncProcs s) (mCopyAsyncProcs s) a c
  (mIsInBlock s) (mIsAlreadyPostWakeup s) (fd_readable s) (fd_edge s)
  (mEventEntriesNum s) (pc s) (threads s) (entered s) (executed s).
Definition log_entered f s := mk_state (mAsyncProcs s) (mCopyAsyncProcs s) (mAfterLoopProcs s)
  (mCopyAfterLoopProcs s) (mIsInBlock s) (mIsAlreadyPostWakeup s) (fd_readable s) (fd_edge s)
  (mEventEntriesNum s) (pc s) (threads s) (entered s ++ [f]) (executed s).
Definition log_executed f s := mk_state (mAsyncProcs s) (mCopyAsyncProcs s) (mAfterLoopProcs s)
  (mCopyAfterLoopProcs s) (mIsInBlock s) (mIsAlreadyPostWakeup s) (fd_readable s) (fd_edge s)
  (mEventEntriesNum s) (pc s) (threads s) (entered s) (executed s ++ [f]).
Definition set_num n s := mk_state (mAsyncProcs s) (mCopyAsyncProcs s) (mAfterLoopProcs s)
  (mCopyAfterLoopProcs s) (mIsInBlock s) (mIsAlreadyPostWakeup s) (fd_readable s) (fd_edge s)
  n (pc s) (threads s) (entered s) (executed s).

(** [pushAfterLoopProc] on the loop's thread, for each of [fs]. *)
Definition pushAfterLoopProc (fs : list proc) (s : state) : state :=
  set_after (mAfterLoopProcs s ++ fs) (mCopyAfterLoopProcs s) s.

(** ** The other threads *)

(** The section of [pushAsyncProc] under the mutex. *)
Definition enqueue (f : proc) (s : state) : state :=
  log_entered f (set_async (mAsyncProcs s ++ [f]) (mCopyAsyncProcs s) s).

(** [wakeup]: the exchange on [mIsAlreadyPostWakeup]; the write of
    [WakeupChannel::wakeup], which is taken to succeed. *)
Definition wakeup_exchange (s : state) : state := set_flags (mIsInBlock s) true s.
Definition wakeup_write (s : state) : state := set_fd true true s.

(** [pushAsyncProc] on another thread, with [wakeup] at its end. *)

Inductive push_step (t : nat) : state -> state -> Prop :=
  | push_call f s :
      threads s t = Idle -> push_step t s (set_thread t (PushLock f) s)
  | push_lock f s :
      threads s t = PushLock f ->
      push_step t s (set_thread t WakeupTest
        (enqueue f s))
  | push_test s :
      threads s t = WakeupTest ->
      push_step t s (set_thread t (if mIsInBlock s then WakeupExchange else Idle) s)
  | push_exchange s :
      threads s t = WakeupExchange ->
      push_step t s (set_thread t (if mIsAlreadyPostWakeup s then Idle else WakeupWrite)
        (wakeup_exchange s))
  | push_write s :
      threads s t = WakeupWrite -> push_step t s (set_thread t Idle (wakeup_write s)).

(** ** The loop's thread *)

(** A call on a channel. [WakeupChannel::canRecv] reads the count away; its other
    two handlers do nothing. *)
Definition run_call (ch : option channel) (c : call) (s : state) : state :=
  match ch, c with
  | None, canRecv => set_fd false (fd_edge s) s
  | None, _ => s
  | Some ch, c => pushAfterLoopProc (handle ch c) s
  end.

Definition is_wakeup (e : option channel * events) : bool :=
  match e.1 with None => true | Some _ => false end.

Definition calls (e : option channel * events) : list (option channel * call) :=
  map (fun c => (e.1, c)) (dispatch e.2).

(** The timeout of epoll_wait. *)
Definition wait_time (milliseconds : Z) (s : state) : Z :=
  match mAfterLoopProcs s with [] => milliseconds | _ => 0 end.

(** The section of [processAsyncProcs] under the mutex; the swap of
    [processAfterLoopProcs]. *)
Definition swapAsyncProcs (s : state) : state := set_async (mCopyAsyncProcs s) (mAsyncProcs s) s.
Definition swapAfterLoopProcs (s : state) : state :=
  set_after (mCopyAfterLoopProcs s) (mAfterLoopProcs s) s.

(** The entries are reallocated when all were used. *)
Definition grow_entries (full : bool) (s : state) : state :=
  set_num (if full then mEventEntriesNum s + 128 else mEventEntriesNum s) s.

Inductive loop_step : state -> state -> Prop :=
  | loop_start ms s :
      pc s = LoopStart ->
      loop_step s (set_pc (LoopWait (wait_time ms s)) s)
  | loop_wait ms es s :
      (* epoll_wait returns: within the timeout only when something is reported *)
      pc s = LoopWait ms -> zlen es <= mEventEntriesNum s ->
      (forall e, e ∈ es -> is_wakeup e = true -> fd_edge s = true /\ fd_readable s = true /\ EPOLLIN e.2 = true) ->
      loop_step s (set_pc (LoopWoken es)
        (set_fd (fd_readable s) (fd_edge s && negb (existsb is_wakeup es)) s))
  | loop_woken es s :
      pc s = LoopWoken es ->
      loop_step s (set_pc (LoopEvents [] es) (set_flags false (mIsAlreadyPostWakeup s) s))
  | loop_event e es s :
      pc s = LoopEvents [] (e :: es) -> loop_step s (set_pc (LoopEvents (calls e) es) s)
  | loop_call ch c cs es s :
      pc s = LoopEvents ((ch, c) :: cs) es ->
      loop_step s (set_pc (LoopEvents cs es) (run_call ch c s))
  | loop_events_done s :
      pc s = LoopEvents [] [] -> loop_step s (set_pc LoopResetWakeup s)
  | loop_reset_wakeup s :
      pc s = LoopResetWakeup -> loop_step s (set_pc LoopResetBlock (set_flags (mIsInBlock s) false s))
  | loop_reset_block s :
      pc s = LoopResetBlock -> loop_step s (set_pc AsyncSwap (set_flags true (mIsAlreadyPostWakeup s) s))
  | async_swap s :
      pc s = AsyncSwap -> loop_step s (set_pc AsyncRun (swapAsyncProcs s))
  | async_run f fs s :
      pc s = AsyncRun -> mCopyAsyncProcs s = f :: fs ->
      loop_step s (log_executed f (pushAfterLoopProc (posts f) (set_async (mAsyncProcs s) fs s)))
  | async_done s :
      pc s = AsyncRun -> mCopyAsyncProcs s = [] -> loop_step s (set_pc AfterSwap s)
  | after_swap s :
      pc s = AfterSwap ->
      loop_step s (set_pc AfterRun (swapAfterLoopProcs s))
  | after_run f fs s :
      pc s = AfterRun -> mCopyAfterLoopProcs s = f :: fs ->
      loop_step s (pushAfterLoopProc (posts f) (set_after (mAfterLoopProcs s) fs s))
  | after_done full s :
      (* full: numComplete == mEventEntriesNum *)
      pc s = AfterRun -> mCopyAfterLoopProcs s = [] ->
      loop_step s (set_pc LoopTimer (grow_entries full s))
  | loop_timer fs s :
      (* fs: what the timers that are due post *)
      pc s = LoopTimer -> loop_step s (set_pc LoopStart (pushAfterLoopProc fs s)).

Definition step (s s' : state) : Prop := loop_step s s' \/ exists t, push_step t s s'.

(** The constructor: nothing posted, the threads outside. *)
Definition new : state :=
  mk_state [] [] [] [] true false false false 1024 LoopStart (fun _ => Idle) [] [].

Definition reachable (s : state) : Prop := rtc step new s.

(** ** The invariant *)

(** epoll_wait has the wakeup channel to report. *)
Definition token (s : state) : bool := fd_edge s && fd_readable s.

Definition writing (p : push_pc) : bool := match p with WakeupWrite => true | _ => false end.
Definition waking (p : push_pc) : bool :=
  match p with WakeupTest | WakeupExchange | WakeupWrite => true | _ => false end.

(** The program points at which [mIsInBlock] is set, at which
    [mIsAlreadyPostWakeup] is reliable, and at which the posted procedures have
    been taken. *)
Definition in_block (l : loop_pc) : bool :=
  match l with
  | LoopEvents _ _ | LoopResetWakeup | LoopResetBlock => false
  | _ => true
  end.
Definition quiet (l : loop_pc) : bool :=
  match l with
  | LoopWoken _ | LoopEvents _ _ | LoopResetWakeup => false
  | _ => true
  end.
Definition taken (l : loop_pc) : bool :=
  match l with
  | AsyncRun | AfterSwap | AfterRun | LoopTimer | LoopStart | LoopWait _ => true
  | _ => false
  end.

Record inv (s : state) : Prop := mk_inv {
  inv_fifo : entered s = executed s ++ mCopyAsyncProcs s ++ mAsyncProcs s;
  inv_copy : pc s <> AsyncRun -> mCopyAsyncProcs s = [];
  inv_after : pc s <> AfterRun -> mCopyAfterLoopProcs s = [];
  inv_block : in_block (pc s) = true -> mIsInBlock s = true;
  inv_flag : quiet (pc s) = true -> mIsAlreadyPostWakeup s = true ->
    token s = true \/ exists t, writing (threads s t) = true;
  inv_token : taken (pc s) = true -> mAsyncProcs s <> [] ->
    token s = true \/ exists t, waking (threads s t) = true;
  inv_timeout : forall ms, pc s = LoopWait ms -> mAfterLoopProcs s <> [] -> ms = 0;
  inv_num : 1024 <= mEventEntriesNum s }.

Lemma inv_new : inv new.
Proof. by split. Qed.

(** A thread that is not [t] keeps its place when [t] moves. *)
Lemma other_thread (P : push_pc -> bool) (f : nat -> push_pc) t p :
  (exists t', P (f t') = true) -> P (f t) = false -> exists t', P (<[t := p]> f t') = true.
Proof.
  intros [t' H] Hf. exists t'. rewrite fn_lookup_insert_ne; [done|]. intros ->. congruence.
Qed.

Lemma this_thread (P : push_pc -> bool) (f : nat -> push_pc) t p :
  P p = true -> exists t', P (<[t := p]> f t') = true.
Proof. intros H. exists t. by rewrite fn_lookup_insert. Qed.

Ltac thread_cases :=
  match goal with
  | E : ?f ?t = _ |- context [<[?t := _]> ?f] =>
      first [ right; apply this_thread; reflexivity
            | right; apply other_thread; [assumption|by rewrite E] ]
  end.

Lemma inv_push t s s' : inv s -> push_step t s s' -> inv s'.
Proof.
  intros [H1 H2 H3 H4 H5 H6 H7 H8] Hs. destruct Hs as [f s E|f s E|s E|s E|s E];
    split; try assumption; unfold token in *; simpl in *.
  - intros Hq Hw. destruct (H5 Hq Hw) as [|]; [by left|thread_cases].
  - intros Hq Hw. destruct (H6 Hq Hw) as [|]; [by left|thread_cases].
  - rewrite H1, <- !app_assoc. done.
  - intros Hq Hw. destruct (H5 Hq Hw) as [|]; [by left|thread_cases].
  - intros _ _. thread_cases.
  - intros Hq Hw. destruct (H5 Hq Hw) as [|]; [by left|thread_cases].
  - intros Hq Hw. rewrite H4 by (by destruct (pc s)). thread_cases.
  - intros Hq _. destruct (mIsAlreadyPostWakeup s) eqn:Ew; [|thread_cases].
    destruct (H5 Hq eq_refl) as [|]; [by left|thread_cases].
  - intros Hq Hw. destruct (mIsAlreadyPostWakeup s) eqn:Ew; [|thread_cases].
    destruct (H5 ltac:(by destruct (pc s)) eq_refl) as [|Ht]; [by left|].
    right. destruct (other_thread writing (threads s) t Idle Ht) as [t' Ht']; [by rewrite E|].
    exists t'. revert Ht'. by destruct (<[t:=Idle]> (threads s) t').
  - by left.
  - by left.
Qed.

Lemma run_call_fields ch c s :
  let s' := run_call ch c s in
  entered s' = entered s /\ executed s' = executed s /\ mAsyncProcs s' = mAsyncProcs s /\
  mCopyAsyncProcs s' = mCopyAsyncProcs s /\ mCopyAfterLoopProcs s' = mCopyAfterLoopProcs s /\
  mIsInBlock s' = mIsInBlock s /\ threads s' = threads s /\ mEventEntriesNum s' = mEventEntriesNum s.
Proof. by destruct ch, c. Qed.

Lemma inv_loop s s' : inv s -> loop_step s s' -> inv s'.
Proof.
  intros [H1 H2 H3 H4 H5 H6 H7 H8] Hs.
  destruct Hs as [ms s E|ms es s E Hn He|es s E|e es s E|ch c cs es s E|s E|s E|s E|s E|f fs s E Ef
    |s E Ef|s E|f fs s E Ef|full s E Ef|fs s E]; rewrite E in *; simpl in *.
  - split; try done; simpl; auto. intros ms' [= <-]. unfold wait_time. by destruct (mAfterLoopProcs s).
  - split; try done; simpl; auto.
  - split; try done; simpl; auto.
  - split; try done; simpl; auto.
  - destruct (run_call_fields ch c s) as (E1 & E2 & E3 & E4 & E5 & E6 & E7 & E8).
    split; simpl; rewrite ?E1, ?E2, ?E3, ?E4, ?E5, ?E8; done || auto.
  - split; try done; simpl; auto.
  - split; try done; simpl; auto.
  - split; try done; simpl; auto.
  - split; try done; simpl; auto. by rewrite H1, (H2 ltac:(done)), app_nil_r.
  - split; try done; simpl; rewrite ?E; try done; auto. by rewrite H1, Ef, <- app_assoc.
  - split; try done; simpl; auto.
  - split; try done; simpl; auto; by intros.
  - split; try done; simpl; rewrite ?E; try done; auto.
  - split; try done; simpl; auto. destruct full; lia.
  - split; try done; simpl; auto.
Qed.

Lemma inv_reachable s : reachable s -> inv s.
Proof.
  unfold reachable. revert s. apply (rtc_ind_r (R := step) (fun s => inv s) new); [apply inv_new|].
  intros s s' _ [Hs|[t Hs]] Hi; [by eapply inv_loop|by eapply inv_push].
Qed.

(** ** Progress of the loop

    [eventually P s]: from [s], however the steps of the loop's thread turn out,
    it reaches [P]; it never waits in epoll_wait for anything but the wakeup
    channel on the way. *)
Definition blocked (s : state) : Prop := (exists ms, pc s = LoopWait ms) /\ token s = false.

Inductive eventually (P : state -> Prop) (s : state) : Prop :=
  | ev_now : P s -> eventually P s
  | ev_step : ~ blocked s -> (exists s', loop_step s s') ->
      (forall s', loop_step s s' -> eventually P s') -> eventually P s.

Definition all_run (s : state) : Prop := executed s = entered s.
Definition calm (s : state) : Prop := inv s /\ forall t, threads s t = Idle.

Lemma loop_step_threads s s' : loop_step s s' -> threads s' = threads s.
Proof.
  intros H. destruct H; simpl; try done. apply run_call_fields.
Qed.

Lemma calm_step s s' : calm s -> loop_step s s' -> calm s'.
Proof.
  intros [Hi Ht] Hs. split; [by eapply inv_loop|]. by rewrite (loop_step_threads s s' Hs).
Qed.

(** The steps from a known point: each [loop_step] but those of that point is
    impossible. *)
Ltac at_point E :=
  let s' := fresh "s'" in
  let Hs := fresh "Hs" in
  apply ev_step;
  [ intros [[? Hb] _]; rewrite E in Hb; discriminate
  | eexists; econstructor; eassumption
  | intros s' Hs; match goal with Hc : calm _ |- _ => pose proof (calm_step _ _ Hc Hs) end;
    inversion Hs; subst; clear Hs;
    match goal with H : pc _ = _ |- _ => idtac end;
    try congruence ].

Lemma run_taken s : calm s -> pc s = AsyncRun -> mAsyncProcs s = [] -> eventually all_run s.
Proof.
  remember (mCopyAsyncProcs s) as l eqn:El. revert s El.
  induction l as [|f l IH]; intros s El Hc E Ha; symmetry in El.
  - apply ev_now. unfold all_run. rewrite (inv_fifo s (proj1 Hc)), El, Ha. by rewrite app_nil_r.
  - at_point E. apply IH; simpl; try done; congruence.
Qed.

Lemma swap_runs s : calm s -> pc s = AsyncSwap -> eventually all_run s.
Proof.
  intros Hc E. at_point E. apply run_taken; try done. simpl.
  apply (inv_copy s (proj1 Hc)). congruence.
Qed.

Lemma reset_block_runs s : calm s -> pc s = LoopResetBlock -> eventually all_run s.
Proof. intros Hc E. at_point E. by apply swap_runs. Qed.

Lemma reset_wakeup_runs s : calm s -> pc s = LoopResetWakeup -> eventually all_run s.
Proof. intros Hc E. at_point E. by apply reset_block_runs. Qed.

Lemma events_run es : forall cs s, calm s -> pc s = LoopEvents cs es -> eventually all_run s.
Proof.
  induction es as [|e es IHes]; intros cs; induction cs as [|[ch c] cs IHcs]; intros s Hc E;
    at_point E.
  - by apply reset_wakeup_runs.
  - apply IHcs; [done|]. simpl. congruence.
  - match goal with H : pc s = LoopEvents [] (?e' :: _) |- _ => apply (IHes (calls e')) end;
      [done|simpl; congruence].
  - apply IHcs; [done|]. simpl. congruence.
Qed.

Lemma woken_runs s es : calm s -> pc s = LoopWoken es -> eventually all_run s.
Proof. intros Hc E. at_point E. by eapply events_run. Qed.

Lemma wait_runs s ms : calm s -> pc s = LoopWait ms -> eventually all_run s.
Proof.
  intros Hc E. destruct (decide (mAsyncProcs s = [])) as [Ea|Ea].
  - apply ev_now. unfold all_run. rewrite (inv_fifo s (proj1 Hc)), Ea, (inv_copy s (proj1 Hc)) by congruence.
    by rewrite app_nil_r.
  - assert (Htok : token s = true).
    { destruct (inv_token s (proj1 Hc)) as [|[t Ht]]; try done; [by rewrite E|].
      by rewrite (proj2 Hc) in Ht. }
    apply ev_step.
    + intros [_ Hb]. congruence.
    + eexists. apply (loop_wait ms [(None, mk_events true false false)]); [done| |].
      * change (1 <= mEventEntriesNum s). pose proof (inv_num s (proj1 Hc)). lia.
      * intros e ->%list_elem_of_singleton _. by apply andb_true_iff in Htok as [-> ->].
    + intros s' Hs. pose proof (calm_step _ _ Hc Hs) as Hc'. inversion Hs; subst; try congruence.
      by eapply woken_runs.
Qed.

Lemma start_runs s : calm s -> pc s = LoopStart -> eventually all_run s.
Proof.
  intros Hc E. apply ev_step; [intros [[? Hb] _]; congruence|by eexists; apply (loop_start 0)|].
  intros s' Hs. pose proof (calm_step _ _ Hc Hs). inversion Hs; subst; try congruence.
  by eapply wait_runs.
Qed.

Lemma timer_runs s : calm s -> pc s = LoopTimer -> eventually all_run s.
Proof.
  intros Hc E. apply ev_step; [intros [[? Hb] _]; congruence|by eexists; apply (loop_timer [])|].
  intros s' Hs. pose proof (calm_step _ _ Hc Hs). inversion Hs; subst; try congruence.
  by apply start_runs.
Qed.

Lemma after_run_runs s : calm s -> pc s = AfterRun -> eventually all_run s.
Proof.
  remember (mCopyAfterLoopProcs s) as l eqn:El. revert s El.
  induction l as [|f l IH]; intros s El Hc E; symmetry in El.
  - apply ev_step; [intros [[? Hb] _]; congruence|by eexists; apply (after_done false)|].
    intros s' Hs. pose proof (calm_step _ _ Hc Hs). inversion Hs; subst; try congruence.
    by apply timer_runs.
  - at_point E. apply IH; simpl; congruence.
Qed.

Lemma after_swap_runs s : calm s -> pc s = AfterSwap -> eventually all_run s.
Proof. intros Hc E. at_point E. by apply after_run_runs. Qed.

Lemma async_run_runs s : calm s -> pc s = AsyncRun -> eventually all_run s.
Proof.
  remember (mCopyAsyncProcs s) as l eqn:El. revert s El.
  induction l as [|f l IH]; intros s El Hc E; symmetry in El.
  - at_point E. by apply after_swap_runs.
  - at_point E. apply IH; simpl; congruence.
Qed.

Lemma calm_runs s : calm s -> eventually all_run s.
Proof.
  intros Hc. destruct (pc s) eqn:E.
  - by apply start_runs.
  - by eapply wait_runs.
  - by eapply woken_runs.
  - by eapply events_run.
  - by apply reset_wakeup_runs.
  - by apply reset_block_runs.
  - by apply swap_runs.
  - by apply async_run_runs.
  - by apply after_swap_runs.
  - by apply after_run_runs.
  - by apply timer_runs.
Qed.
End Loop.

Arguments state : clear implicits.
Arguments loop_pc : clear implicits.
Arguments push_pc : clear implicits.

(** ** The theorems *)

(** C9: no wakeup is lost. In whatever way the steps of the loop and of the
    threads that post to it interleave, when the loop waits in epoll_wait while
    a posted procedure has not been taken, then either epoll has the wakeup
    channel to report, so the wait ends at once, or a thread that posts is still
    on its way to the write that wakes the loop up; and while a procedure
    posted for after the loop waits, the timeout is zero. *)
Theorem no_lost_wakeup {proc channel} (posts : proc -> list proc)
    (handle : channel -> call -> list proc) (s : state proc channel) ms :
  reachable posts handle s -> pc s = LoopWait ms ->
  (mAsyncProcs s <> [] -> token s = true \/ exists t, waking (threads s t) = true) /\
  (mAfterLoopProcs s <> [] -> ms = 0).
Proof.
  intros Hs E. apply inv_reachable in Hs. split.
  - intros Ha. apply (inv_token s Hs); [by rewrite E|done].
  - by apply (inv_timeout s Hs).
Qed.

(** C11: procedures posted by other threads run once each and in the order in
    which they were posted: at any time what has run, what the loop has taken
    and what still waits are, one after the other, what was posted. *)
Theorem posted_in_order {proc channel} (posts : proc -> list proc)
    (handle : channel -> call -> list proc) (s : state proc channel) :
  reachable posts handle s ->
  entered s = executed s ++ mCopyAsyncProcs s ++ mAsyncProcs s.
Proof. intros Hs. by apply (inv_fifo s), (inv_reachable posts handle). Qed.

(** C10: every posted procedure runs. From any state that can arise, once the
    posting threads are through, the loop comes to a point at which all that was
    posted has run, whatever events epoll reports, whatever the handlers post and
    however many procedures wait, and without ever waiting for a timeout or for
    another event. *)
Theorem posted_procs_run {proc channel} (posts : proc -> list proc)
    (handle : channel -> call -> list proc) (s : state proc channel) :
  reachable posts handle s -> (forall t, threads s t = Idle) ->
  eventually posts handle (fun s' => executed s' = entered s') s.
Proof. intros Hs Ht. apply calm_runs. split; [by eapply inv_reachable|done]. Qed.

(** Thread 0 posts procedure 7 while the loop waits; the loop has a minute. *)
Lemma demo_reachable :
  exists s : state nat unit, reachable (fun _ => []) (fun _ _ => []) s /\
    pc s = LoopWait 60000 /\ mAsyncProcs s = [7%nat] /\ token s = true /\
    (forall t, threads s t = Idle) /\ entered s = [7%nat] /\ executed s = [].
Proof.
  eexists. split.
  - eapply rtc_l; [left; by apply (loop_start _ _ 60000)|].
    eapply rtc_l; [right; exists 0%nat; by apply (push_call _ 7%nat)|].
    eapply rtc_l; [right; exists 0%nat; by apply (push_lock _ 7%nat)|].
    eapply rtc_l; [right; exists 0%nat; by apply push_test|].
    eapply rtc_l; [right; exists 0%nat; by apply push_exchange|].
    eapply rtc_l; [right; exists 0%nat; by apply push_write|].
    apply rtc_refl.
  - split_and!; try done. intros t. simpl. unfold insert, fn_insert. by destruct (decide _).
Qed.

Lemma no_lost_wakeup_witness :
  exists s : state nat unit, pc s = LoopWait 60000 /\ mAsyncProcs s = [7%nat] /\
    (token s = true \/ exists t, waking (threads s t) = true).
Proof.
  destruct demo_reachable as (s & Hs & E & Ha & _). exists s. split; [exact E|]. split; [exact Ha|].
  apply (no_lost_wakeup (fun _ => []) (fun _ _ => []) s 60000 Hs E). congruence.
Defined.

Lemma posted_in_order_witness :
  exists s : state nat unit, entered s = [7%nat] /\
    entered s = executed s ++ mCopyAsyncProcs s ++ mAsyncProcs s.
Proof.
  destruct demo_reachable as (s & Hs & _ & _ & _ & _ & E & _). exists s. split; [exact E|].
  exact (posted_in_order (fun _ => []) (fun _ _ => []) s Hs).
Defined.

Lemma posted_procs_run_witness :
  exists s : state nat unit, mAsyncProcs s = [7%nat] /\ executed s = [] /\
    eventually (fun _ => []) (fun _ _ => []) (fun s' => executed s' = entered s') s.
Proof.
  destruct demo_reachable as (s & Hs & _ & Ha & _ & Ht & _ & E). exists s. split; [exact Ha|].
  split; [exact E|]. exact (posted_procs_run (fun _ => []) (fun _ _ => []) s Hs Ht).
Defined.
