(* ===== verification/Outcome.v ===== *)
(** * Outcomes of C++ code

    A computation on an object's state ends with a value and a new state, by a
    failed assertion or an access through a null pointer or behind a block
    ([Crash]), or not within the fuel given to its loops ([Fuel]). *)

From S2P Require Import Prelude.

Inductive outcome (A : Type) := Ok (a : A) | Crash | Fuel.
Arguments Ok {A}.
Arguments Crash {A}.
Arguments Fuel {A}.

Definition M (S A : Type) : Type := S -> outcome (A * S).

Definition ret {S A} (a : A) : M S A := fun s => Ok (a, s).
Definition bind {S A B} (m : M S A) (k : A -> M S B) : M S B := fun s =>
  match m s with Ok (a, s') => k a s' | Crash => Crash | Fuel => Fuel end.
Definition crash {S A} : M S A := fun _ => Crash.
Definition no_fuel {S A} : M S A := fun _ => Fuel.
Definition get {S} : M S S := fun s => Ok (s, s).
Definition gets {S A} (f : S -> A) : M S A := fun s => Ok (f s, s).
Definition upd {S} (f : S -> S) : M S unit := fun s => Ok (tt, f s).
Definition when {S} (b : bool) (m : M S unit) : M S unit := if b then m else ret tt.
Definition lift {S A} (o : option A) : M S A := match o with Some a => ret a | None => crash end.

Declare Scope outcome_scope.
Delimit Scope outcome_scope with outcome.
Notation "x <- m ;; k" := (bind m (fun x => k))
  (at level 100, m at next level, k at level 200, right associativity) : outcome_scope.
Notation "m ;;; k" := (bind m (fun _ => k)) (at level 100, k at level 200, right associativity) : outcome_scope.

(** ** What holds of the result

    [holds k m Q s]: when [m] ends normally from [s], [Q] holds of its value and its
    state; it does not crash, unless [k] admits it. *)
Definition holds {S A} (k : bool) (m : M S A) (Q : A -> S -> Prop) (s : S) : Prop :=
  match m s with Ok (a, s') => Q a s' | Crash => k = true | Fuel => True end.

Section Rules.
Context {S : Type} (k : bool).

Lemma holds_ret {A} (a : A) Q (s : S) : Q a s -> holds k (ret a) Q s.
Proof. done. Qed.
Lemma holds_bind {A B} (m : M S A) (f : A -> M S B) Q s :
  holds k m (fun a => holds k (f a) Q) s -> holds k (bind m f) Q s.
Proof. unfold holds, bind. by destruct (m s) as [[]| |]. Qed.
Lemma holds_get Q (s : S) : Q s s -> holds k get Q s.
Proof. done. Qed.
Lemma holds_gets {A} (f : S -> A) Q (s : S) : Q (f s) s -> holds k (gets f) Q s.
Proof. done. Qed.
Lemma holds_upd (f : S -> S) Q s : Q tt (f s) -> holds k (upd f) Q s.
Proof. done. Qed.
Lemma holds_when (b : bool) m Q (s : S) :
  (b = true -> holds k m Q s) -> (b = false -> Q tt s) -> holds k (when b m) Q s.
Proof. destruct b; intros H1 H2; [by apply H1|by apply H2]. Qed.
Lemma holds_no_fuel {A} Q (s : S) : holds k (no_fuel : M S A) Q s.
Proof. done. Qed.
Lemma holds_crash {A} Q (s : S) : k = true -> holds k (crash : M S A) Q s.
Proof. done. Qed.
Lemma holds_lift {A} (o : option A) Q (s : S) :
  (o = None -> k = true) -> (forall a, o = Some a -> Q a s) -> holds k (lift o) Q s.
Proof. destruct o; intros H1 H2; [by apply H2|by apply H1]. Qed.
Lemma holds_mono {A} (m : M S A) (Q Q' : A -> S -> Prop) s :
  holds k m Q s -> (forall a s', Q a s' -> Q' a s') -> holds k m Q' s.
Proof. unfold holds. destruct (m s) as [[]| |]; auto. Qed.
Lemma holds_and {A} (m : M S A) (Q Q' : A -> S -> Prop) s :
  holds k m Q s -> holds k m Q' s -> holds k m (fun a s' => Q a s' /\ Q' a s') s.
Proof. unfold holds. destruct (m s) as [[]| |]; auto. Qed.
Lemma holds_ok {A} (m : M S A) (Q : A -> S -> Prop) s a s' :
  holds k m Q s -> m s = Ok (a, s') -> Q a s'.
Proof. unfold holds. intros H E. by rewrite E in H. Qed.
End Rules.

Lemma holds_no_crash {S A} (m : M S A) Q s : holds false m Q s -> m s <> Crash.
Proof. unfold holds. by intros H E; rewrite E in H. Qed.

(** Symbolic execution, one step. *)
Ltac out_step :=
  lazymatch goal with
  | |- holds _ (bind _ _) _ _ => apply holds_bind
  | |- holds _ (ret _) _ _ => apply holds_ret
  | |- holds _ get _ _ => apply holds_get
  | |- holds _ (gets _) _ _ => apply holds_gets
  | |- holds _ (upd _) _ _ => apply holds_upd
  | |- holds _ no_fuel _ _ => exact I
  end; cbv beta.

Ltac out_steps := repeat out_step.

(** ** Ending within the fuel *)

(** [m] has no loop that can run out of fuel. *)
Definition total {S A} (m : M S A) : Prop := forall s, m s <> Fuel.

Section Total.
Context {S : Type}.

Lemma total_ret {A} (a : A) : total (ret a : M S A).
Proof. done. Qed.
Lemma total_get : total (get : M S S).
Proof. done. Qed.
Lemma total_upd (f : S -> S) : total (upd f).
Proof. done. Qed.
Lemma total_crash {A} : total (crash : M S A).
Proof. done. Qed.
Lemma total_lift {A} (o : option A) : total (lift o : M S A).
Proof. by destruct o. Qed.
Lemma total_bind {A B} (m : M S A) (f : A -> M S B) :
  total m -> (forall a, total (f a)) -> total (bind m f).
Proof. intros Hm Hf s. unfold bind. specialize (Hm s). destruct (m s) as [[a s']| |]; [apply Hf|done|done]. Qed.
Lemma total_when (b : bool) (m : M S unit) : total m -> total (when b m).
Proof. by destruct b. Qed.

(** A loop: the first part ends, and the second part from where the first led. *)
Lemma ends_bind {A B} (m : M S A) (f : A -> M S B) s :
  m s <> Fuel -> holds true m (fun a s' => f a s' <> Fuel) s -> bind m f s <> Fuel.
Proof. unfold holds, bind. by destruct (m s) as [[]| |]. Qed.
Lemma ends_total {A B} (m : M S A) (f : A -> M S B) s :
  m s <> Fuel -> (forall a, total (f a)) -> bind m f s <> Fuel.
Proof. unfold bind. intros Hm Hf. destruct (m s) as [[a s']| |]; [apply Hf|done|done]. Qed.
End Total.

Create HintDb total.
#[export] Hint Resolve total_ret total_get total_upd total_crash total_lift : total.

(** Programs without loops. *)
Ltac total_step :=
  lazymatch goal with
  | |- total (bind _ _) => apply total_bind
  | |- total (when _ _) => apply total_when
  | |- total (if ?b then _ else _) => destruct b
  | |- total (match ?x with _ => _ end) => destruct x
  | |- forall _, total _ => intro; cbv beta
  | |- total (let '_ := ?x in _) => destruct x
  | |- total _ => solve [auto with total]
  end.

Ltac total := repeat total_step.
