(* ===== verification/PromiseReceive.v ===== *)
(** * net/PromiseReceive.h: receiving a number of bytes or up to a delimiter

    A list of receives that wait, each with a handle, is served from the data of a
    session. The handles are programs of the application: they may ask for
    more receives and change the lengths they share with receives that wait. *)

From S2P Require Import Prelude.
From S2P Require Import Words.
From S2P Require Import Outcome.

(** ** memsearch *)

(** [for (needlepos = 0; ...)]: the needle against the memory from [at_] on; a
    byte outside the block is not to be read. *)
Fixpoint compare (mem : bytes) (at_ : Z) (needle : bytes) : outcome bool :=
  match needle with
  | [] => Ok true
  | c :: needle' =>
      if (0 <=? at_) && (at_ <? zlen mem)
      then if negb (znth mem at_ 0 =? c) then Ok false else compare mem (at_ + 1) needle'
      else Crash
  end.

(** [for (haypos = 0; haypos <= haysize; haypos++)] *)
Fixpoint search (fuel : nat) (mem : bytes) (hay haysize haypos : Z) (needle : bytes) : outcome (option Z) :=
  match fuel with
  | O => Fuel
  | S fuel =>
      if haypos <=? haysize then
        match compare mem (hay + haypos) needle with
        | Ok true => Ok (Some haypos)
        | Ok false => search fuel mem hay haysize (u64 (haypos + 1)) needle
        | Crash => Crash
        | Fuel => Fuel
        end
      else Ok None
  end.

(** The result, when [isOK]; [hay] is a position in the block [mem]. *)
Definition memsearch (mem : bytes) (hay haysize : Z) (needle : bytes) : outcome (option Z) :=
  search (S (S (length mem))) mem hay (u64 (haysize - zlen needle)) 0 needle.

(** The first occurrence. *)
Fixpoint find (needle hay : bytes) : option Z :=
  if decide (needle `prefix_of` hay) then Some 0
  else match hay with [] => None | _ :: hay => Z.succ <$> find needle hay end.

Lemma compare_spec mem needle at_ :
  0 <= at_ -> at_ + zlen needle <= zlen mem ->
  compare mem at_ needle = Ok (bool_decide (needle `prefix_of` drop (Z.to_nat at_) mem)).
Proof.
  revert at_. induction needle as [|c needle IH]; intros at_ H0 Hm.
  { cbn [compare]. by rewrite bool_decide_true by apply prefix_nil. }
  rewrite zlen_cons in Hm. pose proof (zlen_nonneg needle). cbn [compare].
  rewrite (proj2 (Z.leb_le _ _)), (proj2 (Z.ltb_lt _ _)) by lia. cbn [andb].
  destruct (lookup_lt_is_Some_2 mem (Z.to_nat at_)) as [b Hb]; [unfold zlen in *; lia|].
  rewrite (znth_lookup mem at_ 0 b) by done. rewrite (drop_S mem b) by done.
  destruct (Z.eqb_spec b c) as [->|Hne]; cbn [negb].
  - rewrite IH by lia. replace (Z.to_nat (at_ + 1)) with (Datatypes.S (Z.to_nat at_)) by lia. f_equal.
    apply bool_decide_ext. split; [apply prefix_cons|apply prefix_cons_inv_2].
  - by rewrite bool_decide_false by (intros Hp; apply prefix_cons_inv_1 in Hp; congruence).
Qed.

(** A comparison that reaches the end of the block does not succeed. *)
Lemma compare_behind mem needle at_ : 0 <= at_ <= zlen mem -> zlen mem < at_ + zlen needle ->
  compare mem at_ needle = Ok false \/ compare mem at_ needle = Crash.
Proof.
  revert at_. induction needle as [|c needle IH]; intros at_ H0 Hm; [rewrite zlen_nil in Hm; lia|].
  rewrite zlen_cons in Hm. cbn [compare]. destruct (Z.leb_spec 0 at_), (Z.ltb_spec at_ (zlen mem)); cbn [andb]; auto.
  destruct (negb _); auto. apply IH; lia.
Qed.

Lemma find_short needle hay : zlen hay < zlen needle -> find needle hay = None.
Proof.
  induction hay as [|b hay IH]; intros Hl; cbn [find]; rewrite decide_False.
  - done.
  - intros Hp%prefix_length. unfold zlen in *. lia.
  - rewrite IH; [done|]. rewrite zlen_cons in Hl. lia.
  - intros Hp%prefix_length. unfold zlen in *. lia.
Qed.

Lemma prefix_take (l k : bytes) n : (length l <= n)%nat -> l `prefix_of` take n k <-> l `prefix_of` k.
Proof.
  intros Hn. split; intros [m Hm].
  - exists (m ++ drop n k). by rewrite app_assoc, <- Hm, take_drop.
  - exists (take (n - length l) m). rewrite Hm, take_app, take_ge by done. done.
Qed.

Lemma find_unfold needle hay : find needle hay =
  if decide (needle `prefix_of` hay) then Some 0
  else match hay with [] => None | _ :: hay => Z.succ <$> find needle hay end.
Proof. by destruct hay. Qed.

Lemma search_spec fuel mem hay hs p needle :
  0 < zlen needle -> 0 <= hay -> 0 <= p <= hs + 1 -> 0 <= hs -> hay + hs + zlen needle <= zlen mem -> zlen mem < SIZE_MAX ->
  hs - p + 1 < Z.of_nat fuel ->
  search fuel mem hay hs p needle =
    Ok (Z.add p <$> find needle (slice mem (hay + p) (hs - p + zlen needle))).
Proof.
  revert p. induction fuel as [|fuel IH]; intros p Hne Hh Hp Hs Hm Hmax Hf; [lia|]. cbn [search]. destruct (Z.leb_spec p hs) as [Hle|Hgt].
  - rewrite compare_spec by lia. rewrite find_unfold.
    set (d := slice mem (hay + p) (hs - p + zlen needle)).
    assert (Hpre : needle `prefix_of` drop (Z.to_nat (hay + p)) mem <-> needle `prefix_of` d).
    { unfold d, slice. symmetry. apply prefix_take. unfold zlen. lia. }
    rewrite (bool_decide_ext _ _ Hpre). destruct (decide (needle `prefix_of` d)) as [Hd|Hd].
    { rewrite bool_decide_true by done. simpl. by rewrite Z.add_0_r. }
    rewrite bool_decide_false by done. rewrite u64_small, IH by lia.
    destruct (lookup_lt_is_Some_2 mem (Z.to_nat (hay + p))) as [b Hb]; [unfold zlen in *; lia|].
    assert (Ed : d = b :: slice mem (hay + (p + 1)) (hs - (p + 1) + zlen needle)).
    { unfold d. rewrite (slice_cons mem (hay + p) _ b) by (done || lia). do 2 f_equal; lia. }
    rewrite Ed. destruct (find needle _) as [q|]; [|done]. simpl. do 2 f_equal. lia.
  - rewrite find_short; [done|]. rewrite zlen_slice by lia. lia.
Qed.

(** With as many bytes as the needle at least, [memsearch] finds the first
    occurrence in them. *)
Lemma memsearch_spec mem hay n needle :
  0 < zlen needle -> 0 <= hay -> hay + n <= zlen mem -> zlen mem < SIZE_MAX -> zlen needle <= n ->
  memsearch mem hay n needle = Ok (find needle (slice mem hay n)).
Proof.
  intros Hne Hh Hm Hmax Hn. unfold memsearch.
  rewrite u64_small, search_spec by (unfold zlen in *; lia). rewrite Z.add_0_r, Z.sub_0_r, Z.sub_add.
  by destruct (find _ _).
Qed.

(** The search of a needle longer than what is left goes on behind it. *)
Lemma search_behind fuel mem hay hs p needle : needle <> [] ->
  0 <= hay -> 0 <= p -> hay + p <= zlen mem -> zlen mem <= hs -> zlen mem < SIZE_MAX ->
  zlen mem - hay - p < Z.of_nat fuel ->
  search fuel mem hay hs p needle = Crash \/
  exists q, search fuel mem hay hs p needle = Ok (Some q) /\ p <= q /\ hay + q + zlen needle <= zlen mem.
Proof.
  intros Hne. revert p. induction fuel as [|fuel IH]; intros p Hh Hp Hm Hs Hmax Hf; [lia|].
  cbn [search]. rewrite (proj2 (Z.leb_le _ _)) by lia.
  assert (Hpos : 0 < zlen needle) by (destruct needle; [done|rewrite zlen_cons; pose proof (zlen_nonneg needle); lia]).
  assert (Hnext : search fuel mem hay hs (u64 (p + 1)) needle = Crash \/ exists q,
    search fuel mem hay hs (u64 (p + 1)) needle = Ok (Some q) /\ p <= q /\ hay + q + zlen needle <= zlen mem \/
    zlen mem <= hay + p).
  { destruct (Z.le_gt_cases (zlen mem) (hay + p)) as [E|E]; [right; exists 0; by right|]. rewrite u64_small by lia.
    destruct (IH (p + 1)) as [|(q & ? & ? & ?)]; [lia..|by left|right; exists q; left; split_and!; done || lia]. }
  destruct (Z.le_gt_cases (hay + p + zlen needle) (zlen mem)) as [Hin|Hout].
  - rewrite compare_spec by lia. destruct (bool_decide _); [right; exists p; by split_and!|].
    destruct Hnext as [|(q & [H|]) ]; [by left|right; by exists q|lia].
  - destruct (Z.eq_dec (hay + p) (zlen mem)) as [E|].
    { left. destruct needle as [|c needle]; [done|]. cbn [compare]. by rewrite (proj2 (Z.ltb_ge _ _)), andb_false_r by lia. }
    destruct (compare_behind mem needle (hay + p)) as [->| ->]; [lia|lia| |by left].
    destruct Hnext as [|(q & [H|]) ]; [by left|right; by exists q|lia].
Qed.

(** Fewer bytes than the needle are left: it is never told so. *)
Lemma memsearch_behind mem hay n needle :
  0 <= hay -> 0 <= n < zlen needle -> hay + n <= zlen mem -> zlen mem + zlen needle <= SIZE_MAX ->
  memsearch mem hay n needle = Crash \/
  exists q, memsearch mem hay n needle = Ok (Some q) /\ 0 <= q /\ n < q + zlen needle /\ hay + q + zlen needle <= zlen mem.
Proof.
  intros Hh Hn Hm Hmax. unfold memsearch.
  assert (E : u64 (n - zlen needle) = n - zlen needle + 2 ^ 64).
  { unfold u64, wrap. symmetry. apply (Z.mod_unique_pos _ _ (-1)); unfold SIZE_MAX in *; lia. }
  rewrite E. destruct (search_behind (S (S (length mem))) mem hay (n - zlen needle + 2 ^ 64) 0 needle)
    as [|(q & ? & ? & ?)]; try (unfold zlen, SIZE_MAX in *; lia); [intros ->; rewrite zlen_nil in *; lia|by left|].
  right. exists q. split_and!; done || lia.
Qed.

(** ** The receives that wait *)

Section Receive.
(** [H]: the handles; [loc]: the lengths that handles share with receives;
    [U]: the rest of the program. *)
Context {H loc U : Type}.

(** [std::shared_ptr<size_t> len]: made by [receive] for its argument, or given. *)
Inductive size_ptr := Own (n : Z) | Shared (l : loc).
Record PendingReceive := mk_pending { len : option size_ptr; delim : bytes; handle : H }.

Definition helpReceive (l : option size_ptr) (s : bytes) (h : H) (q : list PendingReceive) : list PendingReceive :=
  q ++ [mk_pending l s h].
(** Both functions [receive]; a [size_t] is never negative. *)
Definition receive (l : size_ptr) (h : H) (q : list PendingReceive) : option (list PendingReceive) :=
  Some (helpReceive (Some l) [] h q).
Definition receiveUntil (s : bytes) (h : H) (q : list PendingReceive) : option (list PendingReceive) :=
  match s with [] => None | _ => Some (helpReceive None s h q) end.

(** What a handle asks of the object while it runs. *)
Inductive request := Receive (l : size_ptr) (h : H) | ReceiveUntil (s : bytes) (h : H).
Definition ask (r : request) (q : list PendingReceive) : option (list PendingReceive) :=
  match r with Receive l h => receive l h q | ReceiveUntil s h => receiveUntil s h q end.
Fixpoint asks (rs : list request) (q : list PendingReceive) : option (list PendingReceive) :=
  match rs with [] => Some q | r :: rs => q ← ask r q; asks rs q end.

(** A handle given its bytes: its result, its requests, and the program behind
    it; the value of a shared length. *)
Context (call : H -> bytes -> U -> bool * list request * U) (value : loc -> U -> Z).

(** [*pendingReceive->len], a [size_t]. *)
Definition size (l : size_ptr) (u : U) : Z := u64 (match l with Own n => n | Shared l => value l u end).

(** [mPendingReceives] and the rest of the program. *)
Record state := mk_state { mPendingReceives : list PendingReceive; user : U }.

(** [pendingReceive->handle(buffer, len)] after [pop_front], and [push_front] when it asks to
    stay; an exception out of a request is not caught. *)
Definition give (p : PendingReceive) (data : bytes) (again : bool) (q : list PendingReceive) (u : U)
    : outcome state :=
  let '(stay, rs, u') := call (handle p) data u in
  match asks rs q with
  | None => Crash
  | Some q' => Ok (mk_state (if stay && again then p :: q' else q') u')
  end.

(** One round of [process]: [None] when it breaks off. *)
Definition round (mem : bytes) (buffer n procLen : Z) (s : state) : outcome (option (Z * state)) :=
  match mPendingReceives s with
  | [] => Ok None
  | p :: q =>
      match len p with
      | Some l =>
          let tryReceiveLen := size l (user s) in
          if u64 (n - procLen) <? tryReceiveLen then Ok None
          else
            let procLen := u64 (procLen + tryReceiveLen) in
            match load mem (buffer + (procLen - tryReceiveLen)) tryReceiveLen with
            | None => Crash
            | Some data =>
                match give p data (0 <? tryReceiveLen) q (user s) with
                | Ok s' => Ok (Some (procLen, s'))
                | Crash => Crash | Fuel => Fuel
                end
            end
      | None =>
          match delim p with
          | [] => Ok None
          | _ =>
              match memsearch mem (buffer + procLen) (u64 (n - procLen)) (delim p) with
              | Ok None => Ok None
              | Ok (Some pos) =>
                  match load mem (buffer + procLen) pos with
                  | None => Crash
                  | Some data =>
                      match give p data true q (user s) with
                      | Ok s' => Ok (Some (u64 (procLen + (pos + zlen (delim p))), s'))
                      | Crash => Crash | Fuel => Fuel
                      end
                  end
              | Crash => Crash | Fuel => Fuel
              end
          end
      end
  end.

(** [process(buffer, len)]: [n] is its [len], the data lie in the block [mem]. *)
Fixpoint process_loop (fuel : nat) (mem : bytes) (buffer n procLen : Z) (s : state) : outcome (Z * state) :=
  match fuel with
  | O => Fuel
  | S fuel =>
      if procLen <=? n then
        match round mem buffer n procLen s with
        | Ok (Some (procLen, s)) => process_loop fuel mem buffer n procLen s
        | Ok None => Ok (procLen, s)
        | Crash => Crash | Fuel => Fuel
        end
      else Ok (procLen, s)
  end.

Definition process (fuel : nat) (mem : bytes) (buffer n : Z) (s : state) : outcome (Z * state) :=
  process_loop fuel mem buffer n 0 s.

(** ** Reference: the receives on a stream of bytes *)

(** One receive served from [d]: what is left of it. A search for more bytes than
    are left fails. *)
Definition serve (s : state) (d : bytes) : outcome (option (state * bytes)) :=
  match mPendingReceives s with
  | [] => Ok None
  | p :: q =>
      match len p, delim p with
      | Some l, _ =>
          let k := size l (user s) in
          if zlen d <? k then Ok None
          else match give p (slice d 0 k) (0 <? k) q (user s) with
               | Ok s' => Ok (Some (s', drop (Z.to_nat k) d))
               | Crash => Crash | Fuel => Fuel
               end
      | None, [] => Ok None
      | None, t =>
          if zlen d <? zlen t then Crash
          else match find t d with
               | None => Ok None
               | Some pos =>
                   match give p (slice d 0 pos) true q (user s) with
                   | Ok s' => Ok (Some (s', drop (Z.to_nat (pos + zlen t)) d))
                   | Crash => Crash | Fuel => Fuel
                   end
               end
      end
  end.

Fixpoint serve_all (fuel : nat) (s : state) (d : bytes) : outcome (state * bytes) :=
  match fuel with
  | O => Fuel
  | S fuel =>
      match serve s d with
      | Ok (Some (s, d)) => serve_all fuel s d
      | Ok None => Ok (s, d)
      | Crash => Crash | Fuel => Fuel
      end
  end.

Lemma size_range l u : 0 <= size l u <= SIZE_MAX.
Proof. unfold size, SIZE_MAX. pose proof (wrap_range 64 (match l with Own n => n | Shared l => value l u end) ltac:(lia)). lia. Qed.

Lemma give_no_fuel p data again q u : give p data again q u <> Fuel.
Proof. unfold give. destruct (call _ _ _) as [[? ?] ?]. by destruct (asks _ _). Qed.

Lemma find_range t d pos : find t d = Some pos -> 0 <= pos /\ pos + zlen t <= zlen d.
Proof.
  revert pos. induction d as [|b d IH]; intros pos; cbn [find]; destruct (decide _) as [Hp|]; try done.
  - intros [= <-]. apply prefix_length in Hp. unfold zlen in *. lia.
  - intros [= <-]. apply prefix_length in Hp. unfold zlen in *. lia.
  - destruct (find t d) as [k|]; [|done]. intros [= <-]. specialize (IH k eq_refl). rewrite zlen_cons. lia.
Qed.

(** Strings are shorter than the address space. *)
Definition short (t : bytes) : Prop := zlen t <= 2 ^ 62.
Definition short_request (r : request) : Prop := match r with ReceiveUntil t _ => short t | Receive _ _ => True end.
Definition state_ok (s : state) : Prop := Forall (fun p => short (delim p)) (mPendingReceives s).
Definition program_ok : Prop := forall h d u, Forall short_request (snd (fst (call h d u))).

Lemma asks_ok rs q q' : Forall short_request rs -> Forall (fun p => short (delim p)) q ->
  asks rs q = Some q' -> Forall (fun p => short (delim p)) q'.
Proof.
  revert q. induction rs as [|r rs IH]; intros q Hr Hq; cbn [asks]; [by intros [= <-]|].
  apply Forall_cons in Hr as [Hr Hrs]. destruct (ask r q) as [q1|] eqn:E; [|done]. apply IH; [done|].
  destruct r as [l h|t h]; simpl in E.
  - injection E as <-. apply Forall_app. split; [done|]. constructor; [|done]. unfold short. simpl. rewrite zlen_nil. lia.
  - destruct t; [done|]. injection E as <-. apply Forall_app. split; [done|]. by constructor.
Qed.

Lemma give_ok p data again q u s : program_ok -> short (delim p) -> Forall (fun p => short (delim p)) q ->
  give p data again q u = Ok s -> state_ok s.
Proof.
  intros Hc Hp Hq. unfold give. specialize (Hc (handle p) data u). destruct (call _ _ _) as [[stay rs] u'].
  destruct (asks rs q) as [q'|] eqn:E; [|done]. intros [= <-]. unfold state_ok. simpl.
  pose proof (asks_ok rs q q' Hc Hq E). destruct (stay && again); [by constructor|done].
Qed.

Lemma serve_ok s d s' r : program_ok -> state_ok s -> serve s d = Ok (Some (s', r)) -> state_ok s'.
Proof.
  intros Hc Hs. unfold state_ok in Hs. unfold serve. destruct (mPendingReceives s) as [|p q]; [done|].
  apply Forall_cons in Hs as [Hp Hq]. destruct (len p) as [l|].
  - destruct (_ <? _); [done|]. destruct (give _ _ _ _ _) eqn:E; intros [= <- _]. by eapply give_ok.
  - destruct (delim p) eqn:Et; [done|]; rewrite <- Et in Hp. destruct (_ <? _); [done|]. destruct (find _ _); [|done].
    destruct (give _ _ _ _ _) eqn:E; intros [= <- _]. by eapply give_ok; [..|exact E].
Qed.

(** ** The code against the reference *)

Section Block.
(** The data [d] at [buffer] in a block. *)
Context (mem : bytes) (buffer : Z) (d : bytes).
Context (Hbuffer : 0 <= buffer) (Hdata : slice mem buffer (zlen d) = d).
Context (Hroom : buffer + zlen d <= zlen mem) (Hmax : zlen mem <= 2 ^ 62).

Lemma rest_slice k m : 0 <= k -> 0 <= m -> k + m <= zlen d -> slice mem (buffer + k) m = slice (drop (Z.to_nat k) d) 0 m.
Proof.
  intros Hk Hm Hl. rewrite <- Hdata at 1. rewrite <- (slice_slice mem buffer (zlen d) k m) by lia.
  unfold slice at 1 3. simpl. by rewrite Hdata.
Qed.

Lemma zlen_drop {A} (l : list A) k : 0 <= k <= zlen l -> zlen (drop (Z.to_nat k) l) = zlen l - k.
Proof. unfold zlen. rewrite length_drop. lia. Qed.

Lemma drop_add k m : 0 <= k -> 0 <= m -> drop (Z.to_nat m) (drop (Z.to_nat k) d) = drop (Z.to_nat (k + m)) d.
Proof. intros. rewrite drop_drop. f_equal. lia. Qed.

(** Positions are far from the end of the address space. *)
Ltac sz := pose proof (zlen_nonneg mem); unfold SIZE_MAX in *; lia.

(** One round against [serve]. *)
Lemma round_spec s k : state_ok s -> 0 <= k <= zlen d ->
  match serve s (drop (Z.to_nat k) d) with
  | Ok None => round mem buffer (zlen d) k s = Ok None
  | Ok (Some (s', r)) => exists k', round mem buffer (zlen d) k s = Ok (Some (k', s')) /\
      k <= k' <= zlen d /\ r = drop (Z.to_nat k') d
  | Crash => round mem buffer (zlen d) k s = Crash \/
      exists k' s', round mem buffer (zlen d) k s = Ok (Some (k', s')) /\ zlen d < k'
  | Fuel => False
  end.
Proof.
  intros Hok Hk. unfold serve, round. rewrite (zlen_drop d k Hk). unfold state_ok in Hok.
  destruct (mPendingReceives s) as [|p q]; [done|]. apply Forall_cons in Hok as [Hp _].
  assert (Hn : u64 (zlen d - k) = zlen d - k) by (apply u64_small; sz).
  rewrite Hn. destruct (len p) as [l|].
  - pose proof (size_range l (user s)) as Hs. set (m := size l (user s)) in *.
    destruct (Z.ltb_spec (zlen d - k) m) as [|Hle]; [done|].
    rewrite u64_small, load_ok by sz. rewrite Z.add_simpl_r, rest_slice by sz.
    pose proof (give_no_fuel p (slice (drop (Z.to_nat k) d) 0 m) (0 <? m) q (user s)).
    destruct (give _ _ _ _ _) as [s'| |]; [|by left|done]. eexists. split; [done|].
    split; [lia|]. apply drop_add; lia.
  - destruct (delim p) as [|c t'] eqn:Et; [done|]. set (t := c :: t') in *. unfold short in Hp.
    assert (Ht : 0 < zlen t) by (unfold t; rewrite zlen_cons; pose proof (zlen_nonneg t'); sz).
    destruct (Z.ltb_spec (zlen d - k) (zlen t)) as [Hlt|Hle].
    + destruct (memsearch_behind mem (buffer + k) (zlen d - k) t) as [->|(pos & -> & Hpos & Hq & Hm)];
        [sz|sz|sz|sz|by left|].
      rewrite load_ok by sz. pose proof (give_no_fuel p (slice mem (buffer + k) pos) true q (user s)).
      destruct (give _ _ _ _ _) as [s'| |]; [|by left|done]. right. rewrite u64_small by sz.
      eexists _, s'. split; [done|]. lia.
    + rewrite memsearch_spec, rest_slice by sz. rewrite slice_all_ge by (rewrite zlen_drop; sz).
      destruct (find t _) as [pos|] eqn:Ef; [|done].
      apply find_range in Ef as [Hpos Hend]. rewrite zlen_drop in Hend by sz.
      rewrite load_ok by sz. rewrite rest_slice by sz.
      pose proof (give_no_fuel p (slice (drop (Z.to_nat k) d) 0 pos) true q (user s)).
      destruct (give _ _ _ _ _) as [s'| |]; [|by left|done]. rewrite u64_small by sz. eexists. split; [done|].
      split; [lia|]. apply drop_add; lia.
Qed.

Lemma loop_next fuel s k k' s' : k <= zlen d -> round mem buffer (zlen d) k s = Ok (Some (k', s')) ->
  process_loop (S fuel) mem buffer (zlen d) k s = process_loop fuel mem buffer (zlen d) k' s'.
Proof. intros Hk Hr. cbn [process_loop]. by rewrite (proj2 (Z.leb_le k _)), Hr by lia. Qed.

(** [process] against [serve_all]; where the reference fails, [process] fails or
    claims more than it was given. *)
Lemma loop_spec fuel s k : program_ok -> state_ok s -> 0 <= k <= zlen d ->
  match serve_all fuel s (drop (Z.to_nat k) d) with
  | Ok (s', r) => exists k', process_loop fuel mem buffer (zlen d) k s = Ok (k', s') /\
      k <= k' <= zlen d /\ r = drop (Z.to_nat k') d
  | Crash => (forall k' s', process_loop fuel mem buffer (zlen d) k s = Ok (k', s') -> zlen d < k') /\
      process_loop (S fuel) mem buffer (zlen d) k s <> Fuel
  | Fuel => process_loop fuel mem buffer (zlen d) k s = Fuel
  end.
Proof.
  intros Hc. revert s k. induction fuel as [|fuel IH]; intros s k Hs Hk; [done|].
  pose proof (round_spec s k Hs Hk) as Hr. cbn [serve_all].
  destruct (serve s _) as [[[s' r]|]| |] eqn:E; [| | |done].
  - destruct Hr as (k' & Hr & Hk' & ->). rewrite !(loop_next _ _ _ _ _ (proj2 Hk) Hr).
    specialize (IH s' k' (serve_ok _ _ _ _ Hc Hs E) ltac:(lia)).
    destruct (serve_all fuel s' _) as [[s2 r2]| |]; [|done|done].
    destruct IH as (k2 & -> & ? & ->). exists k2. split_and!; done || lia.
  - exists k. split_and!; [|lia|lia|done]. cbn [process_loop]. by rewrite (proj2 (Z.leb_le k _)), Hr by lia.
  - destruct Hr as [Hr|(k' & s' & Hr & Hk')].
    + cbn [process_loop]. by rewrite (proj2 (Z.leb_le k _)), Hr by lia.
    + rewrite !(loop_next _ _ _ _ _ (proj2 Hk) Hr). assert (Eb : (k' <=? zlen d) = false) by (apply Z.leb_gt; lia).
      split; [|by cbn [process_loop]; rewrite Eb].
      intros k2 s2. destruct fuel; cbn [process_loop]; [done|]. rewrite Eb. by intros [= <- _].
Qed.
End Block.

(** ** Streams in pieces *)

Lemma serve_all_more fuel m s d r : serve_all fuel s d = r -> r <> Fuel -> serve_all (fuel + m) s d = r.
Proof.
  revert s d. induction fuel as [|fuel IH]; intros s d; cbn [serve_all Nat.add]; [by intros <-|].
  destruct (serve s d) as [[[s' d']|]| |]; auto.
Qed.

Lemma find_app t d e pos : find t d = Some pos -> find t (d ++ e) = Some pos.
Proof.
  revert pos. induction d as [|b d IH]; intros pos E; rewrite find_unfold in E |- *.
  - destruct (decide (t `prefix_of` [])) as [Hp|]; [|done].
    rewrite decide_True; [done|]. by apply prefix_nil_inv in Hp as ->; apply prefix_nil.
  - destruct (decide (t `prefix_of` b :: d)) as [Hp|Hn].
    + rewrite decide_True; [done|]. by apply prefix_app_r.
    + destruct (find t d) as [k|] eqn:Ek; [|done]. injection E as <-. simpl. rewrite decide_False; [by rewrite (IH k)|].
      intros Hp. apply find_range in Ek as [? ?]. apply Hn.
      rewrite <- (prefix_take t ((b :: d) ++ e) (length (b :: d))) in Hp by (simpl; unfold zlen in *; lia).
      by rewrite take_app_length in Hp.
Qed.

Lemma slice_app_same (d e : bytes) k : 0 <= k <= zlen d -> slice (d ++ e) 0 k = slice d 0 k.
Proof. intros. apply slice_app_l; lia. Qed.

Lemma drop_app_same (d e : bytes) k : 0 <= k <= zlen d ->
  drop (Z.to_nat k) (d ++ e) = drop (Z.to_nat k) d ++ e.
Proof. intros. apply drop_app_le. unfold zlen in *. lia. Qed.

Lemma serve_app s d e s' r : serve s d = Ok (Some (s', r)) -> serve s (d ++ e) = Ok (Some (s', r ++ e)).
Proof.
  unfold serve. destruct (mPendingReceives s) as [|p q]; [done|]. rewrite zlen_app. pose proof (zlen_nonneg e).
  destruct (len p) as [l|].
  - pose proof (size_range l (user s)). destruct (Z.ltb_spec (zlen d) (size l (user s))); [done|].
    rewrite (proj2 (Z.ltb_ge (zlen d + zlen e) _)), slice_app_same, drop_app_same by lia.
    destruct (give _ _ _ _ _); [|done..]. by intros [= <- <-].
  - destruct (delim p) as [|c t'] eqn:Et; [done|]. set (t := c :: t').
    destruct (Z.ltb_spec (zlen d) (zlen t)); [done|]. rewrite (proj2 (Z.ltb_ge _ _)) by lia.
    destruct (find t d) as [pos|] eqn:Ef; [|done]. rewrite (find_app _ _ _ _ Ef).
    apply find_range in Ef. pose proof (zlen_nonneg t). rewrite slice_app_same, drop_app_same by lia.
    destruct (give _ _ _ _ _); [|done..]. by intros [= <- <-].
Qed.

Lemma serve_all_app f1 f2 s d e s1 r1 s2 r2 :
  serve_all f1 s d = Ok (s1, r1) -> serve_all f2 s1 (r1 ++ e) = Ok (s2, r2) ->
  serve_all (f1 + f2) s (d ++ e) = Ok (s2, r2).
Proof.
  revert s d. induction f1 as [|f1 IH]; intros s d; [done|]. cbn [serve_all Nat.add].
  destruct (serve s d) as [[[s' d']|]| |] eqn:E; [| |done..].
  - intros E1 E2. rewrite (serve_app _ _ _ _ _ E). by apply IH.
  - intros [= <- <-] E2. apply (serve_all_more f2 (S f1) _ _ _) in E2; [|done].
    rewrite Nat.add_comm in E2. exact E2.
Qed.

(** A connection: the bytes of each piece come behind those not taken yet; [process] sees them
    at a place in a block and takes no more than it was given, as DataSocket asserts. *)
Inductive arrives : list bytes -> state -> bytes -> state -> bytes -> Prop :=
  | arrives_nil s rest : arrives [] s rest s rest
  | arrives_cons d ds s rest fuel mem buffer k s1 s2 r :
      0 <= buffer -> buffer + zlen (rest ++ d) <= zlen mem -> zlen mem <= 2 ^ 62 ->
      slice mem buffer (zlen (rest ++ d)) = rest ++ d ->
      process fuel mem buffer (zlen (rest ++ d)) s = Ok (k, s1) -> k <= zlen (rest ++ d) ->
      arrives ds s1 (drop (Z.to_nat k) (rest ++ d)) s2 r ->
      arrives (d :: ds) s rest s2 r.

Lemma process_served fuel mem buffer d s k s' : program_ok -> state_ok s ->
  0 <= buffer -> buffer + zlen d <= zlen mem -> zlen mem <= 2 ^ 62 -> slice mem buffer (zlen d) = d ->
  process fuel mem buffer (zlen d) s = Ok (k, s') -> k <= zlen d ->
  serve_all fuel s d = Ok (s', drop (Z.to_nat k) d).
Proof.
  intros Hc Hs Hb Hr Hm Hd E Hk. pose proof (zlen_nonneg d).
  pose proof (loop_spec mem buffer d Hb Hd Hr Hm fuel s 0 Hc Hs ltac:(lia)) as L. unfold process in E.
  change (drop (Z.to_nat 0) d) with d in L. destruct (serve_all fuel s d) as [[s1 r]| |].
  - destruct L as (k' & E' & _ & ->). rewrite E in E'. by injection E' as -> ->.
  - destruct L as [L _]. specialize (L _ _ E). lia.
  - by rewrite E in L.
Qed.

Lemma serve_all_ok fuel s d s' r : program_ok -> state_ok s -> serve_all fuel s d = Ok (s', r) -> state_ok s'.
Proof.
  intros Hc. revert s d. induction fuel as [|fuel IH]; intros s d Hs; [done|]. cbn [serve_all].
  destruct (serve s d) as [[[s1 d1]|]| |] eqn:E; [| |done..].
  - apply IH. by eapply serve_ok.
  - by intros [= <- _].
Qed.

Lemma arrives_served ds d s rest s' r : program_ok -> state_ok s -> arrives (d :: ds) s rest s' r ->
  exists fuel, serve_all fuel s (rest ++ concat (d :: ds)) = Ok (s', r).
Proof.
  intros Hc. revert d s rest. induction ds as [|d2 ds IH]; intros d s rest Hs Ha.
  - inversion Ha as [|d' ds' s0 rest' fuel mem buffer k s1 s2 r' Hb Hr Hm Hd E Hk Hn]; subst.
    inversion Hn; subst. exists fuel. simpl. rewrite app_nil_r. by eapply process_served.
  - inversion Ha as [|d' ds' s0 rest' fuel mem buffer k s1 s2 r' Hb Hr Hm Hd E Hk Hn]; subst.
    pose proof (process_served _ _ _ _ _ _ _ Hc Hs Hb Hr Hm Hd E Hk) as E1.
    apply IH in Hn as [f2 E2]; [|by eapply serve_all_ok]. exists (fuel + f2)%nat.
    change (concat (d :: d2 :: ds)) with (d ++ concat (d2 :: ds)). rewrite app_assoc. by eapply serve_all_app.
Qed.

Lemma served_once f1 f2 s d a b : serve_all f1 s d = Ok a -> serve_all f2 s d = Ok b -> a = b.
Proof.
  intros E1 E2. apply (serve_all_more f1 f2 _ _ _) in E1; [|done]. apply (serve_all_more f2 f1 _ _ _) in E2; [|done].
  rewrite Nat.add_comm, E1 in E2. by injection E2.
Qed.

(** ** The end of [process] *)

(** A handle given no bytes asks for nothing. *)
Definition quiet : Prop := forall h u, snd (fst (call h [] u)) = [].

Lemma serve_less s d s' r : quiet -> serve s d = Ok (Some (s', r)) ->
  (length r < length d \/ length r = length d /\ length (mPendingReceives s') < length (mPendingReceives s))%nat.
Proof.
  intros Hq. unfold serve. destruct (mPendingReceives s) as [|p q]; [done|]. destruct (len p) as [l|].
  - pose proof (size_range l (user s)). destruct (Z.ltb_spec (zlen d) (size l (user s))); [done|].
    destruct (give _ _ _ _ _) eqn:E; intros [= <- <-]. rewrite length_drop.
    destruct (Z.ltb_spec 0 (size l (user s))) as [|Hz]; [left; unfold zlen in *; lia|right; split; [lia|]].
    replace (size l (user s)) with 0 in E by lia. unfold give in E. specialize (Hq (handle p) (user s)).
    change (slice d 0 0) with (@nil Z) in E. destruct (call _ _ _) as [[stay rs] u']. simpl in Hq. subst rs.
    rewrite andb_false_r in E. injection E as <-. simpl. lia.
  - destruct (delim p) as [|c t'] eqn:Et; [done|]. destruct (Z.ltb_spec (zlen d) (zlen (c :: t'))); [done|].
    destruct (find _ _) as [pos|] eqn:Ef; [|done]. apply find_range in Ef. rewrite zlen_cons in *.
    pose proof (zlen_nonneg t'). destruct (give _ _ _ _ _) eqn:E; intros [= <- <-]. rewrite length_drop.
    left. unfold zlen in *. lia.
Qed.

Lemma serve_all_ends s d : quiet -> exists fuel, serve_all fuel s d <> Fuel.
Proof.
  intros Hq. remember (length d) as n eqn:En. revert s d En.
  induction (lt_wf n) as [n _ IHn]. intros s. remember (length (mPendingReceives s)) as m eqn:Em. revert s Em.
  induction (lt_wf m) as [m _ IHm]. intros s -> d ->.
  destruct (serve s d) as [[[s' r]|]| |] eqn:E;
    [|by exists 1%nat; cbn [serve_all]; rewrite E|by exists 1%nat; cbn [serve_all]; rewrite E|].
  - destruct (serve_less _ _ _ _ Hq E) as [Hl|[Hl Hm]].
    + destruct (IHn _ Hl s' r eq_refl) as [f Hf]. exists (S f). cbn [serve_all]. by rewrite E.
    + destruct (IHm _ Hm s' eq_refl r (eq_sym Hl)) as [f Hf]. exists (S f). cbn [serve_all]. by rewrite E.
  - exfalso. revert E. unfold serve. destruct (mPendingReceives s) as [|p q]; [done|]. destruct (len p) as [l|].
    + destruct (_ <? _); [done|]. pose proof (give_no_fuel p (slice d 0 (size l (user s))) (0 <? size l (user s)) q (user s)).
      by destruct (give _ _ _ _ _).
    + destruct (delim p) as [|c t']; [done|]. destruct (_ <? _); [done|]. destruct (find _ _) as [pos|]; [|done].
      pose proof (give_no_fuel p (slice d 0 pos) true q (user s)). by destruct (give _ _ _ _ _).
Qed.
End Receive.

Arguments state : clear implicits.
Arguments request : clear implicits.
Arguments PendingReceive : clear implicits.

(** C28: whatever the handles do and however the bytes of a connection are cut into
    pieces, as long as [process] takes no more than it is given (as DataSocket asserts),
    the receives are served as on the whole stream at once: the handles get the
    same bytes in the same order and leave the same receives, and the same
    bytes are left. *)
Theorem stream_received {H loc U} (call : H -> bytes -> U -> bool * list (request H loc) * U)
    (value : loc -> U -> Z) (d : bytes) (ds : list bytes) (s s' : state H loc U) (r : bytes) :
  program_ok call -> state_ok s -> arrives call value (d :: ds) s [] s' r ->
  (exists fuel, serve_all call value fuel s (concat (d :: ds)) = Ok (s', r)) /\
  (forall e es s2 r2, arrives call value (e :: es) s [] s2 r2 -> concat (e :: es) = concat (d :: ds) ->
     s2 = s' /\ r2 = r).
Proof.
  intros Hc Hs Ha. destruct (arrives_served call value ds d s [] s' r Hc Hs Ha) as [f E]. split; [by exists f|].
  intros e es s2 r2 Hb Ec. destruct (arrives_served call value es e s [] s2 r2 Hc Hs Hb) as [f2 E2].
  rewrite app_nil_l in E, E2. rewrite Ec in E2. pose proof (served_once _ _ _ _ _ _ _ _ E2 E) as [= -> ->]. done.
Qed.

(** C29: [process] ends. When a handle that is given no bytes asks for no more
    receives, there is a number of rounds within which [process] returns or fails, on
    any data and for any receives; the handles may ask for any number of receives
    otherwise. *)
Theorem process_ends {H loc U} (call : H -> bytes -> U -> bool * list (request H loc) * U)
    (value : loc -> U -> Z) (mem : bytes) (buffer : Z) (d : bytes) (s : state H loc U) :
  program_ok call -> quiet call -> state_ok s ->
  0 <= buffer -> buffer + zlen d <= zlen mem -> zlen mem <= 2 ^ 62 -> slice mem buffer (zlen d) = d ->
  exists fuel, process call value fuel mem buffer (zlen d) s <> Fuel.
Proof.
  intros Hc Hq Hs Hb Hr Hm Hd. destruct (serve_all_ends call value s d Hq) as [f Hf]. pose proof (zlen_nonneg d).
  pose proof (loop_spec call value mem buffer d Hb Hd Hr Hm f s 0 Hc Hs ltac:(lia)) as L.
  change (drop (Z.to_nat 0) d) with d in L. unfold process.
  destruct (serve_all call value f s d) as [[s' r]| |]; [|by exists (S f); apply L|done].
  destruct L as (k & E & _). exists f. by rewrite E.
Qed.

(** A search with fewer bytes left than its delimiter: the difference of the sizes
    wraps around, so [process] either leaves the block or claims bytes it was not
    given, found in what lies behind them. *)
Theorem short_search {H loc U} (call : H -> bytes -> U -> bool * list (request H loc) * U)
    (value : loc -> U -> Z) (mem : bytes) (buffer : Z) (d : bytes) (s : state H loc U) p q fuel k s' :
  program_ok call -> state_ok s -> 0 <= buffer -> buffer + zlen d <= zlen mem -> zlen mem <= 2 ^ 62 ->
  slice mem buffer (zlen d) = d ->
  mPendingReceives s = p :: q -> len p = None -> zlen d < zlen (delim p) ->
  process call value fuel mem buffer (zlen d) s = Ok (k, s') -> zlen d < k.
Proof.
  intros Hc Hs Hb Hr Hm Hd Ep El Hl E. pose proof (zlen_nonneg d).
  pose proof (loop_spec call value mem buffer d Hb Hd Hr Hm fuel s 0 Hc Hs ltac:(lia)) as L.
  change (drop (Z.to_nat 0) d) with d in L. destruct fuel as [|fuel]; [done|]. cbn [serve_all] in L. unfold serve in L.
  rewrite Ep, El in L. destruct (delim p) as [|c t]; [rewrite zlen_nil in Hl; lia|].
  rewrite (proj2 (Z.ltb_lt (zlen d) _)) in L by done. by eapply L.
Qed.

(** ** A line with the length of a message, and the message *)

Inductive demo_handle := Line | Message.
(** The shared length, and what was received. *)
Definition demo_call (h : demo_handle) (data : bytes) (u : Z * list bytes)
    : bool * list (request demo_handle unit) * (Z * list bytes) :=
  match h with
  | Line => (false, [], (znth data 0 0 - #"0", snd u))
  | Message => (false, [], (fst u, snd u ++ [data]))
  end.
Definition demo_value (_ : unit) (u : Z * list bytes) : Z := fst u.
Definition demo_receives : state demo_handle unit (Z * list bytes) :=
  mk_state [mk_pending None [10] Line; mk_pending (Some (Shared tt)) [] Message] (0, []).
Definition demo_served : state demo_handle unit (Z * list bytes) := mk_state [] (3, [str "abc"]).

Lemma demo_program_ok : program_ok demo_call.
Proof. intros [] d u; constructor. Qed.
Lemma demo_receives_ok : state_ok demo_receives.
Proof. repeat constructor; unfold short; simpl; unfold zlen; simpl; lia. Qed.

(** The message comes in two pieces, in a block with other bytes around. *)
Lemma demo_arrives : arrives demo_call demo_value [str "3" ++ [10] ++ str "ab"; str "c"] demo_receives [] demo_served [].
Proof.
  apply (arrives_cons _ _ _ _ _ _ 3 ([7] ++ str "3" ++ [10] ++ str "ab" ++ [9; 9]) 1 2
    (mk_state [mk_pending (Some (Shared tt)) [] Message] (3, [])) _ _);
    [done|done|done|reflexivity|reflexivity|done|].
  apply (arrives_cons _ _ _ _ _ _ 3 (str "abc" ++ [9]) 0 3 demo_served _ _);
    [done|done|done|reflexivity|reflexivity|done|constructor].
Qed.

Lemma stream_received_witness :
  exists fuel, serve_all demo_call demo_value fuel demo_receives (str "3" ++ [10] ++ str "abc") = Ok (demo_served, []).
Proof.
  exact (proj1 (stream_received demo_call demo_value (str "3" ++ [10] ++ str "ab") [str "c"] demo_receives demo_served []
    demo_program_ok demo_receives_ok demo_arrives)).
Defined.

Lemma process_ends_witness :
  exists fuel, process demo_call demo_value fuel (str "3" ++ [10] ++ str "abc") 0 5 demo_receives <> Fuel.
Proof.
  apply (process_ends demo_call demo_value (str "3" ++ [10] ++ str "abc") 0 (str "3" ++ [10] ++ str "abc") demo_receives
    demo_program_ok); [by intros [] u|exact demo_receives_ok|done|done|done|reflexivity].
Defined.

(** A line is waited for and nothing is left of the data: the line end of an older
    message behind them is taken for its end. *)
Definition demo_line : state demo_handle unit (Z * list bytes) := mk_state [mk_pending None [10] Message] (3, []).
Definition demo_stale : state demo_handle unit (Z * list bytes) := mk_state [] (3, [str "old"]).

Lemma short_search_witness :
  process demo_call demo_value 4 (str "old" ++ [10]) 0 0 demo_line = Ok (4, demo_stale) /\ 0 < 4.
Proof.
  split; [reflexivity|].
  apply (short_search demo_call demo_value (str "old" ++ [10]) 0 [] demo_line (mk_pending None [10] Message) [] 4 4 demo_stale
    demo_program_ok); try reflexivity; try done.
  repeat constructor; unfold short; simpl; unfold zlen; simpl; lia.
Defined.
