(* ===== verification/Connector.v ===== *)
(** * net/Connector.cpp: connecting without waiting

    The worker's part: the connections that are under way, polled through
    net/fdset.c and utils/stack.c, their timeouts, and the callbacks, which may
    drop or keep the socket they are given and ask for further connections.
    The thread around it is in [ConnectorRun]. *)

From S2P Require Import Prelude.
From S2P Require Import Words.
From S2P Require Import Stack.
From S2P Require Import IntQueue.
From S2P Require Import Fdset.
From S2P Require Import Outcome.
From stdpp Require Import gmap sorting.
#[local] Open Scope Z_scope.
#[local] Open Scope brynet_scope.
#[local] Open Scope outcome_scope.

(** ** The system *)

Inductive connect_result := Connected | InProgress | Refused.

(** The calls the connector makes, on a state of the system that only they and other
    programs change: the descriptors that are open; [socket]; [connect] on a socket that does not
    block; [close]; [getsockopt] for [SO_ERROR]; the steady clock; [poll]. A new descriptor is
    not an open one, and is below the limit of open files. *)
Class Kernel (K : Type) := {
  opened : K -> gset Z;
  sys_socket : K -> option Z * K;
  sys_connect : Z -> bytes -> Z -> K -> connect_result * K;
  sys_close : Z -> K -> K;
  sys_sockerr : Z -> K -> option Z * K;
  sys_now : K -> Z * K;
  sys_poll : list pollfd -> Z -> K -> (Z * Z * list Z) * K;
  socket_fails k k' : sys_socket k = (None, k') -> opened k' = opened k;
  socket_opens k k' x : sys_socket k = (Some x, k') ->
    0 <= x < 2 ^ 26 /\ x ∉ opened k /\ opened k' = {[x]} ∪ opened k;
  connect_opened x ip port k : opened (snd (sys_connect x ip port k)) = opened k;
  close_opened x k : opened (sys_close x k) = opened k ∖ {[x]};
  sockerr_opened x k : opened (snd (sys_sockerr x k)) = opened k;
  now_opened k : opened (snd (sys_now k)) = opened k;
  poll_opened l n k : opened (snd (sys_poll l n k)) = opened k;
  poll_revents l n k : length (snd (fst (sys_poll l n k))) = length l }.

(** ** Requests and callbacks *)

(** What a callback does, in order: with the [TcpSocket] it was given, destroy it or move
    it elsewhere; [asyncConnect]. What it still has at its end is destroyed. *)
Inductive address := mk_address (ip : bytes) (port timeout : Z) (successCB failedCB : list action)
with action := DropSocket | KeepSocket | Connect (a : address).

Definition successCB a := let 'mk_address _ _ _ s _ := a in s.
Definition failedCB a := let 'mk_address _ _ _ _ f := a in f.
Definition timeout a := let 'mk_address _ _ t _ _ := a in t.

(** [ConnectingInfo]; [ci_id]: the request it came from. *)
Record ConnectingInfo := mk_info {
  startConnectTime : Z; ci_timeout : Z; ci_successCB : list action; ci_failedCB : list action; ci_id : nat }.

Section Worker.
Context {K : Type} `{!Kernel K}.
(** The allocators of the stack and of the descriptor set. *)
Context (malloc : Z -> option bytes) (fmalloc : Z -> option (list pollfd)).

(** [ConnectorWorkInfo], with the system. [guarded]: [mThreadGuard] is locked. The requests
    begun, the answers given to them by number, and the descriptors that were made and are
    neither closed nor kept by a callback, are recorded. *)
Record work := mk_work {
  kernel : K;
  mConnectingInfos : gmap Z ConnectingInfo;
  mFDSet : fdset_s;
  mPollResult : stack_s;
  guarded : bool;
  begun : list address; answers : list (nat * bool); mine : gset Z }.

Definition set_kernel k w := mk_work k (mConnectingInfos w) (mFDSet w) (mPollResult w) (guarded w) (begun w) (answers w) (mine w).
Definition set_infos m w := mk_work (kernel w) m (mFDSet w) (mPollResult w) (guarded w) (begun w) (answers w) (mine w).
Definition set_fdset f w := mk_work (kernel w) (mConnectingInfos w) f (mPollResult w) (guarded w) (begun w) (answers w) (mine w).
Definition set_result q w := mk_work (kernel w) (mConnectingInfos w) (mFDSet w) q (guarded w) (begun w) (answers w) (mine w).
Definition set_guarded g w := mk_work (kernel w) (mConnectingInfos w) (mFDSet w) (mPollResult w) g (begun w) (answers w) (mine w).
Definition set_begun l w := mk_work (kernel w) (mConnectingInfos w) (mFDSet w) (mPollResult w) (guarded w) l (answers w) (mine w).
Definition set_answers l w := mk_work (kernel w) (mConnectingInfos w) (mFDSet w) (mPollResult w) (guarded w) (begun w) l (mine w).
Definition set_mine l w := mk_work (kernel w) (mConnectingInfos w) (mFDSet w) (mPollResult w) (guarded w) (begun w) (answers w) l.

#[local] Abbreviation M := (Outcome.M work).

(** A system call. *)
Definition sys {A} (f : K -> A * K) : M A := fun w => let '(a, k) := f (kernel w) in Ok (a, set_kernel k w).

Definition SocketCreate : M (option Z) :=
  r <- sys sys_socket ;;
  match r with
  | Some x => upd (fun w => set_mine ({[x]} ∪ mine w) w) ;;; ret (Some x)
  | None => ret None
  end.

(** [base::SocketClose]: to close a descriptor that is not open, or no more the
    connector's, is an error. *)
Definition SocketClose (x : Z) : M unit :=
  w <- get ;;
  if decide (x ∈ mine w /\ x ∈ opened (kernel w))
  then upd (fun w => set_mine (mine w ∖ {[x]}) (set_kernel (sys_close x (kernel w)) w))
  else crash.

Definition fdset_add (x : Z) : M unit :=
  w <- get ;; f <- lift (ox_fdset_add fmalloc (mFDSet w) x WriteCheck) ;; upd (set_fdset f).
Definition fdset_remove (x : Z) : M unit :=
  w <- get ;; f <- lift (ox_fdset_remove (mFDSet w) x) ;; upd (set_fdset f).

(** ** Callbacks *)

(** A request begins, with its number; an answer is given. *)
Definition begin (a : address) : M nat :=
  n <- gets (fun w => length (begun w)) ;; upd (fun w => set_begun (begun w ++ [a]) w) ;;; ret n.
Definition answer (n : nat) (ok : bool) : M unit := upd (fun w => set_answers (answers w ++ [(n, ok)]) w).

(** [~TcpSocket] *)
Definition destroy (socket : option Z) : M unit :=
  match socket with Some x => SocketClose x | None => ret tt end.

Definition keep (socket : option Z) : M unit :=
  match socket with Some x => upd (fun w => set_mine (mine w ∖ {[x]}) w) | None => ret tt end.

(** The actions of a callback, which hold a socket or not. *)
Definition run_all (run : action -> option Z -> M (option Z)) : list action -> option Z -> M (option Z) :=
  fix go l socket := match l with [] => ret socket | x :: l => s <- run x socket ;; go l s end.

Definition callback (run : action -> option Z -> M (option Z)) (l : list action) (socket : option Z) : M unit :=
  s <- run_all run l socket ;; destroy s.

(** [asyncConnect] on the worker's thread: the lock of [mThreadGuard], which the thread does
    not get when it is locked already, by itself (to lock twice is undefined for both mutexes) or
    by [stopWorkerThread]; [*mIsRun], which is true when the lock is free, as only a stop resets it;
    then [pushAsyncProc], which runs the procedure at once on the loop's own thread. *)
Definition asyncConnect_here (process : M unit) : M unit :=
  g <- gets guarded ;;
  if g then crash else upd (set_guarded true) ;;; process ;;; upd (set_guarded false).

Fixpoint processConnect (a : address) : M unit :=
  match a with
  | mk_address ip port timeout success failed =>
      n <- begin a ;;
      r <- SocketCreate ;;
      match r with
      | None => answer n false ;;; callback run_action failed None
      | Some clientfd =>
          c <- sys (sys_connect clientfd ip port) ;;
          match c with
          | Connected => answer n true ;;; callback run_action success (Some clientfd)
          | Refused => SocketClose clientfd ;;; answer n false ;;; callback run_action failed None
          | InProgress =>
              t <- sys sys_now ;;
              upd (fun w => set_infos (<[clientfd := mk_info t timeout success failed n]> (mConnectingInfos w)) w) ;;;
              fdset_add clientfd
          end
      end
  end
with run_action (x : action) (socket : option Z) : M (option Z) :=
  match x with
  | DropSocket => destroy socket ;;; ret None
  | KeepSocket => keep socket ;;; ret None
  | Connect a => asyncConnect_here (processConnect a) ;;; ret socket
  end.

(** ** checkConnectStatus *)

Definition poll (millsecond : Z) : M Z :=
  w <- get ;;
  let '(r, k) := sys_poll (live (mFDSet w)) millsecond (kernel w) in
  let '(n, f) := ox_fdset_poll (fun _ _ => r) (mFDSet w) millsecond in
  upd (fun w => set_fdset f (set_kernel k w)) ;;; ret n.

(** [isConnectSuccess(fd, willCheckWrite)] *)
Definition isConnectSuccess (x : Z) (willCheckWrite : bool) : M bool :=
  w <- get ;;
  if willCheckWrite && negb (ox_fdset_check (mFDSet w) x WriteCheck) then ret false
  else
    r <- sys (sys_sockerr x) ;;
    ret (match r with Some error => error =? 0 | None => false end).

Definition visitor : M unit :=
  w <- get ;; q <- lift (ox_fdset_visitor malloc (mFDSet w) WriteCheck (mPollResult w)) ;; upd (set_result q).

Definition popfront : M (option Z) :=
  w <- get ;; r <- lift (stack_popfront (mPollResult w)) ;; upd (set_result (snd r)) ;;; ret (fst r).

(** The loop that fills [total_fds] and [success_fds], as lists in the order found. *)
Fixpoint drain (fuel : nat) (total success : list Z) : M (list Z * list Z) :=
  match fuel with
  | O => no_fuel
  | Datatypes.S fuel =>
      p <- popfront ;;
      match p with
      | None => ret (total, success)
      | Some x =>
          b <- isConnectSuccess x false ;;
          drain fuel (total ++ [x]) (if b then success ++ [x] else success)
      end
  end.

(** A [std::set] of descriptors, walked in order. *)
Definition ordered (l : list Z) : list Z := merge_sort Z.le (remove_dups l).

(** The body of the loop over [total_fds]. *)
Definition settle (success : list Z) (x : Z) : M unit :=
  fdset_remove x ;;;
  w <- get ;;
  match mConnectingInfos w !! x with
  | None => ret tt
  | Some it =>
      if decide (x ∈ success)
      then answer (ci_id it) true ;;; callback run_action (ci_successCB it) (Some x) ;;;
           upd (fun w => set_infos (delete x (mConnectingInfos w)) w)
      else answer (ci_id it) false ;;; callback run_action (ci_failedCB it) None ;;;
           upd (fun w => set_infos (delete x (mConnectingInfos w)) w) ;;; SocketClose x
  end.

Fixpoint settle_all (success : list Z) (l : list Z) : M unit :=
  match l with [] => ret tt | x :: l => settle success x ;;; settle_all success l end.

Definition checkConnectStatus (millsecond : Z) : M unit :=
  n <- poll millsecond ;;
  if n <=? 0 then ret tt
  else
    visitor ;;;
    w <- get ;;
    r <- drain (Datatypes.S (Z.to_nat (st_num (mPollResult w)))) [] [] ;;
    settle_all (snd r) (ordered (fst r)).

(** ** checkTimeout *)

(** The first key of the map from [x] on: an iterator of [std::map]. *)
Definition lower_bound (x : Z) (m : gmap Z ConnectingInfo) : option Z :=
  head (filter (fun y => x <= y) (ordered (fst <$> map_to_list m))).

(** One round of the loop, from an iterator to the next one. The callback
    comes after the iterator has gone on. *)
Definition timeout_round (it : Z) : M (option Z) :=
  t <- sys sys_now ;;
  w <- get ;;
  match mConnectingInfos w !! it with
  | None => crash
  | Some ci =>
      let next := lower_bound (it + 1) (mConnectingInfos w) in
      if t - startConnectTime ci <? ci_timeout ci then ret next
      else
        fdset_remove it ;;;
        upd (fun w => set_infos (delete it (mConnectingInfos w)) w) ;;;
        SocketClose it ;;;
        answer (ci_id ci) false ;;; callback run_action (ci_failedCB ci) None ;;;
        ret next
  end.

(** At most [p] rounds; the iterator where it stopped. *)
Fixpoint rounds (p : positive) (it : option Z) : M (option Z) :=
  match it with
  | None => ret None
  | Some x =>
      match p with
      | xH => timeout_round x
      | xO p => it <- rounds p it ;; rounds p it
      | xI p => it <- timeout_round x ;; it <- rounds p it ;; rounds p it
      end
  end.

Definition checkTimeout : M unit :=
  w <- get ;;
  it <- rounds (2 ^ 26) (lower_bound 0 (mConnectingInfos w)) ;;
  match it with None => ret tt | Some _ => no_fuel end.

(** ** causeAllFailed *)

Fixpoint fail_all (l : list (Z * ConnectingInfo)) : M unit :=
  match l with
  | [] => ret tt
  | (x, ci) :: l =>
      fdset_remove x ;;; SocketClose x ;;;
      answer (ci_id ci) false ;;; callback run_action (ci_failedCB ci) None ;;;
      fail_all l
  end.

(** The entries of the map in the order of their keys. *)
Definition entries (m : gmap Z ConnectingInfo) : list (Z * ConnectingInfo) :=
  omap (fun x => pair x <$> m !! x) (ordered (fst <$> map_to_list m)).

Definition causeAllFailed : M unit :=
  w <- get ;;
  let copyMap := mConnectingInfos w in
  upd (set_infos ∅) ;;; fail_all (entries copyMap).
End Worker.
