(* ===== verification/ConnectorSafe.v ===== *)
(** * net/Connector.cpp: what the worker keeps true

    The invariant of [ConnectorWorkInfo] and of the descriptors it made, and the
    parts of the worker's round against it. *)

From S2P Require Import Prelude.
From S2P Require Import Words.
From S2P Require Import Stack.
From S2P Require Import IntQueue.
From S2P Require Import Fdset.
From S2P Require Import Outcome.
From S2P Require Import Connector.
From stdpp Require Import gmap sorting.
#[local] Open Scope Z_scope.
#[local] Open Scope brynet_scope.
#[local] Open Scope outcome_scope.

(** ** The descriptor set *)

(** [ox_fdset_poll] changes nothing but [revents]. *)
Lemma poll_spec r self n : fdset_wf self -> length r.2 = length (live self) ->
  let self' := snd (ox_fdset_poll (fun _ _ => r) self n) in
  fdset_wf self' /\ interest self' = interest self.
Proof.
  intros Hw Hl. destruct r as [[ret err] revs]. simpl in Hl. unfold ox_fdset_poll. simpl.
  set (live' := zip_with _ _ revs).
  assert (Hlen : length live' = length (live self)) by (unfold live'; rewrite length_zip_with; unfold live in *; lia).
  assert (Hz : zlen live' = nfds self) by (unfold zlen; rewrite Hlen; exact (length_live self Hw)).
  assert (Hlive : live (mk_fdset (splice (pollFds self) 0 live') (nfds self) (limitSize self)) = live').
  { unfold live at 1. simpl. rewrite <- Hz. apply slice_splice_same; [lia|]. destruct Hw. lia. }
  assert (Hfd : fd <$> live' = fd <$> live self).
  { unfold live'. fold (live self). clear -Hl. revert revs Hl. induction (live self) as [|p l IH]; intros [|r revs] Hl; try done.
    simpl. f_equal. apply IH. simpl in Hl. lia. }
  assert (Hev : entry <$> live' = entry <$> live self).
  { unfold live'. fold (live self). clear -Hl. revert revs Hl. induction (live self) as [|p l IH]; intros [|r revs] Hl; try done.
    simpl. f_equal. apply IH. simpl in Hl. lia. }
  split.
  - destruct Hw. constructor; simpl; [rewrite zlen_splice; lia|done|]. by rewrite Hlive, Hfd.
  - unfold interest. by rewrite Hlive, Hev.
Qed.

Lemma live_interest self x : fdset_wf self -> x ∈ fd <$> live self <-> x ∈ dom (interest self).
Proof.
  intros Hw. rewrite elem_of_dom, list_elem_of_fmap. split.
  - intros (p & -> & Hp). exists (events p). apply interest_lookup; [done|]. by exists p.
  - intros [e He]. apply interest_lookup in He as (p & Hp & <- & _); [|done]. by exists p.
Qed.

Section Visit.
Context (malloc : Z -> option bytes) (Hmalloc : malloc_total malloc).

Lemma visit_spec type (l : list pollfd) q held :
  stack_holds q held -> Forall is_int (fd <$> l) -> zlen held + zlen l <= 2 ^ 26 ->
  exists q', visit malloc l type q = Some q' /\
    stack_holds q' (held ++ (fd <$> filter (fun p => check_event (Some p) type = true) l)).
Proof.
  revert q held. induction l as [|p l IH]; intros q held Hq Hl Hn; cbn [visit].
  { exists q. split; [done|]. cbn [filter list_filter fmap list_fmap]. by rewrite app_nil_r. }
  rewrite fmap_cons in Hl. apply Forall_cons in Hl as [Hp Hl]. rewrite zlen_cons in Hn. pose proof (zlen_nonneg l).
  rewrite filter_cons. destruct (check_event (Some p) type) eqn:E.
  - rewrite decide_True by done.
    destruct (q_push_ok (IntQueue := stack_queue malloc Hmalloc) q held (fd p)) as (q' & Eq & Hq'); [done|done|simpl; lia|].
    simpl in Eq, Hq'. unfold stack_push in Eq.
    destruct (ox_stack_push true malloc q (le_bytes 4 (fd p))) as [[b q1]|]; [|done]. injection Eq as ->.
    cbn [mbind option_bind snd]. rewrite fmap_cons.
    destruct (IH q' (held ++ [fd p]) Hq' Hl) as (q2 & -> & Hq2); [rewrite zlen_app, zlen_cons, zlen_nil; lia|].
    exists q2. split; [done|]. by rewrite <- app_assoc in Hq2.
  - rewrite decide_False by done. apply IH; [done|done|lia].
Qed.
End Visit.

Lemma bounded_length (l : list Z) n : 0 <= n -> NoDup l -> (forall x, x ∈ l -> 0 <= x < n) -> zlen l <= n.
Proof.
  intros Hn Hd Hb. assert (Hs : l ⊆+ seqZ 0 n).
  { apply NoDup_submseteq; [done|]. intros x Hx. apply elem_of_seqZ. specialize (Hb x Hx). lia. }
  apply submseteq_length in Hs. rewrite length_seqZ in Hs. unfold zlen. lia.
Qed.

(** ** Total correctness

    [must k m Q w]: from [w] the computation ends within its fuel, in [Q]; it fails only if
    [k] admits it. *)
Definition must {S A} (k : bool) (m : Outcome.M S A) (Q : A -> S -> Prop) (s : S) : Prop :=
  match m s with Ok (a, s') => Q a s' | Crash => k = true | Fuel => False end.

Section Must.
Context {S : Type} (k : bool).

Lemma must_ret {A} (a : A) (Q : A -> S -> Prop) s : Q a s -> must k (ret a) Q s.
Proof. done. Qed.
Lemma must_bind {A B} (m : Outcome.M S A) (f : A -> Outcome.M S B) Q s :
  must k m (fun a => must k (f a) Q) s -> must k (bind m f) Q s.
Proof. unfold must, bind. by destruct (m s) as [[]| |]. Qed.
Lemma must_get Q (s : S) : Q s s -> must k get Q s.
Proof. done. Qed.
Lemma must_gets {A} (f : S -> A) Q s : Q (f s) s -> must k (gets f) Q s.
Proof. done. Qed.
Lemma must_upd (f : S -> S) Q s : Q tt (f s) -> must k (upd f) Q s.
Proof. done. Qed.
Lemma must_crash {A} (Q : A -> S -> Prop) s : k = true -> must k crash Q s.
Proof. done. Qed.
Lemma must_lift {A} (o : option A) a (Q : A -> S -> Prop) s : o = Some a -> Q a s -> must k (lift o) Q s.
Proof. by intros ->. Qed.
Lemma must_mono {A} (m : Outcome.M S A) (Q Q' : A -> S -> Prop) s :
  must k m Q s -> (forall a s', Q a s' -> Q' a s') -> must k m Q' s.
Proof. unfold must. destruct (m s) as [[]| |]; auto. Qed.
(** One part, then the others from what it establishes. *)
Lemma must_then {A B} (m : Outcome.M S A) (f : A -> Outcome.M S B) (Q : A -> S -> Prop) R s :
  must k m Q s -> (forall a s', Q a s' -> must k (f a) R s') -> must k (bind m f) R s.
Proof. intros Hm Hf. apply must_bind. by apply (must_mono m Q). Qed.
End Must.

Ltac must_step :=
  lazymatch goal with
  | |- must _ (bind _ _) _ _ => apply must_bind
  | |- must _ (ret _) _ _ => apply must_ret
  | |- must _ get _ _ => apply must_get
  | |- must _ (gets _) _ _ => apply must_gets
  | |- must _ (upd _) _ _ => apply must_upd
  | |- _ => fail
  end; cbv beta.
Ltac must_steps := repeat must_step.

(** ** Callbacks that a connector bears *)

Definition is_connect (x : action) : Prop := match x with Connect _ => True | _ => False end.

(** A callback asks for connections only while it has its socket. *)
Fixpoint connects_first (l : list action) : Prop :=
  match l with
  | [] => True
  | Connect _ :: l => connects_first l
  | _ :: l => Forall (fun x => ~ is_connect x) l
  end.

(** So for a request and those of its callbacks; [k]: callbacks may ask for connections. *)
Inductive calm (k : bool) : address -> Prop :=
  | calm_intro ip port t s f :
      connects_first s -> (forall a, Connect a ∈ s ++ f -> k = true) -> (forall a, Connect a ∈ s ++ f -> calm k a) ->
      calm k (mk_address ip port t s f).

Section Safe.
Context {K : Type} `{!Kernel K}.
Context (malloc : Z -> option bytes) (Hmalloc : malloc_total malloc).
Context (fmalloc : Z -> option (list pollfd)) (Hfmalloc : fd_malloc_ok fmalloc).
Context (k : bool).

#[local] Abbreviation work := (work (K := K)).

(** ** The invariant *)

(** How the entries that count relate to the map: they are the map; all but the one whose
    callback runs; or a copy of it, the map being empty and the lock taken. *)
Inductive mode := Same | Busy (x : Z) | Detached.

Definition linked (o : mode) (infos m : gmap Z ConnectingInfo) (g : bool) : Prop :=
  match o with Same => m = infos | Busy x => m = delete x infos | Detached => infos = ∅ /\ g = true end.

Definition ids (m : gmap Z ConnectingInfo) : list nat := (fun p => ci_id (snd p)) <$> map_to_list m.

(** An entry is that of its request. *)
Definition from (l : list address) (ci : ConnectingInfo) : Prop :=
  exists a, l !! ci_id ci = Some a /\
    ci_timeout ci = timeout a /\ ci_successCB ci = successCB a /\ ci_failedCB ci = failedCB a.

(** [m]: the connections under way; [X]: descriptors in the hands of the code that runs;
    [T]: requests begun that it is about to answer. *)
Record inv (o : mode) (m : gmap Z ConnectingInfo) (X : gset Z) (T : list nat) (w : work) : Prop := {
  inv_link : linked o (mConnectingInfos w) m (guarded w);
  inv_fdset : fdset_wf (mFDSet w);
  inv_watched : interest (mFDSet w) = (fun _ => CHECK_WRITE_FLAG) <$> m;
  inv_mine : mine w = dom m ∪ X;
  inv_apart : dom m ## X;
  inv_open : mine w ⊆ opened (kernel w);
  inv_range x : x ∈ mine w -> 0 <= x < 2 ^ 26;
  inv_ids : (answers w).*1 ++ T ++ ids m ≡ₚ seq 0 (length (begun w));
  inv_from x ci : m !! x = Some ci -> from (begun w) ci;
  inv_calm : Forall (calm k) (begun w) }.

(** What the code that runs leaves to the code that called it. *)
Record frame (w w' : work) : Prop := {
  frame_guarded : guarded w' = guarded w;
  frame_result : mPollResult w' = mPollResult w;
  frame_infos : mConnectingInfos w ⊆ mConnectingInfos w';
  frame_begun : begun w `prefix_of` begun w' }.

#[local] Instance frame_preorder : PreOrder frame.
Proof.
  split.
  - intros w. by split.
  - intros w1 w2 w3 [] []. split; [congruence|congruence|by etrans|by etrans].
Qed.

(** ** The primitives *)

Lemma inv_kernel o m X T w kern : inv o m X T w -> opened kern = opened (kernel w) -> inv o m X T (set_kernel kern w).
Proof. intros [] E. split; simpl; try done. by rewrite E. Qed.

Lemma must_sys {A} (f : K -> A * K) Q w : (let '(a, kern) := f (kernel w) in Q a (set_kernel kern w)) -> must k (sys f) Q w.
Proof. unfold must, sys. by destruct (f _). Qed.

Lemma inv_answer o m X T w n b : inv o m X (n :: T) w -> inv o m X T (set_answers (answers w ++ [(n, b)]) w).
Proof.
  intros []. split; simpl; try done. rewrite <- inv_ids0, fmap_app, <- !app_assoc. done.
Qed.

Lemma inv_begin o m X T w a : inv o m X T w -> calm k a ->
  inv o m X (length (begun w) :: T) (set_begun (begun w ++ [a]) w).
Proof.
  intros [] Ha. split; simpl; try done.
  - rewrite length_app. simpl. rewrite Nat.add_1_r, seq_S, <- inv_ids0. simpl.
    rewrite <- Permutation_middle. apply Permutation_cons_append.
  - intros x ci Hx. destruct (inv_from0 x ci Hx) as (b & Hb & ?). exists b. split; [|done].
    by apply lookup_app_l_Some.
  - apply Forall_app. by split; [|constructor].
Qed.

Lemma inv_close o m X T w x : inv o m ({[x]} ∪ X) T w -> x ∉ X ->
  inv o m X T (set_mine (mine w ∖ {[x]}) (set_kernel (sys_close x (kernel w)) w)).
Proof.
  intros [] Hx. split; simpl; try done.
  - rewrite inv_mine0. set_solver.
  - set_solver.
  - rewrite close_opened. set_solver.
  - intros y Hy. apply inv_range0. set_solver.
Qed.

Lemma must_close o m X T w x Q : inv o m ({[x]} ∪ X) T w -> x ∉ X ->
  (forall w', inv o m X T w' -> frame w w' -> begun w' = begun w -> Q tt w') -> must k (SocketClose x) Q w.
Proof.
  intros Hi Hx HQ. unfold SocketClose. must_steps. rewrite decide_True.
  - must_steps. apply HQ; [by apply inv_close|by split|done].
  - destruct Hi. rewrite inv_mine0. split; [set_solver|]. apply inv_open0. rewrite inv_mine0. set_solver.
Qed.

Lemma inv_keep o m X T w x : inv o m ({[x]} ∪ X) T w -> x ∉ X -> inv o m X T (set_mine (mine w ∖ {[x]}) w).
Proof.
  intros [] Hx. split; simpl; try done.
  - rewrite inv_mine0. set_solver.
  - set_solver.
  - set_solver.
  - intros y Hy. apply inv_range0. set_solver.
Qed.

Lemma must_socket o m X T w Q : inv o m X T w ->
  (forall w', inv o m X T w' -> frame w w' -> begun w' = begun w -> Q None w') ->
  (forall w' x, inv o m ({[x]} ∪ X) T w' -> x ∉ X -> frame w w' -> begun w' = begun w -> Q (Some x) w') ->
  must k SocketCreate Q w.
Proof.
  intros Hi H0 H1. unfold SocketCreate. apply must_bind, must_sys.
  destruct (sys_socket (kernel w)) as [[x|] kern] eqn:E; must_steps.
  - apply socket_opens in E as (Hr & Hx & Ho).
    assert (Hn : x ∉ dom m ∪ X) by (destruct Hi; rewrite <- inv_mine0; set_solver).
    apply H1; [|set_solver|by split|done]. destruct Hi. split; simpl; try done.
    + rewrite inv_mine0. set_solver.
    + set_solver.
    + rewrite Ho. set_solver.
    + intros y [Hy%elem_of_singleton| ]%elem_of_union; [by subst|by apply inv_range0].
  - apply socket_fails in E. apply H0; [by apply inv_kernel|by split|done].
Qed.

Lemma ids_insert (m : gmap Z ConnectingInfo) x ci : m !! x = None -> ids (<[x := ci]> m) ≡ₚ ci_id ci :: ids m.
Proof. intros Hx. unfold ids. by rewrite map_to_list_insert. Qed.

Lemma ids_delete (m : gmap Z ConnectingInfo) x ci : m !! x = Some ci -> ids m ≡ₚ ci_id ci :: ids (delete x m).
Proof.
  intros Hx. rewrite <- (insert_delete_id m x ci) at 1 by done. apply ids_insert, lookup_delete_eq.
Qed.
Lemma delete_watched (m : gmap Z ConnectingInfo) x (i : gmap Z Z) :
  i = (fun _ => CHECK_WRITE_FLAG) <$> m -> delete x i = (fun _ => CHECK_WRITE_FLAG) <$> delete x m.
Proof. intros ->. by rewrite fmap_delete. Qed.

(** [ox_fdset_remove] of a connection, whose request is now to be answered. *)
Lemma must_take o o' m X T w x ci Q : inv o m X T w -> m !! x = Some ci ->
  linked o' (mConnectingInfos w) (delete x m) (guarded w) ->
  (forall w', inv o' (delete x m) ({[x]} ∪ X) (ci_id ci :: T) w' -> frame w w' -> begun w' = begun w ->
     mConnectingInfos w' = mConnectingInfos w -> Q tt w') ->
  must k (fdset_remove x) Q w.
Proof.
  intros Hi Hx Hl HQ. unfold fdset_remove. must_steps. destruct (remove_spec (mFDSet w) x) as (f & E & Hw & Hf); [apply Hi|].
  apply (must_lift k _ f); [done|]. must_steps. apply HQ; [|by split|done|done].
  assert (Hd : x ∈ dom m) by (by apply elem_of_dom_2 in Hx). destruct Hi. split; simpl; try done.
  - rewrite Hf. by apply delete_watched.
  - rewrite inv_mine0, dom_delete_L. apply set_eq. intros y. destruct (decide (y = x)); set_solver.
  - rewrite dom_delete_L. set_solver.
  - rewrite <- inv_ids0, (ids_delete m x ci) by done. simpl. by rewrite Permutation_middle.
  - intros y c Hy. apply inv_from0 with y. by apply lookup_delete_Some in Hy as [_ ?].
Qed.

(** Of a descriptor that is not watched. *)
Lemma must_remove o m X T w x Q : inv o m X T w -> m !! x = None ->
  (forall w', inv o m X T w' -> frame w w' -> begun w' = begun w ->
     mConnectingInfos w' = mConnectingInfos w -> Q tt w') ->
  must k (fdset_remove x) Q w.
Proof.
  intros Hi Hx HQ. unfold fdset_remove. must_steps. destruct (remove_spec (mFDSet w) x) as (f & E & Hw & Hf); [apply Hi|].
  apply (must_lift k _ f); [done|]. must_steps. apply HQ; [|by split|done|done].
  destruct Hi. split; simpl; try done. rewrite Hf, (delete_watched m x) by done. by rewrite delete_id.
Qed.

(** The code that runs holds the descriptor whose entry does not count. *)
Definition ready (o : mode) (X : gset Z) : Prop :=
  match o with Same => True | Busy x => x ∈ X | Detached => False end.

(** A connection becomes one of those under way. *)
Lemma must_pending o m X T w x a n t Q : inv o m ({[x]} ∪ X) (n :: T) w -> x ∉ X -> ready o X ->
  begun w !! n = Some a ->
  (forall w' m', inv o m' X T w' -> frame w w' -> begun w' = begun w -> Q tt w') ->
  must k (upd (fun w => set_infos (<[x := mk_info t (timeout a) (successCB a) (failedCB a) n]> (mConnectingInfos w)) w) ;;;
          fdset_add fmalloc x) Q w.
Proof.
  intros Hi Hx Hr Ha HQ. set (ci := mk_info _ _ _ _ _). must_steps. unfold fdset_add. must_steps. simpl.
  destruct (add_spec fmalloc (mFDSet w) x WriteCheck) as (f & E & Hw & Hf); [apply Hi|done|].
  apply (must_lift k _ f); [done|]. must_steps.
  assert (Hm : m !! x = None) by (apply not_elem_of_dom; destruct Hi; set_solver).
  assert (Hn : mConnectingInfos w !! x = None).
  { destruct Hi. destruct o as [|y|]; simpl in *; [by subst| |done]. subst m.
    rewrite lookup_delete_ne in Hm; [done|]. intros ->. done. }
  apply (HQ _ (<[x := ci]> m)); [|split; try done; simpl; by apply insert_subseteq|done].
  destruct Hi. split; simpl; try done.
  - destruct o as [|y|]; simpl in *; [by subst| |done]. subst m. symmetry. apply delete_insert_ne. intros ->. done.
  - rewrite Hf. unfold fm_add. rewrite inv_watched0, lookup_fmap, Hm, fmap_insert. done.
  - rewrite inv_mine0, dom_insert_L. set_solver.
  - rewrite dom_insert_L. set_solver.
  - rewrite <- inv_ids0, ids_insert by done. simpl. by rewrite Permutation_middle.
  - intros y c. rewrite lookup_insert_Some. intros [[<- <-]|[_ Hy]]; [by exists a|by apply inv_from0 with y].
Qed.

(** ** Callbacks *)

(** After a part of a callback. *)
Definition after (o : mode) (X : gset Z) (T : list nat) (w w' : work) : Prop :=
  (exists m, inv o m X T w') /\ frame w w' /\ (k = false -> begun w' = begun w).

Lemma after_frame o X T w w1 w2 : frame w w1 -> begun w1 = begun w -> after o X T w1 w2 -> after o X T w w2.
Proof. intros Hf Hb (Hi & Hf2 & Hb2). split; [done|]. split; [by etrans|]. intros Hk. by rewrite Hb2. Qed.

Lemma after_self o m X T w w' : inv o m X T w' -> frame w w' -> begun w' = begun w -> after o X T w w'.
Proof. intros Hi Hf Hb. split; [by exists m|done]. Qed.

(** What a request asked for on the worker's thread does. *)
Definition connects (a : address) : Prop := forall o m X T w, inv o m X T w -> ready o X ->
  must k (processConnect fmalloc a) (fun _ w' => (exists m', inv o m' X T w') /\ frame w w' /\
    begun w ++ [a] `prefix_of` begun w' /\ (k = false -> begun w' = begun w ++ [a])) w.

Definition callbacks_ok (l : list action) : Prop := forall a, Connect a ∈ l -> k = true /\ connects a.

Lemma callbacks_ok_cons x l : callbacks_ok (x :: l) -> callbacks_ok [x] /\ callbacks_ok l.
Proof. intros H. split; intros a Ha; apply H; set_solver. Qed.

Lemma inv_guarded o m X T w g : inv o m X T w -> o <> Detached -> inv o m X T (set_guarded g w).
Proof. intros [] Ho. split; try done. simpl. by destruct o. Qed.

(** [asyncConnect] in a callback; [socket] is in [X]. *)
Lemma must_connect o m X T w a socket Q : inv o m X T w -> o = Detached \/ ready o X -> k = true -> connects a ->
  (forall w', after o X T w w' -> Q socket w') ->
  must k (run_action fmalloc (Connect a) socket) Q w.
Proof.
  intros Hi Ho Hk Ha HQ. simpl. apply must_bind. unfold asyncConnect_here. must_steps.
  destruct (guarded w) eqn:Hg; [by apply must_crash|].
  assert (Hr : ready o X) by (destruct Ho as [->|]; [destruct (inv_link _ _ _ _ _ Hi); congruence|done]).
  assert (Hd : o <> Detached) by (by destruct o).
  must_steps. eapply must_mono; [apply (Ha o m X T); [by apply inv_guarded|done]|].
  intros _ w' ((m' & Hi') & Hf & _ & _). must_steps. apply HQ. split; [exists m'; by apply inv_guarded|].
  destruct Hf. split; [|by rewrite Hk]. by split.
Qed.

(** A callback without a socket, or that has given it away. *)
Lemma run_all_none l o m X T w : inv o m X T w -> o = Detached \/ ready o X -> callbacks_ok l ->
  must k (run_all (run_action fmalloc) l None) (fun s w' => s = None /\ after o X T w w') w.
Proof.
  revert m w. induction l as [|x l IH]; intros m w Hi Ho Hl; cbn [run_all].
  { must_steps. split; [done|]. by eapply after_self. }
  apply callbacks_ok_cons in Hl as [Hx Hl]. destruct x as [| |a].
  - cbn. must_steps. by eapply IH.
  - cbn. must_steps. by eapply IH.
  - destruct (Hx a) as [Hk Ha]; [set_solver|]. apply must_bind. eapply must_connect; [done|done|done|done|].
    intros w1 ((m1 & Hi1) & Hf1 & Hb1). eapply must_mono; [by apply (IH m1)|].
    intros s w2 (-> & Hi2 & Hf2 & Hb2). split; [done|]. split; [done|]. split; [by etrans|].
    intros Hk'. by rewrite Hb2, Hb1.
Qed.

Lemma callback_none l o m X T w : inv o m X T w -> o = Detached \/ ready o X -> callbacks_ok l ->
  must k (callback (run_action fmalloc) l None) (fun _ w' => after o X T w w') w.
Proof.
  intros Hi Ho Hl. unfold callback. apply must_bind. eapply must_mono; [by eapply run_all_none|].
  intros s w' [-> Ha]. cbn. by must_steps.
Qed.

Lemma callback_cons x l socket Q w :
  must k (run_action fmalloc x socket) (fun s w' => must k (callback (run_action fmalloc) l s) Q w') w ->
  must k (callback (run_action fmalloc) (x :: l) socket) Q w.
Proof.
  unfold callback. cbn [run_all]. unfold must, bind. destruct (run_action fmalloc x socket w) as [[s w']| |]; done.
Qed.

(** Without requests and without a socket nothing happens. *)
Lemma callback_nothing l Q (w : work) : Forall (fun x => ~ is_connect x) l -> Q tt w ->
  must k (callback (run_action fmalloc) l None) Q w.
Proof.
  intros Hl HQ. induction Hl as [|[| |a] l Hx Hl IH]; [by unfold callback; cbn; must_steps| | |by destruct Hx].
  - apply callback_cons. cbn. by must_steps.
  - apply callback_cons. cbn. by must_steps.
Qed.

(** With its socket [x], which is then closed or kept. *)
Lemma callback_some l x o m X T w : inv o m ({[x]} ∪ X) T w -> x ∉ X -> ready o ({[x]} ∪ X) ->
  connects_first l -> callbacks_ok l ->
  must k (callback (run_action fmalloc) l (Some x)) (fun _ w' => after o X T w w') w.
Proof.
  revert m w. induction l as [|y l IH]; intros m w Hi Hx Hr Hc Hl.
  { unfold callback. cbn [run_all]. must_steps. eapply must_close; [done|done|]. intros w' ? ? ?. by eapply after_self. }
  apply callbacks_ok_cons in Hl as [Hy Hl]. apply callback_cons. destruct y as [| |a].
  - cbn. must_steps. eapply must_close; [done|done|]. intros w1 ? ? ?. must_steps. apply callback_nothing; [done|].
    by eapply after_self.
  - cbn. must_steps. apply callback_nothing; [done|]. eapply after_self; [by apply inv_keep|by split|done].
  - destruct (Hy a) as [Hk Ha]; [set_solver|]. eapply must_connect; [done|by right|done|done|].
    intros w1 ((m1 & Hi1) & Hf1 & Hb1). eapply must_mono; [by apply (IH m1)|].
    intros _ w2 (Hi2 & Hf2 & Hb2). split; [done|]. split; [by etrans|]. intros Hk'. by rewrite Hb2, Hb1.
Qed.

(** ** processConnect *)

Lemma calm_connects a : calm k a -> connects a.
Proof.
  induction 1 as [ip port t s f Hc Hk Ha IH]. intros o m X T w Hi Hr.
  assert (Hs : callbacks_ok s) by (intros b Hb; split; [apply (Hk b)|apply IH]; set_solver).
  assert (Hf : callbacks_ok f) by (intros b Hb; split; [apply (Hk b)|apply IH]; set_solver).
  set (a := mk_address ip port t s f). assert (Hcalm : calm k a) by (by constructor).
  assert (Hend : forall w1 w2, frame w w1 -> begun w1 = begun w ++ [a] -> after o X T w1 w2 ->
    (exists m', inv o m' X T w2) /\ frame w w2 /\
    begun w ++ [a] `prefix_of` begun w2 /\ (k = false -> begun w2 = begun w ++ [a])).
  { intros w1 w2 Hf1 Hb1 (Hi2 & Hf2 & Hb2). split; [done|]. split; [by etrans|].
    split; [rewrite <- Hb1; apply Hf2|]. intros Hk'. by rewrite Hb2. }
  unfold a at 1. cbn [processConnect]. fold a. unfold begin. must_steps. set (w1 := set_begun (begun w ++ [a]) w).
  pose proof (inv_begin o m X T w a Hi Hcalm) as Hi1. fold w1 in Hi1. set (n := length (begun w)) in *.
  assert (Hf1 : frame w w1) by (split; try done; by apply prefix_app_r).
  eapply (must_socket o m); [exact Hi1| |].
  - intros w2 Hi2 Hf2 Hb2. unfold answer. must_steps. apply inv_answer with (b := false) in Hi2.
    eapply must_mono; [eapply callback_none; [exact Hi2|by right|done]|].
    intros [] w3. apply Hend; [by etrans; [exact Hf1|]; etrans; [exact Hf2|]; split|done].
  - intros w2 x Hi2 Hx Hf2 Hb2. must_steps. apply must_sys.
    destruct (sys_connect x ip port (kernel w2)) as [c kern] eqn:Ec.
    assert (Ho : opened kern = opened (kernel w2)) by (rewrite <- (connect_opened x ip port (kernel w2)); by rewrite Ec).
    apply (inv_kernel _ _ _ _ _ kern) in Hi2; [|done]. set (w3 := set_kernel kern w2) in *.
    assert (Hf3 : frame w w3) by (etrans; [exact Hf1|]; etrans; [exact Hf2|]; by split).
    assert (Hr3 : ready o ({[x]} ∪ X)) by (destruct o; simpl in *; set_solver).
    destruct c.
    + unfold answer. must_steps. apply inv_answer with (b := true) in Hi2.
      eapply must_mono; [eapply callback_some; [exact Hi2|done..]|].
      intros [] w4. apply Hend; [etrans; [exact Hf3|]; by split|done].
    + must_steps. apply must_sys. destruct (sys_now (kernel w3)) as [now kern2] eqn:En.
      assert (Ho2 : opened kern2 = opened (kernel w3)) by (rewrite <- (now_opened (kernel w3)); by rewrite En).
      apply (inv_kernel _ _ _ _ _ kern2) in Hi2; [|done].
      eapply (must_pending o m X T _ x a n now); [exact Hi2|done|done| |].
      { simpl. rewrite Hb2. simpl. unfold n. rewrite lookup_app_r by lia. by rewrite Nat.sub_diag. }
      intros w4 m4 Hi4 Hf4 Hb4. apply (Hend w4 w4); [etrans; [exact Hf3|]; etrans; [|exact Hf4]; by split|by rewrite Hb4|].
      by eapply after_self.
    + must_steps. eapply must_close; [exact Hi2|done|]. intros w4 Hi4 Hf4 Hb4. unfold answer. must_steps.
      apply inv_answer with (b := false) in Hi4.
      eapply must_mono; [eapply callback_none; [exact Hi4|by right|done]|].
      intros [] w5. apply Hend; [etrans; [exact Hf3|]; etrans; [exact Hf4|]; by split|by simpl; rewrite Hb4].
Qed.

(** The callbacks of a request that was begun. *)
Lemma from_callbacks l ci : Forall (calm k) l -> from l ci ->
  connects_first (ci_successCB ci) /\ callbacks_ok (ci_successCB ci) /\ callbacks_ok (ci_failedCB ci).
Proof.
  intros Hl (a & Ha & _ & -> & ->). rewrite Forall_lookup in Hl. apply Hl in Ha.
  destruct Ha as [ip port t s f Hc Hk Hcalm]. simpl. split; [done|].
  split; intros b Hb; (split; [apply (Hk b); set_solver|apply calm_connects, Hcalm; set_solver]).
Qed.

(** ** The parts of the worker's round *)

(** Between callbacks. *)
Definition at_rest (w : work) : Prop := inv Same (mConnectingInfos w) ∅ [] w.

Record leads (w w' : work) : Prop := {
  leads_guarded : guarded w' = guarded w;
  leads_result : mPollResult w' = mPollResult w;
  leads_begun : begun w `prefix_of` begun w';
  leads_plain : k = false -> begun w' = begun w }.

#[local] Instance leads_preorder : PreOrder leads.
Proof.
  split.
  - intros w. by split.
  - intros w1 w2 w3 [H1 ? ? H2] [? ? ? H3]. split; [congruence|congruence|by etrans|].
    intros Hk. by rewrite H3, H2.
Qed.

Lemma leads_frame w w' : frame w w' -> (k = false -> begun w' = begun w) -> leads w w'.
Proof. intros [] Hb. by split. Qed.

Lemma leads_eq w w' : guarded w' = guarded w -> mPollResult w' = mPollResult w -> begun w' = begun w -> leads w w'.
Proof. intros ? ? E. split; [done|done|by rewrite E|done]. Qed.

Lemma frame_eq w w1 w' : frame w1 w' -> guarded w1 = guarded w -> mPollResult w1 = mPollResult w -> begun w1 = begun w ->
  (k = false -> begun w' = begun w1) -> leads w w'.
Proof. intros [] ? ? E ?. split; [congruence|congruence|by rewrite <- E|intros; rewrite <- E; auto]. Qed.

Lemma leads_same w w' : frame w w' -> begun w' = begun w -> leads w w'.
Proof. intros [] Hb. by split. Qed.

Lemma inv_same m X T w : inv Same m X T w -> inv Same (mConnectingInfos w) X T w.
Proof. intros Hi. pose proof (inv_link _ _ _ _ _ Hi) as E. simpl in E. by subst m. Qed.

(** The entry whose callback is over is erased. *)
Lemma inv_erase m X T w x : inv (Busy x) m X T w ->
  inv Same (delete x (mConnectingInfos w)) X T (set_infos (delete x (mConnectingInfos w)) w).
Proof. intros Hi. pose proof (inv_link _ _ _ _ _ Hi) as E. simpl in E. subst m. destruct Hi. by split. Qed.

Lemma settle_ok success x w : at_rest w ->
  must k (settle fmalloc success x) (fun _ w' => at_rest w' /\ leads w w') w.
Proof.
  intros Hw. unfold settle. must_steps. destruct (mConnectingInfos w !! x) as [it|] eqn:E.
  - destruct (from_callbacks (begun w) it) as (Hc & Hs & Hf); [apply Hw|by apply (inv_from _ _ _ _ _ Hw x)|].
    eapply (must_take Same (Busy x)); [exact Hw|exact E|done|]. intros w1 Hi1 Hf1 Hb1 Em. must_steps. rewrite Em, E.
    destruct (decide (x ∈ success)).
    + unfold answer. must_steps. apply inv_answer with (b := true) in Hi1.
      eapply must_mono; [eapply callback_some; [exact Hi1|set_solver|simpl; set_solver|done|done]|].
      intros [] w2 ((m2 & Hi2) & Hf2 & Hb2). must_steps. split; [by eapply inv_erase|].
      etrans; [by apply leads_same|]. etrans; [by apply (frame_eq w1 _ _ Hf2)|by apply leads_eq].
    + unfold answer. must_steps. apply inv_answer with (b := false) in Hi1.
      eapply must_mono; [eapply callback_none; [exact Hi1|right; simpl; set_solver|done]|].
      intros [] w2 ((m2 & Hi2) & Hf2 & Hb2). must_steps. apply inv_erase in Hi2.
      eapply must_close; [exact Hi2|set_solver|]. intros w3 Hi3 Hf3 Hb3. split; [by eapply inv_same|].
      etrans; [by apply leads_same|]. etrans; [|by apply (leads_same _ w3)].
      etrans; [by apply (frame_eq w1 _ _ Hf2)|by apply leads_eq].
  - eapply must_remove; [exact Hw|done|]. intros w1 Hi1 Hf1 Hb1 Em. must_steps. rewrite Em, E. must_steps.
    split; [by eapply inv_same|by apply leads_same].
Qed.

Lemma settle_all_ok success l w : at_rest w ->
  must k (settle_all fmalloc success l) (fun _ w' => at_rest w' /\ leads w w') w.
Proof.
  revert w. induction l as [|x l IH]; intros w Hw; cbn [settle_all].
  - by must_steps.
  - apply must_bind. eapply must_mono; [by apply settle_ok|]. intros [] w1 [Hw1 Hl1].
    eapply must_mono; [by apply IH|]. intros [] w2 [Hw2 Hl2]. split; [done|by etrans].
Qed.

(** The results of poll are drained. *)
Definition holding (l : list Z) (w : work) : Prop := stack_holds (mPollResult w) l.

Lemma inv_result o m X T w q : inv o m X T w -> inv o m X T (set_result q w).
Proof. intros []. by split. Qed.

Lemma drain_ok fuel total success l w : at_rest w -> holding l w -> (length l < fuel)%nat ->
  must k (drain fuel total success) (fun r w' => r.1 = total ++ l /\ at_rest w' /\ holding [] w' /\
    guarded w' = guarded w /\ begun w' = begun w) w.
Proof.
  revert total success l w. induction fuel as [|fuel IH]; intros total success l w Hw Hl Hn; [lia|].
  cbn [drain]. apply must_bind. unfold popfront. must_steps.
  destruct (q_popfront_ok (IntQueue := stack_queue malloc Hmalloc) (mPollResult w) l Hl) as (q & Eq & Hq).
  apply (must_lift k _ (head l, q)); [exact Eq|]. must_steps. simpl. destruct l as [|x l]; simpl.
  - must_steps. rewrite app_nil_r. split_and!; try done. by apply inv_result.
  - unfold isConnectSuccess. must_steps. cbn [andb]. apply must_bind, must_sys.
    destruct (sys_sockerr x _) as [e kern] eqn:Es.
    assert (Ho : opened kern = opened (kernel w)).
    { rewrite <- (sockerr_opened x (kernel w)). simpl in Es. by rewrite Es. }
    must_steps. set (w1 := set_kernel kern (set_result q w)). set (b := match e with Some _ => _ | None => _ end).
    eapply must_mono; [apply (IH _ _ l w1); [|done|simpl in Hn; lia]|].
    { apply inv_kernel; [by apply inv_result|done]. }
    intros r w2 (-> & Hw2 & Hh & Hg & Hb). split_and!; [by rewrite <- app_assoc|done..].
Qed.

(** The descriptors watched are below the limit. *)
Lemma live_range w : at_rest w -> Forall is_int (fd <$> live (mFDSet w)) /\ zlen (live (mFDSet w)) <= 2 ^ 26.
Proof.
  intros Hw. assert (Hr : forall x, x ∈ fd <$> live (mFDSet w) -> 0 <= x < 2 ^ 26).
  { intros x Hx. apply live_interest in Hx; [|apply Hw]. destruct Hw. apply inv_range0. rewrite inv_mine0.
    rewrite inv_watched0, dom_fmap_L in Hx. set_solver. }
  split.
  - apply Forall_forall. intros x Hx. specialize (Hr x Hx). unfold is_int, INT_MAX. lia.
  - replace (zlen (live (mFDSet w))) with (zlen (fd <$> live (mFDSet w))) by (unfold zlen; by rewrite length_fmap).
    apply bounded_length; [lia|apply Hw|done].
Qed.

Lemma poll_ok n w Q : at_rest w ->
  (forall r w', at_rest w' -> mPollResult w' = mPollResult w -> guarded w' = guarded w -> begun w' = begun w -> Q r w') ->
  must k (poll n) Q w.
Proof.
  intros Hw HQ. unfold poll. must_steps.
  destruct (sys_poll (live (mFDSet w)) n (kernel w)) as [r kern] eqn:Es.
  assert (Ho : opened kern = opened (kernel w)) by (rewrite <- (poll_opened (live (mFDSet w)) n (kernel w)); by rewrite Es).
  assert (Hl : length r.2 = length (live (mFDSet w))) by (rewrite <- (poll_revents (live (mFDSet w)) n (kernel w)); by rewrite Es).
  destruct (poll_spec r (mFDSet w) n) as [Hf Hi]; [apply Hw|done|].
  destruct (ox_fdset_poll (fun _ _ => r) (mFDSet w) n) as [ret f]. simpl in Hf, Hi. must_steps.
  apply HQ; [|done..]. destruct Hw. split; simpl; try done; by rewrite ?Hi, ?Ho.
Qed.

Lemma checkConnectStatus_ok n w : at_rest w -> holding [] w ->
  must k (checkConnectStatus malloc fmalloc n) (fun _ w' => at_rest w' /\ holding [] w' /\
    guarded w' = guarded w /\ begun w `prefix_of` begun w' /\ (k = false -> begun w' = begun w)) w.
Proof.
  intros Hw Hh. unfold checkConnectStatus. apply must_bind, poll_ok; [done|].
  intros r w1 Hw1 Hq1 Hg1 Hb1. assert (Hh1 : holding [] w1) by (unfold holding; by rewrite Hq1).
  destruct (r <=? 0); [must_steps; by rewrite Hb1|]. unfold visitor. must_steps.
  destruct (live_range w1 Hw1) as [Hint Hlen]. fold (live (mFDSet w1)).
  destruct (visit_spec malloc Hmalloc WriteCheck (live (mFDSet w1)) (mPollResult w1) []) as (q & Eq & Hq);
    [done|done|rewrite zlen_nil; lia|].
  apply (must_lift k _ q); [exact Eq|]. must_steps. simpl app in Hq. set (l := fd <$> _) in Hq.
  eapply must_mono; [apply (drain_ok _ [] [] l)|].
  - by apply inv_result.
  - done.
  - simpl. pose proof (q_num_ok (IntQueue := stack_queue malloc Hmalloc) q l Hq) as E. simpl in E.
    unfold ox_stack_num in E. rewrite E. unfold zlen. lia.
  - intros [total success] w2 (Et & Hw2 & Hh2 & Hg2 & Hb2). simpl in *.
    eapply must_mono; [by apply settle_all_ok|]. intros [] w3 [Hw3 [Hg3 Hq3 Hp3 Hb3]].
    split_and!; [done|unfold holding; by rewrite Hq3|congruence|by rewrite <- Hb1, <- Hb2|].
    intros Hk. rewrite Hb3 by done. congruence.
Qed.

(** A request taken from the queue. *)
Lemma processConnect_ok a w : at_rest w -> calm k a ->
  must k (processConnect fmalloc a) (fun _ w' => at_rest w' /\ guarded w' = guarded w /\
    mPollResult w' = mPollResult w /\ begun w ++ [a] `prefix_of` begun w' /\
    (k = false -> begun w' = begun w ++ [a])) w.
Proof.
  intros Hw Ha. eapply must_mono; [eapply (calm_connects a Ha Same); [exact Hw|done]|].
  intros _ w' ((m' & Hi) & [] & ? & ?). split; [by eapply inv_same|done].
Qed.

(** ** checkTimeout *)

Lemma elem_of_ordered l x : x ∈ ordered l <-> x ∈ l.
Proof. unfold ordered. rewrite merge_sort_Permutation. apply elem_of_remove_dups. Qed.

Lemma NoDup_ordered l : NoDup (ordered l).
Proof. unfold ordered. rewrite merge_sort_Permutation. apply NoDup_remove_dups. Qed.

Lemma elem_of_keys (m : gmap Z ConnectingInfo) x : x ∈ ordered (fst <$> map_to_list m) <-> x ∈ dom m.
Proof.
  rewrite elem_of_ordered, list_elem_of_fmap, elem_of_dom. split.
  - intros ([y ci] & -> & Hy). exists ci. by apply elem_of_map_to_list.
  - intros [ci Hx]. exists (x, ci). split; [done|]. by apply elem_of_map_to_list.
Qed.

Lemma lower_bound_spec x (m : gmap Z ConnectingInfo) y : lower_bound x m = Some y -> x <= y /\ y ∈ dom m.
Proof.
  unfold lower_bound. intros E. apply head_Some_elem_of in E. apply list_elem_of_filter in E as [? E].
  split; [done|]. by apply elem_of_keys.
Qed.

Lemma key_range w x : at_rest w -> x ∈ dom (mConnectingInfos w) -> 0 <= x < 2 ^ 26.
Proof. intros [] Hx. apply inv_range0. rewrite inv_mine0. set_solver. Qed.

(** An iterator of the map. *)
Definition valid (it : option Z) (w : work) : Prop := forall x, it = Some x -> x ∈ dom (mConnectingInfos w).

Lemma timeout_round_ok x w : at_rest w -> x ∈ dom (mConnectingInfos w) ->
  must k (timeout_round fmalloc x) (fun it w' => at_rest w' /\ leads w w' /\ valid it w' /\
    (forall y, it = Some y -> x + 1 <= y)) w.
Proof.
  intros Hw Hx. unfold timeout_round. apply must_bind, must_sys.
  destruct (sys_now (kernel w)) as [t kern] eqn:Et.
  assert (Ho : opened kern = opened (kernel w)) by (rewrite <- (now_opened (kernel w)); by rewrite Et).
  pose proof (inv_kernel _ _ _ _ _ kern Hw Ho) as Hw1. must_steps. simpl.
  destruct (mConnectingInfos w !! x) as [ci|] eqn:E; [|by apply elem_of_dom in Hx as [? ?]; congruence].
  assert (Hnext : forall y, lower_bound (x + 1) (mConnectingInfos w) = Some y -> x + 1 <= y /\ y ∈ dom (mConnectingInfos w))
    by (intros y; apply lower_bound_spec).
  destruct (t - startConnectTime ci <? ci_timeout ci).
  { must_steps. split_and!; [exact Hw1|by apply leads_eq|intros y Hy; by apply Hnext|intros y Hy; by apply Hnext]. }
  destruct (from_callbacks (begun w) ci) as (_ & _ & Hf); [apply Hw|by apply (inv_from _ _ _ _ _ Hw x)|].
  must_steps. eapply (must_take Same (Busy x)); [exact Hw1|exact E|done|]. intros w2 Hi2 Hf2 Hb2 Em2. simpl in *.
  must_steps. apply inv_erase in Hi2. eapply must_close; [exact Hi2|set_solver|]. intros w3 Hi3 Hf3 Hb3. simpl in Hb3.
  unfold answer. must_steps. apply inv_answer with (b := false) in Hi3.
  eapply must_mono; [eapply callback_none; [exact Hi3|by right|done]|].
  intros [] w4 ((m4 & Hi4) & Hf4 & Hb4). must_steps. split; [by eapply inv_same|]. split.
  { etrans; [by apply (leads_eq w (set_kernel kern w))|]. etrans; [by apply (leads_same _ w2)|].
    etrans; [by apply (leads_eq w2 (set_infos (delete x (mConnectingInfos w2)) w2))|].
    etrans; [by apply (leads_same _ w3)|]. by apply (frame_eq w3 _ _ Hf4). }
  split; [|intros y Hy; by apply Hnext]. intros y Hy. apply Hnext in Hy as [Hlt Hy].
  destruct Hf4 as [_ _ Hs4 _], Hf3 as [_ _ Hs3 _]. simpl in *. apply (subseteq_dom _ _ Hs4), (subseteq_dom _ _ Hs3).
  rewrite Em2, dom_delete_L. set_unfold. split; [done|lia].
Qed.

Lemma rounds_ok p it w : at_rest w -> valid it w ->
  must k (rounds fmalloc p it) (fun it' w' => at_rest w' /\ leads w w' /\ valid it' w' /\
    (forall y, it' = Some y -> exists x, it = Some x /\ x + Zpos p <= y)) w.
Proof.
  revert it w. induction p as [p IH|p IH|]; intros [x|] w Hw Hv; cbn [rounds];
    try (must_steps; split_and!; done).
  - apply must_bind. eapply must_mono; [apply timeout_round_ok; [done|by apply Hv]|].
    intros i1 w1 (Hw1 & Hl1 & Hv1 & Hy1). apply must_bind. eapply must_mono; [by apply IH|].
    intros i2 w2 (Hw2 & Hl2 & Hv2 & Hy2). eapply must_mono; [by apply IH|].
    intros i3 w3 (Hw3 & Hl3 & Hv3 & Hy3). split_and!; [done|by etrans; [|etrans]|done|].
    intros y Hy. destruct (Hy3 y Hy) as (y2 & E2 & ?). destruct (Hy2 y2 E2) as (y1 & E1 & ?). specialize (Hy1 y1 E1).
    exists x. split; [done|lia].
  - apply must_bind. eapply must_mono; [by apply IH|].
    intros i2 w2 (Hw2 & Hl2 & Hv2 & Hy2). eapply must_mono; [by apply IH|].
    intros i3 w3 (Hw3 & Hl3 & Hv3 & Hy3). split_and!; [done|by etrans|done|].
    intros y Hy. destruct (Hy3 y Hy) as (y2 & E2 & ?). destruct (Hy2 y2 E2) as (y1 & E1 & ?). exists y1. split; [done|lia].
  - eapply must_mono; [apply timeout_round_ok; [done|by apply Hv]|].
    intros i1 w1 (Hw1 & Hl1 & Hv1 & Hy1). split_and!; [done|done|done|]. intros y Hy. exists x. split; [done|]. by apply Hy1.
Qed.

(** The rounds suffice: the keys go up and are descriptors. *)
Lemma checkTimeout_ok w : at_rest w ->
  must k (checkTimeout fmalloc) (fun _ w' => at_rest w' /\ leads w w') w.
Proof.
  intros Hw. unfold checkTimeout. must_steps. eapply must_mono; [apply rounds_ok; [done|]|].
  { intros x Hx. by apply lower_bound_spec in Hx as [_ ?]. }
  intros it w' (Hw' & Hl & Hv & Hy). destruct it as [y|]; [|by must_steps]. exfalso.
  destruct (Hy y eq_refl) as (x & Hx & Hxy). apply lower_bound_spec in Hx as [Hx _].
  pose proof (key_range w' y Hw' (Hv y eq_refl)). lia.
Qed.

(** ** causeAllFailed *)

Lemma callback_detached l (w : work) Q : guarded w = true -> callbacks_ok l -> Q tt w ->
  must k (callback (run_action fmalloc) l None) Q w.
Proof.
  intros Hg Hl HQ. induction l as [|x l IH]; [unfold callback; cbn; by must_steps|].
  apply callbacks_ok_cons in Hl as [Hx Hl]. apply callback_cons. destruct x as [| |a].
  - cbn. must_steps. by apply IH.
  - cbn. must_steps. by apply IH.
  - destruct (Hx a) as [Hk _]; [set_solver|]. cbn [run_action]. unfold asyncConnect_here. must_steps. rewrite Hg.
    by apply must_crash.
Qed.

Lemma fail_all_ok l m w : inv Detached m ∅ [] w -> NoDup l.*1 ->
  (forall x ci, (x, ci) ∈ l <-> m !! x = Some ci) ->
  must k (fail_all fmalloc l) (fun _ w' => inv Detached ∅ ∅ [] w' /\ begun w' = begun w) w.
Proof.
  revert m w. induction l as [|[x ci] l IH]; intros m w Hi Hd Hl; cbn [fail_all].
  { must_steps. assert (m = ∅) as ->; [|done]. apply map_eq. intros y. rewrite lookup_empty.
    destruct (m !! y) eqn:E; [|done]. apply Hl in E. by apply elem_of_nil in E. }
  assert (Hx : m !! x = Some ci) by (apply Hl; set_solver).
  destruct (from_callbacks (begun w) ci) as (_ & _ & Hf); [apply Hi|by apply (inv_from _ _ _ _ _ Hi x)|].
  must_steps. eapply (must_take Detached Detached); [exact Hi|exact Hx|by destruct (inv_link _ _ _ _ _ Hi)|].
  intros w1 Hi1 Hf1 Hb1 _. must_steps. eapply must_close; [exact Hi1|set_solver|]. intros w2 Hi2 Hf2 Hb2.
  unfold answer. must_steps. apply inv_answer with (b := false) in Hi2.
  apply callback_detached; [apply (inv_link _ _ _ _ _ Hi2)|done|].
  eapply must_mono; [apply (IH (delete x m)); [exact Hi2| |]|].
  - rewrite fmap_cons in Hd. by apply NoDup_cons in Hd as [_ ?].
  - intros y c. rewrite lookup_delete_Some, <- Hl, elem_of_cons. rewrite fmap_cons in Hd.
    apply NoDup_cons in Hd as [Hn _]. split; [|naive_solver]. intros Hy. split; [|by right]. intros <-.
    apply Hn. apply list_elem_of_fmap. by exists (x, c).
  - intros [] w3 [Hi3 Hb3]. split; [done|]. rewrite Hb3. simpl. congruence.
Qed.

Lemma entries_spec (m : gmap Z ConnectingInfo) :
  NoDup (entries m).*1 /\ forall x ci, (x, ci) ∈ entries m <-> m !! x = Some ci.
Proof.
  split.
  - assert (E : forall l, (forall x, x ∈ l -> x ∈ dom m) -> (omap (fun x => pair x <$> m !! x) l).*1 = l).
    { induction l as [|x l IH]; intros Hl; [done|]. simpl.
      destruct (proj1 (elem_of_dom m x) (Hl x ltac:(set_solver))) as [ci ->]. simpl. f_equal. apply IH. set_solver. }
    unfold entries. rewrite E; [apply NoDup_ordered|]. intros x. apply elem_of_keys.
  - intros x ci. unfold entries. rewrite list_elem_of_omap. split.
    + intros (y & _ & E). destruct (m !! y) as [c|] eqn:Ey; [|done]. simpl in E. by injection E as -> ->.
    + intros Hx. exists x. rewrite Hx. split; [|done]. apply elem_of_keys, elem_of_dom. by exists ci.
Qed.

(** The thread has left its loop: [stopWorkerThread] holds the lock. *)
Lemma causeAllFailed_ok w : at_rest w -> guarded w = true ->
  must k (causeAllFailed fmalloc) (fun _ w' => inv Detached ∅ ∅ [] w' /\ begun w' = begun w) w.
Proof.
  intros Hw Hg. unfold causeAllFailed. must_steps. destruct (entries_spec (mConnectingInfos w)) as [Hd Hl].
  eapply must_mono; [eapply fail_all_ok; [|exact Hd|exact Hl]|].
  - destruct Hw. by split.
  - intros [] w' [Hi Hb]. done.
Qed.
End Safe.
