(* ===== verification/ConnectorRun.v ===== *)
(** * net/Connector.cpp: AsyncConnector, its thread and its clients

    [startWorkerThread], [stopWorkerThread] and [asyncConnect], called by any threads,
    and the steps of the worker, in any interleaving. What is posted to the
    event loop is run in order ([EventLoop.posted_in_order]). *)

From S2P Require Import Prelude.
From S2P Require Import Words.
From S2P Require Import Array.
From S2P Require Import Stack.
From S2P Require Import IntQueue.
From S2P Require Import Fdset.
From S2P Require Import Outcome.
From S2P Require Import Connector.
From S2P Require Import ConnectorSafe.
From stdpp Require Import gmap.
#[local] Open Scope Z_scope.
#[local] Open Scope brynet_scope.

(** What is posted to the loop of the worker. *)
Inductive proc := ProcessConnect (a : address) | StopProc.

(** The worker's thread: before the test of [*isRun]; at the start of [loop]; in its
    loop over the procedures; before [checkConnectStatus] and [checkTimeout]; before [causeAllFailed];
    at its end. *)
Inductive worker_pc := TestRun | LoopStart | Procs (l : list proc) | CheckConnect | CheckTimeout | AllFailed | Exited.

Section Connector.
Context {K : Type} `{!Kernel K}.
Context (malloc : Z -> option bytes) (fmalloc : Z -> option (list pollfd)).
#[local] Abbreviation work := (work (K := K)).

(** The fields of [AsyncConnector], pointers being [None] when null; the work of the worker,
    whose [guarded] tells that [stopWorkerThread] holds [mThreadGuard]. What was posted and
    taken, and the number of exceptions, are recorded. *)
Record connector := mk_connector {
  mThread : option worker_pc; mIsRun : option bool; mAsyncProcs : list proc; mWorkInfo : work;
  posted : list address; taken : list address; thrown : nat }.

Definition set_pc p c := mk_connector (Some p) (mIsRun c) (mAsyncProcs c) (mWorkInfo c) (posted c) (taken c) (thrown c).
Definition set_work w c := mk_connector (mThread c) (mIsRun c) (mAsyncProcs c) w (posted c) (taken c) (thrown c).
Definition set_run b c := mk_connector (mThread c) b (mAsyncProcs c) (mWorkInfo c) (posted c) (taken c) (thrown c).
Definition set_procs l c := mk_connector (mThread c) (mIsRun c) l (mWorkInfo c) (posted c) (taken c) (thrown c).
Definition set_taken l c := mk_connector (mThread c) (mIsRun c) (mAsyncProcs c) (mWorkInfo c) (posted c) l (thrown c).
Definition post a c := mk_connector (mThread c) (mIsRun c) (mAsyncProcs c ++ [ProcessConnect a]) (mWorkInfo c)
  (posted c ++ [a]) (taken c) (thrown c).
Definition throw c := mk_connector (mThread c) (mIsRun c) (mAsyncProcs c) (mWorkInfo c) (posted c) (taken c)
  (Datatypes.S (thrown c)).

(** [Broken]: a null pointer is followed, or a thread waits for itself. *)
Inductive result := Next (c : connector) | Broken | Disabled.

Definition locked c : bool := guarded (mWorkInfo c).

(** [ConnectorWorkInfo::ConnectorWorkInfo] *)
Definition newWorkInfo (w : work) : option work :=
  f ← ox_fdset_new true fmalloc;
  f ← f;
  q ← stack_new malloc 1024;
  Some (set_result q (set_fdset f (set_infos ∅ w))).

Definition startWorkerThread (c : connector) : result :=
  match mThread c with
  | Some _ => Next c
  | None =>
      match newWorkInfo (mWorkInfo c) with
      | None => Broken
      | Some w => Next (set_pc TestRun (set_procs [] (set_run (Some true) (set_work w c))))
      end
  end.

Definition asyncConnect (ip : bytes) (port timeout : Z) (successCB failedCB : option (list action)) (c : connector) : result :=
  match successCB, failedCB with
  | Some success, Some failed =>
      match mIsRun c with
      | None => Broken
      | Some false => Next (throw c)
      | Some true => Next (post (mk_address ip port timeout success failed) c)
      end
  | _, _ => Next (throw c)
  end.

(** [stopWorkerThread] up to the join, and after it. *)
Definition stop_begin (c : connector) : result :=
  match mThread c with
  | None => Next c
  | Some _ => Next (set_procs (mAsyncProcs c ++ [StopProc]) (set_work (set_guarded true (mWorkInfo c)) c))
  end.
Definition stop_end (c : connector) : connector :=
  mk_connector None None [] (set_guarded false (mWorkInfo c)) (posted c) (taken c) (thrown c).

(** A part of the worker's round. *)
Definition does (m : M work unit) (p : worker_pc) (c : connector) : result :=
  match m (mWorkInfo c) with
  | Ok (_, w) => Next (set_pc p (set_work w c))
  | Crash => Broken
  | Fuel => Disabled
  end.

Definition worker_step (c : connector) : result :=
  match mThread c with
  | None | Some Exited => Disabled
  | Some TestRun => Next (set_pc (match mIsRun c with Some true => LoopStart | _ => AllFailed end) c)
  | Some LoopStart => Next (set_pc (Procs (mAsyncProcs c)) (set_procs [] c))
  | Some (Procs []) => Next (set_pc CheckConnect c)
  | Some (Procs (StopProc :: l)) =>
      match mIsRun c with None => Broken | Some _ => Next (set_pc (Procs l) (set_run (Some false) c)) end
  | Some (Procs (ProcessConnect a :: l)) =>
      does (processConnect fmalloc a) (Procs l) (set_taken (taken c ++ [a]) c)
  | Some CheckConnect => does (checkConnectStatus malloc fmalloc 0) CheckTimeout c
  | Some CheckTimeout => does (checkTimeout fmalloc) TestRun c
  | Some AllFailed => does (causeAllFailed fmalloc) Exited c
  end.

(** One thread at a time has the lock; [System]: the rest of the system goes on, and
    does not close the connector's descriptors. *)
Inductive act :=
  | Start | AsyncConnect (ip : bytes) (port timeout : Z) (successCB failedCB : option (list action))
  | StopBegin | Worker | Joined | System (k : K).

Definition step (x : act) (c : connector) : result :=
  match x with
  | Start => if locked c then Disabled else startWorkerThread c
  | AsyncConnect ip port t s f => if locked c then Disabled else asyncConnect ip port t s f c
  | StopBegin => if locked c then Disabled else stop_begin c
  | Worker => worker_step c
  | Joined => match mThread c with Some Exited => Next (stop_end c) | _ => Disabled end
  | System k => if decide (mine (mWorkInfo c) ⊆ opened k) then Next (set_work (set_kernel k (mWorkInfo c)) c) else Disabled
  end.

Fixpoint run (l : list act) (c : connector) : result :=
  match l with
  | [] => Next c
  | x :: l => match step x c with Next c => run l c | Broken => Broken | Disabled => Disabled end
  end.

(** [AsyncConnector::AsyncConnector] *)
Definition init (k : K) (f : fdset_s) (q : stack_s) : connector :=
  mk_connector None (Some false) [] (mk_work k ∅ f q false [] [] ∅) [] [] 0.
End Connector.

Arguments connector : clear implicits.
Arguments result : clear implicits.

(** ** The invariant *)

Definition request_of (p : proc) : option address := match p with ProcessConnect a => Some a | StopProc => None end.
Definition requests (l : list proc) : list address := omap request_of l.

Lemma requests_app l m : requests (l ++ m) = requests l ++ requests m.
Proof. apply omap_app. Qed.

Section Run.
Context {K : Type} `{!Kernel K}.
Context (malloc : Z -> option bytes) (Hmalloc : malloc_total malloc).
Context (fmalloc : Z -> option (list pollfd)) (Hfmalloc : fd_malloc_ok fmalloc).
Context (k : bool).
#[local] Abbreviation work := (work (K := K)).
#[local] Abbreviation step := (step malloc fmalloc).
#[local] Abbreviation run := (run malloc fmalloc).

(** What is posted and not run yet. *)
Definition waiting (c : connector K) : list proc :=
  match mThread c with Some (Procs l) => l | _ => [] end ++ mAsyncProcs c.

(** Nothing is under way: all that began is answered and no descriptor is left. *)
Record idle (w : work) : Prop := {
  idle_mine : mine w = ∅;
  idle_answers : (answers w).*1 ≡ₚ seq 0 (length (begun w));
  idle_calm : Forall (calm k) (begun w) }.

(** Before a stop; with the stop posted, behind all requests; after it has run. *)
Inductive phase (g : bool) (r : option bool) (l : list proc) : Prop :=
  | working : g = false -> r = Some true -> StopProc ∉ l -> phase g r l
  | stop_posted m : g = true -> r = Some true -> l = m ++ [StopProc] -> StopProc ∉ m -> phase g r l
  | stopped : g = true -> r = Some false -> l = [] -> phase g r l.

Definition leaving (p : worker_pc) : Prop := p = AllFailed \/ p = Exited.

Record conn_ok (c : connector K) : Prop := {
  ok_calm : Forall (calm k) (requests (waiting c));
  ok_posted : posted c = taken c ++ requests (waiting c);
  ok_taken : taken c `sublist_of` begun (mWorkInfo c);
  ok_plain : k = false -> taken c = begun (mWorkInfo c);
  ok_work : match mThread c with
            | None | Some Exited => idle (mWorkInfo c)
            | Some _ => at_rest k (mWorkInfo c) /\ holding [] (mWorkInfo c)
            end;
  ok_phase : match mThread c with
             | None => locked c = false /\ mIsRun c <> Some true /\ mAsyncProcs c = []
             | Some p => phase (locked c) (mIsRun c) (waiting c) /\ (leaving p -> mIsRun c = Some false)
             end }.

Definition address_ok (x : act (K := K)) : Prop :=
  match x with
  | AsyncConnect ip port t (Some s) (Some f) => calm k (mk_address ip port t s f)
  | _ => True
  end.

Definition is_asyncConnect (x : act (K := K)) : Prop := match x with AsyncConnect _ _ _ _ _ => True | _ => False end.

(** ** Starting *)

Lemma fdset_new_ok : exists f, ox_fdset_new true fmalloc = Some (Some f) /\ fdset_wf f /\ interest f = ∅.
Proof.
  unfold ox_fdset_new. destruct (upstep_spec fmalloc (mk_fdset [] 0 0) 1024) as (f & E & Hw & Hl & _).
  - split; simpl; [done|lia|constructor].
  - done.
  - lia.
  - exists f. rewrite E. split; [done|]. split; [done|]. unfold interest. by rewrite Hl.
Qed.

Lemma newWorkInfo_ok w : idle w -> exists w', newWorkInfo malloc fmalloc w = Some w' /\
  at_rest k w' /\ holding [] w' /\ guarded w' = guarded w /\ begun w' = begun w.
Proof.
  intros [Hm Ha Hc]. unfold newWorkInfo. destruct fdset_new_ok as (f & -> & Hf & Hi). cbn [mbind option_bind].
  destruct (q_new_ok (IntQueue := stack_queue malloc Hmalloc) 1024) as (q & Eq & Hq); [simpl; lia|].
  simpl in Eq. rewrite Eq. cbn [mbind option_bind]. eexists. split; [done|]. split; [|done].
  split; simpl; try done.
  - rewrite Hm. set_solver.
  - rewrite Hm. set_solver.
  - by rewrite app_nil_r.
Qed.

(** ** Steps *)

Lemma at_rest_guarded g w : at_rest k w -> at_rest k (set_guarded g w).
Proof. intros Hw. by apply (inv_guarded k Same). Qed.

Lemma at_rest_system kern w : at_rest k w -> mine w ⊆ opened kern -> at_rest k (set_kernel kern w).
Proof. intros [] Hm. by split. Qed.

Lemma start_ok c : conn_ok c -> locked c = false ->
  match startWorkerThread malloc fmalloc c with Next c' => conn_ok c' | _ => False end.
Proof.
  intros Hc Hl. unfold startWorkerThread. destruct (mThread c) as [p|] eqn:Ep; [done|].
  destruct Hc as [H1 H2 H3 H4 H5 H6]. unfold waiting in *. rewrite Ep in *. destruct H6 as (Hg & Hr & Hq).
  destruct (newWorkInfo_ok (mWorkInfo c) H5) as (w & -> & Hw & Hh & Hgw & Hb).
  rewrite Hq in *. split; simpl; try done.
  - by rewrite Hb.
  - by rewrite Hb.
  - split; [|by intros [|]]. apply working; [|done|set_solver]. unfold locked in *. simpl. by rewrite Hgw.
Qed.

Lemma connect_ok ip port t s f c : conn_ok c -> locked c = false -> address_ok (AsyncConnect ip port t s f) ->
  match asyncConnect ip port t s f c with
  | Next c' => conn_ok c' | Broken => mIsRun c = None | Disabled => False end.
Proof.
  intros Hc Hl Ha. assert (Hthrow : conn_ok (throw c)) by (destruct Hc; by split).
  unfold asyncConnect. destruct s as [s|], f as [f|]; try done. destruct (mIsRun c) as [[|]|] eqn:Er; try done.
  destruct Hc as [H1 H2 H3 H4 H5 H6]. destruct (mThread c) as [p|] eqn:Ep; [|destruct H6 as (_ & H6 & _); congruence].
  assert (Hw : waiting (post (mk_address ip port t s f) c) = waiting c ++ [ProcessConnect (mk_address ip port t s f)])
    by (unfold waiting; simpl; by rewrite app_assoc).
  destruct H6 as [H6 H7]. split; rewrite ?Hw, ?requests_app; simpl; try done.
  - apply Forall_app. split; [done|]. by constructor.
  - by rewrite H2, <- app_assoc.
  - by rewrite Ep.
  - rewrite Ep. split; [|by rewrite Er in *].
    destruct H6 as [? ? Hn|m ? ? ? ?|? ? ?]; unfold locked in *; simpl in *; [|congruence|congruence].
    apply working; [done|done|]. set_solver.
Qed.

Lemma stop_begin_ok c : conn_ok c -> locked c = false ->
  match stop_begin c with Next c' => conn_ok c' | _ => False end.
Proof.
  intros Hc Hl. unfold stop_begin. destruct (mThread c) as [p|] eqn:Ep; [|done].
  destruct Hc as [H1 H2 H3 H4 H5 H6]. rewrite Ep in *. destruct H6 as [H6 H7].
  assert (Hw : forall w, waiting (set_procs (mAsyncProcs c ++ [StopProc]) (set_work w c)) = waiting c ++ [StopProc])
    by (intros w; unfold waiting; simpl; rewrite Ep; by rewrite app_assoc).
  split; rewrite ?Hw, ?requests_app; simpl; rewrite ?app_nil_r; try done.
  - rewrite Ep. destruct p; try (destruct H5; split; [by apply at_rest_guarded|done]). destruct H5. by split.
  - rewrite Ep. split; [|done]. destruct H6 as [? ? Hn|m ? ? ? ?|? ? ?]; [|congruence|congruence].
    by apply (stop_posted _ _ _ (waiting c)).
Qed.

Lemma system_ok kern c : conn_ok c -> mine (mWorkInfo c) ⊆ opened kern -> conn_ok (set_work (set_kernel kern (mWorkInfo c)) c).
Proof.
  intros [H1 H2 H3 H4 H5 H6] Hm. split; simpl; try done. destruct (mThread c) as [p|]; [|destruct H5; by split].
  destruct p; try (destruct H5; split; [by apply at_rest_system|done]). destruct H5. by split.
Qed.

Lemma joined_ok c : conn_ok c -> mThread c = Some Exited -> conn_ok (stop_end c).
Proof.
  intros [H1 H2 H3 H4 H5 H6] Ep. unfold waiting in *. rewrite Ep in *. destruct H6 as [H6 H7].
  rewrite H7 in H6 by (by right).
  assert (Hq : mAsyncProcs c = []) by (by destruct H6). rewrite Hq in *.
  split; simpl; try done. destruct H5. by split.
Qed.

Lemma prefix_sublist {A} (l m : list A) : l `prefix_of` m -> l `sublist_of` m.
Proof. intros [n ->]. by apply sublist_inserts_r. Qed.

(** A part of the worker's round that keeps the worker's invariant. *)
Lemma does_ok (m : M work unit) p' c w0 Q (R : connector K -> Prop) : mWorkInfo c = w0 ->
  must k m Q w0 -> (forall w, Q tt w -> R (set_pc p' (set_work w c))) ->
  match does m p' c with Next c' => R c' | Broken => k = true | Disabled => False end.
Proof. intros <- Hm HR. unfold does, must in *. destruct (m (mWorkInfo c)) as [[[] w]| |]; auto. Qed.

(** A step to another place in the loop, nothing else changing. *)
Lemma move_ok c p p' : conn_ok c -> mThread c = Some p -> p <> Exited -> p' <> Exited ->
  (match p with Procs l => l = [] | _ => True end) -> (match p' with Procs l => l = [] | _ => True end) ->
  (leaving p' -> mIsRun c = Some false) -> conn_ok (set_pc p' c).
Proof.
  intros [H1 H2 H3 H4 H5 H6] Ep Hp Hp' Hl Hl' Hr. rewrite Ep in *.
  assert (Hw : waiting (set_pc p' c) = waiting c).
  { unfold waiting. simpl. rewrite Ep. f_equal. destruct p', p; by subst. }
  split; rewrite ?Hw; simpl; try done.
  - by destruct p, p'.
  - by destruct H6.
Qed.

(** So when the worker's data change as well. *)
Lemma work_ok c p p' w : conn_ok c -> mThread c = Some p -> p <> Exited -> p' <> Exited ->
  (match p with Procs l => l = [] | _ => True end) -> (match p' with Procs l => l = [] | _ => True end) ->
  (leaving p' -> mIsRun c = Some false) ->
  at_rest k w -> holding [] w -> guarded w = guarded (mWorkInfo c) ->
  begun (mWorkInfo c) `prefix_of` begun w -> (k = false -> begun w = begun (mWorkInfo c)) ->
  conn_ok (set_pc p' (set_work w c)).
Proof.
  intros Hc Ep Hp Hp' Hl Hl' Hr Hw Hh Hg Hpre Hb.
  assert (conn_ok (set_work w c)) as Hc'; [|by apply (move_ok _ p)].
  destruct Hc as [H1 H2 H3 H4 H5 H6]. split; simpl; try done.
  - etrans; [done|]. by apply prefix_sublist.
  - intros Hk. by rewrite Hb, H4.
  - rewrite Ep in *. by destruct p.
  - rewrite Ep in *. unfold locked in *. simpl. by rewrite Hg.
Qed.

Lemma stop_behind p l m : p :: l = m ++ [StopProc] -> StopProc ∉ m ->
  p = StopProc /\ l = [] /\ m = [] \/ p <> StopProc /\ exists m', m = p :: m' /\ l = m' ++ [StopProc].
Proof.
  destruct m as [|q m]; intros [= -> ->] Hn; [by left|]. right. split; [|by exists m]. intros ->. set_solver.
Qed.

Lemma process_ok c a l : conn_ok c -> mThread c = Some (Procs (ProcessConnect a :: l)) ->
  match does (processConnect fmalloc a) (Procs l) (set_taken (taken c ++ [a]) c) with
  | Next c' => conn_ok c' | Broken => k = true | Disabled => False end.
Proof.
  intros [H1 H2 H3 H4 H5 H6] Ep. unfold waiting in *. rewrite Ep in *. destruct H5 as [Hw Hh], H6 as [H6 H7].
  simpl in H1, H2. apply Forall_cons in H1 as [Ha H1].
  eapply does_ok; [done|by apply (processConnect_ok malloc Hmalloc fmalloc Hfmalloc)|]. intros w (Hw' & Hg & Hq & Hpre & Hb). split; unfold waiting; simpl; try done.
  - by rewrite H2, <- app_assoc.
  - etrans; [|by apply prefix_sublist]. by apply sublist_app.
  - intros Hk. by rewrite Hb, H4.
  - split; [done|]. unfold holding. by rewrite Hq.
  - split; [|by intros [|]]. unfold locked in *. simpl. rewrite Hg. destruct H6 as [? ? Hn|m ? ? Em Hn|? ? Em].
    + apply working; [done|done|]. set_solver.
    + destruct (stop_behind _ _ _ Em Hn) as [(? & _)|(_ & m' & -> & El)]; [done|].
      apply (stop_posted _ _ _ m'); [done|done|done|set_solver].
    + done.
Qed.

Lemma stop_proc_ok c l : conn_ok c -> mThread c = Some (Procs (StopProc :: l)) ->
  mIsRun c <> None /\ conn_ok (set_pc (Procs l) (set_run (Some false) c)).
Proof.
  intros [H1 H2 H3 H4 H5 H6] Ep. unfold waiting in *. rewrite Ep in *. destruct H6 as [H6 H7].
  destruct H6 as [? ? Hn|m Hg Hr Em Hn|? ? Em]; [exfalso; set_solver| |done]. split; [by rewrite Hr|].
  destruct (stop_behind _ _ _ Em Hn) as [(_ & El & ->)|(? & _)]; [|done].
  simpl in *. apply app_eq_nil in El as [-> El]. rewrite El in *. split; unfold waiting; simpl; rewrite ?El; try done.
  split; [|by intros [|]]. by apply stopped.
Qed.

Lemma worker_step_ok c : conn_ok c ->
  match worker_step malloc fmalloc c with
  | Next c' => conn_ok c'
  | Broken => k = true
  | Disabled => mThread c = None \/ mThread c = Some Exited
  end.
Proof.
  intros Hc. unfold worker_step. destruct (mThread c) as [p|] eqn:Ep; [|by left].
  pose proof (ok_work c Hc) as Hw. pose proof (ok_phase c Hc) as Hph. rewrite Ep in Hw, Hph.
  destruct p as [| |[|[a|] l]| | | |]; try (destruct Hw as [Hw Hh]).
  - destruct Hph as [Hph _]. destruct (mIsRun c) as [[|]|] eqn:Er.
    + apply (move_ok c TestRun); try done. by intros [|].
    + apply (move_ok c TestRun); try done.
    + destruct Hph; congruence.
  - destruct Hc as [H1 H2 H3 H4 H5 H6]. unfold waiting in *. rewrite Ep in *. simpl in *.
    destruct H6 as [H6 _]. split; unfold waiting; simpl; rewrite ?app_nil_r; try done. split; [done|]. by intros [|].
  - apply (move_ok c (Procs [])); try done. by intros [|].
  - pose proof (process_ok c a l Hc Ep) as H. by destruct (does _ _ _).
  - destruct (stop_proc_ok c l Hc Ep) as [Hr Hc']. by destruct (mIsRun c).
  - pose proof (does_ok (checkConnectStatus malloc fmalloc 0) CheckTimeout c _ _ conn_ok eq_refl
      (checkConnectStatus_ok malloc Hmalloc fmalloc Hfmalloc k 0 _ Hw Hh)) as H.
    assert (Hall : forall w, at_rest k w /\ holding [] w /\ guarded w = guarded (mWorkInfo c) /\
      begun (mWorkInfo c) `prefix_of` begun w /\ (k = false -> begun w = begun (mWorkInfo c)) ->
      conn_ok (set_pc CheckTimeout (set_work w c))).
    { intros w (? & ? & ? & ? & ?). apply (work_ok c CheckConnect); try done. by intros [|]. }
    specialize (H Hall). by destruct (does _ _ _).
  - pose proof (does_ok (checkTimeout fmalloc) TestRun c _ _ conn_ok eq_refl
      (checkTimeout_ok malloc Hmalloc fmalloc Hfmalloc k _ Hw)) as H.
    assert (Hall : forall w, at_rest k w /\ leads k (mWorkInfo c) w -> conn_ok (set_pc TestRun (set_work w c))).
    { intros w (? & [Hg Hq Hp Hb]). apply (work_ok c CheckTimeout); try done; [by intros [|]|]. unfold holding. by rewrite Hq. }
    specialize (H Hall). by destruct (does _ _ _).
  - destruct Hph as [Hph Hr]. specialize (Hr (or_introl eq_refl)). rewrite Hr in Hph. destruct Hph as [|?|Hg _ El]; [done..|].
    pose proof (does_ok (causeAllFailed fmalloc) Exited c _ _ conn_ok eq_refl
      (causeAllFailed_ok malloc Hmalloc fmalloc Hfmalloc k _ Hw Hg)) as H.
    assert (Hall : forall w, inv k Detached ∅ ∅ [] w /\ begun w = begun (mWorkInfo c) -> conn_ok (set_pc Exited (set_work w c))).
    { intros w [Hi Hb]. destruct Hc as [H1 H2 H3 H4 H5 H6]. unfold waiting in *. rewrite Ep in *.
      split; unfold waiting; simpl; rewrite ?Hb; try done.
      - pose proof (inv_ids _ _ _ _ _ _ Hi) as Hids. pose proof (inv_mine _ _ _ _ _ _ Hi) as Hm. rewrite app_nil_r in Hids.
        split; [rewrite Hm; set_solver|done|apply Hi].
      - unfold locked. simpl. destruct (inv_link _ _ _ _ _ _ Hi) as [_ ->]. split; [|done].
        rewrite Hr. by apply stopped. }
    specialize (H Hall). by destruct (does _ _ _).
  - by right.
Qed.

Lemma step_ok x c : conn_ok c -> address_ok x ->
  match step x c with
  | Next c' => conn_ok c'
  | Broken => k = true \/ is_asyncConnect x /\ mIsRun c = None
  | Disabled => True
  end.
Proof.
  intros Hc Hx. unfold ConnectorRun.step. destruct x as [|ip port t s f| | | |kern].
  - destruct (locked c) eqn:Hl; [done|]. pose proof (start_ok c Hc Hl). by destruct (startWorkerThread _ _ _).
  - destruct (locked c) eqn:Hl; [done|]. pose proof (connect_ok ip port t s f c Hc Hl Hx).
    destruct (asyncConnect _ _ _ _ _ _); [done|right; by split|done].
  - destruct (locked c) eqn:Hl; [done|]. pose proof (stop_begin_ok c Hc Hl). by destruct (stop_begin _).
  - pose proof (worker_step_ok c Hc). destruct (worker_step _ _ _); [done|by left|done].
  - destruct (mThread c) as [[]|] eqn:E; try done. by apply joined_ok.
  - destruct (decide _); [|done]. by apply system_ok.
Qed.

Lemma run_ok l c c' : conn_ok c -> Forall address_ok l -> run l c = Next c' -> conn_ok c'.
Proof.
  intros Hc Hl. revert c Hc. induction Hl as [|x l Hx Hl IH]; intros c Hc; [by intros [= <-]|].
  cbn [ConnectorRun.run]. pose proof (step_ok x c Hc Hx) as H. destruct (step x c) as [c1| |]; [by apply IH|done|done].
Qed.

Lemma init_ok kern f q : conn_ok (init kern f q).
Proof. split; simpl; try done. Qed.

(** ** Stopping *)

(** Steps of the worker left, once the stop is posted. *)
Definition left_to_do (c : connector K) : nat :=
  let q := (2 * length (mAsyncProcs c))%nat in
  match mThread c, mIsRun c with
  | None, _ | Some Exited, _ => 0
  | Some AllFailed, _ => 1
  | Some TestRun, Some true => 21 + q
  | Some LoopStart, Some true => 20 + q
  | Some CheckTimeout, Some true => 22 + q
  | Some CheckConnect, Some true => 23 + q
  | Some (Procs l), Some true => length l + match mAsyncProcs c with [] => 10 | _ => 24 + q end
  | Some TestRun, _ => 2
  | Some CheckTimeout, _ => 3
  | Some CheckConnect, _ => 4
  | Some (Procs l), _ => 5 + length l
  | Some LoopStart, _ => 6
  end%nat.

Lemma does_next (m : M work unit) p' (c c' : connector K) : does m p' c = Next c' ->
  exists w, c' = set_pc p' (set_work w c).
Proof. unfold does. destruct (m _) as [[[] w]| |]; [|done..]. intros [= <-]. by exists w. Qed.

Lemma still_locked c p : conn_ok c -> mThread c = Some p -> mIsRun c = Some false \/ StopProc ∈ waiting c ->
  locked c = true.
Proof.
  intros Hc Ep Hs. pose proof (ok_phase c Hc) as Hp. rewrite Ep in Hp. destruct Hp as [[? Hr Hn| |] _]; [|done..].
  destruct Hs as [Hs|Hs]; [congruence|done].
Qed.

(** The stop has run, or it waits. *)
Lemma to_stop c p : conn_ok c -> mThread c = Some p -> locked c = true ->
  mIsRun c = Some false /\ waiting c = [] \/ mIsRun c = Some true /\ StopProc ∈ waiting c.
Proof.
  intros Hc Ep Hl. pose proof (ok_phase c Hc) as Hp. rewrite Ep in Hp. destruct Hp as [[|m ? ? ->|] _]; [congruence| |by left].
  right. split; [done|set_solver].
Qed.

(** What a step of the worker does besides its data: the parts that lead to the end. *)
Lemma worker_progress c c' : conn_ok c -> locked c = true -> worker_step malloc fmalloc c = Next c' ->
  posted c' = posted c /\ (mIsRun c' = Some false \/ StopProc ∈ waiting c') /\
  (exists p', mThread c' = Some p') /\ (left_to_do c' < left_to_do c)%nat.
Proof.
  intros Hc Hl E. unfold worker_step in E. destruct (mThread c) as [p|] eqn:Ep; [|done].
  pose proof (to_stop c p Hc Ep Hl) as Hs. unfold waiting in *. rewrite Ep in Hs.
  destruct p as [| |[|[a|] l]| | | |]; try done.
  - injection E as <-. unfold left_to_do, waiting. simpl. rewrite Ep.
    destruct Hs as [[Hr Hq]|[Hr Hq]]; rewrite Hr; (split; [done|]); (split; [by auto|]); (split; [by eexists|]); lia.
  - injection E as <-. unfold left_to_do, waiting. simpl. rewrite Ep, app_nil_r. simpl in Hs.
    destruct Hs as [[Hr Hq]|[Hr Hq]]; rewrite Hr; (split; [done|]); (split; [by auto|]); (split; [by eexists|]).
    + rewrite Hq. simpl. lia.
    + destruct (mAsyncProcs c); [set_solver|]. simpl. lia.
  - injection E as <-. unfold left_to_do, waiting. simpl. rewrite Ep. simpl in Hs.
    destruct Hs as [[Hr Hq]|[Hr Hq]]; rewrite Hr; (split; [done|]); (split; [by auto|]); (split; [by eexists|]).
    + lia.
    + destruct (mAsyncProcs c); [set_solver|]. simpl. lia.
  - apply does_next in E as [w ->]. unfold left_to_do, waiting. simpl. rewrite Ep. simpl in Hs.
    destruct Hs as [[Hr Hq]|[Hr Hq]]; [done|]. rewrite Hr. split; [done|]. split; [right; set_solver|].
    split; [by eexists|]. simpl. destruct (mAsyncProcs c); simpl; lia.
  - destruct Hs as [[Hr Hq]|[Hr Hq]]; [done|]. rewrite Hr in E. injection E as <-. unfold left_to_do. simpl. rewrite Ep, Hr.
    split; [done|]. split; [by left|]. split; [by eexists|]. simpl. destruct (mAsyncProcs c); simpl; lia.
  - apply does_next in E as [w ->]. unfold left_to_do, waiting. simpl. rewrite Ep. simpl in Hs.
    destruct Hs as [[Hr Hq]|[Hr Hq]]; rewrite Hr; (split; [done|]); (split; [by auto|]); (split; [by eexists|]); lia.
  - apply does_next in E as [w ->]. unfold left_to_do, waiting. simpl. rewrite Ep. simpl in Hs.
    destruct Hs as [[Hr Hq]|[Hr Hq]]; rewrite Hr; (split; [done|]); (split; [by auto|]); (split; [by eexists|]); lia.
  - pose proof (ok_phase c Hc) as Hp. rewrite Ep in Hp. destruct Hp as [_ Hr]. specialize (Hr (or_introl eq_refl)).
    apply does_next in E as [w ->]. unfold left_to_do, waiting. simpl. rewrite Ep.
    split; [done|]. split; [by left|]. split; [by eexists|]. lia.
Qed.

Lemma worker_goes c : k = false -> conn_ok c -> locked c = true -> mThread c <> Some Exited ->
  exists c', worker_step malloc fmalloc c = Next c' /\ conn_ok c' /\ locked c' = true /\ posted c' = posted c /\
    (left_to_do c' < left_to_do c)%nat.
Proof.
  intros Hk Hc Hl He. pose proof (worker_step_ok c Hc) as Hs. rewrite Hk in Hs.
  destruct (mThread c) as [p|] eqn:Ep.
  2: { destruct Hc as [_ _ _ _ _ H6]. rewrite Ep in H6. destruct H6; congruence. }
  destruct (worker_step malloc fmalloc c) as [c'| |] eqn:E; [|done|destruct Hs; congruence].
  destruct (worker_progress c c' Hc Hl E) as (Hp & Hr & [p' Ep'] & Hn).
  exists c'. split_and!; try done. by apply (still_locked c' p').
Qed.

Lemma stop_done c : k = false -> conn_ok c -> locked c = true ->
  exists n c', run (replicate n Worker) c = Next c' /\ conn_ok c' /\ mThread c' = Some Exited /\ posted c' = posted c.
Proof.
  intros Hk. remember (left_to_do c) as n eqn:En. revert c En. induction (lt_wf n) as [n _ IH]. intros c -> Hc Hl.
  assert (mThread c = Some Exited \/ mThread c <> Some Exited) as [He|He]
    by (destruct (mThread c) as [[]|]; first [left; reflexivity|right; discriminate]); [by exists 0%nat, c|].
  destruct (worker_goes c Hk Hc Hl He) as (c1 & E & Hc1 & Hl1 & Hp1 & Hn).
  destruct (IH _ Hn c1 eq_refl Hc1 Hl1) as (n & c' & Er & Hc' & He' & Hp').
  exists (S n), c'. split; [|split_and!; congruence]. cbn [replicate ConnectorRun.run ConnectorRun.step]. by rewrite E.
Qed.

Lemma run_app l m c : run (l ++ m) c = match run l c with Next c => run m c | r => r end.
Proof.
  revert c. induction l as [|x l IH]; intros c; [done|]. simpl. destruct (step x c); [apply IH|done|done].
Qed.

Lemma run_broken l c : k = false -> conn_ok c -> Forall address_ok l -> run l c = Broken ->
  exists l1 x l2 c1, l = l1 ++ x :: l2 /\ run l1 c = Next c1 /\ is_asyncConnect x /\ mIsRun c1 = None.
Proof.
  intros Hk Hc Hl. revert c Hc. induction Hl as [|x l Hx Hl IH]; intros c Hc E; [done|]. cbn [ConnectorRun.run] in E.
  pose proof (step_ok x c Hc Hx) as H. destruct (step x c) as [c1| |] eqn:Es; [|..].
  - destruct (IH c1 H E) as (l1 & y & l2 & c2 & -> & E1 & ?). exists (x :: l1), y, l2, c2. split; [done|]. split; [|done].
    cbn [ConnectorRun.run]. by rewrite Es.
  - destruct H as [|[? ?]]; [congruence|]. by exists [], x, l, c.
  - done.
Qed.
End Run.

(** ** The theorems *)

Section Theorems.
Context {K : Type} `{!Kernel K}.
Context (malloc : Z -> option bytes) (Hmalloc : malloc_total malloc).
Context (fmalloc : Z -> option (list pollfd)) (Hfmalloc : fd_malloc_ok fmalloc).

(** C20: no request is lost or answered twice, and no descriptor leaks. Whatever threads
    start, stop and ask and however the system answers, with allocations that succeed, in every run in
    which no thread waits for itself or asks a connector that was stopped, and for callbacks that ask
    for further connections only while they hold their socket ([request_lost] shows that one
    which closes it first may lose a request): requests
    are taken in the order posted; while the worker runs, each request begun is either answered, once,
    or is one of those under way, with its own callbacks and timeout, and the descriptors
    that the connector made and has not handed over are open, are those of the connections under way, and
    are watched for writing; when it has ended, all are answered and none is left. *)
Theorem requests_answered (l : list act) (kern : K) f q (c : connector K) :
  Forall (address_ok true) l -> run malloc fmalloc l (init kern f q) = Next c ->
  let w := mWorkInfo c in
  posted c = taken c ++ requests (waiting c) /\ taken c `sublist_of` begun w /\
  match mThread c with
  | None | Some Exited => (answers w).*1 ≡ₚ seq 0 (length (begun w)) /\ mine w = ∅
  | Some _ =>
      (answers w).*1 ++ ids (mConnectingInfos w) ≡ₚ seq 0 (length (begun w)) /\
      (forall x ci, mConnectingInfos w !! x = Some ci -> from (begun w) ci) /\
      mine w = dom (mConnectingInfos w) /\ mine w ⊆ opened (kernel w) /\
      interest (mFDSet w) = (fun _ => CHECK_WRITE_FLAG) <$> mConnectingInfos w
  end.
Proof.
  intros Hl E. apply (run_ok malloc Hmalloc fmalloc Hfmalloc true) in E; [|apply init_ok|done].
  destruct E as [_ Hp Ht _ Hw _]. split; [done|]. split; [done|].
  assert (Hrest : at_rest true (mWorkInfo c) /\ holding [] (mWorkInfo c) ->
    (answers (mWorkInfo c)).*1 ++ ids (mConnectingInfos (mWorkInfo c)) ≡ₚ seq 0 (length (begun (mWorkInfo c))) /\
    (forall x ci, mConnectingInfos (mWorkInfo c) !! x = Some ci -> from (begun (mWorkInfo c)) ci) /\
    mine (mWorkInfo c) = dom (mConnectingInfos (mWorkInfo c)) /\ mine (mWorkInfo c) ⊆ opened (kernel (mWorkInfo c)) /\
    interest (mFDSet (mWorkInfo c)) = (fun _ => CHECK_WRITE_FLAG) <$> mConnectingInfos (mWorkInfo c)).
  { intros [[] _]. split_and!; try done. rewrite inv_mine. set_solver. }
  destruct (mThread c) as [[]|]; try (by apply Hrest); by destruct Hw.
Qed.

(** C21: [stopWorkerThread] ends and leaves nothing behind. With callbacks that do not
    ask for connections, no run follows a null pointer or waits for itself, but for an
    [asyncConnect] after a stop; and from every state in which a stop has begun, the worker's next
    steps lead to its end and the join, with every request ever accepted begun in order and
    answered once, and every descriptor closed or handed over. *)
Theorem stop_answers_all (l : list act) (kern : K) f q :
  Forall (address_ok false) l ->
  match run malloc fmalloc l (init kern f q) with
  | Next c => locked c = true ->
      exists n c', run malloc fmalloc (replicate n Worker ++ [Joined]) c = Next c' /\
        mThread c' = None /\ locked c' = false /\ begun (mWorkInfo c') = posted c /\
        (answers (mWorkInfo c')).*1 ≡ₚ seq 0 (length (posted c)) /\ mine (mWorkInfo c') = ∅
  | Broken => exists l1 x l2 c1, l = l1 ++ x :: l2 /\ run malloc fmalloc l1 (init kern f q) = Next c1 /\
      is_asyncConnect x /\ mIsRun c1 = None
  | Disabled => True
  end.
Proof.
  intros Hl. destruct (run malloc fmalloc l (init kern f q)) as [c| |] eqn:E; [|..|done].
  - apply (run_ok malloc Hmalloc fmalloc Hfmalloc false) in E; [|apply init_ok|done]. intros Hlock.
    destruct (stop_done malloc Hmalloc fmalloc Hfmalloc false c eq_refl E Hlock) as (n & c1 & Er & Hc1 & He & Hp).
    pose proof (joined_ok false c1 Hc1 He) as Hj. destruct Hj as [_ Hpost _ Hplain [Hm Ha _] _].
    exists n, (stop_end c1). split; [rewrite run_app, Er; cbn; by rewrite He|]. split; [done|]. split; [done|].
    assert (Hb : begun (mWorkInfo (stop_end c1)) = posted c).
    { rewrite <- Hp. change (posted c1) with (posted (stop_end c1)). rewrite Hpost, Hplain by done. by rewrite app_nil_r. }
    rewrite <- Hb. done.
  - apply (run_broken malloc Hmalloc fmalloc Hfmalloc false) in E; [done|done|apply init_ok|done].
Qed.
End Theorems.

(** ** A system *)

(** The descriptors open and the time. The port tells what [connect] does; all
    connections under way come to an end at the next poll from time 0 on, 5 with an error. *)
Definition demo_socket (k : gset Z * Z) : option Z * (gset Z * Z) :=
  match filter (fun x => x ∉ k.1) [3; 4; 5; 6] with x :: _ => (Some x, ({[x]} ∪ k.1, k.2)) | [] => (None, k) end.
Definition demo_connect (x : Z) (ip : bytes) (port : Z) (k : gset Z * Z) : connect_result * (gset Z * Z) :=
  (if port =? 1 then Connected else if port =? 2 then InProgress else Refused, k).

#[local] Program Instance demo_kernel : Kernel (gset Z * Z) := {|
  opened k := k.1; sys_socket := demo_socket; sys_connect := demo_connect;
  sys_close x k := (k.1 ∖ {[x]}, k.2); sys_sockerr x k := (Some (if x =? 5 then 111 else 0), k);
  sys_now k := (k.2, k); sys_poll l n k := (zlen l, 0, replicate (length l) (if k.2 <? 0 then 0 else POLLOUT), k) |}.
Next Obligation. intros k k'. unfold demo_socket. destruct (filter _ _); [by intros [= <-]|done]. Qed.
Next Obligation.
  intros k k' x. unfold demo_socket. destruct (filter _ _) as [|y l] eqn:E; [done|]. intros [= -> <-].
  assert (Hx : x ∈ filter (fun x => x ∉ k.1) [3; 4; 5; 6]) by (rewrite E; set_solver).
  apply list_elem_of_filter in Hx as [Hn Hx]. split; [set_unfold; lia|done].
Qed.
Next Obligation. done. Qed.
Next Obligation. done. Qed.
Next Obligation. done. Qed.
Next Obligation. done. Qed.
Next Obligation. done. Qed.
Next Obligation. intros l n k. simpl. apply length_replicate. Qed.

Definition demo_system : gset Z * Z := ({[0; 1; 2]}, 0).
#[local] Abbreviation demo_init := (init demo_system (mk_fdset [] 0 0) stack_demo).
#[local] Abbreviation demo_run := (run demo_malloc demo_fd_malloc).
Definition demo_ask (port : Z) (s f : list action) : act (K := gset Z * Z) := AsyncConnect (str "::1") port 50 (Some s) (Some f).

(** A connection that succeeds, whose callback keeps the socket after it has asked for a second
    connection, and one refused at once. *)
Definition demo_second : address := mk_address (str "::1") 2 50 [] [].
Definition demo_acts : list act :=
  [Start; demo_ask 2 [Connect demo_second; KeepSocket] []; demo_ask 9 [] []] ++ replicate 9 Worker.

(** What the worker recorded. *)
Definition outcome_of (r : result (gset Z * Z)) : option (list (nat * bool) * list Z * list nat) :=
  match r with
  | Next c => Some (answers (mWorkInfo c), elements (mine (mWorkInfo c)), ids (mConnectingInfos (mWorkInfo c)))
  | _ => None
  end.

(** Callbacks that ask for nothing. *)
Lemma calm_plain k ip port t s f : connects_first s -> Forall (fun x => ~ is_connect x) (s ++ f) ->
  calm k (mk_address ip port t s f).
Proof. intros Hs Hn. rewrite Forall_forall in Hn. constructor; [done|..]; intros a Ha; by destruct (Hn _ Ha). Qed.

Ltac plain := apply calm_plain; [simpl; repeat constructor; by intros []|simpl; repeat constructor; by intros []].

Lemma demo_acts_ok : Forall (address_ok true) demo_acts.
Proof.
  assert (H2 : calm true demo_second) by plain.
  repeat (apply Forall_cons; split); try apply Forall_nil; try exact I; simpl; [|plain].
  constructor; [by repeat constructor|done|].
  intros a Ha. rewrite app_nil_r in Ha. apply elem_of_cons in Ha as [[= ->]|Ha]; [done|].
  apply elem_of_cons in Ha as [|Ha]; [done|by apply elem_of_nil in Ha].
Qed.

Lemma requests_answered_witness :
  exists c, demo_run demo_acts demo_init = Next c /\
    outcome_of (Next c) = Some ([(1%nat, false); (0%nat, true)], [4], [2%nat]) /\
    (answers (mWorkInfo c)).*1 ++ ids (mConnectingInfos (mWorkInfo c)) ≡ₚ seq 0 (length (begun (mWorkInfo c))).
Proof.
  assert (Ho : outcome_of (demo_run demo_acts demo_init) = Some ([(1%nat, false); (0%nat, true)], [4], [2%nat]))
    by (vm_compute; reflexivity).
  destruct (demo_run demo_acts demo_init) as [c| |] eqn:E; [|discriminate Ho|discriminate Ho].
  exists c. split; [reflexivity|]. split; [exact Ho|].
  destruct (requests_answered demo_malloc demo_total demo_fd_malloc demo_fd_malloc_ok demo_acts demo_system
    (mk_fdset [] 0 0) stack_demo c demo_acts_ok E)
    as (_ & _ & H).
  assert (Hm : mine (mWorkInfo c) <> ∅) by (intros Em; simpl in Ho; rewrite Em in Ho; discriminate Ho).
  destruct (mThread c) as [[]|]; try exact (proj1 H); exfalso; apply Hm, H.
Defined.

(** The same with callbacks that ask for nothing, stopped while a connection is under way. *)
Definition demo_stop : list act :=
  [Start; demo_ask 2 [KeepSocket] []; demo_ask 9 [] []] ++ replicate 4 Worker ++ [demo_ask 2 [] []; StopBegin].

Lemma demo_stop_ok : Forall (address_ok false) demo_stop.
Proof.
  repeat (apply Forall_cons; split); try apply Forall_nil; try exact I; simpl; plain.
Qed.

Lemma stop_answers_all_witness :
  exists c n c', demo_run demo_stop demo_init = Next c /\ locked c = true /\
    demo_run (replicate n Worker ++ [Joined]) c = Next c' /\ mThread c' = None /\ mine (mWorkInfo c') = ∅.
Proof.
  pose proof (stop_answers_all demo_malloc demo_total demo_fd_malloc demo_fd_malloc_ok demo_stop
    demo_system (mk_fdset [] 0 0) stack_demo demo_stop_ok) as H.
  assert (Hl : match demo_run demo_stop demo_init with Next c => locked c | _ => false end = true) by (vm_compute; reflexivity).
  destruct (demo_run demo_stop demo_init) as [c| |]; [|discriminate Hl|discriminate Hl].
  destruct (H Hl) as (n & c' & E & Ht & _ & _ & _ & Hm). exists c, n, c'.
  split; [reflexivity|]. split; [exact Hl|]. split; [exact E|]. split; [exact Ht|exact Hm].
Defined.

(** ** What callbacks must not do *)

(** A success callback that drops its socket and asks for a connection may be given the same
    descriptor by the system; the entry of the new request is then erased as that of the old one.
    The request is never answered, and its descriptor stays open. *)
Theorem request_lost :
  outcome_of (demo_run ([Start; demo_ask 2 [DropSocket; Connect demo_second] []] ++ replicate 20 Worker) demo_init) =
    Some ([(0%nat, true)], [3], []) /\
  match demo_run ([Start; demo_ask 2 [DropSocket; Connect demo_second] []] ++ replicate 20 Worker) demo_init with
  | Next c => begun (mWorkInfo c) = [mk_address (str "::1") 2 50 [DropSocket; Connect demo_second] []; demo_second]
  | _ => False
  end.
Proof. split; vm_compute; reflexivity. Qed.

(** A failure callback that tries again waits for the lock that its own thread has taken when
    the second try fails at once, and for the one that [stopWorkerThread] holds when it is
    called because the connector stops. *)
Definition demo_again : address := mk_address (str "::1") 9 50 [] [Connect (mk_address (str "::1") 9 50 [] [])].
Theorem retry_deadlocks :
  demo_run ([Start; demo_ask 9 [] [Connect demo_again]] ++ replicate 3 Worker) demo_init = Broken /\
  demo_run ([Start; System ({[0; 1; 2]}, -1); demo_ask 2 [] [Connect demo_second]; StopBegin] ++ replicate 20 Worker) demo_init = Broken.
Proof. split; vm_compute; reflexivity. Qed.

(** After [stopWorkerThread] the pointer [mIsRun] is null, and [asyncConnect] follows it; before
    [startWorkerThread] it throws. *)
Theorem connect_after_stop :
  demo_run ([Start; StopBegin] ++ replicate 8 Worker ++ [Joined; demo_ask 2 [] []]) demo_init = Broken /\
  match demo_run [demo_ask 2 [] []] demo_init with Next c => thrown c = 1%nat | _ => False end.
Proof. split; vm_compute; reflexivity. Qed.
