(* ===== verification/DataSocket.v ===== *)
(** * net/DataSocket.cpp: a connection inside its event loop

    The fields of [DataSocket] with the parts of the event loop, of the operating
    system and of the application that it works with. All operations run on the
    loop's thread: [send], [postDisConnect] and [postShutdown] of other threads
    are posted to it (EventLoop.v) and are inputs here. The platform is Linux
    without OpenSSL. *)

From S2P Require Import Prelude.
From S2P Require Import Words.
From S2P Require Import Buffer.
From S2P Require Import Outcome.
#[local] Open Scope outcome_scope.

(** Procedures given to [pushAfterLoopProc]. *)
Inductive after_proc := ProcFlush | ProcDisConnect | ProcShutdown.

(** [mTimer]: a weak pointer that is empty, to a timer that waits in the timer
    manager, or to one whose callback is running. *)
Inductive timer_ref := NoTimer | Waiting | Firing.

#[export] Instance timer_ref_eq_dec : EqDecision timer_ref.
Proof. solve_decision. Defined.

Section Socket.
(** [W]: the state of the operating system's side of the socket; [A]: the state of
    the application; [C]: the completion callbacks of packets. *)
Context {W A C : Type}.

(** ** Data *)

Record pending_packet := mk_pending { data : bytes; left : Z; mCompleteCallback : option C }.

(** What a callback of the application may ask of the socket. *)
Inductive action :=
  | Send (packet : bytes) (callback : option C)
  | PostDisConnect
  | PostShutdown
  | SetHeartBeat (checkTime : Z).

(** What can be seen from outside, in order. *)
Inductive event :=
  | Queued (packet : bytes) (callback : option C)   (* pushed to mSendList *)
  | Sent (b : bytes)                                (* taken by writev *)
  | Completed (c : C)                               (* a completion callback was called *)
  | Received (b : bytes)                            (* given by recv *)
  | Delivered (b : bytes) (proclen : Z)             (* mDataCallback was called, and its result *)
  | ShutDown                                        (* shutdown(SHUT_WR) *)
  | Closed                                          (* the descriptor was closed *)
  | Disconnected.                                   (* mDisConnectCallback was called *)

Inductive recv_result := RecvData (b : bytes) | RecvEof | RecvError (would_block : bool).

(** The system calls on the socket: [recv] with the size of the buffer; [writev],
    whose result comes with [errno == EWOULDBLOCK]. [malloc]: a new block. *)
Record system := mk_system {
  sys_recv : Z -> W -> recv_result * W;
  sys_writev : list bytes -> W -> Z * bool * W;
  malloc : Z -> option bytes }.

(** The callbacks of the application. [mDataCallback] gets the unread bytes;
    its result is the number of bytes that it is done with. *)
Record application := mk_application {
  onData : option (bytes -> A -> Z * list action * A);
  onComplete : C -> A -> list action * A;
  onEnter : A -> list action * A;
  hasDisConnectCallback : bool }.

Record st := mk_st {
  mEventLoop : bool;
  mSocket : bool;
  mIsPostFinalClose : bool;
  mCanWrite : bool;
  mRecvBuffer : buffer_s;
  mSendList : list pending_packet;
  mIsPostFlush : bool;
  mRecvData : bool;
  mCheckTime : Z;
  mTimer : timer_ref;
  mEnterCallback : bool;
  posted : list after_proc;
  watch_write : bool;
  os : W;
  app : A;
  log : list event }.

Definition set_mEventLoop (v : bool) (s : st) : st := mk_st v (mSocket s) (mIsPostFinalClose s)
  (mCanWrite s) (mRecvBuffer s) (mSendList s) (mIsPostFlush s) (mRecvData s) (mCheckTime s)
  (mTimer s) (mEnterCallback s) (posted s) (watch_write s) (os s) (app s) (log s).
Definition set_mSocket (v : bool) (s : st) : st := mk_st (mEventLoop s) v (mIsPostFinalClose s)
  (mCanWrite s) (mRecvBuffer s) (mSendList s) (mIsPostFlush s) (mRecvData s) (mCheckTime s)
  (mTimer s) (mEnterCallback s) (posted s) (watch_write s) (os s) (app s) (log s).
Definition set_mIsPostFinalClose (v : bool) (s : st) : st := mk_st (mEventLoop s) (mSocket s) v
  (mCanWrite s) (mRecvBuffer s) (mSendList s) (mIsPostFlush s) (mRecvData s) (mCheckTime s)
  (mTimer s) (mEnterCallback s) (posted s) (watch_write s) (os s) (app s) (log s).
Definition set_mCanWrite (v : bool) (s : st) : st := mk_st (mEventLoop s) (mSocket s)
  (mIsPostFinalClose s) v (mRecvBuffer s) (mSendList s) (mIsPostFlush s) (mRecvData s) (mCheckTime
  s) (mTimer s) (mEnterCallback s) (posted s) (watch_write s) (os s) (app s) (log s).
Definition set_mRecvBuffer (v : buffer_s) (s : st) : st := mk_st (mEventLoop s) (mSocket s)
  (mIsPostFinalClose s) (mCanWrite s) v (mSendList s) (mIsPostFlush s) (mRecvData s) (mCheckTime
  s) (mTimer s) (mEnterCallback s) (posted s) (watch_write s) (os s) (app s) (log s).
Definition set_mSendList (v : list pending_packet) (s : st) : st := mk_st (mEventLoop s) (mSocket
  s) (mIsPostFinalClose s) (mCanWrite s) (mRecvBuffer s) v (mIsPostFlush s) (mRecvData s)
  (mCheckTime s) (mTimer s) (mEnterCallback s) (posted s) (watch_write s) (os s) (app s) (log s).
Definition set_mIsPostFlush (v : bool) (s : st) : st := mk_st (mEventLoop s) (mSocket s)
  (mIsPostFinalClose s) (mCanWrite s) (mRecvBuffer s) (mSendList s) v (mRecvData s) (mCheckTime s)
  (mTimer s) (mEnterCallback s) (posted s) (watch_write s) (os s) (app s) (log s).
Definition set_mRecvData (v : bool) (s : st) : st := mk_st (mEventLoop s) (mSocket s)
  (mIsPostFinalClose s) (mCanWrite s) (mRecvBuffer s) (mSendList s) (mIsPostFlush s) v (mCheckTime
  s) (mTimer s) (mEnterCallback s) (posted s) (watch_write s) (os s) (app s) (log s).
Definition set_mCheckTime (v : Z) (s : st) : st := mk_st (mEventLoop s) (mSocket s)
  (mIsPostFinalClose s) (mCanWrite s) (mRecvBuffer s) (mSendList s) (mIsPostFlush s) (mRecvData s)
  v (mTimer s) (mEnterCallback s) (posted s) (watch_write s) (os s) (app s) (log s).
Definition set_mTimer (v : timer_ref) (s : st) : st := mk_st (mEventLoop s) (mSocket s)
  (mIsPostFinalClose s) (mCanWrite s) (mRecvBuffer s) (mSendList s) (mIsPostFlush s) (mRecvData s)
  (mCheckTime s) v (mEnterCallback s) (posted s) (watch_write s) (os s) (app s) (log s).
Definition set_mEnterCallback (v : bool) (s : st) : st := mk_st (mEventLoop s) (mSocket s)
  (mIsPostFinalClose s) (mCanWrite s) (mRecvBuffer s) (mSendList s) (mIsPostFlush s) (mRecvData s)
  (mCheckTime s) (mTimer s) v (posted s) (watch_write s) (os s) (app s) (log s).
Definition set_posted (v : list after_proc) (s : st) : st := mk_st (mEventLoop s) (mSocket s)
  (mIsPostFinalClose s) (mCanWrite s) (mRecvBuffer s) (mSendList s) (mIsPostFlush s) (mRecvData s)
  (mCheckTime s) (mTimer s) (mEnterCallback s) v (watch_write s) (os s) (app s) (log s).
Definition set_watch_write (v : bool) (s : st) : st := mk_st (mEventLoop s) (mSocket s)
  (mIsPostFinalClose s) (mCanWrite s) (mRecvBuffer s) (mSendList s) (mIsPostFlush s) (mRecvData s)
  (mCheckTime s) (mTimer s) (mEnterCallback s) (posted s) v (os s) (app s) (log s).
Definition set_os (v : W) (s : st) : st := mk_st (mEventLoop s) (mSocket s) (mIsPostFinalClose s)
  (mCanWrite s) (mRecvBuffer s) (mSendList s) (mIsPostFlush s) (mRecvData s) (mCheckTime s)
  (mTimer s) (mEnterCallback s) (posted s) (watch_write s) v (app s) (log s).
Definition set_app (v : A) (s : st) : st := mk_st (mEventLoop s) (mSocket s) (mIsPostFinalClose s)
  (mCanWrite s) (mRecvBuffer s) (mSendList s) (mIsPostFlush s) (mRecvData s) (mCheckTime s)
  (mTimer s) (mEnterCallback s) (posted s) (watch_write s) (os s) v (log s).
Definition set_log (v : list event) (s : st) : st := mk_st (mEventLoop s) (mSocket s)
  (mIsPostFinalClose s) (mCanWrite s) (mRecvBuffer s) (mSendList s) (mIsPostFlush s) (mRecvData s)
  (mCheckTime s) (mTimer s) (mEnterCallback s) (posted s) (watch_write s) (os s) (app s) v.

Context (sys : system) (app_cb : application) (mMaxRecvBufferSize : Z) (fuel : nat).

Abbreviation M := (M st).

Definition emit (e : event) : M unit := upd (fun s => set_log (log s ++ [e]) s).
Definition pushAfterLoopProc (p : after_proc) : M unit := upd (fun s => set_posted (posted s ++ [p]) s).

(** [mSocket->getFD()] *)
Definition getFD : M unit := s <- get;; if mSocket s then ret tt else crash.

(** ** Closing *)

Definition closeSocket : M unit :=
  s <- get;;
  when (mSocket s) (upd (set_mCanWrite false) ;;; upd (set_mSocket false) ;;; emit Closed).

Definition onClose : M unit :=
  s <- get;;
  if mIsPostFinalClose s then ret tt
  else
    pushAfterLoopProc ProcDisConnect ;;;
    closeSocket ;;;
    upd (set_mIsPostFinalClose true).

Definition procCloseInLoop : M unit :=
  s <- get;; if negb (mSocket s) then ret tt else onClose.

Definition procShutdownInLoop : M unit :=
  s <- get;; when (mSocket s) (emit ShutDown ;;; upd (set_mCanWrite false)).

(** ** Interest in events *)

Definition checkRead : M bool := ret true.

Definition checkWrite : M bool := getFD ;;; upd (set_watch_write true) ;;; ret true.

Definition removeCheckWrite : M unit := s <- get;; when (mSocket s) (upd (set_watch_write false)).

(** ** Requests of the application *)

Definition runAfterFlush : M unit :=
  s <- get;;
  when (negb (mIsPostFlush s) && negb (bool_decide (mSendList s = [])) && mSocket s)
    (pushAfterLoopProc ProcFlush ;;; upd (set_mIsPostFlush true)).

(** The procedure that [send] posts, and [sendInLoop]. *)
Definition sendInLoop (packet : bytes) (callback : option C) : M unit :=
  upd (fun s => set_mSendList (mSendList s ++ [mk_pending packet (zlen packet) callback]) s) ;;;
  emit (Queued packet callback) ;;;
  runAfterFlush.

(** [postDisConnect] and [postShutdown], and the procedures that they post; on the
    loop's thread these run at once. *)
Definition postDisConnect : M unit :=
  s <- get;; when (mEventLoop s) procCloseInLoop.

Definition postShutdown : M unit :=
  s <- get;; when (mEventLoop s) (s <- get;; when (mSocket s) (pushAfterLoopProc ProcShutdown)).

Definition startPingCheckTimer : M unit :=
  s <- get;;
  when (bool_decide (mTimer s = NoTimer) && negb (mCheckTime s =? 0)) (upd (set_mTimer Waiting)).

Definition PingCheck : M unit :=
  s <- get;;
  if mRecvData s then upd (set_mRecvData false) ;;; startPingCheckTimer
  else procCloseInLoop.

Definition setHeartBeat (checkTime : Z) : M unit :=
  upd (set_mTimer NoTimer) ;;;
  upd (set_mCheckTime checkTime) ;;;
  when (negb (checkTime =? 0)) startPingCheckTimer.

Definition act (a : action) : M unit :=
  match a with
  | Send packet callback => sendInLoop packet callback
  | PostDisConnect => postDisConnect
  | PostShutdown => postShutdown
  | SetHeartBeat t => setHeartBeat t
  end.

Fixpoint act_all (l : list action) : M unit :=
  match l with [] => ret tt | a :: l => act a ;;; act_all l end.

(** ** Receiving *)

Definition GROW_BUFFER_SIZE : Z := 1024.

Definition growRecvBuffer : M unit :=
  s <- get;;
  let old := mRecvBuffer s in
  when (ox_buffer_getsize old + GROW_BUFFER_SIZE <=? mMaxRecvBufferSize)
    (new <- lift (ox_buffer_new true (malloc sys) (ox_buffer_getsize old + GROW_BUFFER_SIZE));;
     unread <- lift (load (b_data old) (b_read_pos old) (ox_buffer_getreadvalidcount old));;
     r <- lift (ox_buffer_write 2 new unread (ox_buffer_getreadvalidcount old));;
     upd (set_mRecvBuffer (snd r))).

(** The kernel writes the bytes behind the write position. *)
Definition fill (b : bytes) (buf : buffer_s) : option buffer_s :=
  ptr ← ox_buffer_getwriteptr buf;
  block ← memcpy (b_data buf) ptr b;
  Some (ox_buffer_addwritepos (set_b_data block buf) (zlen b)).

(** The call of [mDataCallback] with the unread bytes, then what it consumed is
    dropped; an assertion checks that it is not more than there was. *)
Definition deliver (cb : bytes -> A -> Z * list action * A) : M unit :=
  upd (set_mRecvData true) ;;;
  s <- get;;
  let buf := mRecvBuffer s in
  ptr <- lift (ox_buffer_getreadptr buf);;
  unread <- lift (load (b_data buf) ptr (ox_buffer_getreadvalidcount buf));;
  let '(proclen, acts, a') := cb unread (app s) in
  upd (set_app a') ;;;
  emit (Delivered unread proclen) ;;;
  act_all acts ;;;
  s <- get;;
  if proclen <=? ox_buffer_getreadvalidcount (mRecvBuffer s)
  then upd (set_mRecvBuffer (ox_buffer_addreadpos (mRecvBuffer s) proclen))
  else crash.

(** The loop of [recv]; the result is [must_close]. *)
Fixpoint recv_loop (fuel : nat) : M bool :=
  match fuel with
  | O => no_fuel
  | S fuel =>
      s <- get;;
      if negb (mSocket s) then ret false
      else
        let tryRecvLen := ox_buffer_getwritevalidcount (mRecvBuffer s) in
        if tryRecvLen =? 0 then ret false
        else
          let '(r, w) := sys_recv sys tryRecvLen (os s) in
          upd (set_os w) ;;;
          match r with
          | RecvEof => ret true
          | RecvError would_block =>
              if negb would_block then ret true else ok <- checkRead;; ret (negb ok)
          | RecvData b =>
              emit (Received b) ;;;
              buf <- lift (fill b (mRecvBuffer s));;
              upd (set_mRecvBuffer buf) ;;;
              when (ox_buffer_getreadvalidcount buf =? ox_buffer_getsize buf) growRecvBuffer ;;;
              match onData app_cb with Some cb => deliver cb | None => ret tt end ;;;
              s <- get;;
              let buf := mRecvBuffer s in
              when ((ox_buffer_getwritevalidcount buf =? 0) || (ox_buffer_getreadvalidcount buf =? 0))
                (buf' <- lift (ox_buffer_adjustto_head buf);; upd (set_mRecvBuffer buf')) ;;;
              if zlen b <? tryRecvLen then ok <- checkRead;; ret (negb ok)
              else recv_loop fuel
          end
  end.

Definition recv : M unit :=
  must_close <- recv_loop fuel;; when must_close procCloseInLoop.

(** ** Sending *)

Definition MAX_IOVEC : nat := 1024.

(** The bytes of a packet that are still to be sent. *)
Definition rest (b : pending_packet) : bytes := drop (Z.to_nat (zlen (data b) - left b)) (data b).

Definition ready_send_len (l : list pending_packet) : Z :=
  fold_left (fun n b => s32 (n + left b)) l 0.

(** The iterator into [mSendList], a [std::deque], when [n] packets were in it: [push_back]
    invalidates it, and then [erase] has no defined behaviour. *)
Definition use_iterator (n : nat) : M unit :=
  s <- get;; if (length (mSendList s) =? n)%nat then ret tt else crash.

(** The loop over the packets of which [tmp_len] bytes were sent. The iterator is kept over
    the completion callback and used to take the packet off. *)
Fixpoint complete (fuel : nat) (tmp_len : Z) : M unit :=
  match fuel with
  | O => no_fuel
  | S fuel =>
      s <- get;;
      match mSendList s with
      | [] => ret tt
      | b :: l =>
          if tmp_len <? left b
          then upd (set_mSendList (mk_pending (data b) (left b - tmp_len) (mCompleteCallback b) :: l))
          else
            match mCompleteCallback b with
            | Some c =>
                let '(acts, a') := onComplete app_cb c (app s) in
                upd (set_app a') ;;; emit (Completed c) ;;; act_all acts
            | None => ret tt
            end ;;;
            use_iterator (length (b :: l)) ;;;
            upd (fun s => set_mSendList (tail (mSendList s)) s) ;;;
            complete fuel (tmp_len - left b)
      end
  end.

(** The loop of [quickFlush]; the result is [must_close]. *)
Fixpoint flush_loop (fuel : nat) : M bool :=
  match fuel with
  | O => no_fuel
  | S fuel =>
      s <- get;;
      match mSendList s with
      | [] => ret false
      | _ =>
          let batch := take MAX_IOVEC (mSendList s) in
          getFD ;;;
          let '(send_len, would_block, w) := sys_writev sys (map rest batch) (os s) in
          upd (set_os w) ;;;
          if send_len <=? 0 then
            if would_block then upd (set_mCanWrite false) ;;; ok <- checkWrite;; ret (negb ok)
            else ret true
          else
            emit (Sent (take (Z.to_nat send_len) (concat (map rest batch)))) ;;;
            complete fuel send_len ;;;
            if negb (send_len =? ready_send_len batch)
            then upd (set_mCanWrite false) ;;; ok <- checkWrite;; ret (negb ok)
            else flush_loop fuel
      end
  end.

Definition quickFlush : M unit :=
  must_close <- flush_loop fuel;; when must_close procCloseInLoop.

Definition flush : M unit :=
  s <- get;; if negb (mCanWrite s) || negb (mSocket s) then ret tt else quickFlush.

(** ** Events *)

Definition canRecv : M unit := recv.

Definition canSend : M unit :=
  removeCheckWrite ;;; upd (set_mCanWrite true) ;;; runAfterFlush.

(** [nonblock] and [linked]: the results of [SocketNonblock] and [linkChannel]. *)
Definition onEnterEventLoop (nonblock linked : bool) : M bool :=
  s <- get;;
  if mEventLoop s then crash
  else
    upd (set_mEventLoop true) ;;;
    getFD ;;;
    if negb nonblock then closeSocket ;;; ret false
    else if negb linked then closeSocket ;;; ret false
    else
      ok <- checkRead;;
      if negb ok then closeSocket ;;; ret false
      else
        s <- get;;
        when (mEnterCallback s)
          (let '(acts, a') := onEnter app_cb (app s) in
           upd (set_app a') ;;; act_all acts ;;; upd (set_mEnterCallback false)) ;;;
        ret true.

(** The constructor with a connected socket. *)
Definition new (enter : bool) (a : A) (w : W) : option st :=
  buf ← ox_buffer_new true (malloc sys) (16 * 1024 + GROW_BUFFER_SIZE);
  Some (mk_st false true false true buf [] false false 0 NoTimer enter [] false w a []).

(** The procedures posted to the loop. *)
Definition run_after (p : after_proc) : M unit :=
  match p with
  | ProcFlush => upd (set_mIsPostFlush false) ;;; flush
  | ProcDisConnect => when (hasDisConnectCallback app_cb) (emit Disconnected)
  | ProcShutdown => procShutdownInLoop
  end.

(** What the event loop does with the socket: requests of other threads, epoll
    events ([InHup]: EPOLLRDHUP), the first of the posted procedures, the timer. *)
Inductive input :=
  | InRequest (a : action) | InRecv | InSend | InHup | InAfter | InTimer.

Definition run_input (i : input) : M unit :=
  match i with
  | InRequest a => act a
  | InRecv => canRecv
  | InSend => canSend
  | InHup => canRecv ;;; onClose
  | InAfter =>
      s <- get;;
      match posted s with [] => ret tt | p :: ps => upd (set_posted ps) ;;; run_after p end
  | InTimer =>
      s <- get;;
      match mTimer s with
      | Waiting =>
          (* TimerMgr::schedule holds the timer while its callback runs *)
          upd (set_mTimer Firing) ;;; PingCheck ;;;
          upd (fun s => match mTimer s with Firing => set_mTimer NoTimer s | _ => s end)
      | _ => ret tt
      end
  end.

Fixpoint run_inputs (l : list input) : M unit :=
  match l with [] => ret tt | i :: l => run_input i ;;; run_inputs l end.
End Socket.
