(* ===== verification/DataSocketSafe.v ===== *)
(** * The invariants of a connection

    Every operation of DataSocket.v, with callbacks that send, close and shut down
    from inside, keeps the byte streams in both directions intact, keeps a
    flush posted while there is something to flush, and announces the end of
    the connection once and last. *)

From S2P Require Import Prelude.
From S2P Require Import Words.
From S2P Require Import Buffer.
From S2P Require Import Outcome.
From S2P Require Import DataSocket.
#[local] Open Scope outcome_scope.

(** ** What the log says *)

Section Log.
Context {C : Type}.

Definition queued : list (event (C := C)) -> list (bytes * option C) :=
  flat_map (fun e => match e with Queued p c => [(p, c)] | _ => [] end).
Definition sent : list (event (C := C)) -> bytes :=
  flat_map (fun e => match e with Sent b => b | _ => [] end).
Definition completed : list (event (C := C)) -> list C :=
  flat_map (fun e => match e with Completed c => [c] | _ => [] end).
Definition received : list (event (C := C)) -> bytes :=
  flat_map (fun e => match e with Received b => b | _ => [] end).
Definition consumed : list (event (C := C)) -> bytes :=
  flat_map (fun e => match e with Delivered b n => take (Z.to_nat n) b | _ => [] end).
Definition disconnects : list (event (C := C)) -> list unit :=
  flat_map (fun e => match e with Disconnected => [tt] | _ => [] end).

(** At each delivery the application saw exactly what it had not consumed yet. *)
Definition deliveries_ok (l : list (event (C := C))) : Prop :=
  forall l1 b n l2, l = l1 ++ Delivered b n :: l2 -> received l1 = consumed l1 ++ b.

(** The packets whose bytes are not all sent, and their bytes. *)
Definition packet (b : pending_packet (C := C)) : bytes * option C := (data b, mCompleteCallback b).
Definition unsent (l : list (pending_packet (C := C))) : bytes := concat (map rest l).

Definition flushes (l : list after_proc) : list unit :=
  flat_map (fun p => match p with ProcFlush => [tt] | _ => [] end) l.

Lemma flat_map_snoc {X Y} (f : X -> list Y) l x : flat_map f (l ++ [x]) = flat_map f l ++ f x.
Proof. rewrite flat_map_app. simpl. by rewrite app_nil_r. Qed.

Lemma deliveries_snoc l e :
  deliveries_ok l -> match e with Delivered b _ => received l = consumed l ++ b | _ => True end ->
  deliveries_ok (l ++ [e]).
Proof.
  intros Hl He l1 b n l2 E. destruct l2 as [|x l2] using rev_ind.
  - change (l1 ++ [Delivered b n]) with (l1 ++ [Delivered b n]) in E.
    apply app_inj_tail in E as [-> ->]. exact He.
  - clear IHl2. rewrite app_comm_cons, app_assoc in E. apply app_inj_tail in E as [-> _].
    by apply (Hl l1 b n l2).
Qed.
End Log.

(** Operations without loops, where a crash is admitted. *)
Ltac quiet_steps :=
  repeat first [ out_step | apply holds_when; intros ? | apply holds_lift; [reflexivity|intros ? ?]
    | apply holds_crash; reflexivity
    | match goal with
      | |- holds _ (if ?b then _ else _) _ _ => destruct b
      | |- holds _ (let '_ := ?x in _) _ _ => destruct x
      end ].

Section Invariant.
Context {W A C : Type}.
Implicit Types s : st (W := W) (A := A) (C := C).

(** ** The invariant

    In [flush], [credit] bytes at the front of the queue have been sent but are
    not yet taken off, and [heads] is 1 when the first packet's callback has been
    called while the packet is still there. *)
Record inv_send (credit : Z) (heads : nat) s : Prop := mk_inv_send {
  is_packets : exists done, (queued (log s) = done ++ map packet (mSendList s)) /\
    (completed (log s) = omap snd (done ++ take heads (map packet (mSendList s))));
  is_heads : (heads <= length (mSendList s))%nat;
  is_bytes : (sent (log s) ++ drop (Z.to_nat credit) (unsent (mSendList s)) =
    concat (map fst (queued (log s))));
  is_credit : 0 <= credit <= zlen (unsent (mSendList s));
  is_left : Forall (fun b => 0 <= left b <= zlen (data b)) (mSendList s) }.

(** [reported] bytes of the buffer have been consumed but are not yet dropped. *)
Record inv_recv (reported : Z) s : Prop := mk_inv_recv {
  ir_buf : buffer_wf (mRecvBuffer s);
  ir_bytes : received (log s) = consumed (log s) ++ drop (Z.to_nat reported) (contents (mRecvBuffer s));
  ir_seen : deliveries_ok (log s) }.

(** [flushing]: inside [flush], which need not be posted again. *)
Record inv_sched (flushing : bool) s : Prop := mk_inv_sched {
  ic_posted : flushes (posted s) = if mIsPostFlush s then [tt] else [];
  ic_flush : flushing = false -> mSendList s <> [] -> mSocket s = true -> mCanWrite s = true ->
    mIsPostFlush s = true;
  ic_watch : mSocket s = true -> mCanWrite s = false -> watch_write s = true \/ ShutDown ∈ log s }.

Definition inv_close s : Prop :=
  if mIsPostFinalClose s then
    mSocket s = false /\
    ((exists ps, (posted s = ps ++ [ProcDisConnect]) /\ (ProcDisConnect ∉ ps) /\ disconnects (log s) = []) \/
     (posted s = []) /\ (length (disconnects (log s)) <= 1)%nat)
  else (ProcDisConnect ∉ posted s) /\ disconnects (log s) = [].

Definition inv (flushing : bool) (credit : Z) (heads : nat) (reported : Z) s : Prop :=
  inv_send credit heads s /\ inv_recv reported s /\ inv_sched flushing s /\ inv_close s.


(** ** Steps that leave a part of the invariant alone *)

Lemma send_ext c h s s' :
  mSendList s' = mSendList s -> queued (log s') = queued (log s) -> sent (log s') = sent (log s) ->
  completed (log s') = completed (log s) -> inv_send c h s -> inv_send c h s'.
Proof. intros E1 E2 E3 E4 []. constructor; rewrite ?E1, ?E2, ?E3, ?E4; done. Qed.

Lemma recv_ext r s s' :
  mRecvBuffer s' = mRecvBuffer s -> received (log s') = received (log s) ->
  consumed (log s') = consumed (log s) -> deliveries_ok (log s') -> inv_recv r s -> inv_recv r s'.
Proof. intros E1 E2 E3 H []. constructor; rewrite ?E1, ?E2, ?E3; done. Qed.

Lemma sched_ext f s s' :
  posted s' = posted s -> mIsPostFlush s' = mIsPostFlush s -> mSendList s' = mSendList s ->
  mSocket s' = mSocket s -> mCanWrite s' = mCanWrite s -> watch_write s' = watch_write s ->
  (ShutDown ∈ log s -> ShutDown ∈ log s') -> inv_sched f s -> inv_sched f s'.
Proof.
  intros E1 E2 E3 E4 E5 E6 H [H1 H2 H3]. constructor; rewrite ?E1, ?E2, ?E3, ?E4, ?E5, ?E6; auto.
  intros Hs Hw. destruct (H3 Hs Hw); auto.
Qed.

Lemma close_ext s s' :
  mIsPostFinalClose s' = mIsPostFinalClose s -> mSocket s' = mSocket s -> posted s' = posted s ->
  disconnects (log s') = disconnects (log s) -> inv_close s -> inv_close s'.
Proof. unfold inv_close. by intros -> -> -> ->. Qed.

Lemma shut_snoc s (e : event) : ShutDown ∈ log s -> ShutDown ∈ log s ++ [e].
Proof. intros. apply elem_of_app. by left. Qed.

(** The events that only tell about the connection. *)
Definition quiet (e : event (C := C)) : Prop :=
  match e with ShutDown | Closed => True | _ => False end.

Lemma quiet_log e (l : list event) : quiet e ->
  queued (l ++ [e]) = queued l /\ sent (l ++ [e]) = sent l /\ completed (l ++ [e]) = completed l /\
  received (l ++ [e]) = received l /\ consumed (l ++ [e]) = consumed l /\
  disconnects (l ++ [e]) = disconnects l /\ (deliveries_ok l -> deliveries_ok (l ++ [e])).
Proof.
  intros He. unfold queued, sent, completed, received, consumed, disconnects.
  rewrite !flat_map_snoc. destruct e; try done; rewrite !app_nil_r; split_and!; try done;
    intros; by apply deliveries_snoc.
Qed.

Context (sys : system (W := W)) (app_cb : application (A := A) (C := C)) (mMax : Z) (fuel : nat).

Lemma keep_closeSocket k f c h r s :
  inv f c h r s -> holds k closeSocket (fun _ s' => inv f c h r s' /\ mSocket s' = false) s.
Proof.
  intros (Hs & Hr & Hc & Hx). unfold closeSocket, emit. out_steps.
  apply holds_when; intros E; [|by split].
  out_steps. destruct (quiet_log Closed (log s) I) as (L1 & L2 & L3 & L4 & L5 & L6 & L7).
  split; [|done]. split_and!.
  - by apply (send_ext c h s).
  - apply (recv_ext r s); try done. apply L7, Hr.
  - destruct Hc as [H1 H2 H3]. constructor; simpl; [done| |]; done.
  - unfold inv_close in *. simpl. rewrite L6. destruct (mIsPostFinalClose s); [|exact Hx].
    split; [done|apply Hx].
Qed.

Lemma keep_onClose k f c h r s :
  inv f c h r s -> holds k onClose (fun _ s' => inv f c h r s' /\ mSocket s' = false) s.
Proof.
  intros (Hs & Hr & Hc & Hx). unfold onClose, pushAfterLoopProc. out_steps.
  unfold inv_close in Hx. destruct (mIsPostFinalClose s) eqn:E.
  { out_steps. split; [|apply Hx]. split_and!; try done. unfold inv_close. by rewrite E. }
  destruct Hx as [Hp Hd]. out_steps. unfold closeSocket, emit. out_steps. apply holds_when; intros Es; simpl in *.
  - out_steps. destruct (quiet_log Closed (log s) I) as (L1 & L2 & L3 & L4 & L5 & L6 & L7).
    split; [|done]. split_and!.
    + by apply (send_ext c h s).
    + apply (recv_ext r s); try done. apply L7, Hr.
    + destruct Hc as [H1 H2 H3]. constructor; simpl; [|done..].
      unfold flushes in *. rewrite flat_map_snoc, app_nil_r. done.
    + split; [done|]. left. exists (posted s). split; [done|split; [done|exact (eq_trans L6 Hd)]].
  - out_steps. split; [|done]. split_and!.
    + by apply (send_ext c h s).
    + apply (recv_ext r s); try done. apply Hr.
    + destruct Hc as [H1 H2 H3]. constructor; simpl; [|by rewrite Es|by rewrite Es].
      unfold flushes in *. rewrite flat_map_snoc, app_nil_r. done.
    + split; [done|]. left. by exists (posted s).
Qed.

Lemma keep_procCloseInLoop k f c h r s :
  inv f c h r s -> holds k procCloseInLoop (fun _ s' => inv f c h r s' /\ mSocket s' = false) s.
Proof.
  intros Hi. unfold procCloseInLoop. out_steps. destruct (mSocket s) eqn:E; [by apply keep_onClose|].
  by out_steps.
Qed.

Lemma keep_procShutdownInLoop k f c h r s :
  inv f c h r s -> holds k procShutdownInLoop (fun _ s' => inv f c h r s') s.
Proof.
  intros (Hs & Hr & Hc & Hx). unfold procShutdownInLoop, emit. out_steps.
  apply holds_when; intros E; [|by split]. out_steps.
  destruct (quiet_log ShutDown (log s) I) as (L1 & L2 & L3 & L4 & L5 & L6 & L7). split_and!.
  - by apply (send_ext c h s).
  - apply (recv_ext r s); try done. apply L7, Hr.
  - destruct Hc as [H1 H2 H3]. constructor; simpl; [done|done|]. intros _ _. right.
    apply elem_of_app. right. by left.
  - by apply (close_ext s).
Qed.

(** What is in the queue with an open socket is flushed later. *)
Lemma keep_runAfterFlush k f c h r s :
  inv true c h r s -> holds k runAfterFlush (fun _ s' => inv f c h r s' /\ mSocket s' = mSocket s) s.
Proof.
  intros (Hs & Hr & Hc & Hx). unfold runAfterFlush, pushAfterLoopProc. out_steps.
  destruct Hc as [H1 H2 H3]. apply holds_when; intros E.
  - rewrite !andb_true_iff, !negb_true_iff in E. destruct E as [[E1 E2] E3]. out_steps.
    split; [|done]. split_and!.
    + by apply (send_ext c h s).
    + apply (recv_ext r s); try done. apply Hr.
    + constructor; simpl; [|done|done]. unfold flushes in *. rewrite flat_map_snoc, H1, E1. done.
    + unfold inv_close in *. simpl. destruct (mIsPostFinalClose s); [by destruct Hx; congruence|].
      split; [|apply Hx]. rewrite elem_of_app, list_elem_of_singleton. intros [?|?]; [by apply Hx|done].
  - split; [|done]. split_and!; try done. constructor; [done| |done]. intros _ Hq Hso _.
    rewrite !andb_false_iff, !negb_false_iff in E. destruct E as [[E|E]|E]; [done| |congruence].
    by apply bool_decide_eq_true in E.
Qed.

Lemma flushing_weaken f c h r s : inv f c h r s -> inv true c h r s.
Proof. intros (Hs & Hr & [H1 H2 H3] & Hx). by split_and!. Qed.

Lemma rest_new p (cb : option C) : rest (mk_pending p (zlen p) cb) = p.
Proof. unfold rest. simpl. by rewrite Z.sub_diag. Qed.

Lemma unsent_snoc (l : list (pending_packet (C := C))) b : unsent (l ++ [b]) = unsent l ++ rest b.
Proof. unfold unsent. rewrite map_app, concat_app. simpl. by rewrite app_nil_r. Qed.

Lemma keep_sendInLoop k f c h r s p cb :
  inv f c h r s -> holds k (sendInLoop p cb) (fun _ s' => inv f c h r s' /\ mSocket s' = mSocket s) s.
Proof.
  intros (Hs & Hr & Hc & Hx). unfold sendInLoop, emit. out_steps.
  eapply holds_mono; [apply (keep_runAfterFlush k f c h r)|by intros].
  assert (L : queued (log s ++ [Queued p cb]) = queued (log s) ++ [(p, cb)] /\
    sent (log s ++ [Queued p cb]) = sent (log s) /\ completed (log s ++ [Queued p cb]) = completed (log s) /\
    received (log s ++ [Queued p cb]) = received (log s) /\
    consumed (log s ++ [Queued p cb]) = consumed (log s) /\
    disconnects (log s ++ [Queued p cb]) = disconnects (log s)).
  { unfold queued, sent, completed, received, consumed, disconnects. rewrite !flat_map_snoc, !app_nil_r.
    done. }
  destruct L as (L1 & L2 & L3 & L4 & L5 & L6). split_and!.
  - destruct Hs as [(done & H1 & H2) H3 H4 H5 H6]. constructor; simpl.
    + exists done. rewrite L1, L3, H1, map_app, <- app_assoc. split; [done|].
      rewrite take_app_le by (rewrite length_map; lia). done.
    + rewrite length_app. lia.
    + rewrite L1, L2, unsent_snoc, rest_new, map_app, concat_app. simpl. rewrite app_nil_r, <- H4.
      rewrite drop_app_le by (unfold zlen in *; lia). by rewrite app_assoc.
    + rewrite unsent_snoc, zlen_app. pose proof (zlen_nonneg (rest (mk_pending p (zlen p) cb))). lia.
    + apply Forall_app. split; [done|]. constructor; [|done]. simpl. pose proof (zlen_nonneg p). lia.
  - apply (recv_ext r s); try done. apply deliveries_snoc; [apply Hr|done].
  - destruct Hc as [H1 H2 H3]. constructor; simpl; [done|done|]. intros Hso Hw.
    destruct (H3 Hso Hw); [by left|right]. by apply shut_snoc.
  - by apply (close_ext s).
Qed.

Lemma keep_startPingCheckTimer k f c h r s :
  inv f c h r s -> holds k startPingCheckTimer (fun _ s' => inv f c h r s' /\ mSocket s' = mSocket s) s.
Proof.
  intros (Hs & Hr & Hc & Hx). unfold startPingCheckTimer. out_steps. apply holds_when; intros E; [|by split_and!].
  out_steps. split; [|done]. split_and!;
    [by apply (send_ext c h s)|apply (recv_ext r s); try done; apply Hr|by apply (sched_ext f s)|by apply (close_ext s)].
Qed.

Lemma timer_inv f c h r s t v :
  inv f c h r s -> inv f c h r (set_mTimer t s) /\ inv f c h r (set_mCheckTime v s) /\
    forall b, inv f c h r (set_mRecvData b s).
Proof.
  intros (Hs & Hr & Hc & Hx). split; [|split; [|intros b]]; split_and!;
    first [by apply (send_ext c h s)|apply (recv_ext r s); try done; apply Hr|by apply (sched_ext f s)|by apply (close_ext s)].
Qed.

Lemma keep_act k f c h r s a :
  inv f c h r s ->
  holds k (act a) (fun _ s' => inv f c h r s' /\ (a <> PostDisConnect -> mSocket s' = mSocket s)) s.
Proof.
  intros Hi. destruct a as [p cb| | |t]; simpl act.
  - eapply holds_mono; [by apply keep_sendInLoop|]. intros _ s' []. by split.
  - unfold postDisConnect. out_steps. apply holds_when; intros E; [|by split].
    eapply holds_mono; [by apply keep_procCloseInLoop|]. intros _ s' []. by split.
  - unfold postShutdown. out_steps. apply holds_when; intros E; [|by split]. out_steps.
    apply holds_when; intros E'; [|by split]. unfold pushAfterLoopProc. out_steps. split; [|done].
    destruct Hi as (Hs & Hr & [H1 H2 H3] & Hx). split_and!.
    + by apply (send_ext c h s).
    + apply (recv_ext r s); try done. apply Hr.
    + constructor; simpl; [|done|done]. unfold flushes in *. rewrite flat_map_snoc, app_nil_r. done.
    + unfold inv_close in *. simpl. destruct (mIsPostFinalClose s); [by destruct Hx; congruence|].
      split; [|apply Hx]. rewrite elem_of_app, list_elem_of_singleton. intros [?|?]; [by apply Hx|done].
  - unfold setHeartBeat. out_steps. destruct (timer_inv f c h r s NoTimer 0 Hi) as (H1 & _ & _).
    destruct (timer_inv f c h r _ NoTimer t H1) as (_ & H2 & _).
    apply holds_when; intros E; [|by split].
    eapply holds_mono; [by apply keep_startPingCheckTimer|]. intros _ s' [H3 H4]. split; [done|]. by intros.
Qed.

Lemma keep_act_all k f c h r l : forall s,
  inv f c h r s ->
  holds k (act_all l) (fun _ s' => inv f c h r s' /\ (PostDisConnect ∉ l -> mSocket s' = mSocket s)) s.
Proof.
  induction l as [|a l IH]; intros s Hi; [by split|]. cbn [act_all]. out_steps.
  eapply holds_mono; [by apply keep_act|]. intros _ s1 [H1 E1].
  eapply holds_mono; [by apply IH|]. intros _ s2 [H2 E2]. split; [done|].
  intros [Hn Hl]%not_elem_of_cons. rewrite E2 by done. by apply E1.
Qed.

(** What a completion callback may ask for while the iterator of [flush] is in use: not to send, and not
    to close. *)
Definition is_send (a : action (C := C)) : bool := match a with Send _ _ => true | _ => false end.
Definition harmless (a : action (C := C)) : Prop := is_send a = false /\ a <> PostDisConnect.

Lemma act_queue l : forall s, Forall (fun x => is_send x = false) l ->
  holds true (act_all l) (fun _ s' => mSendList s' = mSendList s) s.
Proof.
  induction l as [|a l IH]; intros s Hl; [done|]. apply Forall_cons in Hl as [Ha Hl].
  cbn [act_all]. out_steps.
  eapply holds_mono with (Q := fun _ s1 => mSendList s1 = mSendList s);
    [|intros _ s1 E; eapply holds_mono; [by apply IH|]; intros _ s2 ->; done].
  destruct a; try done; simpl act; unfold postDisConnect, postShutdown, setHeartBeat, procCloseInLoop,
    onClose, closeSocket, startPingCheckTimer, pushAfterLoopProc, emit; quiet_steps; done.
Qed.

(** ** Receiving *)

Context (k : bool).
Context (malloc_size : forall n b, malloc sys n = Some b -> zlen b = n).
Context (malloc_ok : k = false -> forall n, 0 <= n -> malloc sys n <> None).
Context (max_size : mMax <= SIZE_MAX).
Context (recv_size : forall n w b w', sys_recv sys n w = (RecvData b, w') -> 0 < zlen b <= n).
Context (writev_size : forall l w n e w', sys_writev sys l w = (n, e, w') -> n <= zlen (concat l)).
Context (data_nonneg : forall cb b a, onData app_cb = Some cb -> 0 <= (cb b a).1.1).
Context (data_size : k = false -> forall cb b a, onData app_cb = Some cb -> (cb b a).1.1 <= zlen b).
Context (complete_harmless : k = false -> forall c a, Forall harmless (onComplete app_cb c a).1).

Lemma set_buffer_inv f c h r s buf :
  inv f c h r s -> buffer_wf buf -> contents buf = contents (mRecvBuffer s) ->
  inv f c h r (set_mRecvBuffer buf s).
Proof.
  intros (Hs & [R1 R2 R3] & Hc & Hx) Hw E. split_and!;
    [by apply (send_ext c h s)| |by apply (sched_ext f s)|by apply (close_ext s)].
  constructor; simpl; [done|by rewrite E|done].
Qed.

Lemma keep_growRecvBuffer f c h r s :
  inv f c h r s ->
  holds k (growRecvBuffer sys mMax) (fun _ s' => inv f c h r s' /\ mSocket s' = mSocket s /\
    contents (mRecvBuffer s') = contents (mRecvBuffer s)) s.
Proof.
  intros Hi. unfold growRecvBuffer. out_steps. set (old := mRecvBuffer s).
  assert (Hw : buffer_wf old) by apply Hi.
  apply holds_when; intros E; [|by split]. apply Z.leb_le in E.
  unfold ox_buffer_getsize, GROW_BUFFER_SIZE in *. out_steps.
  pose proof (wf_read old Hw). pose proof (wf_write old Hw). pose proof (wf_size old Hw).
  apply holds_lift; [intros E1; destruct k eqn:Ek; [done|exfalso]|intros new Enew].
  { unfold ox_buffer_new in E1. destruct (malloc sys _) eqn:Em; [done|].
    apply (malloc_ok eq_refl) in Em; [done|lia]. }
  out_steps. assert (Hn : 0 <= b_data_len old + 1024 <= SIZE_MAX) by lia.
  destruct (new_wf (malloc sys) (b_data_len old + 1024) new Hn malloc_size Enew) as [Wn An].
  rewrite (readvalidcount_wf old Hw), (load_wf old Hw) by lia. fold (contents old).
  apply holds_lift; [done|]. intros ? [= <-]. out_steps. rewrite <- (zlen_contents old Hw).
  destruct (write_spec new (contents old) Wn) as (ok & new' & Ew & Wn' & Aw).
  { rewrite (zlen_contents old Hw). lia. }
  rewrite Ew. apply holds_lift; [done|]. intros ? [= <-]. out_steps. cbn [snd].
  assert (Ec : contents new' = contents old).
  { rewrite An in Aw. unfold bq_push in Aw. cbn [q_bytes q_cap] in Aw.
    change (zlen []) with 0 in Aw. rewrite (proj2 (Z.leb_le _ _)) in Aw by (rewrite (zlen_contents old Hw); lia).
    by injection Aw as _ _ Aw. }
  split; [by apply set_buffer_inv|by split].
Qed.

Lemma fill_wf b buf :
  buffer_wf buf -> 0 < zlen b <= ox_buffer_getwritevalidcount buf ->
  exists buf', fill b buf = Some buf' /\ buffer_wf buf' /\ contents buf' = contents buf ++ b.
Proof.
  intros Hw Hb. rewrite (writevalidcount_wf buf Hw) in Hb.
  destruct (write_direct buf 0 b Hw) as (buf' & E & Wb & _ & _ & Ec); [lia|].
  exists buf'. split; [|by split]. unfold fill. cbn [ox_buffer_write] in E.
  rewrite (writevalidcount_wf buf Hw), (proj2 (Z.leb_le _ _)), load_ok in E by lia.
  cbn [mbind option_bind] in E. rewrite slice_all in E.
  unfold ox_buffer_getwriteptr in *. rewrite (proj2 (Z.ltb_lt _ _)) in * by lia.
  cbn [mbind option_bind] in *. revert E. destruct (memcpy (b_data buf) (b_write_pos buf) b); [|done].
  intros E. injection E as E. by rewrite <- E.
Qed.

Lemma filled_inv f c h s b buf :
  inv f c h 0 s -> buffer_wf buf -> contents buf = contents (mRecvBuffer s) ++ b ->
  inv f c h 0 (set_mRecvBuffer buf (set_log (log s ++ [Received b]) s)).
Proof.
  intros (Hs & [R1 R2 R3] & Hc & Hx) Hw E.
  assert (L : queued (log s ++ [Received b]) = queued (log s) /\ sent (log s ++ [Received b]) = sent (log s) /\
    completed (log s ++ [Received b]) = completed (log s) /\
    received (log s ++ [Received b]) = received (log s) ++ b /\
    consumed (log s ++ [Received b]) = consumed (log s) /\
    disconnects (log s ++ [Received b]) = disconnects (log s)).
  { unfold queued, sent, completed, received, consumed, disconnects. by rewrite !flat_map_snoc, !app_nil_r. }
  destruct L as (L1 & L2 & L3 & L4 & L5 & L6). split_and!.
  - by apply (send_ext c h s).
  - constructor; simpl; [done| |by apply deliveries_snoc].
    change (drop (Z.to_nat 0) ?l) with l in *. by rewrite L4, L5, R2, E, app_assoc.
  - apply (sched_ext f s); try done. apply shut_snoc.
  - by apply (close_ext s).
Qed.


Lemma emit_delivered_inv f c h s unread n a :
  inv f c h 0 s -> contents (mRecvBuffer s) = unread ->
  inv f c h n (set_log (log (set_app a s) ++ [Delivered unread n]) (set_app a s)).
Proof.
  intros (Hs & [R1 R2 R3] & Hc & Hx) E. set (e := Delivered unread n).
  change (drop (Z.to_nat 0) ?l) with l in R2.
  assert (L : queued (log s ++ [e]) = queued (log s) /\ sent (log s ++ [e]) = sent (log s) /\
    completed (log s ++ [e]) = completed (log s) /\ received (log s ++ [e]) = received (log s) /\
    consumed (log s ++ [e]) = consumed (log s) ++ take (Z.to_nat n) unread /\
    disconnects (log s ++ [e]) = disconnects (log s)).
  { unfold queued, sent, completed, received, consumed, disconnects. by rewrite !flat_map_snoc, !app_nil_r. }
  destruct L as (L1 & L2 & L3 & L4 & L5 & L6). split_and!.
  - by apply (send_ext c h s).
  - constructor; simpl; [done| |apply deliveries_snoc; [done|]].
    + by rewrite L4, L5, E, <- app_assoc, take_drop, R2, E.
    + by rewrite R2, E.
  - apply (sched_ext f s); try done. exact (shut_snoc s e).
  - by apply (close_ext s).
Qed.

Lemma dropped_inv f c h s n :
  inv f c h n s -> 0 <= n <= zlen (contents (mRecvBuffer s)) ->
  inv f c h 0 (set_mRecvBuffer (ox_buffer_addreadpos (mRecvBuffer s) n) s).
Proof.
  intros (Hs & [R1 R2 R3] & Hc & Hx) Hn. destruct (addreadpos_spec _ n R1 Hn) as [Hw Ha].
  apply (f_equal q_bytes) in Ha. split_and!;
    [by apply (send_ext c h s)| |by apply (sched_ext f s)|by apply (close_ext s)].
  constructor; simpl; [done| |done]. rewrite R2. f_equal. symmetry. exact Ha.
Qed.

(** A callback of the application does not touch the receive buffer. *)
Lemma act_buffer l : forall (s : st),
  holds true (act_all l) (fun _ s' => mRecvBuffer s' = mRecvBuffer s) s.
Proof.
  induction l as [|a l IH]; intros s; [done|]. cbn [act_all]. out_steps.
  eapply holds_mono with (Q := fun _ s1 => mRecvBuffer s1 = mRecvBuffer s);
    [|intros _ s1 E; eapply holds_mono; [apply IH|]; intros _ s2 ->; done].
  destruct a; simpl act; unfold sendInLoop, postDisConnect, postShutdown, setHeartBeat, procCloseInLoop,
    onClose, closeSocket, runAfterFlush, startPingCheckTimer, pushAfterLoopProc, emit;
    repeat first [ out_step | apply holds_when; intros ?
      | match goal with |- holds _ (if ?b then _ else _) _ _ => destruct b end ]; done.
Qed.

Lemma keep_deliver f c h cb s :
  inv f c h 0 s -> contents (mRecvBuffer s) <> [] -> onData app_cb = Some cb ->
  holds k (deliver cb) (fun _ s' => inv f c h 0 s') s.
Proof.
  intros Hi Hne Hcb. unfold deliver. out_steps. cbn [mRecvBuffer set_mRecvData].
  assert (Hw : buffer_wf (mRecvBuffer s)) by apply Hi.
  pose proof (zlen_contents _ Hw) as Hlen. pose proof (wf_read _ Hw). pose proof (wf_write _ Hw).
  assert (0 < zlen (contents (mRecvBuffer s))).
  { destruct (contents (mRecvBuffer s)); [done|rewrite zlen_cons; pose proof (zlen_nonneg l); lia]. }
  unfold ox_buffer_getreadptr. rewrite (proj2 (Z.ltb_lt _ _)) by lia.
  apply holds_lift; [done|]. intros ? [= <-]. out_steps.
  rewrite (readvalidcount_wf _ Hw), (load_wf _ Hw) by lia. fold (contents (mRecvBuffer s)).
  apply holds_lift; [done|]. intros ? [= <-].
  set (unread := contents (mRecvBuffer s)) in *. cbn [app set_mRecvData].
  pose proof (data_nonneg cb unread (app s) Hcb) as Hn0.
  assert (Hnk := fun H => data_size H cb unread (app s) Hcb).
  destruct (cb unread (app s)) as [[n acts] a'] eqn:Ecb. cbn [fst snd] in *.
  unfold emit. out_steps.
  destruct (timer_inv f c h 0 s NoTimer 0 Hi) as (_ & _ & Hd). specialize (Hd true).
  pose proof (emit_delivered_inv f c h _ unread n a' Hd eq_refl) as He.
  match type of He with inv _ _ _ _ ?s1 => set (s1' := s1) in *;
    assert (Eb : mRecvBuffer s1' = mRecvBuffer s) by done; clearbody s1' end.
  assert (Hb : holds k (act_all acts) (fun _ s' => mRecvBuffer s' = mRecvBuffer s1') s1').
  { pose proof (act_buffer acts s1') as Hb. pose proof (keep_act_all k f c h n acts s1' He) as Hk.
    unfold holds in *. by destruct (act_all acts s1') as [[]| |]. }
  eapply holds_mono; [apply holds_and; [exact (keep_act_all k f c h n acts s1' He)|exact Hb]|].
  intros _ s2 [[H2 _] E2]. rewrite Eb in E2. out_steps. rewrite E2, (readvalidcount_wf _ Hw), <- Hlen.
  destruct (Z.leb_spec n (zlen unread)) as [Hle|Hgt].
  - out_steps. rewrite <- E2. apply dropped_inv; [done|]. rewrite E2. fold unread. lia.
  - apply holds_crash. destruct k eqn:Ek; [done|]. specialize (Hnk eq_refl). lia.
Qed.

Lemma adjusted_inv f c h s :
  inv f c h 0 s ->
  holds k (buf' <- lift (ox_buffer_adjustto_head (mRecvBuffer s));; upd (set_mRecvBuffer buf'))
    (fun _ s' => inv f c h 0 s') s.
Proof.
  intros Hi. assert (Hw : buffer_wf (mRecvBuffer s)) by apply Hi. out_steps.
  destruct (adjustto_head_wf _ Hw) as (buf & E & Wb & _ & _ & _ & Ec).
  rewrite E. apply holds_lift; [done|]. intros ? [= <-]. out_steps. by apply set_buffer_inv.
Qed.

Lemma os_inv f c h r s w : inv f c h r s -> inv f c h r (set_os w s).
Proof.
  intros (Hs & Hr & Hc & Hx). split_and!;
    [by apply (send_ext c h s)|apply (recv_ext r s); try done; apply Hr|by apply (sched_ext f s)|by apply (close_ext s)].
Qed.

Lemma keep_recv_loop f c h n : forall s,
  inv f c h 0 s -> holds k (recv_loop sys app_cb mMax n) (fun _ s' => inv f c h 0 s') s.
Proof.
  induction n as [|n IH]; intros s Hi; [done|]. cbn [recv_loop]. out_steps.
  destruct (mSocket s); cbn [negb]; [|by out_steps].
  assert (Hw : buffer_wf (mRecvBuffer s)) by apply Hi.
  destruct (Z.eqb_spec (ox_buffer_getwritevalidcount (mRecvBuffer s)) 0); [by out_steps|].
  destruct (sys_recv sys _ (os s)) as [r w] eqn:Er. out_steps.
  pose proof (os_inv f c h 0 s w Hi) as Hi1.
  destruct r as [b| |would_block]; [|by out_steps|destruct would_block; unfold checkRead; cbn [negb]; by out_steps].
  pose proof (recv_size _ _ _ _ Er) as Hb. unfold emit. out_steps. cbn [mRecvBuffer set_os set_log].
  destruct (fill_wf b (mRecvBuffer s) Hw Hb) as (buf & Ef & Wb & Ec).
  rewrite Ef. apply holds_lift; [done|]. intros ? [= <-]. out_steps.
  assert (Hi2 := filled_inv f c h _ b buf Hi1 Wb Ec).
  match type of Hi2 with inv _ _ _ _ ?s1 => set (s2 := s1) in *;
    assert (Ec2 : contents (mRecvBuffer s2) = contents buf) by done; clearbody s2 end.
  eapply holds_mono with (Q := fun _ s' => inv f c h 0 s' /\ contents (mRecvBuffer s') = contents buf).
  { apply holds_when; intros _; [|by split].
    eapply holds_mono; [by apply keep_growRecvBuffer|]. intros _ s' (H1 & _ & H3). split; [done|]. congruence. }
  intros _ s3 [Hi3 Ec3]. out_step.
  eapply holds_mono with (Q := fun _ s' => inv f c h 0 s').
  { destruct (onData app_cb) as [cb|] eqn:Ecb in |- *; [|by out_steps]. apply keep_deliver; [done| |done].
    rewrite Ec3, Ec. destruct b as [|x b]; [change (zlen []) with 0 in Hb; lia|].
    by destruct (contents (mRecvBuffer s)). }
  intros _ s4 Hi4. out_steps.
  eapply holds_mono with (Q := fun _ s' => inv f c h 0 s').
  { apply holds_when; intros _; [by apply adjusted_inv|done]. }
  intros _ s5 Hi5. destruct (zlen b <? _); [unfold checkRead; by out_steps|by apply IH].
Qed.

Lemma keep_recv f c h s :
  inv f c h 0 s -> holds k (recv sys app_cb mMax fuel) (fun _ s' => inv f c h 0 s') s.
Proof.
  intros Hi. unfold recv. out_steps. eapply holds_mono; [by apply keep_recv_loop|].
  intros b s' Hi'. apply holds_when; intros _; [|done].
  eapply holds_mono; [exact (keep_procCloseInLoop k f c h 0 s' Hi')|]. by intros _ ? [].
Qed.

(** ** Sending *)

(** A callback of the application only adds packets to the queue. *)
Lemma act_list l : forall (s : st),
  holds true (act_all l) (fun _ s' => exists l', mSendList s' = mSendList s ++ l') s.
Proof.
  induction l as [|a l IH]; intros s; [exists []; by rewrite app_nil_r|]. cbn [act_all]. out_steps.
  eapply holds_mono with (Q := fun _ s1 => exists l1, mSendList s1 = mSendList s ++ l1).
  - destruct a; simpl act; unfold sendInLoop, postDisConnect, postShutdown, setHeartBeat, procCloseInLoop,
      onClose, closeSocket, runAfterFlush, startPingCheckTimer, pushAfterLoopProc, emit;
      repeat first [ out_step | apply holds_when; intros ?
        | match goal with |- holds _ (if ?b then _ else _) _ _ => destruct b end ];
      first [ by eexists | exists []; by rewrite app_nil_r ].
  - intros _ s1 [l1 E1]. eapply holds_mono; [apply IH|]. intros _ s2 [l2 E2].
    exists (l1 ++ l2). by rewrite E2, E1, app_assoc.
Qed.

Lemma zlen_rest (b : pending_packet (C := C)) : 0 <= left b <= zlen (data b) -> zlen (rest b) = left b.
Proof. intros. unfold rest, zlen in *. rewrite length_drop. lia. Qed.

(** A part of the first packet was sent. *)
Lemma partial_inv t h r b l s :
  inv true t h r s -> h = 0%nat -> mSendList s = b :: l -> t < left b ->
  inv true 0 0 r (set_mSendList (mk_pending (data b) (left b - t) (mCompleteCallback b) :: l) s).
Proof.
  intros (Hs & Hr & Hc & Hx) -> El Ht. destruct Hs as [(done & H1 & H2) H3 H4 H5 H6].
  rewrite El in *. apply Forall_cons in H6 as [Hb Hl]. split_and!.
  - constructor; simpl.
    + exists done. by split.
    + lia.
    + rewrite <- H4. f_equal. unfold unsent. cbn [map concat].
      change (drop (Z.to_nat 0) ?x) with x.
      rewrite drop_app_le by (pose proof (zlen_rest b Hb); unfold zlen in *; lia).
      f_equal. unfold rest. cbn [data left]. rewrite drop_drop. f_equal. lia.
    + pose proof (zlen_nonneg (unsent (mk_pending (data b) (left b - t) (mCompleteCallback b) :: l))). lia.
    + constructor; [simpl; lia|done].
  - apply (recv_ext r s); try done. apply Hr.
  - destruct Hc as [C1 C2 C3]. by constructor.
  - by apply (close_ext s).
Qed.

(** The first packet is complete: its callback is due, and then it goes. *)
Lemma head_called_inv t r b l s e :
  inv true t 0 r s -> mSendList s = b :: l ->
  match mCompleteCallback b with Some c => e = [Completed c] | None => e = [] end ->
  inv true t 1 r (set_log (log s ++ e) s).
Proof.
  intros (Hs & Hr & Hc & Hx) El He. destruct Hs as [(done & H1 & H2) H3 H4 H5 H6]. cbn [take] in H2.
  assert (L : queued (log s ++ e) = queued (log s) /\ sent (log s ++ e) = sent (log s) /\
    completed (log s ++ e) = completed (log s) ++ omap snd [packet b] /\
    received (log s ++ e) = received (log s) /\ consumed (log s ++ e) = consumed (log s) /\
    disconnects (log s ++ e) = disconnects (log s) /\ deliveries_ok (log s ++ e)).
  { destruct Hr as [_ _ Hd]. unfold packet. simpl. destruct (mCompleteCallback b); subst e.
    - unfold queued, sent, completed, received, consumed, disconnects. rewrite !flat_map_snoc, !app_nil_r.
      split_and!; try done. by apply deliveries_snoc.
    - by rewrite !app_nil_r. }
  destruct L as (L1 & L2 & L3 & L4 & L5 & L6 & L7). split_and!.
  - constructor; simpl; rewrite ?L1, ?L2, ?L3; try done.
    + exists done. split; [done|]. rewrite El, H2, app_nil_r, omap_app. done.
    + rewrite El. simpl. lia.
  - by apply (recv_ext r s).
  - apply (sched_ext true s); try done. intros H. apply elem_of_app. by left.
  - by apply (close_ext s).
Qed.

Lemma head_gone_inv t r b l s :
  inv true t 1 r s -> mSendList s = b :: l -> left b <= t ->
  inv true (t - left b) 0 r (set_mSendList l s).
Proof.
  intros (Hs & Hr & Hc & Hx) El Ht. destruct Hs as [(done & H1 & H2) H3 H4 H5 H6].
  rewrite El in *. apply Forall_cons in H6 as [Hb Hl]. pose proof (zlen_rest b Hb) as Hrest. split_and!.
  - constructor; simpl.
    + exists (done ++ [packet b]). rewrite <- app_assoc. split; [done|]. by rewrite app_nil_r.
    + lia.
    + rewrite <- H4. f_equal. unfold unsent. cbn [map concat]. rewrite drop_app_ge by (unfold zlen in *; lia).
      f_equal. unfold zlen in *. lia.
    + unfold unsent in H5. cbn [map concat] in H5. rewrite zlen_app in H5. unfold unsent. lia.
    + done.
  - apply (recv_ext r s); try done. apply Hr.
  - destruct Hc as [C1 C2 C3]. by constructor.
  - by apply (close_ext s).
Qed.

Lemma app_inv s f t h r a : inv f t h r s -> inv f t h r (set_app a s).
Proof.
  intros (Hs & Hr & Hc & Hx). split_and!;
    [by apply (send_ext t h s)|apply (recv_ext r s); try done; apply Hr|by apply (sched_ext f s)|by apply (close_ext s)].
Qed.

Lemma keep_complete r n : forall t s,
  inv true t 0 r s ->
  holds k (complete app_cb n t) (fun _ s' => inv true 0 0 r s' /\ (k = false -> mSocket s' = mSocket s)) s.
Proof.
  induction n as [|n IH]; intros t s Hi; [done|]. cbn [complete]. out_steps.
  destruct (mSendList s) as [|b l] eqn:El.
  - out_steps. split; [|done]. assert (t = 0) as ->; [|done].
    destruct Hi as ([_ _ _ H5 _] & _). rewrite El in H5. unfold unsent in H5. simpl in H5.
    change (zlen []) with 0 in H5. lia.
  - destruct (Z.ltb_spec t (left b)) as [Ht|Ht].
    { out_steps. split; [|done]. by eapply partial_inv. }
    out_steps.
    eapply holds_mono with (Q := fun _ s1 => inv true t 1 r s1 /\ (exists l1, mSendList s1 = b :: l1) /\
      (k = false -> mSocket s1 = mSocket s /\ mSendList s1 = b :: l)).
    { pose proof (head_called_inv t r b l s) as Hh. destruct (mCompleteCallback b) as [cb|].
      - pose proof (fun H => complete_harmless H cb (app s)) as Hopen.
        destruct (onComplete app_cb cb (app s)) as [acts a'] eqn:Ea. unfold emit. out_steps.
        specialize (Hh [Completed cb] Hi El eq_refl). apply (app_inv _ _ _ _ _ a') in Hh.
        change (set_app a' (set_log (log s ++ [Completed cb]) s)) with
          (set_log (log (set_app a' s) ++ [Completed cb]) (set_app a' s)) in Hh.
        match type of Hh with inv _ _ _ _ ?s1 => set (s1' := s1) in *;
          assert (E1 : mSendList s1' = b :: l) by done;
          assert (E2 : mSocket s1' = mSocket s) by done; clearbody s1' end.
        assert (Hl : holds k (act_all acts) (fun _ s' => (exists l', mSendList s' = mSendList s1' ++ l') /\
          (k = false -> mSendList s' = mSendList s1')) s1').
        { pose proof (act_list acts s1') as Hb. pose proof (keep_act_all k true t 1 r acts s1' Hh) as Hk.
          pose proof (act_queue acts s1') as Hq.
          unfold holds in *. destruct (act_all acts s1') as [[]| |]; [|done..]. split; [exact Hb|].
          intros Hf. apply Hq. eapply Forall_impl; [exact (Hopen Hf)|]. by intros x []. }
        eapply holds_mono; [apply holds_and; [exact (keep_act_all k true t 1 r acts s1' Hh)|exact Hl]|].
        intros _ s2 [[H2 H3] [[l2 H4] H5]]. split; [done|]. split; [by exists (l ++ l2); rewrite H4, E1|].
        intros Hf. split; [|by rewrite H5, E1]. rewrite H3; [done|]. intros Hin.
        pose proof (Hopen Hf) as Hh'. rewrite Forall_forall in Hh'. by destruct (Hh' _ Hin).
      - out_steps. specialize (Hh [] Hi El eq_refl). rewrite app_nil_r in Hh.
        split; [by destruct s|]. split; [by exists l|done]. }
    intros _ s1 (H1 & [l1 E1] & H2). unfold use_iterator. out_steps.
    destruct (Nat.eqb_spec (length (mSendList s1)) (length (b :: l))) as [_|Hne].
    2: { apply holds_crash. destruct k; [done|]. by destruct Hne; rewrite (proj2 (H2 eq_refl)). }
    out_steps. rewrite E1. cbn [tail].
    eapply holds_mono; [apply IH; by eapply head_gone_inv|].
    intros _ s2 [H3 H4]. split; [done|]. intros Hk. rewrite H4 by done. by apply H2.
Qed.

Lemma sent_inv r s n (m : nat) :
  inv true 0 0 r s -> 0 <= n <= zlen (concat (map rest (take m (mSendList s)))) ->
  inv true n 0 r (set_log (log s ++ [Sent (take (Z.to_nat n) (concat (map rest (take m (mSendList s)))))]) s).
Proof.
  intros (Hs & Hr & Hc & Hx) Hn. set (X := concat (map rest (take m (mSendList s)))) in *.
  set (e := Sent _). destruct Hs as [(done & H1 & H2) H3 H4 H5 H6].
  assert (Eu : unsent (mSendList s) = X ++ concat (map rest (drop m (mSendList s)))).
  { unfold unsent, X. rewrite <- concat_app, <- map_app, take_drop. done. }
  assert (L : queued (log s ++ [e]) = queued (log s) /\ sent (log s ++ [e]) = sent (log s) ++ take (Z.to_nat n) X /\
    completed (log s ++ [e]) = completed (log s) /\ received (log s ++ [e]) = received (log s) /\
    consumed (log s ++ [e]) = consumed (log s) /\ disconnects (log s ++ [e]) = disconnects (log s)).
  { unfold queued, sent, completed, received, consumed, disconnects. by rewrite !flat_map_snoc, !app_nil_r. }
  destruct L as (L1 & L2 & L3 & L4 & L5 & L6). split_and!.
  - constructor; simpl; rewrite ?L1, ?L2, ?L3; try done.
    + by exists done.
    + rewrite <- H4, <- app_assoc. f_equal. change (drop (Z.to_nat 0) ?x) with x.
      rewrite Eu at 1. rewrite drop_app_le by (unfold zlen in *; lia). by rewrite app_assoc, take_drop.
    + rewrite Eu, zlen_app. pose proof (zlen_nonneg (concat (map rest (drop m (mSendList s))))). lia.
  - apply (recv_ext r s); try done. apply deliveries_snoc; [apply Hr|done].
  - apply (sched_ext true s); try done. apply shut_snoc.
  - by apply (close_ext s).
Qed.

(** The socket cannot take more: epoll will tell when it can. *)
Lemma keep_blocked r s :
  inv true 0 0 r s -> (k = false -> mSocket s = true) ->
  holds k (upd (set_mCanWrite false) ;;; ok <- checkWrite;; ret (negb ok))
    (fun b s' => inv true 0 0 r s' /\ (b = false -> inv false 0 0 r s')) s.
Proof.
  intros (Hs & Hr & Hc & Hx) Hk. unfold checkWrite, getFD. out_steps. cbn [mSocket set_mCanWrite].
  destruct (mSocket s) eqn:E; [|apply holds_crash; destruct k; [done|by specialize (Hk eq_refl)]].
  out_steps. assert (H : forall f, inv f 0 0 r (set_watch_write true (set_mCanWrite false s))); [|by split; intros].
  intros f. split_and!.
  - by apply (send_ext 0 0 s).
  - apply (recv_ext r s); try done. apply Hr.
  - destruct Hc as [C1 C2 C3]. constructor; simpl; [done|done|by left].
  - by apply (close_ext s).
Qed.

Lemma keep_flush_loop r n : forall s,
  inv true 0 0 r s -> (k = false -> mSocket s = true) ->
  holds k (flush_loop sys app_cb n) (fun b s' => inv true 0 0 r s' /\ (b = false -> inv false 0 0 r s')) s.
Proof.
  induction n as [|n IH]; intros s Hi Hk; [done|]. cbn [flush_loop]. out_steps.
  destruct (mSendList s) as [|b0 l0] eqn:El.
  { out_steps. split; [done|]. intros _. destruct Hi as (Hs & Hr & [C1 C2 C3] & Hx). by split_and!. }
  rewrite <- El. clear El b0 l0. unfold getFD. out_steps.
  destruct (mSocket s) eqn:E; [|apply holds_crash; destruct k; [done|by specialize (Hk eq_refl)]].
  out_steps. destruct (sys_writev sys _ (os s)) as [[len would_block] w] eqn:Ew. out_steps.
  pose proof (os_inv true 0 0 r s w Hi) as Hi1. pose proof (writev_size _ _ _ _ _ Ew) as Hlen.
  destruct (Z.leb_spec len 0) as [Hle|Hgt].
  { destruct would_block; [by apply keep_blocked|]. out_steps. by split. }
  unfold emit. out_steps.
  eapply holds_mono; [apply keep_complete; apply (sent_inv r (set_os w s) len MAX_IOVEC Hi1); split; [lia|exact Hlen]|].
  intros _ s1 [H1 H2].
  assert (Hk1 : k = false -> mSocket s1 = true) by (intros H; by rewrite H2).
  destruct (negb _); [by apply keep_blocked|by apply IH].
Qed.

Lemma keep_flush r s :
  inv true 0 0 r s -> holds k (flush sys app_cb fuel) (fun _ s' => inv false 0 0 r s') s.
Proof.
  intros Hi. unfold flush. out_steps.
  destruct (negb (mCanWrite s) || negb (mSocket s)) eqn:E.
  - out_steps. apply orb_true_iff in E. rewrite !negb_true_iff in E.
    destruct Hi as (Hs & Hr & [C1 C2 C3] & Hx). split_and!; try done.
    constructor; [done| |done]. intros _ _ Hso Hw. destruct E; congruence.
  - apply orb_false_iff in E as [_ E%negb_false_iff]. unfold quickFlush. out_steps.
    eapply holds_mono; [by apply keep_flush_loop|]. intros [] s' [H1 H2]; cbn [when]; [|by apply H2].
    eapply holds_mono; [exact (keep_procCloseInLoop k true 0 0 r s' H1)|].
    intros _ s2 [(Hs & Hr & [C1 C2 C3] & Hx) H4]. split_and!; try done. constructor; [done| |done].
    by rewrite H4.
Qed.

(** ** The event loop *)

Lemma keep_canSend s :
  inv false 0 0 0 s -> holds k canSend (fun _ s' => inv false 0 0 0 s') s.
Proof.
  intros (Hs & Hr & Hc & Hx). unfold canSend, removeCheckWrite. out_steps.
  assert (H : forall w, inv true 0 0 0 (set_mCanWrite true (set_watch_write w s))).
  { intros w. split_and!; [by apply (send_ext 0 0 s)|apply (recv_ext 0 s); try done; apply Hr| |by apply (close_ext s)].
    destruct Hc as [C1 C2 C3]. by constructor. }
  eapply holds_mono with (Q := fun _ s1 => exists w, s1 = set_watch_write w s).
  { apply holds_when; intros _; [by eexists|]. exists (watch_write s). by destruct s. }
  intros _ s1 [w ->]. out_steps. eapply holds_mono; [by apply (keep_runAfterFlush k false 0 0 0)|].
  by intros _ s2 [].
Qed.

Lemma pop_inv p ps s :
  inv false 0 0 0 s -> posted s = p :: ps ->
  match p with
  | ProcFlush => inv true 0 0 0 (set_mIsPostFlush false (set_posted ps s))
  | ProcShutdown => inv false 0 0 0 (set_posted ps s)
  | ProcDisConnect => inv_send 0 0 s /\ inv_recv 0 s /\ inv_sched false (set_posted ps s) /\
      mIsPostFinalClose s = true /\ mSocket s = false /\ ps = [] /\ disconnects (log s) = []
  end.
Proof.
  intros (Hs & Hr & [C1 C2 C3] & Hx) Ep. rewrite Ep in C1. unfold inv_close in Hx. rewrite Ep in Hx.
  assert (Hx' : p <> ProcDisConnect -> inv_close (set_posted ps s)).
  { intros Hp. unfold inv_close. simpl. destruct (mIsPostFinalClose s).
    - destruct Hx as [H1 [(qs & Eq & H2 & H3)|[? _]]]; [|done]. split; [done|]. left.
      destruct qs as [|q qs]; [by injection Eq as ->|]. injection Eq as -> ->. exists qs.
      apply not_elem_of_cons in H2 as [_ H2]. by split_and!.
    - destruct Hx as [H1 H2]. apply not_elem_of_cons in H1 as [_ H1]. by split. }
  destruct p; unfold flushes in C1; simpl in C1; fold flushes in C1.
  - split_and!; [by apply (send_ext 0 0 s)|apply (recv_ext 0 s); try done; apply Hr| |].
    + destruct (mIsPostFlush s) eqn:Ef; [|done]. injection C1 as C1. by constructor.
    + by apply (close_ext (set_posted ps s)), Hx'.
  - destruct (mIsPostFinalClose s); [|by destruct Hx as [H _]; destruct H; left].
    destruct Hx as [H1 [(qs & Eq & H2 & H3)|[? _]]]; [|done].
    destruct qs as [|q qs].
    + injection Eq as ->. by split_and!.
    + injection Eq as <- _. destruct H2. by left.
  - split_and!; [by apply (send_ext 0 0 s)|apply (recv_ext 0 s); try done; apply Hr|by constructor|by apply Hx'].
Qed.

Lemma keep_run_input i s :
  inv false 0 0 0 s ->
  holds k (run_input sys app_cb mMax fuel i) (fun _ s' => inv false 0 0 0 s') s.
Proof.
  intros Hi. destruct i as [a| | | | |]; cbn [run_input].
  - eapply holds_mono; [exact (keep_act k false 0 0 0 s a Hi)|]. by intros _ s' [].
  - by apply keep_recv.
  - by apply keep_canSend.
  - out_steps. eapply holds_mono; [by apply keep_recv|]. intros [] s1 H1.
    eapply holds_mono; [exact (keep_onClose k false 0 0 0 s1 H1)|]. by intros _ s' [].
  - out_steps. destruct (posted s) as [|p ps] eqn:Ep; [by out_steps|]. out_steps.
    pose proof (pop_inv p ps s Hi Ep) as Hp. destruct p; cbn [run_after].
    + out_steps. by apply keep_flush.
    + destruct Hp as (Hs & Hr & [C1 C2 C3] & H1 & H2 & -> & H4). unfold emit. apply holds_when; intros _.
      * out_steps. split_and!.
        -- apply (send_ext 0 0 s); try done; simpl; unfold queued, sent, completed;
             by rewrite flat_map_snoc, app_nil_r.
        -- apply (recv_ext 0 s); try done; simpl; [unfold received|unfold consumed|];
             try (by rewrite flat_map_snoc, app_nil_r). by apply deliveries_snoc; [apply Hr|].
        -- constructor; simpl; [done|done|by rewrite H2].
        -- unfold inv_close. simpl. rewrite H1. split; [done|]. right. split; [done|].
           unfold disconnects in *. rewrite flat_map_snoc, H4. done.
      * split_and!; [by apply (send_ext 0 0 s)|apply (recv_ext 0 s); try done; apply Hr|by constructor|].
        unfold inv_close. simpl. rewrite H1. split; [done|]. right. split; [done|]. rewrite H4. simpl. lia.
    + exact (keep_procShutdownInLoop k false 0 0 0 _ Hp).
  - out_steps. destruct (mTimer s); try by out_steps. out_steps.
    destruct (timer_inv false 0 0 0 s Firing 0 Hi) as (H1 & _ & _).
    eapply holds_mono with (Q := fun _ s1 => inv false 0 0 0 s1).
    + unfold PingCheck. out_steps. destruct (mRecvData _).
      * out_steps. destruct (timer_inv false 0 0 0 _ Firing 0 H1) as (_ & _ & H3).
        eapply holds_mono; [exact (keep_startPingCheckTimer k false 0 0 0 _ (H3 false))|]. by intros _ s' [].
      * eapply holds_mono; [exact (keep_procCloseInLoop k false 0 0 0 _ H1)|]. by intros _ s' [].
    + intros [] s1 H2. out_steps. destruct (mTimer s1); try done.
      by destruct (timer_inv false 0 0 0 s1 NoTimer 0 H2) as (H3 & _ & _).
Qed.

Lemma keep_run_inputs l : forall s,
  inv false 0 0 0 s ->
  holds k (run_inputs sys app_cb mMax fuel l) (fun _ s' => inv false 0 0 0 s') s.
Proof.
  induction l as [|i l IH]; intros s Hi; [done|]. cbn [run_inputs]. out_steps.
  eapply holds_mono; [by apply keep_run_input|]. intros [] s1 H1. by apply IH.
Qed.

Lemma keep_onEnterEventLoop nonblock linked s :
  inv false 0 0 0 s -> mEventLoop s = false -> mSocket s = true ->
  holds k (onEnterEventLoop app_cb nonblock linked) (fun _ s' => inv false 0 0 0 s') s.
Proof.
  intros Hi E Es. unfold onEnterEventLoop, getFD, checkRead. out_steps. rewrite E. out_steps.
  cbn [mSocket set_mEventLoop]. rewrite Es. out_steps.
  assert (H1 : inv false 0 0 0 (set_mEventLoop true s)).
  { destruct Hi as (Hs & Hr & Hc & Hx). split_and!; [by apply (send_ext 0 0 s)|
      apply (recv_ext 0 s); try done; apply Hr|by apply (sched_ext false s)|by apply (close_ext s)]. }
  assert (Hclose : holds k (closeSocket ;;; ret false) (fun _ s' => inv false 0 0 0 s') (set_mEventLoop true s)).
  { out_steps. eapply holds_mono; [exact (keep_closeSocket k false 0 0 0 _ H1)|]. by intros _ s' []. }
  destruct nonblock; [|exact Hclose]. destruct linked; [|exact Hclose]. cbn [negb]. out_steps. cbn [negb].
  out_steps. eapply holds_mono with (Q := fun _ s' => inv false 0 0 0 s'); [|by intros].
  apply holds_when; intros _; [|done]. destruct (onEnter _ _) as [acts a']. out_steps.
  apply (app_inv _ _ _ _ _ a') in H1.
  eapply holds_mono; [exact (keep_act_all k false 0 0 0 acts _ H1)|]. intros _ s2 [H2 _]. out_steps.
  destruct H2 as (Hs & Hr & Hc & Hx). split_and!; [by apply (send_ext 0 0 s2)|
      apply (recv_ext 0 s2); try done; apply Hr|by apply (sched_ext false s2)|by apply (close_ext s2)].
Qed.

Lemma new_inv enter a w s : new sys enter a w = Some s -> inv false 0 0 0 s /\ mEventLoop s = false /\ mSocket s = true.
Proof.
  unfold new. remember (16 * 1024 + GROW_BUFFER_SIZE) as n eqn:En.
  assert (Hn : 0 <= n <= SIZE_MAX) by (subst n; unfold GROW_BUFFER_SIZE, SIZE_MAX; lia). clear En.
  destruct (ox_buffer_new _ _ _) as [buf|] eqn:Eb; [|done]. cbn [mbind option_bind].
  intros [= <-]. destruct (new_wf (malloc sys) n buf Hn malloc_size Eb) as [Wb Ab].
  split; [|done]. split_and!.
  - by constructor; try done; exists [].
  - constructor; simpl; [done| |by intros [] ????].
    apply (f_equal q_bytes) in Ab. cbn in Ab. by rewrite Ab.
  - by constructor.
  - split; [by intros ?%elem_of_nil|done].
Qed.

Lemma connection_inv enter a w s0 nonblock linked l :
  new sys enter a w = Some s0 ->
  holds k (_ <- onEnterEventLoop app_cb nonblock linked;; run_inputs sys app_cb mMax fuel l)
    (fun _ s => inv false 0 0 0 s) s0.
Proof.
  intros E. destruct (new_inv enter a w s0 E) as (Hi & H1 & H2). out_steps.
  eapply holds_mono; [by apply keep_onEnterEventLoop|]. intros b s Hs. by apply keep_run_inputs.
Qed.
End Invariant.
