(* ===== verification/DataSocketRun.v ===== *)
(** * What holds of every run of a connection

    The theorems about net/DataSocket.cpp that follow from the invariants of
    DataSocketSafe.v: the byte streams, the flushes, the end of a connection,
    safety and termination. Then the behaviours that the code does not intend,
    each shown on a run. *)

From S2P Require Import Prelude.
From S2P Require Import Words.
From S2P Require Import Buffer.
From S2P Require Import Outcome.
From S2P Require Import DataSocket.
From S2P Require Import DataSocketSafe.
#[local] Open Scope outcome_scope.

(** ** Every event is handled within a bound *)


Section Ends.
Context {W A C : Type}.
Abbreviation state := (st (W := W) (A := A) (C := C)).
Implicit Types s : state.
Context (sys : system (W := W)) (app_cb : application (A := A) (C := C)) (mMax : Z).

Lemma total_act (a : action) : total (S := state) (act a).
Proof.
  destruct a; simpl; unfold sendInLoop, postDisConnect, postShutdown, setHeartBeat, procCloseInLoop,
    onClose, closeSocket, runAfterFlush, startPingCheckTimer, pushAfterLoopProc, emit; total.
Qed.

Lemma total_act_all (l : list action) : total (S := state) (act_all l).
Proof. induction l as [|a l IH]; simpl; [total|]. apply total_bind; [apply total_act|done]. Qed.

Lemma total_growRecvBuffer : total (S := state) (growRecvBuffer sys mMax).
Proof. unfold growRecvBuffer. total. Qed.

Lemma total_deliver cb : total (S := state) (deliver cb).
Proof. unfold deliver, emit. total. apply total_act_all. Qed.

Lemma total_procCloseInLoop : total (S := state) procCloseInLoop.
Proof. unfold procCloseInLoop, onClose, closeSocket, pushAfterLoopProc, emit. total. Qed.

Lemma total_getFD : total (S := state) getFD.
Proof. unfold getFD. total. Qed.

(** *** The peer's bytes

    Only [recv] and [writev] reach the operating system. *)

Lemma act_os l : forall s, holds true (act_all l) (fun _ s' => os s' = os s) s.
Proof.
  induction l as [|a l IH]; intros s; [done|]. cbn [act_all]. out_steps.
  eapply holds_mono with (Q := fun _ s1 => os s1 = os s);
    [|intros _ s1 E; eapply holds_mono; [apply IH|]; intros _ s2 ->; done].
  destruct a; simpl act; unfold sendInLoop, postDisConnect, postShutdown, setHeartBeat, procCloseInLoop,
    onClose, closeSocket, runAfterFlush, startPingCheckTimer, pushAfterLoopProc, emit; quiet_steps; done.
Qed.

Lemma grow_os s : holds true (growRecvBuffer sys mMax) (fun _ s' => os s' = os s) s.
Proof. unfold growRecvBuffer. quiet_steps; done. Qed.

Lemma deliver_os cb s : holds true (deliver cb) (fun _ s' => os s' = os s) s.
Proof.
  unfold deliver, emit. quiet_steps; try done.
  eapply holds_mono; [apply act_os|]. intros [] s1 E. quiet_steps; first [exact E|done].
Qed.

Context (avail : W -> nat).
Context (recv_avail : forall n w b w', sys_recv sys n w = (RecvData b, w') -> (avail w' < avail w)%nat).

Lemma recv_loop_ends n : forall s, (avail (os s) < n)%nat -> recv_loop sys app_cb mMax n s <> Fuel.
Proof.
  induction n as [|n IH]; intros s Hn; [lia|]. cbn [recv_loop]. apply ends_bind; [done|]. out_steps.
  destruct (mSocket s); cbn [negb]; [|done].
  destruct (_ =? 0); [done|]. destruct (sys_recv sys _ (os s)) as [r w] eqn:Er.
  apply ends_bind; [done|]. out_steps.
  destruct r as [b| |[]]; [|done..]. apply recv_avail in Er.
  apply ends_bind; [done|]. unfold emit. out_steps.
  apply ends_bind; [apply total_lift|]. apply holds_lift; [done|]. intros buf _.
  apply ends_bind; [done|]. out_steps.
  apply ends_bind; [apply total_when, total_growRecvBuffer|].
  eapply holds_mono with (Q := fun _ s1 => os s1 = w).
  { apply holds_when; intros _; [|done]. eapply holds_mono; [apply grow_os|]. by intros _ s1 ->. }
  intros _ s1 E1. apply ends_bind; [destruct (onData app_cb); [apply total_deliver|done]|].
  eapply holds_mono with (Q := fun _ s2 => os s2 = w).
  { destruct (onData app_cb); [|done]. eapply holds_mono; [apply deliver_os|]. by intros _ s2 ->. }
  intros _ s2 E2. apply ends_bind; [done|]. out_steps.
  apply ends_bind; [apply total_when; total|].
  eapply holds_mono with (Q := fun _ s3 => os s3 = w); [quiet_steps; done|].
  intros _ s3 E3. destruct (zlen b <? _); [done|]. apply IH. rewrite E3. lia.
Qed.

Lemma recv_ends n s : (avail (os s) < n)%nat -> recv sys app_cb mMax n s <> Fuel.
Proof.
  intros Hn. unfold recv. apply ends_total; [by apply recv_loop_ends|].
  intros b. apply total_when, total_procCloseInLoop.
Qed.

(** *** The queue

    Completion callbacks that send are excluded. *)
Context (no_send : forall c a, Forall (fun x => is_send x = false) (onComplete app_cb c a).1).

Definition lefts_ok (l : list (pending_packet (C := C))) : Prop :=
  Forall (fun b => 0 <= left b <= zlen (data b)) l.

(** The call of the completion callback of the first packet. *)
Lemma callback_queue (b : pending_packet (C := C)) s :
  let m := match mCompleteCallback b with
    | Some c => let '(acts, a') := onComplete app_cb c (app s) in
        upd (set_app a') ;;; emit (Completed c) ;;; act_all acts
    | None => ret tt end in
  holds true m (fun _ s' => mSendList s' = mSendList s) s /\ m s <> Fuel.
Proof.
  destruct (mCompleteCallback b) as [c|]; [|done]. pose proof (no_send c (app s)) as Hn.
  destruct (onComplete app_cb c (app s)) as [acts a']. unfold emit. split.
  - out_steps. eapply holds_mono; [by apply act_queue|]. by intros _ s' ->.
  - apply total_bind; [done|intros _]. apply total_bind; [done|intros _]. apply total_act_all.
Qed.

Lemma complete_ends n : forall t s, (length (mSendList s) < n)%nat -> complete app_cb n t s <> Fuel.
Proof.
  induction n as [|n IH]; intros t s Hn; [lia|]. cbn [complete]. apply ends_bind; [done|]. out_steps.
  destruct (mSendList s) as [|b l] eqn:El; [done|]. destruct (t <? left b); [done|].
  destruct (callback_queue b s) as [H1 H2]. apply ends_bind; [exact H2|].
  eapply holds_mono; [exact H1|]. intros [] s1 E1. unfold use_iterator.
  apply ends_bind; [by unfold bind, get; destruct (_ =? _)%nat|]. out_steps.
  rewrite E1, El, Nat.eqb_refl. out_steps. apply ends_bind; [done|]. out_steps. apply IH.
  simpl in *. rewrite E1, El. simpl. lia.
Qed.

Lemma complete_unsent n : forall t s, lefts_ok (mSendList s) -> 0 <= t ->
  holds true (complete app_cb n t) (fun _ s' => lefts_ok (mSendList s') /\
    (length (mSendList s') <= length (mSendList s))%nat /\
    unsent (mSendList s') = drop (Z.to_nat t) (unsent (mSendList s))) s.
Proof.
  induction n as [|n IH]; intros t s Hl Ht; [done|]. cbn [complete]. out_steps.
  destruct (mSendList s) as [|b l] eqn:El.
  { out_steps. rewrite El. split_and!; [done|done|]. unfold unsent. simpl. by rewrite drop_nil. }
  apply Forall_cons in Hl as [Hb Hl]. pose proof (zlen_rest b Hb) as Hr.
  destruct (Z.ltb_spec t (left b)) as [Hlt|Hge].
  - out_steps. cbn [mSendList set_mSendList]. split_and!; [|done|].
    + constructor; [simpl; lia|done].
    + unfold unsent. cbn [map concat]. rewrite drop_app_le by (unfold zlen in *; lia). f_equal.
      unfold rest. cbn [data left]. rewrite drop_drop. f_equal. lia.
  - destruct (callback_queue b s) as [H1 _]. out_step. eapply holds_mono; [exact H1|].
    intros [] s1 E1. unfold use_iterator. out_steps. rewrite E1, El, Nat.eqb_refl. out_steps.
    eapply holds_mono; [apply IH; [|lia]|].
    + cbn [mSendList set_mSendList]. by rewrite E1, El.
    + intros [] s2. cbn [mSendList set_mSendList]. rewrite E1, El. cbn [tail length].
      intros (H2 & H3 & ->). split_and!; [done|lia|]. unfold unsent. cbn [map concat].
      rewrite drop_app_ge by (unfold zlen in *; lia). f_equal. unfold zlen in *. lia.
Qed.

Context (writev_size : forall l w n e w', sys_writev sys l w = (n, e, w') -> n <= zlen (concat l)).

Lemma flush_loop_ends n : forall s, lefts_ok (mSendList s) ->
  (length (mSendList s) + length (unsent (mSendList s)) + 1 < n)%nat ->
  flush_loop sys app_cb n s <> Fuel.
Proof.
  induction n as [|n IH]; intros s Hl Hn; [lia|]. cbn [flush_loop]. apply ends_bind; [done|]. out_steps.
  destruct (mSendList s) as [|b0 l0] eqn:El; [done|]. rewrite <- El in *. clear El b0 l0.
  apply ends_bind; [apply total_getFD|]. unfold getFD. out_steps.
  destruct (mSocket s); [|by apply holds_crash]. out_steps.
  destruct (sys_writev sys _ (os s)) as [[len would_block] w] eqn:Ew. apply writev_size in Ew.
  apply ends_bind; [done|]. out_steps.
  assert (Hblock : total (S := state) (upd (set_mCanWrite false) ;;; ok <- checkWrite;; ret (negb ok))).
  { unfold checkWrite, getFD. total. }
  destruct (Z.leb_spec len 0) as [Hle|Hgt]; [destruct would_block; [apply Hblock|done]|].
  apply ends_bind; [done|]. unfold emit. out_steps.
  apply ends_bind; [apply complete_ends; simpl; lia|].
  eapply holds_mono; [apply complete_unsent; [exact Hl|lia]|].
  intros _ s1 (L1 & L2 & L3). destruct (negb _); [apply Hblock|]. apply IH; [done|].
  cbn [mSendList set_log set_os] in *. rewrite L3, length_drop.
  assert (0 < length (unsent (mSendList s)))%nat; [|lia].
  assert (Eu : unsent (mSendList s) = concat (map rest (take MAX_IOVEC (mSendList s))) ++
    concat (map rest (drop MAX_IOVEC (mSendList s)))).
  { unfold unsent. rewrite <- concat_app, <- map_app, take_drop. done. }
  rewrite Eu, length_app. unfold zlen in Ew. lia.
Qed.

Lemma flush_ends n s : lefts_ok (mSendList s) ->
  (length (mSendList s) + length (unsent (mSendList s)) + 1 < n)%nat -> flush sys app_cb n s <> Fuel.
Proof.
  intros Hl Hn. unfold flush. apply ends_bind; [done|]. out_steps.
  destruct (_ || _); [done|]. unfold quickFlush. apply ends_total; [by apply flush_loop_ends|].
  intros b. apply total_when, total_procCloseInLoop.
Qed.

Lemma run_input_ends n i s : lefts_ok (mSendList s) -> (avail (os s) < n)%nat ->
  (length (mSendList s) + length (unsent (mSendList s)) + 1 < n)%nat ->
  run_input sys app_cb mMax n i s <> Fuel.
Proof.
  intros Hl Ha Hn. destruct i as [a| | | | |]; cbn [run_input].
  - apply total_act.
  - by apply recv_ends.
  - unfold canSend, removeCheckWrite, runAfterFlush, pushAfterLoopProc.
    match goal with |- ?m s <> _ => assert (total m); [total|done] end.
  - apply ends_total; [by apply recv_ends|intros _].
    unfold onClose, closeSocket, pushAfterLoopProc, emit. total.
  - apply ends_bind; [done|]. out_steps. destruct (posted s) as [|p ps]; [done|].
    apply ends_bind; [done|]. out_steps. destruct p; cbn [run_after].
    + apply ends_bind; [done|]. out_steps. by apply flush_ends.
    + unfold emit. match goal with |- ?m ?x <> _ => assert (total m); [total|done] end.
    + unfold procShutdownInLoop, emit. match goal with |- ?m ?x <> _ => assert (total m); [total|done] end.
  - match goal with |- ?m s <> _ => assert (H : total m); [|apply H] end.
    total. unfold PingCheck, startPingCheckTimer. total. apply total_procCloseInLoop.
Qed.
End Ends.

(** ** The theorems *)

(** What the operating system promises: [recv] gives at least one byte and not more
    than asked for, [writev] takes no more than it is given, a new block has the
    size asked for. *)
Record system_ok {W} (sys : system (W := W)) : Prop := mk_system_ok {
  recv_size : forall n w b w', sys_recv sys n w = (RecvData b, w') -> 0 < zlen b <= n;
  writev_size : forall l w n e w', sys_writev sys l w = (n, e, w') -> n <= zlen (concat l);
  malloc_size : forall n b, malloc sys n = Some b -> zlen b = n }.

(** The number that the data callback returns is a [size_t]. *)
Definition data_result_ok {A C} (app_cb : application (A := A) (C := C)) : Prop :=
  forall cb b a, onData app_cb = Some cb -> 0 <= (cb b a).1.1.

(** A connection that enters the event loop, and a sequence of inputs. *)
Definition run_connection {W A C} (sys : system (W := W)) (app_cb : application (A := A) (C := C))
    (mMaxRecvBufferSize : Z) (fuel : nat) (nonblock linked : bool) (inputs : list input) : M st unit :=
  _ <- onEnterEventLoop app_cb nonblock linked;; run_inputs sys app_cb mMaxRecvBufferSize fuel inputs.

Section Theorems.
Context {W A C : Type} (sys : system (W := W)) (app_cb : application (A := A) (C := C)).
Context (mMaxRecvBufferSize : Z) (fuel : nat).
Context (Hsys : system_ok sys) (Hdata : data_result_ok app_cb) (Hmax : mMaxRecvBufferSize <= SIZE_MAX).

Lemma connection_holds enter a w s0 nonblock linked inputs s :
  new sys enter a w = Some s0 ->
  run_connection sys app_cb mMaxRecvBufferSize fuel nonblock linked inputs s0 = Ok (tt, s) ->
  inv false 0 0 0 s.
Proof.
  intros E Er. destruct Hsys as [S1 S2 S3].
  assert (H : holds true (run_connection sys app_cb mMaxRecvBufferSize fuel nonblock linked inputs)
    (fun _ s' => inv false 0 0 0 s') s0).
  { unfold run_connection. eapply connection_inv; eauto; done. }
  unfold holds in H. by rewrite Er in H.
Qed.

(** C12: both byte streams of a connection are kept intact, whatever the order of
    events, the results of the system calls and the requests that callbacks make
    from inside, in every run in which the code does not come to undefined behaviour (C15
    says when it does not; a completion callback that sends invalidates the iterator
    of [quickFlush], so a run in which one does is not among these). The bytes that the socket took, followed by those still queued,
    are the packets in the order in which they were sent; the completion callbacks
    called are those of the packets that are off the queue, once each and in
    order. The bytes received are those the application consumed followed by those
    in the receive buffer, and at every delivery it saw exactly the bytes that it
    had not consumed. *)
Theorem connection_streams enter a w s0 nonblock linked inputs s :
  new sys enter a w = Some s0 ->
  run_connection sys app_cb mMaxRecvBufferSize fuel nonblock linked inputs s0 = Ok (tt, s) ->
  (sent (log s) ++ unsent (mSendList s) = concat (map fst (queued (log s)))) /\
  (exists done, (queued (log s) = done ++ map packet (mSendList s)) /\ completed (log s) = omap snd done) /\
  (received (log s) = consumed (log s) ++ contents (mRecvBuffer s)) /\ deliveries_ok (log s).
Proof.
  intros E Er. destruct (connection_holds _ _ _ _ _ _ _ _ E Er)
    as ([(done & H1 & H2) H3 H4 H5 H6] & [R1 R2 R3] & _).
  split; [exact H4|]. split; [|split; [exact R2|exact R3]].
  exists done. split; [exact H1|]. by rewrite app_nil_r in H2.
Qed.

(** C13: what is queued gets sent. After any sequence of events, while the connection
    is open and packets are queued, either a flush is posted to the loop, or the
    socket was full and epoll watches it for becoming writable (or the
    application has shut the sending side down). *)
Theorem flush_scheduled enter a w s0 nonblock linked inputs s :
  new sys enter a w = Some s0 ->
  run_connection sys app_cb mMaxRecvBufferSize fuel nonblock linked inputs s0 = Ok (tt, s) ->
  mSendList s <> [] -> mSocket s = true ->
  if mCanWrite s then ProcFlush ∈ posted s else watch_write s = true \/ ShutDown ∈ log s.
Proof.
  intros E Er Hq Hs. destruct (connection_holds _ _ _ _ _ _ _ _ E Er) as (_ & _ & [C1 C2 C3] & _).
  destruct (mCanWrite s) eqn:Ew; [|by apply C3].
  rewrite (C2 eq_refl Hq Hs eq_refl) in C1. revert C1. clear.
  induction (posted s) as [|[] l IH]; intros C1; [done|by left|right; by apply IH|right; by apply IH].
Qed.

(** C14: the end of a connection is announced once and last: the disconnect callback
    is called at most once; as soon as it is posted the descriptor is closed and
    nothing of this connection is posted behind it; and when it has been called
    nothing is left posted, so the application may delete the object in it. *)
Theorem disconnect_last enter a w s0 nonblock linked inputs s :
  new sys enter a w = Some s0 ->
  run_connection sys app_cb mMaxRecvBufferSize fuel nonblock linked inputs s0 = Ok (tt, s) ->
  (length (disconnects (log s)) <= 1)%nat /\
  (ProcDisConnect ∈ posted s -> mSocket s = false /\ disconnects (log s) = [] /\
     exists ps, posted s = ps ++ [ProcDisConnect] /\ (ProcDisConnect ∉ ps)) /\
  (disconnects (log s) <> [] -> mSocket s = false /\ posted s = []).
Proof.
  intros E Er. destruct (connection_holds _ _ _ _ _ _ _ _ E Er) as (_ & _ & _ & Hx).
  unfold inv_close in Hx. destruct (mIsPostFinalClose s).
  - destruct Hx as [H1 [(ps & H2 & H3 & H4)|[H2 H3]]].
    + rewrite H4. split_and!; [simpl; lia| |done]. intros _. split_and!; try done. by exists ps.
    + split_and!; [done| |done]. rewrite H2. by intros ?%elem_of_nil.
  - destruct Hx as [H1 H2]. rewrite H2. by split_and!; [simpl; lia| |].
Qed.

(** C15: a connection does not crash: if memory is available, the data callback
    consumes no more than it was given, and completion callbacks neither send on the connection nor close it,
    then no sequence of events and of results of system calls fails
    an assertion, uses the socket after it was closed, uses an iterator that is not
    valid, or reaches outside the receive buffer. Both conditions on completion callbacks are needed
    ([send_in_completion_crashes], [close_in_completion_crashes]). *)
Theorem connection_safe enter a w s0 nonblock linked inputs :
  (forall n, 0 <= n -> malloc sys n <> None) ->
  (forall cb b a, onData app_cb = Some cb -> (cb b a).1.1 <= zlen b) ->
  (forall c a, Forall harmless (onComplete app_cb c a).1) ->
  new sys enter a w = Some s0 ->
  run_connection sys app_cb mMaxRecvBufferSize fuel nonblock linked inputs s0 <> Crash.
Proof.
  intros Hm Hd Hc E. eapply holds_no_crash. destruct Hsys as [S1 S2 S3].
  unfold run_connection. eapply connection_inv; eauto; done.
Qed.

(** C16: under the conditions of C15 every event of the loop is handled to its end. If memory is
    available, the data callback consumes no more than it was given and completion callbacks
    neither send nor close, then from every state that a run reaches each of
    the operations returns, within a number of iterations that is
    bounded by the bytes the peer has sent and those that are queued. *)
Theorem event_handled (avail : W -> nat) enter a w s0 nonblock linked inputs s i n :
  (forall n, 0 <= n -> malloc sys n <> None) ->
  (forall cb b a, onData app_cb = Some cb -> (cb b a).1.1 <= zlen b) ->
  (forall c a, Forall harmless (onComplete app_cb c a).1) ->
  (forall n w b w', sys_recv sys n w = (RecvData b, w') -> (avail w' < avail w)%nat) ->
  new sys enter a w = Some s0 ->
  run_connection sys app_cb mMaxRecvBufferSize fuel nonblock linked inputs s0 = Ok (tt, s) ->
  (avail (os s) < n)%nat -> (length (mSendList s) + length (unsent (mSendList s)) + 1 < n)%nat ->
  exists s', run_input sys app_cb mMaxRecvBufferSize n i s = Ok (tt, s').
Proof.
  intros Hm Hd Hc Ha E Er Hn1 Hn2. pose proof (connection_holds _ _ _ _ _ _ _ _ E Er) as Hi.
  destruct Hsys as [S1 S2 S3].
  assert (Hsend : forall c a, Forall (fun x => is_send x = false) (onComplete app_cb c a).1).
  { intros c b. eapply Forall_impl; [apply Hc|]. by intros x []. }
  assert (H1 : run_input sys app_cb mMaxRecvBufferSize n i s <> Fuel).
  { eapply (run_input_ends sys app_cb mMaxRecvBufferSize avail); eauto. apply Hi. }
  assert (H2 : holds false (run_input sys app_cb mMaxRecvBufferSize n i) (fun _ s' => inv false 0 0 0 s') s).
  { eapply keep_run_input; eauto; done. }
  unfold holds in H2. destruct (run_input sys app_cb mMaxRecvBufferSize n i s) as [[[] s']| |]; [by exists s'|done|done].
Qed.
End Theorems.

(** ** A concrete connection

    The operating system as a script: what [recv] gives, and how much each [writev]
    takes (below 0: it would block). The application sends back what it gets. *)
Definition demo_os : Type := list recv_result * list Z.

Definition demo : system (W := demo_os) := mk_system
  (fun n '(rs, ws) =>
     match rs with
     | RecvData b :: rs' => if (0 <? zlen b) && (zlen b <=? n) then (RecvData b, (rs', ws)) else (RecvError true, (rs, ws))
     | r :: rs' => (r, (rs', ws))
     | [] => (RecvError true, ([], ws))
     end)
  (fun l '(rs, ws) =>
     match ws with
     | n :: ws' => (Z.min n (zlen (concat l)), n <? 0, (rs, ws'))
     | [] => (-1, true, (rs, []))
     end)
  (fun n => if n <? 0 then None else Some (repeat 0 (Z.to_nat n))).

Definition echo (closing : bool) : application (A := nat) (C := nat) := mk_application
  (Some (fun b n => (zlen b, [Send b (Some n)], S n)))
  (fun _ n => (if closing then [PostDisConnect] else [], n))
  (fun n => ([SetHeartBeat 5], n))
  true.

Lemma demo_ok : system_ok demo.
Proof.
  constructor.
  - intros n [rs ws] b w'. simpl. destruct rs as [|[b'| |?] rs]; try done.
    destruct (_ && _) eqn:E; [|done]. intros [= <- <-]. lia.
  - intros l [rs ws] n e w'. simpl. destruct ws; intros [= <- <- <-]; [pose proof (zlen_nonneg (concat l))|]; lia.
  - intros n b. simpl. destruct (Z.ltb_spec n 0); [done|]. intros [= <-]. unfold zlen.
    rewrite repeat_length. lia.
Qed.

Lemma echo_ok c : data_result_ok (echo c).
Proof. intros cb b a [= <-]. apply zlen_nonneg. Qed.

(** Two packets are received and sent back in three pieces; then the peer goes. *)
Definition demo_w : demo_os := ([RecvData (str "hello"); RecvData (str "bye"); RecvEof], [3; 2; 3]).
Definition demo_blocked : list (input (C := nat)) := [InRecv; InAfter; InRecv].
Definition demo_closed : list (input (C := nat)) := demo_blocked ++ [InSend; InAfter; InSend; InAfter; InHup; InAfter].

(** A run whose last state passes the test [f]. *)
Definition demo_check (f : st (W := demo_os) (A := nat) (C := nat) -> bool) (l : list input) : bool :=
  match new demo true 0%nat demo_w with
  | Some s => match run_connection demo (echo false) 65536 99 true true l s with Ok (_, s') => f s' | _ => false end
  | None => false
  end.

Lemma demo_reaches f l : demo_check f l = true ->
  exists s0 s, new demo true 0%nat demo_w = Some s0 /\
    run_connection demo (echo false) 65536 99 true true l s0 = Ok (tt, s) /\ f s = true.
Proof.
  unfold demo_check. destruct (new demo true 0%nat demo_w) as [s0|]; [|done]. intros H. exists s0.
  destruct (run_connection _ _ _ _ _ _ _ _) as [[[] s]| |]; [by exists s|done|done].
Qed.

Definition is_blocked (s : st (W := demo_os) (A := nat) (C := nat)) : bool :=
  mSocket s && watch_write s && negb (bool_decide (mSendList s = [])) &&
  (length (mSendList s) + length (unsent (mSendList s)) <? 90)%nat && (length (os s).1 <? 90)%nat.

Lemma connection_streams_witness : exists s0 s,
  new demo true 0%nat demo_w = Some s0 /\
  run_connection demo (echo false) 65536 99 true true demo_closed s0 = Ok (tt, s) /\
  sent (log s) = str "hellobye" /\
  (sent (log s) ++ unsent (mSendList s) = concat (map fst (queued (log s)))).
Proof.
  destruct (demo_reaches (fun s => bool_decide (sent (log s) = str "hellobye")) demo_closed)
    as (s0 & s & E1 & E2 & E3%bool_decide_eq_true); [by vm_compute|].
  exists s0, s. split_and!; [done..|].
  exact (proj1 (connection_streams demo (echo false) 65536 99 demo_ok (echo_ok false) ltac:(done)
    _ _ _ _ _ _ _ _ E1 E2)).
Defined.

Lemma flush_scheduled_witness : exists s0 s,
  new demo true 0%nat demo_w = Some s0 /\
  run_connection demo (echo false) 65536 99 true true demo_blocked s0 = Ok (tt, s) /\
  mSendList s <> [] /\ mSocket s = true /\
  (if mCanWrite s then ProcFlush ∈ posted s else watch_write s = true \/ ShutDown ∈ log s).
Proof.
  destruct (demo_reaches is_blocked demo_blocked) as (s0 & s & E1 & E2 & E3); [by vm_compute|].
  unfold is_blocked in E3. rewrite !andb_true_iff in E3. destruct E3 as ((((E3 & _) & E4) & _) & _).
  apply negb_true_iff, bool_decide_eq_false in E4. exists s0, s. split_and!; [done..|].
  exact (flush_scheduled demo (echo false) 65536 99 demo_ok (echo_ok false) ltac:(done)
    _ _ _ _ _ _ _ _ E1 E2 E4 E3).
Defined.

Lemma disconnect_last_witness : exists s0 s,
  new demo true 0%nat demo_w = Some s0 /\
  run_connection demo (echo false) 65536 99 true true demo_closed s0 = Ok (tt, s) /\
  disconnects (log s) = [tt] /\ mSocket s = false /\ posted s = [].
Proof.
  destruct (demo_reaches (fun s => bool_decide (disconnects (log s) = [tt])) demo_closed)
    as (s0 & s & E1 & E2 & E3%bool_decide_eq_true); [by vm_compute|].
  exists s0, s. split; [done|]. split; [done|]. split; [done|].
  apply (disconnect_last demo (echo false) 65536 99 demo_ok (echo_ok false) ltac:(done)
    _ _ _ _ _ _ _ _ E1 E2). by rewrite E3.
Defined.

Lemma connection_safe_witness : exists s0,
  new demo true 0%nat demo_w = Some s0 /\
  run_connection demo (echo false) 65536 99 true true demo_closed s0 <> Crash.
Proof.
  destruct (demo_reaches (fun _ => true) demo_closed) as (s0 & s & E1 & E2 & _); [by vm_compute|].
  exists s0. split; [done|].
  apply (connection_safe demo (echo false) 65536 99 demo_ok (echo_ok false) ltac:(done) true 0%nat demo_w).
  - intros n Hn. simpl. by rewrite (proj2 (Z.ltb_ge _ _)).
  - by intros cb b a [= <-].
  - intros c a. apply Forall_nil_2.
  - exact E1.
Defined.

Lemma event_handled_witness : exists s0 s s',
  new demo true 0%nat demo_w = Some s0 /\
  run_connection demo (echo false) 65536 99 true true demo_blocked s0 = Ok (tt, s) /\
  run_input demo (echo false) 65536 99 InHup s = Ok (tt, s').
Proof.
  destruct (demo_reaches is_blocked demo_blocked) as (s0 & s & E1 & E2 & E3); [by vm_compute|].
  unfold is_blocked in E3. rewrite !andb_true_iff, !Nat.ltb_lt in E3. destruct E3 as (((_ & _) & E4) & E5).
  exists s0, s.
  destruct (event_handled demo (echo false) 65536 99 demo_ok (echo_ok false) ltac:(done)
    (fun w => length w.1) true 0%nat demo_w s0 true true demo_blocked s InHup 99) as [s' E].
  - intros n Hn. simpl. by rewrite (proj2 (Z.ltb_ge _ _)).
  - by intros cb b a [= <-].
  - intros c a. apply Forall_nil_2.
  - intros n [rs ws] b w'. simpl. destruct rs as [|[b'| |?] rs]; try done.
    destruct (_ && _); [|done]. intros [= <- <-]. simpl. lia.
  - exact E1.
  - exact E2.
  - lia.
  - lia.
  - by exists s'.
Defined.

(** ** Behaviours that the code does not intend *)

Section Flaws.
Context {W A C : Type}.
Implicit Types s : st (W := W) (A := A) (C := C).
Context (sys : system (W := W)) (app_cb : application (A := A) (C := C)) (mMax : Z) (fuel : nat).

(** A heartbeat is checked once. The timer manager still holds the timer while its
    callback runs, so [startPingCheckTimer] finds [mTimer] taken and does not start
    the next one: after the first check that succeeds no timer is left, and a peer
    that then falls silent is never disconnected. *)
Theorem heartbeat_checked_once s :
  mTimer s = Waiting -> mRecvData s = true ->
  run_input sys app_cb mMax fuel InTimer s = Ok (tt, set_mTimer NoTimer (set_mRecvData false s)).
Proof.
  intros H1 H2. destruct s. simpl in *. subst.
  unfold bind, get, upd, PingCheck, startPingCheckTimer. simpl. done.
Qed.

(** An empty packet closes the connection: [writev] of nothing gives 0, which [flush]
    takes for an error (if [errno] is not [EWOULDBLOCK] from an earlier call). *)
Lemma empty_packet_closes s cb w :
  mCanWrite s = true -> mSocket s = true -> mIsPostFinalClose s = false ->
  mSendList s = [mk_pending [] 0 cb] -> sys_writev sys [[]] (os s) = (0, false, w) ->
  exists s', flush sys app_cb (S fuel) s = Ok (tt, s') /\ mSocket s' = false /\ ProcDisConnect ∈ posted s'.
Proof.
  intros H1 H2 H3 H4 H5. destruct s. simpl in *. subst.
  unfold flush, quickFlush, procCloseInLoop, onClose, closeSocket, pushAfterLoopProc, emit, getFD, bind, get, upd.
  simpl. unfold bind, get, upd, when, ret. simpl. change (rest _) with (@nil Z). rewrite H5. simpl. eexists. split; [reflexivity|].
  split; [done|]. simpl. apply elem_of_app. right. by left.
Qed.
End Flaws.

Lemma heartbeat_checked_once_witness : exists s0 s s',
  new demo true 0%nat demo_w = Some s0 /\
  run_connection demo (echo false) 65536 99 true true demo_blocked s0 = Ok (tt, s) /\
  mCheckTime s = 5 /\
  run_input demo (echo false) 65536 99 InTimer s = Ok (tt, s') /\ mTimer s' = NoTimer.
Proof.
  destruct (demo_reaches (fun s => bool_decide (mTimer s = Waiting) && mRecvData s && (mCheckTime s =? 5)) demo_blocked)
    as (s0 & s & E1 & E2 & E3); [by vm_compute|].
  rewrite !andb_true_iff, bool_decide_eq_true, Z.eqb_eq in E3. destruct E3 as ((E3 & E4) & E5).
  eexists s0, s, _. split_and!; [done|done|done| |].
  - exact (heartbeat_checked_once demo (echo false) 65536 99 s E3 E4).
  - done.
Defined.

(** A completion callback that disconnects, in a flush that the socket takes only a
    part of: [checkWrite] then asks the socket that is gone for its descriptor. *)
Lemma close_in_completion_crashes :
  exists s0, new demo true 0%nat ([RecvData (str "abc"); RecvData (str "def")], [4]) = Some s0 /\
    run_connection demo (echo true) 65536 99 true true [InRecv; InRecv; InAfter] s0 = Crash.
Proof.
  assert (H : match new demo true 0%nat ([RecvData (str "abc"); RecvData (str "def")], [4]) with
    | Some s0 => match run_connection demo (echo true) 65536 99 true true [InRecv; InRecv; InAfter] s0 with
        Crash => true | _ => false end
    | None => false end = true) by (vm_compute; reflexivity).
  destruct (new demo true 0%nat _) as [s0|]; [exists s0; split; [done|]|done].
  by destruct (run_connection _ _ _ _ _ _ _ s0).
Qed.

(** A completion callback that sends: [push_back] invalidates the iterator with which the packet
    is then erased. *)
Definition resend : application (A := nat) (C := nat) := mk_application
  (Some (fun b n => (zlen b, [Send b (Some n)], S n))) (fun _ n => ([Send (str "more") None], n)) (fun n => ([], n)) true.

Lemma send_in_completion_crashes :
  exists s0, new demo true 0%nat demo_w = Some s0 /\
    run_connection demo resend 65536 99 true true [InRecv; InAfter; InSend; InAfter] s0 = Crash.
Proof.
  assert (H : match new demo true 0%nat demo_w with
    | Some s0 => match run_connection demo resend 65536 99 true true [InRecv; InAfter; InSend; InAfter] s0 with
        Crash => true | _ => false end
    | None => false end = true) by (vm_compute; reflexivity).
  destruct (new demo true 0%nat demo_w) as [s0|]; [exists s0; split; [done|]|done].
  by destruct (run_connection _ _ _ _ _ _ _ s0).
Qed.
