(* ===== verification/TCPService.v ===== *)
(** * net/TCPService.cpp

    Sessions: the identifiers of connections, their registration in the I/O loops
    and the delivery of requests to a session, by any thread. The connections are
    those of DataSocket.v, of which only the user data and the disconnect callback
    matter here; the procedures queued for a loop run in order (EventLoop.v), and those
    that are pushed on the thread of the loop itself run at once. *)

From S2P Require Import Prelude.
From S2P Require Import Words.
From S2P Require Import Typeids.
From stdpp Require Import gmap.
#[local] Open Scope Z_scope.
#[local] Open Scope brynet_scope.

(** ** Session identifiers

    [union SessionId], on a little-endian machine. *)
Record SessionId := mk_sid { loopIndex : Z; index : Z; iid : Z }.

Definition sid_id (x : SessionId) : Z :=
  swrap 64 (loopIndex x + index x * 2 ^ 16 + iid x * 2 ^ 32).

Definition sid_of (id : Z) : SessionId :=
  mk_sid (u16 id) (u16 (Z.shiftr id 16)) (u32 (Z.shiftr id 32)).

Lemma sid_of_id x :
  0 <= loopIndex x < 2 ^ 16 -> 0 <= index x < 2 ^ 16 -> 0 <= iid x < 2 ^ 32 -> sid_of (sid_id x) = x.
Proof.
  destruct x as [l i d]. unfold sid_of, sid_id, wrap, swrap. cbn [loopIndex index iid]. intros Hl Hi Hd.
  rewrite !Z.shiftr_div_pow2 by lia. f_equal; dlia.
Qed.

(** ** State *)

(** A connection, by its address. *)
Abbreviation conn := nat.

(** What a connection is asked to do. *)
Inductive request := Send (packet : bytes) | Shutdown | DisConnect | HeartBeat (time : Z).

#[global] Instance request_eq_dec : EqDecision request.
Proof. solve_decision. Defined.

(** A procedure posted to a loop: the entry of a new connection, or a request for
    the session of an identifier. *)
Inductive proc := OnEnter (c : conn) | OnSession (id : Z) (m : request).

Record IOLoopData := mk_loop {
  mDataSockets : TypeIDS.t conn;
  mNextId : Z;
  procs : list proc }.

(** The fields of a DataSocket that are used: the loop captured by its enter callback,
    its user data and the identifier captured by its disconnect callback. *)
Record channel := mk_channel { enterLoop : Z; mUD : option Z; disConnectCallback : option Z }.

Record service := mk_service {
  mIOLoopDatas : list IOLoopData;
  heap : gmap conn channel }.

(** What the application and the connections see. *)
Inductive event :=
  | Entered (c : conn) (id : Z)               (* the enter callback of the application *)
  | Posted (id : Z) (m : request)             (* a request is queued for the loop *)
  | Performed (c : conn) (id : Z) (m : request) (* a queued request is performed on [c] *)
  | Skipped (id : Z) (m : request)            (* a queued request finds no session *)
  | Direct (c : conn) (id : Z) (m : request)  (* performed at once, on the loop's thread *)
  | Missed (id : Z) (m : request)             (* the same, without a session *)
  | Disconnected (c : conn) (id : Z).         (* the disconnect callback of the application *)

Definition get_loop (i : Z) (s : service) : option IOLoopData := mIOLoopDatas s !! Z.to_nat i.

Definition set_loop (i : Z) (l : IOLoopData) (s : service) : service :=
  mk_service (<[Z.to_nat i := l]> (mIOLoopDatas s)) (heap s).

Definition set_heap (h : gmap conn channel) (s : service) : service := mk_service (mIOLoopDatas s) h.

(** ** Operations

    [None]: a failed assertion, a null or dangling pointer, an overflow. *)
Definition incID (l : IOLoopData) : option (Z * IOLoopData) :=
  next ← chk_int (mNextId l + 1); Some (mNextId l, mk_loop (mDataSockets l) next (procs l)).

Definition MakeID (i : Z) (l : IOLoopData) : option (Z * IOLoopData) :=
  '(index, ids) ← TypeIDS.claimID (mDataSockets l);
  '(iid, l) ← incID (mk_loop ids (mNextId l) (procs l));
  Some (sid_id (mk_sid (u16 i) (u16 index) (u32 iid)), l).

(** [mAsyncProcs.emplace_back]. *)
Definition enqueue (p : proc) (l : IOLoopData) : IOLoopData :=
  mk_loop (mDataSockets l) (mNextId l) (procs l ++ [p]).

Definition getIOLoopDataBySocketID (id : Z) (s : service) : option IOLoopData :=
  get_loop (loopIndex (sid_of id)) s.

(** The lookup of [IOLoopData::send] and [postSessionAsyncProc]. *)
Definition find_session (id : Z) (l : IOLoopData) (h : gmap conn channel) : option (option conn) :=
  tmp ← TypeIDS.get (index (sid_of id)) (mDataSockets l);
  match tmp with
  | None => Some None
  | Some c => ch ← h !! c; Some (if decide (mUD ch = Some id) then Some c else None)
  end.

(** The enter callback that [helpAddChannel] gives to the connection. *)
Definition enterCallback (c : conn) (s : service) : option (list event * service) :=
  ch ← heap s !! c;
  l ← get_loop (enterLoop ch) s;
  '(id, l) ← MakeID (enterLoop ch) l;
  ids ← TypeIDS.set (Some c) (index (sid_of id)) (mDataSockets l);
  Some ([Entered c id],
    set_heap (<[c := mk_channel (enterLoop ch) (Some id) (Some id)]> (heap s))
      (set_loop (enterLoop ch) (mk_loop ids (mNextId l) (procs l)) s)).

Definition procDataSocketClose (c : conn) (s : service) : option service :=
  ch ← heap s !! c;
  match mUD ch with
  | None => Some s
  | Some ud =>
      let sid := sid_of ud in
      l ← get_loop (loopIndex sid) s;
      ids ← TypeIDS.set None (index sid) (mDataSockets l);
      ids ← TypeIDS.reclaimID (index sid) ids;
      Some (set_loop (loopIndex sid) (mk_loop ids (mNextId l) (procs l)) s)
  end.

(** A procedure is called on the thread of the loop [i]: by the loop, which has taken it from
    its queue, or by [pushAsyncProc] ([direct]). [ok]: [onEnterEventLoop] succeeds. *)
Definition call_proc (direct : bool) (i : Z) (ok : bool) (p : proc) (s : service) : option (list event * service) :=
  match p with
  | OnEnter c => if ok then enterCallback c s else Some ([], set_heap (delete c (heap s)) s)
  | OnSession id m =>
      l ← get_loop i s;
      tmp ← find_session id l (heap s);
      Some (match tmp with
            | Some c => [if direct then Direct c id m else Performed c id m]
            | None => [if direct then Missed id m else Skipped id m]
            end, s)
  end.

Definition queue_event (p : proc) : list event :=
  match p with OnEnter _ => [] | OnSession id m => [Posted id m] end.

(** [EventLoop::pushAsyncProc] of the loop [i]. [thread]: the loop whose thread calls, if it
    is one; on its own thread the procedure is called at once. *)
Definition pushAsyncProc (thread : option Z) (i : Z) (ok : bool) (p : proc) (s : service) : option (list event * service) :=
  l ← get_loop i s;
  if decide (thread = Some i) then call_proc true i ok p s
  else Some (queue_event p, set_loop i (enqueue p l) s).

Definition postSessionAsyncProc (thread : option Z) (id : Z) (m : request) (s : service) : option (list event * service) :=
  _ ← getIOLoopDataBySocketID id s;
  pushAsyncProc thread (loopIndex (sid_of id)) true (OnSession id m) s.

(** [IOLoopData::send], which tests for the thread of the loop itself. *)
Definition ioloop_send (thread : option Z) (i id : Z) (packet : bytes) (s : service) : option (list event * service) :=
  l ← get_loop i s;
  if decide (thread = Some i) then
    tmp ← find_session id l (heap s);
    Some (match tmp with Some c => [Direct c id (Send packet)] | None => [Missed id (Send packet)] end, s)
  else pushAsyncProc thread i true (OnSession id (Send packet)) s.

Definition send (thread : option Z) (id : Z) (packet : bytes) (s : service) : option (list event * service) :=
  _ ← getIOLoopDataBySocketID id s;
  ioloop_send thread (loopIndex (sid_of id)) id packet s.

(** The disconnect callback of the connection: [delete] at its end. *)
Definition closeCallback (c : conn) (s : service) : option (list event * service) :=
  ch ← heap s !! c;
  id ← disConnectCallback ch;
  s ← procDataSocketClose c s;
  Some ([Disconnected c id], set_heap (delete c (heap s)) s).

(** [helpAddChannel] for a new connection at the address [c], called by [thread]; without
    loops, or outside a loop when the same thread is demanded, the connection is deleted.
    [ok]: [onEnterEventLoop] succeeds, where it is called at once. *)
Inductive placement := Rand (n : Z) | SameThread.

Definition place (thread : option Z) (p : placement) (s : service) : option Z :=
  match p with
  | Rand n => if decide (mIOLoopDatas s = []) then None else Some (n mod zlen (mIOLoopDatas s))
  | SameThread =>
      match thread with
      | Some i => if (0 <=? i) && (i <? zlen (mIOLoopDatas s)) then Some i else None
      | None => None
      end
  end.

Definition helpAddChannel (c : conn) (p : placement) (thread : option Z) (ok : bool) (s : service) :
    option (list event * service) :=
  match place thread p s with
  | None => Some ([], s)
  | Some i => pushAsyncProc thread i ok (OnEnter c) (set_heap (<[c := mk_channel i None None]> (heap s)) s)
  end.

Definition new_loop : IOLoopData := mk_loop TypeIDS.new 0 [].

Definition startWorkerThread (threadNum : Z) (s : service) : service :=
  if decide (mIOLoopDatas s = [])
  then mk_service (replicate (Z.to_nat threadNum) new_loop) (heap s) else s.

(** The threads are joined: what is posted is lost. *)
Definition stopWorkerThread (s : service) : service := mk_service [] (heap s).

(** The loop [i] runs its first procedure. *)
Definition run_proc (i : Z) (ok : bool) (s : service) : option (list event * service) :=
  l ← get_loop i s;
  match procs l with
  | [] => Some ([], s)
  | p :: rest => call_proc false i ok p (set_loop i (mk_loop (mDataSockets l) (mNextId l) rest) s)
  end.

(** *** Steps of all threads *)

Inductive step_label :=
  | AddSocket (c : conn) (p : placement) (thread : option Z) (ok : bool)
  | Post (thread : option Z) (id : Z) (m : request)
  | SendFrom (thread : option Z) (id : Z) (packet : bytes)
  | Run (i : Z) (ok : bool)
  | Close (c : conn).

Definition step (t : step_label) (s : service) : option (list event * service) :=
  match t with
  | AddSocket c p thread ok => helpAddChannel c p thread ok s
  | Post thread id m => postSessionAsyncProc thread id m s
  | SendFrom thread id packet => send thread id packet s
  | Run i ok => run_proc i ok s
  | Close c => closeCallback c s
  end.

(** ** The abstract service

    A session is a connection with a queue of requests; the events of a service are
    possible in this order only. What is asked on the loop's own thread passes by the queue. *)
Record session := mk_session { on : conn; is_open : bool; pending : list request }.

Abbreviation sessions := (gmap Z session).

Definition mailbox_step (A : sessions) (e : event) : option sessions :=
  match e with
  | Entered c id =>
      if decide (A !! id = None) then Some (<[id := mk_session c true []]> A) else None
  | Posted id m =>
      x ← A !! id; Some (<[id := mk_session (on x) (is_open x) (pending x ++ [m])]> A)
  | Performed c id m =>
      x ← A !! id;
      if decide (is_open x = true /\ on x = c /\ head (pending x) = Some m)
      then Some (<[id := mk_session (on x) true (tail (pending x))]> A) else None
  | Skipped id m =>
      x ← A !! id;
      if decide (is_open x = false /\ head (pending x) = Some m)
      then Some (<[id := mk_session (on x) false (tail (pending x))]> A) else None
  | Direct c id m => x ← A !! id; if decide (is_open x = true /\ on x = c) then Some A else None
  | Missed id m => x ← A !! id; if decide (is_open x = false) then Some A else None
  | Disconnected c id =>
      x ← A !! id;
      if decide (is_open x = true /\ on x = c)
      then Some (<[id := mk_session c false (pending x)]> A) else None
  end.

Fixpoint mailbox (A : sessions) (l : list event) : option sessions :=
  match l with
  | [] => Some A
  | e :: l => A ← mailbox_step A e; mailbox A l
  end.

(** The requests for [id] that the loop has not run. *)
Definition request_for (id : Z) (p : proc) : option request :=
  match p with OnSession i m => if decide (i = id) then Some m else None | OnEnter _ => None end.

Definition queued (id : Z) (s : service) : list request :=
  match get_loop (loopIndex (sid_of id)) s with
  | Some l => omap (request_for id) (procs l)
  | None => []
  end.
