(* ===== verification/TCPServiceRun.v ===== *)
(** * Runs of TcpService

    The invariant of the service and of its loops, the simulation by mailboxes, and
    what follows for every run: the order of the requests of a session, and the
    limit on the number of sessions. *)

From S2P Require Import Prelude.
From S2P Require Import Words.
From S2P Require Import Typeids.
From S2P Require Import TCPService.
From stdpp Require Import gmap.
#[local] Open Scope Z_scope.
#[local] Open Scope brynet_scope.

(** ** Well-formed services

    [n]: the number of loops. *)
Definition MAX_SESSIONS : Z := 65500.

Definition ids_ok (l : IOLoopData) : Prop :=
  TypeIDS.wf (mDataSockets l) /\ zlen (TypeIDS.mValues (mDataSockets l)) <= MAX_SESSIONS /\
  zlen (TypeIDS.mValues (mDataSockets l)) mod 100 = 0 /\ 0 <= mNextId l <= INT_MAX /\
  forall i, ~ TypeIDS.claimed (mDataSockets l) i -> 0 <= i ->
    znth (TypeIDS.mValues (mDataSockets l)) i None = None.

Definition slot (l : IOLoopData) (i : Z) : option conn := znth (TypeIDS.mValues (mDataSockets l)) i None.

(** A session on the loop it belongs to. *)
Definition session_ok (s : service) (id : Z) (x : session) : Prop :=
  exists l, get_loop (loopIndex (sid_of id)) s = Some l /\
    TypeIDS.inside (mDataSockets l) (index (sid_of id)) /\ iid (sid_of id) < mNextId l /\
    pending x = omap (request_for id) (procs l) /\
    (is_open x = true ->
      TypeIDS.claimed (mDataSockets l) (index (sid_of id)) /\ slot l (index (sid_of id)) = Some (on x) /\
      heap s !! on x = Some (mk_channel (loopIndex (sid_of id)) (Some id) (Some id))).

(** A connection on its way to its loop. *)
Definition entering_ok (s : service) (i : Z) (c : conn) : Prop :=
  heap s !! c = Some (mk_channel i None None).

Definition entering (p : proc) : option conn := match p with OnEnter c => Some c | OnSession _ _ => None end.

Definition all_entering (s : service) : list conn :=
  concat (map (fun l => omap entering (procs l)) (mIOLoopDatas s)).

Definition loop_ok (A : sessions) (s : service) (i : Z) (l : IOLoopData) : Prop :=
  ids_ok l /\
  (forall j, TypeIDS.claimed (mDataSockets l) j ->
     exists id x, A !! id = Some x /\ is_open x = true /\ loopIndex (sid_of id) = i /\ index (sid_of id) = j) /\
  Forall (fun p => match p with
    | OnEnter c => entering_ok s i c
    | OnSession id m => loopIndex (sid_of id) = i /\ is_Some (A !! id) end) (procs l).

Definition simulates (A : sessions) (s : service) : Prop :=
  zlen (mIOLoopDatas s) <= 2 ^ 16 /\
  (forall id x, A !! id = Some x -> session_ok s id x) /\
  (forall i l, 0 <= i -> get_loop i s = Some l -> loop_ok A s i l) /\
  NoDup (all_entering s).

(** ** Lemmas *)

Lemma sid_range id :
  0 <= loopIndex (sid_of id) < 2 ^ 16 /\ 0 <= index (sid_of id) < 2 ^ 16 /\ 0 <= iid (sid_of id) < 2 ^ 32.
Proof. unfold sid_of. cbn [loopIndex index iid]. split_and!; by apply wrap_range. Qed.

Lemma loop_nonneg id : 0 <= loopIndex (sid_of id).
Proof. apply sid_range. Qed.
Lemma index_nonneg id : 0 <= index (sid_of id).
Proof. apply (proj1 (proj2 (sid_range id))). Qed.

Lemma get_set_eq i l l' s : get_loop i s = Some l -> get_loop i (set_loop i l' s) = Some l'.
Proof. intros E. apply list_lookup_insert_eq. by eapply lookup_lt_Some. Qed.

Lemma get_set_ne i j l' s : 0 <= i -> 0 <= j -> i <> j -> get_loop j (set_loop i l' s) = get_loop j s.
Proof. intros ? ? ?. apply list_lookup_insert_ne. lia. Qed.

Lemma get_loop_bound i l s : get_loop i s = Some l -> (Z.to_nat i < length (mIOLoopDatas s))%nat.
Proof. intros E. apply lookup_lt_Some in E. lia. Qed.

(** The lists of all loops when one changes. *)
Lemma concat_update {A B} (f : A -> list B) (ls : list A) (i : nat) l :
  ls !! i = Some l -> exists rest, concat (map f ls) ≡ₚ f l ++ rest /\
    forall l', concat (map f (<[i := l']> ls)) ≡ₚ f l' ++ rest.
Proof.
  intros E. exists (concat (map f (take i ls)) ++ concat (map f (drop (S i) ls))).
  assert (H : forall a l1 l2, concat (map f (l1 ++ a :: l2)) ≡ₚ f a ++ concat (map f l1) ++ concat (map f l2)).
  { intros a l1 l2. rewrite map_app, concat_app. cbn [map concat]. solve_Permutation. }
  split.
  - rewrite <- (take_drop_middle ls i l E) at 1. apply H.
  - intros l'. rewrite insert_take_drop by (by eapply lookup_lt_Some). apply H.
Qed.

Section Simulation.
Context (A : sessions) (s : service) (Hs : simulates A s).

Lemma sim_session id x : A !! id = Some x -> session_ok s id x.
Proof. destruct Hs as (_ & H & _). apply H. Qed.

Lemma sim_loop i l : 0 <= i -> get_loop i s = Some l -> loop_ok A s i l.
Proof. destruct Hs as (_ & _ & H & _). apply H. Qed.

(** The connection in a slot is that of an open session. *)
Lemma slot_owner i l j c : 0 <= i -> get_loop i s = Some l -> 0 <= j -> slot l j = Some c ->
  exists id x, A !! id = Some x /\ is_open x = true /\ on x = c /\
    heap s !! c = Some (mk_channel i (Some id) (Some id)).
Proof.
  intros Hi E Hj Hc. destruct (sim_loop i l Hi E) as ((_ & _ & _ & _ & Hfree) & Hown & _).
  destruct (decide (TypeIDS.claimed (mDataSockets l) j)) as [Hn|Hn].
  - destruct (Hown j Hn) as (id & x & Ex & Ho & El & Ej).
    exists id, x. split; [exact Ex|]. split; [exact Ho|].
    destruct (sim_session id x Ex) as (l' & E' & _ & _ & _ & Hopen). rewrite El in E'. rewrite E in E'.
    injection E' as <-. destruct (Hopen Ho) as (_ & Hsl & Hh). rewrite Ej, Hc in Hsl. injection Hsl as ->.
    rewrite El in Hh. by split.
  - unfold slot in Hc. by rewrite Hfree in Hc.
Qed.

(** The lookup finds the connection of the session while it is open, and nothing then. *)
Lemma find_session_spec id x l : A !! id = Some x -> get_loop (loopIndex (sid_of id)) s = Some l ->
  find_session id l (heap s) = Some (if is_open x then Some (on x) else None).
Proof.
  intros Ex E. destruct (sim_session id x Ex) as (l' & E' & Hin & _ & _ & Hopen). rewrite E in E'. injection E' as <-.
  unfold find_session. rewrite TypeIDS.get_spec by done. cbn [mbind option_bind]. fold (slot l (index (sid_of id))).
  destruct (is_open x) eqn:Eo.
  - destruct (Hopen eq_refl) as (_ & -> & Hh). rewrite Hh. cbn [mbind option_bind mUD]. by rewrite decide_True.
  - destruct (slot l _) as [c|] eqn:Ec; [|done].
    destruct (slot_owner _ l _ c (loop_nonneg id) E (index_nonneg id) Ec)
      as (id' & x' & Ex' & Eo' & _ & Hh). rewrite Hh. cbn [mbind option_bind mUD].
    rewrite decide_False; [done|]. intros [= ->]. congruence.
Qed.
End Simulation.

(** One loop and one connection change. *)
Lemma sim_update A A' s i l l' h c0 :
  simulates A s -> 0 <= i -> get_loop i s = Some l ->
  (forall c, c <> c0 -> h !! c = heap s !! c) ->
  heap s !! c0 = None \/ (exists ch, heap s !! c0 = Some ch /\ enterLoop ch = i) ->
  (forall id, loopIndex (sid_of id) <> i -> A' !! id = A !! id) ->
  let s' := set_heap h (set_loop i l' s) in
  (forall id x, A' !! id = Some x -> loopIndex (sid_of id) = i -> session_ok s' id x) ->
  loop_ok A' s' i l' ->
  (forall rest, all_entering s ≡ₚ omap entering (procs l) ++ rest ->
     NoDup (omap entering (procs l) ++ rest) -> NoDup (omap entering (procs l') ++ rest)) ->
  simulates A' s'.
Proof.
  intros Hs Hi E Hh Hc0 HA s' Hses Hloop Hnd. pose proof Hs as (Hn & Hsim & Hl & Hdup).
  (* a connection of another loop is not touched *)
  assert (Hother : forall c j ud d, j <> i -> heap s !! c = Some (mk_channel j ud d) ->
    h !! c = Some (mk_channel j ud d)).
  { intros c j ud d Hj Ec. rewrite Hh; [done|]. intros ->.
    destruct Hc0 as [Hc0|(ch & Hc0 & El)]; rewrite Ec in Hc0; [done|]. injection Hc0 as <-. by simpl in El. }
  split; [|split; [|split]].
  - cbn. unfold zlen in *. by rewrite length_insert.
  - intros id x Ex. destruct (decide (loopIndex (sid_of id) = i)) as [El|El]; [by apply Hses|].
    rewrite HA in Ex by done. destruct (Hsim id x Ex) as (l0 & E0 & H1 & H2 & H3 & H4).
    exists l0. change (get_loop (loopIndex (sid_of id)) s') with (get_loop (loopIndex (sid_of id)) (set_loop i l' s)).
    rewrite get_set_ne by (done || apply loop_nonneg || congruence). split_and!; try done.
    intros Ho. destruct (H4 Ho) as (H5 & H6 & H7). split_and!; try done. by apply Hother.
  - intros j l0 Hj E0. change (get_loop j s') with (get_loop j (set_loop i l' s)) in E0.
    destruct (decide (j = i)) as [->|Hne].
    + rewrite (get_set_eq _ l) in E0 by done. by injection E0 as <-.
    + rewrite get_set_ne in E0 by (done || congruence). destruct (Hl j l0 Hj E0) as (H1 & H2 & H3). split; [done|]. split.
      * intros k Hk. destruct (H2 k Hk) as (id & x & Ex & Ho & El & Ek). exists id, x.
        rewrite HA by congruence. done.
      * eapply Forall_impl; [exact H3|]. intros [c|id m].
        -- intros Hc. by apply Hother.
        -- intros [El Hid]. split; [done|]. by rewrite HA by congruence.
  - unfold all_entering in *. unfold get_loop in E.
    destruct (concat_update (fun l => omap entering (procs l)) _ _ _ E) as (rest & P1 & P2).
    cbn [mIOLoopDatas s' set_heap set_loop]. rewrite P2. rewrite P1 in Hdup. by apply Hnd.
Qed.

(** Only the queue of the loop changes. *)
Lemma sim_requeue A A' s i l ps :
  simulates A s -> 0 <= i -> get_loop i s = Some l ->
  (forall id, loopIndex (sid_of id) <> i -> A' !! id = A !! id) ->
  (forall id x', A' !! id = Some x' -> loopIndex (sid_of id) = i -> exists x, A !! id = Some x /\
     on x' = on x /\ is_open x' = is_open x /\ pending x' = omap (request_for id) ps) ->
  (forall id x, A !! id = Some x -> exists x', A' !! id = Some x' /\ is_open x' = is_open x) ->
  Forall (fun p => match p with OnEnter c => entering_ok s i c
    | OnSession id m => loopIndex (sid_of id) = i /\ is_Some (A !! id) end) ps ->
  omap entering ps = omap entering (procs l) ->
  simulates A' (set_loop i (mk_loop (mDataSockets l) (mNextId l) ps) s).
Proof.
  intros Hs Hi E HA1 HA2 HA3 Hps Hent. set (l' := mk_loop _ _ ps).
  destruct (sim_loop A s Hs i l Hi E) as (Hids & Hown & _).
  assert (Eh : heap s !! fresh (dom (heap s)) = None) by apply not_elem_of_dom, is_fresh.
  refine (sim_update A A' s i l l' (heap s) _ Hs Hi E _ (or_introl Eh) HA1 _ _ _); [done|..].
  - intros id x' Ex' El. destruct (HA2 id x' Ex' El) as (x & Ex & E1 & E2 & E3).
    destruct (sim_session A s Hs id x Ex) as (l0 & E0 & H1 & H2 & _ & H4).
    rewrite El, E in E0. injection E0 as <-. exists l'. rewrite El.
    split; [by apply (get_set_eq _ l)|]. split_and!; try done. rewrite E1, E2. rewrite El in H4. exact H4.
  - split; [done|]. split.
    + intros j Hj. destruct (Hown j Hj) as (id & x & Ex & Ho & El & Ej).
      destruct (HA3 id x Ex) as (x' & Ex' & Eo). exists id, x'. by rewrite Eo.
    + eapply Forall_impl; [exact Hps|]. intros [c|id m]; [done|]. intros [El [x Ex]]. split; [done|].
      destruct (HA3 id x Ex) as (x' & Ex' & _). by eexists.
  - intros rest. change (procs l') with ps. by rewrite Hent.
Qed.

(** ** The steps *)

(** What the threads may do: a connection is created at an address that is not in
    use; identifiers come from the enter callback; a loop takes a new connection
    while it has less than 65500 sessions and has not had 2^31 - 1; the disconnect
    callback of a connection is called once, after its enter callback. *)
Definition live (l : IOLoopData) : Z :=
  zlen (TypeIDS.mValues (mDataSockets l)) - zlen (TypeIDS.mIds (mDataSockets l)).

Definition has_room (l : IOLoopData) : Prop := live l < MAX_SESSIONS /\ mNextId l < INT_MAX.

Definition allowed (A : sessions) (s : service) (t : step_label) : Prop :=
  match t with
  | AddSocket c p thread ok => heap s !! c = None /\
      forall i l, thread = Some i -> place thread p s = Some i -> get_loop i s = Some l -> has_room l
  | Post _ id _ | SendFrom _ id _ => is_Some (A !! id)
  | Run i ok => exists l, 0 <= i /\ get_loop i s = Some l /\
      match procs l with
      | OnEnter _ :: _ => has_room l
      | _ => True
      end
  | Close c => exists id x, A !! id = Some x /\ is_open x = true /\ on x = c
  end.

Definition simulated (A : sessions) (r : option (list event * service)) : Prop :=
  exists evs s A', r = Some (evs, s) /\ mailbox A evs = Some A' /\ simulates A' s.

Lemma mailbox_one A e A' : mailbox_step A e = Some A' -> mailbox A [e] = Some A'.
Proof. intros E. cbn. by rewrite E. Qed.

Lemma omap_request id i m :
  omap (request_for id) [OnSession i m] = if decide (i = id) then [m] else [].
Proof. cbn. by case_decide. Qed.

(** A request is posted. *)
Lemma sim_post A s id x m l : simulates A s -> A !! id = Some x ->
  get_loop (loopIndex (sid_of id)) s = Some l ->
  simulates (<[id := mk_session (on x) (is_open x) (pending x ++ [m])]> A)
    (set_loop (loopIndex (sid_of id)) (enqueue (OnSession id m) l) s).
Proof.
  intros Hs Ex E. destruct (sim_loop A s Hs _ l (loop_nonneg id) E) as (_ & _ & Hps).
  apply (sim_requeue A); try done.
  - apply loop_nonneg.
  - intros id' Hne. rewrite lookup_insert_ne; [done|]. by intros ->.
  - intros id' x' Ex' El. rewrite omap_app, omap_request. destruct (decide (id = id')) as [<-|Hne].
    + rewrite lookup_insert_eq in Ex'. injection Ex' as <-. exists x. split_and!; try done.
      destruct (sim_session A s Hs id x Ex) as (l0 & E0 & _ & _ & Hp & _). rewrite E in E0. injection E0 as <-.
      cbn [pending]. by rewrite Hp.
    + rewrite lookup_insert_ne in Ex' by done. exists x'. split_and!; try done.
      destruct (sim_session A s Hs id' x' Ex') as (l0 & E0 & _ & _ & Hp & _). rewrite El, E in E0.
      injection E0 as <-. by rewrite Hp, app_nil_r.
  - intros id' x' Ex'. destruct (decide (id = id')) as [<-|Hne].
    + rewrite lookup_insert_eq. rewrite Ex in Ex'. injection Ex' as <-. by eexists.
    + rewrite lookup_insert_ne by done. by eexists.
  - apply Forall_app. split; [exact Hps|]. constructor; [|done]. split; [done|]. by eexists.
  - by rewrite omap_app, app_nil_r.
Qed.

(** A request is taken from the queue of the loop. *)
Lemma sim_take A s id x m l rest : simulates A s -> A !! id = Some x ->
  get_loop (loopIndex (sid_of id)) s = Some l -> procs l = OnSession id m :: rest ->
  head (pending x) = Some m /\
  simulates (<[id := mk_session (on x) (is_open x) (tail (pending x))]> A)
    (set_loop (loopIndex (sid_of id)) (mk_loop (mDataSockets l) (mNextId l) rest) s).
Proof.
  intros Hs Ex E Ep. destruct (sim_loop A s Hs _ l (loop_nonneg id) E) as (_ & _ & Hps).
  rewrite Ep in Hps. apply Forall_cons in Hps as [_ Hps].
  assert (Hq : forall id' x', A !! id' = Some x' -> loopIndex (sid_of id') = loopIndex (sid_of id) ->
    pending x' = omap (request_for id') [OnSession id m] ++ omap (request_for id') rest).
  { intros id' x' Ex' El. destruct (sim_session A s Hs id' x' Ex') as (l0 & E0 & _ & _ & Hp & _).
    rewrite El, E in E0. injection E0 as <-. rewrite Hp, Ep. by rewrite <- omap_app. }
  pose proof (Hq id x Ex eq_refl) as Hx. rewrite omap_request, decide_True in Hx by done.
  rewrite Hx. split; [done|]. apply (sim_requeue A); try done.
  - apply loop_nonneg.
  - intros id' Hne. rewrite lookup_insert_ne; [done|]. by intros ->.
  - intros id' x' Ex' El. destruct (decide (id = id')) as [<-|Hne].
    + rewrite lookup_insert_eq in Ex'. injection Ex' as <-. by exists x.
    + rewrite lookup_insert_ne in Ex' by done. exists x'. split_and!; try done.
      specialize (Hq id' x' Ex' El). rewrite omap_request, decide_False in Hq by done. exact Hq.
  - intros id' x' Ex'. destruct (decide (id = id')) as [<-|Hne].
    + rewrite lookup_insert_eq. rewrite Ex in Ex'. injection Ex' as <-. by eexists.
    + rewrite lookup_insert_ne by done. by eexists.
  - by rewrite Ep.
Qed.

(** A request is called: the session is found while it is open. *)
Lemma call_request direct A s id x m l : simulates A s -> A !! id = Some x ->
  get_loop (loopIndex (sid_of id)) s = Some l ->
  forall ok, call_proc direct (loopIndex (sid_of id)) ok (OnSession id m) s =
    Some ([if is_open x then (if direct then Direct (on x) id m else Performed (on x) id m)
           else if direct then Missed id m else Skipped id m], s).
Proof.
  intros Hs Ex E ok. cbn [call_proc]. rewrite E. cbn [mbind option_bind].
  rewrite (find_session_spec A s Hs id x l Ex E). cbn [mbind option_bind]. by destruct (is_open x).
Qed.

Lemma step_push A s thread id m : simulates A s -> is_Some (A !! id) ->
  simulated A (pushAsyncProc thread (loopIndex (sid_of id)) true (OnSession id m) s).
Proof.
  intros Hs [x Ex]. destruct (sim_session A s Hs id x Ex) as (l & E & _).
  unfold pushAsyncProc. rewrite E. cbn [mbind option_bind]. case_decide.
  - rewrite (call_request true A s id x m l Hs Ex E). eexists _, _, A. split; [done|]. split; [|done].
    destruct (is_open x) eqn:Eo; apply mailbox_one; cbn; rewrite Ex; cbn; by rewrite decide_True.
  - eexists _, _, _. split; [done|]. split; [|by apply sim_post]. apply mailbox_one. cbn. by rewrite Ex.
Qed.

Lemma step_post A s thread id m : simulates A s -> is_Some (A !! id) ->
  simulated A (postSessionAsyncProc thread id m s).
Proof.
  intros Hs Hid. pose proof Hid as [x Ex]. destruct (sim_session A s Hs id x Ex) as (l & E & _).
  unfold postSessionAsyncProc, getIOLoopDataBySocketID. rewrite E. cbn [mbind option_bind]. by apply step_push.
Qed.

(** [send] does the same as the other requests. *)
Lemma send_posts thread id b s : send thread id b s = postSessionAsyncProc thread id (Send b) s.
Proof.
  unfold send, ioloop_send, postSessionAsyncProc, pushAsyncProc, getIOLoopDataBySocketID.
  destruct (get_loop _ s) as [l|] eqn:E; [|done]. cbn [mbind option_bind]. case_decide; [|done].
  cbn [call_proc]. rewrite E. cbn [mbind option_bind]. by destruct (find_session id l (heap s)) as [[c|]|].
Qed.

Lemma step_request A s id m l rest ok : simulates A s -> get_loop (loopIndex (sid_of id)) s = Some l ->
  procs l = OnSession id m :: rest -> is_Some (A !! id) ->
  simulated A (run_proc (loopIndex (sid_of id)) ok s).
Proof.
  intros Hs E Ep [x Ex]. destruct (sim_take A s id x m l rest Hs Ex E Ep) as [Hh Hs'].
  unfold run_proc. rewrite E. cbn [mbind option_bind]. rewrite Ep.
  set (l' := mk_loop _ _ rest) in *. set (s' := set_loop _ l' s) in *.
  rewrite (call_request false _ s' id (mk_session (on x) (is_open x) (tail (pending x))) m l' Hs');
    [|by rewrite lookup_insert_eq|by apply (get_set_eq _ l)]. cbn [is_open on].
  eexists _, s', _. split; [done|]. split; [|exact Hs'].
  destruct (is_open x) eqn:Eo; apply mailbox_one; cbn; rewrite Ex; cbn; rewrite decide_True by done; by rewrite ?Eo.
Qed.

(** A connection is placed on a loop that there is. *)
Lemma place_loop thread p s i : place thread p s = Some i -> 0 <= i /\ exists l, get_loop i s = Some l.
Proof.
  intros Ep. assert (Hi : 0 <= i < zlen (mIOLoopDatas s)).
  { unfold place in Ep. destruct p as [n|]; [|destruct thread as [t|]]; [|by destruct (0 <=? t) eqn:E1, (t <? _) eqn:E2; zprop; cbn in Ep; simplify_eq|done].
    case_decide as En; [done|]. injection Ep as <-. apply Z.mod_pos_bound.
    destruct (mIOLoopDatas s); [done|]. rewrite zlen_cons. pose proof (zlen_nonneg l). lia. }
  split; [lia|]. apply lookup_lt_is_Some_2. unfold zlen in Hi. lia.
Qed.

(** A connection that is about to enter the loop [i]: no procedure is queued for it. *)
Definition about_to_enter (A : sessions) (s : service) (i : Z) (c : conn) : Prop :=
  simulates A s /\ entering_ok s i c /\ c ∉ all_entering s.

Lemma in_all_entering i l c s : get_loop i s = Some l -> OnEnter c ∈ procs l -> c ∈ all_entering s.
Proof.
  intros E Hin. unfold all_entering, get_loop in *.
  destruct (concat_update (fun l => omap entering (procs l)) _ _ _ E) as (more & P1 & _). rewrite P1.
  apply elem_of_app. left. apply list_elem_of_omap. by exists (OnEnter c).
Qed.

(** Every connection that is to enter is in use. *)
Lemma entering_in_use A s c : simulates A s -> c ∈ all_entering s -> is_Some (heap s !! c).
Proof.
  intros (_ & _ & Hl & _) Hin. unfold all_entering in Hin.
  apply list_elem_of_In, in_concat in Hin as (k & Hk & Hin). apply in_map_iff in Hk as (l0 & <- & Hl0).
  apply list_elem_of_In, list_elem_of_lookup in Hl0 as (j & Ej).
  apply list_elem_of_In, list_elem_of_omap in Hin as (p & Hp & Ep).
  destruct (Hl (Z.of_nat j) l0) as (_ & _ & Hf); [lia|unfold get_loop; by rewrite Nat2Z.id|].
  rewrite Forall_forall in Hf. specialize (Hf p Hp). destruct p as [c'|]; [|done]. injection Ep as ->.
  unfold entering_ok in Hf. by eexists.
Qed.

Lemma set_same_loop i l s : get_loop i s = Some l -> set_loop i l s = s.
Proof. intros E. unfold set_loop. rewrite list_insert_id by exact E. by destruct s. Qed.

(** A new connection. *)
Lemma new_connection A s i l c : simulates A s -> heap s !! c = None -> 0 <= i -> get_loop i s = Some l ->
  about_to_enter A (set_heap (<[c := mk_channel i None None]> (heap s)) s) i c.
Proof.
  intros Hs Hc Hi E. destruct (sim_loop A s Hs i l Hi E) as (Hids & Hown & Hps).
  split; [|split; [unfold entering_ok; cbn; by rewrite lookup_insert_eq|]].
  - rewrite <- (set_same_loop i l s E) at 2.
    refine (sim_update A A s i l l _ c Hs Hi E _ (or_introl Hc) _ _ _ _); [|done|..].
    + intros c' Hne. by rewrite lookup_insert_ne.
    + intros id x Ex El. destruct (sim_session A s Hs id x Ex) as (l0 & E0 & H1 & H2 & H3 & H4).
      rewrite El, E in E0. injection E0 as <-. exists l. rewrite El in *.
      split; [by apply (get_set_eq _ l)|]. split_and!; try done.
      intros Ho. destruct (H4 Ho) as (H5 & H6 & H7). split; [exact H5|]. split; [exact H6|].
      cbn. rewrite lookup_insert_ne; [exact H7|]. intros ->. congruence.
    + split; [exact Hids|]. split; [exact Hown|].
      eapply Forall_impl; [exact Hps|]. intros [c'|id m]; [|done]. unfold entering_ok. intros Hc'.
      cbn. rewrite lookup_insert_ne; [exact Hc'|]. intros <-. congruence.
    + done.
  - intros Hin. destruct (entering_in_use A s c Hs Hin). congruence.
Qed.

(** Its entry is queued. *)
Lemma enter_queued A s i l c : about_to_enter A s i c -> 0 <= i -> get_loop i s = Some l ->
  simulates A (set_loop i (enqueue (OnEnter c) l) s).
Proof.
  intros (Hs & Hc & Hni) Hi E. destruct (sim_loop A s Hs i l Hi E) as (Hids & Hown & Hps).
  refine (sim_update A A s i l _ (heap s) c Hs Hi E _ (or_intror (ex_intro _ _ (conj Hc eq_refl))) _ _ _ _); [done|done|..].
  - intros id x Ex El. destruct (sim_session A s Hs id x Ex) as (l0 & E0 & H1 & H2 & H3 & H4).
    rewrite El, E in E0. injection E0 as <-. exists (enqueue (OnEnter c) l). rewrite El in *.
    split; [by apply (get_set_eq _ l)|]. split_and!; try done.
    cbn [procs enqueue]. by rewrite omap_app, app_nil_r.
  - split; [exact Hids|]. split; [exact Hown|]. apply Forall_app. split; [exact Hps|]. by repeat constructor.
  - intros rest P Hnd. cbn [procs enqueue]. rewrite omap_app. cbn [omap list_omap entering].
    rewrite <- app_assoc, (Permutation_app_comm _ ([c] ++ rest)), <- app_assoc, (Permutation_app_comm rest).
    cbn [app]. constructor; [|exact Hnd]. by rewrite <- P.
Qed.

(** The first procedure of a loop is the entry of [c]: it is taken. *)
Lemma enter_taken A s i l c rest : simulates A s -> 0 <= i -> get_loop i s = Some l ->
  procs l = OnEnter c :: rest ->
  about_to_enter A (set_loop i (mk_loop (mDataSockets l) (mNextId l) rest) s) i c.
Proof.
  intros Hs Hi E Ep. destruct (sim_loop A s Hs i l Hi E) as (Hids & Hown & Hps). rewrite Ep in Hps.
  apply Forall_cons in Hps as [Hc Hps]. pose proof Hs as (_ & _ & _ & Hdup).
  pose proof E as E'. unfold get_loop in E'.
  destruct (concat_update (fun l => omap entering (procs l)) _ _ _ E') as (more & P1 & P2).
  split; [|split; [exact Hc|]].
  - refine (sim_update A A s i l _ (heap s) c Hs Hi E _ (or_intror (ex_intro _ _ (conj Hc eq_refl))) _ _ _ _); [done|done|..].
    + intros id x Ex El. destruct (sim_session A s Hs id x Ex) as (l0 & E0 & H1 & H2 & H3 & H4).
      rewrite El, E in E0. injection E0 as <-. exists (mk_loop (mDataSockets l) (mNextId l) rest). rewrite El in *.
      split; [by apply (get_set_eq _ l)|]. split_and!; try done. by rewrite H3, Ep.
    + split; [exact Hids|]. split; [exact Hown|exact Hps].
    + intros more' _ Hnd. rewrite Ep in Hnd. cbn [omap list_omap entering app] in Hnd. by apply NoDup_cons in Hnd as [_ Hnd].
  - unfold all_entering. cbn [mIOLoopDatas set_loop]. rewrite P2. unfold all_entering in Hdup. rewrite P1, Ep in Hdup.
    cbn [omap list_omap entering app] in Hdup. by apply NoDup_cons in Hdup as [Hni _].
Qed.

(** An open session is on another connection than one that has not entered. *)
Lemma open_not_entering A s id x i c : simulates A s -> A !! id = Some x -> is_open x = true ->
  heap s !! c = Some (mk_channel i None None) -> on x <> c.
Proof.
  intros Hs Ex Ho Hc E. destruct (sim_session A s Hs id x Ex) as (l & _ & _ & _ & _ & H).
  destruct (H Ho) as (_ & _ & Hh). rewrite E in Hh. rewrite Hc in Hh. by injection Hh.
Qed.

(** Those that are queued are other connections. *)
Lemma others_entering A s i l c : about_to_enter A s i c -> 0 <= i -> get_loop i s = Some l ->
  Forall (fun p => match p with OnEnter c' => entering_ok s i c' /\ c' <> c
    | OnSession id m => loopIndex (sid_of id) = i /\ is_Some (A !! id) end) (procs l).
Proof.
  intros (Hs & _ & Hni) Hi E. destruct (sim_loop A s Hs i l Hi E) as (_ & _ & Hps).
  apply Forall_forall. intros [c'|id m] Hin; rewrite Forall_forall in Hps; specialize (Hps _ Hin); [|done].
  split; [exact Hps|]. intros ->. apply Hni. by eapply in_all_entering.
Qed.

(** The connection could not enter. *)
Lemma enter_failed A s i l c : about_to_enter A s i c -> 0 <= i -> get_loop i s = Some l ->
  simulates A (set_heap (delete c (heap s)) s).
Proof.
  intros Hc Hi E. pose proof (others_entering A s i l c Hc Hi E) as Hps. destruct Hc as (Hs & Hc & _).
  destruct (sim_loop A s Hs i l Hi E) as (Hids & Hown & _).
  rewrite <- (set_same_loop i l s E) at 2.
  refine (sim_update A A s i l l _ c Hs Hi E _ (or_intror (ex_intro _ _ (conj Hc eq_refl))) _ _ _ _); [|done|..|done].
  - intros c' Hne. by rewrite lookup_delete_ne.
  - intros id x Ex El. destruct (sim_session A s Hs id x Ex) as (l0 & E0 & H1 & H2 & H3 & H4).
    rewrite El, E in E0. injection E0 as <-. exists l. rewrite El in *.
    split; [by apply (get_set_eq _ l)|]. split_and!; try done.
    intros Ho. destruct (H4 Ho) as (H5 & H6 & H7). split; [exact H5|]. split; [exact H6|].
    cbn. rewrite lookup_delete_ne; [exact H7|]. apply not_eq_sym. by eapply open_not_entering.
  - split; [exact Hids|]. split; [exact Hown|]. eapply Forall_impl; [exact Hps|]. intros [c'|id m]; [|done].
    intros [Hc' Hne]. unfold entering_ok in *. cbn. by rewrite lookup_delete_ne.
Qed.

(** The identifier of the next session of a loop. *)
Lemma make_id A s i l : simulates A s -> 0 <= i -> get_loop i s = Some l ->
  live l < MAX_SESSIONS -> mNextId l < INT_MAX ->
  exists id l', MakeID i l = Some (id, l') /\ A !! id = None /\ loopIndex (sid_of id) = i /\
    iid (sid_of id) = mNextId l /\ mNextId l' = mNextId l + 1 /\ procs l' = procs l /\
    TypeIDS.wf (mDataSockets l') /\ ~ TypeIDS.claimed (mDataSockets l) (index (sid_of id)) /\
    (forall j, TypeIDS.claimed (mDataSockets l') j <-> j = index (sid_of id) \/ TypeIDS.claimed (mDataSockets l) j) /\
    (forall j, slot l' j = slot l j) /\
    zlen (TypeIDS.mValues (mDataSockets l)) <= zlen (TypeIDS.mValues (mDataSockets l')) <= MAX_SESSIONS /\
    zlen (TypeIDS.mValues (mDataSockets l')) mod 100 = 0.
Proof.
  intros Hs Hi E Hlive Hnext. destruct (sim_loop A s Hs i l Hi E) as ((Hwf & Hmax & Hmod & Hn & _) & _).
  destruct (TypeIDS.claim_spec (mDataSockets l) Hwf) as (k & ids & Ek & Hwf' & Hfree & Hk & Hcl & Hval & Hsize).
  assert (Hlen : zlen (TypeIDS.mValues ids) <= MAX_SESSIONS /\ zlen (TypeIDS.mValues ids) mod 100 = 0 /\
    zlen (TypeIDS.mValues (mDataSockets l)) <= zlen (TypeIDS.mValues ids)).
  { rewrite Hsize. unfold live, MAX_SESSIONS in *. case_decide as Em.
    - rewrite Em in Hlive. change (zlen []) with 0 in Hlive. change TypeIDS._NUM with 100.
      split_and!; [|dlia|lia]. dlia.
    - rewrite Z.add_0_r. split_and!; try done. }
  assert (Hkin : TypeIDS.claimed ids k) by (apply Hcl; by left).
  assert (Hk2 : 0 <= k < 2 ^ 16) by (destruct Hkin as [[? ?] _]; unfold MAX_SESSIONS in *; lia).
  assert (Hi2 : 0 <= i < 2 ^ 16).
  { destruct Hs as (Hz & _). apply get_loop_bound in E. unfold zlen in Hz. lia. }
  assert (Hsid : sid_of (sid_id (mk_sid (u16 i) (u16 k) (u32 (mNextId l)))) = mk_sid i k (mNextId l)).
  { unfold INT_MAX in *. rewrite !wrap_small by lia. apply sid_of_id; cbn; lia. }
  exists (sid_id (mk_sid (u16 i) (u16 k) (u32 (mNextId l)))), (mk_loop ids (mNextId l + 1) (procs l)).
  unfold MakeID. rewrite Ek. cbn [mbind option_bind mNextId]. unfold incID. cbn [mNextId mDataSockets procs].
  rewrite chk_int_ok by (unfold INT_MAX in *; lia). cbn [mbind option_bind]. rewrite Hsid. cbn [loopIndex iid index].
  split; [done|]. split.
  { apply eq_None_not_Some. intros [x Ex]. destruct (sim_session A s Hs _ x Ex) as (l0 & E0 & _ & H & _).
    rewrite Hsid in E0, H. cbn [loopIndex iid] in *. rewrite E in E0. injection E0 as <-. lia. }
  split_and!; try done; lia.
Qed.

(** Nothing is queued for an identifier that was not given. *)
Lemma no_requests (A : sessions) (P : conn -> Prop) (i id : Z) ps :
  Forall (fun p => match p with OnEnter c => P c
    | OnSession id m => loopIndex (sid_of id) = i /\ is_Some (A !! id) end) ps ->
  A !! id = None -> omap (request_for id) ps = [].
Proof.
  intros H Hn. induction H as [|p ps Hp Hps IH]; [done|]. cbn [omap list_omap].
  destruct p as [c|id' m]; cbn [request_for]; [exact IH|]. destruct (decide (id' = id)) as [->|]; [|exact IH].
  destruct Hp as [_ [x Hx]]. congruence.
Qed.

(** The connection enters. *)
Lemma enter_succeeded A s i l c : about_to_enter A s i c -> 0 <= i -> get_loop i s = Some l -> has_room l ->
  simulated A (enterCallback c s).
Proof.
  intros Hent Hi E [Hlive Hnext]. pose proof (others_entering A s i l c Hent Hi E) as Hrest.
  destruct Hent as (Hs & Hc & _). unfold entering_ok in Hc.
  unfold enterCallback. rewrite Hc. cbn [mbind option_bind enterLoop]. rewrite E. cbn [mbind option_bind].
  destruct (make_id A s i l Hs Hi E Hlive Hnext)
    as (id & l' & Em & Hnew & Eli & Eiid & En & Epr & Hwf & Hfree & Hcl & Hslot & Hsize & Hmod).
  rewrite Em. cbn [mbind option_bind mDataSockets].
  assert (Hk : TypeIDS.claimed (mDataSockets l') (index (sid_of id))) by (apply Hcl; by left).
  destruct (TypeIDS.set_spec (mDataSockets l') (Some c) (index (sid_of id)) Hwf Hk)
    as (ids & -> & Hwf' & Hcl' & Hval & Hlen). cbn [mbind option_bind].
  set (l2 := mk_loop ids _ _).
  eexists _, _, (<[id := mk_session c true []]> A). split; [done|]. split.
  { apply mailbox_one. cbn. by rewrite decide_True. }
  assert (Hins : forall j, TypeIDS.inside (mDataSockets l) j -> TypeIDS.inside ids j).
  { unfold TypeIDS.inside. rewrite Hlen. intros. lia. }
  destruct (sim_loop A s Hs i l Hi E) as ((_ & _ & _ & _ & Hnone) & Hown & _).
  refine (sim_update A _ s i l l2 _ c Hs Hi E _ (or_intror (ex_intro _ _ (conj Hc eq_refl))) _ _ _ _).
  - intros c' Hne. by rewrite lookup_insert_ne.
  - intros id' Hne. rewrite lookup_insert_ne; [done|]. intros <-. by apply Hne.
  - intros id' x Ex El. exists l2. rewrite El. split; [by apply (get_set_eq _ l)|]. destruct (decide (id = id')) as [<-|Hne].
    + rewrite lookup_insert_eq in Ex. injection Ex as <-. cbn [pending on is_open].
      split; [apply Hcl'; exact Hk|]. split; [change (mNextId l2) with (mNextId l'); lia|]. split.
      * symmetry. cbn [l2 procs]. rewrite Epr. exact (no_requests A (fun c' => entering_ok s i c' /\ c' <> c) i id _ Hrest Hnew).
      * intros _. split; [by apply Hcl'|]. split.
        -- unfold slot, l2. cbn [mDataSockets]. rewrite Hval by apply index_nonneg. by rewrite decide_True.
        -- cbn. by rewrite lookup_insert_eq.
    + rewrite lookup_insert_ne in Ex by done.
      destruct (sim_session A s Hs id' x Ex) as (l0 & E0 & H1 & H2 & H3 & H4).
      rewrite El, E in E0. injection E0 as <-. split; [by apply Hins|]. split; [change (mNextId l2) with (mNextId l'); lia|]. split.
      * cbn [l2 procs]. by rewrite H3, Epr.
      * intros Ho. destruct (H4 Ho) as (H5 & H6 & H7). split; [apply Hcl', Hcl; by right|]. split.
        -- unfold slot, l2. cbn [mDataSockets]. rewrite Hval by apply index_nonneg. rewrite decide_False.
           ++ fold (slot l' (index (sid_of id'))). by rewrite Hslot.
           ++ intros Eq. apply Hfree. by rewrite <- Eq.
        -- cbn. rewrite El in H7. rewrite lookup_insert_ne; [exact H7|]. apply not_eq_sym. by eapply open_not_entering.
  - split; [|split].
    + split; [exact Hwf'|]. cbn [l2 mDataSockets mNextId]. rewrite Hlen. split; [lia|]. split; [exact Hmod|].
      destruct (sim_loop A s Hs i l Hi E) as ((_ & _ & _ & Hn & _) & _). split; [lia|]. intros j Hj H0.
      rewrite Hval by done. rewrite Hcl', Hcl in Hj. rewrite decide_False by (intros ->; apply Hj; by left).
      fold (slot l' j). rewrite Hslot. apply Hnone; [|done]. intros H. apply Hj. by right.
    + intros j Hj. apply Hcl', Hcl in Hj as [->|Hj].
      * exists id, (mk_session c true []). by rewrite lookup_insert_eq.
      * destruct (Hown j Hj) as (id' & x & Ex & Ho & El & Ej). exists id', x. rewrite lookup_insert_ne; [done|].
        intros <-. congruence.
    + cbn [l2 procs]. rewrite Epr. eapply Forall_impl; [exact Hrest|]. intros [c'|id' m].
      * intros [Hc' Hne]. unfold entering_ok in *. cbn. by rewrite lookup_insert_ne.
      * intros [El Hid]. split; [exact El|]. apply lookup_insert_is_Some'. by right.
  - intros more _. cbn [l2 procs]. by rewrite Epr.
Qed.

(** Both outcomes of an entry. *)
Lemma step_enter direct A s i l c ok : about_to_enter A s i c -> 0 <= i -> get_loop i s = Some l ->
  (ok = true -> has_room l) -> simulated A (call_proc direct i ok (OnEnter c) s).
Proof.
  intros Hc Hi E Hr. cbn [call_proc]. destruct ok; [by apply (enter_succeeded A s i l c Hc Hi E), Hr|].
  eexists _, _, A. split; [done|]. split; [done|]. by apply (enter_failed A s i l).
Qed.

Lemma step_add A s c p thread ok : simulates A s -> allowed A s (AddSocket c p thread ok) ->
  simulated A (helpAddChannel c p thread ok s).
Proof.
  intros Hs [Hc Hroom]. unfold helpAddChannel. destruct (place thread p s) as [i|] eqn:Ep; [|by exists [], s, A].
  destruct (place_loop thread p s i Ep) as (Hi & l & E).
  pose proof (new_connection A s i l c Hs Hc Hi E) as Hent. set (s' := set_heap _ s) in *.
  assert (E' : get_loop i s' = Some l) by exact E.
  unfold pushAsyncProc. rewrite E'. cbn [mbind option_bind]. case_decide as Et.
  - apply (step_enter _ A s' i l); try done. intros _. by apply (Hroom i).
  - eexists _, _, A. split; [done|]. split; [done|]. by apply (enter_queued A s' i l).
Qed.

(** A session closes. *)
Lemma step_close A s id x c : simulates A s -> A !! id = Some x -> is_open x = true -> on x = c ->
  simulated A (closeCallback c s).
Proof.
  intros Hs Ex Ho <-. destruct (sim_session A s Hs id x Ex) as (l & E & Hin & Hiid & Hp & Hopen).
  destruct (Hopen Ho) as (Hcl & Hsl & Hh). set (i := loopIndex (sid_of id)) in *. set (k := index (sid_of id)) in *.
  destruct (sim_loop A s Hs i l (loop_nonneg id) E) as ((Hwf & Hmax & Hmod & Hn & Hnone) & Hown & Hps).
  unfold closeCallback, procDataSocketClose. rewrite Hh. cbn [mbind option_bind disConnectCallback mUD].
  fold i k. rewrite E. cbn [mbind option_bind].
  destruct (TypeIDS.set_spec (mDataSockets l) None k Hwf Hcl) as (ids1 & -> & Hwf1 & Hcl1 & Hval1 & Hlen1).
  cbn [mbind option_bind].
  destruct (TypeIDS.reclaim_spec ids1 k Hwf1 ltac:(by apply Hcl1)) as (ids & -> & Hwf2 & Hcl2 & Hval2).
  cbn [mbind option_bind]. set (l2 := mk_loop ids _ _).
  eexists _, _, (<[id := mk_session (on x) false (pending x)]> A). split; [done|]. split.
  { apply mailbox_one. cbn. rewrite Ex. cbn. by rewrite decide_True. }
  assert (Hslot : forall j, 0 <= j -> slot l2 j = if decide (j = k) then None else slot l j).
  { intros j Hj. unfold slot, l2. cbn [mDataSockets]. by rewrite Hval2, Hval1. }
  assert (Hins : forall j, TypeIDS.inside ids j <-> TypeIDS.inside (mDataSockets l) j).
  { intros j. unfold TypeIDS.inside. by rewrite Hval2, Hlen1. }
  assert (Hcl' : forall j, TypeIDS.claimed ids j <-> j <> k /\ TypeIDS.claimed (mDataSockets l) j).
  { intros j. by rewrite Hcl2, Hcl1. }
  cbn [heap set_loop].
  refine (sim_update A _ s i l l2 _ (on x) Hs (loop_nonneg id) E _ (or_intror (ex_intro _ _ (conj Hh eq_refl))) _ _ _ _).
  - intros c' Hne. by rewrite lookup_delete_ne.
  - intros id' Hne. rewrite lookup_insert_ne; [done|]. intros <-. by apply Hne.
  - intros id' x' Ex' El. exists l2. rewrite El. split; [by apply (get_set_eq _ l)|].
    destruct (decide (id = id')) as [<-|Hne].
    + rewrite lookup_insert_eq in Ex'. injection Ex' as <-. by split; [apply Hins|].
    + rewrite lookup_insert_ne in Ex' by done.
      destruct (sim_session A s Hs id' x' Ex') as (l0 & E0 & H1 & H2 & H3 & H4).
      rewrite El, E in E0. injection E0 as <-. split; [by apply Hins|]. split; [exact H2|]. split; [exact H3|].
      intros Ho'. destruct (H4 Ho') as (H5 & H6 & H7).
      assert (Hon : on x <> on x') by (intros Eq; rewrite Eq in Hh; congruence).
      assert (Hk : index (sid_of id') <> k) by (intros Eq; rewrite Eq in H6; congruence).
      split; [by apply Hcl'|]. split; [by rewrite Hslot, decide_False by (done || apply index_nonneg)|].
      rewrite El in H7. cbn. by rewrite lookup_delete_ne.
  - split; [|split].
    + split; [exact Hwf2|]. unfold l2. cbn [mDataSockets mNextId]. rewrite Hval2, Hlen1.
      split; [exact Hmax|]. split; [exact Hmod|]. split; [exact Hn|]. intros j Hj H0. rewrite <- Hval2. change (slot l2 j = None). rewrite Hslot by done. case_decide; [done|].
      apply Hnone; [|done]. intros H'. apply Hj. by apply Hcl'.
    + intros j Hj. apply Hcl' in Hj as [Hne Hj]. destruct (Hown j Hj) as (id' & x' & Ex' & Ho' & El & Ej).
      exists id', x'. rewrite lookup_insert_ne; [done|]. intros <-. by apply Hne.
    + eapply Forall_impl; [exact Hps|]. intros [c'|id' m].
      * unfold entering_ok. intros Hc'. cbn. rewrite lookup_delete_ne; [done|]. intros <-. congruence.
      * intros [El Hid]. split; [exact El|]. apply lookup_insert_is_Some'. by right.
  - intros rest _ H. exact H.
Qed.

Lemma step_simulated A s t : simulates A s -> allowed A s t -> simulated A (step t s).
Proof.
  intros Hs Ha. destruct t as [c p thread ok|thread id m|thread id b|i ok|c]; cbn [step allowed] in *.
  - by apply step_add.
  - by apply step_post.
  - rewrite send_posts. by apply step_post.
  - destruct Ha as (l & Hi & E & Hp). destruct (procs l) as [|[c|id m] rest] eqn:Ep.
    + exists [], s, A. split; [|done]. unfold run_proc. rewrite E. cbn [mbind option_bind]. by rewrite Ep.
    + unfold run_proc. rewrite E. cbn [mbind option_bind]. rewrite Ep.
      apply (step_enter _ A _ i (mk_loop (mDataSockets l) (mNextId l) rest)); [by apply enter_taken|done|by apply (get_set_eq _ l)|done].
    + destruct (sim_loop A s Hs i l Hi E) as (_ & _ & Hps). rewrite Ep in Hps.
      apply Forall_cons in Hps as [[<- Hid] _]. by apply (step_request A s id m l rest).
  - destruct Ha as (id & x & Ex & Ho & Eo). by eapply step_close.
Qed.

(** ** Runs of a service *)

Definition started (n : Z) : service := startWorkerThread n (mk_service [] ∅).

(** The events of a run and the service after it. *)
Inductive run (n : Z) : list event -> service -> Prop :=
  | run_start : run n [] (started n)
  | run_step evs s A t evs' s' : run n evs s -> mailbox ∅ evs = Some A -> allowed A s t ->
      step t s = Some (evs', s') -> run n (evs ++ evs') s'.

Lemma started_simulates n : 0 <= n <= 2 ^ 16 -> simulates ∅ (started n).
Proof.
  intros Hn. unfold started, startWorkerThread. rewrite decide_True by done. split; [|split; [|split]].
  - cbn [mIOLoopDatas]. rewrite zlen_replicate. lia.
  - intros id x Ex. by rewrite lookup_empty in Ex.
  - intros i l Hi E. unfold get_loop in E. cbn [mIOLoopDatas] in E. apply lookup_replicate in E as [-> _].
    assert (Hno : forall j, ~ TypeIDS.claimed (mDataSockets new_loop) j).
    { intros j [Hj _]. unfold TypeIDS.inside in Hj. cbn in Hj. change (zlen []) with 0 in Hj. lia. }
    split; [|split; [|constructor]].
    + split; [apply TypeIDS.wf_new|]. split; [done|]. split; [done|]. split; [done|]. intros j _ _.
      unfold znth. cbn. destruct (j <? 0); [done|]. by destruct (Z.to_nat j).
    + intros j Hj. by destruct (Hno j).
  - unfold all_entering. cbn [mIOLoopDatas]. assert (E : forall k, concat (map (fun l => omap entering (procs l)) (replicate k new_loop)) = []).
    { induction k; [done|]. cbn. exact IHk. }
    rewrite E. constructor.
Qed.

Lemma mailbox_app A l1 l2 : mailbox A (l1 ++ l2) = A' ← mailbox A l1; mailbox A' l2.
Proof.
  revert A. induction l1 as [|e l1 IH]; intros A; [done|]. cbn. destruct (mailbox_step A e); [|done]. apply IH.
Qed.

Lemma run_simulates n evs s : 0 <= n <= 2 ^ 16 -> run n evs s ->
  exists A, mailbox ∅ evs = Some A /\ simulates A s.
Proof.
  intros Hn. induction 1 as [|evs s A t evs' s' Hrun IH Em Ha Es].
  - exists ∅. split; [done|]. by apply started_simulates.
  - destruct IH as (A' & Em' & Hs). rewrite Em in Em'. injection Em' as <-.
    destruct (step_simulated A s t Hs Ha) as (e2 & s2 & A2 & Es2 & Em2 & Hs2).
    rewrite Es in Es2. injection Es2 as <- <-. exists A2. split; [|done]. rewrite mailbox_app, Em. exact Em2.
Qed.

(** ** What a session receives *)

Definition posted (id : Z) (e : event) : option request :=
  match e with Posted i m => if decide (i = id) then Some m else None | _ => None end.
Definition performed (id : Z) (e : event) : option request :=
  match e with Performed _ i m => if decide (i = id) then Some m else None | _ => None end.
Definition skipped (id : Z) (e : event) : option request :=
  match e with Skipped i m => if decide (i = id) then Some m else None | _ => None end.

(** Asked for on the session's own loop, and performed at once or not at all. *)
Definition at_once (id : Z) (e : event) : option request :=
  match e with Direct _ i m | Missed i m => if decide (i = id) then Some m else None | _ => None end.
Definition missed (id : Z) (e : event) : option request :=
  match e with Missed i m => if decide (i = id) then Some m else None | _ => None end.

(** The connection on which something happens for [id]. *)
Definition concerns (id : Z) (e : event) : option conn :=
  match e with
  | Entered c i | Performed c i _ | Direct c i _ | Disconnected c i => if decide (i = id) then Some c else None
  | _ => None
  end.

Definition history_ok (evs : list event) (id : Z) (o : option session) : Prop :=
  match o with
  | None => omap (posted id) evs = [] /\ omap (performed id) evs = [] /\ omap (skipped id) evs = [] /\
      omap (at_once id) evs = [] /\ omap (concerns id) evs = []
  | Some x => omap (performed id) evs ++ omap (skipped id) evs ++ pending x = omap (posted id) evs /\
      (is_open x = true -> omap (skipped id) evs = [] /\ omap (missed id) evs = []) /\ Forall (fun c => c = on x) (omap (concerns id) evs)
  end.

Lemma history evs : forall A, mailbox ∅ evs = Some A -> forall id, history_ok evs id (A !! id).
Proof.
  induction evs as [|e evs IH] using rev_ind; intros A Em id.
  - injection Em as <-. by rewrite lookup_empty.
  - rewrite mailbox_app in Em. destruct (mailbox ∅ evs) as [B|] eqn:EB; [|done]. cbn [mbind option_bind mailbox] in Em.
    destruct (mailbox_step B e) as [B'|] eqn:Ee; [|done]. injection Em as <-. specialize (IH B eq_refl id).
    unfold history_ok in *. rewrite !omap_app.
    destruct e as [c i|i m|c i m|i m|c i m|i m|c i]; cbn [mailbox_step] in Ee;
      cbn [omap list_omap posted performed skipped concerns at_once missed];
      (destruct (decide (i = id)) as [->|Hne];
       [|assert (E : B' !! id = B !! id);
         [destruct (B !! i); cbn in Ee; repeat case_decide; simplify_eq; by rewrite ?lookup_insert_ne
         |rewrite E, !app_nil_r; exact IH]]).
    + case_decide as En; [|done]. injection Ee as <-. rewrite En in IH. destruct IH as (-> & E1 & E2 & E3 & E4).
      assert (E5 : omap (missed id) evs = []).
      { clear -E3. induction evs as [|e evs IH]; [done|]. destruct e; cbn in *; try (by apply IH); by case_decide; [|apply IH]. }
      rewrite lookup_insert_eq, E1, E2, E4, E5. cbn. split_and!; try done. by repeat constructor.
    + destruct (B !! id) as [x|]; [|done]. injection Ee as <-. rewrite lookup_insert_eq, !app_nil_r.
      destruct IH as (<- & H2 & H3). by rewrite <- !app_assoc.
    + destruct (B !! id) as [x|]; [|done]. cbn in Ee. case_decide as Ec; [|done]. injection Ee as <-.
      destruct Ec as (Ho & <- & Hh), IH as (<- & H2 & H3). rewrite lookup_insert_eq, !app_nil_r.
      destruct (H2 Ho) as [-> ->]. destruct (pending x) as [|m' l]; [done|]. injection Hh as ->. cbn.
      split; [by rewrite <- app_assoc|]. split; [done|]. apply Forall_app. by split; [|constructor].
    + destruct (B !! id) as [x|]; [|done]. cbn in Ee. case_decide as Ec; [|done]. injection Ee as <-.
      destruct Ec as (Ho & Hh), IH as (<- & H2 & H3). rewrite lookup_insert_eq, !app_nil_r.
      destruct (pending x) as [|m' l]; [done|]. injection Hh as ->. cbn.
      split; [by rewrite <- app_assoc|]. split; [done|]. done.
    + destruct (B !! id) as [x|] eqn:EBx; [|done]. cbn in Ee. case_decide as Ec; [|done]. injection Ee as <-.
      rewrite EBx, !app_nil_r. destruct Ec as (Ho & <-), IH as (H1 & H2 & H3). split; [done|]. split; [done|].
      apply Forall_app. by split; [|constructor].
    + destruct (B !! id) as [x|] eqn:EBx; [|done]. cbn in Ee. case_decide as Ec; [|done]. injection Ee as <-.
      rewrite EBx, !app_nil_r. destruct IH as (H1 & H2 & H3). split_and!; try done. intros Ho. congruence.
    + destruct (B !! id) as [x|]; [|done]. cbn in Ee. case_decide as Ec; [|done]. injection Ee as <-.
      destruct Ec as (Ho & <-), IH as (H1 & H2 & H3). rewrite lookup_insert_eq, !app_nil_r. split; [done|].
      split; [done|]. apply Forall_app. by split; [|constructor].
Qed.

(** A session that is closed was disconnected. *)
Lemma closed_by evs : forall A, mailbox ∅ evs = Some A -> forall id x, A !! id = Some x -> is_open x = false ->
  Disconnected (on x) id ∈ evs.
Proof.
  induction evs as [|e evs IH] using rev_ind; intros A Em id x Ex Ho.
  - injection Em as <-. by rewrite lookup_empty in Ex.
  - rewrite mailbox_app in Em. destruct (mailbox ∅ evs) as [B|] eqn:EB; [|done]. cbn [mbind option_bind mailbox] in Em.
    destruct (mailbox_step B e) as [B'|] eqn:Ee; [|done]. injection Em as <-. rewrite elem_of_app.
    assert (Hold : forall y, B !! id = Some y -> is_open y = false -> on y = on x -> Disconnected (on x) id ∈ evs).
    { intros y Ey Hy <-. by apply (IH B eq_refl). }
    destruct e as [c i|i m|c i m|i m|c i m|i m|c i]; cbn [mailbox_step] in Ee;
      try (destruct (B !! i) as [y|] eqn:Ey; [cbn in Ee|done]); repeat case_decide; simplify_eq; try (left; eapply Hold; [eassumption|done|done]);
      (destruct (decide (i = id)) as [->|Hne];
        [rewrite lookup_insert_eq in Ex; injection Ex as <-|rewrite lookup_insert_ne in Ex by done; left; eapply Hold; [eassumption|done|done]]);
      destruct_and?; cbn [on is_open] in Ho |- *; try done; try (left; apply (Hold y Ey); done).
    subst. right. by left.
Qed.

(** C17: every run of the service is a run of mailboxes. Whatever the threads do, in any
    order: connections are added to any loop, enter or fail, at once when they are added on
    the thread of their loop; requests are made by any thread, performed at once on the
    loop's own thread and queued otherwise, and run by the loops; sessions close and
    their slots are given to others. Then, while a loop has less than 65500 sessions and has
    had less than 2^31 - 1, no assertion fails, no deleted connection is used, and the
    events are those of mailboxes: an identifier is given once; a request is performed on
    the connection of its session, and only while that is open; those that are queued, in
    their order; the requests that wait are those in the queue of the session's loop. *)
Theorem sessions_refine_mailboxes n evs s :
  0 <= n <= 2 ^ 16 -> run n evs s ->
  exists A, mailbox ∅ evs = Some A /\ (forall id x, A !! id = Some x -> pending x = queued id s) /\
    forall t, allowed A s t -> exists evs' s', step t s = Some (evs', s').
Proof.
  intros Hn Hr. destruct (run_simulates n evs s Hn Hr) as (A & Em & Hs). exists A. split; [exact Em|]. split.
  - intros id x Ex. destruct (sim_session A s Hs id x Ex) as (l & E & _ & _ & Hp & _). unfold queued. by rewrite E.
  - intros t Ha. destruct (step_simulated A s t Hs Ha) as (evs' & s' & _ & E & _). by exists evs', s'.
Qed.

(** Requests reach their session, in order. In every run: all that happens for an
    identifier happens on one connection; and of the requests queued for it, those
    performed are the first ones, in the order of queueing and once each, then those
    that found the session closed, then those in the queue of the loop; none is
    skipped while the session is open, and none that is made on its loop's thread
    is missed. *)
Theorem session_requests n evs s c id :
  0 <= n <= 2 ^ 16 -> run n evs s -> Entered c id ∈ evs ->
  Forall (fun c' => c' = c) (omap (concerns id) evs) /\
  omap (performed id) evs ++ omap (skipped id) evs ++ queued id s = omap (posted id) evs /\
  (~ Disconnected c id ∈ evs -> omap (skipped id) evs = [] /\ omap (missed id) evs = []).
Proof.
  intros Hn Hr Hin. destruct (run_simulates n evs s Hn Hr) as (A & Em & Hs).
  pose proof (history evs A Em id) as Hh.
  assert (Hc : c ∈ omap (concerns id) evs).
  { apply list_elem_of_omap. exists (Entered c id). split; [done|]. cbn. by rewrite decide_True. }
  destruct (A !! id) as [x|] eqn:Ex; cbn [history_ok] in Hh.
  - destruct Hh as (H1 & H2 & H3). assert (c = on x) as -> by (rewrite Forall_forall in H3; by apply H3).
    split; [exact H3|]. destruct (sim_session A s Hs id x Ex) as (l & E & _ & _ & Hp & _).
    split; [unfold queued; rewrite E, <- Hp; exact H1|]. intros Hd. apply H2.
    destruct (is_open x) eqn:Eo; [done|]. exfalso. apply Hd. by apply (closed_by evs A Em id x).
  - destruct Hh as (_ & _ & _ & _ & Hnil). rewrite Hnil in Hc. by apply elem_of_nil in Hc.
Qed.

(** The limit of 65500 sessions is there. When 65500 sessions have entered one loop
    and none has left, the index that the next one gets does not fit in the 16 bits
    of its identifier: it takes the slot of another session, which is open but is
    not found by its identifier any more. *)
Theorem session_slot_lost i c1 c2 s l id1 k :
  0 <= i < 2 ^ 16 -> get_loop i s = Some l ->
  TypeIDS.in_order 65500 (mDataSockets l) -> 0 <= k < mNextId l -> mNextId l < INT_MAX ->
  sid_of id1 = mk_sid i 63 k -> slot l 63 = Some c1 -> c1 <> c2 ->
  heap s !! c1 = Some (mk_channel i (Some id1) (Some id1)) ->
  heap s !! c2 = Some (mk_channel i None None) ->
  exists id2 s' l', enterCallback c2 s = Some ([Entered c2 id2], s') /\ index (sid_of id2) = 63 /\
    get_loop i s' = Some l' /\ find_session id1 l' (heap s') = Some None /\
    heap s' !! c1 = Some (mk_channel i (Some id1) (Some id1)).
Proof.
  intros Hi E Hord Hk Hn Hid1 Hsl Hne Hc1 Hc2.
  destruct (TypeIDS.claim_in_order 65500 _ ltac:(lia) Hord) as (ids & Ec & r & Hr & Hv & _ & _).
  change (TypeIDS.nth_id 65500) with 65599 in Ec.
  set (id2 := sid_id (mk_sid (u16 i) (u16 65599) (u32 (mNextId l)))).
  assert (Hid2 : sid_of id2 = mk_sid i 63 (mNextId l)).
  { unfold id2, INT_MAX in *. change (u16 65599) with 63. rewrite !wrap_small by lia. apply sid_of_id; cbn; lia. }
  assert (Hin : forall v, TypeIDS.inside v 63 <-> 63 < zlen (TypeIDS.mValues (T := conn) v)) by (unfold TypeIDS.inside; lia).
  set (ids2 := TypeIDS.mk (<[Z.to_nat 63 := Some c2]> (TypeIDS.mValues ids)) (TypeIDS.mIds ids)).
  assert (Hset : TypeIDS.set (Some c2) 63 ids = Some ids2).
  { unfold TypeIDS.set. rewrite (TypeIDS.inside_test ids 63); [done|]. apply Hin. lia. }
  assert (Hget : TypeIDS.get 63 ids2 = Some (Some c2)).
  { rewrite TypeIDS.get_spec.
    - f_equal. apply znth_lookup; [done|]. apply list_lookup_insert_eq. unfold zlen in Hv. lia.
    - apply Hin. cbn [TypeIDS.mValues ids2]. unfold zlen in *. rewrite length_insert. lia. }
  assert (Hchk : chk_int (mNextId l + 1) = Some (mNextId l + 1)) by (apply chk_int_ok; unfold INT_MAX in *; lia).
  exists id2, (set_heap (<[c2 := mk_channel i (Some id2) (Some id2)]> (heap s))
    (set_loop i (mk_loop ids2 (mNextId l + 1) (procs l)) s)), (mk_loop ids2 (mNextId l + 1) (procs l)).
  split; [|split; [by rewrite Hid2|split; [by apply (get_set_eq _ l)|split]]].
  - unfold enterCallback. rewrite Hc2. cbn [mbind option_bind enterLoop]. rewrite E. cbn [mbind option_bind].
    unfold MakeID, incID. rewrite Ec. cbn [mbind option_bind mNextId]. rewrite Hchk.
    cbn [mbind option_bind mDataSockets procs mNextId]. fold id2. rewrite Hid2. cbn [index]. by rewrite Hset.
  - unfold find_session. rewrite Hid1. cbn [index mDataSockets]. rewrite Hget. cbn [mbind option_bind heap set_heap set_loop].
    rewrite lookup_insert_eq. cbn [mbind option_bind mUD]. rewrite decide_False; [done|]. intros [= Eid].
    rewrite <- Eid, Hid2 in Hid1. injection Hid1 as Ek. lia.
  - cbn. by rewrite lookup_insert_ne.
Qed.

(** ** Concrete runs *)

Definition has_roomb (l : IOLoopData) : bool := (live l <? MAX_SESSIONS) && (mNextId l <? INT_MAX).

Lemma has_roomb_ok l : has_roomb l = true -> has_room l.
Proof. intros H. apply andb_true_iff in H as [H1 H2]. by apply Z.ltb_lt in H1, H2. Qed.

Definition allowedb (A : sessions) (s : service) (t : step_label) : bool :=
  match t with
  | AddSocket c p thread ok => bool_decide (heap s !! c = None) &&
      match thread with
      | Some i => negb (bool_decide (place thread p s = Some i)) || from_option has_roomb true (get_loop i s)
      | None => true
      end
  | Post _ id _ | SendFrom _ id _ => bool_decide (is_Some (A !! id))
  | Run i ok => (0 <=? i) && match get_loop i s with
      | Some l => match procs l with
          | OnEnter _ :: _ => has_roomb l
          | _ => true
          end
      | None => false
      end
  | Close c => existsb (fun idx => is_open idx.2 && bool_decide (on idx.2 = c)) (map_to_list A)
  end.

Lemma allowedb_ok A s t : allowedb A s t = true -> allowed A s t.
Proof.
  destruct t as [c p thread ok|thread id m|thread id b|i ok|c]; cbn [allowedb allowed]; try apply bool_decide_eq_true.
  - intros H. apply andb_true_iff in H as [Hc H]. apply bool_decide_eq_true in Hc. split; [done|].
    intros i l -> Ep E. rewrite E in H. apply orb_true_iff in H as [H|H]; [|by apply has_roomb_ok].
    apply negb_true_iff, bool_decide_eq_false in H. by destruct H.
  - intros H. apply andb_true_iff in H as [Hi H]. apply Z.leb_le in Hi. destruct (get_loop i s) as [l|]; [|done].
    exists l. split; [done|]. split; [done|]. destruct (procs l) as [|[c|id m] rest]; try done.
    by apply has_roomb_ok.
  - intros H. apply existsb_exists in H as ([id x] & Hin & H). apply andb_true_iff in H as [Ho Hc].
    apply bool_decide_eq_true in Hc. exists id, x. split; [|done]. apply elem_of_map_to_list. by apply list_elem_of_In.
Qed.

Fixpoint exec (ts : list step_label) (A : sessions) (s : service) : option (list event * service) :=
  match ts with
  | [] => Some ([], s)
  | t :: ts =>
      if allowedb A s t then
        '(e1, s) ← step t s;
        A ← mailbox A e1;
        '(e2, s) ← exec ts A s;
        Some (e1 ++ e2, s)
      else None
  end.

Lemma exec_run n ts : forall evs A s evs' s', run n evs s -> mailbox ∅ evs = Some A ->
  exec ts A s = Some (evs', s') -> run n (evs ++ evs') s'.
Proof.
  induction ts as [|t ts IH]; intros evs A s evs' s' Hr Em E; cbn [exec] in E.
  - injection E as <- <-. by rewrite app_nil_r.
  - destruct (allowedb A s t) eqn:Ea; [|done]. apply allowedb_ok in Ea.
    destruct (step t s) as [[e1 s1]|] eqn:Es; [|done]. cbn [mbind option_bind] in E.
    destruct (mailbox A e1) as [A1|] eqn:E1; [|done]. cbn [mbind option_bind] in E.
    destruct (exec ts A1 s1) as [[e2 s2]|] eqn:E2; [|done]. cbn [mbind option_bind] in E. injection E as <- <-.
    rewrite app_assoc. apply (IH _ A1 s1); [by eapply run_step| |done]. by rewrite mailbox_app, Em.
Qed.

(** Two loops. A session on connection 7 gets two requests, two more on the thread of its loop
    that are performed at once, and is closed when one has run; its slot goes to connection 8,
    which enters at once, and the request that is left finds nothing. *)
Definition demo_id : Z := sid_id (mk_sid 1 99 0).
Definition demo_steps : list step_label :=
  [AddSocket 7%nat (Rand 5) None true; Run 1 true; Post (Some 0) demo_id (HeartBeat 9); SendFrom None demo_id (str "hi");
   SendFrom (Some 1) demo_id (str "now"); Post (Some 1) demo_id Shutdown; Run 1 true; Close 7%nat;
   AddSocket 8%nat SameThread (Some 1) true; Run 1 true; Post None (sid_id (mk_sid 1 99 1)) Shutdown].

Definition demo_events : list event :=
  [Entered 7%nat demo_id; Posted demo_id (HeartBeat 9); Posted demo_id (Send (str "hi"));
   Direct 7%nat demo_id (Send (str "now")); Direct 7%nat demo_id Shutdown; Performed 7%nat demo_id (HeartBeat 9);
   Disconnected 7%nat demo_id; Entered 8%nat (sid_id (mk_sid 1 99 1)); Skipped demo_id (Send (str "hi")); Posted (sid_id (mk_sid 1 99 1)) Shutdown].

Lemma demo_run : exists s, run 2 demo_events s /\ queued (sid_id (mk_sid 1 99 1)) s = [Shutdown].
Proof.
  destruct (exec demo_steps ∅ (started 2)) as [[evs s]|] eqn:E; [|vm_compute in E; discriminate].
  exists s. assert (Ee : evs = demo_events /\ queued (sid_id (mk_sid 1 99 1)) s = [Shutdown]).
  { vm_compute in E. injection E as <- <-. by split; vm_compute. }
  destruct Ee as [<- Hq]. split; [|exact Hq]. exact (exec_run 2 demo_steps [] ∅ (started 2) evs s (run_start 2) eq_refl E).
Qed.

Lemma sessions_refine_mailboxes_witness :
  exists s A, run 2 demo_events s /\ mailbox ∅ demo_events = Some A /\
    (forall id x, A !! id = Some x -> pending x = queued id s).
Proof.
  destruct demo_run as (s & Hr & _).
  destruct (sessions_refine_mailboxes 2 demo_events s ltac:(lia) Hr) as (A & Em & Hp & _).
  exists s, A. split; [exact Hr|]. split; [exact Em|exact Hp].
Defined.

Lemma session_requests_witness :
  exists s, omap (performed demo_id) demo_events ++ omap (skipped demo_id) demo_events ++ queued demo_id s =
    [HeartBeat 9; Send (str "hi")].
Proof.
  destruct demo_run as (s & Hr & _).
  destruct (session_requests 2 demo_events s 7%nat demo_id ltac:(lia) Hr ltac:(left)) as (_ & Hp & _).
  exists s. rewrite Hp. reflexivity.
Defined.

(** The loop when 65500 sessions are open, of which the one in slot 63 is looked at. *)
Lemma session_slot_lost_witness :
  let id1 := sid_id (mk_sid 0 63 36) in
  let l := mk_loop (TypeIDS.mk (replicate (Z.to_nat 65500) (Some 1%nat)) []) 65500 [] in
  let s := mk_service [l] {[1%nat := mk_channel 0 (Some id1) (Some id1); 2%nat := mk_channel 0 None None]} in
  exists id2 s' l', enterCallback 2%nat s = Some ([Entered 2%nat id2], s') /\ index (sid_of id2) = 63 /\
    get_loop 0 s' = Some l' /\ find_session id1 l' (heap s') = Some None /\
    heap s' !! 1%nat = Some (mk_channel 0 (Some id1) (Some id1)).
Proof.
  intros id1 l s. apply (session_slot_lost 0 1 2 s l id1 36).
  - lia.
  - reflexivity.
  - exists 0. cbn [TypeIDS.mValues TypeIDS.mIds mDataSockets l]. rewrite zlen_replicate, Z2Nat.id by lia. split_and!; try done.
  - cbn. lia.
  - cbn. unfold INT_MAX. lia.
  - vm_compute. reflexivity.
  - unfold slot. cbn [mDataSockets l TypeIDS.mValues]. apply znth_lookup; [done|]. apply lookup_replicate_2. lia.
  - done.
  - reflexivity.
  - reflexivity.
Defined.
