(* ===== verification/WrapTCPService.v ===== *)
(** * net/WrapTCPService.cpp, and addDataSocket of net/TCPService.cpp

    The session objects that the application holds: how they are added with options,
    tied to a connection by the closures of [_addSession], told of data and of the
    end, and used by any thread to ask for something. The service below them is that of
    TCPService.v. *)

From S2P Require Import Prelude.
From S2P Require Import Words.
From S2P Require Import Typeids.
From S2P Require Import TCPService.
From stdpp Require Import gmap.
#[local] Open Scope Z_scope.
#[local] Open Scope brynet_scope.

(** A function of the application, by its address; a TCPSession, by its address. *)
Abbreviation callback := nat.
Abbreviation addr := nat.

(** ** Session objects

    [mIoLoopData] is the index of the loop that is pointed to; [mUD] is what
    the application stores; [mService] tells whether the pointer is set. *)
Module TCPSession.
Record t := mk {
  mService : bool;
  mIoLoopData : option Z;
  mSocketID : Z;
  mIP : bytes;
  mUD : option nat;
  mDisConnectCallback : option callback;
  mDataCallback : option callback }.

Definition Create : t := mk false None (-1) [] None None None.

Definition setService (s : t) : t :=
  mk true (mIoLoopData s) (mSocketID s) (mIP s) (mUD s) (mDisConnectCallback s) (mDataCallback s).
Definition setIOLoopData (l : Z) (s : t) : t :=
  mk (mService s) (Some l) (mSocketID s) (mIP s) (mUD s) (mDisConnectCallback s) (mDataCallback s).
Definition setSocketID (id : Z) (s : t) : t :=
  mk (mService s) (mIoLoopData s) id (mIP s) (mUD s) (mDisConnectCallback s) (mDataCallback s).
Definition setIP (ip : bytes) (s : t) : t :=
  mk (mService s) (mIoLoopData s) (mSocketID s) ip (mUD s) (mDisConnectCallback s) (mDataCallback s).
Definition setUD (ud : option nat) (s : t) : t :=
  mk (mService s) (mIoLoopData s) (mSocketID s) (mIP s) ud (mDisConnectCallback s) (mDataCallback s).
Definition setDisConnectCallback (cb : option callback) (s : t) : t :=
  mk (mService s) (mIoLoopData s) (mSocketID s) (mIP s) (mUD s) cb (mDataCallback s).
Definition setDataCallback (cb : option callback) (s : t) : t :=
  mk (mService s) (mIoLoopData s) (mSocketID s) (mIP s) (mUD s) (mDisConnectCallback s) cb.
End TCPSession.

(** The closure [enterCallback] of [_addSession]; [closeCallback] and [msgCallback]
    capture the session only. *)
Record enter_closure := mk_enter { tmpSession : addr; userEnterCallback : option callback }.

(** ** Options

    An option is the function that one of the [With...] returns; [apply] calls it. *)
Module AddSocketOption.
Record Options := mk {
  enterCallback : option enter_closure;
  disConnectCallback : option addr;
  dataCallback : option addr;
  sslHelper : option nat;
  useSSL : bool;
  forceSameThreadLoop : bool;
  maxRecvBufferSize : Z }.

Definition default : Options := mk None None None None false false 0.

Inductive Func :=
  | WithEnterCallback (callback : option enter_closure)
  | WithDisconnectCallback (callback : option addr)
  | WithDataCallback (callback : option addr)
  | WithClientSideSSL
  | WithServerSideSSL (helper : option nat)
  | WithMaxRecvBufferSize (size : Z)
  | WithForceSameThreadLoop (same : bool).

Definition apply (o : Options) (f : Func) : Options :=
  match f with
  | WithEnterCallback cb => mk cb (disConnectCallback o) (dataCallback o) (sslHelper o) (useSSL o) (forceSameThreadLoop o) (maxRecvBufferSize o)
  | WithDisconnectCallback cb => mk (enterCallback o) cb (dataCallback o) (sslHelper o) (useSSL o) (forceSameThreadLoop o) (maxRecvBufferSize o)
  | WithDataCallback cb => mk (enterCallback o) (disConnectCallback o) cb (sslHelper o) (useSSL o) (forceSameThreadLoop o) (maxRecvBufferSize o)
  | WithClientSideSSL => mk (enterCallback o) (disConnectCallback o) (dataCallback o) (sslHelper o) true (forceSameThreadLoop o) (maxRecvBufferSize o)
  | WithServerSideSSL h => mk (enterCallback o) (disConnectCallback o) (dataCallback o) h true (forceSameThreadLoop o) (maxRecvBufferSize o)
  | WithMaxRecvBufferSize n => mk (enterCallback o) (disConnectCallback o) (dataCallback o) (sslHelper o) (useSSL o) (forceSameThreadLoop o) n
  | WithForceSameThreadLoop b => mk (enterCallback o) (disConnectCallback o) (dataCallback o) (sslHelper o) (useSSL o) b (maxRecvBufferSize o)
  end.

(** The loop over [optionFuncs]: null ones are passed over. *)
Definition collect (fs : list (option Func)) : Options := fold_left apply (omap id fs) default.
End AddSocketOption.

Module AddSessionOption.
Record Options := mk {
  enterCallback : option callback;
  sslHelper : option nat;
  useSSL : bool;
  forceSameThreadLoop : bool;
  maxRecvBufferSize : Z }.

Definition default : Options := mk None None false false 0.

Inductive Func :=
  | WithEnterCallback (callback : option callback)
  | WithClientSideSSL
  | WithServerSideSSL (helper : option nat)
  | WithMaxRecvBufferSize (size : Z)
  | WithForceSameThreadLoop (same : bool).

Definition apply (o : Options) (f : Func) : Options :=
  match f with
  | WithEnterCallback cb => mk cb (sslHelper o) (useSSL o) (forceSameThreadLoop o) (maxRecvBufferSize o)
  | WithClientSideSSL => mk (enterCallback o) (sslHelper o) true (forceSameThreadLoop o) (maxRecvBufferSize o)
  | WithServerSideSSL h => mk (enterCallback o) h true (forceSameThreadLoop o) (maxRecvBufferSize o)
  | WithMaxRecvBufferSize n => mk (enterCallback o) (sslHelper o) (useSSL o) (forceSameThreadLoop o) n
  | WithForceSameThreadLoop b => mk (enterCallback o) (sslHelper o) (useSSL o) b (maxRecvBufferSize o)
  end.

Definition collect (fs : list (option Func)) : Options := fold_left apply (omap id fs) default.
End AddSessionOption.

(** ** State *)

Record TcpSocket := mk_socket { isServerSide : bool; GetIP : bytes }.

(** What the callbacks of a connection have captured in [helpAddChannel]. *)
Record capture := mk_capture {
  cap_ip : bytes;
  cap_enter : option enter_closure;
  cap_disconnect : option addr;
  cap_data : option addr }.

(** The functions of the application that run on the thread of a loop, the innermost first:
    the enter callback of a session that is added on the loop's own thread runs within
    the function that adds it. *)
Inductive frame := EnterFrame (t : addr) | DataFrame (t : addr) (c : conn) | CloseFrame (t : addr).

#[global] Instance frame_eq_dec : EqDecision frame.
Proof. solve_decision. Defined.

Record wrapped := mk_wrapped {
  mTCPService : service;
  objects : list TCPSession.t;
  captured : gmap conn capture;
  running : gmap Z (list frame) }.

Definition frames (i : Z) (w : wrapped) : list frame := from_option id [] (running w !! i).

Definition set_service (s : service) (w : wrapped) : wrapped :=
  mk_wrapped s (objects w) (captured w) (running w).
Definition set_object (t : addr) (o : TCPSession.t) (w : wrapped) : wrapped :=
  mk_wrapped (mTCPService w) (<[t := o]> (objects w)) (captured w) (running w).
Definition set_captured (m : gmap conn capture) (w : wrapped) : wrapped :=
  mk_wrapped (mTCPService w) (objects w) m (running w).
Definition set_running (m : gmap Z (list frame)) (w : wrapped) : wrapped :=
  mk_wrapped (mTCPService w) (objects w) (captured w) m.

(** What the application sees of its sessions, with the events of the service. A callback
    is [None] where the application has set none. *)
Inductive wevent :=
  | Service (e : event)
  | Added (t : addr) (c : conn) (ip : bytes) (cb : option callback) (* handed to a loop: addSession will return true *)
  | Refused                                          (* it returns false *)
  | Threw                                            (* it throws *)
  | Opened (t : addr) (c : conn) (id : Z) (ip : bytes) (cb : option callback)
  | Heard (t : addr) (c : conn) (data : bytes) (cb : option callback)
  | Took (c : conn) (n : Z)                          (* the data callback returns *)
  | Ended (t : addr) (c : conn) (cb : option callback)
  | DataCallbackSet (t : addr) (cb : option callback)
  | CloseCallbackSet (t : addr) (cb : option callback)
  | Asked (t : addr) (thread : option Z) (m : request).

(** ** The closures *)

(** A function of the application starts to run on the thread of loop [i]. *)
Definition enter_frame (i : Z) (f : frame) (cb : option callback) (w : wrapped) : wrapped :=
  match cb with None => w | Some _ => set_running (<[i := f :: frames i w]> (running w)) w end.

Definition session_entered (i : Z) (c : conn) (id : Z) (w : wrapped) : option (list wevent * wrapped) :=
  cap ← captured w !! c;
  match cap_enter cap with
  | None => Some ([], w)
  | Some f =>
      let t := tmpSession f in
      _ ← getIOLoopDataBySocketID id (mTCPService w);
      o ← objects w !! t;
      let o := TCPSession.setIP (cap_ip cap) (TCPSession.setSocketID id
        (TCPSession.setIOLoopData (loopIndex (sid_of id)) o)) in
      Some ([Opened t c id (cap_ip cap) (userEnterCallback f)],
        enter_frame i (EnterFrame t) (userEnterCallback f) (set_object t o w))
  end.

(** What follows the procedure of [helpAddChannel]: when the entry succeeds, the enter
    callback of the application; otherwise the connection is deleted with what it has captured. *)
Definition after_entry (i : Z) (c : conn) (ok : bool) (evs : list event) (w : wrapped) : option (list wevent * wrapped) :=
  if ok then
    ch ← heap (mTCPService w) !! c;
    id ← mUD ch;
    '(evs', w) ← session_entered i c id w;
    Some (map Service evs ++ evs', w)
  else Some (map Service evs, set_captured (delete c (captured w)) w).

(** ** Adding a session

    [thread]: the loop whose thread calls, if it is one; [randNum]: what [rand] gives; [ok]:
    [onEnterEventLoop] succeeds, where it is called at once. [c]: the address of the new
    connection, which is deleted on [FAILED]. *)
Inductive added := Thrown | Returned (ok : bool).

Definition add_channel (c : conn) (ip : bytes) (o : AddSocketOption.Options) (thread : option Z) (randNum : Z) (ok : bool)
    (w : wrapped) : option (bool * list wevent * wrapped) :=
  let p := if AddSocketOption.forceSameThreadLoop o then SameThread else Rand randNum in
  '(evs, s) ← helpAddChannel c p thread ok (mTCPService w);
  match place thread p (mTCPService w) with
  | None => Some (false, [], w)
  | Some i =>
      let w := set_captured (<[c := mk_capture ip (AddSocketOption.enterCallback o)
        (AddSocketOption.disConnectCallback o) (AddSocketOption.dataCallback o)]> (captured w)) (set_service s w) in
      if decide (thread = Some i) then '(evs, w) ← after_entry i c ok evs w; Some (true, evs, w)
      else Some (true, map Service evs, w)
  end.

(** Built without OpenSSL, as DataSocket.v. *)
Definition _addDataSocket (c : conn) (socket : TcpSocket) (fs : list (option AddSocketOption.Func))
    (thread : option Z) (randNum : Z) (ok : bool) (w : wrapped) : option (added * list wevent * wrapped) :=
  let options := AddSocketOption.collect fs in
  if AddSocketOption.maxRecvBufferSize options <=? 0 then Some (Thrown, [], w)
  else if AddSocketOption.useSSL options then Some (Returned false, [], w)
  else '(r, evs, w) ← add_channel c (GetIP socket) options thread randNum ok w; Some (Returned r, evs, w).

(** The options that [_addSession] passes on. *)
Definition socket_options (t : addr) (socket : TcpSocket) (o : AddSessionOption.Options) : list (option AddSocketOption.Func) :=
  [ (if AddSessionOption.useSSL o
     then Some (if isServerSide socket then AddSocketOption.WithServerSideSSL (AddSessionOption.sslHelper o)
                else AddSocketOption.WithClientSideSSL)
     else None);
    Some (AddSocketOption.WithEnterCallback (Some (mk_enter t (AddSessionOption.enterCallback o))));
    Some (AddSocketOption.WithDisconnectCallback (Some t));
    Some (AddSocketOption.WithDataCallback (Some t));
    Some (AddSocketOption.WithMaxRecvBufferSize (AddSessionOption.maxRecvBufferSize o));
    Some (AddSocketOption.WithForceSameThreadLoop (AddSessionOption.forceSameThreadLoop o)) ].

(** When it does not succeed the session object goes with the closures that hold it. *)
Definition _addSession (c : conn) (socket : TcpSocket) (fs : list (option AddSessionOption.Func))
    (thread : option Z) (randNum : Z) (ok : bool) (w : wrapped) : option (list wevent * wrapped) :=
  let options := AddSessionOption.collect fs in
  let t := length (objects w) in
  let session := TCPSession.setService TCPSession.Create in
  let w1 := mk_wrapped (mTCPService w) (objects w ++ [session]) (captured w) (running w) in
  '(r, evs, w2) ← _addDataSocket c socket (socket_options t socket options) thread randNum ok w1;
  match r with
  | Thrown => Some ([Threw], w)
  | Returned false => Some ([Refused], w)
  | Returned true => Some (Added t c (GetIP socket) (AddSessionOption.enterCallback options) :: evs, w2)
  end.

(** ** The loops *)

(** A loop runs its first procedure. *)
Definition run_loop (i : Z) (ok : bool) (w : wrapped) : option (list wevent * wrapped) :=
  l ← get_loop i (mTCPService w);
  '(evs, s) ← run_proc i ok (mTCPService w);
  match procs l with
  | OnEnter c :: _ => after_entry i c ok evs (set_service s w)
  | _ => Some (map Service evs, set_service s w)
  end.

(** The data callback of a connection. *)
Definition session_data (c : conn) (data : bytes) (w : wrapped) : option (list wevent * wrapped) :=
  ch ← heap (mTCPService w) !! c;
  cap ← captured w !! c;
  t ← cap_data cap;
  o ← objects w !! t;
  let cb := TCPSession.mDataCallback o in
  Some (Heard t c data cb :: match cb with None => [Took c 0] | Some _ => [] end,
    enter_frame (enterLoop ch) (DataFrame t c) cb w).

(** Its disconnect callback. The connection is deleted when the application's function is
    through, which cannot reach it any more. *)
Definition session_closed (c : conn) (w : wrapped) : option (list wevent * wrapped) :=
  ch ← heap (mTCPService w) !! c;
  cap ← captured w !! c;
  t ← cap_disconnect cap;
  '(evs, s) ← closeCallback c (mTCPService w);
  o ← objects w !! t;
  let cb := TCPSession.mDisConnectCallback o in
  Some (map Service evs ++ [Ended t c cb],
    enter_frame (enterLoop ch) (CloseFrame t) cb (set_captured (delete c (captured w)) (set_service s w))).

(** ** What the application does with a session *)

Inductive operation :=
  | SetUD (ud : option nat)
  | SetDisConnectCallback (cb : option callback)
  | SetDataCallback (cb : option callback)
  | SendPacket (packet : bytes)
  | PostShutdown
  | PostDisConnect
  | SetHeartBeat (checkTime : Z).

(** A function that runs is the one that is replaced: it is destroyed. *)
Definition replaces_itself (w : wrapped) (thread : option Z) (t : addr) (op : operation) : bool :=
  match thread, op with
  | Some i, SetDisConnectCallback _ => bool_decide (CloseFrame t ∈ frames i w)
  | Some i, SetDataCallback _ =>
      existsb (fun f => match f with DataFrame t' _ => bool_decide (t' = t) | _ => false end) (frames i w)
  | _, _ => false
  end.

Definition ask_through (thread : option Z) (t : addr) (m : request) (r : option (list event * service)) (w : wrapped) :
    option (list wevent * wrapped) :=
  '(evs, s) ← r; Some (Asked t thread m :: map Service evs, set_service s w).

Definition via_service (thread : option Z) (o : TCPSession.t) (m : request) (s : service) : option (list event * service) :=
  if TCPSession.mService o then postSessionAsyncProc thread (TCPSession.mSocketID o) m s else None.

(** [None]: a null pointer or a failed assertion, or a function that is destroyed while
    it runs. *)
Definition perform (thread : option Z) (t : addr) (op : operation) (w : wrapped) : option (list wevent * wrapped) :=
  o ← objects w !! t;
  if replaces_itself w thread t op then None
  else match op with
  | SetUD ud => Some ([], set_object t (TCPSession.setUD ud o) w)
  | SetDisConnectCallback cb =>
      Some ([CloseCallbackSet t cb], set_object t (TCPSession.setDisConnectCallback cb o) w)
  | SetDataCallback cb => Some ([DataCallbackSet t cb], set_object t (TCPSession.setDataCallback cb o) w)
  | SendPacket packet =>
      i ← TCPSession.mIoLoopData o;
      ask_through thread t (Send packet) (ioloop_send thread i (TCPSession.mSocketID o) packet (mTCPService w)) w
  | PostShutdown => ask_through thread t Shutdown (via_service thread o Shutdown (mTCPService w)) w
  | PostDisConnect => ask_through thread t DisConnect (via_service thread o DisConnect (mTCPService w)) w
  | SetHeartBeat time => ask_through thread t (HeartBeat time) (via_service thread o (HeartBeat time) (mTCPService w)) w
  end.

(** The innermost function of the application that runs on loop [i] returns; [n]: its result. *)
Definition return_from (i n : Z) (w : wrapped) : option (list wevent * wrapped) :=
  match frames i w with
  | [] => None
  | f :: rest => Some (match f with DataFrame _ c => [Took c n] | _ => [] end, set_running (<[i := rest]> (running w)) w)
  end.

Definition startWorkThread (threadNum : Z) (w : wrapped) : wrapped :=
  set_service (startWorkerThread threadNum (mTCPService w)) w.
Definition stopWorkThread (w : wrapped) : wrapped :=
  set_service (stopWorkerThread (mTCPService w)) w.

Definition new_wrapped : wrapped := mk_wrapped (mk_service [] ∅) [] ∅ ∅.

(** *** Steps of all threads *)
Inductive wlabel :=
  | AddSession (c : conn) (socket : TcpSocket) (fs : list (option AddSessionOption.Func)) (thread : option Z) (randNum : Z) (ok : bool)
  | RunLoop (i : Z) (ok : bool)
  | Data (c : conn) (data : bytes)
  | CloseConn (c : conn)
  | Perform (thread : option Z) (t : addr) (op : operation)
  | ReturnFrom (i n : Z).

Definition wstep (t : wlabel) (w : wrapped) : option (list wevent * wrapped) :=
  match t with
  | AddSession c socket fs thread randNum ok => _addSession c socket fs thread randNum ok w
  | RunLoop i ok => run_loop i ok w
  | Data c data => session_data c data w
  | CloseConn c => session_closed c w
  | Perform thread t op => perform thread t op w
  | ReturnFrom i n => return_from i n w
  end.

(** ** The abstract sessions

    What the application may expect of the sessions it has added. *)
Inductive phase := Waiting | Open (id : Z) | Closed (id : Z).

#[global] Instance phase_eq_dec : EqDecision phase.
Proof. solve_decision. Defined.

Record view := mk_view {
  v_conn : conn;
  v_ip : bytes;
  v_enter : option callback;
  v_phase : phase;
  v_data : option callback;
  v_close : option callback }.

Definition set_phase (p : phase) (v : view) : view :=
  mk_view (v_conn v) (v_ip v) (v_enter v) p (v_data v) (v_close v).

Definition view_id (v : view) : option Z :=
  match v_phase v with Waiting => None | Open id | Closed id => Some id end.

Definition open_id (v : view) : option Z := match v_phase v with Open id => Some id | _ => None end.

Definition view_step (V : list view) (e : wevent) : option (list view) :=
  match e with
  | Added t c ip cb => if decide (t = length V) then Some (V ++ [mk_view c ip cb Waiting None None]) else None
  | Opened t c id ip cb =>
      v ← V !! t;
      if decide (v_phase v = Waiting /\ v_conn v = c /\ v_ip v = ip /\ v_enter v = cb /\
                 Forall (fun v' => view_id v' <> Some id) V)
      then Some (<[t := set_phase (Open id) v]> V) else None
  | Heard t c data cb =>
      v ← V !! t;
      if decide (is_Some (open_id v) /\ v_conn v = c /\ v_data v = cb) then Some V else None
  | Ended t c cb =>
      v ← V !! t; id ← open_id v;
      if decide (v_conn v = c /\ v_close v = cb) then Some (<[t := set_phase (Closed id) v]> V) else None
  | DataCallbackSet t cb =>
      v ← V !! t; Some (<[t := mk_view (v_conn v) (v_ip v) (v_enter v) (v_phase v) cb (v_close v)]> V)
  | CloseCallbackSet t cb =>
      v ← V !! t; Some (<[t := mk_view (v_conn v) (v_ip v) (v_enter v) (v_phase v) (v_data v) cb]> V)
  | Asked t _ _ => v ← V !! t; if decide (is_Some (view_id v)) then Some V else None
  | Service _ | Refused | Threw | Took _ _ => Some V
  end.

Fixpoint views (V : list view) (l : list wevent) : option (list view) :=
  match l with
  | [] => Some V
  | e :: l => V ← view_step V e; views V l
  end.

(** The events of the service below. *)
Definition service_event (e : wevent) : option event := match e with Service e => Some e | _ => None end.
Definition service_events (l : list wevent) : list event := omap service_event l.
