(* ===== verification/WrapTCPServiceRun.v ===== *)
(** * Runs of WrapTcpService

    The sessions of the application are those of the service below: every step is a step
    of TCPService.v with its effect on the session objects, which show what the abstract
    sessions of WrapTCPService.v say. *)

From S2P Require Import Prelude.
From S2P Require Import Words.
From S2P Require Import Typeids.
From S2P Require Import TCPService.
From S2P Require Import TCPServiceRun.
From S2P Require Import WrapTCPService.
From stdpp Require Import gmap.
#[local] Open Scope Z_scope.
#[local] Open Scope brynet_scope.

(** ** The invariant *)

(** A session object, as the abstract session and the mailboxes of the service
    say that it is. *)
Definition belongs (A : sessions) (v : view) (o : TCPSession.t) (id : Z) (opened : bool) : Prop :=
  TCPSession.mIoLoopData o = Some (loopIndex (sid_of id)) /\ TCPSession.mSocketID o = id /\
  TCPSession.mIP o = v_ip v /\ exists x, A !! id = Some x /\ on x = v_conn v /\ is_open x = opened.

Definition shown (A : sessions) (v : view) (o : TCPSession.t) : Prop :=
  TCPSession.mService o = true /\ TCPSession.mDataCallback o = v_data v /\
  TCPSession.mDisConnectCallback o = v_close v /\
  match v_phase v with
  | Waiting => TCPSession.mIoLoopData o = None /\ TCPSession.mSocketID o = -1
  | Open id => belongs A v o id true
  | Closed id => belongs A v o id false
  end.

Definition closures (t : addr) (v : view) : capture :=
  mk_capture (v_ip v) (Some (mk_enter t (v_enter v))) (Some t) (Some t).

(** The closures of a connection hold the session that was added with it. *)
Definition registered (V : list view) (w : wrapped) (c : conn) (ud : option Z) : Prop :=
  exists t v, captured w !! c = Some (closures t v) /\ V !! t = Some v /\ v_conn v = c /\
    v_phase v = match ud with None => Waiting | Some id => Open id end.

Definition distinct (V : list view) : Prop :=
  forall t1 t2 v1 v2 id, V !! t1 = Some v1 -> V !! t2 = Some v2 -> view_id v1 = Some id -> view_id v2 = Some id -> t1 = t2.

(** Every identifier that the service has given is that of a session. *)
Definition owned (A : sessions) (V : list view) : Prop := forall id, is_Some (A !! id) ->
  exists t v, V !! t = Some v /\ view_id v = Some id.

Record winv (A : sessions) (V : list view) (w : wrapped) : Prop := mk_winv {
  winv_service : simulates A (mTCPService w);
  winv_length : length (objects w) = length V;
  winv_shown : forall t v o, V !! t = Some v -> objects w !! t = Some o -> shown A v o;
  winv_registered : forall c ch, heap (mTCPService w) !! c = Some ch -> registered V w c (mUD ch);
  winv_distinct : distinct V;
  winv_owned : owned A V }.

(** What the threads may do, beyond TCPServiceRun.v: a loop takes the next thing when no
    function of the application runs on it; the data callback of a connection is called
    between its entry and its end; a session is used once its enter callback has been
    called, and its callbacks are set on its own loop, not from within themselves. *)
Definition connected (A : sessions) (c : conn) : Prop := exists id x, A !! id = Some x /\ is_open x = true /\ on x = c.

Definition idle (w : wrapped) (c : conn) : Prop :=
  forall ch, heap (mTCPService w) !! c = Some ch -> frames (enterLoop ch) w = [].

Definition placement_of (fs : list (option AddSessionOption.Func)) (n : Z) : placement :=
  if AddSessionOption.forceSameThreadLoop (AddSessionOption.collect fs) then SameThread else Rand n.

Definition wallowed (A : sessions) (w : wrapped) (t : wlabel) : Prop :=
  match t with
  | AddSession c _ fs thread n ok => allowed A (mTCPService w) (AddSocket c (placement_of fs n) thread ok)
  | RunLoop i ok => frames i w = [] /\ allowed A (mTCPService w) (Run i ok)
  | Data c _ | CloseConn c => idle w c /\ connected A c
  | Perform thread t op => exists o i, objects w !! t = Some o /\ TCPSession.mIoLoopData o = Some i /\
      replaces_itself w thread t op = false /\
      match op with SetUD _ | SetDisConnectCallback _ | SetDataCallback _ => thread = Some i | _ => True end
  | ReturnFrom i _ => frames i w <> []
  end.

(** ** Lemmas *)

Lemma omap_service evs : omap service_event (map Service evs) = evs.
Proof. induction evs as [|e evs IH]; [done|]. cbn in *. by f_equal. Qed.

Lemma service_events_app l1 l2 : service_events (l1 ++ l2) = service_events l1 ++ service_events l2.
Proof. apply omap_app. Qed.

Lemma views_app V l1 l2 : views V (l1 ++ l2) = V' ← views V l1; views V' l2.
Proof. revert V. induction l1 as [|e l1 IH]; intros V; [done|]. cbn. destruct (view_step V e); [|done]. apply IH. Qed.

Lemma views_service V evs : views V (map Service evs) = Some V.
Proof. by induction evs. Qed.

(** What the abstract sessions keep, a step of the mailboxes keeps. *)
Definition shape (x : session) : conn * bool := (on x, is_open x).

Definition kept (A A' : sessions) : Prop := forall id, shape <$> A' !! id = shape <$> A !! id.

Definition quiet (e : event) : bool := match e with Entered _ _ | Disconnected _ _ => false | _ => true end.

Lemma kept_refl A : kept A A.
Proof. done. Qed.

Lemma kept_insert A id x y : A !! id = Some x -> shape y = shape x -> kept A (<[id := y]> A).
Proof.
  intros Ex Hy id'. destruct (decide (id = id')) as [<-|Hne].
  - rewrite lookup_insert_eq, Ex. cbn. by rewrite Hy.
  - by rewrite lookup_insert_ne.
Qed.

Lemma kept_lookup A A' id x : kept A A' -> A !! id = Some x ->
  exists x', A' !! id = Some x' /\ on x' = on x /\ is_open x' = is_open x.
Proof.
  intros Hk Ex. specialize (Hk id). rewrite Ex in Hk. destruct (A' !! id) as [x'|]; [|done].
  exists x'. by injection Hk as -> ->.
Qed.

Lemma mailbox_quiet A e A' : mailbox A [e] = Some A' -> quiet e = true -> kept A A'.
Proof.
  cbn [mailbox]. destruct (mailbox_step A e) as [B|] eqn:E; [|done]. intros [= <-] Hq.
  destruct e as [c id|id m|c id m|id m|c id m|id m|c id]; try done; cbn [mailbox_step] in E;
    (destruct (A !! id) as [x|] eqn:Ex; [cbn in E|done]); repeat case_decide; simplify_eq;
    try apply kept_refl; apply (kept_insert A id x); unfold shape; cbn; intuition congruence.
Qed.

Lemma shown_kept A A' v o : kept A A' -> shown A v o -> shown A' v o.
Proof.
  intros Hk (H1 & H2 & H3 & H4). split; [done|]. split; [done|]. split; [done|].
  destruct (v_phase v) as [|id|id]; [done|..];
    (destruct H4 as (? & ? & ? & x & Ex & Hon & Ho); split; [done|]; split; [done|]; split; [done|];
     destruct (kept_lookup A A' id x Hk Ex) as (x' & Ex' & Eon & Eo); exists x'; by rewrite Eon, Eo).
Qed.

(** *** The operations of the service *)

(** What is not asked for through a session. *)
Definition plain (e : event) : bool := match e with Posted _ _ | Direct _ _ _ | Missed _ _ => false | _ => true end.

(** A request for a session, queued or performed at once. *)
Definition reached (direct : bool) (id : Z) (e : event) : option request :=
  if direct then at_once id e else posted id e.

Lemma plain_reached direct id es : Forall (fun e => plain e = true) es -> omap (reached direct id) es = [].
Proof. induction 1 as [|e es He _ IH]; [done|]. cbn. rewrite IH. by destruct e, direct. Qed.

Lemma post_result thread id m s evs s' : postSessionAsyncProc thread id m s = Some (evs, s') ->
  heap s' = heap s /\ exists e, evs = [e] /\ quiet e = true /\
    forall direct id', reached direct id' e =
      if decide (id = id') then
        if bool_decide (thread = Some (loopIndex (sid_of id))) then (if direct then Some m else None)
        else if direct then None else Some m
      else None.
Proof.
  unfold postSessionAsyncProc, getIOLoopDataBySocketID, pushAsyncProc.
  destruct (get_loop _ s) as [l|] eqn:E; [|done]. cbn [mbind option_bind]. case_decide as Et.
  - cbn [call_proc]. rewrite E. cbn [mbind option_bind]. destruct (find_session id l (heap s)) as [tmp|]; [|done].
    cbn [mbind option_bind]. intros [= <- <-]. split; [done|]. rewrite bool_decide_true by done.
    destruct tmp; (eexists; split; [done|]; split; [done|]); intros [|] id'; cbn; by case_decide.
  - intros [= <- <-]. split; [done|]. rewrite bool_decide_false by done.
    eexists; split; [done|]; split; [done|]. intros [|] id'; cbn; by case_decide.
Qed.

Lemma entry_result direct i ok c s evs s' : call_proc direct i ok (OnEnter c) s = Some (evs, s') ->
  if ok then exists ch id, heap s !! c = Some ch /\ evs = [Entered c id] /\
    heap s' = <[c := mk_channel (enterLoop ch) (Some id) (Some id)]> (heap s)
  else evs = [] /\ heap s' = delete c (heap s).
Proof.
  cbn [call_proc]. destruct ok; [|by intros [= <- <-]]. unfold enterCallback.
  destruct (heap s !! c) as [ch|]; [|done]. cbn [mbind option_bind].
  destruct (get_loop (enterLoop ch) _) as [l'|]; [|done]. cbn [mbind option_bind].
  destruct (MakeID (enterLoop ch) l') as [[id l'']|]; [|done]. cbn [mbind option_bind].
  destruct (TypeIDS.set (Some c) _ _) as [ids|]; [|done]. cbn [mbind option_bind]. intros [= <- <-]. by exists ch, id.
Qed.

(** The loop has nothing to do, or a request. *)
Lemma run_result i ok s l evs s' : get_loop i s = Some l -> run_proc i ok s = Some (evs, s') ->
  match procs l with
  | OnEnter c :: _ => True
  | _ => heap s' = heap s /\ (evs = [] \/ exists e, evs = [e] /\ quiet e = true /\ plain e = true)
  end.
Proof.
  intros E. unfold run_proc. rewrite E. cbn [mbind option_bind]. destruct (procs l) as [|[c|id m] rest]; [|done|].
  - intros [= <- <-]. by split; [|left].
  - cbn [call_proc]. rewrite (get_set_eq _ l) by done. cbn [mbind option_bind].
    destruct (find_session id _ _) as [tmp|]; [|done]. cbn [mbind option_bind]. intros [= <- <-]. split; [done|].
    right. destruct tmp; by eexists.
Qed.

Lemma close_result c s evs s' : closeCallback c s = Some (evs, s') ->
  exists ch id, heap s !! c = Some ch /\ disConnectCallback ch = Some id /\ evs = [Disconnected c id] /\
    heap s' = delete c (heap s).
Proof.
  unfold closeCallback. destruct (heap s !! c) as [ch|] eqn:Ec; [|done]. cbn [mbind option_bind].
  destruct (disConnectCallback ch) as [id|] eqn:Ed; [|done]. cbn [mbind option_bind].
  destruct (procDataSocketClose c s) as [s1|] eqn:Ep; [|done]. cbn [mbind option_bind]. intros [= <- <-].
  exists ch, id. split; [done|]. split; [done|]. split; [done|]. cbn. f_equal.
  unfold procDataSocketClose in Ep. rewrite Ec in Ep. cbn [mbind option_bind] in Ep.
  destruct (mUD ch) as [ud|]; [|by injection Ep as <-].
  destruct (get_loop _ s) as [l|]; [|done]. cbn [mbind option_bind] in Ep.
  destruct (TypeIDS.set _ _ _) as [ids|]; [|done]. cbn [mbind option_bind] in Ep.
  destruct (TypeIDS.reclaimID _ ids) as [ids'|]; [|done]. cbn [mbind option_bind] in Ep. by injection Ep as <-.
Qed.

(** ** The steps *)

(** The service below makes one step, or none. *)
Definition serves (A : sessions) (s : service) (evs : list event) (s' : service) : Prop :=
  (evs = [] /\ s' = s) \/ exists t, allowed A s t /\ step t s = Some (evs, s').

Definition wsimulated (A : sessions) (V : list view) (w : wrapped) (r : option (list wevent * wrapped)) : Prop :=
  exists evs w' A' V', r = Some (evs, w') /\ mailbox A (service_events evs) = Some A' /\
    views V evs = Some V' /\ winv A' V' w' /\ serves A (mTCPService w) (service_events evs) (mTCPService w').

(** The frames are not a part of the invariant. *)
Lemma winv_frames A V w m : winv A V w -> winv A V (set_running m w).
Proof. intros [H1 H2 H3 H4 H5 H6]. by split. Qed.

Lemma winv_enter_frame A V w i f cb : winv A V w -> winv A V (enter_frame i f cb w).
Proof. intros H. destruct cb; [by apply winv_frames|done]. Qed.

Lemma enter_frame_service i f cb w : mTCPService (enter_frame i f cb w) = mTCPService w.
Proof. by destruct cb. Qed.

Section Steps.
Context (A : sessions) (V : list view) (w : wrapped) (Hw : winv A V w).

Lemma view_of t o : objects w !! t = Some o -> exists v, V !! t = Some v /\ shown A v o.
Proof.
  intros Eo. destruct (V !! t) as [v|] eqn:Ev.
  - exists v. split; [done|]. by apply (winv_shown A V w Hw t).
  - apply lookup_ge_None in Ev. apply lookup_lt_Some in Eo. rewrite (winv_length A V w Hw) in Eo. lia.
Qed.

Lemma object_of t v : V !! t = Some v -> exists o, objects w !! t = Some o /\ shown A v o.
Proof.
  intros Ev. destruct (lookup_lt_is_Some_2 (objects w) t) as [o Eo].
  { rewrite (winv_length A V w Hw). by eapply lookup_lt_Some. }
  exists o. split; [done|]. by apply (winv_shown A V w Hw t).
Qed.

(** A step of the service that enters and ends no connection. *)
Lemma winv_quiet A' s' : simulates A' s' -> heap s' = heap (mTCPService w) -> kept A A' ->
  winv A' V (set_service s' w).
Proof.
  intros Hs Hh Hk. split; [done|apply Hw| |cbn; rewrite Hh; apply Hw|apply Hw|].
  - intros t v o Ev Eo. apply (shown_kept A); [done|]. by apply (winv_shown A V w Hw t).
  - intros id Hid. apply (winv_owned A V w Hw). specialize (Hk id).
    by destruct (A' !! id), (A !! id).
Qed.

(** A session object and its abstract session change. *)
Lemma winv_object t o v0 v : V !! t = Some v0 -> v_conn v = v_conn v0 -> v_ip v = v_ip v0 ->
  v_enter v = v_enter v0 -> v_phase v = v_phase v0 -> shown A v o -> winv A (<[t := v]> V) (set_object t o w).
Proof.
  intros Ev0 Hc Hip He Hp Hsh. destruct Hw as [H1 H2 H3 H4 H5 H6]. split; [done| | | | |].
  - cbn. by rewrite !length_insert.
  - intros t' v' o' Ev Eo. cbn [objects set_object] in Eo. destruct (decide (t = t')) as [<-|Hne].
    + apply list_lookup_insert_Some in Ev as [(_ & <- & _)|(? & _)]; [|done].
      apply list_lookup_insert_Some in Eo as [(_ & <- & _)|(? & _)]; [|done]. done.
    + rewrite list_lookup_insert_ne in Ev by done. rewrite list_lookup_insert_ne in Eo by done. by apply (H3 t').
  - intros c ch Ec. destruct (H4 c ch Ec) as (t' & v' & E1 & E2 & E3 & E4). unfold registered. cbn [captured set_object].
    destruct (decide (t = t')) as [<-|Hne].
    + exists t, v. rewrite Ev0 in E2. injection E2 as <-. split; [rewrite E1; unfold closures; congruence|].
      split; [apply list_lookup_insert_eq; by eapply lookup_lt_Some|]. split; congruence.
    + exists t', v'. split; [done|]. split; [|done]. by rewrite list_lookup_insert_ne.
  - assert (Hlook : forall k u, <[t := v]> V !! k = Some u -> exists u', V !! k = Some u' /\ view_id u' = view_id u).
    { intros k u Eu. apply list_lookup_insert_Some in Eu as [(<- & <- & Hlt)|(_ & Eu)]; [|by exists u].
      exists v0. split; [done|]. unfold view_id. by rewrite Hp. }
    intros t1 t2 v1 v2 id E1 E2 I1 I2. destruct (Hlook t1 v1 E1) as (u1 & F1 & J1).
    destruct (Hlook t2 v2 E2) as (u2 & F2 & J2). apply (H5 t1 t2 u1 u2 id); congruence.
  - intros id Hid. destruct (H6 id Hid) as (t' & u & Eu & Hu). destruct (decide (t = t')) as [<-|Hne].
    + exists t, v. rewrite list_lookup_insert_eq by (by eapply lookup_lt_Some). split; [done|].
      rewrite Ev0 in Eu. injection Eu as <-. revert Hu. unfold view_id. by rewrite Hp.
    + exists t', u. by rewrite list_lookup_insert_ne.
Qed.

(** A request is asked for. *)
Lemma step_ask thread t m st s' evs o v :
  V !! t = Some v -> is_Some (view_id v) -> objects w !! t = Some o ->
  allowed A (mTCPService w) st -> step st (mTCPService w) = Some (evs, s') ->
  heap s' = heap (mTCPService w) -> (exists e, evs = [e] /\ quiet e = true) ->
  wsimulated A V w (Some (Asked t thread m :: map Service evs, set_service s' w)).
Proof.
  intros Ev Hid Eo Ha Es Hh (e & -> & Hq).
  destruct (step_simulated A _ st (winv_service A V w Hw) Ha) as (evs & s2 & A' & Es' & Em & Hs).
  rewrite Es in Es'. injection Es' as <- <-.
  exists (Asked t thread m :: map Service [e]), (set_service s' w), A', V. split; [done|]. split; [exact Em|]. split.
  - cbn. rewrite Ev. cbn. by rewrite decide_True.
  - split; [|right; by exists st]. apply winv_quiet; [done|done|]. by apply (mailbox_quiet A e).
Qed.

(** The identifier and the loop of a session in use. *)
Lemma in_use t o i : objects w !! t = Some o -> TCPSession.mIoLoopData o = Some i ->
  exists v x, V !! t = Some v /\ view_id v = Some (TCPSession.mSocketID o) /\
    i = loopIndex (sid_of (TCPSession.mSocketID o)) /\ A !! TCPSession.mSocketID o = Some x /\
    TCPSession.mService o = true /\ shown A v o.
Proof.
  intros Eo Ei. destruct (view_of t o Eo) as (v & Ev & Hsh). exists v.
  pose proof Hsh as (H1 & _ & _ & H4). unfold view_id. destruct (v_phase v) as [|id|id].
  - destruct H4. congruence.
  - destruct H4 as (E1 & E2 & _ & x & Ex & _). exists x. rewrite E2. rewrite Ei in E1. injection E1 as ->. done.
  - destruct H4 as (E1 & E2 & _ & x & Ex & _). exists x. rewrite E2. rewrite Ei in E1. injection E1 as ->. done.
Qed.

Lemma winv_loop id : is_Some (A !! id) -> is_Some (getIOLoopDataBySocketID id (mTCPService w)).
Proof. intros [x Ex]. destruct (sim_session A _ (winv_service A V w Hw) id x Ex) as (l & E & _). by exists l. Qed.

Lemma step_perform thread t op : wallowed A w (Perform thread t op) -> wsimulated A V w (perform thread t op w).
Proof.
  intros (o & i & Eo & Ei & Hr & _).
  destruct (in_use t o i Eo Ei) as (v & x & Ev & Hid & -> & Ex & Hsv & Hsh).
  assert (Hset : forall v' o' evs, service_events evs = [] -> views V evs = Some (<[t := v']> V) ->
    v_conn v' = v_conn v -> v_ip v' = v_ip v -> v_enter v' = v_enter v -> v_phase v' = v_phase v -> shown A v' o' ->
    wsimulated A V w (Some (evs, set_object t o' w))).
  { intros v' o' evs E1 E2 E3 E4 E5 E6 E7. exists evs, (set_object t o' w), A, (<[t := v']> V). rewrite E1.
    split; [done|]. split; [done|]. split; [done|]. split; [|by left].
    by apply (winv_object t o' v v'). }
  assert (Hid' : is_Some (view_id v)) by (by eexists).
  assert (Hpost : forall m, wsimulated A V w
    (ask_through thread t m (postSessionAsyncProc thread (TCPSession.mSocketID o) m (mTCPService w)) w)).
  { intros m. unfold ask_through.
    destruct (step_simulated A _ (Post thread (TCPSession.mSocketID o) m) (winv_service A V w Hw)) as (evs & s' & A' & Es & _ & _);
      [by exists x|]. pose proof Es as Es'. cbn [step] in Es'. rewrite Es'. cbn [mbind option_bind].
    destruct (post_result _ _ _ _ _ _ Es') as (Hh & e & -> & Hq & _).
    apply (step_ask thread t m (Post thread (TCPSession.mSocketID o) m) s' _ o v); try done; [by exists x|]. by eexists. }
  unfold perform. rewrite Eo. cbn [mbind option_bind]. rewrite Hr. destruct Hsh as (S1 & S2 & S3 & S4).
  destruct op as [ud|cb|cb|b| | |time]; unfold via_service; rewrite ?Hsv; try apply Hpost.
  - apply (Hset v); [done|cbn; by rewrite list_insert_id|done..|]. split; [done|]. by split.
  - apply (Hset (mk_view (v_conn v) (v_ip v) (v_enter v) (v_phase v) (v_data v) cb)); try done. cbn. by rewrite Ev.
  - apply (Hset (mk_view (v_conn v) (v_ip v) (v_enter v) (v_phase v) cb (v_close v))); try done. cbn. by rewrite Ev.
  - rewrite Ei. cbn [mbind option_bind].
    replace (ioloop_send _ _ _ _ _) with (postSessionAsyncProc thread (TCPSession.mSocketID o) (Send b) (mTCPService w)); [apply Hpost|].
    rewrite <- send_posts. unfold TCPService.send. destruct (winv_loop (TCPSession.mSocketID o)) as [l ->]; [by exists x|done].
Qed.

(** Nothing happens to the sessions. *)
Lemma wsim_same evs : service_events evs = [] -> views V evs = Some V -> wsimulated A V w (Some (evs, w)).
Proof. intros E1 E2. exists evs, w, A, V. rewrite E1. split; [done|]. split; [done|]. split; [done|]. split; [done|]. by left. Qed.

Lemma options_passed t socket o : AddSocketOption.collect (socket_options t socket o) =
  AddSocketOption.mk (Some (mk_enter t (AddSessionOption.enterCallback o))) (Some t) (Some t)
    (if AddSessionOption.useSSL o && isServerSide socket then AddSessionOption.sslHelper o else None)
    (AddSessionOption.useSSL o) (AddSessionOption.forceSameThreadLoop o) (AddSessionOption.maxRecvBufferSize o).
Proof. unfold socket_options. by destruct (AddSessionOption.useSSL o), (isServerSide socket). Qed.

(** A session is added. *)
Lemma winv_added s' c ch ip cb : let v := mk_view c ip cb Waiting None None in
  simulates A s' -> heap s' = <[c := ch]> (heap (mTCPService w)) -> mUD ch = None ->
  winv A (V ++ [v]) (mk_wrapped s' (objects w ++ [TCPSession.setService TCPSession.Create])
    (<[c := closures (length (objects w)) v]> (captured w)) (running w)).
Proof.
  intros v Hs Hh Hud. destruct Hw as [H1 H2 H3 H4 H5 H6]. split; [done|cbn; rewrite !length_app; cbn; lia| | | |].
  - intros t v' o Ev Eo. cbn [objects] in Eo. apply lookup_app_Some in Ev as [Ev|[Hge Ev]].
    + rewrite lookup_app_l in Eo by (rewrite H2; by eapply lookup_lt_Some). by apply (H3 t).
    + rewrite lookup_app_r in Eo by lia. rewrite H2 in Eo.
      apply list_lookup_singleton_Some in Ev as [_ <-], Eo as [_ <-]. by split_and!.
  - intros c' ch' Ec. cbn [mTCPService] in Ec. rewrite Hh in Ec. unfold registered. cbn [captured].
    destruct (decide (c = c')) as [<-|Hne].
    + rewrite lookup_insert_eq in Ec. rewrite lookup_insert_eq. injection Ec as <-. rewrite Hud. exists (length (objects w)), v.
      split; [done|]. split; [|done]. rewrite H2. by apply list_lookup_middle.
    + rewrite lookup_insert_ne in Ec by done. destruct (H4 c' ch' Ec) as (t & v' & E1 & E2 & E3).
      exists t, v'. rewrite lookup_insert_ne by done. split; [done|]. split; [by apply lookup_app_l_Some|done].
  - assert (Hold : forall k u id, (V ++ [v]) !! k = Some u -> view_id u = Some id -> V !! k = Some u).
    { intros k u id Eu Hu. apply lookup_app_Some in Eu as [Eu|[_ Eu]]; [done|].
      apply list_lookup_singleton_Some in Eu as [_ <-]. done. }
    intros t1 t2 v1 v2 id E1 E2 I1 I2. apply (H5 t1 t2 v1 v2 id); [by eapply Hold..|done|done].
  - intros id Hid. destruct (H6 id Hid) as (t & u & Eu & Hu). exists t, u. split; [by apply lookup_app_l_Some|done].
Qed.

(** A session enters or ends. *)
Lemma winv_phase A' s' t v p o' m r :
  simulates A' s' -> V !! t = Some v ->
  (forall t' u o, t' <> t -> V !! t' = Some u -> shown A u o -> shown A' u o) ->
  shown A' (set_phase p v) o' ->
  (forall c, c <> v_conn v -> heap s' !! c = heap (mTCPService w) !! c /\ m !! c = captured w !! c) ->
  (forall ch, heap s' !! v_conn v = Some ch -> m !! v_conn v = Some (closures t v) /\
     p = match mUD ch with None => Waiting | Some id => Open id end) ->
  (forall id t' u, view_id (set_phase p v) = Some id -> V !! t' = Some u -> view_id u = Some id -> t' = t) ->
  (forall id, is_Some (A' !! id) -> view_id (set_phase p v) = Some id \/ is_Some (A !! id)) ->
  (forall id, view_id v = Some id -> view_id (set_phase p v) = Some id) ->
  winv A' (<[t := set_phase p v]> V) (mk_wrapped s' (<[t := o']> (objects w)) m r).
Proof.
  intros Hs Ev Hoth Hsh Hne Hc Hid Hnew Hold. destruct Hw as [_ H2 H3 H4 H5 H6].
  split; [done|cbn; by rewrite !length_insert| | | |].
  - intros t' u o Eu Eo. cbn [objects] in Eo. destruct (decide (t = t')) as [<-|Hn].
    + apply list_lookup_insert_Some in Eu as [(_ & <- & _)|(? & _)]; [|done].
      apply list_lookup_insert_Some in Eo as [(_ & <- & _)|(? & _)]; done.
    + rewrite list_lookup_insert_ne in Eu by done. rewrite list_lookup_insert_ne in Eo by done.
      apply (Hoth t'); [congruence|done|]. by apply (H3 t').
  - intros c ch Ec. cbn [mTCPService] in Ec. unfold registered. cbn [captured].
    destruct (decide (c = v_conn v)) as [->|Hn].
    + destruct (Hc ch Ec) as [Em Ep]. exists t, (set_phase p v). split; [exact Em|].
      split; [apply list_lookup_insert_eq; by eapply lookup_lt_Some|by split].
    + destruct (Hne c Hn) as [Eh Em]. rewrite Eh in Ec. destruct (H4 c ch Ec) as (t' & u & E1 & E2 & E3 & E4).
      exists t', u. rewrite Em. split; [done|]. split; [|done]. rewrite list_lookup_insert_ne; [done|].
      intros <-. congruence.
  - assert (Hlook : forall k u, <[t := set_phase p v]> V !! k = Some u ->
      (k = t /\ u = set_phase p v) \/ (k <> t /\ V !! k = Some u)).
    { intros k u Eu. apply list_lookup_insert_Some in Eu as [(-> & -> & _)|(? & Eu)]; [by left|right].
      by split; [congruence|]. }
    intros t1 t2 v1 v2 id E1 E2 I1 I2.
    destruct (Hlook t1 v1 E1) as [[-> ->]|[N1 F1]], (Hlook t2 v2 E2) as [[-> ->]|[N2 F2]]; [done|..].
    + symmetry. by apply (Hid id t2 v2).
    + by apply (Hid id t1 v1).
    + by apply (H5 t1 t2 v1 v2 id).
  - assert (Et : <[t := set_phase p v]> V !! t = Some (set_phase p v)).
    { apply list_lookup_insert_eq. by eapply lookup_lt_Some. }
    intros id Hi. destruct (Hnew id Hi) as [Hp|Hi']; [by exists t, (set_phase p v)|].
    destruct (H6 id Hi') as (t' & u & Eu & Hu). destruct (decide (t = t')) as [<-|Hn].
    + exists t, (set_phase p v). split; [exact Et|]. apply Hold. congruence.
    + exists t', u. by rewrite list_lookup_insert_ne.
Qed.

Lemma shown_ext A' u o : (forall id, view_id u = Some id -> A' !! id = A !! id) -> shown A u o -> shown A' u o.
Proof.
  intros He (H1 & H2 & H3 & H4). split; [done|]. split; [done|]. split; [done|]. unfold view_id, belongs in *.
  destruct (v_phase u) as [|id|id]; [done|..]; by rewrite He.
Qed.

(** An identifier that the service has not given is that of no session. *)
Lemma id_unknown id t u : A !! id = None -> V !! t = Some u -> view_id u <> Some id.
Proof.
  intros Hn Eu Hid. destruct (object_of t u Eu) as (o & _ & _ & _ & _ & H). unfold view_id in Hid.
  destruct (v_phase u) as [|i|i]; [done|..]; injection Hid as ->; destruct H as (_ & _ & _ & x & Ex & _); congruence.
Qed.

(** The entry of a connection, and the enter callback of the application. *)
Lemma step_opened direct i c l evs s' : about_to_enter A (mTCPService w) i c -> 0 <= i ->
  get_loop i (mTCPService w) = Some l -> has_room l ->
  call_proc direct i true (OnEnter c) (mTCPService w) = Some (evs, s') ->
  exists evs' w' A' V', after_entry i c true evs (set_service s' w) = Some (evs', w') /\ service_events evs' = evs /\
    mailbox A evs = Some A' /\ views V evs' = Some V' /\ winv A' V' w' /\ mTCPService w' = s'.
Proof.
  intros Hent Hi El Hroom Es.
  destruct (step_enter direct A _ i l c true Hent Hi El (fun _ => Hroom)) as (evs2 & s2 & A' & Es' & Em & Hs).
  rewrite Es in Es'. injection Es' as <- <-. destruct (entry_result _ _ _ _ _ _ _ Es) as (ch & id & Ec & -> & Hh).
  assert (Ech : ch = mk_channel i None None) by (destruct Hent as (_ & H & _); unfold entering_ok in H; congruence).
  subst ch. cbn [enterLoop] in Hh. unfold after_entry. cbn [mTCPService set_service]. rewrite Hh, lookup_insert_eq. cbn [mbind option_bind mUD].
  destruct (winv_registered A V w Hw c _ Ec) as (t & v & Ecap & Ev & Ecn & Eph). cbn [mUD] in Eph.
  destruct (object_of t v Ev) as (o & Eo & Hsh).
  cbn [mailbox mailbox_step] in Em. case_decide as Hnew; [|done]. injection Em as EA.
  assert (Exid : A' !! id = Some (mk_session c true [])) by (rewrite <- EA; apply lookup_insert_eq).
  destruct (sim_session A' s' Hs id _ Exid) as (l' & El' & _).
  unfold session_entered. cbn [captured set_service]. rewrite Ecap. cbn [mbind option_bind cap_enter closures tmpSession userEnterCallback mTCPService set_service].
  unfold getIOLoopDataBySocketID. rewrite El'. cbn [mbind option_bind objects set_service]. rewrite Eo. cbn [mbind option_bind map app].
  eexists _, _, A', (<[t := set_phase (Open id) v]> V). split; [done|]. split; [done|]. split; [|split; [|split]].
  - cbn. rewrite decide_True by done. by rewrite EA.
  - cbn. rewrite Ev. cbn. rewrite decide_True; [done|]. split_and!; try done.
    apply Forall_lookup_2. intros k u Eu. by apply (id_unknown id k u).
  - apply winv_enter_frame. apply (winv_phase A' s' t v (Open id)); try done.
    + intros t' u o' _ Eu. apply shown_ext. intros id' Hid'. rewrite <- EA. rewrite lookup_insert_ne; [done|].
      intros <-. by apply (id_unknown id t' u).
    + destruct Hsh as (S1 & S2 & S3 & _). split_and!; try done. cbn. split_and!; try done. eexists.
      split; [exact Exid|]. by split.
    + intros c' Hne. rewrite Hh, lookup_insert_ne by congruence. done.
    + intros ch. rewrite Ecn, Hh, lookup_insert_eq. intros [= <-]. by split.
    + intros id' t' u [= <-] Eu Hu. exfalso. by apply (id_unknown id t' u).
    + intros id' Hid'. rewrite <- EA in Hid'. destruct (decide (id = id')) as [<-|Hn]; [by left|right].
      by rewrite lookup_insert_ne in Hid'.
    + intros id' Hid'. exfalso. unfold view_id in Hid'. by rewrite Eph in Hid'.
  - by rewrite enter_frame_service.
Qed.

(** A connection that could not enter. *)
Lemma winv_dropped s' c : simulates A s' -> heap s' = delete c (heap (mTCPService w)) ->
  winv A V (set_captured (delete c (captured w)) (set_service s' w)).
Proof.
  intros Hs Hh. destruct Hw as [_ H2 H3 H4 H5 H6]. split; [done..| |done|done].
  intros c' ch Ec. cbn [mTCPService set_captured set_service] in Ec. rewrite Hh in Ec.
  apply lookup_delete_Some in Ec as [Hne Ec]. destruct (H4 c' ch Ec) as (t & v & E1 & E2).
  exists t, v. cbn. by rewrite lookup_delete_ne.
Qed.

(** Both outcomes of an entry. *)
Lemma step_entry direct i c l ok evs s' : about_to_enter A (mTCPService w) i c -> 0 <= i ->
  get_loop i (mTCPService w) = Some l -> (ok = true -> has_room l) ->
  call_proc direct i ok (OnEnter c) (mTCPService w) = Some (evs, s') ->
  exists evs' w' A' V', after_entry i c ok evs (set_service s' w) = Some (evs', w') /\ service_events evs' = evs /\
    mailbox A evs = Some A' /\ views V evs' = Some V' /\ winv A' V' w' /\ mTCPService w' = s'.
Proof.
  intros Hent Hi El Hroom Es. destruct ok; [by apply (step_opened direct i c l); [..|apply Hroom|]|].
  destruct (entry_result _ _ _ _ _ _ _ Es) as [-> Hh]. cbn [call_proc] in Es. injection Es as Es.
  eexists _, _, A, V. split; [done|]. split; [done|]. split; [done|]. split; [done|]. split; [|done].
  apply winv_dropped; [|done]. rewrite <- Es. by apply (enter_failed A _ i l).
Qed.
End Steps.

Section MoreSteps.
Context (A : sessions) (V : list view) (w : wrapped) (Hw : winv A V w).

Lemma step_add_session c socket fs thread n ok : wallowed A w (AddSession c socket fs thread n ok) ->
  wsimulated A V w (_addSession c socket fs thread n ok w).
Proof.
  cbn [wallowed]. intros Ha. unfold _addSession, _addDataSocket. rewrite options_passed. cbv zeta.
  cbn [AddSocketOption.maxRecvBufferSize AddSocketOption.useSSL].
  destruct (AddSessionOption.maxRecvBufferSize _ <=? 0); [by apply wsim_same|].
  destruct (AddSessionOption.useSSL _); [by apply wsim_same|].
  unfold add_channel. cbn [AddSocketOption.forceSameThreadLoop mTCPService]. fold (placement_of fs n).
  set (p := placement_of fs n) in *.
  destruct (step_simulated A _ _ (winv_service A V w Hw) Ha) as (evs & s' & A' & Es & Em & Hs).
  pose proof Es as Es'. cbn [step] in Es'. rewrite Es'. cbn [mbind option_bind].
  destruct (place thread p (mTCPService w)) as [i|] eqn:Ep; cbn [mbind option_bind]; [|by apply wsim_same].
  destruct (place_loop thread p _ i Ep) as (Hi & l & El). destruct Ha as [Hc Hroom].
  pose proof (new_connection A _ i l c (winv_service A V w Hw) Hc Hi El) as Hent.
  unfold helpAddChannel in Es'. rewrite Ep in Es'. set (s1 := set_heap _ _) in *.
  set (v := mk_view c (GetIP socket) (AddSessionOption.enterCallback (AddSessionOption.collect fs)) Waiting None None).
  set (w1 := mk_wrapped s1 (objects w ++ [TCPSession.setService TCPSession.Create])
    (<[c := closures (length (objects w)) v]> (captured w)) (running w)).
  assert (Hw1 : winv A (V ++ [v]) w1) by (by apply (winv_added A V w Hw s1 c (mk_channel i None None)); [apply Hent|..]).
  assert (El1 : get_loop i s1 = Some l) by exact El.
  assert (Ev : view_step V (Added (length (objects w)) c (GetIP socket) (v_enter v)) = Some (V ++ [v])).
  { cbn. by rewrite decide_True by apply (winv_length A V w Hw). }
  assert (EVs : forall es, views V (Added (length (objects w)) c (GetIP socket) (v_enter v) :: es) = views (V ++ [v]) es).
  { intros es. cbn [views]. by rewrite Ev. }
  unfold pushAsyncProc in Es'. rewrite El1 in Es'. cbn [mbind option_bind] in Es'.
  assert (Hserv : forall evs' w', service_events evs' = evs -> mTCPService w' = s' ->
    serves A (mTCPService w) (service_events (Added (length (objects w)) c (GetIP socket) (v_enter v) :: evs')) (mTCPService w')).
  { intros evs' w' H1 H2. right. exists (AddSocket c p thread ok). rewrite H2. cbn. fold (service_events evs').
    rewrite H1. split; [by split|exact Es]. }
  destruct (decide (thread = Some i)) as [Et|Et].
  - destruct (step_entry A (V ++ [v]) w1 Hw1 true i c l ok evs s' Hent Hi El1 (fun _ => Hroom i l Et Ep El) Es')
      as (evs' & w' & A2 & V2 & E2 & Hev & Em2 & EV & Hw2 & Hsv).
    change (set_captured _ _) with (set_service s' w1). rewrite E2. cbn [mbind option_bind].
    eexists _, w', A2, V2. split; [done|]. split; [cbn; fold (service_events evs'); by rewrite Hev|].
    split; [exact (eq_trans (EVs evs') EV)|]. split; [done|]. by apply Hserv.
  - injection Es' as <- <-. injection Em as <-. cbn [mbind option_bind].
    eexists _, (set_service _ w1), A, (V ++ [v]). split; [done|]. split; [done|].
    split; [exact (EVs [])|]. split; [|by apply Hserv].
    apply (winv_quiet A (V ++ [v]) w1 Hw1); [done|done|apply kept_refl].
Qed.

Lemma step_run_loop i ok : allowed A (mTCPService w) (Run i ok) -> wsimulated A V w (run_loop i ok w).
Proof.
  intros Ha. pose proof Ha as (l & Hi & El & Hroom).
  destruct (step_simulated A _ _ (winv_service A V w Hw) Ha) as (evs & s' & A' & Es & Em & Hs).
  pose proof Es as Es'. cbn [step] in Es'. pose proof (run_result i ok _ l evs s' El Es') as Hr.
  unfold run_loop. rewrite El. cbn [mbind option_bind]. rewrite Es'. cbn [mbind option_bind].
  assert (Hq : heap s' = heap (mTCPService w) -> (evs = [] \/ exists e, evs = [e] /\ quiet e = true /\ plain e = true) ->
    wsimulated A V w (Some (map Service evs, set_service s' w))).
  { intros Hh He. exists (map Service evs), (set_service s' w), A', V.
    unfold service_events. rewrite omap_service. split; [done|]. split; [done|]. split; [apply views_service|].
    split; [|right; by eexists]. apply (winv_quiet A V w Hw); [done..|].
    destruct He as [->|(e & -> & He & _)]; [injection Em as <-; apply kept_refl|by apply (mailbox_quiet A e)]. }
  destruct (procs l) as [|[c|id m] rest] eqn:Ep; [by apply Hq; apply Hr| |by apply Hq; apply Hr].
  unfold run_proc in Es'. rewrite El in Es'. cbn [mbind option_bind] in Es'. rewrite Ep in Es'.
  set (l1 := mk_loop _ _ rest) in *. set (s1 := set_loop i l1 _) in *.
  pose proof (enter_taken A _ i l c rest (winv_service A V w Hw) Hi El Ep) as Hent. fold l1 s1 in Hent.
  assert (Hw1 : winv A V (set_service s1 w)) by (apply (winv_quiet A V w Hw); [apply Hent|done|apply kept_refl]).
  destruct (step_entry A V _ Hw1 false i c l1 ok evs s' Hent Hi ltac:(by apply (get_set_eq _ l)) (fun _ => Hroom) Es')
    as (evs' & w' & A2 & V2 & E2 & Hev & Em2 & EV & Hw2 & Hsv).
  change (set_service s' (set_service s1 w)) with (set_service s' w) in E2. rewrite E2.
  eexists _, w', A2, V2. split; [done|]. rewrite Hev. split; [done|]. split; [done|]. split; [done|].
  right. exists (Run i ok). by rewrite Hsv.
Qed.

(** The session of a connection that is open. *)
Lemma session_of c : connected A c -> exists id x t v o, A !! id = Some x /\ is_open x = true /\ on x = c /\
  heap (mTCPService w) !! c = Some (mk_channel (loopIndex (sid_of id)) (Some id) (Some id)) /\
  captured w !! c = Some (closures t v) /\ V !! t = Some v /\ v_conn v = c /\ v_phase v = Open id /\
  objects w !! t = Some o /\ shown A v o.
Proof.
  intros (id & x & Ex & Ho & Hc).
  destruct (sim_session A _ (winv_service A V w Hw) id x Ex) as (l & _ & _ & _ & _ & Hopen).
  destruct (Hopen Ho) as (_ & _ & Hh). rewrite Hc in Hh.
  destruct (winv_registered A V w Hw c _ Hh) as (t & v & E1 & E2 & E3 & E4).
  destruct (object_of A V w Hw t v E2) as (o & Eo & Hsh). by exists id, x, t, v, o.
Qed.

Lemma step_data c data : connected A c -> wsimulated A V w (session_data c data w).
Proof.
  intros Hc. destruct (session_of c Hc) as (id & x & t & v & o & _ & _ & _ & Hh & Ecap & Ev & Ecn & Eph & Eo & Hsh).
  unfold session_data. rewrite Hh. cbn [mbind option_bind]. rewrite Ecap. cbn [mbind option_bind cap_data closures].
  rewrite Eo. cbn [mbind option_bind]. destruct Hsh as (_ & -> & _).
  eexists _, _, A, V. split; [done|]. split; [by destruct (v_data v)|]. split.
  - assert (E : forall l, views V (Heard t c data (v_data v) :: l) = views V l).
    { intros l. cbn [views view_step]. rewrite Ev. cbn [mbind option_bind]. rewrite decide_True; [done|].
      split; [|done]. unfold open_id. rewrite Eph. by eexists. }
    rewrite E. by destruct (v_data v).
  - split; [by apply winv_enter_frame|]. left. rewrite enter_frame_service. by destruct (v_data v).
Qed.

Lemma step_closed c : connected A c -> wsimulated A V w (session_closed c w).
Proof.
  intros Hc. destruct (session_of c Hc) as (id & x & t & v & o & Ex & Hop & Hon & Hh & Ecap & Ev & Ecn & Eph & Eo & Hsh).
  unfold session_closed. rewrite Hh. cbn [mbind option_bind]. rewrite Ecap. cbn [mbind option_bind cap_disconnect closures].
  assert (Ha : allowed A (mTCPService w) (Close c)) by (by exists id, x).
  destruct (step_simulated A _ _ (winv_service A V w Hw) Ha) as (evs & s' & A' & Es & Em & Hs).
  pose proof Es as Es'. cbn [step] in Es'. rewrite Es'. cbn [mbind option_bind]. rewrite Eo. cbn [mbind option_bind].
  destruct (close_result _ _ _ _ Es') as (ch & id' & Ech & Edis & -> & Hh'). rewrite Hh in Ech. injection Ech as <-.
  injection Edis as <-. cbn [mailbox mailbox_step] in Em. rewrite Ex in Em. cbn [mbind option_bind] in Em.
  rewrite decide_True in Em by done. injection Em as EA.
  destruct Hsh as (S1 & S2 & S3 & S4). rewrite Eph in S4. destruct S4 as (B1 & B2 & B3 & _). rewrite S3.
  eexists _, _, A', (<[t := set_phase (Closed id) v]> V). split; [done|]. split; [|split; [|split]].
  - cbn. rewrite Ex. cbn. rewrite decide_True by done. by rewrite EA.
  - cbn. rewrite Ev. cbn. unfold open_id. rewrite Eph. cbn. by rewrite decide_True.
  - apply winv_enter_frame.
    replace (set_captured _ _) with (mk_wrapped s' (<[t := o]> (objects w)) (delete c (captured w)) (running w))
      by (unfold set_captured, set_service; cbn; by rewrite list_insert_id).
    apply (winv_phase A V w Hw A' s' t v (Closed id)); try done.
    + intros t' u o' Hne Eu. apply shown_ext. intros id' Hid'. rewrite <- EA, lookup_insert_ne; [done|].
      intros <-. apply Hne. apply (winv_distinct A V w Hw t' t u v id); try done. unfold view_id. by rewrite Eph.
    + split; [done|]. split; [done|]. split; [done|]. cbn [v_phase set_phase]. split; [done|]. split; [done|].
      split; [done|]. rewrite <- EA, lookup_insert_eq. eexists. split; [done|]. by split.
    + intros c' Hne. rewrite Hh'. rewrite !lookup_delete_ne by congruence. done.
    + intros ch. rewrite Ecn, Hh', lookup_delete_eq. done.
    + intros id' t' u [= <-] Eu Hu. apply (winv_distinct A V w Hw t' t u v id); try done. unfold view_id. by rewrite Eph.
    + intros id' Hid'. rewrite <- EA in Hid'. destruct (decide (id = id')) as [<-|Hn]; [by left|right].
      by rewrite lookup_insert_ne in Hid'.
    + intros id'. unfold view_id. by rewrite Eph.
  - right. exists (Close c). split; [done|]. rewrite enter_frame_service. cbn. exact Es'.
Qed.

Lemma step_return i n : frames i w <> [] -> wsimulated A V w (return_from i n w).
Proof.
  intros Hf. unfold return_from. destruct (frames i w) as [|f rest]; [done|].
  eexists _, _, A, V. split; [done|]. split; [by destruct f|]. split; [by destruct f|].
  split; [by apply winv_frames|]. left. by destruct f.
Qed.

Lemma wstep_simulated t : wallowed A w t -> wsimulated A V w (wstep t w).
Proof.
  destruct t as [c socket fs thread n ok|i ok|c data|c|thread t op|i n]; cbn [wstep].
  - apply step_add_session.
  - intros [_ H]. by apply step_run_loop.
  - intros [_ H]. by apply step_data.
  - intros [_ H]. by apply step_closed.
  - by apply step_perform.
  - apply step_return.
Qed.
End MoreSteps.

(** ** Runs *)

Definition wstarted (n : Z) : wrapped := startWorkThread n new_wrapped.

Inductive wrun (n : Z) : list wevent -> wrapped -> Prop :=
  | wrun_start : wrun n [] (wstarted n)
  | wrun_step evs w A t evs' w' : wrun n evs w -> mailbox ∅ (service_events evs) = Some A -> wallowed A w t ->
      wstep t w = Some (evs', w') -> wrun n (evs ++ evs') w'.

Lemma wstarted_inv n : 0 <= n <= 2 ^ 16 -> winv ∅ [] (wstarted n).
Proof.
  intros Hn. split; [by apply started_simulates|done|done| | |].
  - intros c ch Ec. change (heap (started n) !! c = Some ch) in Ec. unfold started, startWorkerThread in Ec.
    by rewrite decide_True in Ec.
  - intros t1 t2 v1 v2 id E1. done.
  - intros id [x Ex]. by rewrite lookup_empty in Ex.
Qed.

(** Every run is a run of the service below, and keeps the invariant. *)
Lemma wrun_simulates n evs w : 0 <= n <= 2 ^ 16 -> wrun n evs w ->
  run n (service_events evs) (mTCPService w) /\
  exists A V, mailbox ∅ (service_events evs) = Some A /\ views [] evs = Some V /\ winv A V w.
Proof.
  intros Hn. induction 1 as [|evs w A t evs' w' Hrun IH Em Ha Es].
  - split; [constructor|]. exists ∅, []. split; [done|]. split; [done|]. by apply wstarted_inv.
  - destruct IH as (Hr & A' & V & Em' & Ev & Hinv). rewrite Em in Em'. injection Em' as <-.
    destruct (wstep_simulated A V w Hinv t Ha) as (e2 & w2 & A2 & V2 & Es2 & Em2 & Ev2 & Hinv2 & Hserv).
    rewrite Es in Es2. injection Es2 as <- <-. rewrite service_events_app. split.
    + destruct Hserv as [[-> ->]|(st & Hst & Est)]; [by rewrite app_nil_r|]. by eapply run_step.
    + exists A2, V2. rewrite mailbox_app, Em, views_app, Ev. done.
Qed.

(** ** Requests *)

(** What is asked for through the session [t] of the loop [i]: on the thread of the loop itself
    ([direct]), where it is done at once, or on another one. *)
Definition asked (direct : bool) (t : addr) (i : Z) (e : wevent) : option request :=
  match e with
  | Asked t' thread m =>
      if decide (t' = t) then if Bool.eqb direct (bool_decide (thread = Some i)) then Some m else None else None
  | _ => None
  end.

(** A step brings what is asked for to the service, and nothing else. *)
Definition posts_asked (V : list view) (evs : list wevent) : Prop := forall direct t v id,
  V !! t = Some v -> view_id v = Some id ->
  omap (asked direct t (loopIndex (sid_of id))) evs = omap (reached direct id) (service_events evs).

(** Nothing was asked for, and the service gets no request. *)
Definition asks_nothing (e : wevent) : bool :=
  match e with Asked _ _ _ => false | Service e => plain e | _ => true end.

Lemma posts_nothing V evs : Forall (fun e => asks_nothing e = true) evs -> posts_asked V evs.
Proof.
  intros Hev direct t v id _ _. unfold service_events. induction Hev as [|e evs He _ IH]; [done|].
  destruct e as [e| | | | | | | | | | ]; cbn [omap list_omap service_event asked]; try exact IH; [|done].
  pose proof (plain_reached direct id [e] ltac:(by repeat constructor)) as Hp. cbn in Hp.
  by destruct (reached direct id e).
Qed.

Lemma plain_services es : Forall (fun e => plain e = true) es -> Forall (fun e => asks_nothing e = true) (map Service es).
Proof. induction 1; by constructor. Qed.

Lemma after_entry_asks i c ok es w evs w' : Forall (fun e => plain e = true) es ->
  after_entry i c ok es w = Some (evs, w') -> Forall (fun e => asks_nothing e = true) evs.
Proof.
  intros Hes. unfold after_entry. destruct ok; [|intros [= <- _]; by apply plain_services].
  destruct (heap _ !! c) as [ch|]; [|done]. cbn [mbind option_bind].
  destruct (mUD ch) as [id|]; [|done]. cbn [mbind option_bind]. unfold session_entered.
  destruct (captured _ !! c) as [cap|]; [|done]. cbn [mbind option_bind].
  destruct (cap_enter cap) as [f|].
  - destruct (getIOLoopDataBySocketID _ _) as [l'|]; [|done]. cbn [mbind option_bind].
    destruct (objects _ !! _) as [o|]; [|done]. cbn [mbind option_bind]. intros [= <- _].
    apply Forall_app. split; [by apply plain_services|by repeat constructor].
  - intros [= <- _]. rewrite app_nil_r. by apply plain_services.
Qed.

Lemma entry_plain direct i ok c s es s' : call_proc direct i ok (OnEnter c) s = Some (es, s') ->
  Forall (fun e => plain e = true) es.
Proof.
  intros E. pose proof (entry_result _ _ _ _ _ _ _ E) as H. destruct ok.
  - destruct H as (ch & id & _ & -> & _). by repeat constructor.
  - destruct H as [-> _]. constructor.
Qed.

Lemma run_loop_asks w i ok l evs w' : get_loop i (mTCPService w) = Some l -> run_loop i ok w = Some (evs, w') ->
  Forall (fun e => asks_nothing e = true) evs.
Proof.
  intros El Es. unfold run_loop in Es. rewrite El in Es. cbn [mbind option_bind] in Es.
  destruct (run_proc i ok (mTCPService w)) as [[es s']|] eqn:Er; [|done]. cbn [mbind option_bind] in Es.
  pose proof (run_result i ok _ l es s' El Er) as Hr.
  assert (Hq : (es = [] \/ exists e, es = [e] /\ quiet e = true /\ plain e = true) ->
    Forall (fun e => asks_nothing e = true) (map Service es)).
  { intros [->|(e & -> & _ & Hp)]; by repeat constructor. }
  destruct (procs l) as [|[c|id' m] rest] eqn:Ep; [injection Es as <- _; by apply Hq, Hr| |injection Es as <- _; by apply Hq, Hr].
  eapply after_entry_asks; [|exact Es]. unfold run_proc in Er. rewrite El in Er. cbn [mbind option_bind] in Er.
  rewrite Ep in Er. by eapply entry_plain.
Qed.

Lemma add_session_asks c socket fs thread n ok w evs w' : _addSession c socket fs thread n ok w = Some (evs, w') ->
  Forall (fun e => asks_nothing e = true) evs.
Proof.
  unfold _addSession, _addDataSocket. cbv zeta.
  destruct (AddSocketOption.maxRecvBufferSize _ <=? 0); [intros [= <- _]; by repeat constructor|].
  destruct (AddSocketOption.useSSL _); [intros [= <- _]; by repeat constructor|].
  unfold add_channel, helpAddChannel. cbn [mTCPService]. set (p := if AddSocketOption.forceSameThreadLoop _ then _ else _).
  destruct (place thread p (mTCPService w)) as [i|] eqn:Ep; [|intros [= <- _]; by repeat constructor].
  unfold pushAsyncProc. destruct (get_loop i _) as [l|]; [|done]. cbn [mbind option_bind].
  destruct (decide (thread = Some i)).
  - destruct (call_proc true i ok (OnEnter c) _) as [[es s']|] eqn:Ec; [|done]. cbn [mbind option_bind].
    destruct (after_entry i c ok es _) as [[evs1 w1]|] eqn:Ea; [|done]. cbn [mbind option_bind]. intros [= <- _].
    constructor; [done|]. eapply after_entry_asks; [|exact Ea]. by eapply entry_plain.
  - cbn [mbind option_bind]. intros [= <- _]. by repeat constructor.
Qed.

Lemma closed_asks w c evs w' : session_closed c w = Some (evs, w') -> Forall (fun e => asks_nothing e = true) evs.
Proof.
  unfold session_closed. destruct (heap _ !! c) as [ch|]; [|done]. cbn [mbind option_bind].
  destruct (captured w !! c) as [cap|]; [|done]. cbn [mbind option_bind].
  destruct (cap_disconnect cap) as [t'|]; [|done]. cbn [mbind option_bind].
  destruct (closeCallback c _) as [[es s']|] eqn:Ec; [|done]. cbn [mbind option_bind].
  destruct (objects w !! t') as [o|]; [|done]. cbn [mbind option_bind]. intros [= <- _].
  destruct (close_result _ _ _ _ Ec) as (ch' & id' & _ & _ & -> & _). by repeat constructor.
Qed.

Lemma perform_posts A V w thread t' op evs w' : winv A V w -> wallowed A w (Perform thread t' op) ->
  perform thread t' op w = Some (evs, w') -> posts_asked V evs.
Proof.
  intros Hw (o & i & Eo & Ei & Hr & _) Es direct t v id Ev Hid.
  destruct (in_use A V w Hw t' o i Eo Ei) as (v' & x & Ev' & Hid' & -> & Ex & Hsv & _).
  assert (Heq : t' = t <-> TCPSession.mSocketID o = id).
  { split; [intros ->; congruence|]. intros <-. by apply (winv_distinct A V w Hw t' t v' v (TCPSession.mSocketID o)). }
  assert (Hpost : forall m, ask_through thread t' m
      (postSessionAsyncProc thread (TCPSession.mSocketID o) m (mTCPService w)) w = Some (evs, w') ->
    omap (asked direct t (loopIndex (sid_of id))) evs = omap (reached direct id) (service_events evs)).
  { intros m E. unfold ask_through in E.
    destruct (postSessionAsyncProc _ _ m _) as [[es s']|] eqn:Ep; [|done]. cbn [mbind option_bind] in E.
    injection E as <- _. destruct (post_result _ _ _ _ _ _ Ep) as (_ & e & -> & _ & Hp).
    cbn [omap list_omap asked map service_event service_events]. rewrite Hp. destruct (decide (t' = t)) as [Et|Et].
    - rewrite decide_True by (by apply Heq). apply Heq in Et as <-. by destruct direct, (bool_decide _).
    - rewrite decide_False; [done|]. by rewrite <- Heq. }
  unfold perform in Es. rewrite Eo in Es. cbn [mbind option_bind] in Es. rewrite Hr in Es.
  unfold via_service in Es. rewrite Hsv in Es.
  destruct op as [ud|cb|cb|b| | |time]; try (by injection Es as <- _); try (by apply Hpost in Es).
  rewrite Ei in Es. cbn [mbind option_bind] in Es. apply (Hpost (Send b)). rewrite <- send_posts.
  unfold TCPService.send. destruct (winv_loop A V w Hw (TCPSession.mSocketID o)) as [l ->]; [by exists x|exact Es].
Qed.

(** Only [Opened] gives an identifier to a session. *)
Definition opens (e : wevent) : bool := match e with Opened _ _ _ _ _ => true | _ => false end.

Lemma view_ids_step V e V' t : view_step V e = Some V' -> opens e = false ->
  from_option view_id None (V' !! t) = from_option view_id None (V !! t).
Proof.
  assert (Hins : forall t' u u', V !! t' = Some u -> view_id u' = view_id u ->
    from_option view_id None (<[t' := u']> V !! t) = from_option view_id None (V !! t)).
  { intros t' u u' Eu Hu. destruct (decide (t' = t)) as [->|Hn]; [|by rewrite list_lookup_insert_ne].
    rewrite list_lookup_insert_eq by (by eapply lookup_lt_Some). rewrite Eu. exact Hu. }
  intros E Ho. destruct e as [e|t' c ip cb| | |t' c id ip cb|t' c data cb|c n|t' c cb|t' cb|t' cb|t' thread m];
    try done; cbn [view_step] in E; try (by injection E as <-).
  - case_decide as Et; [|done]. injection E as <-. destruct (V !! t) as [u|] eqn:Eu.
    + by rewrite (lookup_app_l_Some _ _ _ _ Eu).
    + rewrite lookup_app_r by (by apply lookup_ge_None). by destruct (t - length V)%nat as [|[|k]].
  - destruct (V !! t') as [v|]; [|done]. cbn [mbind option_bind] in E. by case_decide; simplify_eq.
  - destruct (V !! t') as [v|] eqn:Ev; [|done]. cbn [mbind option_bind] in E.
    destruct (open_id v) as [id|] eqn:Ei; [|done]. cbn [mbind option_bind] in E. case_decide; [|done]. injection E as <-.
    apply (Hins t' v); [done|]. unfold open_id in Ei. unfold view_id. by destruct (v_phase v); simplify_eq.
  - destruct (V !! t') as [v|] eqn:Ev; [|done]. cbn [mbind option_bind] in E. injection E as <-. by apply (Hins t' v).
  - destruct (V !! t') as [v|] eqn:Ev; [|done]. cbn [mbind option_bind] in E. injection E as <-. by apply (Hins t' v).
  - destruct (V !! t') as [v|]; [|done]. cbn [mbind option_bind] in E. by case_decide; simplify_eq.
Qed.

Lemma view_ids evs : forall V V' t, views V evs = Some V' -> Forall (fun e => opens e = false) evs ->
  from_option view_id None (V' !! t) = from_option view_id None (V !! t).
Proof.
  induction evs as [|e evs IH]; intros V V' t E Ho; cbn [views] in E; [by injection E as <-|].
  apply Forall_cons in Ho as [He Ho]. destruct (view_step V e) as [V1|] eqn:E1; [|done].
  rewrite (IH V1 V' t E Ho). by apply (view_ids_step V e).
Qed.

Lemma perform_opens w thread t op evs w' : perform thread t op w = Some (evs, w') -> Forall (fun e => opens e = false) evs.
Proof.
  assert (Hs : forall es, Forall (fun e => opens e = false) (map Service es)) by (intros es; induction es; by constructor).
  unfold perform. destruct (objects w !! t) as [o|]; [|done]. cbn [mbind option_bind].
  destruct (replaces_itself w thread t op); [done|].
  assert (Hask : forall m r, ask_through thread t m r w = Some (evs, w') -> Forall (fun e => opens e = false) evs).
  { intros m [[es s']|]; [|done]. cbn. intros [= <- _]. by constructor. }
  destruct op; try apply Hask; try (intros [= <- _]; by repeat constructor).
  destruct (TCPSession.mIoLoopData o); [|done]. apply Hask.
Qed.

Lemma step_posts A V w st evs w' V' : winv A V w -> wallowed A w st -> wstep st w = Some (evs, w') ->
  views V evs = Some V' -> posts_asked V' evs.
Proof.
  intros Hw Ha Es EV. destruct st as [c socket fs thread n ok|i ok|c data|c|thread t op|i n]; cbn [wstep] in Es.
  - by eapply posts_nothing, add_session_asks.
  - destruct Ha as [_ (l & _ & El & _)]. by eapply posts_nothing, run_loop_asks.
  - unfold session_data in Es. destruct Ha as [_ Hc].
    destruct (session_of A V w Hw c Hc) as (id' & x & t' & v' & o & _ & _ & _ & Hh & Ecap & _ & _ & _ & Eo & _).
    rewrite Hh in Es. cbn [mbind option_bind] in Es. rewrite Ecap in Es. cbn [mbind option_bind cap_data closures] in Es.
    rewrite Eo in Es. cbn [mbind option_bind] in Es. injection Es as <- _. apply posts_nothing.
    destruct (TCPSession.mDataCallback o); by repeat constructor.
  - by eapply posts_nothing, closed_asks.
  - intros direct t' v id Ev Hid. pose proof (view_ids evs V V' t' EV (perform_opens _ _ _ _ _ _ Es)) as E.
    rewrite Ev in E. cbn [from_option] in E. rewrite Hid in E. destruct (V !! t') as [v0|] eqn:Ev0; [|done].
    cbn [from_option] in E. by apply (perform_posts A V w thread t op evs w' Hw Ha Es direct t' v0).
  - apply posts_nothing. unfold return_from in Es. destruct (frames i w) as [|f rest]; [done|].
    injection Es as <- _. destruct f; by repeat constructor.
Qed.

(** What the events say of a session. *)
Lemma views_last l e V' : views [] (l ++ [e]) = Some V' -> exists V, views [] l = Some V /\ view_step V e = Some V'.
Proof.
  rewrite views_app. destruct (views [] l) as [V|]; [|done]. cbn. intros E. exists V. split; [done|].
  by destruct (view_step V e).
Qed.

Lemma no_asks evs : forall V, views [] evs = Some V -> forall direct t i, from_option view_id None (V !! t) = None ->
  omap (asked direct t i) evs = [].
Proof.
  induction evs as [|e evs IH] using rev_ind; intros V' EV direct t i Hid; [done|].
  destruct (views_last _ _ _ EV) as (V & EV0 & Es). rewrite omap_app.
  assert (Hn : from_option view_id None (V !! t) = None).
  { destruct (opens e) eqn:Ho; [|by rewrite <- (view_ids_step V e V' t Es Ho)].
    destruct e as [ | | | |t' c id ip cb| | | | | | ]; try done. cbn [view_step] in Es.
    destruct (V !! t') as [v|] eqn:Ev; [|done]. cbn [mbind option_bind] in Es. case_decide as Hd; [|done]. injection Es as <-.
    destruct (decide (t' = t)) as [->|Hne]; [|by rewrite list_lookup_insert_ne in Hid].
    rewrite Ev. cbn. unfold view_id. by rewrite (proj1 Hd). }
  rewrite (IH V EV0 direct t i Hn). destruct e as [ | | | | | | | | | |t' thread m]; try done. cbn [view_step] in Es. cbn.
  destruct (decide (t' = t)) as [->|]; [|done]. destruct (V !! t) as [v|]; [|done]. cbn in Es, Hn.
  rewrite decide_False in Es by (rewrite Hn; by apply is_Some_None). done.
Qed.

(** A session keeps its connection and its identifier. *)
Lemma view_follows V e V' t v id : view_step V e = Some V' -> V !! t = Some v -> view_id v = Some id ->
  exists v', V' !! t = Some v' /\ view_id v' = Some id /\ v_conn v' = v_conn v.
Proof.
  intros E Ev Hid.
  assert (Hins : forall t' u u', V !! t' = Some u -> v_conn u' = v_conn u -> (view_id u = None \/ view_id u' = view_id u) ->
    exists v', <[t' := u']> V !! t = Some v' /\ view_id v' = Some id /\ v_conn v' = v_conn v).
  { intros t' u u' Eu H1 H2. destruct (decide (t' = t)) as [->|Hn]; [|exists v; by rewrite list_lookup_insert_ne].
    rewrite Ev in Eu. injection Eu as <-. exists u'. split; [apply list_lookup_insert_eq; by eapply lookup_lt_Some|].
    split; [|done]. destruct H2; congruence. }
  destruct e as [e|t' c ip cb| | |t' c id' ip cb|t' c data cb|c n|t' c cb|t' cb|t' cb|t' thread m];
    cbn [view_step] in E; try (injection E as <-; by exists v).
  - case_decide; [|done]. injection E as <-. exists v. split; [by apply lookup_app_l_Some|done].
  - destruct (V !! t') as [u|] eqn:Eu; [|done]. cbn [mbind option_bind] in E. case_decide as Hd; [|done]. injection E as <-.
    apply (Hins t' u); [done..|]. left. unfold view_id. by rewrite (proj1 Hd).
  - destruct (V !! t') as [u|]; [|done]. cbn [mbind option_bind] in E. case_decide; [|done]. injection E as <-. by exists v.
  - destruct (V !! t') as [u|] eqn:Eu; [|done]. cbn [mbind option_bind] in E.
    destruct (open_id u) as [i|] eqn:Ei; [|done]. cbn [mbind option_bind] in E. case_decide; [|done]. injection E as <-.
    apply (Hins t' u); [done..|]. right. unfold open_id in Ei. unfold view_id. by destruct (v_phase u); simplify_eq.
  - destruct (V !! t') as [u|] eqn:Eu; [|done]. cbn [mbind option_bind] in E. injection E as <-.
    apply (Hins t' u); [done..|by right].
  - destruct (V !! t') as [u|] eqn:Eu; [|done]. cbn [mbind option_bind] in E. injection E as <-.
    apply (Hins t' u); [done..|by right].
  - destruct (V !! t') as [u|]; [|done]. cbn [mbind option_bind] in E. case_decide; [|done]. injection E as <-. by exists v.
Qed.

Lemma view_opened evs : forall V, views [] evs = Some V -> forall t c id ip cb, Opened t c id ip cb ∈ evs ->
  exists v, V !! t = Some v /\ view_id v = Some id /\ v_conn v = c.
Proof.
  induction evs as [|e evs IH] using rev_ind; intros V' EV t c id ip cb Hin; [by apply elem_of_nil in Hin|].
  destruct (views_last _ _ _ EV) as (V & EV0 & Es). apply elem_of_app in Hin as [Hin|Hin].
  - destruct (IH V EV0 _ _ _ _ _ Hin) as (v & Ev & Hid & Hc).
    destruct (view_follows V e V' t v id Es Ev Hid) as (v' & Ev' & H1 & H2). exists v'. by rewrite H2.
  - apply list_elem_of_singleton in Hin as <-. cbn [view_step] in Es.
    destruct (V !! t) as [v|] eqn:Ev; [|done]. cbn [mbind option_bind] in Es. case_decide as Hd; [|done]. injection Es as <-.
    exists (set_phase (Open id) v). split; [apply list_lookup_insert_eq; by eapply lookup_lt_Some|]. split; [done|apply Hd].
Qed.

(** It ends with the call of its disconnect callback. *)
Lemma view_closed_step V e V' t v' id : view_step V e = Some V' -> V' !! t = Some v' -> v_phase v' = Closed id ->
  (exists v, V !! t = Some v /\ v_phase v = Closed id /\ v_conn v = v_conn v') \/ exists cb, e = Ended t (v_conn v') cb.
Proof.
  intros E Ev' Hp.
  assert (Hins : forall t' u u', V !! t' = Some u -> <[t' := u']> V !! t = Some v' -> v_phase u' = v_phase u ->
    v_conn u' = v_conn u -> exists v, V !! t = Some v /\ v_phase v = Closed id /\ v_conn v = v_conn v').
  { intros t' u u' Eu El H1 H2. apply list_lookup_insert_Some in El as [(-> & <- & _)|(_ & El)]; [|by exists v'].
    exists u. split; [done|]. by rewrite <- H1, <- H2. }
  destruct e as [e|t' c ip cb| | |t' c id' ip cb|t' c data cb|c n|t' c cb|t' cb|t' cb|t' thread m];
    cbn [view_step] in E; try (injection E as <-; left; by exists v').
  - case_decide; [|done]. injection E as <-. left. apply lookup_app_Some in Ev' as [Ev'|[_ Ev']]; [by exists v'|].
    apply list_lookup_singleton_Some in Ev' as [_ <-]. done.
  - destruct (V !! t') as [u|] eqn:Eu; [|done]. cbn [mbind option_bind] in E. case_decide; [|done]. injection E as <-.
    left. apply list_lookup_insert_Some in Ev' as [(-> & <- & _)|(_ & Ev')]; [done|by exists v'].
  - destruct (V !! t') as [u|]; [|done]. cbn [mbind option_bind] in E. case_decide; [|done]. injection E as <-.
    left. by exists v'.
  - destruct (V !! t') as [u|] eqn:Eu; [|done]. cbn [mbind option_bind] in E.
    destruct (open_id u) as [i|] eqn:Ei; [|done]. cbn [mbind option_bind] in E. case_decide as Hd; [|done]. injection E as <-.
    apply list_lookup_insert_Some in Ev' as [(-> & <- & _)|(_ & Ev')]; [|left; by exists v'].
    right. exists cb. cbn. by rewrite (proj1 Hd).
  - destruct (V !! t') as [u|] eqn:Eu; [|done]. cbn [mbind option_bind] in E. injection E as <-. left. by eapply Hins.
  - destruct (V !! t') as [u|] eqn:Eu; [|done]. cbn [mbind option_bind] in E. injection E as <-. left. by eapply Hins.
  - destruct (V !! t') as [u|]; [|done]. cbn [mbind option_bind] in E. case_decide; [|done]. injection E as <-.
    left. by exists v'.
Qed.

Lemma view_ended evs : forall V, views [] evs = Some V -> forall t v id, V !! t = Some v -> v_phase v = Closed id ->
  exists cb, Ended t (v_conn v) cb ∈ evs.
Proof.
  induction evs as [|e evs IH] using rev_ind; intros V' EV t v' id Ev' Hp; [by injection EV as <-|].
  destruct (views_last _ _ _ EV) as (V & EV0 & Es).
  destruct (view_closed_step V e V' t v' id Es Ev' Hp) as [(v & Ev & Hv & <-)|[cb ->]].
  - destruct (IH V EV0 t v id Ev Hv) as [cb Hcb]. exists cb. apply elem_of_app. by left.
  - exists cb. apply elem_of_app. right. by left.
Qed.

(** A step that gives an identifier to a session finds it unused. *)
Lemma new_id A V V' w w' A' t v0 v id : winv A V w -> winv A' V' w' -> V' !! t = Some v -> view_id v = Some id ->
  (forall k u i, V !! k = Some u -> view_id u = Some i -> exists u', V' !! k = Some u' /\ view_id u' = Some i) ->
  V !! t = v0 -> from_option view_id None v0 <> Some id -> A !! id = None.
Proof.
  intros Hw Hw' Ev Hid Hf Ev0 Hn. destruct (A !! id) as [x|] eqn:Ex; [|done]. exfalso.
  destruct (winv_owned A V w Hw id ltac:(by eexists)) as (k & u & Eu & Hu).
  destruct (Hf k u id Eu Hu) as (u' & Eu' & Hu').
  assert (k = t) as -> by (by apply (winv_distinct A' V' w' Hw' k t u' v id)).
  rewrite Eu in Ev0. subst v0. done.
Qed.

Lemma views_follow evs : forall V V' t v id, views V evs = Some V' -> V !! t = Some v -> view_id v = Some id ->
  exists v', V' !! t = Some v' /\ view_id v' = Some id.
Proof.
  induction evs as [|e evs IH]; intros V V' t v id E Ev Hid; cbn [views] in E; [injection E as <-; by exists v|].
  destruct (view_step V e) as [V1|] eqn:E1; [|done].
  destruct (view_follows V e V1 t v id E1 Ev Hid) as (v1 & Ev1 & Hid1 & _). by apply (IH V1 V' t v1).
Qed.

(** What is asked for through a session is what is posted for its identifier. *)
Lemma wrun_asks n evs w V : 0 <= n <= 2 ^ 16 -> wrun n evs w -> views [] evs = Some V -> posts_asked V evs.
Proof.
  intros Hn Hr. revert V. induction Hr as [|evs w A st evs' w' Hr IH Em Ha Es]; intros V' EV' direct t v id Ev Hid.
  - injection EV' as <-. by destruct direct.
  - destruct (wrun_simulates n evs w Hn Hr) as (_ & A' & V & Em' & EV & Hw). rewrite Em in Em'. injection Em' as <-.
    rewrite views_app, EV in EV'. cbn [mbind option_bind] in EV'.
    destruct (wstep_simulated A V w Hw st Ha) as (e2 & w2 & A2 & V2 & Es2 & _ & EV2 & Hw2 & _).
    rewrite Es in Es2. injection Es2 as <- <-. rewrite EV' in EV2. injection EV2 as <-.
    rewrite omap_app, service_events_app, omap_app.
    rewrite (step_posts A V w st evs' w' V' Hw Ha Es EV' direct t v id Ev Hid). f_equal.
    destruct (from_option view_id None (V !! t)) as [i|] eqn:Ei.
    + destruct (V !! t) as [v0|] eqn:Ev0; [|done]. cbn in Ei.
      destruct (views_follow evs' V V' t v0 i EV' Ev0 Ei) as (v' & E1 & E2). rewrite Ev in E1. injection E1 as <-.
      rewrite Hid in E2. injection E2 as <-. by apply (IH V EV direct t v0).
    + rewrite (no_asks evs V EV direct t _ Ei). symmetry.
      assert (EA : A !! id = None).
      { apply (new_id A V V' w w' A2 t (V !! t) v id Hw Hw2 Ev Hid); [|done|by rewrite Ei].
        intros k u j. by apply (views_follow evs'). }
      pose proof (history _ A Em id) as Hh. rewrite EA in Hh. destruct direct; apply Hh.
Qed.

(** C18: the sessions of the application. In every interleaving of the loops, which
    enter, feed and close connections, with threads that add sessions and use them, the
    loops' own threads among them, within the functions of the application that run there: what
    happens below is a run of the service; each session that was added is entered at most
    once, with the address of its own socket, gets the data of its own connection only, by
    the data callback set last, and nothing once it has ended; no two sessions share an
    identifier, and each object shows the loop, the identifier and the address of its
    connection. No null pointer is used and no assertion fails, where a session is used from
    its enter callback on, its callbacks are set on its own loop and never replace a function
    that runs, and a loop has less than 65500 sessions when another enters. *)
Theorem sessions_shown n evs w :
  0 <= n <= 2 ^ 16 -> wrun n evs w ->
  run n (service_events evs) (mTCPService w) /\
  exists A V, mailbox ∅ (service_events evs) = Some A /\ views [] evs = Some V /\ distinct V /\
    (forall t v, V !! t = Some v -> exists o, objects w !! t = Some o /\ shown A v o) /\
    forall st, wallowed A w st -> exists evs' w', wstep st w = Some (evs', w').
Proof.
  intros Hn Hr. destruct (wrun_simulates n evs w Hn Hr) as (Hrun & A & V & Em & EV & Hw). split; [exact Hrun|].
  exists A, V. split; [exact Em|]. split; [exact EV|]. split; [apply Hw|]. split.
  - intros t v. by apply (object_of A V w Hw).
  - intros st Ha. destruct (wstep_simulated A V w Hw st Ha) as (evs' & w' & _ & _ & E & _). by exists evs', w'.
Qed.

(** C19: a request goes to the session it is made through. In every run as in C18, under
    the conditions given there on how sessions are used, what the loop's own thread asks
    for through a session is performed at once, on the session's own connection. Of what the
    other threads ask for, what is performed is performed on that connection too, once each
    and in the order of asking; the rest is skipped if the session has ended and waits
    otherwise. Nothing is skipped or missed before the session has ended. *)
Theorem session_asks n evs w t c id ip cb :
  0 <= n <= 2 ^ 16 -> wrun n evs w -> Opened t c id ip cb ∈ evs ->
  let below := service_events evs in
  Forall (fun c' => c' = c) (omap (concerns id) below) /\
  omap (performed id) below ++ omap (skipped id) below ++ queued id (mTCPService w) =
    omap (asked false t (loopIndex (sid_of id))) evs /\
  omap (at_once id) below = omap (asked true t (loopIndex (sid_of id))) evs /\
  ((forall cb', ~ Ended t c cb' ∈ evs) -> omap (skipped id) below = [] /\ omap (missed id) below = []).
Proof.
  intros Hn Hr Hin below. destruct (wrun_simulates n evs w Hn Hr) as (_ & A & V & Em & EV & Hw).
  destruct (view_opened evs V EV _ _ _ _ _ Hin) as (v & Ev & Hid & <-).
  destruct (object_of A V w Hw t v Ev) as (o & _ & _ & _ & _ & Hph).
  assert (Hx : exists x, A !! id = Some x /\ on x = v_conn v /\ ((forall i, v_phase v <> Closed i) -> is_open x = true)).
  { unfold view_id in Hid. destruct (v_phase v) as [|i|i]; [done|..]; injection Hid as ->;
      destruct Hph as (_ & _ & _ & x & Ex & Hon & Ho); exists x; split; [done|split; done|done|split; [done|]].
    intros H. by destruct (H id). }
  destruct Hx as (x & Ex & Hon & Ho). pose proof (history below A Em id) as Hh. rewrite Ex in Hh.
  destruct Hh as (H1 & H2 & H3). rewrite Hon in H3. split; [exact H3|].
  pose proof (fun direct => wrun_asks n evs w V Hn Hr EV direct t v id Ev Hid) as Hall.
  rewrite (Hall false), (Hall true). fold below. cbn [reached]. split; [|split; [done|]].
  - etransitivity; [|exact H1]. destruct (sim_session A _ (winv_service A V w Hw) id x Ex) as (l & El & _ & _ & Hp & _).
    unfold queued. by rewrite El, Hp.
  - intros Hne. apply H2, Ho. intros i Hi. destruct (view_ended evs V EV t v i Ev Hi) as [cb' Hcb]. by destruct (Hne cb').
Qed.

(** ** Options *)

Definition enter_of (f : AddSessionOption.Func) : option (option callback) :=
  match f with AddSessionOption.WithEnterCallback cb => Some cb | _ => None end.
Definition helper_of (f : AddSessionOption.Func) : option (option nat) :=
  match f with AddSessionOption.WithServerSideSSL h => Some h | _ => None end.
Definition ssl_of (f : AddSessionOption.Func) : bool :=
  match f with AddSessionOption.WithServerSideSSL _ | AddSessionOption.WithClientSideSSL => true | _ => false end.
Definition same_of (f : AddSessionOption.Func) : option bool :=
  match f with AddSessionOption.WithForceSameThreadLoop b => Some b | _ => None end.
Definition size_of (f : AddSessionOption.Func) : option Z :=
  match f with AddSessionOption.WithMaxRecvBufferSize n => Some n | _ => None end.

(** The value of the last option that sets it. *)
Definition last_of {T} (get : AddSessionOption.Func -> option T) (d : T) (fs : list (option AddSessionOption.Func)) : T :=
  from_option id d (last (omap get (omap id fs))).

Lemma collect_last fs : AddSessionOption.collect fs =
  AddSessionOption.mk (last_of enter_of None fs) (last_of helper_of None fs) (existsb ssl_of (omap id fs))
    (last_of same_of false fs) (last_of size_of 0 fs).
Proof.
  unfold AddSessionOption.collect, last_of. induction (omap id fs) as [|f l IH] using rev_ind; [done|].
  rewrite fold_left_app, IH, !omap_app, existsb_app.
  destruct f; cbn; rewrite ?last_snoc, ?app_nil_r, ?orb_true_r, ?orb_false_r; done.
Qed.

(** Adding a session, on every branch. It throws when the last size given is not
    positive, or none is given; it returns false, and leaves the service and the
    application's sessions as they were, when SSL is asked for or no loop can
    take the connection: there is none, or the same thread is asked for and the caller
    is not on a loop. Otherwise there is a new session, that is told to the last enter
    callback given, and the connection enters a loop, the caller's own if it asked so: at
    once on the caller's own loop, and when the loop runs the entry on another one. Options
    that are null are passed over. *)
Theorem add_session_outcome c socket fs thread n ok w :
  let where_ := if last_of same_of false fs then SameThread else Rand n in
  let t := length (objects w) in
  let v := mk_view c (GetIP socket) (last_of enter_of None fs) Waiting None None in
  let added := Added t c (v_ip v) (v_enter v) in
  if last_of size_of 0 fs <=? 0 then _addSession c socket fs thread n ok w = Some ([Threw], w)
  else match (if existsb ssl_of (omap id fs) then None else place thread where_ (mTCPService w)) with
  | None => _addSession c socket fs thread n ok w = Some ([Refused], w)
  | Some i =>
      let s := set_heap (<[c := mk_channel i None None]> (heap (mTCPService w))) (mTCPService w) in
      let with_service s' := mk_wrapped s' (objects w ++ [TCPSession.mk true None (-1) [] None None None])
        (<[c := closures t v]> (captured w)) (running w) in
      exists l, get_loop i (mTCPService w) = Some l /\
      _addSession c socket fs thread n ok w =
        if decide (thread = Some i) then
          '(evs, s') ← (if ok then enterCallback c s else Some ([], set_heap (delete c (heap s)) s));
          '(evs', w') ← after_entry i c ok evs (with_service s');
          Some (added :: evs', w')
        else Some ([added], with_service (set_loop i (enqueue (OnEnter c) l) s))
  end.
Proof.
  cbv zeta. unfold _addSession, _addDataSocket. rewrite options_passed, collect_last. cbv zeta.
  cbn [AddSocketOption.maxRecvBufferSize AddSocketOption.useSSL AddSessionOption.maxRecvBufferSize AddSessionOption.useSSL].
  destruct (last_of size_of 0 fs <=? 0); [done|]. destruct (existsb ssl_of _); [done|].
  unfold add_channel. cbn [AddSocketOption.forceSameThreadLoop AddSessionOption.forceSameThreadLoop mTCPService].
  set (p := if last_of same_of false fs then SameThread else Rand n).
  unfold helpAddChannel. destruct (place thread p (mTCPService w)) as [i|] eqn:Ep; [|done].
  destruct (place_loop thread p _ i Ep) as (_ & l & El). exists l. split; [done|].
  unfold pushAsyncProc. change (get_loop i (set_heap _ (mTCPService w))) with (get_loop i (mTCPService w)).
  rewrite El. cbn [mbind option_bind]. case_decide; [|done]. cbn [call_proc].
  destruct (if ok then _ else _) as [[evs s']|]; [|done]. cbn [mbind option_bind].
  by destruct (after_entry i c ok evs _) as [[evs' w']|].
Qed.

(** SyncConnectSession appends its enter callback to the options it is given: the caller's
    own is never called. *)
Lemma enter_appended fs cb : last_of enter_of None (fs ++ [Some (AddSessionOption.WithEnterCallback cb)]) = cb.
Proof. unfold last_of. rewrite !omap_app. cbn. by rewrite last_snoc. Qed.

(** ** Concrete runs *)

Definition wallowedb (A : sessions) (w : wrapped) (st : wlabel) : bool :=
  match st with
  | AddSession c _ fs thread n ok => allowedb A (mTCPService w) (AddSocket c (placement_of fs n) thread ok)
  | RunLoop i ok => bool_decide (frames i w = []) && allowedb A (mTCPService w) (Run i ok)
  | Data c _ | CloseConn c =>
      match heap (mTCPService w) !! c with Some ch => bool_decide (frames (enterLoop ch) w = []) | None => true end &&
      allowedb A (mTCPService w) (Close c)
  | Perform thread t op =>
      match objects w !! t with
      | Some o => match TCPSession.mIoLoopData o with
          | Some i => negb (replaces_itself w thread t op) &&
              match op with SetUD _ | SetDisConnectCallback _ | SetDataCallback _ => bool_decide (thread = Some i) | _ => true end
          | None => false
          end
      | None => false
      end
  | ReturnFrom i _ => bool_decide (frames i w <> [])
  end.

Lemma wallowedb_ok A w st : wallowedb A w st = true -> wallowed A w st.
Proof.
  assert (Hc : forall c, match heap (mTCPService w) !! c with Some ch => bool_decide (frames (enterLoop ch) w = []) | None => true end &&
      allowedb A (mTCPService w) (Close c) = true -> idle w c /\ connected A c).
  { intros c H. apply andb_true_iff in H as [H1 H2]. apply allowedb_ok in H2. split; [|exact H2].
    intros ch Ech. rewrite Ech in H1. by apply bool_decide_eq_true in H1. }
  destruct st as [c socket fs thread n ok|i ok|c data|c|thread t op|i n]; cbn [wallowedb wallowed]; try apply bool_decide_eq_true; try apply Hc.
  - apply allowedb_ok.
  - intros H. apply andb_true_iff in H as [H1 H2]. split; [by apply bool_decide_eq_true in H1|by apply allowedb_ok].
  - destruct (objects w !! t) as [o|] eqn:Eo; [|done]. destruct (TCPSession.mIoLoopData o) as [i|] eqn:Ei; [|done].
    intros H. apply andb_true_iff in H as [H1 H2]. exists o, i. split; [done|]. split; [done|].
    split; [by apply negb_true_iff|]. destruct op; try done; by apply bool_decide_eq_true in H2.
Qed.

Fixpoint wexec (l : list wlabel) (A : sessions) (w : wrapped) : option (list wevent * wrapped) :=
  match l with
  | [] => Some ([], w)
  | st :: l =>
      if wallowedb A w st then
        '(e1, w) ← wstep st w;
        A ← mailbox A (service_events e1);
        '(e2, w) ← wexec l A w;
        Some (e1 ++ e2, w)
      else None
  end.

Lemma wexec_run n l : forall evs A w evs' w', wrun n evs w -> mailbox ∅ (service_events evs) = Some A ->
  wexec l A w = Some (evs', w') -> wrun n (evs ++ evs') w'.
Proof.
  induction l as [|st l IH]; intros evs A w evs' w' Hr Em E; cbn [wexec] in E.
  - injection E as <- <-. by rewrite app_nil_r.
  - destruct (wallowedb A w st) eqn:Ea; [|done]. apply wallowedb_ok in Ea.
    destruct (wstep st w) as [[e1 w1]|] eqn:Es; [|done]. cbn [mbind option_bind] in E.
    destruct (mailbox A (service_events e1)) as [A1|] eqn:E1; [|done]. cbn [mbind option_bind] in E.
    destruct (wexec l A1 w1) as [[e2 w2]|] eqn:E2; [|done]. cbn [mbind option_bind] in E. injection E as <- <-.
    rewrite app_assoc. apply (IH _ A1 w1); [by eapply wrun_step| |done].
    by rewrite service_events_app, mailbox_app, Em.
Qed.

(** Two loops. The first session sets its callbacks when it enters, hears, is asked
    to send and to keep a heartbeat on its own loop and by another thread, which asks it to shut down
    too; within its data callback the second session is added and enters at once. When the first has
    ended a request is skipped. *)
Definition wdemo_socket : TcpSocket := mk_socket true (str "10.0.0.1").
Definition wdemo_options : list (option AddSessionOption.Func) :=
  [None; Some (AddSessionOption.WithMaxRecvBufferSize 64); Some (AddSessionOption.WithEnterCallback (Some 1%nat))].

Definition wdemo_steps : list wlabel :=
  [AddSession 7%nat wdemo_socket wdemo_options None 5 true; RunLoop 1 true;
   Perform (Some 1) 0%nat (SetDataCallback (Some 2%nat)); Perform (Some 1) 0%nat (SetDisConnectCallback (Some 3%nat));
   Perform (Some 1) 0%nat (SendPacket (str "hello")); ReturnFrom 1 0;
   Data 7%nat (str "ping"); Perform None 0%nat PostShutdown; Perform (Some 1) 0%nat (SetHeartBeat 9);
   AddSession 8%nat (mk_socket false (str "10.0.0.2")) wdemo_options (Some 1) 1 true; ReturnFrom 1 0; ReturnFrom 1 4;
   Perform None 0%nat (SendPacket (str "late")); RunLoop 1 true; CloseConn 7%nat; ReturnFrom 1 0; RunLoop 1 true].

Definition wdemo_events : list wevent :=
  let id2 := sid_id (mk_sid 1 98 1) in
  [Added 0%nat 7%nat (str "10.0.0.1") (Some 1%nat); Service (Entered 7%nat demo_id);
   Opened 0%nat 7%nat demo_id (str "10.0.0.1") (Some 1%nat);
   DataCallbackSet 0%nat (Some 2%nat); CloseCallbackSet 0%nat (Some 3%nat);
   Asked 0%nat (Some 1) (Send (str "hello")); Service (Direct 7%nat demo_id (Send (str "hello")));
   Heard 0%nat 7%nat (str "ping") (Some 2%nat); Asked 0%nat None Shutdown; Service (Posted demo_id Shutdown);
   Asked 0%nat (Some 1) (HeartBeat 9); Service (Direct 7%nat demo_id (HeartBeat 9));
   Added 1%nat 8%nat (str "10.0.0.2") (Some 1%nat); Service (Entered 8%nat id2);
   Opened 1%nat 8%nat id2 (str "10.0.0.2") (Some 1%nat); Took 7%nat 4;
   Asked 0%nat None (Send (str "late")); Service (Posted demo_id (Send (str "late")));
   Service (Performed 7%nat demo_id Shutdown);
   Service (Disconnected 7%nat demo_id); Ended 0%nat 7%nat (Some 3%nat);
   Service (Skipped demo_id (Send (str "late")))].

Lemma wdemo_run : exists w, wrun 2 wdemo_events w.
Proof.
  destruct (wexec wdemo_steps ∅ (wstarted 2)) as [[evs w]|] eqn:E; [|vm_compute in E; discriminate].
  exists w. assert (Ee : evs = wdemo_events).
  { assert (H : fst <$> wexec wdemo_steps ∅ (wstarted 2) = Some wdemo_events) by (vm_compute; reflexivity).
    rewrite E in H. by injection H. }
  rewrite <- Ee. exact (wexec_run 2 wdemo_steps [] ∅ (wstarted 2) evs w (wrun_start 2) eq_refl E).
Qed.

Lemma sessions_shown_witness : exists w A V, wrun 2 wdemo_events w /\
  mailbox ∅ (service_events wdemo_events) = Some A /\ views [] wdemo_events = Some V /\ distinct V.
Proof.
  destruct wdemo_run as (w & Hr).
  destruct (sessions_shown 2 wdemo_events w ltac:(lia) Hr) as (_ & A & V & Em & EV & Hd & _).
  exists w, A, V. split; [exact Hr|]. split; [exact Em|]. split; [exact EV|exact Hd].
Defined.

Lemma session_asks_witness : exists w, wrun 2 wdemo_events w /\
  omap (performed demo_id) (service_events wdemo_events) ++ omap (skipped demo_id) (service_events wdemo_events) ++
    queued demo_id (mTCPService w) = [Shutdown; Send (str "late")] /\
  omap (at_once demo_id) (service_events wdemo_events) = [Send (str "hello"); HeartBeat 9].
Proof.
  destruct wdemo_run as (w & Hr).
  destruct (session_asks 2 wdemo_events w 0%nat 7%nat demo_id (str "10.0.0.1") (Some 1%nat) ltac:(lia) Hr ltac:(do 2 right; left))
    as (_ & Hp & Hd & _).
  exists w. split; [exact Hr|]. rewrite Hp, Hd. split; reflexivity.
Defined.

(** A data callback that replaces itself destroys the function that runs. *)
Example replaced_while_running :
  match wexec (firstn 7 wdemo_steps) ∅ (wstarted 2) with
  | Some (_, w) => perform (Some 1) 0%nat (SetDataCallback (Some 4%nat)) w
  | None => Some ([], new_wrapped)
  end = None.
Proof. vm_compute. reflexivity. Qed.
